(* ===== verification/_CoqProject ===== *)
-Q . S2P
Prelude.v
Arrays.v
State.v
CString.v
Bitmap.v
Machine.v
Mips.v
Debug.v
Isa.v
Execute.v
Disasm.v
SectorDisk.v
Disk.v
FileHdr.v
OpenFile.v
Directory.v
FileSys.v
FsTest.v
List.v
Proc.v
Kernel.v
Switch.v
Synch.v
ThreadInv.v
ThreadSpecs.v
SynchSpecs.v
SystemSafe.v
ThreadTest.v
Lru.v
Vm.v
VmSafe.v
Loader.v
LoaderSafe.v
Paging.v
Console.v
ConsoleEcho.v
Network.v
NetworkSafe.v
MailTest.v
Process.v
ProcessSafe.v
Syscall.v
SyscallSafe.v
MachineTypes.v
KernelTypes.v
ConsoleWrite.v
Stubs.v
Noff.v
NoffSafe.v
Stacks.v
UserProgs.v
Start.v
