(* ===== verification/Prelude.v ===== *)
(** * Nachos 3.4 (CS170): a verification library

    Nachos is an operating system kernel that runs inside a UNIX process,
    on hardware that the process simulates.  Paths below are under
    src/nachos-3.4/code/.  The host is a 32-bit little-endian i386.

    ** Parts of the program, and where they are modelled

    - The simulated processor, machine/{machine,translate,mipssim}:
      Machine.v (registers, memory, page table and TLB, exceptions; the
      kernel enters through the class [KernelEntry]), Mips.v (decoding and
      execution of instructions) and Debug.v (the debugger).  Isa.v says
      what the architecture asks of the instructions that stay off memory.
    - The simulated devices: Disk.v (machine/disk and the synchronous disk
      of filesys/synchdisk), Console.v (machine/console and ConsoleTest of
      userprog/progtest.cc), Network.v (machine/network and
      network/post.cc), and the timer and the pending interrupts in
      Kernel.v (machine/{interrupt,timer,stats}).
    - Kernel threads: List.v (threads/list), Kernel.v
      (threads/{scheduler,thread}), Synch.v (threads/{synch,synchlist}).
      A thread is a resumable program of Proc.v, which loses the processor
      only at SWITCH; Switch.v has the instructions of threads/switch.c for
      the i386.  ThreadTest.v has the test of threads/threadtest.cc.
    - The file system of the FILESYS build, bottom up: Bitmap.v
      (userprog/bitmap), FileHdr.v (filesys/{filehdr,IndirectPointerBlock}),
      OpenFile.v, Directory.v, FileSys.v (the files of the same names).
      They use the disk through the interface of SectorDisk.v, which Disk.v
      implements.  FsTest.v has the test drivers of filesys/fstest.cc.
    - Virtual memory of the VM build: Lru.v (vm/lru and
      userprog/memorymanager), Vm.v (vm/{swapManager,vmManager} and the
      paging of userprog/addrspace.cc), Loader.v (the constructors of
      AddrSpace), Paging.v (the machine, the page fault handler and the
      paging code put together).
    - Processes and system calls: Process.v
      (userprog/{pcb,processmanager,useropenfile,sysopenfile}) and
      Syscall.v (userprog/exception.cc, ReadWrite of threads/system.cc,
      StartProcess of userprog/progtest.cc).
    - The start and the tests of the kernel: Start.v (threads/main.cc,
      Initialize and Cleanup of threads/system.cc, the switches of
      threads/utility.cc), MailTest.v (network/nettest.cc).
    - User programs: UserProgs.v (test/{sort,matmult,shell,halt,fork}.c) and
      Stubs.v (test/start.s, as instructions of the simulated processor).
    - Tools: Noff.v (bin/coff2noff.c, which makes executables), Execute.v
      (bin/{execute,system}.c, an older interpreter of MIPS code) and
      Disasm.v (bin/{d,out,disasm,opstrings}.c, the disassemblers, with the
      trace of machine/mipssim).
    - The C++ tutorial: Stacks.v (../c++example/).

    Every C++ class is a Record of its members, every method a function of
    the same name (a suffix tells overloads apart).  [res] below is the
    outcome of code that can fail: by an ASSERT, by an access outside an
    object, by Exit, by a trap of the host.  [M W] of State.v threads the
    state [W] of a component through.  What is not initialised in C++ (the
    bytes of new, members that a constructor leaves alone) is a parameter.

    ** What the theorems show

    - Safety of the thread system (SystemSafe.v, on ThreadInv.v,
      ThreadSpecs.v and SynchSpecs.v): any number of kernel threads that
      use locks, semaphores, conditions and synchronised lists by their
      rules fail no ASSERT under any interleaving the timer causes.  The
      thread test loses updates as it is built, and none with its
      semaphore (ThreadTest.v).  SWITCH gives every thread back its
      registers and stack, and a new thread runs its procedure (Switch.v).
    - The file system refines a finite map from names to contents:
      Create, Remove, Open, the initial format, isolation of writes
      (FileSys.v); reads and writes of byte ranges (OpenFile.v);
      allocation and release of blocks (FileHdr.v); the directory as a map
      (Directory.v); the bitmaps (Bitmap.v); the disk keeps what is written
      (Disk.v); a UNIX file that is copied in is printed as it was
      (FsTest.v).
    - The processor: translation refines its specification and stays in
      memory, memory keeps what is stored, no instruction accesses anything
      out of range (Machine.v, Mips.v); instructions do what the
      architecture says, or differ as stated (Isa.v), and the two simulators
      agree (Execute.v); the listings show what is executed (Disasm.v);
      single-stepping changes nothing (Debug.v).
    - Virtual memory: a page fault changes the contents of no page
      (VmSafe.v), so a program cannot tell demand paging from flat memory
      (Paging.v); executables are loaded as they are (LoaderSafe.v); the
      queue of pages and the frame allocator (Lru.v); what goes wrong when
      the victim belongs to another process, and when a file is too short.
    - Devices: what is typed at the console comes back in order
      (ConsoleEcho.v); mail is delivered in order and at most once
      (NetworkSafe.v), so two machines that run the mail test with each
      other come to its end (MailTest.v).
    - main makes the calls that the command line asks for, and Initialize
      builds what they need, or fails where it uses an object it has not
      built yet (Start.v).
    - Processes: the process table refines its specification
      (ProcessSafe.v); files cannot be used by processes (SyscallSafe.v);
      programs, system calls and paging together keep their types
      (MachineTypes.v for the simulator, KernelTypes.v for the kernel);
      a program that calls Write prints, through its stub, the simulator and
      the kernel, and one that returns from main exits with status 0
      (Stubs.v, on ConsoleWrite.v).  The shell runs the lines that are
      typed; sort.c does not sort (UserProgs.v).
    - The two stacks of the tutorial do what their base class promises, and
      their programs print what they should (Stacks.v).

    ** Fuel and bounds

    Loops with a fixed number of turns have that number as fuel.  List and
    queue traversals are given the number of elements.  ReadFile
    (Loader.v) and the loop of the processor (Mips.v) can run for ever:
    their fuel is a parameter, and LoaderSafe.v proves when ReadFile ends.
    The loops of FsTest.v that end with a read of 0 bytes have one, too,
    and FsTest.v proves that the length of the file is enough.
    The copying loops of ReadWrite (Syscall.v) move at least one byte a
    turn, so the size is fuel enough; ConsoleWrite.v proves it.  An int is
    the integer it denotes, with the wrap-around written out where the
    source can overflow; simulated time is unbounded.

    ** Simplifications

    - FileHdr.v: HdrSize is larger than the object; what the bcopy of
      FetchFrom and WriteBack does to the memory behind it is left out.
    - Kernel.v and Synch.v: addresses of threads are never reused, stacks
      do not overflow, [RequestDone] stands for the completion handlers of
      devices; the list that Mapcar walks is not changed while it walks.
      User programs are left to Syscall.v.
    - Console.v and Network.v have the semaphores, locks and lists of
      Synch.v seen from outside, with interrupts possible at any time.
    - Lru.v, Vm.v, Process.v: sequential.  A lock that another thread holds
      is never given back, since no thread loses the processor while it
      holds one; waiting for it ends the run.
    - Syscall.v is the kernel without -rs: threads change where they ask
      to.  The traces the calls print are left out.  In Paging.v the system
      calls are a parameter.
    - Execute.v: the calls of UNIX are a parameter; a shift by a register
      uses the low five bits of the amount, as the host does.
    - Start.v: what a constructor does beyond its uses of other globals is
      a parameter, as is whether the procedures main calls come back; the
      number that atof makes of the reliability is kept as its text.
    - MailTest.v: a machine that has halted stays on the network; nothing is
      sent to it any more.
    - new always succeeds.

    ** Not modelled

    Text output for debugging (the Print methods, DEBUG, Statistics::Print),
    the wrappers of UNIX calls in machine/sysdep.cc, the context switch of
    other hosts, the reading of COFF files by bin/{out,disasm}.c, whose
    layout is that of headers of the host; bin/coff2flat.c and
    userprog/sysOpenFileManager.cc, which no build uses.  CString.v has what
    the source uses of the C library's strings and numbers. *)

From Stdlib Require Import ZArith Lia.
From stdpp Require Import base list numbers option.

#[global] Set Default Goal Selector "!".
#[global] Open Scope Z_scope.

Create HintDb nachos.

(** ** Outcomes of a C++ computation *)

(** Why a computation of the kernel stops without a result. *)
Inductive err :=
  | AssertFailed   (* the ASSERT macro fired and Abort() was called *)
  | MemFault       (* an access outside the object, or through NULL *)
  | Exited         (* the process called Exit() *)
  | HostTrap.      (* an arithmetic trap of the host (SIGFPE) *)

#[export] Instance err_eq_dec : EqDecision err.
Proof. solve_decision. Defined.

Inductive res (A : Type) :=
  | Ok (a : A)
  | Err (e : err).
Arguments Ok {A} _.
Arguments Err {A} _.

#[export] Instance res_ret : MRet res := fun A a => Ok a.
#[export] Instance res_bind : MBind res :=
  fun A B f m => match m with Ok a => f a | Err e => Err e end.
#[export] Instance res_fmap : FMap res :=
  fun A B f m => match m with Ok a => Ok (f a) | Err e => Err e end.

(** [ASSERT(condition)] of utility.h. *)
Definition ASSERT (condition : bool) : res unit :=
  if condition then Ok tt else Err AssertFailed.

(** Dereferencing a possibly absent object. *)
Definition deref {A} (o : option A) : res A :=
  match o with Some a => Ok a | None => Err MemFault end.

Definition is_ok {A} (m : res A) : bool :=
  match m with Ok _ => true | Err _ => false end.

Lemma bind_Ok {A B} (f : A -> res B) (a : A) : (Ok a ≫= f) = f a.
Proof. reflexivity. Qed.

Lemma bind_Err {A B} (f : A -> res B) (e : err) : (Err e ≫= f) = Err e.
Proof. reflexivity. Qed.

Lemma bind_Ok_inv {A B} (m : res A) (f : A -> res B) (b : B) :
  (m ≫= f) = Ok b -> exists a, m = Ok a /\ f a = Ok b.
Proof. destruct m as [a|e]; simpl; [eauto|discriminate]. Qed.

Lemma ASSERT_Ok_inv b u : ASSERT b = Ok u -> b = true.
Proof. destruct b; [done|discriminate]. Qed.

Lemma ASSERT_true b : b = true -> ASSERT b = Ok tt.
Proof. by intros ->. Qed.

Lemma deref_Ok_inv {A} (o : option A) a : deref o = Ok a -> o = Some a.
Proof. destruct o; simpl; congruence. Qed.

(** Invert every [_ ≫= _ = Ok _] hypothesis in the context. *)
Ltac invert_res :=
  repeat match goal with
  | H : (_ ≫= _) = Ok _ |- _ =>
      apply bind_Ok_inv in H; let x := fresh "r" in
      let E := fresh "E" in destruct H as (x & E & H)
  | H : ASSERT _ = Ok _ |- _ => apply ASSERT_Ok_inv in H
  | H : deref _ = Ok _ |- _ => apply deref_Ok_inv in H
  | H : Ok _ = Ok _ |- _ => injection H as H; subst
  | H : Err _ = Ok _ |- _ => discriminate H
  | u : unit |- _ => destruct u
  end.

(** ** Loops *)

Section Loops.
Context {St R : Type}.

(** [for (i = i0; n iterations; i++)], whose body may return from the
    enclosing function with a value of [R]. *)
Fixpoint for_break (n : nat) (i : Z) (body : Z -> St -> res (St + R)) (s : St)
  : res (St + R) :=
  match n with
  | O => Ok (inl s)
  | S n' =>
      r ← body i s;
      match r with
      | inl s' => for_break n' (i + 1) body s'
      | inr v => Ok (inr v)
      end
  end.

(** The same loop when the body never leaves the function. *)
Fixpoint for_loop (n : nat) (i : Z) (body : Z -> St -> res St) (s : St) : res St :=
  match n with
  | O => Ok s
  | S n' => s' ← body i s; for_loop n' (i + 1) body s'
  end.

(** The invariant rule for [for_loop]: the loop succeeds when the body
    does and the invariant holds at the end. *)
Lemma for_loop_inv (P : Z -> St -> Prop) (body : Z -> St -> res St) n i s :
  P i s ->
  (forall j t, i <= j < i + Z.of_nat n -> P j t ->
     exists t', body j t = Ok t' /\ P (j + 1) t') ->
  exists s', for_loop n i body s = Ok s' /\ P (i + Z.of_nat n) s'.
Proof.
  revert i s. induction n as [|n IH]; intros i s HP Hstep; cbn [for_loop].
  - exists s. split; [done|]. by replace (i + Z.of_nat 0) with i by lia.
  - destruct (Hstep i s) as (t & -> & Ht); [lia|done|]. cbn [mbind res_bind].
    destruct (IH (i + 1) t Ht) as (s' & Hs' & HP').
    { intros j u Hj. apply Hstep. lia. }
    exists s'. split; [done|].
    by replace (i + Z.of_nat (S n)) with (i + 1 + Z.of_nat n) by lia.
Qed.

End Loops.

(** ** Machine integers

    A C++ [int] is the integer it denotes, in [-2^31, 2^31); an
    [unsigned] is in [0, 2^32).  Arithmetic is that of Z followed by the
    conversion back to the type (two's complement, gcc on i386). *)

Definition u8 (z : Z) : Z := z mod 2 ^ 8.
Definition u16 (z : Z) : Z := z mod 2 ^ 16.
Definition u32 (z : Z) : Z := z mod 2 ^ 32.
Definition s8 (z : Z) : Z := (z + 2 ^ 7) mod 2 ^ 8 - 2 ^ 7.
Definition s16 (z : Z) : Z := (z + 2 ^ 15) mod 2 ^ 16 - 2 ^ 15.
Definition s32 (z : Z) : Z := (z + 2 ^ 31) mod 2 ^ 32 - 2 ^ 31.

Definition in_u8 (z : Z) : Prop := 0 <= z < 2 ^ 8.
Definition in_u32 (z : Z) : Prop := 0 <= z < 2 ^ 32.
Definition in_s32 (z : Z) : Prop := - 2 ^ 31 <= z < 2 ^ 31.

Lemma u32_range z : in_u32 (u32 z).
Proof. unfold in_u32, u32. apply Z.mod_pos_bound. lia. Qed.

Lemma u8_range z : in_u8 (u8 z).
Proof. unfold in_u8, u8. apply Z.mod_pos_bound. lia. Qed.

Lemma s32_range z : in_s32 (s32 z).
Proof. unfold in_s32, s32. pose proof (Z.mod_pos_bound (z + 2 ^ 31) (2 ^ 32)). lia. Qed.

Lemma u32_id z : in_u32 z -> u32 z = z.
Proof. intros H. apply Z.mod_small. exact H. Qed.

Lemma u8_id z : in_u8 z -> u8 z = z.
Proof. intros H. apply Z.mod_small. exact H. Qed.

Lemma s32_id z : in_s32 z -> s32 z = z.
Proof. unfold in_s32, s32. intros H. rewrite Z.mod_small; lia. Qed.

Lemma u32_s32 z : u32 (s32 z) = u32 z.
Proof.
  unfold u32, s32. rewrite Zminus_mod_idemp_l. f_equal. lia.
Qed.

Lemma s32_u32 z : s32 (u32 z) = s32 z.
Proof.
  unfold u32, s32. rewrite Zplus_mod_idemp_l. done.
Qed.

Lemma u32_mod_eq a b : u32 a = u32 b -> s32 a = s32 b.
Proof. intros H. by rewrite <-(s32_u32 a), H, s32_u32. Qed.

Lemma in_u32_iff z : in_u32 z <-> u32 z = z.
Proof. split; [apply u32_id|intros <-; apply u32_range]. Qed.

Lemma u32_land_ones z : u32 z = Z.land z (Z.ones 32).
Proof. unfold u32. by rewrite Z.land_ones by lia. Qed.

(** The unsigned words are closed under the bit operations. *)
Lemma in_u32_lor a b : in_u32 a -> in_u32 b -> in_u32 (Z.lor a b).
Proof. rewrite !in_u32_iff, !u32_land_ones, Z.land_lor_distr_l. congruence. Qed.

Lemma in_u32_land a b : in_u32 b -> in_u32 (Z.land a b).
Proof. rewrite !in_u32_iff, !u32_land_ones, <-Z.land_assoc. congruence. Qed.

#[export] Hint Resolve in_u32_lor in_u32_land : nachos.
#[export] Hint Resolve u8_range u32_range s32_range : nachos.

(** Rounded division (the macros of utility.h; C division truncates). *)
Definition divRoundDown (n s : Z) : Z := Z.quot n s.
Definition divRoundUp (n s : Z) : Z :=
  Z.quot n s + (if 0 <? Z.rem n s then 1 else 0).

Lemma divRoundUp_spec n s : 0 <= n -> 0 < s ->
  (divRoundUp n s - 1) * s < n <= divRoundUp n s * s.
Proof.
  intros Hn Hs. unfold divRoundUp.
  pose proof (Z.quot_rem' n s). pose proof (Z.rem_bound_pos n s Hn Hs).
  destruct (Z.ltb_spec 0 (Z.rem n s)); nia.
Qed.

Lemma divRoundUp_nonneg n s : 0 <= n -> 0 < s -> 0 <= divRoundUp n s.
Proof. intros Hn Hs. pose proof (divRoundUp_spec n s Hn Hs). nia. Qed.

(** The ints are the integers whose bits from 31 on agree, so they are
    closed under the bit operations. *)
Lemma in_s32_shiftr z : in_s32 z <-> Z.shiftr z 31 = 0 \/ Z.shiftr z 31 = -1.
Proof.
  unfold in_s32. rewrite Z.shiftr_div_pow2 by lia.
  change (2 ^ 31) with 2147483648. Z.to_euclidean_division_equations. lia.
Qed.

Lemma in_s32_land a b : in_s32 a -> in_s32 b -> in_s32 (Z.land a b).
Proof. rewrite !in_s32_shiftr, Z.shiftr_land. intros [->| ->] [->| ->]; auto. Qed.

Lemma in_s32_lor a b : in_s32 a -> in_s32 b -> in_s32 (Z.lor a b).
Proof. rewrite !in_s32_shiftr, Z.shiftr_lor. intros [->| ->] [->| ->]; auto. Qed.

Lemma in_s32_lxor a b : in_s32 a -> in_s32 b -> in_s32 (Z.lxor a b).
Proof. rewrite !in_s32_shiftr, Z.shiftr_lxor. intros [->| ->] [->| ->]; auto. Qed.

Lemma in_s32_lnot a : in_s32 a -> in_s32 (Z.lnot a).
Proof. unfold in_s32. pose proof (Z.add_lnot_diag a). lia. Qed.

Lemma in_s32_shr a n : in_s32 a -> 0 <= n -> in_s32 (Z.shiftr a n).
Proof.
  rewrite !in_s32_shiftr. intros H Hn. rewrite Z.shiftr_shiftr, Z.add_comm by lia.
  rewrite <-Z.shiftr_shiftr by lia. destruct H as [->| ->].
  - left. apply Z.shiftr_0_l.
  - right. rewrite Z.shiftr_div_pow2 by lia. pose proof (Z.pow_pos_nonneg 2 n).
    symmetry. apply (Z.div_unique _ _ _ (2 ^ n - 1)); lia.
Qed.

Lemma in_s32_land_nonneg a b : 0 <= b < 2 ^ 31 -> in_s32 (Z.land a b).
Proof.
  intros [Hb Hu]. apply in_s32_shiftr. left. rewrite Z.shiftr_land.
  replace (Z.shiftr b 31) with 0; [apply Z.land_0_r|].
  rewrite Z.shiftr_div_pow2, Z.div_small by lia. done.
Qed.

Lemma s8_range z : in_s32 (s8 z).
Proof. unfold in_s32, s8. pose proof (Z.mod_pos_bound (z + 2 ^ 7) (2 ^ 8)). lia. Qed.

#[export] Hint Resolve in_s32_land in_s32_lor in_s32_lxor in_s32_lnot s8_range : nachos.

(** ** Results that are no memory fault *)

(** [safe Q r]: the computation does not access memory outside its
    objects, and its result, if any, satisfies [Q]. *)
Definition safe {A} (Q : A -> Prop) (r : res A) : Prop :=
  match r with Ok a => Q a | Err MemFault => False | Err _ => True end.

Lemma safe_bind {A B} (P : A -> Prop) (Q : B -> Prop) (r : res A) (f : A -> res B) :
  safe P r -> (forall a, P a -> safe Q (f a)) -> safe Q (r ≫= f).
Proof. destruct r as [a|[]]; simpl; auto. Qed.

Lemma safe_mono {A} (P Q : A -> Prop) (r : res A) :
  safe P r -> (forall a, P a -> Q a) -> safe Q r.
Proof. destruct r as [a|[]]; simpl; auto. Qed.

Lemma safe_ASSERT b : safe (fun _ => b = true) (ASSERT b).
Proof. by destruct b. Qed.

Lemma safe_Ok_inv {A} (Q : A -> Prop) r a : safe Q r -> r = Ok a -> Q a.
Proof. intros H ->. exact H. Qed.
