(* ===== verification/Arrays.v ===== *)
(** * Arrays, byte ranges and the little-endian layout of words

    C++ arrays are lists indexed by an [int]: an access outside the list
    is a [MemFault], never a default value.  [slice]/[splice] are what
    [bcopy] reads and writes.  The byte layout is that of the i386 host:
    little endian, four bytes to an [int]. *)

From stdpp Require Import base list numbers.
From S2P Require Import Prelude.

Create Rewrite HintDb zlen.

Definition zlen {A} (l : list A) : Z := Z.of_nat (length l).

Section Access.
Context {A : Type}.
Implicit Types (l : list A) (x : A) (i j : Z).

(** [l[i]] as a value. *)
Definition aget l i : res A :=
  if 0 <=? i then deref (l !! Z.to_nat i) else Err MemFault.

(** [l[i] = x]. *)
Definition aset l i x : res (list A) :=
  if (0 <=? i) && (i <? zlen l) then Ok (<[Z.to_nat i := x]> l) else Err MemFault.

Lemma aget_lookup l i x : 0 <= i -> l !! Z.to_nat i = Some x -> aget l i = Ok x.
Proof. intros Hi H. unfold aget. rewrite (proj2 (Z.leb_le 0 i) Hi), H. done. Qed.

Lemma aget_Ok_inv l i x :
  aget l i = Ok x -> 0 <= i < zlen l /\ l !! Z.to_nat i = Some x.
Proof.
  unfold aget. destruct (Z.leb_spec 0 i) as [Hi|]; [|done].
  destruct (l !! Z.to_nat i) eqn:E; simpl; [|done]. intros [= ->].
  apply lookup_lt_Some in E as Hlt. unfold zlen. split; [lia|done].
Qed.

Lemma aget_in_range l i : 0 <= i < zlen l -> exists x, aget l i = Ok x.
Proof.
  intros H. destruct (lookup_lt_is_Some_2 l (Z.to_nat i)) as [x Hx]; [unfold zlen in H; lia|].
  exists x. apply aget_lookup; [lia|done].
Qed.

Lemma aset_in_range l i x :
  0 <= i < zlen l -> aset l i x = Ok (<[Z.to_nat i := x]> l).
Proof.
  intros H. unfold aset. rewrite (proj2 (Z.leb_le 0 i)), (proj2 (Z.ltb_lt i _)) by lia. done.
Qed.

Lemma aset_Ok_inv l i x l' :
  aset l i x = Ok l' -> 0 <= i < zlen l /\ l' = <[Z.to_nat i := x]> l.
Proof.
  unfold aset. destruct (Z.leb_spec 0 i); [|done].
  destruct (Z.ltb_spec i (zlen l)); [|done]. intros [= <-]. done.
Qed.

Lemma zlen_insert l n x : zlen (<[n := x]> l) = zlen l.
Proof. unfold zlen. by rewrite length_insert. Qed.

Lemma aget_insert_eq l i x : 0 <= i < zlen l -> aget (<[Z.to_nat i := x]> l) i = Ok x.
Proof.
  intros H. apply aget_lookup; [lia|]. apply list_lookup_insert_eq. unfold zlen in H. lia.
Qed.

Lemma aget_insert_ne l i j x :
  0 <= i -> i <> j -> aget (<[Z.to_nat i := x]> l) j = aget l j.
Proof.
  intros H Hij. unfold aget. destruct (Z.leb_spec 0 j); [|done].
  rewrite list_lookup_insert_ne; [done|lia].
Qed.

(** *** Ranges *)

Definition slice (off n : Z) l : list A := take (Z.to_nat n) (drop (Z.to_nat off) l).

Definition splice (off : Z) (new : list A) l : list A :=
  take (Z.to_nat off) l ++ new ++ drop (Z.to_nat off + length new) l.

(** What [bcopy] reads from and writes into a buffer of the given size. *)
Definition bread (off n : Z) l : res (list A) :=
  if (0 <=? off) && (0 <=? n) && (off + n <=? zlen l) then Ok (slice off n l)
  else Err MemFault.

Definition bwrite (off : Z) (new : list A) l : res (list A) :=
  if (0 <=? off) && (off + zlen new <=? zlen l) then Ok (splice off new l)
  else Err MemFault.

Lemma zlen_slice off n l :
  0 <= off -> 0 <= n -> off + n <= zlen l -> zlen (slice off n l) = n.
Proof. intros. unfold zlen, slice in *. rewrite length_take, length_drop. lia. Qed.

Lemma zlen_splice off new l :
  0 <= off -> off + zlen new <= zlen l -> zlen (splice off new l) = zlen l.
Proof.
  intros. unfold zlen, splice in *. rewrite !length_app, length_take, length_drop. lia.
Qed.

Lemma zlen_app l1 l2 : zlen (l1 ++ l2) = zlen l1 + zlen l2.
Proof. unfold zlen. rewrite length_app. lia. Qed.

Lemma bread_Ok off n l :
  0 <= off -> 0 <= n -> off + n <= zlen l -> bread off n l = Ok (slice off n l).
Proof.
  intros. unfold bread.
  rewrite (proj2 (Z.leb_le 0 off)), (proj2 (Z.leb_le 0 n)), (proj2 (Z.leb_le _ _)) by lia. done.
Qed.

Lemma bwrite_Ok off new l :
  0 <= off -> off + zlen new <= zlen l -> bwrite off new l = Ok (splice off new l).
Proof.
  intros. unfold bwrite.
  rewrite (proj2 (Z.leb_le 0 off)), (proj2 (Z.leb_le _ _)) by lia. done.
Qed.

Lemma slice_lookup off n l (k : nat) :
  0 <= off -> slice off n l !! k =
    if decide (Z.of_nat k < n) then l !! (Z.to_nat off + k)%nat else None.
Proof.
  intros Ho. unfold slice. case_decide.
  - rewrite lookup_take_lt by lia. by rewrite lookup_drop.
  - apply lookup_take_ge. lia.
Qed.

Lemma splice_lookup off new l (k : nat) :
  0 <= off -> off + zlen new <= zlen l ->
  splice off new l !! k =
    if decide (off <= Z.of_nat k < off + zlen new)
    then new !! (k - Z.to_nat off)%nat else l !! k.
Proof.
  intros Ho Hl. unfold splice, zlen in *. case_decide as Hk.
  - rewrite lookup_app_r by (rewrite length_take; lia).
    rewrite lookup_app_l by (rewrite length_take; lia).
    rewrite length_take. f_equal. lia.
  - destruct (decide (Z.of_nat k < off)).
    + rewrite lookup_app_l by (rewrite length_take; lia). apply lookup_take_lt. lia.
    + rewrite lookup_app_r by (rewrite length_take; lia).
      rewrite lookup_app_r by (rewrite length_take; lia).
      rewrite lookup_drop, length_take. f_equal. lia.
Qed.

Lemma slice_splice_eq off new l :
  0 <= off -> off + zlen new <= zlen l -> slice off (zlen new) (splice off new l) = new.
Proof.
  intros Ho Hl. apply list_eq. intros k. rewrite slice_lookup by done.
  case_decide as Hk.
  - rewrite splice_lookup by done. rewrite decide_True by lia. f_equal. lia.
  - symmetry. apply lookup_ge_None_2. unfold zlen in Hk. lia.
Qed.

(** The range written begins every longer one at the same place. *)
Lemma slice_splice_prefix off new l n :
  0 <= off -> off + zlen new <= zlen l -> zlen new <= n -> new `prefix_of` slice off n (splice off new l).
Proof.
  intros Ho Hl Hn. unfold slice, splice, zlen in *.
  rewrite drop_app_length' by (rewrite length_take; lia). rewrite take_app_ge by lia. by eexists.
Qed.

Lemma slice_app_prefix off n l l' : slice off n l `prefix_of` slice off n (l ++ l').
Proof. unfold slice. rewrite drop_app, take_app. by eexists. Qed.

Lemma slice_splice_ne off new l off' n :
  0 <= off -> off + zlen new <= zlen l -> 0 <= off' ->
  off' + n <= off \/ off + zlen new <= off' ->
  slice off' n (splice off new l) = slice off' n l.
Proof.
  intros Ho Hl Ho' Hd. apply list_eq. intros k. rewrite !slice_lookup by done.
  case_decide as Hk; [|done]. rewrite splice_lookup by done.
  rewrite decide_False by lia. done.
Qed.

(** Writing a range one element at a time. *)
Lemma splice_cons i x new l :
  0 <= i -> i + 1 + zlen new <= zlen l ->
  splice i (x :: new) l = splice (i + 1) new (<[Z.to_nat i := x]> l).
Proof.
  intros Hi Hl. assert (Hz : zlen (x :: new) = 1 + zlen new) by (unfold zlen; cbn [length]; lia).
  apply list_eq. intros k. rewrite !splice_lookup by (rewrite ?zlen_insert; lia). rewrite Hz.
  destruct (decide (Z.of_nat k = i)) as [Hk|Hk].
  - rewrite decide_True, decide_False by (unfold zlen; lia).
    replace (k - Z.to_nat i)%nat with 0%nat by lia. replace (Z.to_nat i) with k by lia.
    symmetry. apply list_lookup_insert_eq. unfold zlen in Hl. lia.
  - rewrite list_lookup_insert_ne by lia.
    destruct (decide (i + 1 <= Z.of_nat k < i + 1 + zlen new)).
    + rewrite decide_True by lia.
      replace (k - Z.to_nat i)%nat with (S (k - Z.to_nat (i + 1))) by lia. done.
    + by rewrite decide_False by lia.
Qed.

Lemma splice_whole new l : zlen new = zlen l -> splice 0 new l = new.
Proof. intros H. unfold splice, zlen in *. rewrite drop_ge by lia. by rewrite app_nil_r. Qed.

Lemma splice_splice i new new' l :
  0 <= i -> i + zlen new + zlen new' <= zlen l ->
  splice (i + zlen new) new' (splice i new l) = splice i (new ++ new') l.
Proof.
  intros Hi Hl. unfold splice, zlen in *.
  replace (Z.to_nat (i + Z.of_nat (length new))) with (Z.to_nat i + length new)%nat by lia.
  assert (Ht : length (take (Z.to_nat i) l) = Z.to_nat i) by (rewrite length_take; lia).
  rewrite (app_assoc (take _ l) new), take_app_length' by (rewrite length_app, Ht; lia).
  rewrite <-!app_assoc. do 2 f_equal. f_equal.
  rewrite (app_assoc (take _ l) new), drop_app_ge by (rewrite length_app, Ht; lia).
  rewrite length_app, Ht, drop_drop, length_app. f_equal. lia.
Qed.

Lemma splice_nil i l : splice i [] l = l.
Proof. unfold splice. cbn [app length]. by rewrite Nat.add_0_r, take_drop. Qed.

Lemma slice_all l : slice 0 (zlen l) l = l.
Proof. unfold slice, zlen. rewrite drop_0, Nat2Z.id. apply take_ge. lia. Qed.

End Access.

Lemma Forall_slice {A} (P : A -> Prop) off n l : Forall P l -> Forall P (slice off n l).
Proof. intros H. unfold slice. by apply Forall_take, Forall_drop. Qed.

Lemma Forall_splice {A} (P : A -> Prop) off new l :
  Forall P new -> Forall P l -> Forall P (splice off new l).
Proof.
  intros Hn Hl. unfold splice. apply Forall_app. split; [by apply Forall_take|].
  apply Forall_app. split; [done|by apply Forall_drop].
Qed.

#[export] Hint Resolve Forall_slice Forall_splice : nachos.

Lemma filter_ext_in {A} (P Q : A -> Prop) `{!forall x, Decision (P x)} `{!forall x, Decision (Q x)} (l : list A) :
  (forall x, x ∈ l -> P x <-> Q x) -> filter P l = filter Q l.
Proof.
  induction l as [|a l IH]; intros Hpq; [done|]. rewrite !filter_cons.
  rewrite IH by (intros x Hx; apply Hpq; by right).
  destruct (Hpq a ltac:(left)) as [H1 H2].
  destruct (decide (P a)), (decide (Q a)); tauto || done.
Qed.

(** ** Little-endian bytes of an integer *)

Fixpoint le_bytes (n : nat) (z : Z) : list Z :=
  match n with
  | O => []
  | S n' => z mod 256 :: le_bytes n' (z / 256)
  end.

Fixpoint le_val (bs : list Z) : Z :=
  match bs with
  | [] => 0
  | b :: bs' => b + 256 * le_val bs'
  end.

Lemma length_le_bytes n z : length (le_bytes n z) = n.
Proof. revert z. induction n as [|n IH]; intros z; simpl; [done|by rewrite IH]. Qed.

Lemma le_bytes_in_u8 n z : Forall in_u8 (le_bytes n z).
Proof.
  revert z. induction n as [|n IH]; intros z; simpl; [constructor|].
  constructor; [|apply IH]. unfold in_u8. apply Z.mod_pos_bound. lia.
Qed.

Lemma le_val_le_bytes n z : le_val (le_bytes n z) = z mod 256 ^ Z.of_nat n.
Proof.
  revert z. induction n as [|n IH]; intros z; cbn [le_bytes le_val].
  - by rewrite Z.mod_1_r.
  - rewrite IH, Nat2Z.inj_succ, Z.pow_succ_r by lia.
    rewrite Z.rem_mul_r by lia. lia.
Qed.

Lemma le_val_range bs : Forall in_u8 bs -> 0 <= le_val bs < 256 ^ zlen bs.
Proof.
  induction 1 as [|b bs Hb _ IH]; [done|].
  unfold zlen in *. cbn [le_val length]. rewrite Nat2Z.inj_succ, Z.pow_succ_r by lia.
  unfold in_u8 in Hb. lia.
Qed.

Lemma le_bytes_le_val bs : Forall in_u8 bs -> le_bytes (length bs) (le_val bs) = bs.
Proof.
  induction 1 as [|b bs Hb _ IH]; [done|]. cbn [length le_val le_bytes].
  unfold in_u8 in Hb. rewrite (Z.mul_comm 256). f_equal.
  - rewrite Z.mod_add, Z.mod_small; lia.
  - rewrite Z.div_add, Z.div_small, Z.add_0_l by lia. exact IH.
Qed.

(** The bytes of an array of 32-bit words and back. *)
Definition words_to_bytes (ws : list Z) : list Z := ws ≫= le_bytes 4.

Fixpoint bytes_to_words (n : nat) (bs : list Z) : list Z :=
  match n with
  | O => []
  | S n' => le_val (take 4 bs) :: bytes_to_words n' (drop 4 bs)
  end.

Lemma length_words_to_bytes ws : length (words_to_bytes ws) = (4 * length ws)%nat.
Proof.
  unfold words_to_bytes. induction ws as [|w ws IH]; [done|].
  rewrite bind_cons, length_app, length_le_bytes, IH. simpl. lia.
Qed.

Lemma zlen_words_to_bytes ws : zlen (words_to_bytes ws) = 4 * zlen ws.
Proof. unfold zlen. rewrite length_words_to_bytes. lia. Qed.

Lemma length_bytes_to_words n bs : length (bytes_to_words n bs) = n.
Proof. revert bs. induction n as [|n IH]; intros bs; simpl; [done|by rewrite IH]. Qed.

Lemma words_to_bytes_in_u8 ws : Forall in_u8 (words_to_bytes ws).
Proof.
  unfold words_to_bytes. induction ws as [|w ws IH]; [constructor|].
  rewrite bind_cons. apply Forall_app. split; [apply le_bytes_in_u8|done].
Qed.

Lemma bytes_to_words_app ws rest :
  Forall in_u32 ws ->
  bytes_to_words (length ws) (words_to_bytes ws ++ rest) = ws.
Proof.
  intros Hws. unfold words_to_bytes. revert rest.
  induction Hws as [|w ws Hw _ IH]; intros rest; [done|].
  rewrite bind_cons, <-app_assoc. cbn [length bytes_to_words].
  rewrite take_app_length' by by rewrite length_le_bytes.
  rewrite drop_app_length' by by rewrite length_le_bytes.
  rewrite IH, le_val_le_bytes. f_equal. apply Z.mod_small. exact Hw.
Qed.

(** Round trip: words written as bytes are read back. *)
Lemma bytes_to_words_to_bytes ws :
  Forall in_u32 ws -> bytes_to_words (length ws) (words_to_bytes ws) = ws.
Proof.
  intros H. rewrite <-(app_nil_r (words_to_bytes ws)). by apply bytes_to_words_app.
Qed.

Lemma words_to_bytes_to_words n bs :
  Forall in_u8 bs -> length bs = (4 * n)%nat ->
  words_to_bytes (bytes_to_words n bs) = bs.
Proof.
  revert bs. induction n as [|n IH]; intros bs Hb Hl.
  - destruct bs; [done|simpl in Hl; lia].
  - cbn [bytes_to_words]. unfold words_to_bytes in *. rewrite bind_cons.
    rewrite IH; [|by apply Forall_drop|rewrite length_drop; lia].
    assert (Ht : length (take 4 bs) = 4%nat) by (rewrite length_take; lia).
    pose proof (le_bytes_le_val (take 4 bs)) as Hv. rewrite Ht in Hv.
    rewrite Hv by by apply Forall_take. apply take_drop.
Qed.

Lemma bytes_to_words_in_u32 n bs :
  Forall in_u8 bs -> Forall in_u32 (bytes_to_words n bs).
Proof.
  revert bs. induction n as [|n IH]; intros bs Hb; simpl; [constructor|].
  constructor; [|by apply IH, Forall_drop].
  pose proof (le_val_range (take 4 bs) (Forall_take _ _ _ Hb)) as Hr.
  unfold in_u32. split; [lia|]. eapply Z.lt_le_trans; [apply Hr|].
  unfold zlen. rewrite length_take.
  change (2 ^ 32) with (256 ^ 4). apply Z.pow_le_mono_r; lia.
Qed.

#[export] Hint Resolve le_bytes_in_u8 words_to_bytes_in_u8 bytes_to_words_in_u32 : nachos.
#[export] Hint Rewrite @zlen_app @zlen_insert @length_le_bytes length_words_to_bytes
  zlen_words_to_bytes length_bytes_to_words : zlen.

(** ** Linear search

    A loop over the indices of an array that leaves at the first element
    for which a test holds, with what [act] computes there. *)
Lemma search_loop {A R} (l : list A) (p : A -> bool) (act : Z -> A -> res R)
    (body : Z -> unit -> res (unit + R)) :
  (forall i e, aget l i = Ok e ->
     body i tt = if p e then r ← act i e; Ok (inr r) else Ok (inl tt)) ->
  for_break (length l) 0 body tt =
    match list_find (fun e => Is_true (p e)) l with
    | None => Ok (inl tt)
    | Some (i, e) => r ← act (Z.of_nat i) e; Ok (inr r)
    end.
Proof.
  intros Hb.
  assert (Hgen : forall n k, drop k l = drop k l -> (n + k = length l)%nat ->
    for_break n (Z.of_nat k) body tt =
    match list_find (fun e => Is_true (p e)) (drop k l) with
    | None => Ok (inl tt)
    | Some (i, e) => r ← act (Z.of_nat (k + i)) e; Ok (inr r)
    end).
  { induction n as [|n IH]; intros k _ Hk.
    - by rewrite drop_ge by lia.
    - destruct (lookup_lt_is_Some_2 l k) as [e He]; [lia|]. rewrite (drop_S _ _ _ He).
      cbn [for_break list_find].
      rewrite (Hb (Z.of_nat k) e) by (apply aget_lookup; [lia|by rewrite Nat2Z.id]).
      destruct (p e) eqn:Ep.
      + rewrite decide_True by done. rewrite Nat.add_0_r.
        by destruct (act (Z.of_nat k) e).
      + rewrite decide_False by (by intros []). cbn [mbind res_bind].
        replace (Z.of_nat k + 1) with (Z.of_nat (S k)) by lia.
        rewrite IH by (done || lia). destruct (list_find _ (drop (S k) l)) as [[i x]|]; [|done].
        cbn. by rewrite Nat.add_succ_r. }
  rewrite <-(drop_0 l) at 2. apply (Hgen (length l) 0%nat); [done|lia].
Qed.
