(* ===== verification/State.v ===== *)
(** * Stateful computations

    [M W A] is a computation over a world [W] that may fail: the error
    monad of the prelude with the state of a component threaded through.
    [run_to m w Q] says that [m], started in [w], returns, and that its
    result and final world satisfy [Q]: total correctness, with one rule
    per construct. *)

From stdpp Require Import base list numbers.
From S2P Require Import Prelude Arrays.

Definition M (W A : Type) : Type := W -> res (A * W).

#[export] Instance M_ret W : MRet (M W) := fun A a w => Ok (a, w).
#[export] Instance M_bind W : MBind (M W) :=
  fun A B f m w => match m w with Ok (a, w') => f a w' | Err e => Err e end.
#[export] Instance M_fmap W : FMap (M W) :=
  fun A B f m w => match m w with Ok (a, w') => Ok (f a, w') | Err e => Err e end.

Section Basic.
Context {W : Type}.

Definition ret {A} (a : A) : M W A := fun w => Ok (a, w).
Definition fail {A} (e : err) : M W A := fun _ => Err e.
Definition lift {A} (r : res A) : M W A :=
  fun w => match r with Ok a => Ok (a, w) | Err e => Err e end.
Definition gets {A} (f : W -> A) : M W A := fun w => Ok (f w, w).
Definition modify (f : W -> W) : M W unit := fun w => Ok (tt, f w).
Definition assert (b : bool) : M W unit := lift (ASSERT b).

(** A loop [for (i = i0; n iterations; i++)]. *)
Fixpoint forM (n : nat) (i : Z) (body : Z -> M W unit) : M W unit :=
  match n with
  | O => ret tt
  | S n' => _ ← body i; forM n' (i + 1) body
  end.

(** The same loop carrying a local value. *)
Fixpoint foldM {A} (n : nat) (i : Z) (body : Z -> A -> M W A) (a : A) : M W A :=
  match n with
  | O => ret a
  | S n' => a' ← body i a; foldM n' (i + 1) body a'
  end.

Definition run_to {A} (m : M W A) (w : W) (Q : A -> W -> Prop) : Prop :=
  exists a w', m w = Ok (a, w') /\ Q a w'.

Lemma run_to_ret {A} (a : A) w Q : Q a w -> run_to (ret a) w Q.
Proof. intros. by exists a, w. Qed.

Lemma run_to_bind {A B} (m : M W A) (f : A -> M W B) w Q :
  run_to m w (fun a w' => run_to (f a) w' Q) -> run_to (m ≫= f) w Q.
Proof.
  intros (a & w' & Hm & b & w'' & Hf & HQ). exists b, w''. split; [|done].
  unfold mbind, M_bind. by rewrite Hm.
Qed.

Lemma run_to_assoc {A B C} (m : M W A) (f : A -> M W B) (g : B -> M W C) w Q :
  run_to ((m ≫= f) ≫= g) w Q -> run_to (m ≫= (fun a => f a ≫= g)) w Q.
Proof.
  intros (c & w' & H & HQ). exists c, w'. split; [|done]. revert H.
  unfold mbind, M_bind. by destruct (m w) as [[]|].
Qed.

Lemma run_to_mono {A} (m : M W A) w (P Q : A -> W -> Prop) :
  run_to m w P -> (forall a w', P a w' -> Q a w') -> run_to m w Q.
Proof. intros (a & w' & H & HP) Himp. exists a, w'. auto. Qed.

Lemma run_to_lift {A} (r : res A) (a : A) w Q : r = Ok a -> Q a w -> run_to (lift r) w Q.
Proof. intros -> HQ. by exists a, w. Qed.

Lemma run_to_assert b w Q : b = true -> Q tt w -> run_to (assert b) w Q.
Proof. intros -> HQ. by exists tt, w. Qed.

Lemma run_to_gets {A} (f : W -> A) w Q : Q (f w) w -> run_to (gets f) w Q.
Proof. intros. by exists (f w), w. Qed.

Lemma run_to_modify f w Q : Q tt (f w) -> run_to (modify f) w Q.
Proof. intros. by exists tt, (f w). Qed.

Lemma run_to_eq {A} (m : M W A) w a w' : m w = Ok (a, w') -> run_to m w (fun b v => b = a /\ v = w').
Proof. intros. by exists a, w'. Qed.

Lemma run_to_inv {A} (m : M W A) w Q a w' : run_to m w Q -> m w = Ok (a, w') -> Q a w'.
Proof. intros (b & v & H & HQ) E. rewrite H in E. by injection E as <- <-. Qed.

(** The invariant rules of the two loops. *)
Lemma run_to_forM (P : Z -> W -> Prop) n i body w :
  P i w ->
  (forall j v, i <= j < i + Z.of_nat n -> P j v -> run_to (body j) v (fun _ v' => P (j + 1) v')) ->
  run_to (forM n i body) w (fun _ w' => P (i + Z.of_nat n) w').
Proof.
  revert i w. induction n as [|n IH]; intros i w HP Hstep; cbn [forM].
  - apply run_to_ret. by replace (i + Z.of_nat 0) with i by lia.
  - apply run_to_bind. eapply run_to_mono; [apply Hstep; [lia|done]|]. intros ? v Hv.
    eapply run_to_mono; [apply (IH (i + 1) v Hv)|].
    + intros j u Hj. apply Hstep. lia.
    + intros [] w' Hw'. by replace (i + Z.of_nat (S n)) with (i + 1 + Z.of_nat n) by lia.
Qed.

Lemma run_to_foldM {A} (P : Z -> A -> W -> Prop) n i body (a : A) w :
  P i a w ->
  (forall j b v, i <= j < i + Z.of_nat n -> P j b v ->
     run_to (body j b) v (fun b' v' => P (j + 1) b' v')) ->
  run_to (foldM n i body a) w (fun b w' => P (i + Z.of_nat n) b w').
Proof.
  revert i a w. induction n as [|n IH]; intros i a w HP Hstep; cbn [foldM].
  - apply run_to_ret. by replace (i + Z.of_nat 0) with i by lia.
  - apply run_to_bind. eapply run_to_mono; [apply Hstep; [lia|done]|]. intros b v Hv.
    eapply run_to_mono; [apply (IH (i + 1) b v Hv)|].
    + intros j c u Hj. apply Hstep. lia.
    + intros c w' Hw'. by replace (i + Z.of_nat (S n)) with (i + 1 + Z.of_nat n) by lia.
Qed.
End Basic.

(** Runs the head of a sequence with a known rule. *)
Ltac step_with H := apply run_to_bind; eapply run_to_mono; [apply H|].

Ltac step :=
  lazymatch goal with
  | |- run_to (_ ≫= _) _ _ => apply run_to_bind; step
  | |- run_to (ret _) _ _ => apply run_to_ret
  | |- run_to (gets _) _ _ => apply run_to_gets
  | |- run_to (modify _) _ _ => apply run_to_modify
  | |- run_to (assert _) _ _ => apply run_to_assert
  | |- run_to (lift _) _ _ => eapply run_to_lift
  | _ => idtac
  end.

(** ** A computation over a part of the world *)

Section Zoom.
Context {V W : Type} (get : W -> V) (put : V -> W -> W).

Definition zoom {A} (m : M V A) : M W A :=
  fun w => match m (get w) with
           | Ok (a, v) => Ok (a, put v w)
           | Err e => Err e
           end.

Lemma run_to_zoom {A} (m : M V A) w Q :
  run_to m (get w) (fun a v => Q a (put v w)) -> run_to (zoom m) w Q.
Proof. intros (a & v & Hm & HQ). exists a, (put v w). unfold zoom. by rewrite Hm. Qed.
End Zoom.
