(* ===== verification/CString.v ===== *)
(** * Strings of the C library

    Comparison, searching, atoi and what scanf reads as a number, and the
    conversions of printf. *)

From Stdlib Require Import Ascii String.
From stdpp Require Import base list numbers strings pretty.
From S2P Require Import Prelude.
#[local] Open Scope string_scope.
#[local] Open Scope list_scope.
#[local] Open Scope Z_scope.

(** ** string.h and stdlib.h *)

(** [!strcmp(s, t)]. *)
Definition same (s t : string) : bool := String.eqb s t.

(** [strchr(s, c) != 0]: the terminator counts as a character. *)
Definition strchr (s : string) (c : ascii) : bool :=
  existsb (Ascii.eqb c) (list_ascii_of_string s ++ [Ascii.zero]).

Definition code (c : ascii) : Z := Z.of_nat (nat_of_ascii c).
Definition isspace (c : ascii) : bool := (code c =? 32) || (9 <=? code c) && (code c <=? 13).
Definition isdigit (c : ascii) : bool := (48 <=? code c) && (code c <=? 57).

Fixpoint digits (s : string) (n : Z) : Z :=
  match s with
  | String c s => if isdigit c then digits s (10 * n + (code c - 48)) else n
  | EmptyString => n
  end.

Fixpoint skip_spaces (s : string) : string :=
  match s with String c t => if isspace c then skip_spaces t else s | EmptyString => s end.

Definition clamp_long (z : Z) : Z := Z.max (- 2 ^ 31) (Z.min (2 ^ 31 - 1) z).

(** [atoi], which stops at the bounds of long, as strtol does. *)
Definition atoi (s : string) : Z :=
  clamp_long
    match skip_spaces s with
    | String "-" t => - digits t 0
    | String "+" t => digits t 0
    | t => digits t 0
    end.

Definition starts_digit (s : string) : bool := match s with String c _ => isdigit c | EmptyString => false end.

(** [sscanf(s, "%d", &num)]: the number, if there is one. *)
Definition scan_d (s : string) : option Z :=
  let number (sign : Z) (t : string) := if starts_digit t then Some (clamp_long (sign * digits t 0)) else None in
  match skip_spaces s with
  | String "-" t => number (-1) t
  | String "+" t => number 1 t
  | t => number 1 t
  end.

(** [fgets(buf, n + 1, file)]: the line, and what is left of the file. *)
Fixpoint fgets (n : nat) (file : string) : string * string :=
  match n, file with
  | S n, String c rest =>
      if Ascii.eqb c "010"%char then (String c "", rest)
      else let (line, rest) := fgets n rest in (String c line, rest)
  | _, _ => ("", file)
  end.

Lemma strchr_spec f c : c <> Ascii.zero -> strchr f c = true <-> c ∈ list_ascii_of_string f.
Proof.
  intros Hc. unfold strchr. rewrite existsb_exists, list_elem_of_In. setoid_rewrite in_app_iff. split.
  - intros (d & [Hd|[<-|[]]] & E); apply Ascii.eqb_eq in E; subst; [exact Hd|congruence].
  - intros H. exists c. split; [by left|apply Ascii.eqb_refl].
Qed.

(** ** printf *)

Definition TAB : string := String "009"%char "".
Definition NL : string := String "010"%char "".

Definition hex_digit (d : Z) : string :=
  default "" ((["0"; "1"; "2"; "3"; "4"; "5"; "6"; "7"; "8"; "9"; "a"; "b"; "c"; "d"; "e"; "f"] : list string) !! Z.to_nat d).

Fixpoint hex_digits (n : nat) (z : Z) : string :=
  match n with O => "" | S n => hex_digits n (z / 16) +:+ hex_digit (z mod 16) end.

(** All but the last digit, if they are zeros, are left out. *)
Fixpoint no_zeros (s : string) : string :=
  match s with
  | String "0"%char ((String _ _) as r) => no_zeros r
  | _ => s
  end.

(** %08x, %x and %d of an int. *)
Definition print_08x (z : Z) : string := hex_digits 8 (u32 z).
Definition print_x (z : Z) : string := no_zeros (print_08x z).
Definition print_d (z : Z) : string := pretty z.
