(* ===== verification/Bitmap.v ===== *)
(** * userprog/bitmap.{h,cc}: bitmaps over an array of 32-bit words

    Models the class [BitMap]: the storage is the array of unsigned words
    that the code shifts and masks, [bitat] is its abstraction to bits.
    The theorems relate every operation to the bits and show that writing
    a bitmap to a file as bytes and fetching it back is the identity. *)

From stdpp Require Import base list numbers.
From S2P Require Import Prelude Arrays.

Definition BitsInByte : Z := 8.
Definition BitsInWord : Z := 32.

Record BitMap := mkBitMap {
  numBits : Z;
  numWords : Z;
  map : list Z    (* unsigned words *)
}.

(** [1 << (which % BitsInWord)], as an unsigned word. *)
Definition bitmask (which : Z) : Z := Z.shiftl 1 (Z.rem which BitsInWord).

Definition in_range (which : Z) (bm : BitMap) : bool :=
  (0 <=? which) && (which <? numBits bm).

Definition set_map (bm : BitMap) (m : list Z) : BitMap :=
  mkBitMap (numBits bm) (numWords bm) m.

Definition Mark (which : Z) (bm : BitMap) : res BitMap :=
  _ ← ASSERT (in_range which bm);
  w ← aget (map bm) (Z.quot which BitsInWord);
  m ← aset (map bm) (Z.quot which BitsInWord) (Z.lor w (bitmask which));
  Ok (set_map bm m).

Definition Clear (which : Z) (bm : BitMap) : res BitMap :=
  _ ← ASSERT (in_range which bm);
  w ← aget (map bm) (Z.quot which BitsInWord);
  m ← aset (map bm) (Z.quot which BitsInWord)
        (Z.land w (u32 (Z.lnot (bitmask which))));
  Ok (set_map bm m).

Definition Test (which : Z) (bm : BitMap) : res bool :=
  _ ← ASSERT (in_range which bm);
  w ← aget (map bm) (Z.quot which BitsInWord);
  Ok (negb (Z.land w (bitmask which) =? 0)).

(** The constructor: [storage] is the uninitialised memory that
    [new unsigned int[numWords]] returns. *)
Definition BitMap_new (nitems : Z) (storage : list Z) : res BitMap :=
  let bm := mkBitMap nitems (divRoundUp nitems BitsInWord) storage in
  for_loop (Z.to_nat nitems) 0 Clear bm.

Fixpoint Find_loop (n : nat) (i : Z) (bm : BitMap) : res (Z * BitMap) :=
  match n with
  | O => Ok (-1, bm)
  | S n' =>
      b ← Test i bm;
      if negb b then bm' ← Mark i bm; Ok (i, bm')
      else Find_loop n' (i + 1) bm
  end.

Definition Find (bm : BitMap) : res (Z * BitMap) :=
  Find_loop (Z.to_nat (numBits bm)) 0 bm.

Definition NumClear (bm : BitMap) : res Z :=
  for_loop (Z.to_nat (numBits bm)) 0
    (fun i count => b ← Test i bm; Ok (if negb b then count + 1 else count)) 0.

(** Print lists the numbers of the set bits. *)
Definition Print (bm : BitMap) : res (list Z) :=
  for_loop (Z.to_nat (numBits bm)) 0
    (fun i (out : list Z) => b ← Test i bm; Ok (if (b : bool) then out ++ [i] else out)) [].

(** The bytes that [WriteBack] hands to the file, and the effect on the
    storage of the [got] bytes that [FetchFrom] reads over it. *)
Definition WriteBack_bytes (bm : BitMap) : list Z := words_to_bytes (map bm).

Definition FetchFrom_bytes (got : list Z) (bm : BitMap) : res BitMap :=
  bs ← bwrite 0 got (words_to_bytes (map bm));
  Ok (set_map bm (bytes_to_words (length (map bm)) bs)).

(** ** Well-formed bitmaps and their bits *)

Record wf (bm : BitMap) : Prop := {
  wf_bits : 0 <= numBits bm;
  wf_words : numWords bm = divRoundUp (numBits bm) BitsInWord;
  wf_len : zlen (map bm) = numWords bm;
  wf_u32 : Forall in_u32 (map bm)
}.

(** Bit [i] of the storage. *)
Definition bitat (bm : BitMap) (i : Z) : bool :=
  Z.testbit (default 0 (map bm !! Z.to_nat (i / 32))) (i mod 32).

(** The bits below [numBits], as a list. *)
Definition bits (bm : BitMap) : list bool := bitat bm <$> seqZ 0 (numBits bm).

Definition clear_bits (bm : BitMap) : list Z :=
  filter (fun i => bitat bm i = false) (seqZ 0 (numBits bm)).

Lemma quot_word which : 0 <= which -> Z.quot which BitsInWord = which / 32.
Proof. intros. unfold BitsInWord. rewrite Z.quot_div_nonneg; lia. Qed.

Lemma rem_word which : 0 <= which -> Z.rem which BitsInWord = which mod 32.
Proof. intros. unfold BitsInWord. rewrite Z.rem_mod_nonneg; lia. Qed.

Lemma bitmask_eq which : 0 <= which -> bitmask which = Z.shiftl 1 (which mod 32).
Proof. intros. unfold bitmask. by rewrite rem_word. Qed.

Lemma testbit_bitmask which j :
  0 <= which -> 0 <= j -> Z.testbit (bitmask which) j = (which mod 32 =? j).
Proof.
  intros Hw Hj. rewrite bitmask_eq, Z.shiftl_1_l by done.
  rewrite Z.pow2_bits_eqb; [done|]. pose proof (Z.mod_pos_bound which 32). lia.
Qed.

Lemma in_range_true which bm : in_range which bm = true <-> 0 <= which < numBits bm.
Proof. unfold in_range. rewrite andb_true_iff, Z.leb_le, Z.ltb_lt. done. Qed.

Lemma word_lookup bm which :
  wf bm -> 0 <= which < numBits bm ->
  exists w, aget (map bm) (which / 32) = Ok w /\
    map bm !! Z.to_nat (which / 32) = Some w /\ in_u32 w.
Proof.
  intros [H1 H2 H3 H4] Hr.
  pose proof (divRoundUp_spec (numBits bm) BitsInWord H1 ltac:(unfold BitsInWord; lia)) as Hd.
  unfold BitsInWord in *. rewrite <-H2, <-H3 in Hd.
  destruct (aget_in_range (map bm) (which / 32)) as [w Hw].
  { split; [apply Z.div_pos; lia|]. apply Z.div_lt_upper_bound; lia. }
  exists w. split; [done|]. apply aget_Ok_inv in Hw as [_ Hw].
  split; [done|]. eapply Forall_lookup_1; eauto.
Qed.

Lemma land_mask_zero w which :
  0 <= which -> (Z.land w (bitmask which) =? 0) = negb (Z.testbit w (which mod 32)).
Proof.
  intros Hw. assert (Hm : 0 <= which mod 32) by (apply Z.mod_pos_bound; lia).
  destruct (Z.testbit w (which mod 32)) eqn:E; simpl.
  - apply Z.eqb_neq. intros Hz. apply (f_equal (fun z => Z.testbit z (which mod 32))) in Hz.
    rewrite Z.land_spec, E, testbit_bitmask, Z.eqb_refl, Z.bits_0 in Hz by done. done.
  - apply Z.eqb_eq. apply Z.bits_inj'. intros j Hj.
    rewrite Z.land_spec, testbit_bitmask, Z.bits_0 by done.
    destruct (Z.eqb_spec (which mod 32) j) as [<-|]; [by rewrite E|apply andb_false_r].
Qed.

(** A word changed at one bit, with its neighbours kept. *)
Lemma bitat_update bm which w w' (v : bool) :
  wf bm -> 0 <= which < numBits bm ->
  map bm !! Z.to_nat (which / 32) = Some w ->
  (forall j, 0 <= j < 32 ->
     Z.testbit w' j = if j =? which mod 32 then v else Z.testbit w j) ->
  forall i, 0 <= i ->
    bitat (set_map bm (<[Z.to_nat (which / 32) := w']> (map bm))) i =
      if i =? which then v else bitat bm i.
Proof.
  intros Hwf Hr Hw Hbits i Hi. unfold bitat. cbn [map set_map].
  assert (Hlt := lookup_lt_Some _ _ _ Hw).
  destruct (decide (i / 32 = which / 32)) as [He|Hne].
  - rewrite He, list_lookup_insert_eq by done. rewrite Hw. cbn [default].
    rewrite Hbits by (apply Z.mod_pos_bound; lia).
    destruct (Z.eqb_spec i which) as [->|Hd]; [by rewrite Z.eqb_refl|].
    destruct (Z.eqb_spec (i mod 32) (which mod 32)) as [Hm|]; [|done].
    exfalso. apply Hd. pose proof (Z.div_mod i 32). pose proof (Z.div_mod which 32). lia.
  - rewrite list_lookup_insert_ne.
    + destruct (Z.eqb_spec i which); [subst; done|done].
    + pose proof (Z.div_pos i 32). pose proof (Z.div_pos which 32). lia.
Qed.

Lemma set_map_wf bm m :
  wf bm -> length m = length (map bm) -> Forall in_u32 m -> wf (set_map bm m).
Proof.
  intros [H1 H2 H3 H4] Hl Hf. split; cbn; [done|done| |done].
  unfold zlen in *. by rewrite Hl.
Qed.

Lemma set_map_insert_wf bm n w :
  wf bm -> in_u32 w -> wf (set_map bm (<[n := w]> (map bm))).
Proof.
  intros Hwf Hw. apply set_map_wf; [done|by rewrite length_insert|].
  apply Forall_insert; [apply Hwf|done].
Qed.

Lemma bitmask_in_u32 which : 0 <= which -> in_u32 (bitmask which).
Proof.
  intros H. rewrite bitmask_eq, Z.shiftl_1_l by done.
  pose proof (Z.mod_pos_bound which 32 ltac:(lia)). unfold in_u32.
  split; [apply Z.pow_nonneg; lia|apply Z.pow_lt_mono_r; lia].
Qed.

Lemma u32_lnot_testbit z j : 0 <= j < 32 -> Z.testbit (u32 (Z.lnot z)) j = negb (Z.testbit z j).
Proof.
  intros H. unfold u32. rewrite Z.mod_pow2_bits_low by lia. apply Z.lnot_spec. lia.
Qed.

(** ** What each operation does to the bits *)

Lemma Test_bit bm i : wf bm -> 0 <= i < numBits bm -> Test i bm = Ok (bitat bm i).
Proof.
  intros Hwf Hr. unfold Test. rewrite ASSERT_true by by apply in_range_true.
  destruct (word_lookup bm i Hwf Hr) as (w & Hw & Hl & _).
  rewrite quot_word by lia. cbn [mbind res_bind]. rewrite Hw. cbn [mbind res_bind].
  rewrite land_mask_zero, negb_involutive by lia. unfold bitat. by rewrite Hl.
Qed.

Lemma Mark_bit bm i :
  wf bm -> 0 <= i < numBits bm ->
  exists bm', Mark i bm = Ok bm' /\ wf bm' /\ numBits bm' = numBits bm /\
    forall j, 0 <= j -> bitat bm' j = if j =? i then true else bitat bm j.
Proof.
  intros Hwf Hr. unfold Mark. rewrite ASSERT_true by by apply in_range_true.
  destruct (word_lookup bm i Hwf Hr) as (w & Hw & Hl & Hu).
  rewrite quot_word by lia. cbn [mbind res_bind]. rewrite Hw. cbn [mbind res_bind].
  rewrite aset_in_range by (apply aget_Ok_inv in Hw as [? _]; done). cbn [mbind res_bind].
  eexists. split; [done|]. split.
  { apply set_map_insert_wf; [done|]. apply in_u32_lor; [done|apply bitmask_in_u32; lia]. }
  split; [done|]. eapply bitat_update; eauto.
  intros j Hj. rewrite Z.lor_spec, testbit_bitmask by lia.
  rewrite (Z.eqb_sym j). destruct (i mod 32 =? j); [apply orb_true_r|apply orb_false_r].
Qed.

Lemma Clear_bit bm i :
  wf bm -> 0 <= i < numBits bm ->
  exists bm', Clear i bm = Ok bm' /\ wf bm' /\ numBits bm' = numBits bm /\
    forall j, 0 <= j -> bitat bm' j = if j =? i then false else bitat bm j.
Proof.
  intros Hwf Hr. unfold Clear. rewrite ASSERT_true by by apply in_range_true.
  destruct (word_lookup bm i Hwf Hr) as (w & Hw & Hl & Hu).
  rewrite quot_word by lia. cbn [mbind res_bind]. rewrite Hw. cbn [mbind res_bind].
  rewrite aset_in_range by (apply aget_Ok_inv in Hw as [? _]; done). cbn [mbind res_bind].
  eexists. split; [done|]. split.
  { apply set_map_insert_wf; [done|]. apply in_u32_land; auto with nachos. }
  split; [done|]. eapply bitat_update; eauto.
  intros j Hj. rewrite Z.land_spec, u32_lnot_testbit, testbit_bitmask by lia.
  rewrite (Z.eqb_sym j). destruct (i mod 32 =? j); [apply andb_false_r|apply andb_true_r].
Qed.

#[export] Hint Resolve set_map_insert_wf bitmask_in_u32 : nachos.

(** ** Find *)

(** [Find] either allocates the first clear bit from [lo] on, or reports
    that there is none and leaves the bitmap alone. *)
Definition find_spec (lo : Z) (bm : BitMap) (r : Z) (bm' : BitMap) : Prop :=
  (r = -1 /\ bm' = bm /\ forall j, lo <= j < numBits bm -> bitat bm j = true) \/
  (lo <= r < numBits bm /\ bitat bm r = false /\
   (forall j, lo <= j < r -> bitat bm j = true) /\
   numBits bm' = numBits bm /\
   forall j, 0 <= j -> bitat bm' j = if j =? r then true else bitat bm j).

Lemma Find_loop_spec bm n i :
  wf bm -> 0 <= i -> i + Z.of_nat n = numBits bm ->
  exists r bm', Find_loop n i bm = Ok (r, bm') /\ wf bm' /\ find_spec i bm r bm'.
Proof.
  intros Hwf. revert i. induction n as [|n IH]; intros i Hi Hn; cbn [Find_loop].
  - exists (-1), bm. split; [done|]. split; [done|]. left. split_and!; [done..|]. lia.
  - rewrite Test_bit by (done || lia). cbn [mbind res_bind].
    destruct (bitat bm i) eqn:Eb; cbn [negb].
    + destruct (IH (i + 1)) as (r & bm' & -> & Hwf' & Hs); [lia..|].
      exists r, bm'. split; [done|]. split; [done|].
      destruct Hs as [(-> & -> & Hall)|(Hr & Hc & Hall & Hnb & Hb)]; [left|right].
      * split_and!; [done..|]. intros j Hj.
        destruct (decide (j = i)) as [->|]; [done|]. apply Hall. lia.
      * split_and!; [lia..|done| |done|done]. intros j Hj.
        destruct (decide (j = i)) as [->|]; [done|]. apply Hall. lia.
    + destruct (Mark_bit bm i Hwf) as (bm' & -> & Hwf' & Hnb & Hb); [lia|].
      cbn [mbind res_bind]. exists i, bm'. split; [done|]. split; [done|]. right.
      split_and!; [lia..|done| |done|done]. lia.
Qed.

Lemma Find_spec bm :
  wf bm -> exists r bm', Find bm = Ok (r, bm') /\ wf bm' /\ find_spec 0 bm r bm'.
Proof.
  intros Hwf. pose proof (wf_bits bm Hwf). apply Find_loop_spec; [done|lia..].
Qed.

(** ** NumClear *)

Lemma NumClear_loop bm :
  wf bm -> NumClear bm = Ok (zlen (clear_bits bm)).
Proof.
  intros Hwf. pose proof (wf_bits bm Hwf) as Hn. unfold NumClear, clear_bits.
  destruct (for_loop_inv
    (fun i count => count = zlen (filter (fun i => bitat bm i = false) (seqZ 0 i)))
    (fun i count => b ← Test i bm; Ok (if negb b then count + 1 else count))
    (Z.to_nat (numBits bm)) 0 0) as (s & Hs & Hp).
  - done.
  - intros j t Hj ->. rewrite Test_bit by (done || lia). cbn [mbind res_bind].
    eexists. split; [done|].
    rewrite (seqZ_app 0 j 1), list.filter_app, zlen_app by lia. change (seqZ (0 + j) 1) with [0 + j].
    rewrite Z.add_0_l, filter_cons, filter_nil.
    destruct (bitat bm j) eqn:E; cbn [negb].
    + rewrite decide_False by congruence. unfold zlen. simpl. lia.
    + rewrite decide_True by done. unfold zlen. simpl. lia.
  - rewrite Hs, Hp. by rewrite Z.add_0_l, Z2Nat.id by lia.
Qed.

Lemma elem_of_clear_bits bm i :
  i ∈ clear_bits bm <-> 0 <= i < numBits bm /\ bitat bm i = false.
Proof.
  unfold clear_bits. rewrite list_elem_of_filter, elem_of_seqZ. lia || (split; intros [? ?]; split; auto; lia).
Qed.

Lemma NoDup_clear_bits bm : NoDup (clear_bits bm).
Proof. unfold clear_bits. apply list.NoDup_filter, NoDup_seqZ. Qed.

Lemma zlen_clear_bits bm : 0 <= numBits bm -> zlen (clear_bits bm) <= numBits bm.
Proof.
  intros H. unfold zlen, clear_bits. etrans; [apply inj_le, list.length_filter|]. rewrite length_seqZ. lia.
Qed.

(** There is a clear bit exactly when [Find] does not return -1. *)
Lemma find_spec_clear bm r bm' :
  find_spec 0 bm r bm' -> (r = -1 <-> clear_bits bm = []).
Proof.
  intros [(-> & _ & Hall)|(Hr & Hc & _)].
  - split; [|done]. intros _. destruct (clear_bits bm) as [|i l] eqn:E; [done|].
    assert (Hi : i ∈ clear_bits bm) by (rewrite E; left).
    apply elem_of_clear_bits in Hi as [Hi Hb]. by rewrite Hall in Hb.
  - split; [lia|]. intros E.
    assert (Hi : r ∈ clear_bits bm) by (apply elem_of_clear_bits; auto). rewrite E in Hi.
    by apply not_elem_of_nil in Hi.
Qed.

(** Allocating a bit removes exactly it from the clear ones. *)
Lemma find_spec_clear_bits bm r bm' :
  find_spec 0 bm r bm' -> r <> -1 -> clear_bits bm = r :: clear_bits bm'.
Proof.
  intros [[-> _]|(Hr & Hc & Hall & Hnb & Hb)]; [done|]. intros _.
  unfold clear_bits. rewrite Hnb.
  replace (numBits bm) with (r + (1 + (numBits bm - r - 1))) by lia.
  rewrite !(seqZ_app 0 r), !list.filter_app by lia.
  rewrite !(seqZ_app (0 + r) 1), !list.filter_app by lia.
  change (seqZ (0 + r) 1) with [0 + r]. rewrite !Z.add_0_l, !filter_cons, !filter_nil.
  rewrite (decide_True (P := bitat bm r = false)) by done.
  rewrite (decide_False (P := bitat bm' r = false)) by (rewrite Hb, Z.eqb_refl by lia; done).
  assert (Hlow : forall b, (forall j, 0 <= j < r -> bitat b j = true) ->
    filter (fun i => bitat b i = false) (seqZ 0 r) = []).
  { intros b Hlt. destruct (filter _ _) as [|x l] eqn:E; [done|].
    assert (Hx : x ∈ filter (fun i => bitat b i = false) (seqZ 0 r)) by (rewrite E; left).
    apply list_elem_of_filter in Hx as [Hx1 Hx2]. apply elem_of_seqZ in Hx2.
    rewrite Hlt in Hx1; [done|lia]. }
  rewrite !Hlow; [|intros j Hj|done].
  - simpl. f_equal. apply filter_ext_in. intros j Hj. apply elem_of_seqZ in Hj.
    rewrite Hb by lia. destruct (Z.eqb_spec j r); [lia|done].
  - rewrite Hb by lia. destruct (Z.eqb_spec j r); [lia|]. by apply Hall.
Qed.

(** ** Construction and storage *)

Lemma BitMap_new_ok nitems storage :
  0 <= nitems -> zlen storage = divRoundUp nitems BitsInWord -> Forall in_u32 storage ->
  exists bm, BitMap_new nitems storage = Ok bm /\ wf bm /\ numBits bm = nitems /\
    forall j, 0 <= j < nitems -> bitat bm j = false.
Proof.
  intros Hn Hl Hu. unfold BitMap_new.
  destruct (for_loop_inv
    (fun i bm => wf bm /\ numBits bm = nitems /\ forall j, 0 <= j < i -> bitat bm j = false)
    Clear (Z.to_nat nitems) 0
    (mkBitMap nitems (divRoundUp nitems BitsInWord) storage)) as (bm & Hbm & Hp & Hnb & Hall).
  - split; [by split|]. split; [done|]. lia.
  - intros j bm Hj (Hwf & Hnb & Hall).
    destruct (Clear_bit bm j Hwf) as (bm' & -> & Hwf' & Hnb' & Hb); [lia|].
    exists bm'. split; [done|]. split; [done|]. split; [lia|].
    intros k Hk. rewrite Hb by lia. destruct (Z.eqb_spec k j); [done|]. apply Hall. lia.
  - exists bm. split; [done|]. split; [done|]. split; [done|].
    intros j Hj. apply Hall. lia.
Qed.

Lemma FetchFrom_WriteBack bm bm0 :
  wf bm -> zlen (map bm0) = zlen (map bm) ->
  FetchFrom_bytes (WriteBack_bytes bm) bm0 = Ok (set_map bm0 (map bm)).
Proof.
  intros [_ _ _ Hu] Hl. unfold FetchFrom_bytes, WriteBack_bytes.
  rewrite bwrite_Ok by (rewrite ?zlen_words_to_bytes; unfold zlen in *; lia).
  cbn [mbind res_bind]. f_equal. f_equal.
  assert (Hlen : length (map bm0) = length (map bm)) by (unfold zlen in Hl; lia).
  rewrite Hlen. unfold splice. change (Z.to_nat 0) with 0%nat. rewrite take_0.
  by apply bytes_to_words_app.
Qed.

(** ** The bitmap as the list of its clear bits *)

(** [Find] takes the first clear bit off the list. *)
Lemma Find_clear bm s l :
  wf bm -> clear_bits bm = s :: l ->
  exists bm', Find bm = Ok (s, bm') /\ wf bm' /\ numBits bm' = numBits bm /\
    numWords bm' = numWords bm /\ clear_bits bm' = l.
Proof.
  intros Hwf Hc. destruct (Find_spec bm Hwf) as (r & bm' & HF & Hwf' & Hs).
  assert (Hr : r <> -1).
  { intros Hr. apply (find_spec_clear _ _ _ Hs) in Hr. congruence. }
  pose proof (find_spec_clear_bits _ _ _ Hs Hr) as E. rewrite Hc in E. injection E as -> El.
  destruct Hs as [[-> _]|(_ & _ & _ & Hnb & _)]; [done|].
  exists bm'. rewrite HF. do 3 (split; [done|]). split; [|done].
  rewrite (wf_words bm' Hwf'), (wf_words bm Hwf). by rewrite Hnb.
Qed.

Lemma Find_full bm : wf bm -> clear_bits bm = [] -> Find bm = Ok (-1, bm).
Proof.
  intros Hwf Hc. destruct (Find_spec bm Hwf) as (r & bm' & HF & Hwf' & Hs).
  destruct Hs as [(-> & -> & _)|Hs']; [done|].
  pose proof (proj2 (find_spec_clear bm r bm' (or_intror Hs')) Hc) as ->. lia.
Qed.

Lemma Clear_clear_bits bm i :
  wf bm -> 0 <= i < numBits bm ->
  exists bm', Clear i bm = Ok bm' /\ wf bm' /\ numBits bm' = numBits bm /\
    forall j, j ∈ clear_bits bm' <-> j = i \/ j ∈ clear_bits bm.
Proof.
  intros Hwf Hi. destruct (Clear_bit bm i Hwf Hi) as (bm' & HC & Hwf' & Hnb & Hb).
  exists bm'. do 3 (split; [done|]). intros j. rewrite !elem_of_clear_bits, Hnb. split.
  - intros [Hj Hbj]. rewrite Hb in Hbj by lia. destruct (Z.eqb_spec j i); tauto.
  - intros [->|[Hj Hbj]]; (split; [done|]); rewrite Hb by lia.
    + by rewrite Z.eqb_refl.
    + by destruct (j =? i).
Qed.

Lemma Mark_clear_bits bm i :
  wf bm -> 0 <= i < numBits bm ->
  exists bm', Mark i bm = Ok bm' /\ wf bm' /\ numBits bm' = numBits bm /\
    clear_bits bm' = filter (fun j => j <> i) (clear_bits bm).
Proof.
  intros Hwf Hi. destruct (Mark_bit bm i Hwf Hi) as (bm' & HC & Hwf' & Hnb & Hb).
  exists bm'. do 3 (split; [done|]). unfold clear_bits. rewrite Hnb, list_filter_filter.
  apply filter_ext_in. intros j Hj. apply elem_of_seqZ in Hj. rewrite Hb by lia.
  destruct (Z.eqb_spec j i); naive_solver.
Qed.

Lemma BitMap_new_clear nitems storage :
  0 <= nitems -> zlen storage = divRoundUp nitems BitsInWord -> Forall in_u32 storage ->
  exists bm, BitMap_new nitems storage = Ok bm /\ wf bm /\ numBits bm = nitems /\
    clear_bits bm = seqZ 0 nitems.
Proof.
  intros H1 H2 H3. destruct (BitMap_new_ok nitems storage H1 H2 H3) as (bm & Hn & Hwf & Hnb & Hb).
  exists bm. do 3 (split; [done|]). unfold clear_bits. rewrite Hnb.
  rewrite (filter_ext_in _ (fun _ => True)).
  - induction (seqZ 0 nitems) as [|x l IH]; [done|]. rewrite filter_cons, decide_True by done. by f_equal.
  - intros x Hx. apply elem_of_seqZ in Hx. rewrite Hb by lia. done.
Qed.

(** ** Properties *)

(** Find takes the least clear bit. *)
Lemma Find_allocates bm :
  wf bm ->
  exists r bm', Find bm = Ok (r, bm') /\ wf bm' /\ numBits bm' = numBits bm /\
    NumClear bm = Ok (zlen (clear_bits bm)) /\
    match clear_bits bm with
    | [] => r = -1 /\ bm' = bm
    | s :: l => r = s /\ Test s bm = Ok false /\ Test s bm' = Ok true /\
        clear_bits bm' = l /\ s ∉ l /\
        forall j, 0 <= j < numBits bm -> j <> s -> Test j bm' = Test j bm
    end.
Proof.
  intros Hwf. destruct (Find_spec bm Hwf) as (r & bm' & HF & Hwf' & Hs).
  assert (Hnb : numBits bm' = numBits bm) by (destruct Hs as [(_ & -> & _)|(_ & _ & _ & ? & _)]; done).
  exists r, bm'. do 3 (split; [done|]). split; [by apply NumClear_loop|].
  destruct (clear_bits bm) as [|s l] eqn:E.
  - rewrite (Find_full bm Hwf E) in HF. by injection HF as <- <-.
  - destruct (Find_clear bm s l Hwf E) as (bm2 & HF2 & _ & _ & _ & Hl).
    rewrite HF2 in HF. injection HF as <- <-. pose proof (NoDup_clear_bits bm) as Hnd. rewrite E in Hnd.
    apply list.NoDup_cons in Hnd as [Hni _].
    assert (Hin : s ∈ clear_bits bm) by (rewrite E; left). apply elem_of_clear_bits in Hin as [Hr Hbs].
    destruct Hs as [(-> & _)|(_ & _ & _ & _ & Hb)]; [lia|].
    split; [done|]. rewrite !Test_bit, Hbs, Hb, Z.eqb_refl by (done || lia).
    do 4 (split; [done|]). intros j Hj Hne. rewrite !Test_bit, Hb by (done || lia).
    by destruct (Z.eqb_spec j s).
Qed.

Definition example_map : BitMap := mkBitMap 40 2 [4294967295; 5].

Lemma example_map_wf : wf example_map.
Proof. split; cbn; try done. repeat constructor; unfold in_u32; lia. Qed.

(** Mark, Clear and Test by the bit. *)
Lemma Mark_Clear_Test bm i :
  wf bm ->
  (0 <= i < numBits bm ->
   exists bm1 bm2, Mark i bm = Ok bm1 /\ Clear i bm = Ok bm2 /\ wf bm1 /\ wf bm2 /\
     Test i bm1 = Ok true /\ Test i bm2 = Ok false /\
     forall j, 0 <= j < numBits bm -> j <> i -> Test j bm1 = Test j bm /\ Test j bm2 = Test j bm) /\
  (~ 0 <= i < numBits bm ->
   Mark i bm = Err AssertFailed /\ Clear i bm = Err AssertFailed /\ Test i bm = Err AssertFailed).
Proof.
  intros Hwf. split.
  - intros Hi. destruct (Mark_bit bm i Hwf Hi) as (bm1 & H1 & W1 & N1 & B1).
    destruct (Clear_bit bm i Hwf Hi) as (bm2 & H2 & W2 & N2 & B2).
    exists bm1, bm2. do 4 (split; [done|]).
    rewrite !Test_bit, B1, B2, Z.eqb_refl by (done || lia). do 2 (split; [done|]).
    intros j Hj Hne. rewrite !Test_bit, B1, B2 by (done || lia).
    by destruct (Z.eqb_spec j i).
  - intros Hi. assert (Hr : in_range i bm = false).
    { apply not_true_iff_false. by rewrite in_range_true. }
    unfold Mark, Clear, Test. by rewrite Hr.
Qed.

(** A bitmap is a set of bits.  Find sets the least clear bit and
    returns its number, or returns -1 and changes nothing when all are set;
    NumClear counts the clear ones; Mark sets and Clear resets one bit and
    leave every other as it was; a bit out of range fails the ASSERT of
    all three operations and the storage is not touched. *)
Theorem BitMap_correct bm : wf bm ->
  (exists r bm', Find bm = Ok (r, bm') /\ wf bm' /\ numBits bm' = numBits bm /\
    NumClear bm = Ok (zlen (clear_bits bm)) /\
    match clear_bits bm with
    | [] => r = -1 /\ bm' = bm
    | s :: rest => r = s /\ Test s bm = Ok false /\ Test s bm' = Ok true /\ clear_bits bm' = rest
    end) /\
  (forall i, 0 <= i < numBits bm ->
     exists bm1 bm2, Mark i bm = Ok bm1 /\ Clear i bm = Ok bm2 /\ wf bm1 /\ wf bm2 /\
       Test i bm1 = Ok true /\ Test i bm2 = Ok false /\
       forall j, 0 <= j < numBits bm -> j <> i -> Test j bm1 = Test j bm /\ Test j bm2 = Test j bm) /\
  (forall i, ~ 0 <= i < numBits bm ->
     Mark i bm = Err AssertFailed /\ Clear i bm = Err AssertFailed /\ Test i bm = Err AssertFailed).
Proof.
  intros Hwf. split; [|split; intros i Hi; by apply (Mark_Clear_Test bm i Hwf)].
  destruct (Find_allocates bm Hwf) as (r & bm' & HF & Hwf' & Hn & HN & H). exists r, bm'. do 4 (split; [done|]).
  destruct (clear_bits bm) as [|s l] eqn:E; [done|].
  destruct H as (-> & H1 & H2 & _). split; [done|]. split; [done|]. split; [done|].
  destruct (Find_clear bm s l Hwf E) as (bm2 & HF2 & _ & _ & _ & Hl). congruence.
Qed.

Lemma BitMap_correct_witness : (exists bm', Find example_map = Ok (33, bm') /\ Test 33 bm' = Ok true) /\
  Mark 40 example_map = Err AssertFailed.
Proof.
  destruct (BitMap_correct example_map example_map_wf) as ((r & bm' & HF & _ & _ & _ & H) & _ & Hout). split.
  - change (clear_bits example_map) with [33; 35; 36; 37; 38; 39] in H. destruct H as (-> & _ & H & _). by exists bm'.
  - apply Hout. cbn. lia.
Defined.
