(* ===== verification/Machine.v ===== *)
(** * machine/machine.{h,cc} and machine/translate.{h,cc}

    The simulated hardware seen by user programs: forty registers, 8 KB of
    main memory, and the translation of virtual addresses through either a
    linear page table or a software-loaded TLB.  The kernel enters through
    the class [KernelEntry]: [ExceptionHandler] and the status kept by
    interrupt.cc, which [RaiseException] calls. *)

From stdpp Require Import base list numbers.
From S2P Require Import Prelude Arrays.

Definition SectorSize : Z := 128.
Definition PageSize : Z := SectorSize.
Definition NumPhysPages : Z := 64.
Definition MemorySize : Z := NumPhysPages * PageSize.
Definition TLBSize : Z := 4.

Inductive ExceptionType :=
  | NoException | SyscallException | PageFaultException | ReadOnlyException
  | BusErrorException | AddressErrorException | OverflowException
  | IllegalInstrException | NumExceptionTypes.

#[export] Instance ExceptionType_eq_dec : EqDecision ExceptionType.
Proof. solve_decision. Defined.

Inductive MachineStatus := IdleMode | SystemMode | UserMode.

#[export] Instance MachineStatus_eq_dec : EqDecision MachineStatus.
Proof. solve_decision. Defined.

(** Register numbers. *)
Definition StackReg : Z := 29.
Definition RetAddrReg : Z := 31.
Definition NumGPRegs : Z := 32.
Definition HiReg : Z := 32.
Definition LoReg : Z := 33.
Definition PCReg : Z := 34.
Definition NextPCReg : Z := 35.
Definition PrevPCReg : Z := 36.
Definition LoadReg : Z := 37.
Definition LoadValueReg : Z := 38.
Definition BadVAddrReg : Z := 39.
Definition NumTotalRegs : Z := 40.

Record TranslationEntry := mkTE {
  virtualPage : Z;
  physicalPage : Z;
  valid : bool;
  readOnly : bool;
  use : bool;
  dirty : bool
}.

Record Machine := mkMachine {
  mainMemory : list Z;                      (* bytes *)
  registers : list Z;                       (* ints *)
  tlb : option (list TranslationEntry);     (* NULL or the TLB *)
  pageTable : option (list TranslationEntry);
  pageTableSize : Z;                        (* unsigned *)
  singleStep : bool;
  runUntilTime : Z
}.

Definition set_memory (m : Machine) mem : Machine :=
  mkMachine mem (registers m) (tlb m) (pageTable m) (pageTableSize m)
    (singleStep m) (runUntilTime m).
Definition set_registers (m : Machine) regs : Machine :=
  mkMachine (mainMemory m) regs (tlb m) (pageTable m) (pageTableSize m)
    (singleStep m) (runUntilTime m).
Definition set_tlb (m : Machine) t : Machine :=
  mkMachine (mainMemory m) (registers m) t (pageTable m) (pageTableSize m)
    (singleStep m) (runUntilTime m).
Definition set_pageTable (m : Machine) t : Machine :=
  mkMachine (mainMemory m) (registers m) (tlb m) t (pageTableSize m)
    (singleStep m) (runUntilTime m).

(** ** Construction *)

(** [CheckEndian] on the little-endian host. *)
Definition CheckEndian : res unit := ASSERT (le_val [1; 2; 3; 4] =? 0x04030201).

(** [Machine::Machine] without USE_TLB; [runUntil0] is the uninitialised
    [runUntilTime]. *)
Definition Machine_new (debug : bool) (runUntil0 : Z) : res Machine :=
  _ ← CheckEndian;
  Ok (mkMachine (replicate (Z.to_nat MemorySize) 0) (replicate (Z.to_nat NumTotalRegs) 0)
        None None 0 debug runUntil0).

(** ** Registers *)

(** The accesses [registers[num]] of the simulator itself... *)
Definition getr (num : Z) (m : Machine) : res Z := aget (registers m) num.
Definition setr (num value : Z) (m : Machine) : res Machine :=
  regs ← aset (registers m) num value; Ok (set_registers m regs).

(** ... and the checked ones for the kernel. *)
Definition ReadRegister (num : Z) (m : Machine) : res Z :=
  _ ← ASSERT ((0 <=? num) && (num <? NumTotalRegs));
  getr num m.

Definition WriteRegister (num value : Z) (m : Machine) : res Machine :=
  _ ← ASSERT ((0 <=? num) && (num <? NumTotalRegs));
  setr num value m.

(** [Machine::DelayedLoad] of mipssim.cc. *)
Definition DelayedLoad (nextReg nextValue : Z) (m : Machine) : res Machine :=
  lr ← getr LoadReg m;
  lv ← getr LoadValueReg m;
  m ← setr lr lv m;
  m ← setr LoadReg nextReg m;
  m ← setr LoadValueReg nextValue m;
  setr 0 0 m.

(** ** Byte order: the host is little endian, so these are the identity *)

Definition WordToHost (word : Z) : Z := word.
Definition ShortToHost (shortword : Z) : Z := shortword.
Definition WordToMachine (word : Z) : Z := WordToHost word.
Definition ShortToMachine (shortword : Z) : Z := ShortToHost shortword.

(** ** Translation *)

Definition misaligned (virtAddr size : Z) : bool :=
  ((size =? 4) && negb (Z.land virtAddr 0x3 =? 0)) ||
  ((size =? 2) && negb (Z.land virtAddr 0x1 =? 0)).

Definition is_NULL {A} (p : option A) : bool :=
  match p with None => true | Some _ => false end.

(** The search of the TLB for a valid entry of the page. *)
Definition tlb_search (t : list TranslationEntry) (vpn : Z) : res (option Z) :=
  r ← for_break (Z.to_nat TLBSize) 0
        (fun i (_ : unit) =>
           e ← aget t i;
           Ok (if valid e && (u32 (virtualPage e) =? vpn) then inr i else inl tt)) tt;
  Ok (match r with inl _ => None | inr i => Some i end).

(** What is checked and changed once the entry is found (the tail of
    Translate): the exception, or the entry and the physical address. *)
Definition use_entry (e : TranslationEntry) (offset size : Z) (writing : bool)
  : res (ExceptionType + (TranslationEntry * Z)) :=
  if readOnly e && writing then Ok (inl ReadOnlyException)
  else
    let pageFrame := u32 (physicalPage e) in
    if NumPhysPages <=? pageFrame then Ok (inl BusErrorException)
    else
      let e' := mkTE (virtualPage e) (physicalPage e) (valid e) (readOnly e)
                  true (if writing then true else dirty e) in
      let physAddr := pageFrame * PageSize + offset in
      _ ← ASSERT ((0 <=? physAddr) && (physAddr + size <=? MemorySize));
      Ok (inr (e', physAddr)).

(** [Machine::Translate]: the exception and, for [NoException], the
    physical address. *)
Definition Translate (virtAddr size : Z) (writing : bool) (m : Machine)
  : res (ExceptionType * Z * Machine) :=
  if misaligned virtAddr size then Ok (AddressErrorException, 0, m)
  else
    _ ← ASSERT (is_NULL (tlb m) || is_NULL (pageTable m));
    _ ← ASSERT (negb (is_NULL (tlb m)) || negb (is_NULL (pageTable m)));
    let vpn := u32 virtAddr / PageSize in
    let offset := u32 virtAddr mod PageSize in
    match tlb m with
    | None =>
        if pageTableSize m <=? vpn then Ok (AddressErrorException, 0, m)
        else
          pt ← deref (pageTable m);
          e ← aget pt vpn;
          if negb (valid e) then Ok (PageFaultException, 0, m)
          else
            r ← use_entry e offset size writing;
            match r with
            | inl exc => Ok (exc, 0, m)
            | inr (e', pa) =>
                pt' ← aset pt vpn e';
                Ok (NoException, pa, set_pageTable m (Some pt'))
            end
    | Some t =>
        found ← tlb_search t vpn;
        match found with
        | None => Ok (PageFaultException, 0, m)
        | Some i =>
            e ← aget t i;
            r ← use_entry e offset size writing;
            match r with
            | inl exc => Ok (exc, 0, m)
            | inr (e', pa) =>
                t' ← aset t i e';
                Ok (NoException, pa, set_tlb m (Some t'))
            end
        end
    end.

(** ** Exceptions and memory accesses *)

(** What the simulator needs of the kernel: [K] is all kernel state. *)
Class KernelEntry (K : Type) := {
  setStatus : MachineStatus -> K -> K;
  ExceptionHandler : ExceptionType -> Machine * K -> res (Machine * K);
  OneTick : Machine * K -> res (Machine * K);
  totalTicks : K -> Z;
  Debugger : Machine * K -> res (Machine * K)
}.

Section WithKernel.
Context {K : Type} `{!KernelEntry K}.

Definition RaiseException (which : ExceptionType) (badVAddr : Z) (w : Machine * K)
  : res (Machine * K) :=
  let '(m, k) := w in
  m ← setr BadVAddrReg badVAddr m;
  m ← DelayedLoad 0 0 m;
  w' ← ExceptionHandler which (m, setStatus SystemMode k);
  let '(m', k') := w' in
  Ok (m', setStatus UserMode k').

(** The value read from physical memory, by size. *)
Definition load (size physAddr : Z) (mem : list Z) : res Z :=
  if size =? 1 then
    b ← aget mem physAddr; Ok (s8 b)
  else if size =? 2 then
    bs ← bread physAddr 2 mem; Ok (ShortToHost (le_val bs))
  else if size =? 4 then
    bs ← bread physAddr 4 mem; Ok (s32 (WordToHost (le_val bs)))
  else Err AssertFailed.

Definition store (size physAddr value : Z) (mem : list Z) : res (list Z) :=
  if size =? 1 then aset mem physAddr (Z.land value 0xff)
  else if size =? 2 then
    bwrite physAddr (le_bytes 2 (ShortToMachine (Z.land value 0xffff))) mem
  else if size =? 4 then
    bwrite physAddr (le_bytes 4 (WordToMachine (u32 value))) mem
  else Err AssertFailed.

(** [ReadMem]: [None] when it returns FALSE. *)
Definition ReadMem (addr size : Z) (w : Machine * K) : res (option Z * (Machine * K)) :=
  let '(m, k) := w in
  t ← Translate addr size false m;
  let '(exception, physicalAddress, m) := t in
  if decide (exception = NoException) then
    v ← load size physicalAddress (mainMemory m);
    Ok (Some v, (m, k))
  else
    w' ← RaiseException exception addr (m, k);
    Ok (None, w').

Definition WriteMem (addr size value : Z) (w : Machine * K) : res (bool * (Machine * K)) :=
  let '(m, k) := w in
  t ← Translate addr size true m;
  let '(exception, physicalAddress, m) := t in
  if decide (exception = NoException) then
    mem ← store size physicalAddress value (mainMemory m);
    Ok (true, (set_memory m mem, k))
  else
    w' ← RaiseException exception addr (m, k);
    Ok (false, w').

End WithKernel.

(** ** Well-formed machines *)

(** The translation hardware: one of the two tables is loaded, and the
    size register does not exceed the page table. *)
Definition wf_translation (m : Machine) : Prop :=
  match tlb m, pageTable m with
  | None, Some pt => pageTableSize m <= zlen pt
  | Some t, None => zlen t = TLBSize
  | _, _ => False
  end.

Record wf (m : Machine) : Prop := {
  wf_mem : zlen (mainMemory m) = MemorySize;
  wf_bytes : Forall in_u8 (mainMemory m);
  wf_nregs : zlen (registers m) = NumTotalRegs;
  wf_ints : Forall in_s32 (registers m);
  wf_load : exists r, aget (registers m) LoadReg = Ok r /\ 0 <= r < NumGPRegs;
  wf_trans : wf_translation m
}.

(** The translation of a virtual page in force: the valid entry of the
    page table, or the first valid entry of the TLB for the page. *)
Definition mapped_entry (m : Machine) (vpn : Z) : option (Z * TranslationEntry) :=
  match tlb m with
  | None =>
      if vpn <? pageTableSize m then
        e ← pageTable m ≫= (fun pt => pt !! Z.to_nat vpn);
        if valid e then Some (vpn, e) else None
      else None
  | Some t =>
      '(i, e) ← list_find (fun e => Is_true (valid e) /\ u32 (virtualPage e) = vpn) t;
      Some (Z.of_nat i, e)
  end.

(** The tables after the use and dirty bits of entry [i] were set. *)
Definition touch (writing : bool) (e : TranslationEntry) : TranslationEntry :=
  mkTE (virtualPage e) (physicalPage e) (valid e) (readOnly e) true
    (if writing then true else dirty e).

Definition touched (m m' : Machine) (i : Z) (e' : TranslationEntry) : Prop :=
  mainMemory m' = mainMemory m /\ registers m' = registers m /\
  pageTableSize m' = pageTableSize m /\
  tlb m' = (fun t => <[Z.to_nat i := e']> t) <$> tlb m /\
  pageTable m' =
    (if is_NULL (tlb m) then (fun t => <[Z.to_nat i := e']> t) <$> pageTable m
     else pageTable m).

(** *** Registers *)

Lemma getr_safe m i : wf m -> 0 <= i < NumTotalRegs -> safe in_s32 (getr i m).
Proof.
  intros Hwf Hi. unfold getr. destruct (aget_in_range (registers m) i) as [x Hx].
  { by rewrite (wf_nregs m Hwf). }
  rewrite Hx. simpl. apply aget_Ok_inv in Hx as [_ Hx].
  eapply Forall_lookup_1; [apply Hwf|done].
Qed.

Lemma set_registers_wf m regs :
  wf m -> zlen regs = NumTotalRegs -> Forall in_s32 regs ->
  (exists r, aget regs LoadReg = Ok r /\ 0 <= r < NumGPRegs) ->
  wf (set_registers m regs).
Proof. intros [] ???. by split. Qed.

Lemma setr_safe m i v :
  wf m -> 0 <= i < NumTotalRegs -> in_s32 v -> (i = LoadReg -> 0 <= v < NumGPRegs) ->
  safe (fun m' => wf m' /\ tlb m' = tlb m /\ pageTable m' = pageTable m /\
          registers m' = <[Z.to_nat i := v]> (registers m)) (setr i v m).
Proof.
  intros Hwf Hi Hv Hl. unfold setr.
  assert (Hr : 0 <= i < zlen (registers m)) by by rewrite (wf_nregs m Hwf).
  rewrite aset_in_range by done. simpl. split; [|done].
  destruct (wf_load m Hwf) as (r & Hlr & Hrr).
  apply set_registers_wf; [done| | |].
  - rewrite zlen_insert. apply Hwf.
  - apply Forall_insert; [apply Hwf|done].
  - destruct (decide (i = LoadReg)) as [->|Hne].
    + exists v. split; [by apply aget_insert_eq|auto].
    + exists r. split; [|done]. rewrite aget_insert_ne; [done|lia|done].
Qed.

Lemma DelayedLoad_safe m nr nv :
  wf m -> 0 <= nr < NumGPRegs -> in_s32 nv ->
  safe (fun m' => wf m' /\ tlb m' = tlb m /\ pageTable m' = pageTable m /\
          aget (registers m') 0 = Ok 0) (DelayedLoad nr nv m).
Proof.
  intros Hwf Hnr Hnv. unfold DelayedLoad, NumGPRegs in *.
  destruct (wf_load m Hwf) as (r & Hlr & Hr). assert (Hg : getr LoadReg m = Ok r) by exact Hlr. rewrite Hg.
  cbn [mbind res_bind]. unfold NumGPRegs in Hr.
  apply (safe_bind in_s32); [apply getr_safe; [done|unfold LoadValueReg, NumTotalRegs; lia]|].
  intros lv Hlv.
  eapply safe_bind; [apply (setr_safe m r lv); unfold NumTotalRegs, LoadReg; try done; lia|].
  intros m1 (Hwf1 & Ht1 & Hp1 & _).
  eapply safe_bind; [apply (setr_safe m1 LoadReg nr); unfold NumTotalRegs, LoadReg, NumGPRegs, in_s32; try done; lia|].
  intros m2 (Hwf2 & Ht2 & Hp2 & _).
  eapply safe_bind; [apply (setr_safe m2 LoadValueReg nv); unfold NumTotalRegs, LoadReg, LoadValueReg, NumGPRegs; try done; lia|].
  intros m3 (Hwf3 & Ht3 & Hp3 & _).
  eapply safe_mono; [apply (setr_safe m3 0 0); unfold NumTotalRegs, LoadReg, in_s32; try done; lia|].
  intros m4 (Hwf4 & Ht4 & Hp4 & Hr4). split; [done|]. split; [congruence|]. split; [congruence|].
  rewrite Hr4. apply aget_insert_eq. rewrite (wf_nregs m3 Hwf3). unfold NumTotalRegs. lia.
Qed.


(** *** The abstract translation *)

(** What Translate promises, in terms of the entry in force alone: the
    exceptions in the order they are tested for, or the frame's address. *)
Definition translate_spec (virtAddr size : Z) (writing : bool) (m : Machine)
  : ExceptionType + (Z * TranslationEntry * Z) :=
  let vpn := u32 virtAddr / PageSize in
  if misaligned virtAddr size then inl AddressErrorException
  else if is_NULL (tlb m) && (pageTableSize m <=? vpn) then inl AddressErrorException
  else
    match mapped_entry m vpn with
    | None => inl PageFaultException
    | Some (i, e) =>
        if readOnly e && writing then inl ReadOnlyException
        else if NumPhysPages <=? u32 (physicalPage e) then inl BusErrorException
        else inr (i, e, u32 (physicalPage e) * PageSize + u32 virtAddr mod PageSize)
    end.

Lemma misaligned_false va size :
  misaligned va size = false -> size = 1 \/ size = 2 \/ size = 4 -> u32 va mod size = 0.
Proof.
  unfold misaligned, u32. intros H Hs.
  destruct Hs as [->|[->| ->]]; [apply Z.mod_1_r| |]; cbn in H.
  - change 1 with (Z.ones 1) in H at 1. rewrite Z.land_ones in H by lia. change (2 ^ 1) with 2 in H.
    rewrite Z.mod_mod_divide by (by exists (2 ^ 31)).
    destruct (Z.eqb_spec (va mod 2) 0); [done|discriminate].
  - change 3 with (Z.ones 2) in H at 1. rewrite Z.land_ones in H by lia. change (2 ^ 2) with 4 in H.
    rewrite Z.mod_mod_divide by (by exists (2 ^ 30)).
    destruct (Z.eqb_spec (va mod 4) 0); [done|discriminate].
Qed.

(** An aligned access does not leave its page. *)
Lemma aligned_in_page va size frame :
  misaligned va size = false -> size = 1 \/ size = 2 \/ size = 4 ->
  0 <= frame < NumPhysPages ->
  let pa := frame * PageSize + u32 va mod PageSize in
  0 <= pa /\ pa + size <= MemorySize.
Proof.
  intros Hm Hs Hf. pose proof (misaligned_false va size Hm Hs) as Ha. cbn zeta.
  unfold MemorySize, NumPhysPages, PageSize, SectorSize in *.
  pose proof (Z.mod_pos_bound (u32 va) 128 ltac:(lia)).
  destruct Hs as [->|[->| ->]]; Z.to_euclidean_division_equations; lia.
Qed.

Lemma use_entry_spec e va size writing :
  misaligned va size = false -> size = 1 \/ size = 2 \/ size = 4 ->
  use_entry e (u32 va mod PageSize) size writing =
    Ok (if readOnly e && writing then inl ReadOnlyException
        else if NumPhysPages <=? u32 (physicalPage e) then inl BusErrorException
        else inr (touch writing e,
                  u32 (physicalPage e) * PageSize + u32 va mod PageSize)).
Proof.
  intros Hm Hs. unfold use_entry. destruct (readOnly e && writing); [done|].
  destruct (Z.leb_spec NumPhysPages (u32 (physicalPage e))) as [|Hf]; [done|].
  pose proof (u32_range (physicalPage e)) as [H0 _].
  destruct (aligned_in_page va size (u32 (physicalPage e)) Hm Hs) as [H1 H2]; [lia|].
  rewrite ASSERT_true; [done|]. apply andb_true_intro. split; by apply Z.leb_le.
Qed.

Lemma tlb_search_spec t vpn :
  zlen t = TLBSize ->
  tlb_search t vpn = Ok (Z.of_nat ∘ fst <$>
    list_find (fun e => Is_true (valid e) /\ u32 (virtualPage e) = vpn) t).
Proof.
  unfold zlen, TLBSize. intros Hl.
  assert (exists a b c d, t = [a; b; c; d]) as (a & b & c & d & ->).
  { destruct t as [|a [|b [|c [|d [|]]]]]; simpl in Hl; try lia. by exists a, b, c, d. }
  clear Hl. unfold tlb_search, TLBSize. cbn.
  assert (Hd : forall e : TranslationEntry,
    (valid e && (u32 (virtualPage e) =? vpn) = true /\
       Is_true (valid e) /\ u32 (virtualPage e) = vpn) \/
    (valid e && (u32 (virtualPage e) =? vpn) = false /\
       ~ (Is_true (valid e) /\ u32 (virtualPage e) = vpn))).
  { intros e. destruct (valid e); simpl; [|tauto].
    destruct (Z.eqb_spec (u32 (virtualPage e)) vpn); tauto. }
  assert (H1 : forall e {A} (x y : A),
    (if decide (Is_true (valid e) /\ u32 (virtualPage e) = vpn) then x else y) =
    if valid e && (u32 (virtualPage e) =? vpn) then x else y).
  { intros e A x y. destruct (Hd e) as [[-> Hy]|[-> Hn]].
    - by rewrite decide_True.
    - by rewrite decide_False. }
  rewrite !H1. change (Z.to_nat 4) with 4%nat. cbn [for_break].
  change (aget [a; b; c; d] 0) with (Ok a). change (aget [a; b; c; d] (0 + 1)) with (Ok b).
  change (aget [a; b; c; d] (0 + 1 + 1)) with (Ok c).
  change (aget [a; b; c; d] (0 + 1 + 1 + 1)) with (Ok d). cbn.
  destruct (valid a && _); [done|]. destruct (valid b && _); [done|].
  destruct (valid c && _); [done|]. by destruct (valid d && _).
Qed.

Lemma mapped_entry_Some m vpn i e :
  wf m -> 0 <= vpn -> mapped_entry m vpn = Some (i, e) ->
  valid e = true /\
  match tlb m with
  | None => i = vpn /\ vpn < pageTableSize m /\
      exists pt, pageTable m = Some pt /\ 0 <= i < zlen pt /\ aget pt i = Ok e
  | Some t => 0 <= i < zlen t /\ aget t i = Ok e /\ u32 (virtualPage e) = vpn
  end.
Proof.
  intros Hwf Hv. unfold mapped_entry. destruct (tlb m) as [t|] eqn:Et.
  - destruct (list_find _ t) as [[n e']|] eqn:Ef; [|done]. intros [= <- <-].
    apply list_find_Some in Ef as (Hn & [Hval Hvp] & _).
    split; [by destruct (valid e')|]. apply lookup_lt_Some in Hn as Hlt.
    split; [unfold zlen; lia|]. split; [|done]. apply aget_lookup; [lia|by rewrite Nat2Z.id].
  - destruct (Z.ltb_spec vpn (pageTableSize m)) as [Hlt|]; [|done].
    destruct (pageTable m) as [pt|] eqn:Ep; simpl; [|done].
    destruct (pt !! Z.to_nat vpn) as [e'|] eqn:El; simpl; [|done].
    destruct (valid e') eqn:Ev; [|done]. intros [= <- <-]. split; [done|].
    split; [done|]. split; [done|]. exists pt. split; [done|].
    apply lookup_lt_Some in El as Hl. split; [unfold zlen; lia|]. by apply aget_lookup.
Qed.

(** The refinement: the search of the tables, the tests and the update of
    the bits compute the abstract translation. *)
Lemma Translate_refines m va size writing :
  wf m -> size = 1 \/ size = 2 \/ size = 4 ->
  match translate_spec va size writing m with
  | inl exc => exc <> NoException /\ Translate va size writing m = Ok (exc, 0, m)
  | inr (i, e, pa) => exists m',
      Translate va size writing m = Ok (NoException, pa, m') /\
      touched m m' i (touch writing e)
  end.
Proof.
  intros Hwf Hs. pose proof (wf_trans m Hwf) as Ht. unfold wf_translation in Ht.
  unfold translate_spec, Translate, mapped_entry.
  destruct (misaligned va size) eqn:Hm; [done|].
  assert (Hv : 0 <= u32 va / PageSize).
  { apply Z.div_pos; [apply u32_range|by unfold PageSize, SectorSize]. }
  destruct (tlb m) as [t|] eqn:Et, (pageTable m) as [pt|] eqn:Ep; try done;
    cbn [is_NULL andb orb negb ASSERT mbind res_bind deref].
  - rewrite tlb_search_spec by done. cbn [mbind res_bind].
    destruct (list_find _ t) as [[n e]|] eqn:Ef; cbn [fmap option_fmap option_map compose fst]; [|done].
    apply list_find_Some in Ef as (Hn & _ & _). apply lookup_lt_Some in Hn as Hlt.
    rewrite (aget_lookup t (Z.of_nat n) e) by (lia || by rewrite Nat2Z.id).
    cbn. rewrite use_entry_spec by done. cbn.
    destruct (readOnly e && writing); [done|].
    destruct (NumPhysPages <=? u32 (physicalPage e)); [done|].
    rewrite aset_in_range by (unfold zlen; lia). cbn.
    eexists. split; [done|]. unfold touched. rewrite Et, Ep. done.
  - destruct (Z.leb_spec (pageTableSize m) (u32 va / PageSize)) as [|Hb]; [done|].
    rewrite (proj2 (Z.ltb_lt _ _) Hb).
    destruct (aget_in_range pt (u32 va / PageSize)) as [e He]; [lia|]. rewrite He.
    apply aget_Ok_inv in He as [Hr He]. cbn. rewrite He. cbn.
    destruct (valid e); cbn; [|done]. rewrite use_entry_spec by done. cbn.
    destruct (readOnly e && writing); [done|].
    destruct (NumPhysPages <=? u32 (physicalPage e)); [done|].
    rewrite aset_in_range by done. cbn.
    eexists. split; [done|]. unfold touched. rewrite Et, Ep. done.
Qed.

(** *** Setting the bits keeps the tables and their translations *)

Lemma touched_tlb m m' i e' t :
  touched m m' i e' -> tlb m = Some t ->
  tlb m' = Some (<[Z.to_nat i := e']> t) /\ pageTable m' = pageTable m.
Proof. intros (_ & _ & _ & -> & ->) ->. done. Qed.

Lemma touched_pt m m' i e' pt :
  touched m m' i e' -> tlb m = None -> pageTable m = Some pt ->
  tlb m' = None /\ pageTable m' = Some (<[Z.to_nat i := e']> pt).
Proof. intros (_ & _ & _ & -> & ->) -> ->. done. Qed.

Lemma touched_wf m m' i e' : wf m -> touched m m' i e' -> wf m'.
Proof.
  intros Hwf Ht. pose proof (wf_trans m Hwf) as Htr.
  destruct Hwf as [H1 H2 H3 H4 H5 _]. pose proof Ht as (Em & Er & Es & _ & _).
  split; rewrite ?Em, ?Er; try done. unfold wf_translation in *.
  destruct (tlb m) as [t|] eqn:Et, (pageTable m) as [pt|] eqn:Ep; try done.
  - destruct (touched_tlb m m' i e' t Ht Et) as [-> ->]. rewrite Ep. by rewrite zlen_insert.
  - destruct (touched_pt m m' i e' pt Ht Et Ep) as [-> ->]. by rewrite zlen_insert, Es.
Qed.

Lemma mapped_entry_touched m m' vpn i e b :
  wf m -> 0 <= vpn -> mapped_entry m vpn = Some (i, e) ->
  touched m m' i (touch b e) -> mapped_entry m' vpn = Some (i, touch b e).
Proof.
  intros Hwf Hv He Ht. pose proof (wf_trans m Hwf) as Htr. unfold wf_translation in Htr.
  pose proof Ht as (_ & _ & Es & _ & _). unfold mapped_entry in *.
  destruct (tlb m) as [t|] eqn:Et, (pageTable m) as [pt|] eqn:Ep; try done.
  - destruct (touched_tlb m m' i _ t Ht Et) as [-> _].
    destruct (list_find _ t) as [[n e0]|] eqn:Ef; [|done]. injection He as <- <-.
    apply list_find_Some in Ef as (Hn & Hp & Hmin). rewrite Nat2Z.id.
    rewrite (proj2 (list_find_Some _ _ n (touch b e0))); [done|].
    split; [|split].
    + apply list_lookup_insert_eq. by eapply lookup_lt_Some.
    + exact Hp.
    + intros j y Hy Hj. rewrite list_lookup_insert_ne in Hy by lia. by eapply Hmin.
  - destruct (touched_pt m m' i _ pt Ht Et Ep) as [-> ->]. rewrite Es.
    destruct (vpn <? pageTableSize m); [|done].
    cbn in He. destruct (pt !! Z.to_nat vpn) as [e0|] eqn:El; cbn in He; [|done].
    destruct (valid e0) eqn:Evl; [|done]. injection He as <- <-. cbn.
    rewrite list_lookup_insert_eq by (by eapply lookup_lt_Some). cbn. by rewrite Evl.
Qed.

(** *** Memory accesses *)

(** The value of [size] bytes as ReadMem returns it. *)
Definition narrow (size value : Z) : Z :=
  if size =? 1 then s8 value else if size =? 2 then u16 value else s32 value.

Lemma load_safe size pa mem :
  size = 1 \/ size = 2 \/ size = 4 -> 0 <= pa -> pa + size <= zlen mem ->
  exists v, load size pa mem = Ok v /\ (Forall in_u8 mem -> in_s32 v).
Proof.
  intros Hs H0 H1. unfold load. destruct Hs as [->|[->| ->]]; cbn [Z.eqb Pos.eqb].
  - destruct (aget_in_range mem pa) as [b Hb]; [lia|]. rewrite Hb. cbn. exists (s8 b).
    split; [done|]. intros _. apply s8_range.
  - rewrite bread_Ok by lia. cbn. eexists. split; [done|]. intros Hm.
    pose proof (le_val_range (slice pa 2 mem) (Forall_slice _ _ _ _ Hm)) as Hr.
    rewrite zlen_slice in Hr by lia. unfold ShortToHost, in_s32. lia.
  - rewrite bread_Ok by lia. cbn. eexists. split; [done|]. intros _. apply s32_range.
Qed.

Lemma store_safe size pa v mem :
  size = 1 \/ size = 2 \/ size = 4 -> 0 <= pa -> pa + size <= zlen mem ->
  exists new, store size pa v mem = Ok (splice pa new mem) /\ zlen new = size /\
    Forall in_u8 new /\ load size 0 new = Ok (narrow size v).
Proof.
  intros Hs H0 H1. unfold store. destruct Hs as [->|[->| ->]]; cbn [Z.eqb Pos.eqb].
  - exists [Z.land v 255]. rewrite aset_in_range by lia.
    change 255 with (Z.ones 8). rewrite Z.land_ones by lia. split; [|split; [done|split]].
    + f_equal. unfold splice, zlen in *. cbn [length]. rewrite insert_take_drop by lia.
      repeat f_equal. lia.
    + constructor; [|constructor]. unfold in_u8. apply Z.mod_pos_bound. lia.
    + change (Ok (s8 (v mod 2 ^ 8)) = Ok (s8 v)). unfold s8. by rewrite Zplus_mod_idemp_l.
  - exists (le_bytes 2 (Z.land v 65535)).
    rewrite bwrite_Ok by (unfold zlen in *; rewrite ?length_le_bytes; lia).
    split; [done|split; [done|split; [apply le_bytes_in_u8|]]].
    unfold load. cbn [Z.eqb Pos.eqb]. rewrite bread_Ok by (unfold zlen; rewrite ?length_le_bytes; lia).
    change 2 with (zlen (le_bytes 2 (Z.land v 65535))) at 1. rewrite slice_all.
    cbn [mbind res_bind]. unfold ShortToHost. rewrite le_val_le_bytes.
    change 65535 with (Z.ones 16). rewrite Z.land_ones by lia. unfold narrow, u16.
    cbn [Z.eqb Pos.eqb]. change (256 ^ Z.of_nat 2) with (2 ^ 16). by rewrite Z.mod_mod.
  - exists (le_bytes 4 (u32 v)).
    unfold WordToMachine, WordToHost.
    rewrite bwrite_Ok by (unfold zlen in *; rewrite ?length_le_bytes; lia).
    split; [done|split; [done|split; [apply le_bytes_in_u8|]]].
    unfold load. cbn [Z.eqb Pos.eqb]. rewrite bread_Ok by (unfold zlen; rewrite ?length_le_bytes; lia).
    change 4 with (zlen (le_bytes 4 (u32 v))) at 1. rewrite slice_all.
    cbn [mbind res_bind]. unfold WordToHost. rewrite le_val_le_bytes.
    change (256 ^ Z.of_nat 4) with (2 ^ 32). unfold narrow. cbn [Z.eqb Pos.eqb].
    change (s32 (u32 (u32 v)) = _) || fold (u32 (u32 v)). by rewrite !s32_u32.
Qed.

Lemma slice_whole {A} n (l : list A) : zlen l = n -> slice 0 n l = l.
Proof. intros <-. apply slice_all. Qed.

(** A load sees only its bytes. *)
Lemma load_slice size pa mem :
  size = 1 \/ size = 2 \/ size = 4 -> 0 <= pa -> pa + size <= zlen mem ->
  load size pa mem = load size 0 (slice pa size mem).
Proof.
  intros Hs H0 H1. unfold load.
  assert (Hz : zlen (slice pa size mem) = size) by (apply zlen_slice; lia).
  destruct Hs as [->|[->| ->]]; cbn [Z.eqb Pos.eqb].
  - unfold aget at 2. cbn [Z.leb Z.compare]. rewrite slice_lookup, decide_True by lia.
    unfold aget. rewrite (proj2 (Z.leb_le 0 pa)) by lia.
    change (Z.to_nat 0) with 0%nat. by rewrite Nat.add_0_r.
  - rewrite !bread_Ok by lia. by rewrite (slice_whole _ _ Hz).
  - rewrite !bread_Ok by lia. by rewrite (slice_whole _ _ Hz).
Qed.

Lemma load_store size pa v mem mem' :
  size = 1 \/ size = 2 \/ size = 4 -> 0 <= pa -> pa + size <= zlen mem ->
  store size pa v mem = Ok mem' -> load size pa mem' = Ok (narrow size v).
Proof.
  intros Hs H0 H1 Hst. destruct (store_safe size pa v mem Hs H0 H1) as (new & Hn & Hz & _ & Hl).
  rewrite Hn in Hst. injection Hst as <-. rewrite load_slice; [|done|done|].
  - rewrite <-Hz at 2. rewrite slice_splice_eq by (rewrite ?Hz; lia). done.
  - rewrite zlen_splice by lia. done.
Qed.

Lemma load_store_ne size size' pa pa' v mem mem' :
  size = 1 \/ size = 2 \/ size = 4 -> size' = 1 \/ size' = 2 \/ size' = 4 ->
  0 <= pa -> pa + size <= zlen mem -> 0 <= pa' -> pa' + size' <= zlen mem ->
  pa' + size' <= pa \/ pa + size <= pa' ->
  store size pa v mem = Ok mem' -> load size' pa' mem' = load size' pa' mem.
Proof.
  intros Hs Hs' H0 H1 H2 H3 Hd Hst.
  destruct (store_safe size pa v mem Hs H0 H1) as (new & Hn & Hz & _ & _).
  rewrite Hn in Hst. injection Hst as <-.
  rewrite (load_slice size' pa' mem), (load_slice size' pa' (splice _ _ _))
    by (rewrite ?zlen_splice; lia).
  by rewrite slice_splice_ne by lia.
Qed.

Lemma set_memory_wf m mem :
  wf m -> zlen mem = MemorySize -> Forall in_u8 mem -> wf (set_memory m mem).
Proof. intros [] ??. by split. Qed.

(** Translate changes the tables only. *)
Lemma Translate_same va size writing m exc pa m' : Translate va size writing m = Ok (exc, pa, m') ->
  mainMemory m' = mainMemory m /\ registers m' = registers m.
Proof.
  unfold Translate. intros E.
  repeat (invert_res; try match goal with
    | E : (if ?b then _ else _) = Ok _ |- _ => destruct b
    | E : (match ?x with _ => _ end) = Ok _ |- _ => destruct x
    end); done.
Qed.

(** Translate on a well-formed machine: it returns, the machine stays
    well formed, and NoException gives an address inside main memory. *)
Lemma Translate_total m va size writing :
  wf m -> size = 1 \/ size = 2 \/ size = 4 ->
  exists exc pa m', Translate va size writing m = Ok (exc, pa, m') /\ wf m' /\
    mainMemory m' = mainMemory m /\ registers m' = registers m /\
    (exc = NoException -> 0 <= pa /\ pa + size <= MemorySize).
Proof.
  intros Hwf Hs. pose proof (Translate_refines m va size writing Hwf Hs) as Hr.
  destruct (translate_spec va size writing m) as [exc|[[i e] pa]] eqn:Esp.
  - destruct Hr as [Hne ->]. exists exc, 0, m. do 4 (split; [done|]). by intros ->.
  - destruct Hr as (m' & -> & Ht). exists NoException, pa, m'. split; [done|].
    split; [by eapply touched_wf|]. destruct Ht as (-> & -> & _). split; [done|]. split; [done|].
    intros _. unfold translate_spec in Esp.
    destruct (misaligned va size) eqn:Hm; [done|]. destruct (_ && _); [done|].
    destruct (mapped_entry _ _) as [[i' e']|]; [|done]. destruct (_ && _); [done|].
    destruct (Z.leb_spec NumPhysPages (u32 (physicalPage e'))); [done|].
    injection Esp as _ _ <-. apply aligned_in_page; [done|done|].
    pose proof (u32_range (physicalPage e')). unfold in_u32 in *. lia.
Qed.

(** A written page can be read at the same place. *)
Lemma translate_spec_touched m m' va size i e pa :
  wf m -> translate_spec va size true m = inr (i, e, pa) ->
  touched m m' i (touch true e) ->
  translate_spec va size false m' = inr (i, touch true e, pa).
Proof.
  intros Hwf Hsp Ht. unfold translate_spec in *.
  assert (Hv : 0 <= u32 va / PageSize).
  { apply Z.div_pos; [apply u32_range|by unfold PageSize, SectorSize]. }
  destruct (misaligned va size); [done|].
  replace (is_NULL (tlb m')) with (is_NULL (tlb m)).
  2:{ destruct Ht as (_ & _ & _ & -> & _). by destruct (tlb m). }
  pose proof Ht as (_ & _ & -> & _ & _). destruct (_ && (_ <=? _)); [done|].
  destruct (mapped_entry m _) as [[i' e']|] eqn:Em; [|done].
  destruct (readOnly e' && true) eqn:Ero; [done|].
  destruct (NumPhysPages <=? _) eqn:Efr; [done|]. injection Hsp as -> -> <-.
  rewrite (mapped_entry_touched m m' _ i e true Hwf Hv Em Ht). cbn.
  by rewrite andb_false_r, Efr.
Qed.

Lemma translate_spec_bounds m va size writing i e pa :
  size = 1 \/ size = 2 \/ size = 4 ->
  translate_spec va size writing m = inr (i, e, pa) ->
  0 <= pa /\ pa + size <= MemorySize.
Proof.
  intros Hs. unfold translate_spec. destruct (misaligned va size) eqn:Hm; [done|].
  destruct (_ && _); [done|]. destruct (mapped_entry _ _) as [[i' e']|]; [|done].
  destruct (_ && _); [done|].
  destruct (Z.leb_spec NumPhysPages (u32 (physicalPage e'))); [done|].
  intros [= _ _ <-]. apply aligned_in_page; [done|done|].
  pose proof (u32_range (physicalPage e')). unfold in_u32 in *. lia.
Qed.

(** ** The contract of the kernel entry *)

(** A machine as it is between instructions: register 0 holds 0. *)
Definition wf0 (m : Machine) : Prop := wf m /\ aget (registers m) 0 = Ok 0.

Class KernelLaws (K : Type) `{!KernelEntry K} := {
  handler_safe : forall exc m k, wf0 m ->
    safe (fun w : Machine * K => wf0 (fst w)) (ExceptionHandler exc (m, k));
  OneTick_safe : forall m k, wf0 m ->
    safe (fun w : Machine * K => wf0 (fst w)) (OneTick (m, k));
  Debugger_safe : forall m k, wf0 m ->
    safe (fun w : Machine * K => wf0 (fst w)) (Debugger (m, k))
}.

Section Access.
Context {K : Type} `{!KernelEntry K, !KernelLaws K}.

Lemma RaiseException_safe exc a m (k : K) :
  wf m -> in_s32 a ->
  safe (fun w => wf0 (fst w)) (RaiseException exc a (m, k)).
Proof.
  intros Hwf Ha. unfold RaiseException.
  eapply safe_bind; [apply (setr_safe m BadVAddrReg a); unfold NumTotalRegs, LoadReg, BadVAddrReg; try done; lia|].
  intros m1 (Hwf1 & _). eapply safe_bind; [apply (DelayedLoad_safe m1 0 0 Hwf1); unfold in_s32, NumGPRegs; lia|].
  intros m2 (Hwf2 & _ & _ & H0).
  eapply safe_bind; [apply handler_safe; by split|]. by intros [m3 k3] Hm3.
Qed.

Lemma ReadMem_safe a size m (k : K) :
  wf m -> in_s32 a -> size = 1 \/ size = 2 \/ size = 4 ->
  safe (fun r => match r with
                 | (Some v, w) => wf (fst w) /\ registers (fst w) = registers m /\ in_s32 v
                 | (None, w) => wf0 (fst w)
                 end) (ReadMem a size (m, k)).
Proof.
  intros Hwf Ha Hs. unfold ReadMem.
  destruct (Translate_total m a size false Hwf Hs) as (exc & pa & m' & -> & Hwf' & Em & Er & Hpa).
  cbn. case_decide as He.
  - destruct (Hpa He) as [H0 H1].
    destruct (load_safe size pa (mainMemory m') Hs H0) as (v & -> & Hv).
    { by rewrite (wf_mem m' Hwf'). }
    cbn. split; [done|]. split; [done|]. apply Hv, Hwf'.
  - eapply safe_bind; [by apply RaiseException_safe|]. by intros.
Qed.

Lemma WriteMem_safe a size v m (k : K) :
  wf m -> in_s32 a -> size = 1 \/ size = 2 \/ size = 4 ->
  safe (fun r : bool * (Machine * K) => let '(ok, w) := r in
          if ok then wf (fst w) /\ registers (fst w) = registers m else wf0 (fst w))
    (WriteMem a size v (m, k)).
Proof.
  intros Hwf Ha Hs. unfold WriteMem.
  destruct (Translate_total m a size true Hwf Hs) as (exc & pa & m' & -> & Hwf' & Em & Er & Hpa).
  cbn. case_decide as He.
  - destruct (Hpa He) as [H0 H1]. pose proof (wf_mem m' Hwf') as Hz.
    destruct (store_safe size pa v (mainMemory m') Hs H0) as (new & -> & Hn & Hb & _); [lia|].
    cbn. split; [|done]. apply set_memory_wf; [done| |].
    + rewrite zlen_splice by lia. done.
    + apply Forall_splice; [done|apply Hwf'].
  - eapply safe_bind; [by apply RaiseException_safe|]. by intros.
Qed.

End Access.

(** ** Properties *)

(** C18: on a well-formed machine [Translate] always returns (its final
    bounds ASSERT cannot fire), with the exception of the abstract
    translation and the machine unchanged, or with the address of the valid
    entry in force, inside main memory and never in a read-only page when
    writing, having only set the entry's use and dirty bits. *)
Theorem Translate_correct m va size writing :
  wf m -> size = 1 \/ size = 2 \/ size = 4 ->
  match translate_spec va size writing m with
  | inl exc => exc <> NoException /\ Translate va size writing m = Ok (exc, 0, m)
  | inr (i, e, pa) => exists m',
      Translate va size writing m = Ok (NoException, pa, m') /\
      touched m m' i (touch writing e) /\ wf m' /\
      mapped_entry m (u32 va / PageSize) = Some (i, e) /\ valid e = true /\
      (writing = true -> readOnly e = false) /\
      0 <= pa /\ pa + size <= MemorySize
  end.
Proof.
  intros Hwf Hs. pose proof (Translate_refines m va size writing Hwf Hs) as Hr.
  destruct (translate_spec va size writing m) as [exc|[[i e] pa]] eqn:Esp; [done|].
  destruct Hr as (m' & HT & Ht). exists m'. split; [done|]. split; [done|].
  split; [by eapply touched_wf|]. pose proof (translate_spec_bounds _ _ _ _ _ _ _ Hs Esp).
  unfold translate_spec in Esp. destruct (misaligned va size); [done|].
  destruct (_ && (_ <=? _)); [done|].
  destruct (mapped_entry m _) as [[i' e']|] eqn:Em; [|done].
  destruct (readOnly e' && writing) eqn:Ero; [done|].
  destruct (NumPhysPages <=? _); [done|]. injection Esp as <- <- _.
  split; [done|]. apply mapped_entry_Some in Em as [Hv _]; [|done|].
  - split; [done|]. split; [|done]. intros ->. by destruct (readOnly e').
  - apply Z.div_pos; [apply u32_range|by unfold PageSize, SectorSize].
Qed.

(** A machine whose page 2 is mapped to the writable frame 5. *)
Definition example_entry : TranslationEntry := mkTE 2 5 true false false false.

Definition example_machine : Machine :=
  mkMachine (replicate (Z.to_nat MemorySize) 0) (replicate (Z.to_nat NumTotalRegs) 0)
    None (Some [mkTE 0 0 true false false false; mkTE 1 1 false false false false;
                example_entry]) 3 false 0.

Lemma wf_replicate_zero pt n ss ru :
  n <= zlen pt ->
  wf (mkMachine (replicate (Z.to_nat MemorySize) 0) (replicate (Z.to_nat NumTotalRegs) 0)
        None (Some pt) n ss ru).
Proof.
  intros Hn. split; cbn [mainMemory registers]; try reflexivity.
  - apply Forall_replicate. unfold in_u8. lia.
  - apply Forall_replicate. unfold in_s32. lia.
  - exists 0. split; [reflexivity|unfold NumGPRegs; lia].
  - exact Hn.
Qed.

Lemma example_wf : wf example_machine.
Proof. apply wf_replicate_zero. vm_compute. discriminate. Qed.

Lemma Translate_correct_witness :
  exists m', Translate 300 4 true example_machine = Ok (NoException, 5 * 128 + 44, m') /\
    touched example_machine m' 2 (touch true example_entry).
Proof.
  pose proof (Translate_correct example_machine 300 4 true
    example_wf ltac:(lia)) as H.
  cbv [translate_spec] in H. cbn in H. destruct H as (m' & H1 & H2 & _). by exists m'.
Defined.

(** After a successful [WriteMem] the same address reads back the
    value at the width of the access, sign-extended for bytes and words and
    zero-extended for half words, and the bytes of main memory outside the
    [size] bytes at the translated address are unchanged. *)
Theorem WriteMem_ReadMem {K} `{!KernelEntry K} m (k : K) addr size v m' k' :
  wf m -> size = 1 \/ size = 2 \/ size = 4 ->
  WriteMem addr size v (m, k) = Ok (true, (m', k')) ->
  k' = k /\
  (exists m'', ReadMem addr size (m', k) = Ok (Some (narrow size v), (m'', k))) /\
  exists i e pa, translate_spec addr size true m = inr (i, e, pa) /\
    forall off n, 0 <= off -> off + n <= pa \/ pa + size <= off ->
      slice off n (mainMemory m') = slice off n (mainMemory m).
Proof.
  intros Hwf Hs HW. pose proof (Translate_refines m addr size true Hwf Hs) as Hr.
  unfold WriteMem in HW.
  destruct (translate_spec addr size true m) as [exc|[[i e] pa]] eqn:Esp.
  - destruct Hr as [Hne Hr]. rewrite Hr in HW. cbn in HW. rewrite decide_False in HW by done.
    by apply bind_Ok_inv in HW as (w & _ & HW).
  - destruct Hr as (m1 & HT & Ht). rewrite HT in HW. cbn in HW.
    destruct (translate_spec_bounds _ _ _ _ _ _ _ Hs Esp) as [H0 H1].
    pose proof Ht as (Em & _). pose proof (wf_mem m Hwf) as Hz.
    destruct (store size pa v (mainMemory m1)) as [mem|] eqn:Est; cbn in HW; [|done].
    injection HW as <- <-. split; [done|]. rewrite Em in Est. split.
    + pose proof (touched_wf m m1 _ _ Hwf Ht) as Hwf1.
      destruct (store_safe size pa v (mainMemory m) Hs H0) as (new & Hn & Hzn & Hb & _); [lia|].
      rewrite Hn in Est. injection Est as <-.
      set (mw := set_memory m1 (splice pa new (mainMemory m))).
      assert (Hwfw : wf mw).
      { apply set_memory_wf; [done|by rewrite zlen_splice by lia|].
        apply Forall_splice; [done|apply Hwf]. }
      pose proof (Translate_refines mw addr size false Hwfw Hs) as Hr2.
      change (translate_spec addr size false mw) with (translate_spec addr size false m1) in Hr2.
      rewrite (translate_spec_touched m m1 addr size i e pa Hwf Esp Ht) in Hr2.
      destruct Hr2 as (m2 & HT2 & (Em2 & _)). exists m2. unfold ReadMem. rewrite HT2. cbn.
      rewrite Em2. cbn. rewrite (load_store size pa v (mainMemory m)); [done|done|done|lia|done].
    + exists i, e, pa. split; [done|]. intros off n Ho Hd. cbn.
      destruct (store_safe size pa v (mainMemory m) Hs H0) as (new & Hn & Hzn & _ & _); [lia|].
      rewrite Hn in Est. injection Est as <-. by rewrite slice_splice_ne by lia.
Qed.

#[export] Instance no_kernel : KernelEntry unit :=
  {| setStatus := fun _ k => k; ExceptionHandler := fun _ w => Ok w;
     OneTick := fun w => Ok w; totalTicks := fun _ => 0; Debugger := fun w => Ok w |}.

#[export] Instance no_kernel_laws : KernelLaws unit.
Proof. by split; intros. Qed.

Lemma WriteMem_ReadMem_witness :
  exists m' m'', WriteMem 300 4 (-7) (example_machine, tt) = Ok (true, (m', tt)) /\
    ReadMem 300 4 (m', tt) = Ok (Some (-7), (m'', tt)).
Proof.
  assert (Hok : match WriteMem 300 4 (-7) (example_machine, tt) with
                | Ok (ok, _) => ok | Err _ => false end = true) by (vm_compute; reflexivity).
  destruct (WriteMem 300 4 (-7) (example_machine, tt)) as [[ok [m' []]]|] eqn:E; [|discriminate Hok].
  subst ok.
  destruct (WriteMem_ReadMem example_machine tt 300 4 (-7) m' tt
    example_wf ltac:(lia) E)
    as (_ & [m'' H] & _).
  exists m', m''. by split.
Defined.
