(* ===== verification/Mips.v ===== *)
(** * machine/mipssim.{h,cc}: the MIPS R2/3000 simulator

    Decoding of instructions, the 64-bit multiplication done by hand, and
    [OneInstruction] with its branch delay slot and delayed loads.  The
    switch of OneInstruction is split into the contiguous groups of its
    cases, one definition per group. *)

From stdpp Require Import base list numbers.
From S2P Require Import Prelude Arrays Machine.

(** ** Opcodes and the decode tables *)

Inductive opcode :=
  | OP_ADD | OP_ADDI | OP_ADDIU | OP_ADDU | OP_AND | OP_ANDI
  | OP_BEQ | OP_BGEZ | OP_BGEZAL | OP_BGTZ | OP_BLEZ | OP_BLTZ | OP_BLTZAL | OP_BNE
  | OP_DIV | OP_DIVU | OP_J | OP_JAL | OP_JALR | OP_JR
  | OP_LB | OP_LBU | OP_LH | OP_LHU | OP_LUI | OP_LW | OP_LWL | OP_LWR
  | OP_MFHI | OP_MFLO | OP_MTHI | OP_MTLO | OP_MULT | OP_MULTU
  | OP_NOR | OP_OR | OP_ORI | OP_RFE
  | OP_SB | OP_SH | OP_SLL | OP_SLLV | OP_SLT | OP_SLTI | OP_SLTIU | OP_SLTU
  | OP_SRA | OP_SRAV | OP_SRL | OP_SRLV | OP_SUB | OP_SUBU
  | OP_SW | OP_SWL | OP_SWR | OP_XOR | OP_XORI
  | OP_SYSCALL | OP_UNIMP | OP_RES
  (* the two values that need further decoding *)
  | SPECIAL | BCOND.

#[export] Instance opcode_eq_dec : EqDecision opcode.
Proof. solve_decision. Defined.

Inductive format := IFMT | JFMT | RFMT.

#[export] Instance format_eq_dec : EqDecision format.
Proof. solve_decision. Defined.

Definition opTable : list (opcode * format) := [
  (SPECIAL, RFMT); (BCOND, IFMT); (OP_J, JFMT); (OP_JAL, JFMT);
  (OP_BEQ, IFMT); (OP_BNE, IFMT); (OP_BLEZ, IFMT); (OP_BGTZ, IFMT);
  (OP_ADDI, IFMT); (OP_ADDIU, IFMT); (OP_SLTI, IFMT); (OP_SLTIU, IFMT);
  (OP_ANDI, IFMT); (OP_ORI, IFMT); (OP_XORI, IFMT); (OP_LUI, IFMT);
  (OP_UNIMP, IFMT); (OP_UNIMP, IFMT); (OP_UNIMP, IFMT); (OP_UNIMP, IFMT);
  (OP_RES, IFMT); (OP_RES, IFMT); (OP_RES, IFMT); (OP_RES, IFMT);
  (OP_RES, IFMT); (OP_RES, IFMT); (OP_RES, IFMT); (OP_RES, IFMT);
  (OP_RES, IFMT); (OP_RES, IFMT); (OP_RES, IFMT); (OP_RES, IFMT);
  (OP_LB, IFMT); (OP_LH, IFMT); (OP_LWL, IFMT); (OP_LW, IFMT);
  (OP_LBU, IFMT); (OP_LHU, IFMT); (OP_LWR, IFMT); (OP_RES, IFMT);
  (OP_SB, IFMT); (OP_SH, IFMT); (OP_SWL, IFMT); (OP_SW, IFMT);
  (OP_RES, IFMT); (OP_RES, IFMT); (OP_SWR, IFMT); (OP_RES, IFMT);
  (OP_UNIMP, IFMT); (OP_UNIMP, IFMT); (OP_UNIMP, IFMT); (OP_UNIMP, IFMT);
  (OP_RES, IFMT); (OP_RES, IFMT); (OP_RES, IFMT); (OP_RES, IFMT);
  (OP_UNIMP, IFMT); (OP_UNIMP, IFMT); (OP_UNIMP, IFMT); (OP_UNIMP, IFMT);
  (OP_RES, IFMT); (OP_RES, IFMT); (OP_RES, IFMT); (OP_RES, IFMT)].

Definition specialTable : list opcode := [
  OP_SLL; OP_RES; OP_SRL; OP_SRA; OP_SLLV; OP_RES; OP_SRLV; OP_SRAV;
  OP_JR; OP_JALR; OP_RES; OP_RES; OP_SYSCALL; OP_UNIMP; OP_RES; OP_RES;
  OP_MFHI; OP_MTHI; OP_MFLO; OP_MTLO; OP_RES; OP_RES; OP_RES; OP_RES;
  OP_MULT; OP_MULTU; OP_DIV; OP_DIVU; OP_RES; OP_RES; OP_RES; OP_RES;
  OP_ADD; OP_ADDU; OP_SUB; OP_SUBU; OP_AND; OP_OR; OP_XOR; OP_NOR;
  OP_RES; OP_RES; OP_SLT; OP_SLTU; OP_RES; OP_RES; OP_RES; OP_RES;
  OP_RES; OP_RES; OP_RES; OP_RES; OP_RES; OP_RES; OP_RES; OP_RES;
  OP_RES; OP_RES; OP_RES; OP_RES; OP_RES; OP_RES; OP_RES; OP_RES].

Definition IndexToAddr (x : Z) : Z := s32 (Z.shiftl x 2).
Definition SIGN_BIT : Z := 0x80000000.
Definition R31 : Z := 31.

(** [x & SIGN_BIT] as a condition. *)
Definition sign_bit (x : Z) : bool := negb (Z.land (u32 x) SIGN_BIT =? 0).

Record Instruction := mkInstruction {
  value : Z;       (* unsigned *)
  opCode : opcode;
  rs : Z; rt : Z; rd : Z;
  extra : Z
}.

(** The immediate, shift amount or target, by format. *)
Definition Decode_extra (f : format) (value : Z) : Z :=
  match f with
  | IFMT =>
      let extra := Z.land value 0xffff in
      if negb (Z.land extra 0x8000 =? 0) then s32 (Z.lor extra 0xffff0000) else extra
  | RFMT => Z.land (Z.shiftr value 6) 0x1f
  | JFMT => Z.land value 0x3ffffff
  end.

(** [Instruction::Decode], from the binary representation. *)
Definition Decode (value : Z) : res Instruction :=
  let rs := Z.land (Z.shiftr value 21) 0x1f in
  let rt := Z.land (Z.shiftr value 16) 0x1f in
  let rd := Z.land (Z.shiftr value 11) 0x1f in
  opPtr ← aget opTable (Z.land (Z.shiftr value 26) 0x3f);
  let extra := Decode_extra (snd opPtr) value in
  opCode ←
    (if decide (fst opPtr = SPECIAL) then aget specialTable (Z.land value 0x3f)
     else if decide (fst opPtr = BCOND) then
       let i := Z.land value 0x1f0000 in
       Ok (if i =? 0 then OP_BLTZ
           else if i =? 0x10000 then OP_BGEZ
           else if i =? 0x100000 then OP_BLTZAL
           else if i =? 0x110000 then OP_BGEZAL
           else OP_UNIMP)
     else Ok (fst opPtr));
  Ok (mkInstruction value opCode rs rt rd extra).

(** ** Multiplication *)

(** The loop over the bits of [a] (an int shifted arithmetically), with
    the shifted multiplicand [bHi:bLo] and the sum [hi:lo]. *)
Fixpoint Mult_loop (n : nat) (a bLo bHi lo hi : Z) : Z * Z :=
  match n with
  | O => (hi, lo)
  | S n' =>
      let '(hi, lo, stop) :=
        if negb (Z.land a 1 =? 0) then
          let lo' := u32 (lo + bLo) in
          let hi' := if lo' <? bLo then u32 (hi + 1) else hi in
          let hi' := u32 (hi' + bHi) in
          (hi', lo', Z.land (u32 a) 0xfffffffe =? 0)
        else (hi, lo, false) in
      if stop then (hi, lo)
      else
        let bHi := u32 (Z.shiftl bHi 1) in
        let bHi := if negb (Z.land bLo 0x80000000 =? 0) then Z.lor bHi 1 else bHi in
        Mult_loop n' (Z.shiftr a 1) (u32 (Z.shiftl bLo 1)) bHi lo hi
  end.

(** [Mult]: the words stored through [hiPtr] and [loPtr]. *)
Definition Mult (a b : Z) (signedArith : bool) : Z * Z :=
  if (a =? 0) || (b =? 0) then (0, 0)
  else
    let negative := false in
    let '(negative, a) :=
      if signedArith && (a <? 0) then (negb negative, s32 (- a)) else (negative, a) in
    let '(negative, b) :=
      if signedArith && (b <? 0) then (negb negative, s32 (- b)) else (negative, b) in
    let '(hi, lo) := Mult_loop 32 a (u32 b) 0 0 0 in
    let '(hi, lo) :=
      if negative then
        let hi := u32 (Z.lnot hi) in
        let lo := u32 (Z.lnot lo) in
        let lo := u32 (lo + 1) in
        (if lo =? 0 then u32 (hi + 1) else hi, lo)
      else (hi, lo) in
    (s32 hi, s32 lo).

(** ** The cases of OneInstruction *)

Section Execute.
Context {K : Type} `{!KernelEntry K}.

(** A case either breaks out of the switch, with the program counter to
    install and the delayed load to start, or returns from the function
    because an exception was raised. *)
Inductive outcome :=
  | Break (w : Machine * K) (pcAfter nextLoadReg nextLoadValue : Z)
  | Return (w : Machine * K).

(** [registers[i] = v; break;] *)
Definition assign (i v : Z) (w : Machine * K) (pcAfter : Z) : res outcome :=
  m ← setr i v (fst w); Ok (Break (m, snd w) pcAfter 0 0).

Definition raise (which : ExceptionType) (badVAddr : Z) (w : Machine * K) : res outcome :=
  w' ← RaiseException which badVAddr w; Ok (Return w').

(** OP_ADD ... OP_ANDI *)
Definition exec_add_and (instr : Instruction) (pcAfter : Z) (w : Machine * K) : res outcome :=
  let m := fst w in
  match opCode instr with
  | OP_ADD =>
      a ← getr (rs instr) m; b ← getr (rt instr) m;
      let sum := s32 (a + b) in
      if negb (sign_bit (Z.lxor a b)) && sign_bit (Z.lxor a sum)
      then raise OverflowException 0 w
      else assign (rd instr) sum w pcAfter
  | OP_ADDI =>
      a ← getr (rs instr) m;
      let sum := s32 (a + extra instr) in
      if negb (sign_bit (Z.lxor a (extra instr))) && sign_bit (Z.lxor (extra instr) sum)
      then raise OverflowException 0 w
      else assign (rt instr) sum w pcAfter
  | OP_ADDIU =>
      a ← getr (rs instr) m; assign (rt instr) (s32 (a + extra instr)) w pcAfter
  | OP_ADDU =>
      a ← getr (rs instr) m; b ← getr (rt instr) m;
      assign (rd instr) (s32 (a + b)) w pcAfter
  | OP_AND =>
      a ← getr (rs instr) m; b ← getr (rt instr) m;
      assign (rd instr) (Z.land a b) w pcAfter
  | OP_ANDI =>
      a ← getr (rs instr) m;
      assign (rt instr) (Z.land a (Z.land (extra instr) 0xffff)) w pcAfter
  | _ => Err AssertFailed
  end.

(** [registers[NextPCReg] + IndexToAddr(instr->extra)] when taken. *)
Definition branch_to (taken : bool) (instr : Instruction) (pcAfter : Z) (w : Machine * K)
  : res outcome :=
  npc ← getr NextPCReg (fst w);
  Ok (Break w (if taken then s32 (npc + IndexToAddr (extra instr)) else pcAfter) 0 0).

(** The return address of the linking branches goes to R31 first. *)
Definition link (reg : Z) (w : Machine * K) : res (Machine * K) :=
  npc ← getr NextPCReg (fst w);
  m ← setr reg (s32 (npc + 4)) (fst w);
  Ok (m, snd w).

(** OP_BEQ ... OP_BNE *)
Definition exec_branch (instr : Instruction) (pcAfter : Z) (w : Machine * K) : res outcome :=
  match opCode instr with
  | OP_BEQ =>
      a ← getr (rs instr) (fst w); b ← getr (rt instr) (fst w);
      branch_to (a =? b) instr pcAfter w
  | OP_BGEZAL =>
      w ← link R31 w;
      a ← getr (rs instr) (fst w); branch_to (negb (sign_bit a)) instr pcAfter w
  | OP_BGEZ =>
      a ← getr (rs instr) (fst w); branch_to (negb (sign_bit a)) instr pcAfter w
  | OP_BGTZ =>
      a ← getr (rs instr) (fst w); branch_to (0 <? a) instr pcAfter w
  | OP_BLEZ =>
      a ← getr (rs instr) (fst w); branch_to (a <=? 0) instr pcAfter w
  | OP_BLTZAL =>
      w ← link R31 w;
      a ← getr (rs instr) (fst w); branch_to (sign_bit a) instr pcAfter w
  | OP_BLTZ =>
      a ← getr (rs instr) (fst w); branch_to (sign_bit a) instr pcAfter w
  | OP_BNE =>
      a ← getr (rs instr) (fst w); b ← getr (rt instr) (fst w);
      branch_to (negb (a =? b)) instr pcAfter w
  | _ => Err AssertFailed
  end.

Definition set_lo_hi (lo hi : Z) (w : Machine * K) (pcAfter : Z) : res outcome :=
  m ← setr LoReg lo (fst w); m ← setr HiReg hi m;
  Ok (Break (m, snd w) pcAfter 0 0).

(** OP_DIV, OP_DIVU; INT_MIN / -1 traps on the i386 host. *)
Definition exec_div (instr : Instruction) (pcAfter : Z) (w : Machine * K) : res outcome :=
  let m := fst w in
  match opCode instr with
  | OP_DIV =>
      b ← getr (rt instr) m;
      if b =? 0 then set_lo_hi 0 0 w pcAfter
      else
        a ← getr (rs instr) m;
        if (a =? - 2 ^ 31) && (b =? -1) then Err HostTrap
        else
          m ← setr LoReg (Z.quot a b) m;
          a ← getr (rs instr) m; b ← getr (rt instr) m;
          m ← setr HiReg (Z.rem a b) m;
          Ok (Break (m, snd w) pcAfter 0 0)
  | OP_DIVU =>
      a ← getr (rs instr) m; b ← getr (rt instr) m;
      let rs := u32 a in
      let rt := u32 b in
      if rt =? 0 then set_lo_hi 0 0 w pcAfter
      else set_lo_hi (s32 (rs / rt)) (s32 (rs mod rt)) w pcAfter
  | _ => Err AssertFailed
  end.

(** OP_J ... OP_JR *)
Definition exec_jump (instr : Instruction) (pcAfter : Z) (w : Machine * K) : res outcome :=
  let target := s32 (Z.lor (Z.land (u32 pcAfter) 0xf0000000)
                       (u32 (IndexToAddr (extra instr)))) in
  match opCode instr with
  | OP_JAL => w ← link R31 w; Ok (Break w target 0 0)
  | OP_J => Ok (Break w target 0 0)
  | OP_JALR =>
      w ← link (rd instr) w; a ← getr (rs instr) (fst w); Ok (Break w a 0 0)
  | OP_JR => a ← getr (rs instr) (fst w); Ok (Break w a 0 0)
  | _ => Err AssertFailed
  end.

(** [tmp = registers[instr->rs] + instr->extra] *)
Definition effective (instr : Instruction) (w : Machine * K) : res Z :=
  a ← getr (rs instr) (fst w); Ok (s32 (a + extra instr)).

(** OP_LB ... OP_LW *)
Definition exec_load (instr : Instruction) (pcAfter : Z) (w : Machine * K) : res outcome :=
  match opCode instr with
  | OP_LB | OP_LBU =>
      tmp ← effective instr w;
      r ← ReadMem tmp 1 w;
      match r with
      | (None, w') => Ok (Return w')
      | (Some value, w') =>
          let value :=
            if negb (Z.land value 0x80 =? 0) && bool_decide (opCode instr = OP_LB)
            then s32 (Z.lor (u32 value) 0xffffff00) else Z.land value 0xff in
          Ok (Break w' pcAfter (rt instr) value)
      end
  | OP_LH | OP_LHU =>
      tmp ← effective instr w;
      if negb (Z.land tmp 0x1 =? 0) then raise AddressErrorException tmp w
      else
        r ← ReadMem tmp 2 w;
        match r with
        | (None, w') => Ok (Return w')
        | (Some value, w') =>
            let value :=
              if negb (Z.land value 0x8000 =? 0) && bool_decide (opCode instr = OP_LH)
              then s32 (Z.lor (u32 value) 0xffff0000) else Z.land value 0xffff in
            Ok (Break w' pcAfter (rt instr) value)
        end
  | OP_LUI => assign (rt instr) (s32 (Z.shiftl (extra instr) 16)) w pcAfter
  | OP_LW =>
      tmp ← effective instr w;
      if negb (Z.land tmp 0x3 =? 0) then raise AddressErrorException tmp w
      else
        r ← ReadMem tmp 4 w;
        match r with
        | (None, w') => Ok (Return w')
        | (Some value, w') => Ok (Break w' pcAfter (rt instr) value)
        end
  | _ => Err AssertFailed
  end.

(** The register value that an unaligned load merges into. *)
Definition pending_value (r : Z) (m : Machine) : res Z :=
  lr ← getr LoadReg m;
  if lr =? r then getr LoadValueReg m else getr r m.

Definition merge_LWL (tmp value old : Z) : Z :=
  let k := Z.land tmp 0x3 in
  if k =? 0 then value
  else if k =? 1 then s32 (Z.lor (Z.land old 0xff) (Z.shiftl value 8))
  else if k =? 2 then s32 (Z.lor (Z.land old 0xffff) (Z.shiftl value 16))
  else s32 (Z.lor (Z.land old 0xffffff) (Z.shiftl value 24)).

Definition merge_LWR (tmp value old : Z) : Z :=
  let k := Z.land tmp 0x3 in
  if k =? 0 then s32 (Z.lor (Z.land (u32 old) 0xffffff00) (Z.land (Z.shiftr value 24) 0xff))
  else if k =? 1 then
    s32 (Z.lor (Z.land (u32 old) 0xffff0000) (Z.land (Z.shiftr value 16) 0xffff))
  else if k =? 2 then
    s32 (Z.lor (Z.land (u32 old) 0xff000000) (Z.land (Z.shiftr value 8) 0xffffff))
  else value.

(** OP_LWL, OP_LWR *)
Definition exec_unaligned_load (instr : Instruction) (pcAfter : Z) (w : Machine * K)
  : res outcome :=
  tmp ← effective instr w;
  _ ← ASSERT (Z.land tmp 0x3 =? 0);
  r ← ReadMem tmp 4 w;
  match r with
  | (None, w') => Ok (Return w')
  | (Some value, w') =>
      old ← pending_value (rt instr) (fst w');
      match opCode instr with
      | OP_LWL => Ok (Break w' pcAfter (rt instr) (merge_LWL tmp value old))
      | OP_LWR => Ok (Break w' pcAfter (rt instr) (merge_LWR tmp value old))
      | _ => Err AssertFailed
      end
  end.

(** OP_MFHI ... OP_ORI; note the second operand of OP_OR. *)
Definition exec_hilo_logic (instr : Instruction) (pcAfter : Z) (w : Machine * K)
  : res outcome :=
  let m := fst w in
  let mult signedArith :=
    a ← getr (rs instr) m; b ← getr (rt instr) m;
    let '(hi, lo) := Mult a b signedArith in
    m ← setr HiReg hi m; m ← setr LoReg lo m;
    Ok (Break (m, snd w) pcAfter 0 0) in
  match opCode instr with
  | OP_MFHI => a ← getr HiReg m; assign (rd instr) a w pcAfter
  | OP_MFLO => a ← getr LoReg m; assign (rd instr) a w pcAfter
  | OP_MTHI => a ← getr (rs instr) m; assign HiReg a w pcAfter
  | OP_MTLO => a ← getr (rs instr) m; assign LoReg a w pcAfter
  | OP_MULT => mult true
  | OP_MULTU => mult false
  | OP_NOR =>
      a ← getr (rs instr) m; b ← getr (rt instr) m;
      assign (rd instr) (Z.lnot (Z.lor a b)) w pcAfter
  | OP_OR =>
      a ← getr (rs instr) m; b ← getr (rs instr) m;
      assign (rd instr) (Z.lor a b) w pcAfter
  | OP_ORI =>
      a ← getr (rs instr) m;
      assign (rt instr) (Z.lor a (Z.land (extra instr) 0xffff)) w pcAfter
  | _ => Err AssertFailed
  end.

(** A store of [size] bytes of register rt. *)
Definition store_rt (size : Z) (instr : Instruction) (pcAfter : Z) (w : Machine * K)
  : res outcome :=
  addr ← effective instr w;
  v ← getr (rt instr) (fst w);
  r ← WriteMem addr size v w;
  let '(ok, w') := r in
  Ok (if (ok : bool) then Break w' pcAfter 0 0 else Return w').

Definition exec_store (instr : Instruction) (pcAfter : Z) (w : Machine * K) : res outcome :=
  match opCode instr with
  | OP_SB => store_rt 1 instr pcAfter w
  | OP_SH => store_rt 2 instr pcAfter w
  | OP_SW => store_rt 4 instr pcAfter w
  | _ => Err AssertFailed
  end.

(** OP_SLL ... OP_SRLV; [tmp] of OP_SRL and OP_SRLV is an int, so [>>=]
    shifts arithmetically. *)
Definition exec_shift_set (instr : Instruction) (pcAfter : Z) (w : Machine * K)
  : res outcome :=
  let m := fst w in
  match opCode instr with
  | OP_SLL =>
      b ← getr (rt instr) m; assign (rd instr) (s32 (Z.shiftl b (extra instr))) w pcAfter
  | OP_SLLV =>
      b ← getr (rt instr) m; a ← getr (rs instr) m;
      assign (rd instr) (s32 (Z.shiftl b (Z.land a 0x1f))) w pcAfter
  | OP_SLT =>
      a ← getr (rs instr) m; b ← getr (rt instr) m;
      assign (rd instr) (if a <? b then 1 else 0) w pcAfter
  | OP_SLTI =>
      a ← getr (rs instr) m; assign (rt instr) (if a <? extra instr then 1 else 0) w pcAfter
  | OP_SLTIU =>
      a ← getr (rs instr) m;
      let rs := u32 a in
      let imm := u32 (extra instr) in
      assign (rt instr) (if rs <? imm then 1 else 0) w pcAfter
  | OP_SLTU =>
      a ← getr (rs instr) m; b ← getr (rt instr) m;
      let rs := u32 a in
      let rt := u32 b in
      assign (rd instr) (if rs <? rt then 1 else 0) w pcAfter
  | OP_SRA =>
      b ← getr (rt instr) m; assign (rd instr) (Z.shiftr b (extra instr)) w pcAfter
  | OP_SRAV =>
      b ← getr (rt instr) m; a ← getr (rs instr) m;
      assign (rd instr) (Z.shiftr b (Z.land a 0x1f)) w pcAfter
  | OP_SRL =>
      b ← getr (rt instr) m;
      let tmp := Z.shiftr b (extra instr) in
      assign (rd instr) tmp w pcAfter
  | OP_SRLV =>
      b ← getr (rt instr) m; a ← getr (rs instr) m;
      let tmp := Z.shiftr b (Z.land a 0x1f) in
      assign (rd instr) tmp w pcAfter
  | _ => Err AssertFailed
  end.

(** OP_SUB, OP_SUBU *)
Definition exec_sub (instr : Instruction) (pcAfter : Z) (w : Machine * K) : res outcome :=
  let m := fst w in
  a ← getr (rs instr) m; b ← getr (rt instr) m;
  let diff := s32 (a - b) in
  match opCode instr with
  | OP_SUB =>
      if sign_bit (Z.lxor a b) && sign_bit (Z.lxor a diff)
      then raise OverflowException 0 w
      else assign (rd instr) diff w pcAfter
  | OP_SUBU => assign (rd instr) diff w pcAfter
  | _ => Err AssertFailed
  end.

Definition merge_SWL (tmp value reg : Z) : Z :=
  let k := Z.land tmp 0x3 in
  if k =? 0 then reg
  else if k =? 1 then
    s32 (Z.lor (Z.land (u32 value) 0xff000000) (Z.land (Z.shiftr reg 8) 0xffffff))
  else if k =? 2 then
    s32 (Z.lor (Z.land (u32 value) 0xffff0000) (Z.land (Z.shiftr reg 16) 0xffff))
  else s32 (Z.lor (Z.land (u32 value) 0xffffff00) (Z.land (Z.shiftr reg 24) 0xff)).

Definition merge_SWR (tmp value reg : Z) : Z :=
  let k := Z.land tmp 0x3 in
  if k =? 0 then s32 (Z.lor (Z.land value 0xffffff) (Z.shiftl reg 24))
  else if k =? 1 then s32 (Z.lor (Z.land value 0xffff) (Z.shiftl reg 16))
  else if k =? 2 then s32 (Z.lor (Z.land value 0xff) (Z.shiftl reg 8))
  else reg.

(** OP_SWL, OP_SWR: read the word, merge, write it back. *)
Definition exec_unaligned_store (instr : Instruction) (pcAfter : Z) (w : Machine * K)
  : res outcome :=
  tmp ← effective instr w;
  _ ← ASSERT (Z.land tmp 0x3 =? 0);
  r ← ReadMem (Z.land tmp (Z.lnot 0x3)) 4 w;
  match r with
  | (None, w') => Ok (Return w')
  | (Some value, w') =>
      reg ← getr (rt instr) (fst w');
      let value :=
        match opCode instr with
        | OP_SWL => merge_SWL tmp value reg
        | _ => merge_SWR tmp value reg
        end in
      r ← WriteMem (Z.land tmp (Z.lnot 0x3)) 4 value w';
      let '(ok, w'') := r in
      Ok (if (ok : bool) then Break w'' pcAfter 0 0 else Return w'')
  end.

(** OP_SYSCALL ... the end of the switch *)
Definition exec_trap_xor (instr : Instruction) (pcAfter : Z) (w : Machine * K)
  : res outcome :=
  let m := fst w in
  match opCode instr with
  | OP_SYSCALL => raise SyscallException 0 w
  | OP_XOR =>
      a ← getr (rs instr) m; b ← getr (rt instr) m;
      assign (rd instr) (Z.lxor a b) w pcAfter
  | OP_XORI =>
      a ← getr (rs instr) m;
      assign (rt instr) (Z.lxor a (Z.land (extra instr) 0xffff)) w pcAfter
  | OP_RES | OP_UNIMP => raise IllegalInstrException 0 w
  | _ => Err AssertFailed
  end.

(** The switch; OP_RFE has no case, so it reaches the default. *)
Definition execute (instr : Instruction) (pcAfter : Z) (w : Machine * K) : res outcome :=
  match opCode instr with
  | OP_ADD | OP_ADDI | OP_ADDIU | OP_ADDU | OP_AND | OP_ANDI =>
      exec_add_and instr pcAfter w
  | OP_BEQ | OP_BGEZ | OP_BGEZAL | OP_BGTZ | OP_BLEZ | OP_BLTZ | OP_BLTZAL | OP_BNE =>
      exec_branch instr pcAfter w
  | OP_DIV | OP_DIVU => exec_div instr pcAfter w
  | OP_J | OP_JAL | OP_JALR | OP_JR => exec_jump instr pcAfter w
  | OP_LB | OP_LBU | OP_LH | OP_LHU | OP_LUI | OP_LW => exec_load instr pcAfter w
  | OP_LWL | OP_LWR => exec_unaligned_load instr pcAfter w
  | OP_MFHI | OP_MFLO | OP_MTHI | OP_MTLO | OP_MULT | OP_MULTU
  | OP_NOR | OP_OR | OP_ORI => exec_hilo_logic instr pcAfter w
  | OP_SB | OP_SH | OP_SW => exec_store instr pcAfter w
  | OP_SLL | OP_SLLV | OP_SLT | OP_SLTI | OP_SLTIU | OP_SLTU
  | OP_SRA | OP_SRAV | OP_SRL | OP_SRLV => exec_shift_set instr pcAfter w
  | OP_SUB | OP_SUBU => exec_sub instr pcAfter w
  | OP_SWL | OP_SWR => exec_unaligned_store instr pcAfter w
  | OP_SYSCALL | OP_XOR | OP_XORI | OP_RES | OP_UNIMP => exec_trap_xor instr pcAfter w
  | OP_RFE | SPECIAL | BCOND => Err AssertFailed
  end.

(** The end of OneInstruction: the delayed load, then the program
    counters. *)
Definition finish (m : Machine) (pcAfter nextLoadReg nextLoadValue : Z) : res Machine :=
  m ← DelayedLoad nextLoadReg nextLoadValue m;
  pc ← getr PCReg m;
  m ← setr PrevPCReg pc m;
  npc ← getr NextPCReg m;
  m ← setr PCReg npc m;
  setr NextPCReg pcAfter m.

Definition OneInstruction (w : Machine * K) : res (Machine * K) :=
  pc ← getr PCReg (fst w);
  r ← ReadMem pc 4 w;
  match r with
  | (None, w') => Ok w'
  | (Some raw, w') =>
      instr ← Decode (u32 raw);
      npc ← getr NextPCReg (fst w');
      o ← execute instr (s32 (npc + 4)) w';
      match o with
      | Return w'' => Ok w''
      | Break (m, k) pcAfter nextLoadReg nextLoadValue =>
          m ← finish m pcAfter nextLoadReg nextLoadValue;
          Ok (m, k)
      end
  end.

(** [n] turns of the endless loop of [Machine::Run]. *)
Fixpoint Run_loop (n : nat) (w : Machine * K) : res (Machine * K) :=
  match n with
  | O => Ok w
  | S n' =>
      w ← OneInstruction w;
      w ← OneTick w;
      w ← (if singleStep (fst w) && (runUntilTime (fst w) <=? totalTicks (snd w))
           then Debugger w else Ok w);
      Run_loop n' w
  end.

Definition Run (n : nat) (w : Machine * K) : res (Machine * K) :=
  Run_loop n (fst w, setStatus UserMode (snd w)).

End Execute.

(** ** Decoding is total *)

Lemma land_ones_range z n k : Z.ones n = k -> 0 <= n -> 0 <= Z.land z k < 2 ^ n.
Proof. intros <- Hn. rewrite Z.land_ones by lia. apply Z.mod_pos_bound, Z.pow_pos_nonneg; lia. Qed.

Definition is_shift (op : opcode) : bool :=
  bool_decide (op = OP_SLL) || bool_decide (op = OP_SRA) || bool_decide (op = OP_SRL).

(** What the cases of OneInstruction rely on. *)
Record wf_instr (instr : Instruction) : Prop := {
  wf_rs : 0 <= rs instr < 32;
  wf_rt : 0 <= rt instr < 32;
  wf_rd : 0 <= rd instr < 32;
  wf_extra : in_s32 (extra instr);
  wf_shift : is_shift (opCode instr) = true -> 0 <= extra instr < 32
}.

Lemma Decode_extra_range f v : in_s32 (Decode_extra f v).
Proof.
  destruct f; cbn.
  - destruct (negb _); [apply s32_range|].
    pose proof (land_ones_range v 16 65535 eq_refl ltac:(lia)). unfold in_s32. lia.
  - pose proof (land_ones_range v 26 67108863 eq_refl ltac:(lia)). unfold in_s32. lia.
  - pose proof (land_ones_range (Z.shiftr v 6) 5 31 eq_refl ltac:(lia)). unfold in_s32. lia.
Qed.

Lemma opTable_formats :
  Forall (fun p => (fst p = SPECIAL -> snd p = RFMT) /\ is_shift (fst p) = false) opTable.
Proof. repeat (constructor; [split; [intros; (reflexivity || discriminate)|reflexivity]|]). constructor. Qed.

Lemma Decode_wf v : exists instr, Decode v = Ok instr /\ wf_instr instr /\ value instr = v.
Proof.
  unfold Decode.
  pose proof (land_ones_range (Z.shiftr v 26) 6 63 eq_refl ltac:(lia)) as Hi.
  destruct (aget_in_range opTable (Z.land (Z.shiftr v 26) 63) Hi) as [[op f] Hop].
  rewrite Hop. cbn [mbind res_bind fst snd].
  apply aget_Ok_inv in Hop as [_ Hop].
  pose proof (Forall_lookup_1 _ _ _ _ opTable_formats Hop) as [Hfmt Hns]. cbn in Hfmt, Hns.
  pose proof (land_ones_range (Z.shiftr v 21) 5 31 eq_refl ltac:(lia)) as Hrs.
  pose proof (land_ones_range (Z.shiftr v 16) 5 31 eq_refl ltac:(lia)) as Hrt.
  pose proof (land_ones_range (Z.shiftr v 11) 5 31 eq_refl ltac:(lia)) as Hrd.
  destruct (decide (op = SPECIAL)) as [Hsp|].
  - rewrite (Hfmt Hsp).
    pose proof (land_ones_range v 6 63 eq_refl ltac:(lia)) as Hj.
    destruct (aget_in_range specialTable (Z.land v 63) Hj) as [op' Hop'].
    rewrite Hop'. cbn [mbind res_bind]. eexists. split; [done|]. split; [|done].
    split; cbn -[Z.land Z.shiftr Decode_extra]; try done; [apply Decode_extra_range|].
    intros _. exact (land_ones_range (Z.shiftr v 6) 5 31 eq_refl ltac:(lia)).
  - destruct (decide (op = BCOND)) as [Hbc|].
    + cbn [mbind res_bind]. eexists. split; [done|]. split; [|done].
      split; cbn -[Z.land Z.shiftr Decode_extra]; try done; [apply Decode_extra_range|].
      repeat case_match; done.
    + cbn [mbind res_bind]. eexists. split; [done|]. split; [|done].
      split; cbn -[Z.land Z.shiftr Decode_extra]; try done; [apply Decode_extra_range|].
      by rewrite Hns.
Qed.

(** ** Safety of the cases *)

Lemma in_s32_quot a b :
  in_s32 a -> in_s32 b -> b <> 0 -> (a =? - 2 ^ 31) && (b =? -1) = false ->
  in_s32 (Z.quot a b).
Proof.
  unfold in_s32. intros Ha Hb Hz Hov.
  destruct (Z.eqb_spec a (- 2 ^ 31)), (Z.eqb_spec b (-1)); try discriminate Hov; subst.
  - Z.to_euclidean_division_equations. nia.
  - Z.to_euclidean_division_equations. nia.
  - Z.to_euclidean_division_equations. nia.
Qed.

Lemma in_s32_rem a b : in_s32 a -> in_s32 b -> in_s32 (Z.rem a b).
Proof.
  unfold in_s32. intros Ha Hb. destruct (decide (b = 0)) as [->|Hz].
  - by rewrite Z.rem_0_r_ext.
  - pose proof (Z.rem_bound_abs a b Hz). lia.
Qed.

Lemma in_s32_bool (b : bool) : in_s32 (if b then 1 else 0).
Proof. destruct b; unfold in_s32; lia. Qed.

Lemma in_s32_shr_ones z x k n : Z.ones n = k -> 0 <= n -> in_s32 z -> in_s32 (Z.shiftr z (Z.land x k)).
Proof.
  intros Hk Hn Hz. apply in_s32_shr; [done|]. apply (land_ones_range x n k Hk Hn).
Qed.

Lemma Mult_range a b sg : in_s32 (fst (Mult a b sg)) /\ in_s32 (snd (Mult a b sg)).
Proof.
  unfold Mult. destruct (_ || _); [cbn; unfold in_s32; lia|].
  repeat case_match; cbn; split; apply s32_range.
Qed.

Section Safety.
Context {K : Type} `{!KernelEntry K, !KernelLaws K}.

Definition out_ok (o : outcome (K:=K)) : Prop :=
  match o with
  | Break w pcAfter lr lv =>
      wf (fst w) /\ in_s32 pcAfter /\ 0 <= lr < NumGPRegs /\ in_s32 lv
  | Return w => wf0 (fst w)
  end.

Lemma assign_safe i v (w : Machine * K) pc :
  wf (fst w) -> 0 <= i < LoadReg -> in_s32 v -> in_s32 pc ->
  safe out_ok (assign i v w pc).
Proof.
  intros Hwf Hi Hv Hp. unfold assign. unfold LoadReg in Hi.
  eapply safe_bind; [apply (setr_safe (fst w) i v); unfold NumTotalRegs, LoadReg; try done; lia|].
  intros m (Hm & _). cbn. do 2 (split; [done|]). unfold in_s32, NumGPRegs. lia.
Qed.

Lemma raise_safe exc a (w : Machine * K) :
  wf (fst w) -> in_s32 a -> safe out_ok (raise exc a w).
Proof.
  intros Hwf Ha. destruct w as [m k]. unfold raise.
  eapply safe_bind; [by apply RaiseException_safe|]. by intros.
Qed.

Lemma link_safe i (w : Machine * K) :
  wf (fst w) -> 0 <= i < LoadReg -> safe (fun w' => wf (fst w')) (link i w).
Proof.
  intros Hwf Hi. unfold link. unfold LoadReg in Hi.
  eapply safe_bind; [apply getr_safe; [done|unfold NumTotalRegs, NextPCReg; lia]|]. intros npc Hn.
  eapply safe_bind; [apply (setr_safe (fst w) i); unfold NumTotalRegs, LoadReg; try done; try lia; apply s32_range|].
  by intros m (Hm & _).
Qed.

(** A step of the symbolic execution of a case. *)
Ltac range :=
  solve [ assumption
        | lazymatch goal with |- _ /\ _ => idtac | |- _ < _ => idtac | |- _ = _ -> _ => idtac end;
          unfold NumTotalRegs, NumGPRegs, LoadReg, LoadValueReg, R31, HiReg, LoReg,
            NextPCReg, PCReg, PrevPCReg in *; lia
        | lazymatch goal with
          | |- in_s32 (s32 _) => apply s32_range
          | |- in_s32 (if _ then 1 else 0) => apply in_s32_bool
          | |- in_s32 (if ?b then _ else _) => destruct b; range
          | |- in_s32 (Z.shiftr _ (Z.land _ 31)) =>
              apply (in_s32_shr_ones _ _ 31 5); [reflexivity|lia|assumption]
          | |- in_s32 (Z.land _ (Zpos _)) => apply in_s32_land_nonneg; lia
          | |- in_s32 (Z.lor _ _) => apply in_s32_lor; range
          | |- in_s32 (Z.land _ _) => apply in_s32_land; range
          | |- in_s32 (Z.lxor _ _) => apply in_s32_lxor; range
          | |- in_s32 (Z.lnot _) => apply in_s32_lnot; range
          | |- in_s32 _ => unfold in_s32; lia
          end ].

Ltac exec :=
  lazymatch goal with
  | |- safe _ (getr _ _ ≫= _) =>
      eapply safe_bind; [apply getr_safe; [assumption|range]|]; let v := fresh "v" in intros v ?
  | |- safe _ (setr _ _ _ ≫= _) =>
      eapply safe_bind; [apply setr_safe; [assumption|range|range|range]|];
      let m := fresh "m" in intros m (? & _ & _ & _)
  | |- safe _ (effective _ _ ≫= _) =>
      eapply (safe_bind in_s32); [unfold effective; exec; apply s32_range|];
      let v := fresh "tmp" in intros v ?
  | |- safe _ (link _ _ ≫= _) =>
      eapply safe_bind; [apply link_safe; [assumption|range]|];
      let w := fresh "w" in intros w ?
  | |- safe _ (ASSERT _ ≫= _) => eapply safe_bind; [apply safe_ASSERT|]; intros _ _
  | |- safe _ (assign _ _ _ _) => apply assign_safe; [assumption|range|range|range]
  | |- safe _ (raise _ _ _) => apply raise_safe; [assumption|range]
  | |- safe _ (Err AssertFailed) => exact I
  | |- safe _ (Ok (Break _ _ _ _)) =>
      cbn; split; [assumption|split; [range|split; [range|range]]]
  | |- safe _ (if ?b then _ else _) => destruct b eqn:?
  end.

Definition case_safe (exec_case : Instruction -> Z -> Machine * K -> res (outcome (K:=K))) : Prop :=
  forall instr pc w, wf_instr instr -> wf (fst w) -> in_s32 pc ->
    safe out_ok (exec_case instr pc w).

Ltac start :=
  intros instr pc w [Hrs Hrt Hrd Hex Hsh] Hwf Hpc.

Lemma exec_add_and_safe : case_safe exec_add_and.
Proof.
  start. unfold exec_add_and. destruct (opCode instr); cbv beta iota zeta; repeat exec.
Qed.

Lemma exec_branch_safe : case_safe exec_branch.
Proof.
  start. unfold exec_branch, branch_to.
  destruct (opCode instr); cbv beta iota zeta; repeat exec.
Qed.

Lemma set_lo_hi_safe lo hi (w : Machine * K) pc :
  wf (fst w) -> in_s32 lo -> in_s32 hi -> in_s32 pc -> safe out_ok (set_lo_hi lo hi w pc).
Proof. intros. unfold set_lo_hi. repeat exec. Qed.

Lemma exec_div_safe : case_safe exec_div.
Proof.
  start. unfold exec_div. destruct (opCode instr); cbv beta iota zeta; try exact I.
  - exec. destruct (Z.eqb_spec v 0); [apply set_lo_hi_safe; range|].
    exec. exec; [exact I|].
    eapply safe_bind; [apply setr_safe; [done|range|by apply in_s32_quot|range]|].
    intros m (? & _). do 2 exec.
    eapply safe_bind; [apply setr_safe; [done|range|by apply in_s32_rem|range]|].
    intros m' (? & _). exec.
  - do 2 exec. exec; apply set_lo_hi_safe; range.
Qed.

Lemma exec_jump_safe : case_safe exec_jump.
Proof. start. unfold exec_jump. destruct (opCode instr); cbv beta iota zeta; repeat exec. Qed.

(** Continue after a successful access; a failed one has returned. *)
Lemma read_then a size (w : Machine * K) (f : Z -> Machine * K -> res (outcome (K:=K))) :
  wf (fst w) -> in_s32 a -> size = 1 \/ size = 2 \/ size = 4 ->
  (forall v w', wf (fst w') -> in_s32 v -> safe out_ok (f v w')) ->
  safe out_ok (r ← ReadMem a size w;
               match r with (None, w') => Ok (Return w') | (Some v, w') => f v w' end).
Proof.
  destruct w as [m k]. intros Hwf Ha Hs Hf.
  eapply safe_bind; [by apply ReadMem_safe|]. intros [[v|] w'].
  - intros (? & _ & ?). by apply Hf.
  - done.
Qed.

Lemma write_then a size v (w : Machine * K) pc :
  wf (fst w) -> in_s32 a -> size = 1 \/ size = 2 \/ size = 4 -> in_s32 pc ->
  safe out_ok (r ← WriteMem a size v w;
               let '(ok, w') := r in
               Ok (if (ok : bool) then Break w' pc 0 0 else Return w')).
Proof.
  destruct w as [m k]. intros Hwf Ha Hs Hp.
  eapply safe_bind; [by apply WriteMem_safe|]. intros [[] w'].
  - intros [? _]. cbn. do 2 (split; [done|]). unfold in_s32, NumGPRegs. lia.
  - done.
Qed.

Lemma exec_load_safe : case_safe exec_load.
Proof.
  start. unfold exec_load. destruct (opCode instr); cbv beta iota zeta; try exact I.
  all: try (exec; apply read_then; [done|done|lia|]; intros; exec).
  all: try (exec; exec; [exec|]; apply read_then; [done|done|lia|]; intros; exec).
  exec.
Qed.

Lemma pending_value_safe r m :
  wf m -> 0 <= r < NumGPRegs -> safe in_s32 (pending_value r m).
Proof.
  intros Hwf Hr. unfold pending_value. exec.
  destruct (_ =? _); apply getr_safe; range.
Qed.

Lemma merge_LWL_range tmp v old :
  in_s32 v -> in_s32 (merge_LWL tmp v old).
Proof. intros. unfold merge_LWL. range. Qed.

Lemma merge_LWR_range tmp v old :
  in_s32 v -> in_s32 (merge_LWR tmp v old).
Proof. intros. unfold merge_LWR. range. Qed.

Lemma exec_unaligned_load_safe : case_safe exec_unaligned_load.
Proof.
  start. unfold exec_unaligned_load. exec. exec.
  apply read_then; [done|done|lia|]. intros v w' Hw' Hv.
  eapply safe_bind; [apply pending_value_safe; range|]. intros old Hold.
  pose proof (merge_LWL_range tmp v old Hv). pose proof (merge_LWR_range tmp v old Hv).
  destruct (opCode instr); exec.
Qed.

Lemma exec_hilo_logic_safe : case_safe exec_hilo_logic.
Proof.
  start. unfold exec_hilo_logic. destruct (opCode instr); cbv beta iota zeta; try exact I.
  all: try (repeat exec; fail).
  all: do 2 exec; match goal with |- context [Mult ?a ?b ?s] =>
         destruct (Mult_range a b s); destruct (Mult a b s) end; cbn in *; repeat exec.
Qed.

Lemma exec_store_safe : case_safe exec_store.
Proof.
  start. unfold exec_store, store_rt. destruct (opCode instr); try exact I.
  all: exec; exec; apply write_then; [done|done|lia|done].
Qed.

Lemma exec_shift_set_safe : case_safe exec_shift_set.
Proof.
  start. unfold exec_shift_set. destruct (opCode instr); cbv beta iota zeta; try exact I.
  all: try (repeat exec; fail).
  all: exec; apply assign_safe; [done|range| |done]; apply in_s32_shr; [done|apply Hsh; reflexivity].
Qed.

Lemma exec_sub_safe : case_safe exec_sub.
Proof.
  start. unfold exec_sub. exec. exec. destruct (opCode instr); cbv beta iota zeta; repeat exec.
Qed.

Lemma merge_SW_range tmp v reg : in_s32 reg ->
  in_s32 (merge_SWL tmp v reg) /\ in_s32 (merge_SWR tmp v reg).
Proof. intros. unfold merge_SWL, merge_SWR. split; range. Qed.

Lemma exec_unaligned_store_safe : case_safe exec_unaligned_store.
Proof.
  start. unfold exec_unaligned_store. exec. exec.
  assert (in_s32 (Z.land tmp (Z.lnot 3))).
  { apply in_s32_land; [done|]. change (in_s32 (-4)). unfold in_s32. lia. }
  apply read_then; [done|done|lia|]. intros v w' Hw' Hv. exec.
  apply write_then; [done|done|lia|done].
Qed.

Lemma exec_trap_xor_safe : case_safe exec_trap_xor.
Proof.
  start. unfold exec_trap_xor. destruct (opCode instr); cbv beta iota zeta; repeat exec.
Qed.

Lemma execute_safe : case_safe execute.
Proof.
  intros instr pc w Hi Hwf Hpc. unfold execute.
  destruct (opCode instr); (exact I) ||
    (first [ by apply exec_add_and_safe | by apply exec_branch_safe | by apply exec_div_safe
           | by apply exec_jump_safe | by apply exec_load_safe
           | by apply exec_unaligned_load_safe | by apply exec_hilo_logic_safe
           | by apply exec_store_safe | by apply exec_shift_set_safe | by apply exec_sub_safe
           | by apply exec_unaligned_store_safe | by apply exec_trap_xor_safe ]).
Qed.

Lemma aget_insert_r0 m i v : 0 < i -> aget (<[Z.to_nat i := v]> (registers m)) 0 = aget (registers m) 0.
Proof. intros Hi. apply aget_insert_ne; lia. Qed.

Lemma finish_safe m pc lr lv :
  wf m -> in_s32 pc -> 0 <= lr < NumGPRegs -> in_s32 lv -> safe wf0 (finish m pc lr lv).
Proof.
  intros Hwf Hpc Hlr Hlv. unfold finish.
  eapply safe_bind; [by apply DelayedLoad_safe|]. intros m1 (H1 & _ & _ & Hz1). exec.
  eapply safe_bind; [apply (setr_safe m1); range|]. intros m2 (H2 & _ & _ & E2). exec.
  eapply safe_bind; [apply (setr_safe m2); range|]. intros m3 (H3 & _ & _ & E3).
  eapply safe_mono; [apply (setr_safe m3); range|]. intros m4 (H4 & _ & _ & E4).
  split; [done|]. rewrite E4, aget_insert_r0, E3, aget_insert_r0, E2, aget_insert_r0; done.
Qed.

Lemma OneInstruction_safe m (k : K) :
  wf0 m -> safe (fun w => wf0 (fst w)) (OneInstruction (m, k)).
Proof.
  intros [Hwf H0]. unfold OneInstruction. cbn [fst]. exec.
  eapply safe_bind; [apply ReadMem_safe; [done|done|lia]|].
  intros [[raw|] w']; [|done]. intros (Hw' & _ & _).
  destruct (Decode_wf (u32 raw)) as (instr & Hd & Hi & _). rewrite Hd.
  cbn [mbind res_bind]. exec.
  eapply safe_bind; [apply execute_safe; [done|done|range]|].
  intros [[m' k'] pc lr lv|w'']; [|done]. cbn. intros (? & ? & ? & ?).
  eapply safe_bind; [by apply finish_safe|]. by intros.
Qed.
End Safety.

(** ** Multiplication *)

(** The 64-bit number in two words. *)
Definition pair64 (hi lo : Z) : Z := hi * 2 ^ 32 + lo.

Lemma pair64_range hi lo : in_u32 hi -> in_u32 lo -> 0 <= pair64 hi lo < 2 ^ 64.
Proof. unfold in_u32, pair64. lia. Qed.

Lemma pair64_intro x hi lo k :
  in_u32 hi -> in_u32 lo -> x = pair64 hi lo + k * 2 ^ 64 -> pair64 hi lo = x mod 2 ^ 64.
Proof. intros. apply (Z.mod_unique_pos _ _ k); [by apply pair64_range|lia]. Qed.

Lemma add64 hi lo bHi bLo :
  in_u32 hi -> in_u32 lo -> in_u32 bHi -> in_u32 bLo ->
  let lo' := u32 (lo + bLo) in
  let hi' := u32 ((if lo' <? bLo then u32 (hi + 1) else hi) + bHi) in
  pair64 hi' lo' = (pair64 hi lo + pair64 bHi bLo) mod 2 ^ 64.
Proof.
  intros H1 H2 H3 H4. cbn zeta.
  assert (Hc : exists c, u32 (lo + bLo) = lo + bLo - c * 2 ^ 32 /\
            u32 ((if u32 (lo + bLo) <? bLo then u32 (hi + 1) else hi) + bHi) =
            u32 (hi + bHi + c)).
  { unfold in_u32 in *. destruct (Z.lt_ge_cases (lo + bLo) (2 ^ 32)).
    - exists 0. rewrite u32_id by (unfold in_u32; lia). split; [lia|].
      destruct (Z.ltb_spec (lo + bLo) bLo); [lia|]. f_equal. lia.
    - exists 1. assert (E : u32 (lo + bLo) = lo + bLo - 2 ^ 32).
      { symmetry. apply (Z.mod_unique_pos _ _ 1); lia. }
      rewrite E. split; [lia|]. destruct (Z.ltb_spec (lo + bLo - 2 ^ 32) bLo); [|lia].
      unfold u32. rewrite Zplus_mod_idemp_l. f_equal. lia. }
  destruct Hc as (c & Hlo & ->). pose proof (u32_range (lo + bLo)).
  pose proof (Z.div_mod (hi + bHi + c) (2 ^ 32) ltac:(lia)) as Hdm.
  apply (pair64_intro _ _ _ ((hi + bHi + c) / 2 ^ 32)); [apply u32_range|done|].
  rewrite Hlo. unfold pair64, u32. lia.
Qed.

Lemma lor_even_1 x : Z.lor (2 * x) 1 = 2 * x + 1.
Proof.
  symmetry. apply Z.add_nocarry_lor. change 1 with (Z.ones 1).
  rewrite Z.land_ones, Z.mul_comm by lia. apply Z.mod_mul. lia.
Qed.

Lemma land_bit x n : 0 <= n -> Z.land x (2 ^ n) = (if Z.testbit x n then 1 else 0) * 2 ^ n.
Proof.
  intros Hn. apply Z.bits_inj'. intros k Hk. rewrite Z.land_spec, Z.pow2_bits_eqb by lia.
  destruct (Z.eqb_spec n k) as [<-|Hne].
  - rewrite andb_true_r. destruct (Z.testbit x n); [|by rewrite Z.bits_0].
    by rewrite Z.mul_1_l, Z.pow2_bits_true.
  - rewrite andb_false_r. destruct (Z.testbit x n); [|by rewrite Z.bits_0].
    by rewrite Z.mul_1_l, Z.pow2_bits_false by lia.
Qed.

(** The sign bit of an unsigned word. *)
Lemma land_top x : in_u32 x -> negb (Z.land x 0x80000000 =? 0) = (2 ^ 31 <=? x).
Proof.
  unfold in_u32. intros Hx. change 0x80000000 with (2 ^ 31). rewrite land_bit by lia.
  rewrite Z.testbit_eqb by lia.
  destruct (Z.leb_spec (2 ^ 31) x).
  - replace (x / 2 ^ 31) with 1; [done|]. apply (Z.div_unique_pos _ _ _ (x - 2 ^ 31)); lia.
  - by rewrite Z.div_small by lia.
Qed.

Lemma u32_double x : u32 (x * 2) = 2 * (x mod 2 ^ 31).
Proof. unfold u32. change (2 ^ 32) with (2 ^ 31 * 2). rewrite Z.mul_mod_distr_r by lia. lia. Qed.

Lemma shl64 bHi bLo :
  in_u32 bHi -> in_u32 bLo ->
  let hi := u32 (Z.shiftl bHi 1) in
  let hi' := if negb (Z.land bLo 0x80000000 =? 0) then Z.lor hi 1 else hi in
  in_u32 hi' /\ pair64 hi' (u32 (Z.shiftl bLo 1)) = (2 * pair64 bHi bLo) mod 2 ^ 64.
Proof.
  intros H1 H2. cbn zeta. rewrite !Z.shiftl_mul_pow2 by lia. change (2 ^ 1) with 2.
  rewrite land_top, !u32_double, lor_even_1 by done.
  pose proof (Z.mod_pos_bound bHi (2 ^ 31) ltac:(lia)) as Hh.
  pose proof (Z.mod_pos_bound bLo (2 ^ 31) ltac:(lia)) as Hl.
  pose proof (Z.div_mod bHi (2 ^ 31) ltac:(lia)) as Hdm. unfold in_u32 in H1, H2.
  destruct (Z.leb_spec (2 ^ 31) bLo) as [Hb|Hb].
  - assert (E : bLo mod 2 ^ 31 = bLo - 2 ^ 31) by (symmetry; apply (Z.mod_unique_pos _ _ 1); lia).
    split; [unfold in_u32; lia|].
    apply (pair64_intro _ _ _ (bHi / 2 ^ 31)); [unfold in_u32; lia|unfold in_u32; lia|].
    rewrite E. unfold pair64. lia.
  - rewrite (Z.mod_small bLo) in * by lia. split; [unfold in_u32; lia|].
    apply (pair64_intro _ _ _ (bHi / 2 ^ 31)); [unfold in_u32; lia|unfold in_u32; lia|].
    unfold pair64. lia.
Qed.

(** The loop adds [a * X] to the sum, for the low [n] bits of [a]; it may
    stop early, when no higher bit is set. *)
Lemma Mult_loop_spec n a bLo bHi lo hi :
  (n <= 32)%nat -> in_u32 bLo -> in_u32 bHi -> in_u32 lo -> in_u32 hi ->
  let '(hi', lo') := Mult_loop n a bLo bHi lo hi in
  in_u32 hi' /\ in_u32 lo' /\
  pair64 hi' lo' = (pair64 hi lo + pair64 bHi bLo * (a mod 2 ^ Z.of_nat n)) mod 2 ^ 64.
Proof.
  revert a bLo bHi lo hi. induction n as [|n IH]; intros a bLo bHi lo hi Hn H1 H2 H3 H4.
  - cbn [Mult_loop]. do 2 (split; [done|]). rewrite Z.mod_1_r, Z.mul_0_r, Z.add_0_r.
    symmetry. apply Z.mod_small. by apply pair64_range.
  - cbn [Mult_loop]. change (Z.land a 1) with (Z.land a (Z.ones 1)).
    rewrite Z.land_ones by lia. change (2 ^ 1) with 2.
    assert (Ha : a mod 2 ^ Z.of_nat (S n) = a mod 2 + 2 * ((a / 2) mod 2 ^ Z.of_nat n)).
    { rewrite Nat2Z.inj_succ, Z.pow_succ_r, Z.rem_mul_r by lia. lia. }
    destruct (shl64 bHi bLo H2 H1) as [Hsh Hsh']. cbn zeta in Hsh, Hsh'.
    pose proof (add64 hi lo bHi bLo H4 H3 H2 H1) as Hadd. cbn zeta in Hadd.
    assert (Hrec : forall hi1 lo1, in_u32 hi1 -> in_u32 lo1 ->
      pair64 hi1 lo1 = (pair64 hi lo + (a mod 2) * pair64 bHi bLo) mod 2 ^ 64 ->
      let '(hi', lo') := Mult_loop n (Z.shiftr a 1) (u32 (Z.shiftl bLo 1))
         (if negb (Z.land bLo 2147483648 =? 0) then Z.lor (u32 (Z.shiftl bHi 1)) 1
          else u32 (Z.shiftl bHi 1)) lo1 hi1 in
      in_u32 hi' /\ in_u32 lo' /\
      pair64 hi' lo' = (pair64 hi lo + pair64 bHi bLo * (a mod 2 ^ Z.of_nat (S n))) mod 2 ^ 64).
    { intros hi1 lo1 Hhi1 Hlo1 Hp.
      specialize (IH (Z.shiftr a 1) _ _ lo1 hi1 ltac:(lia) (u32_range (Z.shiftl bLo 1)) Hsh Hlo1 Hhi1).
      destruct (Mult_loop n _ _ _ lo1 hi1) as [hi' lo']. destruct IH as (I1 & I2 & I3).
      do 2 (split; [done|]). rewrite I3, Hp, Hsh', Ha, Z.shiftr_div_pow2 by lia.
      change (2 ^ 1) with 2. rewrite Zplus_mod_idemp_l.
      rewrite <-(Zplus_mod_idemp_r (_ * _)), Zmult_mod_idemp_l, Zplus_mod_idemp_r.
      f_equal. lia. }
    pose proof (Z.mod_pos_bound a 2 ltac:(lia)) as Hbit.
    destruct (Z.eqb_spec (a mod 2) 0) as [Hz|Hz]; cbn [negb].
    + apply Hrec; [done|done|]. rewrite Hz, Z.mul_0_l, Z.add_0_r.
      symmetry. apply Z.mod_small. by apply pair64_range.
    + assert (Hone : a mod 2 = 1) by lia. rewrite Hone, Z.mul_1_l in Hrec.
      destruct (Z.eqb_spec (Z.land (u32 a) 4294967294) 0) as [Hstop|Hgo].
      * do 2 (split; [apply u32_range|]). rewrite Hadd. f_equal.
        enough (a mod 2 ^ Z.of_nat (S n) = 1) as -> by lia.
        assert (Hu : u32 a = 1).
        { assert (E : u32 a = Z.lor (Z.land (u32 a) 4294967294) (Z.land (u32 a) 1)).
          { rewrite <-Z.land_lor_distr_r. change (Z.lor 4294967294 1) with (Z.ones 32).
            rewrite Z.land_ones by lia. symmetry. apply Z.mod_small, u32_range. }
          rewrite Hstop, Z.lor_0_l in E. change 1 with (Z.ones 1) in E at 1.
          rewrite Z.land_ones in E by lia. rewrite E. unfold u32.
          change (2 ^ 1) with 2. rewrite Z.mod_mod_divide by (by exists (2 ^ 31)). done. }
        assert (Hdiv : a mod 2 ^ Z.of_nat (S n) = u32 a mod 2 ^ Z.of_nat (S n)).
        { unfold u32. rewrite Z.mod_mod_divide; [done|].
          exists (2 ^ (32 - Z.of_nat (S n))). rewrite <-Z.pow_add_r by lia. f_equal. lia. }
        rewrite Hdiv, Hu. apply Z.mod_small. split; [lia|]. apply Z.pow_gt_1; lia.
      * apply Hrec; [apply u32_range|apply u32_range|done].
Qed.

Lemma u32_lnot x : in_u32 x -> u32 (Z.lnot x) = 2 ^ 32 - 1 - x.
Proof.
  unfold in_u32, u32. intros. pose proof (Z.add_lnot_diag x).
  symmetry. apply (Z.mod_unique_pos _ _ (-1)); lia.
Qed.

Lemma neg64 hi lo :
  in_u32 hi -> in_u32 lo ->
  let lo' := u32 (u32 (Z.lnot lo) + 1) in
  let hi' := if lo' =? 0 then u32 (u32 (Z.lnot hi) + 1) else u32 (Z.lnot hi) in
  in_u32 hi' /\ pair64 hi' lo' = (- pair64 hi lo) mod 2 ^ 64.
Proof.
  intros H1 H2. cbn zeta. rewrite !u32_lnot by done. unfold in_u32 in H1, H2.
  assert (Hd : forall x, 0 <= x < 2 ^ 32 ->
    u32 (2 ^ 32 - 1 - x + 1) = if x =? 0 then 0 else 2 ^ 32 - x).
  { intros x Hx. destruct (Z.eqb_spec x 0) as [->|]; [reflexivity|].
    rewrite u32_id by (unfold in_u32; lia). lia. }
  rewrite !Hd by done.
  destruct (Z.eqb_spec lo 0) as [->|Hlo]; cbn [Z.eqb].
  - destruct (Z.eqb_spec hi 0) as [->|Hhi]; [split; [unfold in_u32; lia|reflexivity]|].
    split; [unfold in_u32; lia|].
    apply (pair64_intro _ _ _ (-1)); unfold in_u32, pair64; lia.
  - rewrite (proj2 (Z.eqb_neq (2 ^ 32 - lo) 0)) by lia. split; [unfold in_u32; lia|].
    apply (pair64_intro _ _ _ (-1)); unfold in_u32, pair64; lia.
Qed.

(** The two result words as a signed and as an unsigned 64-bit integer. *)
Lemma pair64_signed hi lo x :
  in_u32 hi -> in_u32 lo -> - 2 ^ 63 <= x < 2 ^ 63 -> pair64 hi lo = x mod 2 ^ 64 ->
  s32 hi * 2 ^ 32 + u32 lo = x.
Proof.
  intros H1 H2 Hx Hp. rewrite (u32_id lo) by done. unfold in_u32, pair64 in *.
  assert (Hm : x mod 2 ^ 64 = if 0 <=? x then x else x + 2 ^ 64).
  { destruct (Z.leb_spec 0 x); symmetry;
      [apply (Z.mod_unique_pos _ _ 0)|apply (Z.mod_unique_pos _ _ (-1))]; lia. }
  rewrite Hm in Hp. unfold s32.
  destruct (Z.leb_spec 0 x).
  - rewrite Z.mod_small by lia. lia.
  - replace ((hi + 2 ^ 31) mod 2 ^ 32) with (hi - 2 ^ 31); [lia|].
    apply (Z.mod_unique_pos _ _ 1); lia.
Qed.

Lemma u32_neg_s32 a : in_s32 a -> a < 0 -> u32 (s32 (- a)) = - a.
Proof. intros Ha Hn. rewrite u32_s32. apply u32_id. unfold in_u32, in_s32 in *. lia. Qed.

(** ** Properties of the simulator *)

(** [Mult] computes the exact 64-bit product: the words it stores
    are the high and low halves of the signed product of two ints, or of
    the product of the two words read as unsigned. *)
Theorem Mult_correct a b :
  in_s32 a -> in_s32 b ->
  (let '(hi, lo) := Mult a b true in hi * 2 ^ 32 + u32 lo = a * b) /\
  (let '(hi, lo) := Mult a b false in u32 hi * 2 ^ 32 + u32 lo = u32 a * u32 b).
Proof.
  intros Ha Hb. unfold Mult.
  destruct (Z.eqb_spec a 0) as [->|Ha0]; [by split|].
  destruct (Z.eqb_spec b 0) as [->|Hb0].
  {
    cbn [orb]. change (u32 0) with 0. by rewrite !Z.mul_0_r. }
  cbn [orb].
  assert (Hloop : forall x y, let '(hi, lo) := Mult_loop 32 x (u32 y) 0 0 0 in
    in_u32 hi /\ in_u32 lo /\ pair64 hi lo = (u32 x * u32 y) mod 2 ^ 64).
  { intros x y. assert (in_u32 0) by (unfold in_u32; lia).
    pose proof (Mult_loop_spec 32 x (u32 y) 0 0 0 ltac:(lia) (u32_range y)) as HL.
    destruct (Mult_loop 32 x (u32 y) 0 0 0) as [hi lo]. destruct HL as (? & ? & HL); [done..|].
    do 2 (split; [done|]). rewrite HL. f_equal. unfold pair64. change (Z.of_nat 32) with 32.
    fold (u32 x). lia. }
  split.
  - assert (Hfin : forall (neg : bool) x y, 0 <= u32 x <= 2 ^ 31 -> 0 <= u32 y <= 2 ^ 31 ->
      (if neg then - (u32 x * u32 y) else u32 x * u32 y) = a * b ->
      let '(hi, lo) :=
        let '(hi, lo) := Mult_loop 32 x (u32 y) 0 0 0 in
        let '(hi, lo) :=
          if neg then
            let hi := u32 (Z.lnot hi) in let lo := u32 (Z.lnot lo) in
            let lo := u32 (lo + 1) in (if lo =? 0 then u32 (hi + 1) else hi, lo)
          else (hi, lo) in (s32 hi, s32 lo) in
      hi * 2 ^ 32 + u32 lo = a * b).
    { intros neg x y Hx Hy <-. specialize (Hloop x y).
      destruct (Mult_loop 32 x (u32 y) 0 0 0) as [hi lo]. destruct Hloop as (H1 & H2 & Hp).
      destruct (neg64 hi lo H1 H2) as [Hn1 Hn2]. cbn zeta in Hn1, Hn2.
      destruct neg; cbv beta iota zeta; rewrite u32_s32; apply pair64_signed; auto with nachos; try nia.
      rewrite Hn2, Hp. rewrite <-(Z.sub_0_l (_ mod _)), Zminus_mod_idemp_r. done. }
    pose proof (u32_neg_s32 a Ha). pose proof (u32_neg_s32 b Hb). unfold in_s32 in *.
    assert (0 <= a -> u32 a = a) by (intros; apply u32_id; unfold in_u32; lia).
    assert (0 <= b -> u32 b = b) by (intros; apply u32_id; unfold in_u32; lia).
    destruct (Z.ltb_spec a 0), (Z.ltb_spec b 0); cbn [andb negb].
    + apply (Hfin false (s32 (- a)) (s32 (- b))); lia.
    + apply (Hfin true (s32 (- a)) b); lia.
    + apply (Hfin true a (s32 (- b))); lia.
    + apply (Hfin false a b); lia.
  - cbn [andb]. specialize (Hloop a b).
    destruct (Mult_loop 32 a (u32 b) 0 0 0) as [hi lo]. destruct Hloop as (H1 & H2 & Hp).
    cbv beta iota zeta. rewrite !u32_s32, (u32_id hi), (u32_id lo) by done.
    fold (pair64 hi lo). rewrite Hp.
    pose proof (u32_range a). pose proof (u32_range b). apply Z.mod_small. unfold in_u32 in *. nia.
Qed.

Lemma Mult_correct_witness :
  (let '(hi, lo) := Mult (-3) 5 true in hi * 2 ^ 32 + u32 lo = -15) /\
  (let '(hi, lo) := Mult (-3) 5 false in u32 hi * 2 ^ 32 + u32 lo = u32 (-3) * u32 5).
Proof. apply (Mult_correct (-3) 5); unfold in_s32; lia. Defined.

(** C19: whatever instruction word is fetched, executing instructions
    and taking ticks for any number of turns of [Run] never accesses a
    register, page table entry or memory byte out of range, and leaves the
    machine well formed with register 0 equal to 0, provided the kernel's
    handlers do; the only other outcomes are the ASSERTs of the simulator,
    a host arithmetic trap and the exits of the kernel. *)
Theorem Run_safe {K} `{!KernelEntry K, !KernelLaws K} n m (k : K) :
  wf0 m -> safe (fun w => wf0 (fst w)) (Run n (m, k)).
Proof.
  unfold Run. cbn [fst snd]. generalize (setStatus UserMode k). clear k.
  revert m. induction n as [|n IH]; intros m k Hm; cbn [Run_loop]; [done|].
  eapply safe_bind; [by apply OneInstruction_safe|]. intros [m1 k1] H1.
  eapply safe_bind; [by apply OneTick_safe|]. intros [m2 k2] H2. cbn [fst snd] in *.
  eapply (safe_bind (fun w => wf0 (fst w))).
  - destruct (_ && _); [by apply Debugger_safe|done].
  - intros [m3 k3] H3. by apply IH.
Qed.

Lemma Run_safe_witness : safe (fun w => wf0 (fst w)) (Run 3 (example_machine, tt)).
Proof. apply (Run_safe 3 example_machine tt). split; [apply example_wf|reflexivity]. Defined.

(** *** Overflow *)

Lemma sign_bit_spec x : in_s32 x -> sign_bit x = (x <? 0).
Proof.
  intros Hx. unfold sign_bit, SIGN_BIT. rewrite land_top by apply u32_range.
  unfold in_s32 in Hx. destruct (Z.ltb_spec x 0).
  - replace (u32 x) with (x + 2 ^ 32); [by apply Z.leb_le; lia|].
    apply (Z.mod_unique_pos _ _ (-1)); lia.
  - rewrite u32_id by (unfold in_u32; lia). apply Z.leb_gt. lia.
Qed.

Lemma lxor_neg x y : (Z.lxor x y <? 0) = xorb (x <? 0) (y <? 0).
Proof.
  pose proof (Z.lxor_nonneg x y) as H. apply eq_true_iff_eq.
  destruct (Z.ltb_spec x 0), (Z.ltb_spec y 0), (Z.ltb_spec (Z.lxor x y) 0); cbn; lia || tauto || idtac.
  all: split; intros; try done; exfalso; lia.
Qed.

Definition fits (x : Z) : bool := (- 2 ^ 31 <=? x) && (x <? 2 ^ 31).

Lemma add_overflow_test a b : in_s32 a -> in_s32 b ->
  negb (sign_bit (Z.lxor a b)) && sign_bit (Z.lxor a (s32 (a + b))) = negb (fits (a + b)).
Proof.
  intros Ha Hb. rewrite !sign_bit_spec, !lxor_neg by auto with nachos.
  unfold in_s32 in *. unfold fits.
  destruct (Z.leb_spec (- 2 ^ 31) (a + b)), (Z.ltb_spec (a + b) (2 ^ 31)); cbn [andb negb].
  - rewrite s32_id by (unfold in_s32; lia).
    destruct (Z.ltb_spec a 0), (Z.ltb_spec b 0), (Z.ltb_spec (a + b) 0); cbn; lia || done.
  - assert (s32 (a + b) = a + b - 2 ^ 32) as ->.
    { unfold s32. rewrite <-(Z.mod_unique_pos _ _ 1 (a + b - 2 ^ 31)); lia. }
    destruct (Z.ltb_spec a 0), (Z.ltb_spec b 0), (Z.ltb_spec (a + b - 2 ^ 32) 0); cbn; lia || done.
  - assert (s32 (a + b) = a + b + 2 ^ 32) as ->.
    { unfold s32. rewrite <-(Z.mod_unique_pos _ _ (-1) (a + b + 2 ^ 32 + 2 ^ 31)); lia. }
    destruct (Z.ltb_spec a 0), (Z.ltb_spec b 0), (Z.ltb_spec (a + b + 2 ^ 32) 0); cbn; lia || done.
  - lia.
Qed.

Lemma sub_overflow_test a b : in_s32 a -> in_s32 b ->
  sign_bit (Z.lxor a b) && sign_bit (Z.lxor a (s32 (a - b))) = negb (fits (a - b)).
Proof.
  intros Ha Hb. rewrite !sign_bit_spec, !lxor_neg by auto with nachos.
  unfold in_s32 in *. unfold fits.
  destruct (Z.leb_spec (- 2 ^ 31) (a - b)), (Z.ltb_spec (a - b) (2 ^ 31)); cbn [andb negb].
  - rewrite s32_id by (unfold in_s32; lia).
    destruct (Z.ltb_spec a 0), (Z.ltb_spec b 0), (Z.ltb_spec (a - b) 0); cbn; lia || done.
  - assert (s32 (a - b) = a - b - 2 ^ 32) as ->.
    { unfold s32. rewrite <-(Z.mod_unique_pos _ _ 1 (a - b - 2 ^ 31)); lia. }
    destruct (Z.ltb_spec a 0), (Z.ltb_spec b 0), (Z.ltb_spec (a - b - 2 ^ 32) 0); cbn; lia || done.
  - assert (s32 (a - b) = a - b + 2 ^ 32) as ->.
    { unfold s32. rewrite <-(Z.mod_unique_pos _ _ (-1) (a - b + 2 ^ 32 + 2 ^ 31)); lia. }
    destruct (Z.ltb_spec a 0), (Z.ltb_spec b 0), (Z.ltb_spec (a - b + 2 ^ 32) 0); cbn; lia || done.
  - lia.
Qed.

(** ADD, ADDI and SUB raise OverflowException exactly when the
    mathematical result does not fit in 32 bits, and otherwise store that
    result; the sign-bit tests of the code decide it. *)
Theorem arithmetic_overflow {K} `{!KernelEntry K} (w : Machine * K) instr pc a b :
  in_s32 a -> in_s32 b -> in_s32 (extra instr) ->
  getr (rs instr) (fst w) = Ok a -> getr (rt instr) (fst w) = Ok b ->
  execute instr pc w =
    match opCode instr with
    | OP_ADD => if fits (a + b) then assign (rd instr) (a + b) w pc else raise OverflowException 0 w
    | OP_ADDI => if fits (a + extra instr) then assign (rt instr) (a + extra instr) w pc
                 else raise OverflowException 0 w
    | OP_SUB => if fits (a - b) then assign (rd instr) (a - b) w pc else raise OverflowException 0 w
    | _ => execute instr pc w
    end.
Proof.
  intros Ha Hb He Hra Hrb.
  assert (Hs : forall x, fits x = true -> s32 x = x).
  { intros x Hx. apply s32_id. unfold fits in Hx. unfold in_s32. lia. }
  unfold execute. destruct (opCode instr) eqn:Hop; try reflexivity; cbn.
  - unfold exec_add_and. rewrite Hop, Hra, Hrb. cbn [mbind res_bind].
    cbv zeta. rewrite add_overflow_test by done. destruct (fits (a + b)) eqn:Hf; cbn [negb]; [|done].
    by rewrite Hs.
  - unfold exec_add_and. rewrite Hop, Hra. cbn [mbind res_bind].
    cbv zeta. rewrite Z.lxor_comm, (Z.add_comm a), add_overflow_test by done.
    destruct (fits (extra instr + a)) eqn:Hf; cbn [negb]; [|done]. by rewrite Hs.
  - unfold exec_sub. rewrite Hop, Hra, Hrb. cbn [mbind res_bind].
    cbv zeta. rewrite sub_overflow_test by done. destruct (fits (a - b)) eqn:Hf; cbn [negb]; [|done].
    by rewrite Hs.
Qed.

(** 2147483647 in register 4 and 1 in register 5, about to execute
    [ADD r6, r4, r5] fetched from address 256. *)
Definition add_regs : list Z :=
  <[4%nat := 2147483647]> (<[5%nat := 1]> (replicate 40 0)).
Definition add_instr : Instruction := mkInstruction 0x00853020 OP_ADD 4 5 6 0.

Lemma arithmetic_overflow_witness :
  execute add_instr 0 (set_registers example_machine add_regs, tt) =
  raise OverflowException 0 (set_registers example_machine add_regs, tt).
Proof.
  apply (arithmetic_overflow (set_registers example_machine add_regs, tt) add_instr 0 2147483647 1);
    try reflexivity; unfold in_s32; cbn; lia.
Defined.

(** *** The delay slots *)

Lemma aget_set i j v m m' :
  setr i v m = Ok m' ->
  aget (registers m') j = if decide (i = j) then Ok v else aget (registers m) j.
Proof.
  unfold setr. intros H. apply bind_Ok_inv in H as (regs & Ha & H). injection H as <-.
  apply aset_Ok_inv in Ha as [Hr ->]. cbn. case_decide as Hij.
  - subst j. by apply aget_insert_eq.
  - apply aget_insert_ne; [lia|done].
Qed.

Lemma setr_ok' i v m : zlen (registers m) = NumTotalRegs -> 0 <= i < NumTotalRegs ->
  exists m', setr i v m = Ok m' /\ zlen (registers m') = NumTotalRegs.
Proof.
  intros Hwf Hi. unfold setr. rewrite aset_in_range by by rewrite Hwf.
  eexists. split; [done|]. cbn. by rewrite zlen_insert.
Qed.

Lemma setr_ok i v m : wf m -> 0 <= i < NumTotalRegs -> exists m', setr i v m = Ok m' /\
  zlen (registers m') = NumTotalRegs.
Proof.
  intros Hwf Hi. apply setr_ok'; [apply Hwf|done].
Qed.

(** The end of an instruction, from any machine with enough registers. *)
Lemma finish_regs m pcAfter nextReg nextValue lr lv pc npc :
  zlen (registers m) = NumTotalRegs -> 0 <= lr < NumGPRegs ->
  aget (registers m) LoadReg = Ok lr -> aget (registers m) LoadValueReg = Ok lv ->
  aget (registers m) PCReg = Ok pc -> aget (registers m) NextPCReg = Ok npc ->
  exists m', finish m pcAfter nextReg nextValue = Ok m' /\
    aget (registers m') PrevPCReg = Ok pc /\ aget (registers m') PCReg = Ok npc /\
    aget (registers m') NextPCReg = Ok pcAfter /\
    aget (registers m') LoadReg = Ok nextReg /\
    aget (registers m') LoadValueReg = Ok nextValue /\
    aget (registers m') 0 = Ok 0 /\
    forall r, 0 < r < PCReg ->
      aget (registers m') r = if decide (r = lr) then Ok lv else aget (registers m) r.
Proof.
  intros Hlen Hrr Hlr Hlv Hpc Hnpc. unfold NumGPRegs in Hrr.
  unfold finish, DelayedLoad, getr. rewrite Hlr, Hlv. cbn [mbind res_bind].
  destruct (setr_ok' lr lv m Hlen) as (m1 & E1 & L1); [unfold NumTotalRegs; lia|].
  destruct (setr_ok' LoadReg nextReg m1 L1) as (m2 & E2 & L2); [done|].
  destruct (setr_ok' LoadValueReg nextValue m2 L2) as (m3 & E3 & L3); [done|].
  destruct (setr_ok' 0 0 m3 L3) as (m4 & E4 & L4); [done|].
  destruct (setr_ok' PrevPCReg pc m4 L4) as (m5 & E5 & L5); [done|].
  destruct (setr_ok' PCReg npc m5 L5) as (m6 & E6 & L6); [done|].
  destruct (setr_ok' NextPCReg pcAfter m6 L6) as (m7 & E7 & _); [done|].
  pose proof (fun j => aget_set _ j _ _ _ E1) as A1. pose proof (fun j => aget_set _ j _ _ _ E2) as A2.
  pose proof (fun j => aget_set _ j _ _ _ E3) as A3. pose proof (fun j => aget_set _ j _ _ _ E4) as A4.
  pose proof (fun j => aget_set _ j _ _ _ E5) as A5. pose proof (fun j => aget_set _ j _ _ _ E6) as A6.
  pose proof (fun j => aget_set _ j _ _ _ E7) as A7.
  unfold LoadReg, LoadValueReg, PCReg, NextPCReg, PrevPCReg in *.
  exists m7. rewrite E1. cbn [mbind res_bind]. rewrite E2. cbn [mbind res_bind]. rewrite E3.
  cbn [mbind res_bind]. rewrite E4. cbn [mbind res_bind].
  rewrite A4, A3, A2, A1. repeat rewrite decide_False by lia. rewrite Hpc. cbn [mbind res_bind].
  rewrite E5. cbn [mbind res_bind]. rewrite A5, A4, A3, A2, A1.
  repeat rewrite decide_False by lia. rewrite Hnpc. cbn [mbind res_bind].
  rewrite E6. cbn [mbind res_bind]. rewrite E7. split; [done|].
  assert (Hall : forall j, aget (registers m7) j =
    if decide (35 = j) then Ok pcAfter else if decide (34 = j) then Ok npc
    else if decide (36 = j) then Ok pc else if decide (0 = j) then Ok 0
    else if decide (38 = j) then Ok nextValue else if decide (37 = j) then Ok nextReg
    else if decide (lr = j) then Ok lv else aget (registers m) j).
  { intros j. by rewrite A7, A6, A5, A4, A3, A2, A1. }
  do 6 (split; [rewrite Hall; reflexivity|]). intros r Hr. rewrite Hall.
  do 6 rewrite decide_False by lia.
  destruct (decide (lr = r)), (decide (r = lr)); congruence.
Qed.

(** The end of an instruction makes both delays of the R2000: the
    value loaded by the previous instruction reaches its register only now
    (register 0 stays 0), the load started by this instruction stays
    pending, the instruction after the delay slot runs at NextPC, and the
    branch target computed by this instruction becomes the one after. *)
Theorem finish_delays m pcAfter nextReg nextValue lr lv pc npc :
  wf m -> aget (registers m) LoadReg = Ok lr -> aget (registers m) LoadValueReg = Ok lv ->
  aget (registers m) PCReg = Ok pc -> aget (registers m) NextPCReg = Ok npc ->
  exists m', finish m pcAfter nextReg nextValue = Ok m' /\
    aget (registers m') PrevPCReg = Ok pc /\ aget (registers m') PCReg = Ok npc /\
    aget (registers m') NextPCReg = Ok pcAfter /\
    aget (registers m') LoadReg = Ok nextReg /\
    aget (registers m') LoadValueReg = Ok nextValue /\
    aget (registers m') 0 = Ok 0 /\
    forall r, 0 < r < PCReg ->
      aget (registers m') r = if decide (r = lr) then Ok lv else aget (registers m) r.
Proof.
  intros Hwf Hlr Hlv Hpc Hnpc. destruct (wf_load m Hwf) as (lr' & Hlr' & Hrr).
  assert (lr' = lr) as -> by congruence. apply (finish_regs m _ _ _ lr lv pc npc); [apply Hwf|done..].
Qed.

Lemma finish_delays_witness :
  exists m', finish (set_registers example_machine
      (<[37%nat := 4]> (<[38%nat := 77]> (<[34%nat := 8]> (<[35%nat := 12]> (replicate 40 0)))))) 400 5 6 = Ok m' /\
    aget (registers m') 4 = Ok 77 /\ aget (registers m') 5 = Ok 0 /\ aget (registers m') NextPCReg = Ok 400.
Proof.
  destruct (finish_delays (set_registers example_machine
      (<[37%nat := 4]> (<[38%nat := 77]> (<[34%nat := 8]> (<[35%nat := 12]> (replicate 40 0))))))
      400 5 6 4 77 8 12) as (m' & H & _ & _ & Hn & _ & _ & _ & Hr); try reflexivity.
  - apply set_registers_wf; [apply example_wf|reflexivity| |].
    + repeat (apply Forall_insert); try (apply Forall_replicate); unfold in_s32; lia.
    + exists 4. split; [reflexivity|unfold NumGPRegs; lia].
  - exists m'. split; [exact H|]. rewrite !Hr by (unfold PCReg; lia). by split.
Defined.

(** *** Decoding *)

(** The three instruction layouts of the MIPS manual. *)
Definition encodeR (rs rt rd shamt funct : Z) : Z :=
  rs * 2 ^ 21 + rt * 2 ^ 16 + rd * 2 ^ 11 + shamt * 2 ^ 6 + funct.
Definition encodeI (op rs rt imm : Z) : Z := op * 2 ^ 26 + rs * 2 ^ 21 + rt * 2 ^ 16 + u16 imm.
Definition encodeJ (op target : Z) : Z := op * 2 ^ 26 + target.

Lemma field value n w : 0 <= n -> 0 <= w -> Z.land (Z.shiftr value n) (Z.ones w) = value / 2 ^ n mod 2 ^ w.
Proof. intros. by rewrite Z.land_ones, Z.shiftr_div_pow2 by lia. Qed.

Lemma extra_IFMT rest imm :
  - 2 ^ 15 <= imm < 2 ^ 15 -> Decode_extra IFMT (rest * 2 ^ 16 + u16 imm) = imm.
Proof.
  intros Hi. unfold Decode_extra. change 0xffff with (Z.ones 16) at 1 2 3.
  rewrite Z.land_ones by lia. change 0x8000 with (2 ^ 15).
  replace ((rest * 2 ^ 16 + u16 imm) mod 2 ^ 16) with (u16 imm).
  2:{ unfold u16. rewrite Z.add_comm, Z.mod_add, Z.mod_mod by lia. done. }
  rewrite land_bit, Z.testbit_eqb by lia.
  assert (Hu : u16 imm = if 0 <=? imm then imm else imm + 2 ^ 16).
  { unfold u16. destruct (Z.leb_spec 0 imm); symmetry;
      [apply (Z.mod_unique_pos _ _ 0)|apply (Z.mod_unique_pos _ _ (-1))]; lia. }
  rewrite Hu. destruct (Z.leb_spec 0 imm).
  - rewrite Z.div_small by lia. done.
  - replace ((imm + 2 ^ 16) / 2 ^ 15) with 1.
    2:{ apply (Z.div_unique_pos _ _ _ (imm + 2 ^ 15)); lia. }
    change (negb ((if 1 mod 2 =? 1 then 1 else 0) * 2 ^ 15 =? 0)) with true. cbn iota.
    rewrite <-Z.add_nocarry_lor.
    + replace (imm + 2 ^ 16 + 4294901760) with (imm + 2 ^ 32) by lia.
      rewrite <-s32_u32. unfold u32. rewrite <-(Z.mul_1_l (2 ^ 32)) at 1.
      rewrite Z.mod_add by lia. fold (u32 imm). rewrite s32_u32. apply s32_id. unfold in_s32. lia.
    + change 4294901760 with (Z.shiftl 65535 16). apply Z.bits_inj'. intros k Hk.
      rewrite Z.land_spec, Z.bits_0. destruct (Z.lt_ge_cases k 16).
      * rewrite Z.shiftl_spec_low by lia. apply andb_false_r.
      * rewrite (Z.bits_above_log2 (imm + 2 ^ 16)); [done|lia|].
        apply Z.lt_le_trans with 16; [|lia]. apply Z.log2_lt_pow2; lia.
Qed.

(** [Decode] recovers the fields of the three instruction formats:
    registers, shift amount, sign-extended immediate and jump target, with
    the opcode that the two tables give. *)
Theorem Decode_encode rs rt rd shamt imm op funct target :
  0 <= rs < 32 -> 0 <= rt < 32 -> 0 <= rd < 32 -> 0 <= shamt < 32 ->
  - 2 ^ 15 <= imm < 2 ^ 15 -> 0 <= op < 64 -> 0 <= funct < 64 -> 0 <= target < 2 ^ 26 ->
  (exists i, Decode (encodeR rs rt rd shamt funct) = Ok i /\
     aget specialTable funct = Ok (opCode i) /\
     Mips.rs i = rs /\ Mips.rt i = rt /\ Mips.rd i = rd /\ extra i = shamt) /\
  (forall o, aget opTable op = Ok (o, IFMT) -> o <> BCOND ->
     exists i, Decode (encodeI op rs rt imm) = Ok i /\
       opCode i = o /\ Mips.rs i = rs /\ Mips.rt i = rt /\ extra i = imm) /\
  (forall o, aget opTable op = Ok (o, JFMT) ->
     exists i, Decode (encodeJ op target) = Ok i /\ opCode i = o /\ extra i = target).
Proof.
  intros Hrs Hrt Hrd Hsh Himm Hop Hfn Htg. unfold Decode.
  assert (Hu : 0 <= u16 imm < 2 ^ 16) by (apply Z.mod_pos_bound; lia).
  change 31 with (Z.ones 5). change 63 with (Z.ones 6). split; [|split].
  - rewrite !field, Z.land_ones by lia. unfold encodeR.
    replace (_ / 2 ^ 26 mod 2 ^ 6) with 0 by (Z.to_euclidean_division_equations; lia).
    change (aget opTable 0) with (Ok (SPECIAL, RFMT)). cbn [mbind res_bind fst snd].
    rewrite decide_True by done.
    replace (_ mod 2 ^ 6) with funct by (Z.to_euclidean_division_equations; lia).
    destruct (aget_in_range specialTable funct) as [o Ho]; [done|]. rewrite Ho. cbn [mbind res_bind].
    eexists. split; [done|]. cbn [opCode Mips.rs Mips.rt Mips.rd extra]. split; [done|].
    unfold Decode_extra. change 31 with (Z.ones 5). rewrite field by lia.
    repeat split; Z.to_euclidean_division_equations; lia.
  - intros o Ho Hb. rewrite !field by lia.
    replace (encodeI op rs rt imm / 2 ^ 26 mod 2 ^ 6) with op
      by (unfold encodeI; Z.to_euclidean_division_equations; lia).
    rewrite Ho. cbn [mbind res_bind fst snd].
    destruct (decide (o = SPECIAL)) as [->|].
    { apply aget_Ok_inv in Ho as [_ Ho]. 
      pose proof (Forall_lookup_1 _ _ _ _ opTable_formats Ho) as [Hf _]. by specialize (Hf eq_refl). }
    rewrite decide_False by done. cbn [mbind res_bind]. eexists. split; [done|].
    cbn [opCode Mips.rs Mips.rt Mips.rd extra]. split; [done|].
    replace (encodeI op rs rt imm) with ((op * 2 ^ 10 + rs * 2 ^ 5 + rt) * 2 ^ 16 + u16 imm) at 3
      by (unfold encodeI; lia).
    split; [|split; [|by apply extra_IFMT]];
      unfold encodeI; Z.to_euclidean_division_equations; lia.
  - intros o Ho. rewrite !field by lia.
    replace (encodeJ op target / 2 ^ 26 mod 2 ^ 6) with op
      by (unfold encodeJ; Z.to_euclidean_division_equations; lia).
    rewrite Ho. cbn [mbind res_bind fst snd].
    assert (Hj : o = OP_J \/ o = OP_JAL).
    { apply aget_Ok_inv in Ho as [_ Ho].
      assert (Hall : Forall (fun p => snd p = JFMT -> fst p = OP_J \/ fst p = OP_JAL) opTable).
      { repeat (constructor; [cbn; intros; (discriminate || tauto)|]). constructor. }
      by apply (Forall_lookup_1 _ _ _ _ Hall Ho). }
    rewrite !decide_False by (destruct Hj; congruence). cbn [mbind res_bind].
    eexists. split; [done|]. split; [done|]. cbn [extra Decode_extra].
    change 67108863 with (Z.ones 26). rewrite Z.land_ones by lia.
    unfold encodeJ. Z.to_euclidean_division_equations; lia.
Qed.

Lemma Decode_encode_witness :
  exists i, Decode (encodeI 35 29 4 (-8)) = Ok i /\ opCode i = OP_LW /\ extra i = -8.
Proof.
  destruct (Decode_encode 29 4 0 0 (-8) 35 0 0) as (_ & H & _); try lia.
  destruct (H OP_LW) as (i & H1 & H2 & _ & _ & H3); [reflexivity|discriminate|].
  by exists i.
Defined.

(** *** Division, and two divergences from the architecture *)

(** DIV leaves in HI:LO the truncated quotient and a remainder
    smaller than the divisor with the sign of the dividend, DIVU the
    unsigned ones, both leave 0 for a zero divisor, and the one pair whose
    quotient does not fit traps the host instead of raising an exception. *)
Theorem division_correct {K} `{!KernelEntry K} m (k : K) instr pc a b :
  wf m -> wf_instr instr ->
  getr (rs instr) m = Ok a -> getr (rt instr) m = Ok b ->
  (opCode instr = OP_DIV -> a = - 2 ^ 31 -> b = -1 -> execute instr pc (m, k) = Err HostTrap) /\
  (opCode instr = OP_DIV -> a <> - 2 ^ 31 \/ b <> -1 ->
   exists m' lo hi, execute instr pc (m, k) = Ok (Break (m', k) pc 0 0) /\
     getr LoReg m' = Ok lo /\ getr HiReg m' = Ok hi /\
     if b =? 0 then lo = 0 /\ hi = 0
     else a = b * lo + hi /\ Z.abs hi < Z.abs b /\ 0 <= hi * a) /\
  (opCode instr = OP_DIVU ->
   exists m' lo hi, execute instr pc (m, k) = Ok (Break (m', k) pc 0 0) /\
     getr LoReg m' = Ok lo /\ getr HiReg m' = Ok hi /\
     if b =? 0 then lo = 0 /\ hi = 0
     else u32 a = u32 b * u32 lo + u32 hi /\ u32 hi < u32 b).
Proof.
  intros Hwf Hi Ha Hb.
  assert (Hlh : forall lo hi, exists m', set_lo_hi lo hi (m, k) pc = Ok (Break (m', k) pc 0 0) /\
            getr LoReg m' = Ok lo /\ getr HiReg m' = Ok hi).
  { intros lo hi. unfold set_lo_hi. cbn [fst snd].
    destruct (setr_ok LoReg lo m Hwf) as (m1 & E1 & L1); [done|]. rewrite E1. cbn [mbind res_bind].
    destruct (setr_ok' HiReg hi m1 L1) as (m2 & E2 & L2); [done|]. rewrite E2. cbn [mbind res_bind].
    exists m2. split; [done|]. unfold getr.
    by rewrite !(aget_set _ _ _ _ _ E2), !(aget_set _ _ _ _ _ E1). }
  pose proof (getr_safe m (rs instr) Hwf) as Ia. rewrite Ha in Ia.
  pose proof (getr_safe m (rt instr) Hwf) as Ib. rewrite Hb in Ib. cbn in Ia, Ib.
  pose proof (wf_rs _ Hi). pose proof (wf_rt _ Hi). unfold NumTotalRegs in *.
  specialize (Ia ltac:(lia)). specialize (Ib ltac:(lia)).
  unfold execute. split; [|split]; intros Hop; rewrite Hop; unfold exec_div; cbn [fst]; rewrite Hop.
  - intros -> ->. rewrite Hb. cbn [mbind res_bind]. cbn [Z.eqb]. rewrite Ha. reflexivity.
  - intros Hov. rewrite Hb. cbn [mbind res_bind]. destruct (Z.eqb_spec b 0) as [->|Hz].
    { destruct (Hlh 0 0) as (m' & -> & ? & ?). by exists m', 0, 0. }
    rewrite Ha. cbn [mbind res_bind].
    replace ((a =? - 2 ^ 31) && (b =? -1)) with false
      by (destruct (Z.eqb_spec a (- 2 ^ 31)), (Z.eqb_spec b (-1)); cbn; tauto).
    destruct (setr_ok LoReg (Z.quot a b) m Hwf) as (m1 & E1 & L1); [done|]. rewrite E1.
    cbn [mbind res_bind]. unfold getr at 1 2. rewrite !(aget_set _ _ _ _ _ E1).
    rewrite !decide_False by (unfold LoReg; lia). unfold getr in Ha, Hb. rewrite Ha, Hb.
    cbn [mbind res_bind].
    destruct (setr_ok' HiReg (Z.rem a b) m1 L1) as (m2 & E2 & L2); [done|]. rewrite E2.
    exists m2, (Z.quot a b), (Z.rem a b). split; [done|]. unfold getr.
    rewrite !(aget_set _ _ _ _ _ E2), !(aget_set _ _ _ _ _ E1). do 2 (split; [done|]).
    split; [apply Z.quot_rem'|]. split; [by apply Z.rem_bound_abs|].
    by apply Z.rem_sign_mul.
  - rewrite Ha, Hb. cbn [mbind res_bind]. cbv zeta. unfold in_s32 in *.
    assert (Hbz : (u32 b =? 0) = (b =? 0)).
    { destruct (Z.eqb_spec b 0) as [->|Hz]; [done|]. apply Z.eqb_neq. unfold u32.
      intros Hm. apply Z.mod_divide in Hm as [q Hq]; lia. }
    rewrite Hbz. destruct (Z.eqb_spec b 0) as [->|Hz].
    { destruct (Hlh 0 0) as (m' & -> & ? & ?). by exists m', 0, 0. }
    destruct (Hlh (s32 (u32 a / u32 b)) (s32 (u32 a mod u32 b))) as (m' & -> & ? & ?).
    exists m', (s32 (u32 a / u32 b)), (s32 (u32 a mod u32 b)). do 3 (split; [done|]).
    pose proof (u32_range a). pose proof (u32_range b). unfold in_u32 in *.
    apply Z.eqb_neq in Hbz as Hnz.
    pose proof (Z.div_mod (u32 a) (u32 b) ltac:(lia)) as Hdm.
    pose proof (Z.mod_pos_bound (u32 a) (u32 b) ltac:(lia)).
    assert (0 <= u32 a / u32 b <= u32 a) by (split; [apply Z.div_pos; lia|apply Z.div_le_upper_bound; nia]).
    rewrite !u32_s32, !(u32_id (_ / _)), !(u32_id (_ mod u32 b)) by (unfold in_u32; lia). lia.
Qed.

Definition div_instr : Instruction := mkInstruction 0x0085001a OP_DIV 4 5 0 0.

Lemma division_correct_witness :
  exists m' lo hi,
    execute div_instr 0 (set_registers example_machine (<[4%nat := -7]> (<[5%nat := 2]> (replicate 40 0))), tt)
      = Ok (Break (m', tt) 0 0 0) /\ getr LoReg m' = Ok lo /\ getr HiReg m' = Ok hi /\ -7 = 2 * lo + hi.
Proof.
  destruct (division_correct
    (set_registers example_machine (<[4%nat := -7]> (<[5%nat := 2]> (replicate 40 0)))) tt div_instr 0 (-7) 2)
    as (_ & H & _); try reflexivity.
  - apply set_registers_wf; [apply example_wf|reflexivity| |].
    + repeat (apply Forall_insert); try (apply Forall_replicate); unfold in_s32; lia.
    + exists 0. split; [reflexivity|unfold NumGPRegs; lia].
  - split; cbn; unfold in_s32; (lia || done).
  - destruct H as (m' & lo & hi & H1 & H2 & H3 & H4 & _); [reflexivity|lia|].
    by exists m', lo, hi.
Defined.

(** OR stores its first operand, whatever the second holds, and SRL
    and SRLV shift in copies of the sign bit, so a negative word shifted by
    a positive amount stays negative; both diverge from the architecture. *)
Theorem OR_SRL_divergence {K} `{!KernelEntry K} (w : Machine * K) instr pc a b :
  wf_instr instr -> in_s32 b -> b < 0 ->
  getr (rs instr) (fst w) = Ok a -> getr (rt instr) (fst w) = Ok b ->
  (opCode instr = OP_OR -> execute instr pc w = assign (rd instr) a w pc) /\
  (opCode instr = OP_SRL -> exists r,
     execute instr pc w = assign (rd instr) r w pc /\ r < 0 /\
     (0 < extra instr -> r <> Z.shiftr (u32 b) (extra instr))) /\
  (opCode instr = OP_SRLV -> exists r,
     execute instr pc w = assign (rd instr) r w pc /\ r < 0).
Proof.
  intros Hi Hb Hneg Ea Eb. unfold execute. split; [|split]; intros Hop; rewrite Hop.
  - unfold exec_hilo_logic. rewrite Hop, Ea. cbn [mbind res_bind]. by rewrite Z.lor_diag.
  - unfold exec_shift_set. rewrite Hop, Eb. cbn [mbind res_bind]. cbv zeta.
    eexists. split; [done|].
    assert (Z.shiftr b (extra instr) < 0) by (by apply Z.shiftr_neg).
    split; [done|]. intros He.
    assert (0 <= Z.shiftr (u32 b) (extra instr)) by (apply Z.shiftr_nonneg; apply u32_range). lia.
  - unfold exec_shift_set. rewrite Hop, Eb. cbn [mbind res_bind]. rewrite Ea. cbn [mbind res_bind].
    cbv zeta. eexists. split; [done|]. by apply Z.shiftr_neg.
Qed.

Definition or_instr : Instruction := mkInstruction 0x00853025 OP_OR 4 5 6 0.

Lemma OR_SRL_divergence_witness :
  execute or_instr 0 (set_registers example_machine (<[4%nat := 1]> (<[5%nat := -2]> (replicate 40 0))), tt)
  = assign 6 1 (set_registers example_machine (<[4%nat := 1]> (<[5%nat := -2]> (replicate 40 0))), tt) 0.
Proof.
  apply (OR_SRL_divergence
    (set_registers example_machine (<[4%nat := 1]> (<[5%nat := -2]> (replicate 40 0))), tt)
    or_instr 0 1 (-2)); try reflexivity.
  - split; cbn; unfold in_s32; (lia || done).
  - unfold in_s32. lia.
Defined.
