(* ===== verification/Debug.v ===== *)
(** * The debugger of user programs: Machine::Debugger and DumpState of
    machine/machine.cc

    The simulator of Mips.v enters the debugger through the class
    [KernelEntry].  Here is the debugger of the source, on a terminal: it
    prints the registers and reads a command.  What Interrupt::DumpState
    prints before that is left out. *)

From Stdlib Require Import Ascii String.
From stdpp Require Import base list numbers strings.
From S2P Require Import Prelude Arrays CString Machine Mips.
#[local] Open Scope string_scope.
#[local] Open Scope list_scope.
#[local] Open Scope Z_scope.

Record Terminal := mkTerminal { stdin : string; stdout : string }.

Definition print (s : string) (t : Terminal) : Terminal := mkTerminal (stdin t) (stdout t +:+ s).

Definition StackReg : Z := 29.
Definition RetAddrReg : Z := 31.

(** ** DumpState *)

(** The array of registers has NumTotalRegs elements. *)
Definition register (m : Machine) (i : Z) : Z := default 0 (registers m !! Z.to_nat i).

Definition dump_register (m : Machine) (i : Z) : string :=
  let name := if i =? StackReg then "SP(" +:+ print_d i +:+ ")"
              else if i =? RetAddrReg then "RA(" +:+ print_d i +:+ ")"
              else print_d i in
  TAB +:+ name +:+ ":" +:+ TAB +:+ "0x" +:+ print_x (register m i) +:+ (if Z.rem i 4 =? 3 then NL else "").

Definition dump_special (name : string) (m : Machine) (i : Z) : string :=
  TAB +:+ name +:+ ":" +:+ TAB +:+ "0x" +:+ print_x (register m i).

Definition DumpState (m : Machine) : string :=
  "Machine registers:" +:+ NL +:+
  foldr (fun i s => dump_register m i +:+ s) "" (seqZ 0 NumGPRegs) +:+
  dump_special "Hi" m HiReg +:+ dump_special "Lo" m LoReg +:+ NL +:+
  dump_special "PC" m PCReg +:+ dump_special "NextPC" m NextPCReg +:+ dump_special "PrevPC" m PrevPCReg +:+ NL +:+
  dump_special "Load" m LoadReg +:+ dump_special "LoadV" m LoadValueReg +:+ NL +:+ NL.

(** ** Debugger *)

Definition with_debug (b : bool) (t : Z) (m : Machine) : Machine :=
  mkMachine (mainMemory m) (registers m) (tlb m) (pageTable m) (pageTableSize m) b t.

Definition help : string :=
  "Machine commands:" +:+ NL +:+
  "    <return>  execute one instruction" +:+ NL +:+
  "    <number>  run until the given timer tick" +:+ NL +:+
  "    c         run until completion" +:+ NL +:+
  "    ?         print help message" +:+ NL.

(** What a command does; [buf] is the line. *)
Definition command (buf : string) (m : Machine) (t : Terminal) : Machine * Terminal :=
  match scan_d buf with
  | Some num => (with_debug (singleStep m) num m, t)
  | None =>
      let m := with_debug (singleStep m) 0 m in
      match buf with
      | String "c" _ => (with_debug false (runUntilTime m) m, t)
      | String "?" _ => (m, print help t)
      | _ => (m, t)
      end
  end.

Section Debugger.
Context {K : Type} (KE : KernelEntry K).
Variable garbage : string.      (* what [new char[80]] finds, for the end of the input *)

(** [buf] has room for 79 characters. *)
Definition Machine_Debugger (w : Machine * (K * Terminal)) : res (Machine * (K * Terminal)) :=
  let '(m, (k, t)) := w in
  let t := print (DumpState m) t in
  let t := print (print_d (totalTicks k) +:+ "> ") t in
  let (line, rest) := fgets 79 (stdin t) in
  let buf := if String.eqb (stdin t) "" then garbage else line in
  let (m, t) := command buf m (mkTerminal rest (stdout t)) in
  Ok (m, (k, t)).

(** The kernel with this debugger. *)
Definition beside (f : Machine * K -> res (Machine * K)) (w : Machine * (K * Terminal)) : res (Machine * (K * Terminal)) :=
  r ← f (fst w, fst (snd w)); Ok (fst r, (snd r, snd (snd w))).

Definition debug_kernel : KernelEntry (K * Terminal) :=
  {| setStatus := fun s k => (setStatus s (fst k), snd k);
     ExceptionHandler := fun exc => beside (ExceptionHandler exc);
     OneTick := beside OneTick;
     totalTicks := fun k => totalTicks (fst k);
     Debugger := Machine_Debugger |}.

End Debugger.

(** ** Machines that differ in the debugger's members *)

Definition res_rel {A B} (R : A -> B -> Prop) (r : res A) (r' : res B) : Prop :=
  match r, r' with
  | Ok a, Ok b => R a b
  | Err e, Err e' => e = e'
  | _, _ => False
  end.

Lemma rel_bind {A B A' B'} (R : A -> B -> Prop) (S : A' -> B' -> Prop) (r : res A) (r' : res B) f f' :
  res_rel R r r' -> (forall a b, R a b -> res_rel S (f a) (f' b)) -> res_rel S (r ≫= f) (r' ≫= f').
Proof. destruct r, r'; cbn; [auto|done|done|done]. Qed.

Lemma rel_eq {A B C} (S : B -> C -> Prop) (r : res A) (f : A -> res B) (f' : A -> res C) :
  (forall a, res_rel S (f a) (f' a)) -> res_rel S (r ≫= f) (r ≫= f').
Proof. intros H. destruct r; [apply H|reflexivity]. Qed.

Lemma res_assoc {A B C} (r : res A) (f : A -> res B) (g : B -> res C) : ((r ≫= f) ≫= g) = (r ≫= fun a => f a ≫= g).
Proof. by destruct r. Qed.

Section Alike.
Context {K K2 : Type} (KE : KernelEntry K) (KE2 : KernelEntry K2) (S : K -> K2 -> Prop).
Context (b : bool) (t : Z).

(** The same processor, memory and tables; [b] and [t] for the debugger. *)
Definition alike (m m' : Machine) : Prop := m' = with_debug b t m.

Definition both (w : Machine * K) (w2 : Machine * K2) : Prop := alike (fst w) (fst w2) /\ S (snd w) (snd w2).

(** The two kernels do the same, apart from the debugger. *)
Hypothesis setStatus_both : forall st k k2, S k k2 -> S (setStatus st k) (setStatus st k2).
Hypothesis handler_both : forall exc w w2, both w w2 -> res_rel both (ExceptionHandler exc w) (ExceptionHandler exc w2).

Lemma getr_alike i m m' : alike m m' -> getr i m' = getr i m.
Proof. by intros ->. Qed.

Lemma setr_alike i v m m' : alike m m' -> res_rel alike (setr i v m) (setr i v m').
Proof.
  intros ->. unfold setr. cbn [registers with_debug]. by destruct (aset (registers m) i v).
Qed.

Lemma DelayedLoad_alike r v m m' : alike m m' -> res_rel alike (DelayedLoad r v m) (DelayedLoad r v m').
Proof.
  intros H. unfold DelayedLoad. rewrite !(getr_alike _ m m') by done. do 2 (apply rel_eq; intros ?).
  eapply rel_bind; [by apply setr_alike|]. intros m1 m1' H1.
  eapply rel_bind; [by apply setr_alike|]. intros m2 m2' H2.
  eapply rel_bind; [by apply setr_alike|]. intros m3 m3' H3. by apply setr_alike.
Qed.

Lemma RaiseException_both exc a w w2 : both w w2 -> res_rel both (RaiseException exc a w) (RaiseException exc a w2).
Proof using All.
  destruct w as [m k], w2 as [m2 k2]. intros [Hm Hk]. unfold RaiseException.
  eapply rel_bind; [by apply setr_alike|]. intros m1 m1' H1.
  eapply rel_bind; [by apply DelayedLoad_alike|]. intros m3 m3' H3.
  eapply rel_bind; [apply handler_both; split; [exact H3|by apply setStatus_both]|].
  intros [m4 k4] [m4' k4'] [H4 Hk4]. split; [done|by apply setStatus_both].
Qed.

Lemma Translate_alike a size writing m m' : alike m m' ->
  res_rel (fun r r' => fst r = fst r' /\ alike (snd r) (snd r')) (Translate a size writing m) (Translate a size writing m').
Proof.
  intros ->. unfold Translate. cbn [tlb pageTable pageTableSize with_debug].
  assert (Hsame : forall x : ExceptionType * Z, fst (x, m) = fst (x, with_debug b t m) /\ alike (snd (x, m)) (snd (x, with_debug b t m))) by done.
  destruct (misaligned a size); [apply Hsame|]. do 2 (apply rel_eq; intros ?).
  destruct (tlb m) as [tl|].
  - apply rel_eq. intros [i|]; [|apply Hsame]. apply rel_eq. intros e. apply rel_eq. intros [exc|[e' pa]]; [apply Hsame|].
    apply rel_eq. intros t'. by split.
  - destruct (pageTableSize m <=? _); [apply Hsame|]. apply rel_eq. intros pt. apply rel_eq. intros e.
    destruct (negb (valid e)); [apply Hsame|]. apply rel_eq. intros [exc|[e' pa]]; [apply Hsame|].
    apply rel_eq. intros t'. by split.
Qed.

Lemma alike_memory m m' : alike m m' -> mainMemory m' = mainMemory m.
Proof. by intros ->. Qed.

Lemma ReadMem_both a size w w2 : both w w2 ->
  res_rel (fun r r2 => fst r = fst r2 /\ both (snd r) (snd r2)) (ReadMem a size w) (ReadMem a size w2).
Proof using All.
  destruct w as [m k], w2 as [m2 k2]. intros [Hm Hk]. cbn [fst snd] in *. unfold ReadMem.
  eapply rel_bind; [by apply Translate_alike|]. intros [[exc pa] m1] [[exc' pa'] m1'] [[= <- <-] H1]. cbn [snd] in H1.
  case_decide.
  - rewrite (alike_memory m1 m1') by done. apply rel_eq. intros v. by split.
  - eapply rel_bind; [by apply RaiseException_both|]. intros w1 w1' Hw. by split.
Qed.

Lemma WriteMem_both a size v w w2 : both w w2 ->
  res_rel (fun r r2 => fst r = fst r2 /\ both (snd r) (snd r2)) (WriteMem a size v w) (WriteMem a size v w2).
Proof using All.
  destruct w as [m k], w2 as [m2 k2]. intros [Hm Hk]. cbn [fst snd] in *. unfold WriteMem.
  eapply rel_bind; [by apply Translate_alike|]. intros [[exc pa] m1] [[exc' pa'] m1'] [[= <- <-] H1]. cbn [snd] in H1.
  case_decide.
  - rewrite (alike_memory m1 m1') by done. apply rel_eq. intros mem. split; [done|]. split; [|done].
    cbn. by rewrite H1.
  - eapply rel_bind; [by apply RaiseException_both|]. intros w1 w1' Hw. by split.
Qed.

(** *** The cases of OneInstruction *)

Definition out_both (o : @outcome K) (o2 : @outcome K2) : Prop :=
  match o, o2 with
  | Break w pc lr lv, Break w2 pc2 lr2 lv2 => both w w2 /\ pc = pc2 /\ lr = lr2 /\ lv = lv2
  | Return w, Return w2 => both w w2
  | _, _ => False
  end.

Lemma assign_both i v w w2 pc : both w w2 -> res_rel out_both (assign i v w pc) (assign i v w2 pc).
Proof.
  intros [Hm Hk]. unfold assign. eapply rel_bind; [by apply setr_alike|]. intros m m' H. by split.
Qed.

Lemma raise_both exc a w w2 : both w w2 -> res_rel out_both (raise exc a w) (raise exc a w2).
Proof using All. intros H. unfold raise. eapply rel_bind; [by apply RaiseException_both|]. done. Qed.

Lemma link_both i w w2 : both w w2 -> res_rel both (link i w) (link i w2).
Proof.
  intros [Hm Hk]. unfold link. rewrite (getr_alike _ _ _ Hm). apply rel_eq. intros npc.
  eapply rel_bind; [by apply setr_alike|]. intros m m' H. by split.
Qed.

Lemma set_lo_hi_both lo hi w w2 pc : both w w2 -> res_rel out_both (set_lo_hi lo hi w pc) (set_lo_hi lo hi w2 pc).
Proof.
  intros [Hm Hk]. unfold set_lo_hi. eapply rel_bind; [by apply setr_alike|]. intros m m' H.
  eapply rel_bind; [by apply setr_alike|]. intros m1 m1' H1. by split.
Qed.

Definition case_both (f : Instruction -> Z -> Machine * K -> res (@outcome K)) (f2 : Instruction -> Z -> Machine * K2 -> res (@outcome K2)) : Prop :=
  forall instr pc w w2, both w w2 -> res_rel out_both (f instr pc w) (f2 instr pc w2).

Ltac exec :=
  lazymatch goal with
  | |- res_rel _ (getr ?i ?m ≫= _) (getr ?i ?m' ≫= _) =>
      try rewrite (getr_alike i m m') by assumption; apply rel_eq; intros ?
  | |- res_rel _ (setr _ _ _ ≫= _) (setr _ _ _ ≫= _) =>
      eapply rel_bind; [apply setr_alike; assumption|]; intros ? ? ?
  | |- res_rel _ (link _ _ ≫= _) (link _ _ ≫= _) =>
      eapply rel_bind; [apply link_both; split; assumption|]; intros ? ? [? ?]
  | |- res_rel _ (ReadMem _ _ _ ≫= _) (ReadMem _ _ _ ≫= _) =>
      eapply rel_bind; [apply ReadMem_both; split; assumption|];
      intros [[?|] ?] [? ?] [[= <-] [? ?]]; cbn [fst snd] in *
  | |- res_rel _ (WriteMem _ _ _ _ ≫= _) (WriteMem _ _ _ _ ≫= _) =>
      eapply rel_bind; [apply WriteMem_both; split; assumption|];
      intros [[] ?] [? ?] [[= <-] [? ?]]; cbn [fst snd] in *
  | |- res_rel _ (ASSERT _ ≫= _) (ASSERT _ ≫= _) => apply rel_eq; intros ?
  | |- res_rel _ (assign _ _ _ _) _ => apply assign_both; split; assumption
  | |- res_rel _ (raise _ _ _) _ => apply raise_both; split; assumption
  | |- res_rel _ (set_lo_hi _ _ _ _) _ => apply set_lo_hi_both; split; assumption
  | |- res_rel _ (Err _) (Err _) => reflexivity
  | |- res_rel _ (Ok _) (Ok _) => cbn; split_and?; solve [assumption|reflexivity|split; assumption]
  | |- res_rel _ (if ?b then _ else _) _ => destruct b
  | |- res_rel _ (let (_, _) := ?x in _) _ => destruct x
  | |- res_rel _ ((if ?b then _ else _) ≫= _) _ => destruct b
  end.

Ltac start := intros instr pc w w2 [Hm Hk]; cbv beta iota zeta delta [exec_add_and exec_branch branch_to exec_div exec_jump effective exec_load
  exec_unaligned_load pending_value exec_hilo_logic exec_store store_rt exec_shift_set exec_sub exec_unaligned_store exec_trap_xor];
  try (destruct (opCode instr)); cbv beta iota zeta; repeat (rewrite ?res_assoc, ?bind_Ok; exec).

Lemma exec_add_and_both : case_both exec_add_and exec_add_and.
Proof using All. start. Qed.

Lemma exec_branch_both : case_both exec_branch exec_branch.
Proof using All. start. Qed.

Lemma exec_div_both : case_both exec_div exec_div.
Proof using All. start. Qed.

Lemma exec_jump_both : case_both exec_jump exec_jump.
Proof using All. start. Qed.

Lemma exec_load_both : case_both exec_load exec_load.
Proof using All. start. Qed.

Lemma exec_unaligned_load_both : case_both exec_unaligned_load exec_unaligned_load.
Proof using All. start. Qed.

Lemma exec_hilo_logic_both : case_both exec_hilo_logic exec_hilo_logic.
Proof using All. start. Qed.

Lemma exec_store_both : case_both exec_store exec_store.
Proof using All. start. Qed.

Lemma exec_shift_set_both : case_both exec_shift_set exec_shift_set.
Proof using All. start. Qed.

Lemma exec_sub_both : case_both exec_sub exec_sub.
Proof using All. start. Qed.

Lemma exec_unaligned_store_both : case_both exec_unaligned_store exec_unaligned_store.
Proof using All. start. Qed.

Lemma exec_trap_xor_both : case_both exec_trap_xor exec_trap_xor.
Proof using All. start. Qed.

Lemma execute_both : case_both execute execute.
Proof using All.
  intros instr pc w w2 H. unfold execute.
  destruct (opCode instr);
    first [ by apply exec_add_and_both | by apply exec_branch_both | by apply exec_div_both | by apply exec_jump_both
          | by apply exec_load_both | by apply exec_unaligned_load_both | by apply exec_hilo_logic_both
          | by apply exec_store_both | by apply exec_shift_set_both | by apply exec_sub_both
          | by apply exec_unaligned_store_both | by apply exec_trap_xor_both | reflexivity ].
Qed.

Lemma finish_both m m' pc lr lv : alike m m' -> res_rel alike (finish m pc lr lv) (finish m' pc lr lv).
Proof.
  intros H. unfold finish. eapply rel_bind; [by apply DelayedLoad_alike|]. intros m1 m1' H1.
  repeat exec. by apply setr_alike.
Qed.

Lemma OneInstruction_both w w2 : both w w2 -> res_rel both (OneInstruction w) (OneInstruction w2).
Proof using All.
  intros [Hm Hk]. unfold OneInstruction. exec. exec; [|by split].
  apply rel_eq. intros instr. exec. eapply rel_bind; [apply execute_both; by split|].
  intros [[m1 k1] pc lr lv|w1] [[m1' k1'] pc' lr' lv'|w1']; try done; cbn.
  - intros ([Hm1 Hk1] & -> & -> & ->). eapply rel_bind; [by apply finish_both|]. intros m3 m3' Hm3. by split.
Qed.
End Alike.

(** ** Runs under the debugger *)

Section Runs.
Context {K : Type} (KE : KernelEntry K) (garbage : string).

(** singleStep and runUntilTime are private members of Machine: the kernel
    does not look at them and leaves them as they are. *)
Definition blind (f : Machine * K -> res (Machine * K)) : Prop :=
  forall b t m k, f (with_debug b t m, k) = (r ← f (m, k); Ok (with_debug b t r.1, r.2)).

Hypothesis handler_blind : forall exc, blind (ExceptionHandler exc).
Hypothesis OneTick_blind : blind OneTick.

(** The state after each turn of Run when nobody single-steps. *)
Fixpoint states (n : nat) (w : Machine * K) : res (list (Machine * K)) :=
  match n with
  | O => Ok []
  | S n => w ← OneInstruction w; w ← OneTick w; ws ← states n w; Ok (w :: ws)
  end.

(** The debugger, looking at these states: it is asked when it steps and
    the time has come, shows the registers, and does the command. *)
Fixpoint observe (ws : list (Machine * K)) (b : bool) (t : Z) (tty : Terminal) : bool * Z * Terminal :=
  match ws with
  | [] => (b, t, tty)
  | (m, k) :: ws =>
      if b && (t <=? totalTicks k) then
        let shown := print (print_d (totalTicks k) +:+ "> ") (print (DumpState m) tty) in
        let (line, rest) := fgets 79 (stdin tty) in
        let (m', tty') := command (if String.eqb (stdin tty) "" then garbage else line) (with_debug b t m) (mkTerminal rest (stdout shown)) in
        observe ws (singleStep m') (runUntilTime m') tty'
      else observe ws b t tty
  end.

Lemma with_debug_same m : with_debug (singleStep m) (runUntilTime m) m = m.
Proof. by destruct m. Qed.

Lemma command_debug buf b t m tty : exists b' t', command buf (with_debug b t m) tty = (with_debug b' t' m, (command buf (with_debug b t m) tty).2).
Proof.
  unfold command. destruct (scan_d buf); [by eexists _, _|].
  destruct buf as [|c s]; [by eexists _, _|].
  destruct c as [[] [] [] [] [] [] [] []]; by eexists _, _.
Qed.

(** One instruction, with other members for the debugger. *)
Lemma OneInstruction_blind : blind OneInstruction.
Proof using handler_blind.
  intros b t m k.
  pose proof (OneInstruction_both KE KE eq b t (fun st k k2 E => f_equal (setStatus st) E)) as H.
  assert (Hh : forall exc w w2, both eq b t w w2 -> res_rel (both eq b t) (ExceptionHandler exc w) (ExceptionHandler exc w2)).
  { intros exc [m1 k1] [m2 k2] [Hm Hk]. cbn in Hm, Hk. rewrite Hm, <-Hk, (handler_blind exc b t m1 k1).
    destruct (ExceptionHandler exc (m1, k1)); [by split|done]. }
  specialize (H Hh (m, k) (with_debug b t m, k) (conj eq_refl eq_refl)).
  destruct (OneInstruction (m, k)) as [[m1 k1]|e], (OneInstruction (with_debug b t m, k)) as [[m2 k2]|e2]; cbn in H; try done.
  - destruct H as [Hm Hk]. cbn in Hm, Hk. rewrite bind_Ok. cbn. by rewrite Hm, Hk.
  - by subst.
Qed.

Lemma blind_keeps f m k m' k' : blind f -> f (m, k) = Ok (m', k') ->
  singleStep m' = singleStep m /\ runUntilTime m' = runUntilTime m.
Proof.
  intros Hf E. pose proof (Hf (singleStep m) (runUntilTime m) m k) as H. rewrite with_debug_same, E, bind_Ok in H.
  injection H as ->. done.
Qed.

(** The same with a terminal next to the kernel. *)
Lemma OneInstruction_debug b t m k tty :
  @OneInstruction _ (debug_kernel KE garbage) (with_debug b t m, (k, tty)) =
  (r ← OneInstruction (m, k); Ok (with_debug b t r.1, (r.2, tty))).
Proof using handler_blind.
  pose proof (OneInstruction_both KE (debug_kernel KE garbage) (fun k k2 => k2 = (k, tty)) b t) as H.
  assert (Hs : forall st k k2, k2 = (k, tty) -> @setStatus _ (debug_kernel KE garbage) st k2 = (setStatus st k, tty)) by (intros st k1 k2 ->; done).
  assert (Hh : forall exc w w2, both (fun k k2 => k2 = (k, tty)) b t w w2 ->
    res_rel (both (fun k k2 => k2 = (k, tty)) b t) (ExceptionHandler exc w) (@ExceptionHandler _ (debug_kernel KE garbage) exc w2)).
  { intros exc [m1 k1] [m2 k2] [Hm Hk]. cbn in Hm, Hk. rewrite Hm, Hk. cbn. unfold beside. cbn [fst snd].
    rewrite (handler_blind exc b t m1 k1). destruct (ExceptionHandler exc (m1, k1)) as [[]|]; [by split|done]. }
  specialize (H Hs Hh (m, k) (with_debug b t m, (k, tty)) (conj eq_refl eq_refl)).
  destruct (OneInstruction (m, k)) as [[m1 k1]|e], (@OneInstruction _ (debug_kernel KE garbage) (with_debug b t m, (k, tty))) as [[m2 k2]|e2]; cbn in H; try done.
  - destruct H as [Hm Hk]. cbn in Hm, Hk. rewrite bind_Ok. cbn. by rewrite Hm, Hk.
  - by subst.
Qed.

Lemma Debugger_command b t m k tty : exists b' t' tty',
  Machine_Debugger KE garbage (with_debug b t m, (k, tty)) = Ok (with_debug b' t' m, (k, tty')) /\
  command (if String.eqb (stdin tty) "" then garbage else (fgets 79 (stdin tty)).1) (with_debug b t m)
    (mkTerminal (fgets 79 (stdin tty)).2 (stdout (print (print_d (totalTicks k) +:+ "> ") (print (DumpState m) tty)))) =
  (with_debug b' t' m, tty').
Proof.
  unfold Machine_Debugger. cbn [stdin print]. destruct (fgets 79 (stdin tty)) as [line rest]. cbn [fst snd].
  change (DumpState (with_debug b t m)) with (DumpState m).
  destruct (command_debug (if String.eqb (stdin tty) "" then garbage else line) b t m
    (mkTerminal rest (stdout (print (print_d (totalTicks k) +:+ "> ") (print (DumpState m) tty))))) as (b' & t' & E).
  rewrite E. by eexists _, _, _.
Qed.

Lemma Run_loop_debug n : forall b t m k tty,
  @Run_loop _ (debug_kernel KE garbage) n (with_debug b t m, (k, tty)) =
  (ws ← states n (m, k);
   let '(b', t', tty') := observe ws b t tty in
   let w := default (m, k) (last ws) in Ok (with_debug b' t' w.1, (w.2, tty'))).
Proof using handler_blind OneTick_blind.
  induction n as [|n IH]; intros b t m k tty; [reflexivity|].
  cbn [Run_loop states]. rewrite OneInstruction_debug.
  destruct (OneInstruction (m, k)) as [[m1 k1]|e]; [|reflexivity]. rewrite !bind_Ok. cbn [fst snd].
  change (@OneTick _ (debug_kernel KE garbage)) with (beside (@OneTick K KE)). unfold beside. cbn [fst snd].
  rewrite (OneTick_blind b t m1 k1). destruct (OneTick (m1, k1)) as [[m2 k2]|e]; [|reflexivity]. rewrite !bind_Ok. cbn [fst snd singleStep runUntilTime with_debug].
  change (@totalTicks _ (debug_kernel KE garbage) (k2, tty)) with (totalTicks k2).
  assert (Hlast : forall ws, default (m, k) (last ((m2, k2) :: ws)) = default (m2, k2) (last ws)).
  { intros ws. rewrite last_cons. by destruct (last ws). }
  destruct (b && (t <=? totalTicks k2)) eqn:Eb.
  - change (@Debugger _ (debug_kernel KE garbage)) with (Machine_Debugger KE garbage).
    destruct (Debugger_command b t m2 k2 tty) as (b' & t' & tty' & E1 & E2).
    rewrite E1, bind_Ok, IH. destruct (states n (m2, k2)) as [ws|e]; [|reflexivity]. rewrite !bind_Ok.
    rewrite Hlast. cbn [observe]. rewrite Eb. destruct (fgets 79 (stdin tty)) as [line rest]. cbn [fst snd] in E2.
    rewrite E2. reflexivity.
  - rewrite bind_Ok, IH. destruct (states n (m2, k2)) as [ws|e]; [|reflexivity]. rewrite !bind_Ok.
    rewrite Hlast. cbn [observe]. by rewrite Eb.
Qed.

Lemma Run_loop_plain n : forall m k, singleStep m = false ->
  Run_loop n (m, k) = (ws ← states n (m, k); Ok (default (m, k) (last ws))).
Proof using handler_blind OneTick_blind.
  induction n as [|n IH]; intros m k Hm; [reflexivity|].
  cbn [Run_loop states]. destruct (OneInstruction (m, k)) as [[m1 k1]|e] eqn:E1; [|reflexivity]. rewrite !bind_Ok.
  destruct (blind_keeps _ _ _ _ _ OneInstruction_blind E1) as [S1 _].
  destruct (OneTick (m1, k1)) as [[m2 k2]|e] eqn:E2; [|reflexivity]. rewrite !bind_Ok.
  destruct (blind_keeps _ _ _ _ _ OneTick_blind E2) as [S2 _].
  cbn [fst]. rewrite S2, S1, Hm. cbn [andb]. rewrite bind_Ok, IH by congruence.
  destruct (states n (m2, k2)) as [ws|e]; [|reflexivity]. rewrite !bind_Ok. rewrite last_cons. by destruct (last ws).
Qed.

End Runs.

(** Two commands: one instruction, then to the end; the rest of the input
    is not read. *)
Definition example_tty : Terminal := mkTerminal (NL +:+ "c" +:+ NL +:+ "rest") "".

Lemma example_session : match states no_kernel 5 (example_machine, tt) with
  | Ok ws => let '(b, t, tty) := observe no_kernel "" ws true 0 example_tty in (b, t, stdin tty) = (false, 0, "rest")
  | Err _ => False
  end.
Proof. vm_compute. reflexivity. Qed.

Lemma session_end (r : res (list (Machine * unit))) (ob : list (Machine * unit) -> bool * Z * Terminal) (w : Machine * unit) :
  match r with
  | Ok ws => let '(b, t, tty) := ob ws in (b, t, stdin tty) = (false, 0, "rest")
  | Err _ => False
  end ->
  exists m' out,
    (ws ← r; let '(b', t', tty') := ob ws in let w := default w (last ws) in Ok (with_debug b' t' w.1, (w.2, tty'))) =
      Ok (with_debug false 0 m', (tt, mkTerminal "rest" out)) /\
    (ws ← r; Ok (default w (last ws))) = Ok (m', tt).
Proof.
  destruct r as [ws|]; [|done]. rewrite !bind_Ok. destruct (ob ws) as [[b t] [inp out]]. cbn [stdin]. intros [= -> -> ->].
  destruct (default w (last ws)) as [m' []]. by exists m', out.
Qed.

