(* ===== verification/Isa.v ===== *)
(** * The MIPS architecture, and machine/mipssim.cc against it

    [isa] says what the MIPS R2000 manual says of the instructions that do
    not access memory: the effect on the registers and on the program
    counters, as functions of the operands and in plain arithmetic.  Cases
    the manual leaves open have no effect here ([None]).  [mipssim_quirk]
    lists where the simulator differs; everywhere else it implements [isa].
    Execute.v compares the older simulator with the same definition. *)

From stdpp Require Import base list numbers.
From S2P Require Import Prelude Arrays Machine Mips.

(** ** The architecture *)

Inductive effect :=
  | Write (r v : Z)                  (* a general register, HI or LO *)
  | WriteHiLo (hi lo : Z)
  | Goto (link target : option Z)    (* after the delay slot; link register *)
  | Raise (which : ExceptionType).

(** The value of a comparison. *)
Definition truth (b : bool) : Z := if b then 1 else 0.

(** Of registers rs and rt with the values [a] and [b], with HI and LO, and
    the delay slot at [npc].  [extra] is the sign-extended immediate, the
    shift amount, or the target of the jump. *)
Definition isa (i : Instruction) (a b hi lo npc : Z) : option effect :=
  let e := extra i in
  let checked r v := Some (if fits v then Write r v else Raise OverflowException) in
  let branch link (taken : bool) := Some (Goto link (if taken then Some (s32 (npc + 4 * e)) else None)) in
  let region := s32 (u32 npc / 2 ^ 28 * 2 ^ 28 + 4 * e) in
  match opCode i with
  | OP_ADD => checked (rd i) (a + b)
  | OP_ADDI => checked (rt i) (a + e)
  | OP_SUB => checked (rd i) (a - b)
  | OP_ADDU => Some (Write (rd i) (s32 (a + b)))
  | OP_ADDIU => Some (Write (rt i) (s32 (a + e)))
  | OP_SUBU => Some (Write (rd i) (s32 (a - b)))
  | OP_AND => Some (Write (rd i) (Z.land a b))
  | OP_OR => Some (Write (rd i) (Z.lor a b))
  | OP_XOR => Some (Write (rd i) (Z.lxor a b))
  | OP_NOR => Some (Write (rd i) (Z.lnot (Z.lor a b)))
  | OP_ANDI => Some (Write (rt i) (Z.land a (u16 e)))
  | OP_ORI => Some (Write (rt i) (Z.lor a (u16 e)))
  | OP_XORI => Some (Write (rt i) (Z.lxor a (u16 e)))
  | OP_LUI => Some (Write (rt i) (s32 (e * 2 ^ 16)))
  | OP_SLL => Some (Write (rd i) (s32 (b * 2 ^ e)))
  | OP_SRL => Some (Write (rd i) (s32 (u32 b / 2 ^ e)))
  | OP_SRA => Some (Write (rd i) (b / 2 ^ e))
  | OP_SLLV => Some (Write (rd i) (s32 (b * 2 ^ (a mod 32))))
  | OP_SRLV => Some (Write (rd i) (s32 (u32 b / 2 ^ (a mod 32))))
  | OP_SRAV => Some (Write (rd i) (b / 2 ^ (a mod 32)))
  | OP_SLT => Some (Write (rd i) (truth (a <? b)))
  | OP_SLTI => Some (Write (rt i) (truth (a <? e)))
  | OP_SLTU => Some (Write (rd i) (truth (u32 a <? u32 b)))
  | OP_SLTIU => Some (Write (rt i) (truth (u32 a <? u32 e)))
  | OP_MULT => Some (WriteHiLo (a * b / 2 ^ 32) (s32 (a * b)))
  | OP_MULTU => Some (WriteHiLo (s32 (u32 a * u32 b / 2 ^ 32)) (s32 (u32 a * u32 b)))
  | OP_DIV => if (b =? 0) || ((a =? - 2 ^ 31) && (b =? -1)) then None
              else Some (WriteHiLo (Z.rem a b) (Z.quot a b))
  | OP_DIVU => if b =? 0 then None else Some (WriteHiLo (s32 (u32 a mod u32 b)) (s32 (u32 a / u32 b)))
  | OP_MFHI => Some (Write (rd i) hi)
  | OP_MFLO => Some (Write (rd i) lo)
  | OP_MTHI => Some (Write HiReg a)
  | OP_MTLO => Some (Write LoReg a)
  | OP_BEQ => branch None (a =? b)
  | OP_BNE => branch None (negb (a =? b))
  | OP_BLEZ => branch None (a <=? 0)
  | OP_BGTZ => branch None (0 <? a)
  | OP_BLTZ => branch None (a <? 0)
  | OP_BGEZ => branch None (0 <=? a)
  | OP_BLTZAL => if rs i =? R31 then None else branch (Some R31) (a <? 0)
  | OP_BGEZAL => if rs i =? R31 then None else branch (Some R31) (0 <=? a)
  | OP_J => Some (Goto None (Some region))
  | OP_JAL => Some (Goto (Some R31) (Some region))
  | OP_JR => Some (Goto None (Some a))
  | OP_JALR => if rd i =? rs i then None else Some (Goto (Some (rd i)) (Some a))
  | OP_SYSCALL => Some (Raise SyscallException)
  | _ => None
  end.

(** What an effect leaves in register [r] (HI and LO are registers 32 and
    33), and where the program goes on after the delay slot. *)
Definition after (e : effect) (npc r old : Z) : Z :=
  match e with
  | Write r' v => if r =? r' then v else old
  | WriteHiLo hi lo => if r =? HiReg then hi else if r =? LoReg then lo else old
  | Goto (Some l) _ => if r =? l then s32 (npc + 4) else old
  | Goto None _ | Raise _ => old
  end.

Definition target (e : effect) (npc : Z) : Z :=
  match e with Goto _ (Some t) => t | _ => s32 (npc + 4) end.

(** ** The simulator *)

(** What mipssim.cc does for an effect [e] of the architecture: OR takes its
    first operand twice, the logical shifts to the right are arithmetic, and
    the jumps use the region of the instruction behind the delay slot. *)
Definition mipssim_does (i : Instruction) (a b npc : Z) (e : effect) : effect :=
  let region := s32 (u32 (npc + 4) / 2 ^ 28 * 2 ^ 28 + 4 * extra i) in
  match opCode i with
  | OP_OR => Write (rd i) a
  | OP_SRL => Write (rd i) (b / 2 ^ extra i)
  | OP_SRLV => Write (rd i) (b / 2 ^ (a mod 32))
  | OP_J => Goto None (Some region)
  | OP_JAL => Goto (Some R31) (Some region)
  | _ => e
  end.

(** When that is something else. *)
Definition mipssim_quirk (i : Instruction) (a b npc : Z) : bool :=
  match opCode i with
  | OP_OR => negb (Z.lor a b =? a)
  | OP_SRL => (b <? 0) && (0 <? extra i)
  | OP_SRLV => (b <? 0) && (0 <? a mod 32)
  | OP_J | OP_JAL => negb (u32 (npc + 4) / 2 ^ 28 =? u32 npc / 2 ^ 28)
  | _ => false
  end.

(** *** Arithmetic *)

Lemma mod32_range a : 0 <= a mod 32 < 32.
Proof. by apply Z.mod_pos_bound. Qed.

Lemma land_31 a : Z.land a 31 = a mod 32.
Proof. change 31 with (Z.ones 5). by rewrite Z.land_ones by lia. Qed.

Lemma land_65535 a : Z.land a 65535 = u16 a.
Proof. change 65535 with (Z.ones 16). by rewrite Z.land_ones by lia. Qed.

Lemma s32_add_s32_r a b : s32 (a + s32 b) = s32 (a + b).
Proof.
  apply u32_mod_eq. pose proof (u32_s32 b) as E. unfold u32 in *.
  by rewrite <-(Zplus_mod_idemp_r (s32 b)), E, Zplus_mod_idemp_r.
Qed.

Lemma add_index npc e : s32 (npc + IndexToAddr e) = s32 (npc + 4 * e).
Proof. unfold IndexToAddr. rewrite s32_add_s32_r, Z.shiftl_mul_pow2 by lia. f_equal. lia. Qed.

Lemma u32_neg b : in_s32 b -> b < 0 -> u32 b = b + 2 ^ 32.
Proof. unfold in_s32. intros. symmetry. apply (Z.mod_unique_pos _ _ (-1)); lia. Qed.

Lemma u32_pos b : in_s32 b -> 0 <= b -> u32 b = b.
Proof. unfold in_s32. intros. apply u32_id. unfold in_u32. lia. Qed.

(** The words of a product. *)
Lemma Mult_signed a b : in_s32 a -> in_s32 b -> Mult a b true = (a * b / 2 ^ 32, s32 (a * b)).
Proof.
  intros Ha Hb. destruct (Mult_correct a b Ha Hb) as [H _]. pose proof (Mult_range a b true) as [_ Hl].
  destruct (Mult a b true) as [hi lo]. cbn in Hl. pose proof (u32_range lo) as Hu. unfold in_u32 in Hu. f_equal.
  - apply (Z.div_unique_pos _ _ _ (u32 lo)); lia.
  - rewrite <-H, <-(s32_id lo Hl), <-(s32_u32 lo) at 1. apply u32_mod_eq. unfold u32. rewrite Z.mod_mod by lia.
    rewrite (Z.add_comm (hi * 2 ^ 32)), Z.mod_add, Z.mod_mod by lia. done.
Qed.

Lemma Mult_unsigned a b : in_s32 a -> in_s32 b ->
  Mult a b false = (s32 (u32 a * u32 b / 2 ^ 32), s32 (u32 a * u32 b)).
Proof.
  intros Ha Hb. destruct (Mult_correct a b Ha Hb) as [_ H]. pose proof (Mult_range a b false) as [Hh Hl].
  destruct (Mult a b false) as [hi lo]. cbn in Hh, Hl. pose proof (u32_range lo) as Hu. unfold in_u32 in Hu. f_equal.
  - rewrite <-(s32_id hi Hh), <-(s32_u32 hi). f_equal. apply (Z.div_unique_pos _ _ _ (u32 lo)); lia.
  - rewrite <-H, <-(s32_id lo Hl), <-(s32_u32 lo) at 1. apply u32_mod_eq. unfold u32. rewrite Z.mod_mod by lia.
    rewrite (Z.add_comm (hi mod 2 ^ 32 * 2 ^ 32)), Z.mod_add, Z.mod_mod by lia. done.
Qed.

(** The region of a jump. *)
Lemma land_region x : in_u32 x -> Z.land x 0xf0000000 = x / 2 ^ 28 * 2 ^ 28.
Proof.
  intros Hx. rewrite <-Z.shiftr_div_pow2, <-Z.shiftl_mul_pow2 by lia.
  change 0xf0000000 with (Z.shiftl (Z.ones 4) 28). apply Z.bits_inj'. intros k Hk.
  rewrite Z.land_spec, !Z.shiftl_spec by lia. destruct (Z.lt_ge_cases k 28).
  { rewrite !(Z.testbit_neg_r _ (k - 28)) by lia. apply andb_false_r. }
  rewrite Z.shiftr_spec by lia. replace (k - 28 + 28) with k by lia. destruct (Z.lt_ge_cases k 32).
  - by rewrite Z.ones_spec_low, andb_true_r by lia.
  - apply in_u32_iff in Hx. rewrite <-Hx, u32_land_ones, Z.land_spec, (Z.ones_spec_high 32 k), andb_false_r by lia. done.
Qed.

Lemma lor_low n q y : 0 <= n -> 0 <= y < 2 ^ n -> Z.lor (q * 2 ^ n) y = q * 2 ^ n + y.
Proof.
  intros Hn Hy. symmetry. apply Z.add_nocarry_lor. rewrite <-Z.shiftl_mul_pow2 by lia.
  apply Z.bits_inj'. intros k Hk. rewrite Z.land_spec, Z.bits_0. destruct (Z.lt_ge_cases k n).
  - by rewrite Z.shiftl_spec_low by lia.
  - destruct (Z.eq_dec y 0) as [->|]; [by rewrite Z.bits_0, andb_false_r|].
    rewrite (Z.bits_above_log2 y), andb_false_r; [done|lia|].
    apply Z.lt_le_trans with n; [|lia]. apply Z.log2_lt_pow2; lia.
Qed.

Lemma jump_region p e : 0 <= e < 2 ^ 26 ->
  s32 (Z.lor (Z.land (u32 p) 0xf0000000) (u32 (IndexToAddr e))) = s32 (u32 p / 2 ^ 28 * 2 ^ 28 + 4 * e).
Proof.
  intros He. rewrite land_region by apply u32_range. unfold IndexToAddr. rewrite u32_s32, Z.shiftl_mul_pow2 by lia.
  change (2 ^ 2) with 4. rewrite (u32_id (e * 4)) by (unfold in_u32; lia). rewrite lor_low by lia. f_equal. lia.
Qed.

(** The fields that the switch relies on. *)
Lemma Decode_jump w i : Decode w = Ok i -> opCode i = OP_J \/ opCode i = OP_JAL -> 0 <= extra i < 2 ^ 26.
Proof.
  unfold Decode. intros H Hj. apply bind_Ok_inv in H as ([o f] & Ho & H). cbn [fst snd] in H.
  apply bind_Ok_inv in H as (o' & Ho' & H). injection H as <-. cbn [opCode extra] in *.
  assert (f = JFMT) as ->.
  { apply aget_Ok_inv in Ho as [_ Ho]. destruct (decide (o = SPECIAL)); [|destruct (decide (o = BCOND))].
    - assert (Hall : Forall (fun x => x <> OP_J /\ x <> OP_JAL) specialTable) by (repeat (constructor; [done|]); constructor).
      apply aget_Ok_inv in Ho' as [_ Ho']. pose proof (Forall_lookup_1 _ _ _ _ Hall Ho') as Hn. cbn in Hn. tauto.
    - exfalso. injection Ho' as <-. revert Hj. clear. generalize (Z.land w 0x1f0000). intros z.
      destruct (z =? 0), (z =? 0x10000), (z =? 0x100000), (z =? 0x110000); by intros [].
    - injection Ho' as <-.
      assert (Hall : Forall (fun x => fst x = OP_J \/ fst x = OP_JAL -> snd x = JFMT) opTable).
      { repeat (constructor; [cbn; intros []; congruence|]). constructor. }
      exact (Forall_lookup_1 _ _ _ _ Hall Ho Hj). }
  cbn [Decode_extra]. change 0x3ffffff with (Z.ones 26). rewrite Z.land_ones by lia. by apply Z.mod_pos_bound.
Qed.

(** ** mipssim.cc performs the effects *)

Section Mipssim.
Context {K : Type} `{!KernelEntry K}.
Implicit Types (m : Machine) (k : K).

(** [m1] is [m] with the effect on the registers. *)
Definition affected (e : effect) (npc : Z) m m1 : Prop :=
  zlen (registers m1) = NumTotalRegs /\
  forall r v, aget (registers m) r = Ok v -> aget (registers m1) r = Ok (after e npc r v).

Lemma setr_affected r v m : zlen (registers m) = NumTotalRegs -> 0 <= r < NumTotalRegs ->
  exists m1, setr r v m = Ok m1 /\ zlen (registers m1) = NumTotalRegs /\
    forall j, aget (registers m1) j = if decide (r = j) then Ok v else aget (registers m) j.
Proof.
  intros Hl Hr. destruct (setr_ok' r v m Hl Hr) as (m1 & E & L). exists m1. split; [done|]. split; [done|].
  intros j. by rewrite (aget_set _ _ _ _ _ E).
Qed.

Lemma assign_affected r v m k pc npc : zlen (registers m) = NumTotalRegs -> 0 <= r < NumTotalRegs ->
  exists m1, assign r v (m, k) pc = Ok (Break (m1, k) pc 0 0) /\ affected (Write r v) npc m m1.
Proof.
  intros Hl Hr. destruct (setr_affected r v m Hl Hr) as (m1 & E & L & A). exists m1. unfold assign. cbn [fst snd]. rewrite E.
  split; [done|]. split; [done|]. intros j x Hj. rewrite A, Hj. cbn [after].
  destruct (Z.eqb_spec j r), (decide (r = j)); congruence.
Qed.

Lemma set_lo_hi_affected lo hi m k pc npc : zlen (registers m) = NumTotalRegs ->
  exists m1, set_lo_hi lo hi (m, k) pc = Ok (Break (m1, k) pc 0 0) /\ affected (WriteHiLo hi lo) npc m m1.
Proof.
  intros Hl. unfold set_lo_hi. cbn [fst snd].
  destruct (setr_affected LoReg lo m Hl) as (m1 & E1 & L1 & A1); [done|]. rewrite E1. cbn [mbind res_bind].
  destruct (setr_affected HiReg hi m1 L1) as (m2 & E2 & L2 & A2); [done|]. rewrite E2. cbn [mbind res_bind].
  exists m2. split; [done|]. split; [done|]. intros j x Hj. rewrite A2, A1, Hj. cbn [after].
  destruct (Z.eqb_spec j HiReg), (decide (HiReg = j)), (Z.eqb_spec j LoReg), (decide (LoReg = j)); congruence.
Qed.

Lemma link_affected r m k npc t : zlen (registers m) = NumTotalRegs -> 0 <= r < NumTotalRegs ->
  aget (registers m) NextPCReg = Ok npc ->
  exists m1, link r (m, k) = Ok (m1, k) /\ affected (Goto (Some r) t) npc m m1 /\
    forall j, j <> r -> aget (registers m1) j = aget (registers m) j.
Proof.
  intros Hl Hr Hn. unfold link, getr. cbn [fst snd]. rewrite Hn. cbn [mbind res_bind].
  destruct (setr_affected r (s32 (npc + 4)) m Hl Hr) as (m1 & E & L & A). exists m1. rewrite E.
  split; [done|]. split; [split; [done|]|].
  - intros j x Hj. rewrite A, Hj. cbn [after]. destruct (Z.eqb_spec j r), (decide (r = j)); congruence.
  - intros j Hj. rewrite A. by rewrite decide_False by congruence.
Qed.

(** A branch reads the delay slot after it has linked. *)
Lemma branch_affected i (taken : bool) m k npc : zlen (registers m) = NumTotalRegs -> aget (registers m) NextPCReg = Ok npc ->
  exists m1, branch_to taken i (s32 (npc + 4)) (m, k) =
      Ok (Break (m1, k) (target (Goto None (if taken then Some (s32 (npc + 4 * extra i)) else None)) npc) 0 0) /\
    affected (Goto None (if taken then Some (s32 (npc + 4 * extra i)) else None)) npc m m1.
Proof.
  intros Hl Hn. exists m. unfold branch_to, getr. cbn [fst]. rewrite Hn. cbn [mbind res_bind].
  rewrite add_index. split; [by destruct taken|]. by split.
Qed.

(** What the case of the switch does for an effect. *)
Definition performs (e : effect) (npc : Z) m k (o : res (outcome (K:=K))) : Prop :=
  match e with
  | Raise which => o = raise which 0 (m, k)
  | _ => exists m1, o = Ok (Break (m1, k) (target e npc) 0 0) /\ affected e npc m m1
  end.

Lemma performs_assign r v m k npc : zlen (registers m) = NumTotalRegs -> 0 <= r < NumTotalRegs ->
  performs (Write r v) npc m k (assign r v (m, k) (s32 (npc + 4))).
Proof. intros Hl Hr. by apply assign_affected. Qed.

Lemma performs_branch i (taken : bool) m k npc : zlen (registers m) = NumTotalRegs -> aget (registers m) NextPCReg = Ok npc ->
  performs (Goto None (if taken then Some (s32 (npc + 4 * extra i)) else None)) npc m k (branch_to taken i (s32 (npc + 4)) (m, k)).
Proof. intros Hl Hn. by apply branch_affected. Qed.

(** A branch that links reads its operand and the delay slot afterwards. *)
Lemma performs_link_branch i (test : Z -> bool) (taken : bool) r m k npc a :
  zlen (registers m) = NumTotalRegs -> aget (registers m) NextPCReg = Ok npc -> aget (registers m) (rs i) = Ok a ->
  0 <= r < 32 -> rs i <> r -> test a = taken ->
  performs (Goto (Some r) (if taken then Some (s32 (npc + 4 * extra i)) else None)) npc m k
    (link r (m, k) ≫= (fun w : Machine * K =>
     getr (rs i) (fst w) ≫= (fun a => branch_to (test a) i (s32 (npc + 4)) w))).
Proof.
  intros Hl Hn Ha Hr Hne <-. destruct (link_affected r m k npc (if test a then Some (s32 (npc + 4 * extra i)) else None) Hl) as (m1 & E & H1 & Hother);
    [unfold NumTotalRegs; lia|done|].
  rewrite E. cbn [mbind res_bind fst]. unfold getr. rewrite Hother, Ha by done. cbn [mbind res_bind].
  destruct (branch_affected i (test a) m1 k npc) as (m2 & E2 & H2); [apply H1|by rewrite Hother by (unfold NextPCReg; lia)|].
  rewrite E2. exists m2. split; [by destruct (test a)|]. split; [apply H2|]. intros j x Hj.
  destruct H1 as [_ H1]. destruct H2 as [_ H2]. specialize (H2 j _ (H1 j x Hj)). rewrite H2. by destruct (test a).
Qed.

Lemma fits_id x : fits x = true -> s32 x = x.
Proof. intros Hx. apply s32_id. unfold fits in Hx. unfold in_s32. lia. Qed.

Lemma performs_checked r x m k npc : zlen (registers m) = NumTotalRegs -> 0 <= r < NumTotalRegs ->
  performs (if fits x then Write r x else Raise OverflowException) npc m k
    (if negb (fits x) then raise OverflowException 0 (m, k) else assign r (s32 x) (m, k) (s32 (npc + 4))).
Proof.
  intros Hl Hr. destruct (fits x) eqn:E; [|done]. cbn [negb]. rewrite fits_id by done. by apply performs_assign.
Qed.

(** Writing HI and LO, in both orders. *)
Lemma performs_mult p hi lo m k npc : zlen (registers m) = NumTotalRegs -> p = (hi, lo) ->
  performs (WriteHiLo hi lo) npc m k
    (let '(hi, lo) := p in
     setr HiReg hi m ≫= (fun m => setr LoReg lo m ≫= (fun m => Ok (Break (m, k) (s32 (npc + 4)) 0 0)))).
Proof.
  intros Hl ->. destruct (setr_affected HiReg hi m Hl) as (m1 & E1 & L1 & A1); [done|]. rewrite E1. cbn [mbind res_bind].
  destruct (setr_affected LoReg lo m1 L1) as (m2 & E2 & L2 & A2); [done|]. rewrite E2. cbn [mbind res_bind].
  exists m2. split; [done|]. split; [done|]. intros j x Hj. rewrite A2, A1, Hj. cbn [after].
  destruct (Z.eqb_spec j HiReg), (decide (HiReg = j)), (Z.eqb_spec j LoReg), (decide (LoReg = j)); try congruence.
  subst j. done.
Qed.

Lemma performs_div i a b m k npc : zlen (registers m) = NumTotalRegs ->
  aget (registers m) (rs i) = Ok a -> aget (registers m) (rt i) = Ok b -> 0 <= rs i < 32 -> 0 <= rt i < 32 ->
  performs (WriteHiLo (Z.rem a b) (Z.quot a b)) npc m k
    (setr LoReg (Z.quot a b) m ≫= (fun m => aget (registers m) (rs i) ≫= (fun a => aget (registers m) (rt i) ≫= (fun b =>
       setr HiReg (Z.rem a b) m ≫= (fun m => Ok (Break (m, k) (s32 (npc + 4)) 0 0)))))).
Proof.
  intros Hl Ha Hb Hrs Hrt. destruct (setr_affected LoReg (Z.quot a b) m Hl) as (m1 & E1 & L1 & A1); [done|]. rewrite E1. cbn [mbind res_bind].
  rewrite !A1, !decide_False by (unfold LoReg; lia). rewrite Ha, Hb. cbn [mbind res_bind].
  destruct (setr_affected HiReg (Z.rem a b) m1 L1) as (m2 & E2 & L2 & A2); [done|]. rewrite E2. cbn [mbind res_bind].
  exists m2. split; [done|]. split; [done|]. intros j x Hj. rewrite A2, A1, Hj. cbn [after].
  destruct (Z.eqb_spec j HiReg), (decide (HiReg = j)), (Z.eqb_spec j LoReg), (decide (LoReg = j)); congruence.
Qed.

(** The jumps to a target that is known before linking. *)
Lemma performs_link_jump r t m k npc : zlen (registers m) = NumTotalRegs -> aget (registers m) NextPCReg = Ok npc -> 0 <= r < 32 ->
  performs (Goto (Some r) (Some t)) npc m k (link r (m, k) ≫= (fun w : Machine * K => Ok (Break w t 0 0))).
Proof.
  intros Hl Hn Hr. destruct (link_affected r m k npc (Some t) Hl) as (m1 & E & H1 & _); [unfold NumTotalRegs; lia|done|].
  rewrite E. by exists m1.
Qed.

Lemma mipssim_region npc e : 0 <= e < 2 ^ 26 ->
  s32 (Z.lor (Z.land (u32 (s32 (npc + 4))) 0xf0000000) (u32 (IndexToAddr e))) = s32 (u32 (npc + 4) / 2 ^ 28 * 2 ^ 28 + 4 * e).
Proof. intros He. by rewrite jump_region, u32_s32. Qed.

Ltac assigned := solve [apply performs_assign; [done|unfold NumTotalRegs, HiReg, LoReg; lia]].

Lemma mipssim_effect w i m k a b hi lo npc e :
  wf m -> Decode w = Ok i ->
  aget (registers m) (rs i) = Ok a -> aget (registers m) (rt i) = Ok b ->
  aget (registers m) HiReg = Ok hi -> aget (registers m) LoReg = Ok lo -> aget (registers m) NextPCReg = Ok npc ->
  isa i a b hi lo npc = Some e ->
  performs (mipssim_does i a b npc e) npc m k (execute i (s32 (npc + 4)) (m, k)).
Proof.
  intros Hwf Hd Ha Hb Hh Hl Hn He. pose proof (wf_nregs m Hwf) as Hlen.
  destruct (Decode_wf w) as (i' & Hd' & Hi & _). rewrite Hd in Hd'. injection Hd' as <-.
  pose proof (wf_rs i Hi). pose proof (wf_rt i Hi). pose proof (wf_rd i Hi). pose proof (wf_extra i Hi) as Hext. pose proof (wf_shift i Hi) as Hsh.
  assert (Hall : forall j x, aget (registers m) j = Ok x -> in_s32 x).
  { intros j x Hx. apply aget_Ok_inv in Hx as [_ Hx]. exact (Forall_lookup_1 _ _ _ _ (wf_ints m Hwf) Hx). }
  pose proof (Hall _ _ Ha) as Hain. pose proof (Hall _ _ Hb) as Hbin. pose proof (Hall _ _ Hn) as Hnin.
  unfold isa in He. unfold mipssim_does, execute.
  destruct (opCode i) eqn:Hop; try discriminate He.
  all: try (injection He as <-).
  all: unfold exec_add_and, exec_branch, exec_div, exec_jump, exec_load, exec_hilo_logic, exec_shift_set, exec_sub, exec_trap_xor; cbn [fst snd]; rewrite ?Hop; unfold getr.
  all: rewrite ?Ha, ?Hb; cbn [mbind res_bind].
  all: rewrite ?Hh, ?Hl; cbn [mbind res_bind]; cbv zeta.
  all: try (specialize (Hsh eq_refl)).
  all: try assigned.
  all: try (rewrite land_65535; assigned).
  all: try (rewrite ?sign_bit_spec, <-?(Z.leb_antisym a 0) by done; apply performs_branch; done).
  all: try (rewrite ?land_31, ?Z.shiftl_mul_pow2, ?Z.shiftr_div_pow2 by (pose proof (mod32_range a); lia); assigned).
  - rewrite add_overflow_test by done. apply performs_checked; [done|unfold NumTotalRegs; lia].
  - rewrite Z.lxor_comm, (Z.add_comm a), add_overflow_test by done. apply performs_checked; [done|unfold NumTotalRegs; lia].
  - destruct (Z.eqb_spec (rs i) R31); [done|]. injection He as <-.
    apply (performs_link_branch i (fun a => negb (sign_bit a)) (0 <=? a) _ _ _ _ a); try done.
    by rewrite sign_bit_spec, <-(Z.leb_antisym a 0) by done.
  - destruct (Z.eqb_spec (rs i) R31); [done|]. injection He as <-.
    apply (performs_link_branch i sign_bit (a <? 0) _ _ _ _ a); try done. by apply sign_bit_spec.
  - destruct (Z.eqb_spec b 0) as [|Hb0]; [done|]. cbn [orb] in He.
    destruct ((a =? - 2 ^ 31) && (b =? -1)); [done|]. injection He as <-. by apply performs_div.
  - destruct (Z.eqb_spec b 0) as [|Hb0]; [done|]. injection He as <-.
    rewrite (proj2 (Z.eqb_neq (u32 b) 0)); [by apply set_lo_hi_affected|].
    destruct (Z.lt_ge_cases b 0); [rewrite u32_neg by done|rewrite u32_pos by done]; unfold in_s32 in *; lia.
  - rewrite mipssim_region by (apply (Decode_jump w i Hd); auto). exists m. by repeat split.
  - rewrite mipssim_region by (apply (Decode_jump w i Hd); auto). apply performs_link_jump; try done; unfold R31; lia.
  - destruct (Z.eqb_spec (rd i) (rs i)) as [|Hne]; [done|]. injection He as <-.
    destruct (link_affected (rd i) m k npc (Some a) Hlen) as (m1 & E & Haff & Hother); [unfold NumTotalRegs; lia|done|].
    rewrite E. cbn [mbind res_bind fst]. rewrite Hother, Ha by done. by exists m1.
  - exists m. by repeat split.
  - by apply performs_mult; [|apply Mult_signed].
  - by apply performs_mult; [|apply Mult_unsigned].
  - rewrite Z.lor_diag. assigned.
  - rewrite sub_overflow_test by done. apply performs_checked; [done|unfold NumTotalRegs; lia].
  - done.
Qed.
Definition in_registers (e : effect) : Prop := match e with Write r _ | Goto (Some r) _ => 0 <= r < PCReg | _ => True end.

(** The end of OneInstruction, after an effect. *)
Lemma affected_finish m m1 d pc npc lr lv :
  wf m -> affected d npc m m1 -> in_registers d ->
  aget (registers m) PCReg = Ok pc -> aget (registers m) NextPCReg = Ok npc ->
  aget (registers m) LoadReg = Ok lr -> aget (registers m) LoadValueReg = Ok lv ->
  exists m2, finish m1 (target d npc) 0 0 = Ok m2 /\
    aget (registers m2) PrevPCReg = Ok pc /\ aget (registers m2) PCReg = Ok npc /\
    aget (registers m2) NextPCReg = Ok (target d npc) /\ aget (registers m2) LoadReg = Ok 0 /\
    aget (registers m2) 0 = Ok 0 /\
    forall r old, 0 < r < PCReg -> aget (registers m) r = Ok old ->
      aget (registers m2) r = Ok (if decide (r = lr) then lv else after d npc r old).
Proof.
  intros Hwf [Hlen Haf] Hd Hpc Hn Hlr Hlv.
  assert (Hother : forall r old, In r [LoadReg; LoadValueReg; PCReg; NextPCReg] -> after d npc r old = old).
  { intros j old Hj. unfold in_registers, LoadReg, LoadValueReg, PCReg, NextPCReg in *. cbn [In] in Hj.
    destruct d as [r v|h l|[l|] t|which]; cbn [after]; unfold HiReg, LoReg; try done.
    - destruct (Z.eqb_spec j r); [lia|done].
    - destruct (Z.eqb_spec j 32), (Z.eqb_spec j 33); lia || done.
    - destruct (Z.eqb_spec j l); [lia|done]. }
  destruct (wf_load m Hwf) as (lr' & Hlr' & Hrr). rewrite Hlr in Hlr'. injection Hlr' as <-.
  destruct (finish_regs m1 (target d npc) 0 0 lr lv pc npc) as (m2 & E & H1 & H2 & H3 & H4 & _ & H5 & H6); try done.
  1-4: match goal with |- aget _ ?r = Ok ?x => rewrite (Haf r x) by done; f_equal; apply Hother; cbn; tauto end.
  exists m2. do 6 (split; [done|]). intros r old Hr Ho. rewrite H6 by done. destruct (decide (r = lr)); [done|]. by apply Haf.
Qed.
End Mipssim.

(** *** The quirks *)

Lemma logical_shift b n : in_s32 b -> 0 <= n -> b / 2 ^ n = s32 (u32 b / 2 ^ n) <-> (b <? 0) && (0 <? n) = false.
Proof.
  intros Hb Hn. assert (Hp : 0 < 2 ^ n) by lia. destruct (Z.ltb_spec b 0) as [Hneg|Hpos].
  - destruct (Z.ltb_spec 0 n) as [Hn0|]; cbn [andb].
    + split; [|done]. intros E. exfalso. assert (b / 2 ^ n < 0) by (apply Z.div_lt_upper_bound; lia).
      assert (Hr : 0 <= u32 b / 2 ^ n < 2 ^ 31).
      { pose proof (u32_range b) as Hu. unfold in_u32 in Hu. split; [apply Z.div_pos; lia|]. apply Z.div_lt_upper_bound; [done|].
        assert (2 ^ 1 <= 2 ^ n) by (apply Z.pow_le_mono_r; lia). nia. }
      rewrite s32_id in E by (unfold in_s32; lia). lia.
    + assert (n = 0) as -> by lia. split; [done|]. intros _. by rewrite !Z.div_1_r, s32_u32, s32_id.
  - split; [done|]. intros _. rewrite (u32_pos b Hb Hpos), s32_id; [done|]. unfold in_s32 in *.
    pose proof (Z.div_pos b (2 ^ n)). split; [lia|apply Z.div_lt_upper_bound; nia].
Qed.

Lemma same_region p q e : in_u32 p -> in_u32 q -> 0 <= e < 2 ^ 26 ->
  s32 (p / 2 ^ 28 * 2 ^ 28 + 4 * e) = s32 (q / 2 ^ 28 * 2 ^ 28 + 4 * e) <-> p / 2 ^ 28 = q / 2 ^ 28.
Proof.
  unfold in_u32. intros Hp Hq He. split; [|by intros ->]. intros E. apply (f_equal u32) in E. rewrite !u32_s32 in E.
  assert (0 <= p / 2 ^ 28 < 2 ^ 4) by (split; [apply Z.div_pos; lia|apply Z.div_lt_upper_bound; lia]).
  assert (0 <= q / 2 ^ 28 < 2 ^ 4) by (split; [apply Z.div_pos; lia|apply Z.div_lt_upper_bound; lia]).
  rewrite !u32_id in E by (unfold in_u32; lia). lia.
Qed.

Lemma mipssim_quirk_iff w i a b hi lo npc e :
  Decode w = Ok i -> in_s32 b -> isa i a b hi lo npc = Some e ->
  mipssim_does i a b npc e = e <-> mipssim_quirk i a b npc = false.
Proof.
  intros Hd Hb He. destruct (Decode_wf w) as (i' & Hd' & Hi & _). rewrite Hd in Hd'. injection Hd' as <-.
  pose proof (wf_shift i Hi) as Hsh. pose proof (Decode_jump w i Hd) as Hj.
  unfold mipssim_does, mipssim_quirk. unfold isa in He. destruct (opCode i); try done; injection He as <-.
  - rewrite negb_false_iff, Z.eqb_eq, <-(same_region (u32 (npc + 4)) (u32 npc) (extra i)) by (apply u32_range || auto).
    split; [by intros [= E]|by intros ->].
  - rewrite negb_false_iff, Z.eqb_eq, <-(same_region (u32 (npc + 4)) (u32 npc) (extra i)) by (apply u32_range || auto).
    split; [by intros [= E]|by intros ->].
  - rewrite negb_false_iff, Z.eqb_eq. split; [by intros [= E]|by intros ->].
  - rewrite <-logical_shift by (done || (specialize (Hsh eq_refl); lia)). split; [by intros [= E]|by intros <-].
  - rewrite <-logical_shift by (done || apply mod32_range). split; [by intros [= E]|by intros <-].
Qed.

(** Effects are on general registers, HI and LO. *)
Lemma mipssim_registers i a b hi lo npc e : wf_instr i -> isa i a b hi lo npc = Some e ->
  in_registers (mipssim_does i a b npc e).
Proof.
  intros Hi He. pose proof (wf_rt i Hi). pose proof (wf_rd i Hi). unfold in_registers, PCReg.
  unfold mipssim_does. unfold isa in He. destruct (opCode i); try done; try (injection He as <-); try done;
    try (unfold HiReg, LoReg, R31; lia).
  1, 2, 8: destruct (fits _); lia || done.
  all: match type of He with (if ?c then _ else _) = _ => destruct c end; [done|]; injection He as <-; unfold R31; lia || done.
Qed.

(** ** Properties *)

(** C20: mipssim.cc implements the architecture, outside memory accesses:
    for every instruction word and all operands for which the manual gives
    an effect, the switch raises the exception of that effect, or reaches
    the end of OneInstruction with exactly those registers changed and with
    that target; then the value loaded by the instruction before reaches
    its register, the instruction in the delay slot is next, the target is
    behind it, no load is pending, and register 0 is 0.  The exceptions are
    OR, SRL, SRLV and jumps across 256 MB regions, where the effect is
    another one, and it is another one exactly if [mipssim_quirk] says so. *)
Theorem mipssim_implements_isa {K} `{!KernelEntry K} w i m (k : K) a b hi lo pc npc lr lv e :
  wf m -> Decode w = Ok i ->
  aget (registers m) (rs i) = Ok a -> aget (registers m) (rt i) = Ok b ->
  aget (registers m) HiReg = Ok hi -> aget (registers m) LoReg = Ok lo ->
  aget (registers m) PCReg = Ok pc -> aget (registers m) NextPCReg = Ok npc ->
  aget (registers m) LoadReg = Ok lr -> aget (registers m) LoadValueReg = Ok lv ->
  isa i a b hi lo npc = Some e ->
  let d := mipssim_does i a b npc e in
  (d = e <-> mipssim_quirk i a b npc = false) /\
  match d with
  | Raise which => execute i (s32 (npc + 4)) (m, k) = raise which 0 (m, k)
  | _ => exists m1 m2, execute i (s32 (npc + 4)) (m, k) = Ok (Break (m1, k) (target d npc) 0 0) /\
      finish m1 (target d npc) 0 0 = Ok m2 /\
      aget (registers m2) PrevPCReg = Ok pc /\ aget (registers m2) PCReg = Ok npc /\
      aget (registers m2) NextPCReg = Ok (target d npc) /\ aget (registers m2) LoadReg = Ok 0 /\
      aget (registers m2) 0 = Ok 0 /\
      forall r old, 0 < r < PCReg -> aget (registers m) r = Ok old ->
        aget (registers m2) r = Ok (if decide (r = lr) then lv else after d npc r old)
  end.
Proof.
  intros Hwf Hd Ha Hb Hh Hl Hpc Hn Hlr Hlv He d.
  assert (Hbin : in_s32 b).
  { apply aget_Ok_inv in Hb as [_ Hb]. exact (Forall_lookup_1 _ _ _ _ (wf_ints m Hwf) Hb). }
  split; [by apply (mipssim_quirk_iff w i a b hi lo npc e)|].
  pose proof (mipssim_effect w i m k a b hi lo npc e Hwf Hd Ha Hb Hh Hl Hn He) as H. fold d in H. unfold performs in H.
  assert (Hin : in_registers d).
  { destruct (Decode_wf w) as (i' & Hd' & Hi & _). rewrite Hd in Hd'. injection Hd' as <-. by apply (mipssim_registers i a b hi lo). }
  destruct d as [r v|h l|o t|which] eqn:Ed; try exact H; destruct H as (m1 & E & Haf); exists m1;
    (destruct (affected_finish m m1 _ pc npc lr lv Hwf Haf Hin) as (m2 & ?); [done..|by exists m2]).
Qed.

(** ADD r6, r4, r5 in the delay slot of nothing, with a load of register 7
    pending. *)
Lemma mipssim_implements_isa_witness :
  let m := set_registers example_machine
    (<[4%nat := 40]> (<[5%nat := 2]> (<[34%nat := 8]> (<[35%nat := 12]> (<[37%nat := 7]> (<[38%nat := 77]> (replicate 40 0))))))) in
  exists m1 m2, execute add_instr 16 (m, tt) = Ok (Break (m1, tt) 16 0 0) /\ finish m1 16 0 0 = Ok m2 /\
    aget (registers m2) 6 = Ok 42 /\ aget (registers m2) 7 = Ok 77.
Proof.
  intros m.
  destruct (mipssim_implements_isa 0x00853020 add_instr m tt 40 2 0 0 8 12 7 77 (Write 6 42)) as [_ H]; try reflexivity.
  - apply set_registers_wf; [apply example_wf|reflexivity| |].
    + repeat (apply Forall_insert); try (apply Forall_replicate); unfold in_s32; lia.
    + exists 7. split; [reflexivity|unfold NumGPRegs; lia].
  - destruct H as (m1 & m2 & H1 & H2 & _ & _ & _ & _ & _ & Hr). exists m1, m2. split; [exact H1|]. split; [exact H2|].
    split; [exact (Hr 6 0 ltac:(unfold PCReg; lia) eq_refl)|exact (Hr 7 0 ltac:(unfold PCReg; lia) eq_refl)].
Defined.
