(* ===== verification/Execute.v ===== *)
(** * bin/execute.c: the stand-alone MIPS interpreter

    The interpreter that the simulator of machine/mipssim.cc was made from,
    with the fields of an instruction (bin/instr.h), the accesses to memory
    (bin/int.h) and its system calls (bin/system.c).  It has neither
    delayed loads nor exceptions nor address translation; an instruction it
    does not know ends the process.  The calls of UNIX are a parameter. *)

From stdpp Require Import base list numbers.
From S2P Require Import Prelude Arrays Machine Mips Isa.

(** ** Fields *)

Module Instr.
Definition rd (i : Z) : Z := Z.land (Z.shiftr i 11) 0x1f.
Definition rt (i : Z) : Z := Z.land (Z.shiftr i 16) 0x1f.
Definition rs (i : Z) : Z := Z.land (Z.shiftr i 21) 0x1f.
Definition shamt (i : Z) : Z := Z.land (Z.shiftr i 6) 0x1f.
Definition immed (i : Z) : Z :=
  if negb (Z.land i 0x8000 =? 0) then Z.lor i (- 0x8000) else Z.land i 0x7fff.
End Instr.

(** ** State *)

Definition MEMSIZE : Z := 2 ^ 24.
Definition memoffset : Z := 0x10000000.

(** The calls of UNIX that system.c makes, with user addresses. *)
Inductive unix_call :=
  | U_read (fd addr n : Z) | U_write (fd addr n : Z) | U_open (path flags mode : Z)
  | U_lseek (fd offset whence : Z) | U_ioctl (fd request addr : Z) | U_fstat (fd buf : Z)
  | U_getpagesize.

Section Interpreter.
Context {OS : Type} (unix : unix_call -> list Z * OS -> Z * (list Z * OS)).

Record Interp := mkInterp { Reg : list Z; HI : Z; LO : Z; mem : list Z; os : OS }.

Definition get (r : Z) (x : Interp) : res Z := aget (Reg x) r.
Definition set (r v : Z) (x : Interp) : res Interp :=
  regs ← aset (Reg x) r v; Ok (mkInterp regs (HI x) (LO x) (mem x) (os x)).
Definition set_HI v x := mkInterp (Reg x) v (LO x) (mem x) (os x).
Definition set_LO v x := mkInterp (Reg x) (HI x) v (mem x) (os x).

(** ** Memory *)

Definition bytes_at (addr n : Z) (x : Interp) : res Z := le_val <$> bread (addr - memoffset) n (mem x).
Definition fetch (addr : Z) (x : Interp) : res Z := s32 <$> bytes_at addr 4 x.
Definition ifetch := fetch.
Definition sfetch (addr : Z) (x : Interp) : res Z := s16 <$> bytes_at addr 2 x.
Definition usfetch (addr : Z) (x : Interp) : res Z := bytes_at addr 2 x.
Definition cfetch (addr : Z) (x : Interp) : res Z := s8 <$> bytes_at addr 1 x.
Definition ucfetch (addr : Z) (x : Interp) : res Z := bytes_at addr 1 x.

Definition store_bytes (addr : Z) (bs : list Z) (x : Interp) : res Interp :=
  m ← bwrite (addr - memoffset) bs (mem x); Ok (mkInterp (Reg x) (HI x) (LO x) m (os x)).
Definition store (addr v : Z) : Interp -> res Interp := store_bytes addr (le_bytes 4 v).
Definition sstore (addr v : Z) : Interp -> res Interp := store_bytes addr (le_bytes 2 v).
Definition cstore (addr v : Z) : Interp -> res Interp := store_bytes addr (le_bytes 1 v).

(** ** System calls *)

(** [Reg[1] = call(...)] *)
Definition unix_to_r1 (c : unix_call) (x : Interp) : res Interp :=
  let '(r, (m, o)) := unix c (mem x, os x) in set 1 r (mkInterp (Reg x) (HI x) (LO x) m o).

Definition ioctl_request (o1 : Z) : Z :=
  let size := Z.land (Z.shiftr o1 16) 0x7f in
  let ioctl_group := s8 (Z.land (Z.shiftr o1 8) 0xff) in
  if (ioctl_group =? 116) && (size =? 8)
  then Z.lor (Z.land o1 (Z.lnot (Z.shiftl 0x7f 16))) (Z.shiftl 6 16) else o1.

Definition system_trap (x : Interp) : res Interp :=
  syscallno ← get 2 x; o0 ← get 4 x; o1 ← get 5 x; o2 ← get 6 x;
  match syscallno with
  | 1 => Err Exited
  | 3 => unix_to_r1 (U_read o0 o1 o2) x
  | 4 => unix_to_r1 (U_write o0 o1 o2) x
  | 5 => unix_to_r1 (U_open o0 o1 o2) x
  | 6 => set 1 0 x
  | 17 => set 1 (s32 (s32 (Z.quot o0 8192 + 1) * 8192)) x
  | 19 => unix_to_r1 (U_lseek o0 o1 o2) x
  | 54 => x ← unix_to_r1 (U_ioctl o0 (ioctl_request o1) o2) x; set 1 0 x
  | 62 => unix_to_r1 (U_fstat o1 o2) x
  | 64 => unix_to_r1 U_getpagesize x
  | _ => Err Exited
  end.

(** With Traptrace off, as it is by default. *)
Definition system_break := system_trap.

(** u(): the instruction is not implemented. *)
Definition u : res (Interp * Z) := Err Exited.

(** ** The switch

    A case yields the state and [npc]; a shift of the host uses the low
    five bits of the amount. *)

(** [Reg[r] = v; break;] *)
Definition assign (r v npc : Z) (x : Interp) : res (Interp * Z) := x ← set r v x; Ok (x, npc).

(** The two products of I_MULT and I_MULTU, in halves. *)
Definition mult_hi (t1 t2 : Z) : Z :=
  let t1l := Z.land t1 0xffff in
  let t1h := Z.land (Z.shiftr t1 16) 0xffff in
  let t2l := Z.land t2 0xffff in
  let t2h := Z.land (Z.shiftr t2 16) 0xffff in
  s32 (s32 (s32 (t1h * t2h) + Z.shiftr (s32 (t1h * t2l)) 16) + Z.shiftr (s32 (t2h * t1l)) 16).

Definition mult (t1 t2 : Z) : Z * Z :=
  let neg := false in
  let '(t1, neg) := if t1 <? 0 then (s32 (- t1), negb neg) else (t1, neg) in
  let '(t2, neg) := if t2 <? 0 then (s32 (- t2), negb neg) else (t2, neg) in
  let lo := s32 (t1 * t2) in
  let hi := mult_hi t1 t2 in
  if neg then
    let lo := Z.lnot lo in
    let hi := Z.lnot hi in
    let lo := s32 (lo + 1) in
    (if lo =? 0 then s32 (hi + 1) else hi, lo)
  else (hi, lo).

Definition multu (t1 t2 : Z) : Z * Z := (mult_hi t1 t2, s32 (t1 * t2)).

Definition set_hi_lo (p : Z * Z) (npc : Z) (x : Interp) : res (Interp * Z) := Ok (set_HI (fst p) (set_LO (snd p) x), npc).

(** case I_SPECIAL *)
Definition exec_special (instr xpc npc : Z) (x : Interp) : res (Interp * Z) :=
  let rs := Instr.rs instr in
  let rt := Instr.rt instr in
  let rd := Instr.rd instr in
  let shamt := Instr.shamt instr in
  match Z.land instr 0x3f with
  | 0 (* I_SLL *) => b ← get rt x; assign rd (s32 (Z.shiftl b shamt)) npc x
  | 2 (* I_SRL *) => b ← get rt x; assign rd (s32 (Z.shiftr (u32 b) shamt)) npc x
  | 3 (* I_SRA *) => b ← get rt x; assign rd (Z.shiftr b shamt) npc x
  | 4 (* I_SLLV *) => b ← get rt x; a ← get rs x; assign rd (s32 (Z.shiftl b (Z.land a 0x1f))) npc x
  | 6 (* I_SRLV *) => b ← get rt x; a ← get rs x; assign rd (s32 (Z.shiftr (u32 b) (Z.land a 0x1f))) npc x
  | 7 (* I_SRAV *) => b ← get rt x; a ← get rs x; assign rd (Z.shiftr b (Z.land a 0x1f)) npc x
  | 8 (* I_JR *) => a ← get rs x; Ok (x, a)
  | 9 (* I_JALR *) => a ← get rs x; x ← set rd (s32 (xpc + 8)) x; Ok (x, a)
  | 12 (* I_SYSCALL *) => x ← system_trap x; Ok (x, npc)
  | 13 (* I_BREAK *) => x ← system_break x; Ok (x, npc)
  | 16 (* I_MFHI *) => assign rd (HI x) npc x
  | 17 (* I_MTHI *) => a ← get rs x; Ok (set_HI a x, npc)
  | 18 (* I_MFLO *) => assign rd (LO x) npc x
  | 19 (* I_MTLO *) => a ← get rs x; Ok (set_LO a x, npc)
  | 24 (* I_MULT *) => a ← get rs x; b ← get rt x; set_hi_lo (mult a b) npc x
  | 25 (* I_MULTU *) => a ← get rs x; b ← get rt x; set_hi_lo (multu a b) npc x
  | 26 (* I_DIV *) =>
      a ← get rs x; b ← get rt x;
      if (b =? 0) || ((a =? - 2 ^ 31) && (b =? -1)) then Err HostTrap
      else set_hi_lo (Z.rem a b, Z.quot a b) npc x
  | 27 (* I_DIVU *) =>
      a ← get rs x; b ← get rt x;
      if u32 b =? 0 then Err HostTrap
      else set_hi_lo (s32 (u32 a mod u32 b), s32 (u32 a / u32 b)) npc x
  | 32 (* I_ADD *) | 33 (* I_ADDU *) => a ← get rs x; b ← get rt x; assign rd (s32 (a + b)) npc x
  | 34 (* I_SUB *) | 35 (* I_SUBU *) => a ← get rs x; b ← get rt x; assign rd (s32 (a - b)) npc x
  | 36 (* I_AND *) => a ← get rs x; b ← get rt x; assign rd (Z.land a b) npc x
  | 37 (* I_OR *) => a ← get rs x; b ← get rt x; assign rd (Z.lor a b) npc x
  | 38 (* I_XOR *) => a ← get rs x; b ← get rt x; assign rd (Z.lxor a b) npc x
  | 39 (* I_NOR *) => a ← get rs x; b ← get rt x; assign rd (Z.lnot (Z.lor a b)) npc x
  | 42 (* I_SLT *) => a ← get rs x; b ← get rt x; assign rd (truth (a <? b)) npc x
  | 43 (* I_SLTU *) => a ← get rs x; b ← get rt x; assign rd (truth (u32 a <? u32 b)) npc x
  | _ => u
  end.

(** [if (taken) npc = xpc + 4 + (immed(instr) << 2);] *)
Definition branch (taken : bool) (instr xpc npc : Z) (x : Interp) : res (Interp * Z) :=
  Ok (x, if taken then s32 (s32 (xpc + 4) + s32 (Z.shiftl (Instr.immed instr) 2)) else npc).

(** case I_BCOND; the linking ones set Reg[31] first. *)
Definition exec_bcond (instr xpc npc : Z) (x : Interp) : res (Interp * Z) :=
  let rs := Instr.rs instr in
  match Instr.rt instr with
  | 0 (* I_BLTZ *) => a ← get rs x; branch (a <? 0) instr xpc npc x
  | 1 (* I_BGEZ *) => a ← get rs x; branch (0 <=? a) instr xpc npc x
  | 16 (* I_BLTZAL *) => x ← set 31 (s32 (xpc + 8)) x; a ← get rs x; branch (a <? 0) instr xpc npc x
  | 17 (* I_BGEZAL *) => x ← set 31 (s32 (xpc + 8)) x; a ← get rs x; branch (0 <=? a) instr xpc npc x
  | _ => u
  end.

Definition jump_target (instr xpc : Z) : Z :=
  s32 (Z.lor (Z.land (u32 xpc) 0xf0000000) (Z.shiftl (Z.land instr 0x03ffffff) 2)).

(** [Reg[rs(instr)] + immed(instr)] *)
Definition address (instr : Z) (x : Interp) : res Z :=
  a ← get (Instr.rs instr) x; Ok (s32 (a + Instr.immed instr)).

(** The other cases, up to the loads and stores. *)
Definition exec_immediate (op instr xpc npc : Z) (x : Interp) : res (Interp * Z) :=
  let rs := Instr.rs instr in
  let rt := Instr.rt instr in
  let immed := Instr.immed instr in
  match op with
  | 2 (* I_J *) => Ok (x, jump_target instr xpc)
  | 3 (* I_JAL *) => x ← set 31 (s32 (xpc + 8)) x; Ok (x, jump_target instr xpc)
  | 4 (* I_BEQ *) => a ← get rs x; b ← get rt x; branch (a =? b) instr xpc npc x
  | 5 (* I_BNE *) => a ← get rs x; b ← get rt x; branch (negb (a =? b)) instr xpc npc x
  | 6 (* I_BLEZ *) => a ← get rs x; branch (a <=? 0) instr xpc npc x
  | 7 (* I_BGTZ *) => a ← get rs x; branch (0 <? a) instr xpc npc x
  | 8 (* I_ADDI *) | 9 (* I_ADDIU *) => a ← get rs x; assign rt (s32 (a + immed)) npc x
  | 10 (* I_SLTI *) => a ← get rs x; assign rt (truth (a <? immed)) npc x
  | 11 (* I_SLTIU *) => a ← get rs x; assign rt (truth (u32 a <? u32 immed)) npc x
  | 12 (* I_ANDI *) => a ← get rs x; assign rt (Z.land a immed) npc x
  | 13 (* I_ORI *) => a ← get rs x; assign rt (Z.lor a immed) npc x
  | 14 (* I_XORI *) => a ← get rs x; assign rt (Z.lxor a immed) npc x
  | 15 (* I_LUI *) => assign rt (s32 (Z.shiftl instr 16)) npc x
  | _ => u
  end.

(** Loads and stores; the rest is not implemented. *)
Definition exec_memory (op instr npc : Z) (x : Interp) : res (Interp * Z) :=
  let rt := Instr.rt instr in
  match op with
  | 32 (* I_LB *) => i ← address instr x; v ← cfetch i x; assign rt v npc x
  | 33 (* I_LH *) => i ← address instr x; v ← sfetch i x; assign rt v npc x
  | 34 (* I_LWL *) =>
      i ← address instr x;
      old ← get rt x;
      x ← set rt (Z.land old (Z.shiftr (-1) (8 * Z.land (- i) 0x03))) x;
      old ← get rt x; v ← fetch (Z.land i (- 4)) x;
      assign rt (Z.lor old (s32 (Z.shiftl v (8 * Z.land i 0x03)))) npc x
  | 35 (* I_LW *) => i ← address instr x; v ← fetch i x; assign rt v npc x
  | 36 (* I_LBU *) => i ← address instr x; v ← ucfetch i x; assign rt v npc x
  | 37 (* I_LHU *) => i ← address instr x; v ← usfetch i x; assign rt v npc x
  | 38 (* I_LWR *) =>
      i ← address instr x;
      old ← get rt x;
      x ← set rt (Z.land old (s32 (Z.shiftl (-1) (8 * Z.land i 0x03)))) x;
      x ← (if Z.land i 0x03 =? 0 then set rt 0 x else Ok x);
      old ← get rt x; v ← fetch (Z.land i (- 4)) x;
      assign rt (Z.lor old (Z.shiftr v (8 * Z.land (- i) 0x03))) npc x
  | 40 (* I_SB *) => i ← address instr x; v ← get rt x; x ← cstore i v x; Ok (x, npc)
  | 41 (* I_SH *) => i ← address instr x; v ← get rt x; x ← sstore i v x; Ok (x, npc)
  | 43 (* I_SW *) => i ← address instr x; v ← get rt x; x ← store i v x; Ok (x, npc)
  | _ => u
  end.

Definition exec (instr xpc npc : Z) (x : Interp) : res (Interp * Z) :=
  let op := Z.land (Z.shiftr instr 26) 0x3f in
  if op =? 0 then exec_special instr xpc npc x
  else if op =? 1 then exec_bcond instr xpc npc x
  else if op <? 16 then exec_immediate op instr xpc npc x
  else exec_memory op instr npc x.

(** ** The program *)

(** One turn of the loop, from (state, pc, npc). *)
Definition turn (s : Interp * Z * Z) : res (Interp * Z * Z) :=
  let '(x, xpc, pc) := s in
  let npc := s32 (pc + 4) in
  instr ← ifetch xpc x;
  x ← set 0 0 x;
  if instr =? 0 then Ok (x, pc, npc)
  else r ← exec instr xpc npc x; let '(x, npc) := r in Ok (x, pc, npc).

Fixpoint turns (n : nat) (s : Interp * Z * Z) : res (Interp * Z * Z) :=
  match n with O => Ok s | S n => s ← turn s; turns n s end.

(** strcpy of the arguments to [ai], their addresses to [aci]. *)
Fixpoint store_args (argv : list (list Z)) (aci ai : Z) (x : Interp) : res Interp :=
  match argv with
  | [] => Ok x
  | arg :: argv =>
      x ← store_bytes ai (arg ++ [0]) x;
      x ← store aci ai x;
      store_args argv (aci + 4) (ai + zlen arg + 1) x
  end.

(** [n] turns of the endless loop. *)
Definition runprogram (startpc : Z) (argv : list (list Z)) (n : nat) (x : Interp) : res (Interp * Z * Z) :=
  let i := MEMSIZE - 1024 + memoffset in
  x ← set 29 i x;
  x ← store i (zlen argv) x;
  x ← store_args argv (i + 4) (i + 4 + 32) x;
  turns n (x, startpc, s32 (startpc + 4)).

End Interpreter.
Arguments Interp : clear implicits.

(** [if ((j = (i & mask)) != 0) { i = j; l += n; }] *)
Definition ilog2_test (mask n : Z) (p : Z * Z) : Z * Z :=
  let '(i, l) := p in let j := Z.land (u32 i) mask in if negb (j =? 0) then (j, l + n) else (i, l).

Definition ilog2 (i : Z) : Z :=
  if i =? 0 then 0
  else snd (ilog2_test 0xaaaaaaaa 1 (ilog2_test 0xcccccccc 2 (ilog2_test 0xf0f0f0f0 4
         (ilog2_test 0xff00ff00 8 (ilog2_test 0xffff0000 16 (i, 1)))))).

(** ** The interpreter against the architecture *)

(** What it does for an effect [e] of the architecture: no exception on
    overflow, immediates of the logical instructions sign-extended, a high
    word without the carries, the region of the jump itself. *)
Definition execute_does (i : Instruction) (a b pc : Z) (e : effect) : effect :=
  let region := s32 (u32 pc / 2 ^ 28 * 2 ^ 28 + 4 * extra i) in
  match opCode i with
  | OP_ADD => Write (Mips.rd i) (s32 (a + b))
  | OP_ADDI => Write (Mips.rt i) (s32 (a + extra i))
  | OP_SUB => Write (Mips.rd i) (s32 (a - b))
  | OP_ANDI => Write (Mips.rt i) (Z.land a (extra i))
  | OP_ORI => Write (Mips.rt i) (Z.lor a (extra i))
  | OP_XORI => Write (Mips.rt i) (Z.lxor a (extra i))
  | OP_MULT => WriteHiLo (fst (mult a b)) (s32 (a * b))
  | OP_MULTU => WriteHiLo (mult_hi a b) (s32 (a * b))
  | OP_J => Goto None (Some region)
  | OP_JAL => Goto (Some R31) (Some region)
  | _ => e
  end.

Definition execute_quirk (i : Instruction) (a b pc npc : Z) : bool :=
  match opCode i with
  | OP_ADD => negb (fits (a + b))
  | OP_ADDI => negb (fits (a + extra i))
  | OP_SUB => negb (fits (a - b))
  | OP_ANDI => negb (Z.land a (extra i) =? Z.land a (u16 (extra i)))
  | OP_ORI => negb (Z.lor a (extra i) =? Z.lor a (u16 (extra i)))
  | OP_XORI => negb (Z.lxor a (extra i) =? Z.lxor a (u16 (extra i)))
  | OP_MULT => negb (fst (mult a b) =? a * b / 2 ^ 32)
  | OP_MULTU => negb (mult_hi a b =? s32 (u32 a * u32 b / 2 ^ 32))
  | OP_J | OP_JAL => negb (u32 npc / 2 ^ 28 =? u32 pc / 2 ^ 28)
  | _ => false
  end.

(** *** The fields of an instruction *)

Lemma field_u32 z n w k : Z.ones w = k -> 0 <= n -> 0 <= w -> n + w <= 32 ->
  Z.land (Z.shiftr (u32 z) n) k = Z.land (Z.shiftr z n) k.
Proof.
  intros <- Hn Hw H. apply Z.bits_inj'. intros j Hj. rewrite !Z.land_spec, !Z.shiftr_spec by done.
  destruct (Z.lt_ge_cases j w).
  - rewrite u32_land_ones, Z.land_spec, (Z.ones_spec_low 32) by lia. by rewrite andb_true_r.
  - by rewrite Z.ones_spec_high, !andb_false_r by lia.
Qed.

Lemma field_u32_0 z w k : Z.ones w = k -> 0 <= w <= 32 -> Z.land (u32 z) k = Z.land z k.
Proof. intros Hk Hw. pose proof (field_u32 z 0 w k Hk ltac:(lia) ltac:(lia) ltac:(lia)) as H. by rewrite !Z.shiftr_0_r in H. Qed.

Lemma land_field z n k : 0 <= n -> Z.land (Z.shiftr z n) k * 2 ^ n = Z.land z (Z.shiftl k n).
Proof.
  intros Hn. rewrite <-Z.shiftl_mul_pow2 by done. apply Z.bits_inj'. intros j Hj.
  rewrite Z.shiftl_spec, !Z.land_spec, Z.shiftl_spec by done. destruct (Z.lt_ge_cases j n).
  - by rewrite !(Z.testbit_neg_r _ (j - n)), !andb_false_r by lia.
  - rewrite Z.shiftr_spec by lia. by rewrite Z.sub_add.
Qed.

Lemma immed_s16 z : Instr.immed z = s16 z.
Proof.
  unfold Instr.immed, s16. change 0x8000 with (2 ^ 15). rewrite land_bit, Z.testbit_eqb by lia.
  change 0x7fff with (Z.ones 15). rewrite Z.land_ones by lia.
  change (-32768) with (- 2 ^ 15).
  assert (Hl : Z.lor z (- 2 ^ 15) = z mod 2 ^ 15 - 2 ^ 15).
  { rewrite <-(Z.lnot_involutive (Z.lor _ _)), Z.lnot_lor. change (Z.lnot (- 2 ^ 15)) with (Z.ones 15).
    rewrite Z.land_ones by lia. unfold Z.lnot. Z.to_euclidean_division_equations. lia. }
  rewrite Hl. destruct (Z.eqb_spec (z / 2 ^ 15 mod 2) 1).
  - change (negb (1 * 2 ^ 15 =? 0)) with true. cbn iota. Z.to_euclidean_division_equations; lia.
  - change (negb (0 * 2 ^ 15 =? 0)) with false. cbn iota. Z.to_euclidean_division_equations; lia.
Qed.

Lemma Decode_extra_immed z : Decode_extra IFMT (u32 z) = Instr.immed z.
Proof.
  rewrite immed_s16. pose proof (extra_IFMT (u32 z / 2 ^ 16) (s16 z)) as H. rewrite <-H.
  - f_equal. unfold u32, u16, s16. Z.to_euclidean_division_equations. lia.
  - unfold s16. Z.to_euclidean_division_equations. lia.
Qed.

(** The decoded instruction, in the terms of the interpreter. *)
Lemma Decode_fields z i : Decode (u32 z) = Ok i ->
  Mips.rs i = Instr.rs z /\ Mips.rt i = Instr.rt z /\ Mips.rd i = Instr.rd z /\
  exists o f, aget opTable (Z.land (Z.shiftr z 26) 0x3f) = Ok (o, f) /\ extra i = Decode_extra f (u32 z) /\
    (if decide (o = SPECIAL) then aget specialTable (Z.land z 0x3f) = Ok (opCode i)
     else if decide (o = BCOND) then
       opCode i = (if Instr.rt z =? 0 then OP_BLTZ else if Instr.rt z =? 1 then OP_BGEZ
                   else if Instr.rt z =? 16 then OP_BLTZAL else if Instr.rt z =? 17 then OP_BGEZAL else OP_UNIMP)
     else opCode i = o).
Proof.
  unfold Decode. rewrite !(field_u32 z _ 5 31), (field_u32 z 26 6 63), (field_u32_0 z 6 63) by (done || lia).
  intros H. apply bind_Ok_inv in H as ([o f] & Ho & H). cbn [fst snd] in H.
  apply bind_Ok_inv in H as (o' & Ho' & H). injection H as <-. do 3 (split; [done|]).
  exists o, f. split; [done|]. split; [done|]. cbn [opCode].
  destruct (decide (o = SPECIAL)); [done|]. destruct (decide (o = BCOND)); [|congruence].
  injection Ho' as <-. 
  change 0x1f0000 with (Z.shiftl 31 16). rewrite <-(land_field (u32 z) 16 31), (field_u32 z 16 5 31) by (done || lia).
  fold (Instr.rt z). pose proof (land_ones_range (Z.shiftr z 16) 5 31 eq_refl ltac:(lia)) as Hr. fold (Instr.rt z) in Hr.
  destruct (Z.eqb_spec (Instr.rt z * 2 ^ 16) 0), (Z.eqb_spec (Instr.rt z) 0); try lia; [done|].
  destruct (Z.eqb_spec (Instr.rt z * 2 ^ 16) 0x10000), (Z.eqb_spec (Instr.rt z) 1); try lia; [done|].
  destruct (Z.eqb_spec (Instr.rt z * 2 ^ 16) 0x100000), (Z.eqb_spec (Instr.rt z) 16); try lia; [done|].
  destruct (Z.eqb_spec (Instr.rt z * 2 ^ 16) 0x110000), (Z.eqb_spec (Instr.rt z) 17); try lia; done.
Qed.

(** The 64 values of a field. *)
Ltac cases f := destruct f as [|?|?]; [|repeat match goal with p : positive |- _ => destruct p; try (exfalso; lia) end|exfalso; lia].

(** *** Effects on the interpreter *)

Section Effects.
Context {OS : Type} (unix : unix_call -> list Z * OS -> Z * (list Z * OS)).
Implicit Types (x : Interp OS).

Record x_affected (e : effect) (npc : Z) x x' : Prop := {
  xa_length : zlen (Reg x') = 32;
  xa_regs : forall r v, aget (Reg x) r = Ok v -> aget (Reg x') r = Ok (after e npc r v);
  xa_HI : HI x' = after e npc HiReg (HI x);
  xa_LO : LO x' = after e npc LoReg (LO x);
  xa_mem : mem x' = mem x;
  xa_os : os x' = os x
}.

Definition x_performs (e : effect) (npc : Z) x (o : res (Interp OS * Z)) : Prop :=
  exists x', o = Ok (x', target e npc) /\ x_affected e npc x x'.

Lemma set_affected r v e npc x : zlen (Reg x) = 32 -> 0 <= r < 32 ->
  (forall j old, after e npc j old = if j =? r then v else old) ->
  exists x', set r v x = Ok x' /\ x_affected e npc x x' /\ forall j, j <> r -> aget (Reg x') j = aget (Reg x) j.
Proof.
  intros Hl Hr He. unfold set. rewrite aset_in_range by lia. cbn [mbind res_bind]. eexists. split; [done|]. split; [|intros j Hj; cbn; by rewrite aget_insert_ne by lia].
  split; cbn [Reg HI LO mem os]; [by rewrite zlen_insert| | | |done|done].
  - intros j old Hj. rewrite He. destruct (Z.eqb_spec j r) as [->|]; [apply aget_insert_eq; lia|by rewrite aget_insert_ne by lia].
  - rewrite He, (proj2 (Z.eqb_neq HiReg r)); [done|unfold HiReg; lia].
  - rewrite He, (proj2 (Z.eqb_neq LoReg r)); [done|unfold LoReg; lia].
Qed.

Lemma x_assign r v npc x : zlen (Reg x) = 32 -> 0 <= r < 32 -> x_performs (Write r v) npc x (assign r v (s32 (npc + 4)) x).
Proof.
  intros Hl Hr. destruct (set_affected r v (Write r v) npc x Hl Hr) as (x' & E & H & _); [done|].
  unfold assign. rewrite E. by exists x'.
Qed.

Lemma x_hi_lo hi lo npc x : zlen (Reg x) = 32 -> x_performs (WriteHiLo hi lo) npc x (set_hi_lo (hi, lo) (s32 (npc + 4)) x).
Proof.
  intros Hl. eexists. split; [done|]. split; try done. intros j v Hj. cbn in Hj. apply aget_Ok_inv in Hj as Hr. cbn [after].
  destruct (Z.eqb_spec j HiReg), (Z.eqb_spec j LoReg); unfold HiReg, LoReg in *; lia || done.
Qed.

Lemma x_mthi v npc x : zlen (Reg x) = 32 -> x_performs (Write HiReg v) npc x (Ok (set_HI v x, s32 (npc + 4))).
Proof.
  intros Hl. eexists. split; [done|]. split; try done. intros j w Hj. apply aget_Ok_inv in Hj as Hr. cbn [after].
  destruct (Z.eqb_spec j HiReg); unfold HiReg in *; lia || done.
Qed.

Lemma x_mtlo v npc x : zlen (Reg x) = 32 -> x_performs (Write LoReg v) npc x (Ok (set_LO v x, s32 (npc + 4))).
Proof.
  intros Hl. eexists. split; [done|]. split; try done. intros j w Hj. apply aget_Ok_inv in Hj as Hr. cbn [after].
  destruct (Z.eqb_spec j LoReg); unfold LoReg in *; lia || done.
Qed.

Lemma x_goto t npc x : zlen (Reg x) = 32 -> x_performs (Goto None t) npc x (Ok (x, target (Goto None t) npc)).
Proof. intros Hl. exists x. by split. Qed.

Lemma branch_target xpc instr : s32 (s32 (xpc + 4) + s32 (Z.shiftl (Instr.immed instr) 2)) = s32 (s32 (xpc + 4) + 4 * Instr.immed instr).
Proof. rewrite s32_add_s32_r, Z.shiftl_mul_pow2 by lia. f_equal. lia. Qed.

Lemma link_value xpc : s32 (s32 (xpc + 4) + 4) = s32 (xpc + 8).
Proof. rewrite (Z.add_comm (s32 _)), s32_add_s32_r. f_equal. lia. Qed.

Lemma x_branch (taken : bool) instr xpc x : zlen (Reg x) = 32 ->
  x_performs (Goto None (if taken then Some (s32 (s32 (xpc + 4) + 4 * Instr.immed instr)) else None)) (s32 (xpc + 4)) x
    (branch taken instr xpc (s32 (s32 (xpc + 4) + 4)) x).
Proof.
  intros Hl. unfold branch. rewrite branch_target. exists x. split; [by destruct taken|]. by split.
Qed.

(** Linking, and going on from there. *)
Lemma x_link r t xpc x (f : Interp OS -> res (Interp OS * Z)) : zlen (Reg x) = 32 -> 0 <= r < 32 ->
  (forall x', (forall j, j <> r -> aget (Reg x') j = aget (Reg x) j) -> f x' = Ok (x', target (Goto (Some r) t) (s32 (xpc + 4)))) ->
  x_performs (Goto (Some r) t) (s32 (xpc + 4)) x (set r (s32 (xpc + 8)) x ≫= f).
Proof.
  intros Hl Hr Hf. destruct (set_affected r (s32 (xpc + 8)) (Goto (Some r) t) (s32 (xpc + 4)) x Hl Hr) as (x' & E & H & Ho).
  { intros j old. cbn [after]. by rewrite link_value. }
  rewrite E. cbn [mbind res_bind]. rewrite Hf by done. by exists x'.
Qed.

Lemma x_region instr pc : s32 (Z.lor (Z.land (u32 pc) 0xf0000000) (Z.shiftl (Z.land instr 0x03ffffff) 2)) =
  s32 (u32 pc / 2 ^ 28 * 2 ^ 28 + 4 * Z.land instr 0x03ffffff).
Proof.
  pose proof (land_ones_range instr 26 0x03ffffff eq_refl ltac:(lia)) as H.
  rewrite land_region by apply u32_range. rewrite Z.shiftl_mul_pow2, lor_low by lia. f_equal. lia.
Qed.

Lemma s32_mul_l a b : s32 (s32 a * b) = s32 (a * b).
Proof.
  apply u32_mod_eq. pose proof (u32_s32 a) as E. unfold u32 in *.
  by rewrite <-(Zmult_mod_idemp_l (s32 a)), E, Zmult_mod_idemp_l.
Qed.

Lemma s32_opp z : s32 (- s32 z) = s32 (- z).
Proof. rewrite <-(Z.mul_1_r (s32 z)), <-Z.mul_opp_r, s32_mul_l. f_equal. lia. Qed.

Lemma snd_mult a b : snd (mult a b) = s32 (a * b).
Proof.
  assert (Hneg : forall p, s32 (Z.lnot (s32 p) + 1) = s32 (- p)).
  { intros p. replace (Z.lnot (s32 p) + 1) with (- s32 p) by (unfold Z.lnot; lia). apply s32_opp. }
  unfold mult. destruct (a <? 0), (b <? 0); cbn [negb snd]; rewrite ?Hneg.
  - rewrite s32_mul_l, Z.mul_comm, s32_mul_l. f_equal. lia.
  - rewrite <-Z.mul_opp_r, s32_mul_l. f_equal. lia.
  - rewrite <-Z.mul_opp_l, Z.mul_comm, s32_mul_l. f_equal. lia.
  - done.
Qed.

(** *** The cases *)

Ltac x_assigned := solve [apply x_assign; [done|lia]].

Lemma special_effect i instr xpc x a b e :
  zlen (Reg x) = 32 -> in_s32 instr -> aget specialTable (Z.land instr 0x3f) = Ok (opCode i) ->
  Mips.rs i = Instr.rs instr -> Mips.rt i = Instr.rt instr -> Mips.rd i = Instr.rd instr -> extra i = Instr.shamt instr ->
  aget (Reg x) (Instr.rs instr) = Ok a -> aget (Reg x) (Instr.rt instr) = Ok b -> in_s32 a -> in_s32 b ->
  isa i a b (HI x) (LO x) (s32 (xpc + 4)) = Some e -> e <> Raise SyscallException ->
  x_performs (execute_does i a b xpc e) (s32 (xpc + 4)) x (exec_special unix instr xpc (s32 (s32 (xpc + 4) + 4)) x).
Proof.
  intros Hl Hin Hop Hrs Hrt Hrd Hext Ha Hb Hain Hbin He Hr. unfold exec_special, get. 
  pose proof (land_ones_range instr 6 63 eq_refl ltac:(lia)) as Hf.
  pose proof (land_ones_range (Z.shiftr instr 11) 5 31 eq_refl ltac:(lia)) as Hd. fold (Instr.rd instr) in Hd.
  pose proof (land_ones_range (Z.shiftr instr 6) 5 31 eq_refl ltac:(lia)) as Hsh. fold (Instr.shamt instr) in Hsh.
  unfold isa in He. unfold execute_does. rewrite Hrs, Hrt, Hrd, Hext in *.
  generalize dependent (opCode i). intros o Hop He.
  generalize dependent (Z.land instr 63). intros f Hf Hop. cases f.
  all: cbv in Hop; injection Hop as <-; try discriminate He.
  all: rewrite ?Ha, ?Hb; cbn [mbind res_bind].
  all: try (injection He as <-).
  all: try x_assigned.
  all: try (rewrite ?land_31, ?Z.shiftl_mul_pow2, ?Z.shiftr_div_pow2 by (pose proof (mod32_range a); lia); x_assigned).
  all: try (by apply x_mthi); try (by apply x_mtlo); try (by apply x_goto); try done.
  - destruct (Z.eqb_spec b 0) as [|Hb0]; [done|]. injection He as <-.
    rewrite (proj2 (Z.eqb_neq (u32 b) 0)); [by apply x_hi_lo|].
    destruct (Z.lt_ge_cases b 0); [rewrite u32_neg by done|rewrite u32_pos by done]; unfold in_s32 in *; lia.
  - by apply x_hi_lo.
  - destruct (Z.eqb_spec (Instr.rd instr) (Instr.rs instr)); [done|]. injection He as <-. apply x_link; [done|lia|done].
  - destruct ((b =? 0) || _); [done|]. injection He as <-. by apply x_hi_lo.
  - rewrite <-(snd_mult a b), (surjective_pairing (mult a b)) at 1. by apply x_hi_lo.
Qed.

Lemma bcond_effect i instr xpc x a b e :
  zlen (Reg x) = 32 ->
  opCode i = (if Instr.rt instr =? 0 then OP_BLTZ else if Instr.rt instr =? 1 then OP_BGEZ
              else if Instr.rt instr =? 16 then OP_BLTZAL else if Instr.rt instr =? 17 then OP_BGEZAL else OP_UNIMP) ->
  Mips.rs i = Instr.rs instr -> extra i = Instr.immed instr -> aget (Reg x) (Instr.rs instr) = Ok a ->
  isa i a b (HI x) (LO x) (s32 (xpc + 4)) = Some e ->
  x_performs (execute_does i a b xpc e) (s32 (xpc + 4)) x (exec_bcond instr xpc (s32 (s32 (xpc + 4) + 4)) x).
Proof.
  intros Hl Hop Hrs Hext Ha He. unfold exec_bcond, get. unfold isa in He. unfold execute_does. rewrite Hop, Hrs, Hext in *.
  destruct (Z.eqb_spec (Instr.rt instr) 0) as [->|].
  { injection He as <-. rewrite Ha. by apply x_branch. }
  destruct (Z.eqb_spec (Instr.rt instr) 1) as [->|].
  { injection He as <-. rewrite Ha. by apply x_branch. }
  destruct (Z.eqb_spec (Instr.rt instr) 16) as [->|].
  { destruct (Z.eqb_spec (Instr.rs instr) R31); [done|]. injection He as <-. apply x_link; [done|unfold R31; lia|].
    intros x' Hx'. rewrite Hx', Ha by (unfold R31 in *; lia). cbn [mbind res_bind]. unfold branch. rewrite branch_target. by destruct (a <? 0). }
  destruct (Z.eqb_spec (Instr.rt instr) 17) as [->|]; [|done].
  destruct (Z.eqb_spec (Instr.rs instr) R31); [done|]. injection He as <-. apply x_link; [done|unfold R31; lia|].
  intros x' Hx'. rewrite Hx', Ha by (unfold R31 in *; lia). cbn [mbind res_bind]. unfold branch. rewrite branch_target. by destruct (0 <=? a).
Qed.

Lemma lui_word instr : s32 (Z.shiftl instr 16) = s32 (Instr.immed instr * 2 ^ 16).
Proof.
  rewrite immed_s16, Z.shiftl_mul_pow2 by lia. apply u32_mod_eq. unfold u32, s16.
  replace (instr * 2 ^ 16) with ((((instr + 2 ^ 15) mod 2 ^ 16 - 2 ^ 15) * 2 ^ 16) + (instr + 2 ^ 15) / 2 ^ 16 * 2 ^ 32); [by rewrite Z.mod_add|].
  pose proof (Z.div_mod (instr + 2 ^ 15) (2 ^ 16)). lia.
Qed.

Lemma immediate_effect i instr xpc x a b e o f op :
  zlen (Reg x) = 32 -> 2 <= op < 64 -> aget opTable op = Ok (o, f) -> opCode i = o -> extra i = Decode_extra f (u32 instr) ->
  Mips.rs i = Instr.rs instr -> Mips.rt i = Instr.rt instr -> 
  aget (Reg x) (Instr.rs instr) = Ok a -> aget (Reg x) (Instr.rt instr) = Ok b ->
  isa i a b (HI x) (LO x) (s32 (xpc + 4)) = Some e ->
  x_performs (execute_does i a b xpc e) (s32 (xpc + 4)) x
    (if op <? 16 then exec_immediate op instr xpc (s32 (s32 (xpc + 4) + 4)) x
     else exec_memory op instr (s32 (s32 (xpc + 4) + 4)) x).
Proof.
  intros Hl Hr Hop Ho Hext Hrs Hrt Ha Hb He. unfold exec_immediate, get.
  pose proof (land_ones_range (Z.shiftr instr 16) 5 31 eq_refl ltac:(lia)) as Ht. fold (Instr.rt instr) in Ht.
  unfold isa in He. unfold execute_does. rewrite Hrs, Hrt in *.
  generalize dependent (opCode i). intros o' -> He. cases op.
  all: cbv in Hop; injection Hop as <- <-; try discriminate He.
  all: match goal with |- context [?k <? 16] => change (k <? 16) with true end; cbn iota.
  all: first [rewrite Decode_extra_immed in Hext|unfold Decode_extra in Hext; rewrite (field_u32_0 instr 26 0x3ffffff) in Hext by (done || lia)].
  all: rewrite Hext in *; rewrite ?Ha; cbn [mbind res_bind]; rewrite ?Hb; cbn [mbind res_bind].
  all: injection He as <-; try x_assigned; try (by apply x_branch).
  - rewrite lui_word. x_assigned.
  - unfold jump_target. rewrite x_region. by apply x_link; [|unfold R31; lia|].
  - unfold jump_target. rewrite x_region. by apply x_goto.
Qed.
End Effects.

Lemma opTable_rest op o f : 2 <= op < 64 -> aget opTable op = Ok (o, f) -> o <> SPECIAL /\ o <> BCOND.
Proof. intros H Ho. cases op; try lia; cbv in Ho; injection Ho as <- _; by split. Qed.

Section Switch.
Context {OS : Type} (unix : unix_call -> list Z * OS -> Z * (list Z * OS)).

(** The whole switch. *)
Lemma exec_effect z i (x : Interp OS) pc a b e :
  zlen (Reg x) = 32 -> in_s32 z -> Decode (u32 z) = Ok i ->
  aget (Reg x) (Mips.rs i) = Ok a -> aget (Reg x) (Mips.rt i) = Ok b -> in_s32 a -> in_s32 b ->
  isa i a b (HI x) (LO x) (s32 (pc + 4)) = Some e -> e <> Raise SyscallException ->
  x_performs (execute_does i a b pc e) (s32 (pc + 4)) x (exec unix z pc (s32 (s32 (pc + 4) + 4)) x).
Proof.
  intros Hl Hz Hd Ha Hb Hain Hbin He Hns. destruct (Decode_fields z i Hd) as (Hrs & Hrt & Hrd & o & f & Ho & Hext & Hop).
  rewrite Hrs in Ha. rewrite Hrt in Hb. pose proof (land_ones_range (Z.shiftr z 26) 6 63 eq_refl ltac:(lia)) as Hr.
  unfold exec. generalize dependent (Z.land (Z.shiftr z 26) 63). intros op Ho Hr.
  destruct (Z.eqb_spec op 0) as [->|H0].
  { change (aget opTable 0) with (Ok (SPECIAL, RFMT)) in Ho. injection Ho as <- <-. cbn [decide] in Hop.
    apply (special_effect unix i z pc x a b e); try done.
    rewrite Hext. unfold Decode_extra. by rewrite (field_u32 z 6 5 31) by (done || lia). }
  destruct (Z.eqb_spec op 1) as [->|H1].
  { change (aget opTable 1) with (Ok (BCOND, IFMT)) in Ho. injection Ho as <- <-.
    apply (bcond_effect i z pc x a b e); try done. by rewrite Hext, Decode_extra_immed. }
  destruct (opTable_rest op o f ltac:(lia) Ho) as [Hs Hb']. rewrite !decide_False in Hop by done.
  apply (immediate_effect i z pc x a b e o f op); try done. lia.
Qed.
End Switch.

Lemma s32_mul_u32 a b : s32 (a * b) = s32 (u32 a * u32 b).
Proof. apply u32_mod_eq. unfold u32. by rewrite <-Zmult_mod. Qed.

Lemma execute_quirk_iff w i a b hi lo pc npc e :
  Decode w = Ok i -> isa i a b hi lo npc = Some e -> e <> Raise SyscallException ->
  execute_does i a b pc e = e <-> execute_quirk i a b pc npc = false.
Proof.
  intros Hd He Hns. pose proof (Decode_jump w i Hd) as Hj.
  unfold execute_does, execute_quirk. unfold isa in He. destruct (opCode i); try done; injection He as <-.
  - destruct (fits (a + b)) eqn:E; [by rewrite fits_id|]. done.
  - destruct (fits (a + extra i)) eqn:E; [by rewrite fits_id|]. done.
  - rewrite negb_false_iff, Z.eqb_eq. split; [by intros [= ->]|by intros ->].
  - rewrite negb_false_iff, Z.eqb_eq, <-(same_region (u32 npc) (u32 pc) (extra i)) by (apply u32_range || auto).
    split; [by intros [= E]|by intros ->].
  - rewrite negb_false_iff, Z.eqb_eq, <-(same_region (u32 npc) (u32 pc) (extra i)) by (apply u32_range || auto).
    split; [by intros [= E]|by intros ->].
  - rewrite negb_false_iff, Z.eqb_eq. split; [by intros [= E]|by intros ->].
  - rewrite negb_false_iff, Z.eqb_eq. rewrite <-(s32_mul_u32 a b). split; [by intros [= ->]|by intros ->].
  - rewrite negb_false_iff, Z.eqb_eq. split; [by intros [= ->]|by intros ->].
  - destruct (fits (a - b)) eqn:E; [by rewrite fits_id|]. done.
  - rewrite negb_false_iff, Z.eqb_eq. split; [by intros [= ->]|by intros ->].
Qed.

(** ** ilog2 *)

(** A mask keeps the blocks of [h] bits with an odd number. *)
Definition blocks (mask h : Z) : Prop := forall k, 0 <= k -> Z.testbit mask k = (k <? 32) && Z.odd (k / h).

Lemma blocks_check mask h : 0 <= mask < 2 ^ 32 ->
  forallb (fun k => Bool.eqb (Z.testbit mask k) (Z.odd (k / h))) (seqZ 0 32) = true -> blocks mask h.
Proof.
  intros Hm Hall k Hk. destruct (Z.ltb_spec k 32) as [Hlt|Hge]; cbn [andb].
  - rewrite forallb_forall in Hall. apply eqb_prop, Hall. apply list_elem_of_In, elem_of_seqZ. lia.
  - destruct (Z.eq_dec mask 0) as [->|]; [apply Z.bits_0|]. apply Z.bits_above_log2; [lia|].
    apply Z.lt_le_trans with 32; [|lia]. apply Z.log2_lt_pow2; lia.
Qed.

(** The last bit of [v] is [n], and nothing is left of the blocks of [s]
    bits before its own. *)
Record top_block (v n s : Z) : Prop := {
  tb_top : Z.testbit v n = true;
  tb_above : forall k, n < k -> Z.testbit v k = false;
  tb_below : forall k, 0 <= k -> k / s < n / s -> Z.testbit v k = false
}.

Lemma halve v n h mask : 0 <= n < 32 -> 0 < h -> blocks mask h -> top_block v n (2 * h) ->
  if Z.odd (n / h) then top_block (Z.land v mask) n h else Z.land v mask = 0 /\ top_block v n h.
Proof.
  intros Hn Hh Hm [Ht Ha Hb].
  assert (Hdiv : forall k, k / (2 * h) = k / h / 2) by (intros k; rewrite Z.mul_comm, Z.div_div by lia; done).
  assert (Hsame : forall k, 0 <= k <= n -> Z.testbit v k = true -> k / h = n / h \/ Z.odd (k / h) = false /\ Z.odd (n / h) = true).
  { intros k Hk Hv. assert (k / h <= n / h) by (apply Z.div_le_mono; lia).
    destruct (Z.lt_ge_cases (k / (2 * h)) (n / (2 * h))) as [Hlt|Hge]; [rewrite Hb in Hv by (done || lia); done|].
    rewrite !Hdiv in Hge. pose proof (Z.div_mod (k / h) 2). pose proof (Z.div_mod (n / h) 2).
    rewrite !Zmod_odd in *. destruct (Z.odd (k / h)), (Z.odd (n / h)); lia || (left; lia) || auto. }
  destruct (Z.odd (n / h)) eqn:Eo.
  - split.
    + rewrite Z.land_spec, Ht, Hm, Eo by lia. by rewrite (proj2 (Z.ltb_lt n 32)) by lia.
    + intros k Hk. by rewrite Z.land_spec, Ha by lia.
    + intros k Hk Hlt. rewrite Z.land_spec. destruct (Z.testbit v k) eqn:Ev; [|done]. cbn [andb].
      destruct (Z.le_gt_cases k n) as [Hkn|Hkn]; [|rewrite Ha in Ev by lia; done].
      destruct (Hsame k) as [E|[E _]]; [lia|done|lia|]. rewrite Hm, E by lia. apply andb_false_r.
  - split.
    + apply Z.bits_inj'. intros k Hk. rewrite Z.land_spec, Z.bits_0. destruct (Z.testbit v k) eqn:Ev; [|done]. cbn [andb].
      destruct (Z.le_gt_cases k n) as [Hkn|Hkn]; [|rewrite Ha in Ev by lia; done].
      destruct (Hsame k) as [E|[_ E]]; [lia|done| |done]. rewrite Hm, E, Eo by lia. apply andb_false_r.
    + split; [done|done|]. intros k Hk Hlt. destruct (Z.testbit v k) eqn:Ev; [|done].
      destruct (Z.le_gt_cases k n) as [Hkn|Hkn]; [|rewrite Ha in Ev by lia; done].
      destruct (Hsame k) as [E|[_ E]]; [lia|done|lia|done].
Qed.

Lemma top_block_nonzero v n s : top_block v n s -> v <> 0.
Proof. intros [H _ _] ->. by rewrite Z.bits_0 in H. Qed.

Lemma ilog2_test_step mask h i l n : 0 <= n < 32 -> 0 < h -> blocks mask h -> top_block (u32 i) n (2 * h) ->
  exists i', ilog2_test mask h (i, l) = (i', l + (if Z.odd (n / h) then h else 0)) /\ top_block (u32 i') n h.
Proof.
  intros Hn Hh Hm Ht. pose proof (halve (u32 i) n h mask Hn Hh Hm Ht) as H. unfold ilog2_test.
  destruct (Z.odd (n / h)).
  - rewrite (proj2 (Z.eqb_neq _ 0)) by by eapply top_block_nonzero. cbn [negb]. eexists. split; [done|].
    rewrite u32_id; [done|]. rewrite Z.land_comm. apply in_u32_land, u32_range.
  - destruct H as [-> H]. exists i. by rewrite Z.add_0_r.
Qed.

Lemma ilog2_sum n : 0 <= n < 32 ->
  1 + (if Z.odd (n / 16) then 16 else 0) + (if Z.odd (n / 8) then 8 else 0) + (if Z.odd (n / 4) then 4 else 0)
    + (if Z.odd (n / 2) then 2 else 0) + (if Z.odd (n / 1) then 1 else 0) = n + 1.
Proof. intros Hn. cases n; reflexivity. Qed.

(** The five tests find the position of the highest bit. *)
Lemma ilog2_correct i : in_s32 i -> ilog2 i = if i =? 0 then 0 else Z.log2 (u32 i) + 1.
Proof.
  intros Hi. unfold ilog2. destruct (Z.eqb_spec i 0) as [|Hi0]; [done|].
  assert (Hv : 0 < u32 i < 2 ^ 32).
  { destruct (Z.lt_ge_cases i 0); [rewrite u32_neg by done|rewrite u32_pos by done]; unfold in_s32 in *; lia. }
  set (n := Z.log2 (u32 i)).
  assert (Hn : 0 <= n < 32) by (split; [apply Z.log2_nonneg|apply Z.log2_lt_pow2; lia]).
  assert (H32 : top_block (u32 i) n (2 * 16)).
  { split; [apply Z.bit_log2; lia|intros k Hk; apply Z.bits_above_log2; lia|]. intros k Hk Hlt.
    rewrite (Z.div_small n) in Hlt by lia. pose proof (Z.div_pos k (2 * 16)). lia. }
  destruct (ilog2_test_step 0xffff0000 16 i 1 n Hn) as (i1 & -> & H1); [lia|by apply blocks_check|done|].
  destruct (ilog2_test_step 0xff00ff00 8 i1 (1 + (if Z.odd (n / 16) then 16 else 0)) n Hn) as (i2 & -> & H2); [lia|by apply blocks_check|done|].
  match goal with |- snd (ilog2_test _ _ (ilog2_test _ _ (ilog2_test _ _ (_, ?l)))) = _ =>
    destruct (ilog2_test_step 0xf0f0f0f0 4 i2 l n Hn) as (i3 & -> & H3); [lia|by apply blocks_check|done|] end.
  match goal with |- snd (ilog2_test _ _ (ilog2_test _ _ (_, ?l))) = _ =>
    destruct (ilog2_test_step 0xcccccccc 2 i3 l n Hn) as (i4 & -> & H4); [lia|by apply blocks_check|done|] end.
  match goal with |- snd (ilog2_test _ _ (_, ?l)) = _ =>
    destruct (ilog2_test_step 0xaaaaaaaa 1 i4 l n Hn) as (i5 & -> & _); [lia|by apply blocks_check|done|] end.
  by apply ilog2_sum.
Qed.

(** ** Properties *)


