(* ===== verification/Disasm.v ===== *)
(** * The listings of MIPS code: bin/{d,opstrings,out,disasm}.c and machine/mipssim.h

    The disassembler and the trace that the simulator prints with -d m, as
    the strings they print, and the other things out.c prints.  The layout
    of object files comes from headers of the host, so reading them is left
    out: the sections and symbols are given. *)

From Stdlib Require Import Ascii String.
From stdpp Require Import base list numbers strings pretty.
From S2P Require Import Prelude Arrays CString Machine Mips Isa Execute.
#[local] Open Scope string_scope.
#[local] Open Scope Z_scope.

(** ** opstrings.c, d.c *)

Definition normalops : list string := [
  "special"; "bcond"; "j"; "jal"; "beq"; "bne"; "blez"; "bgtz"; "addi"; "addiu"; "slti"; "sltiu"; "andi";
  "ori"; "xori"; "lui"; "cop0"; "cop1"; "cop2"; "cop3"; "024"; "025"; "026"; "027"; "030"; "031"; "032";
  "033"; "034"; "035"; "036"; "037"; "lb"; "lh"; "lwl"; "lw"; "lbu"; "lhu"; "lwr"; "047"; "sb"; "sh"; "swl";
  "sw"; "054"; "055"; "swr"; "057"; "lwc0"; "lwc1"; "lwc2"; "lwc3"; "064"; "065"; "066"; "067"; "swc0";
  "swc1"; "swc2"; "swc3"; "074"; "075"; "076"; "077"].

Definition specialops : list string := [
  "sll"; "001"; "srl"; "sra"; "sllv"; "005"; "srlv"; "srav"; "jr"; "jalr"; "012"; "013"; "syscall"; "break";
  "016"; "017"; "mfhi"; "mthi"; "mflo"; "mtlo"; "024"; "025"; "026"; "027"; "mult"; "multu"; "div"; "divu";
  "034"; "035"; "036"; "037"; "add"; "addu"; "sub"; "subu"; "and"; "or"; "xor"; "nor"; "050"; "051"; "slt";
  "sltu"; "054"; "055"; "056"; "057"; "060"; "061"; "062"; "063"; "064"; "065"; "066"; "067"; "070"; "071";
  "072"; "073"; "074"; "075"; "076"; "077"].

Definition regstrings : list string := [
  "0"; "r1"; "r2"; "r3"; "r4"; "r5"; "r6"; "r7"; "r8"; "r9"; "r10"; "r11"; "r12"; "r13"; "r14"; "r15"; "r16";
  "r17"; "r18"; "r19"; "r20"; "r21"; "r22"; "r23"; "r24"; "r25"; "r26"; "r27"; "gp"; "sp"; "r30"; "r31"].

Definition R (i : Z) : res string := aget regstrings i.

Definition I_SPECIAL : Z := 0.
Definition I_BCOND : Z := 1.
Definition I_J : Z := 2.
Definition I_JAL : Z := 3.
Definition I_BEQ : Z := 4.
Definition I_BNE : Z := 5.
Definition I_BLEZ : Z := 6.
Definition I_BGTZ : Z := 7.
Definition I_ADDI : Z := 8.
Definition I_ADDIU : Z := 9.
Definition I_SLTI : Z := 10.
Definition I_SLTIU : Z := 11.
Definition I_ANDI : Z := 12.
Definition I_ORI : Z := 13.
Definition I_XORI : Z := 14.
Definition I_LUI : Z := 15.
Definition I_COP0 : Z := 16.
Definition I_COP1 : Z := 17.
Definition I_COP2 : Z := 18.
Definition I_COP3 : Z := 19.
Definition I_LB : Z := 32.
Definition I_LH : Z := 33.
Definition I_LWL : Z := 34.
Definition I_LW : Z := 35.
Definition I_LBU : Z := 36.
Definition I_LHU : Z := 37.
Definition I_LWR : Z := 38.
Definition I_SB : Z := 40.
Definition I_SH : Z := 41.
Definition I_SWL : Z := 42.
Definition I_SW : Z := 43.
Definition I_SWR : Z := 46.
Definition I_LWC0 : Z := 48.
Definition I_LWC1 : Z := 49.
Definition I_LWC2 : Z := 50.
Definition I_LWC3 : Z := 51.
Definition I_SWC0 : Z := 56.
Definition I_SWC1 : Z := 57.
Definition I_SWC2 : Z := 58.
Definition I_SWC3 : Z := 59.
Definition I_SLL : Z := 0.
Definition I_SRL : Z := 2.
Definition I_SRA : Z := 3.
Definition I_SLLV : Z := 4.
Definition I_SRLV : Z := 6.
Definition I_SRAV : Z := 7.
Definition I_JR : Z := 8.
Definition I_JALR : Z := 9.
Definition I_SYSCALL : Z := 12.
Definition I_BREAK : Z := 13.
Definition I_MFHI : Z := 16.
Definition I_MTHI : Z := 17.
Definition I_MFLO : Z := 18.
Definition I_MTLO : Z := 19.
Definition I_MULT : Z := 24.
Definition I_MULTU : Z := 25.
Definition I_DIV : Z := 26.
Definition I_DIVU : Z := 27.
Definition I_ADD : Z := 32.
Definition I_ADDU : Z := 33.
Definition I_SUB : Z := 34.
Definition I_SUBU : Z := 35.
Definition I_AND : Z := 36.
Definition I_OR : Z := 37.
Definition I_XOR : Z := 38.
Definition I_NOR : Z := 39.
Definition I_SLT : Z := 42.
Definition I_SLTU : Z := 43.
Definition I_BLTZ : Z := 0.
Definition I_BGEZ : Z := 1.
Definition I_BLTZAL : Z := 16.
Definition I_BGEZAL : Z := 17.
Definition I_NOP : Z := 0.

Definition off26 (i : Z) : Z := Z.shiftl (Z.land i (Z.ones 26)) 2.
Definition top4 (i : Z) : Z := Z.land i (Z.lnot (Z.ones 28)).
Definition off16 (i : Z) : Z := Z.shiftl (Instr.immed i) 2.

(** [case ...: case ...:] *)
Definition among (opcode : Z) (l : list Z) : bool := existsb (Z.eqb opcode) l.

Definition three (a b c : string) : string := a +:+ "," +:+ b +:+ "," +:+ c.
Definition two (a b : string) : string := a +:+ "," +:+ b.

(** The operands of a SPECIAL instruction. *)
Definition dump_special (opcode instruction : Z) : res string :=
  rd ← R (Instr.rd instruction); rt ← R (Instr.rt instruction); rs ← R (Instr.rs instruction);
  Ok (if among opcode [I_SLL; I_SRL; I_SRA] then three rd rt ("0x" +:+ print_x (Instr.shamt instruction))
      else if among opcode [I_SLLV; I_SRLV; I_SRAV] then three rd rt rs
      else if among opcode [I_JR; I_JALR; I_MFLO; I_MTLO] then rs
      else if among opcode [I_SYSCALL; I_BREAK] then ""
      else if among opcode [I_MFHI; I_MTHI] then rd
      else if among opcode [I_MULT; I_MULTU; I_DIV; I_DIVU] then two rs rt
      else if among opcode [I_ADD; I_ADDU; I_SUB; I_SUBU; I_AND; I_OR; I_XOR; I_NOR; I_SLT; I_SLTU] then three rd rs rt
      else "").

Definition dump_bcond (instruction pc : Z) : res string :=
  let opcode := Instr.rt instruction in
  rs ← R (Instr.rs instruction);
  Ok ((if opcode =? I_BLTZ then "bltz" else if opcode =? I_BGEZ then "bgez"
       else if opcode =? I_BLTZAL then "bltzal" else if opcode =? I_BGEZAL then "bgezal" else "BCOND") +:+
      TAB +:+ two rs (print_08x (off16 instruction + pc + 4))).

Definition dump_normal (opcode instruction pc : Z) : res string :=
  rt ← R (Instr.rt instruction); rs ← R (Instr.rs instruction);
  let immed := "0x" +:+ print_x (Instr.immed instruction) in
  Ok (if among opcode [I_J; I_JAL] then print_08x (Z.lor (top4 pc) (off26 instruction))
      else if among opcode [I_BEQ; I_BNE] then three rt rs (print_08x (off16 instruction + pc + 4))
      else if among opcode [I_ADDI; I_ADDIU; I_SLTI; I_SLTIU; I_ANDI; I_ORI; I_XORI] then three rt rs immed
      else if among opcode [I_LUI] then two rt immed
      else if among opcode [I_COP0; I_COP1; I_COP2; I_COP3] then ""
      else if among opcode [I_LB; I_LH; I_LWL; I_LW; I_LBU; I_LHU; I_LWR; I_SB; I_SH; I_SWL; I_SW; I_SWR;
                            I_LWC0; I_LWC1; I_LWC2; I_LWC3; I_SWC0; I_SWC1; I_SWC2; I_SWC3]
        then two rt (immed +:+ "(" +:+ rs +:+ ")")
      else "").

(** [longdis] is 1. *)
Definition dump_ascii (instruction pc : Z) : res string :=
  let opcode := Z.shiftr (u32 instruction) 26 in
  s ← (if instruction =? I_NOP then Ok "nop"
       else if opcode =? I_SPECIAL then
         let opcode := Z.land instruction 0x3f in
         name ← aget specialops opcode;
         s ← dump_special opcode instruction;
         Ok (name +:+ TAB +:+ s)
       else if opcode =? I_BCOND then dump_bcond instruction pc
       else
         name ← aget normalops opcode;
         s ← dump_normal opcode instruction pc;
         Ok (name +:+ TAB +:+ s));
  Ok (print_08x pc +:+ ": " +:+ print_08x instruction +:+ "  " +:+ TAB +:+ s).

(** ** out.c *)

(** What is printed so far, and the column of the next character. *)
Record Out := mkOut { out_text : string; column : Z }.

Fixpoint advance (s : string) (column : Z) : Z :=
  match s with
  | "" => column
  | String c s => advance s (if Ascii.eqb c "010" then 1 else if Ascii.eqb c "009" then Z.land (column + 7) (Z.lnot 7) + 1 else column + 1)
  end.

Definition myprintf (s : string) (o : Out) : Out := mkOut (out_text o +:+ s) (advance s (column o)).

Definition SPACE : string := " ".
Fixpoint spaces (n : nat) (o : Out) : Out :=
  match n with O => o | S n => spaces n (mkOut (out_text o +:+ SPACE) (column o + 1)) end.
Definition mytab (n : Z) (o : Out) : Out := spaces (Z.to_nat (n - column o)) o.

(** The members of the host's structures that out.c prints. *)
Record Reloc := mkReloc { r_vaddr : Z; r_symndx : Z; r_type : Z; r_extern : bool }.
Record Scnhdr := mkScnhdr { s_name : string; s_vaddr : Z; s_size : Z; s_data : list Z; s_reloc : list Reloc }.
Record Sym := mkSym { sc : Z; st : Z; sym_value : Z; iss : Z }.

Definition MAXSYMS : Z := 300.
Definition scUndefined : Z := 6.

Definition symbol_type : list string := ["Nil"; "Global"; "Static"; "Param"; "Local"; "Label"; "Proc"; "Block";
  "End"; "Member"; "Type"; "File"; "Register"; "Forward"; "StaticProc"; "Constant"].

Definition storage_class : list string := ["Nil"; "Text"; "Data"; "Bss"; "Register"; "Abs"; "Undefined"; "CdbLocal";
  "Bits"; "CdbSystem"; "RegImage"; "Info"; "UserStruct"; "SData"; "SBss"; "RData"; "Var"; "Common"; "SCommon";
  "VarRegister"; "Variant"; "SUndefined"; "Init"].

Definition section_name : list string := ["(null)"; ".text"; ".rdata"; ".data"; ".sdata"; ".sbss"; ".bss"; ".init"; ".lit8"; ".lit4"].
Definition reloc_type : list string := ["abs"; "16"; "32"; "26"; "hi16"; "lo16"; "gpdata"; "gplit"].

Section Sections.
(** [symbols], and the string that starts at a place of [sspace]. *)
Context (symbols : list Sym) (sspace : Z -> res string).

Definition print_symbol (sym : Sym) (o : Out) : res Out :=
  let o := if sc sym =? scUndefined then myprintf (TAB +:+ SPACE) o else myprintf (print_08x (sym_value sym) +:+ SPACE) o in
  t ← aget symbol_type (st sym);
  let o := mytab 25 (myprintf t o) in
  c ← aget storage_class (sc sym);
  let o := mytab 41 (myprintf c o) in
  name ← sspace (iss sym);
  Ok (myprintf (name +:+ NL) o).

Definition print_rp (rp : Reloc) (o : Out) : res Out :=
  let o := mytab 57 o in
  s ← (if r_extern rp then
         if MAXSYMS <=? r_symndx rp then Ok ("sym $" +:+ print_d (r_symndx rp))
         else sym ← aget symbols (r_symndx rp); name ← sspace (iss sym); Ok (String "034" "" +:+ name +:+ String "034" "")
       else aget section_name (r_symndx rp));
  t ← aget reloc_type (r_type rp);
  Ok (myprintf (SPACE +:+ t) (myprintf s o)).

(** The first relocation of the address. *)
Definition print_reloc (vaddr : Z) (relocs : list Reloc) (o : Out) : res Out :=
  o ← match list_find (fun rp => vaddr = r_vaddr rp) relocs with
      | Some (_, rp) => print_rp rp o
      | None => Ok o
      end;
  Ok (myprintf NL o).

Definition printable (c : Z) : string :=
  if (32 <=? c) && (c <? 127) then String (ascii_of_nat (Z.to_nat c)) "" else ".".

(** The bytes of a word of data are chars, which are signed. *)
Definition print_data (pc word : Z) : string :=
  print_08x pc +:+ ": " +:+ print_08x word +:+ "  " +:+
  String.concat "" ((fun b => printable (s8 b)) <$> le_bytes 4 word) +:+ TAB +:+ print_d word.

Definition print_word (h : Scnhdr) (j : Z) (o : Out) : res Out :=
  let pc := s_vaddr h + j * 4 in
  word ← aget (s_data h) j;
  s ← (if String.prefix ".text" (s_name h) then dump_ascii word pc else Ok (print_data pc word));
  print_reloc pc (s_reloc h) (myprintf s o).

Definition print_section (h : Scnhdr) (o : Out) : res Out :=
  let o := myprintf ("Section: " +:+ s_name h +:+ TAB +:+ print_d (s_size h) +:+ "/" +:+ print_d (zlen (s_reloc h)) +:+ NL) o in
  for_loop (length (s_data h)) 0 (print_word h) o.
End Sections.

(** ** disasm.c and main.c: loading a program *)

(** [getc]: the bytes of the file from [s_scnptr] on, then EOF, which is
    -1 as a char. *)
Definition getc (file : list Z) (i : Z) : Z := match aget file i with Ok c => c | Err _ => 255 end.

(** [*((mem-memoffset)+pc) = c] *)
Definition poke (mem : list Z) (pc c : Z) : res (list Z) := aset mem (pc - memoffset) c.

(** disasm.c tests before each byte. *)
Definition load_section (file : list Z) (s_vaddr s_size : Z) (mem : list Z) : res (list Z) :=
  for_loop (Z.to_nat s_size) 0 (fun i mem =>
    let pc := s_vaddr + i in
    if MEMSIZE <=? pc - memoffset then Err Exited else poke mem pc (getc file i)) mem.

(** main.c tests when the section is loaded. *)
Definition LOADSECTION (file : list Z) (s_vaddr s_size : Z) (mem : list Z) : res (list Z) :=
  mem ← for_loop (Z.to_nat s_size) 0 (fun i mem => poke mem (s_vaddr + i) (getc file i)) mem;
  if MEMSIZE <=? s_vaddr + Z.max 0 s_size - memoffset then Err Exited else Ok mem.

(** dis1, for each word of the text section; it starts at [memoffset]. *)
Definition dis1 {OS} (x : Interp OS) (pc : Z) (text : string) : res string :=
  instr ← fetch pc x;
  s ← dump_ascii instr pc;
  Ok (text +:+ s +:+ NL).

Definition disasm {OS} (s_size : Z) (x : Interp OS) : res string :=
  for_loop (Z.to_nat ((s_size + 3) / 4)) 0 (fun i => dis1 x (memoffset + 4 * i)) "".

(** ** mipssim.h *)

Inductive RegType := NONE | RS | RT | RD | EXTRA.

Record OpString := mkOpString { op_string : string; op_args : RegType * RegType * RegType }.

(** The numbers of the #defines. *)
Definition opNumber (o : opcode) : Z :=
  match o with
  | OP_ADD => 1 | OP_ADDI => 2 | OP_ADDIU => 3 | OP_ADDU => 4 | OP_AND => 5 | OP_ANDI => 6
  | OP_BEQ => 7 | OP_BGEZ => 8 | OP_BGEZAL => 9 | OP_BGTZ => 10 | OP_BLEZ => 11 | OP_BLTZ => 12
  | OP_BLTZAL => 13 | OP_BNE => 14 | OP_DIV => 16 | OP_DIVU => 17 | OP_J => 18 | OP_JAL => 19
  | OP_JALR => 20 | OP_JR => 21 | OP_LB => 22 | OP_LBU => 23 | OP_LH => 24 | OP_LHU => 25
  | OP_LUI => 26 | OP_LW => 27 | OP_LWL => 28 | OP_LWR => 29 | OP_MFHI => 31 | OP_MFLO => 32
  | OP_MTHI => 34 | OP_MTLO => 35 | OP_MULT => 36 | OP_MULTU => 37 | OP_NOR => 38 | OP_OR => 39
  | OP_ORI => 40 | OP_RFE => 41 | OP_SB => 42 | OP_SH => 43 | OP_SLL => 44 | OP_SLLV => 45
  | OP_SLT => 46 | OP_SLTI => 47 | OP_SLTIU => 48 | OP_SLTU => 49 | OP_SRA => 50 | OP_SRAV => 51
  | OP_SRL => 52 | OP_SRLV => 53 | OP_SUB => 54 | OP_SUBU => 55 | OP_SW => 56 | OP_SWL => 57
  | OP_SWR => 58 | OP_XOR => 59 | OP_XORI => 60 | OP_SYSCALL => 61 | OP_UNIMP => 62 | OP_RES => 63
  | SPECIAL => 100 | BCOND => 101
  end.

Definition MaxOpcode : Z := 63.

Definition opStrings : list OpString := [
  mkOpString "Shouldn't happen" (NONE, NONE, NONE);
  mkOpString "ADD r%d,r%d,r%d" (RD, RS, RT);
  mkOpString "ADDI r%d,r%d,%d" (RT, RS, EXTRA);
  mkOpString "ADDIU r%d,r%d,%d" (RT, RS, EXTRA);
  mkOpString "ADDU r%d,r%d,r%d" (RD, RS, RT);
  mkOpString "AND r%d,r%d,r%d" (RD, RS, RT);
  mkOpString "ANDI r%d,r%d,%d" (RT, RS, EXTRA);
  mkOpString "BEQ r%d,r%d,%d" (RS, RT, EXTRA);
  mkOpString "BGEZ r%d,%d" (RS, EXTRA, NONE);
  mkOpString "BGEZAL r%d,%d" (RS, EXTRA, NONE);
  mkOpString "BGTZ r%d,%d" (RS, EXTRA, NONE);
  mkOpString "BLEZ r%d,%d" (RS, EXTRA, NONE);
  mkOpString "BLTZ r%d,%d" (RS, EXTRA, NONE);
  mkOpString "BLTZAL r%d,%d" (RS, EXTRA, NONE);
  mkOpString "BNE r%d,r%d,%d" (RS, RT, EXTRA);
  mkOpString "Shouldn't happen" (NONE, NONE, NONE);
  mkOpString "DIV r%d,r%d" (RS, RT, NONE);
  mkOpString "DIVU r%d,r%d" (RS, RT, NONE);
  mkOpString "J %d" (EXTRA, NONE, NONE);
  mkOpString "JAL %d" (EXTRA, NONE, NONE);
  mkOpString "JALR r%d,r%d" (RD, RS, NONE);
  mkOpString "JR r%d,r%d" (RD, RS, NONE);
  mkOpString "LB r%d,%d(r%d)" (RT, EXTRA, RS);
  mkOpString "LBU r%d,%d(r%d)" (RT, EXTRA, RS);
  mkOpString "LH r%d,%d(r%d)" (RT, EXTRA, RS);
  mkOpString "LHU r%d,%d(r%d)" (RT, EXTRA, RS);
  mkOpString "LUI r%d,%d" (RT, EXTRA, NONE);
  mkOpString "LW r%d,%d(r%d)" (RT, EXTRA, RS);
  mkOpString "LWL r%d,%d(r%d)" (RT, EXTRA, RS);
  mkOpString "LWR r%d,%d(r%d)" (RT, EXTRA, RS);
  mkOpString "Shouldn't happen" (NONE, NONE, NONE);
  mkOpString "MFHI r%d" (RD, NONE, NONE);
  mkOpString "MFLO r%d" (RD, NONE, NONE);
  mkOpString "Shouldn't happen" (NONE, NONE, NONE);
  mkOpString "MTHI r%d" (RS, NONE, NONE);
  mkOpString "MTLO r%d" (RS, NONE, NONE);
  mkOpString "MULT r%d,r%d" (RS, RT, NONE);
  mkOpString "MULTU r%d,r%d" (RS, RT, NONE);
  mkOpString "NOR r%d,r%d,r%d" (RD, RS, RT);
  mkOpString "OR r%d,r%d,r%d" (RD, RS, RT);
  mkOpString "ORI r%d,r%d,%d" (RT, RS, EXTRA);
  mkOpString "RFE" (NONE, NONE, NONE);
  mkOpString "SB r%d,%d(r%d)" (RT, EXTRA, RS);
  mkOpString "SH r%d,%d(r%d)" (RT, EXTRA, RS);
  mkOpString "SLL r%d,r%d,%d" (RD, RT, EXTRA);
  mkOpString "SLLV r%d,r%d,r%d" (RD, RT, RS);
  mkOpString "SLT r%d,r%d,r%d" (RD, RS, RT);
  mkOpString "SLTI r%d,r%d,%d" (RT, RS, EXTRA);
  mkOpString "SLTIU r%d,r%d,%d" (RT, RS, EXTRA);
  mkOpString "SLTU r%d,r%d,r%d" (RD, RS, RT);
  mkOpString "SRA r%d,r%d,%d" (RD, RT, EXTRA);
  mkOpString "SRAV r%d,r%d,r%d" (RD, RT, RS);
  mkOpString "SRL r%d,r%d,%d" (RD, RT, EXTRA);
  mkOpString "SRLV r%d,r%d,r%d" (RD, RT, RS);
  mkOpString "SUB r%d,r%d,r%d" (RD, RS, RT);
  mkOpString "SUBU r%d,r%d,r%d" (RD, RS, RT);
  mkOpString "SW r%d,%d(r%d)" (RT, EXTRA, RS);
  mkOpString "SWL r%d,%d(r%d)" (RT, EXTRA, RS);
  mkOpString "SWR r%d,%d(r%d)" (RT, EXTRA, RS);
  mkOpString "XOR r%d,r%d,r%d" (RD, RS, RT);
  mkOpString "XORI r%d,r%d,%d" (RT, RS, EXTRA);
  mkOpString "SYSCALL" (NONE, NONE, NONE);
  mkOpString "Unimplemented" (NONE, NONE, NONE);
  mkOpString "Reserved" (NONE, NONE, NONE)].

Definition TypeToReg (reg : RegType) (instr : Instruction) : Z :=
  match reg with RS => rs instr | RT => rt instr | RD => rd instr | EXTRA => extra instr | NONE => -1 end.

(** printf with a format of %d's; without an argument left it reads
    whatever is behind them, which no format here does. *)
Fixpoint printf_d (format : string) (args : list Z) : res string :=
  match format with
  | String "%"%char (String "d"%char rest) =>
      match args with
      | [] => Err MemFault
      | a :: args => s ← printf_d rest args; Ok (print_d a +:+ s)
      end
  | String c rest => s ← printf_d rest args; Ok (String c s)
  | "" => Ok ""
  end.

(** What OneInstruction prints when 'm' is among the debug flags. *)
Definition trace (instr : Instruction) (pc : Z) : res string :=
  _ ← ASSERT (opNumber (opCode instr) <=? MaxOpcode);
  str ← aget opStrings (opNumber (opCode instr));
  let '(a, b, c) := op_args str in
  s ← printf_d (op_string str) [TypeToReg a instr; TypeToReg b instr; TypeToReg c instr];
  Ok ("At PC = 0x" +:+ print_x pc +:+ ": " +:+ s +:+ NL).

(** ** The notation of the manual *)

Inductive operand := OReg (r : Z) | OImm (n : Z) | OMem (off base : Z) | OAddr (a : Z).

Definition mnemonic (o : opcode) : string :=
  match o with
  | OP_ADD => "ADD" | OP_ADDI => "ADDI" | OP_ADDIU => "ADDIU" | OP_ADDU => "ADDU" | OP_AND => "AND"
  | OP_ANDI => "ANDI" | OP_BEQ => "BEQ" | OP_BGEZ => "BGEZ" | OP_BGEZAL => "BGEZAL" | OP_BGTZ => "BGTZ"
  | OP_BLEZ => "BLEZ" | OP_BLTZ => "BLTZ" | OP_BLTZAL => "BLTZAL" | OP_BNE => "BNE" | OP_DIV => "DIV"
  | OP_DIVU => "DIVU" | OP_J => "J" | OP_JAL => "JAL" | OP_JALR => "JALR" | OP_JR => "JR"
  | OP_LB => "LB" | OP_LBU => "LBU" | OP_LH => "LH" | OP_LHU => "LHU" | OP_LUI => "LUI"
  | OP_LW => "LW" | OP_LWL => "LWL" | OP_LWR => "LWR" | OP_MFHI => "MFHI" | OP_MFLO => "MFLO"
  | OP_MTHI => "MTHI" | OP_MTLO => "MTLO" | OP_MULT => "MULT" | OP_MULTU => "MULTU" | OP_NOR => "NOR"
  | OP_OR => "OR" | OP_ORI => "ORI" | OP_RFE => "RFE" | OP_SB => "SB" | OP_SH => "SH"
  | OP_SLL => "SLL" | OP_SLLV => "SLLV" | OP_SLT => "SLT" | OP_SLTI => "SLTI" | OP_SLTIU => "SLTIU"
  | OP_SLTU => "SLTU" | OP_SRA => "SRA" | OP_SRAV => "SRAV" | OP_SRL => "SRL" | OP_SRLV => "SRLV"
  | OP_SUB => "SUB" | OP_SUBU => "SUBU" | OP_SW => "SW" | OP_SWL => "SWL" | OP_SWR => "SWR"
  | OP_SYSCALL => "SYSCALL" | OP_XOR => "XOR" | OP_XORI => "XORI"
  | _ => ""
  end.

(** The instructions of the architecture that the simulator knows. *)
Definition implemented (o : opcode) : bool :=
  match o with OP_RFE | OP_UNIMP | OP_RES | SPECIAL | BCOND => false | _ => true end.

(** The operands of an instruction at [pc], in the order of the manual. *)
Definition operands (i : Instruction) (pc : Z) : list operand :=
  let e := extra i in
  let branch := OAddr (s32 (s32 (pc + 4) + 4 * e)) in
  match opCode i with
  | OP_ADD | OP_ADDU | OP_AND | OP_NOR | OP_OR | OP_SLT | OP_SLTU | OP_SUB | OP_SUBU | OP_XOR => [OReg (rd i); OReg (rs i); OReg (rt i)]
  | OP_ADDI | OP_ADDIU | OP_ANDI | OP_ORI | OP_SLTI | OP_SLTIU | OP_XORI => [OReg (rt i); OReg (rs i); OImm e]
  | OP_LUI => [OReg (rt i); OImm e]
  | OP_SLL | OP_SRA | OP_SRL => [OReg (rd i); OReg (rt i); OImm e]
  | OP_SLLV | OP_SRAV | OP_SRLV => [OReg (rd i); OReg (rt i); OReg (rs i)]
  | OP_BEQ | OP_BNE => [OReg (rs i); OReg (rt i); branch]
  | OP_BGEZ | OP_BGEZAL | OP_BGTZ | OP_BLEZ | OP_BLTZ | OP_BLTZAL => [OReg (rs i); branch]
  | OP_J | OP_JAL => [OAddr (s32 (u32 (s32 (pc + 4)) / 2 ^ 28 * 2 ^ 28 + 4 * e))]
  | OP_JR => [OReg (rs i)]
  | OP_JALR => [OReg (rd i); OReg (rs i)]
  | OP_MFHI | OP_MFLO => [OReg (rd i)]
  | OP_MTHI | OP_MTLO => [OReg (rs i)]
  | OP_DIV | OP_DIVU | OP_MULT | OP_MULTU => [OReg (rs i); OReg (rt i)]
  | OP_LB | OP_LBU | OP_LH | OP_LHU | OP_LW | OP_LWL | OP_LWR | OP_SB | OP_SH | OP_SW | OP_SWL | OP_SWR => [OReg (rt i); OMem e (rs i)]
  | OP_SYSCALL | OP_RFE | OP_UNIMP | OP_RES | SPECIAL | BCOND => []
  end.

(** What d.c shows instead: the registers of BEQ and BNE the other way
    round, nothing for BLEZ and BGTZ, no target register for JALR, the wrong
    field for MFLO and MTHI, and jumps in the region of the instruction
    itself. *)
Definition dump_operands (i : Instruction) (pc : Z) : list operand :=
  match opCode i with
  | OP_BEQ | OP_BNE => [OReg (rt i); OReg (rs i); OAddr (s32 (s32 (pc + 4) + 4 * extra i))]
  | OP_BGTZ | OP_BLEZ => []
  | OP_JALR | OP_MFLO => [OReg (rs i)]
  | OP_MTHI => [OReg (rd i)]
  | OP_J | OP_JAL => [OAddr (s32 (u32 pc / 2 ^ 28 * 2 ^ 28 + 4 * extra i))]
  | _ => operands i pc
  end.

(** What the trace shows: targets as the number in the instruction, and a
    second register for JR. *)
Definition trace_operands (i : Instruction) (pc : Z) : list operand :=
  match opCode i with
  | OP_JR => [OReg (rd i); OReg (rs i)]
  | _ => (fun o => match o with OAddr _ => OImm (extra i) | o => o end) <$> operands i pc
  end.

Definition register_name (r : Z) : string := default "" (regstrings !! Z.to_nat r).

Definition show_dump (o : operand) : string :=
  match o with
  | OReg r => register_name r
  | OImm n => "0x" +:+ print_x n
  | OMem off base => "0x" +:+ print_x off +:+ "(" +:+ register_name base +:+ ")"
  | OAddr a => print_08x a
  end.

Definition show_trace (o : operand) : string :=
  match o with
  | OReg r => "r" +:+ print_d r
  | OImm n | OAddr n => print_d n
  | OMem off base => print_d off +:+ "(r" +:+ print_d base +:+ ")"
  end.

Fixpoint commas (l : list string) : string :=
  match l with [] => "" | [s] => s | s :: l => s +:+ "," +:+ commas l end.

Definition lower_char (c : ascii) : ascii :=
  let n := nat_of_ascii c in if (65 <=? n)%nat && (n <=? 90)%nat then ascii_of_nat (n + 32) else c.
Fixpoint lower (s : string) : string :=
  match s with "" => "" | String c s => String (lower_char c) (lower s) end.

(** ** The disassembler *)

Lemma print_08x_s32 z : print_08x (s32 z) = print_08x z.
Proof. unfold print_08x. by rewrite u32_s32. Qed.

Lemma print_08x_eq a b : u32 a = u32 b -> print_08x a = print_08x b.
Proof. unfold print_08x. by intros ->. Qed.

Lemma R_name r : 0 <= r < 32 -> R r = Ok (register_name r).
Proof.
  intros Hr. destruct (aget_in_range regstrings r) as [s Hs]; [done|]. unfold R. rewrite Hs. f_equal.
  apply aget_Ok_inv in Hs as [_ Hs]. unfold register_name. by rewrite Hs.
Qed.

Lemma five_bits z n : 0 <= Z.land (Z.shiftr z n) 0x1f < 32.
Proof. exact (land_ones_range (Z.shiftr z n) 5 31 eq_refl ltac:(lia)). Qed.

Lemma top_field w : Z.shiftr (u32 w) 26 = Z.land (Z.shiftr w 26) 0x3f.
Proof.
  rewrite <-(field_u32 w 26 6 63) by (done || lia). symmetry. change 63 with (Z.ones 6). rewrite Z.land_ones by lia. apply Z.mod_small.
  rewrite Z.shiftr_div_pow2 by lia. pose proof (u32_range w) as H. unfold in_u32 in H. Z.to_euclidean_division_equations. lia.
Qed.

Lemma printed_branch w pc : print_08x (off16 w + pc + 4) = print_08x (s32 (s32 (pc + 4) + 4 * Instr.immed w)).
Proof.
  apply print_08x_eq. rewrite u32_s32. unfold off16. rewrite Z.shiftl_mul_pow2 by lia. unfold u32, s32. Z.to_euclidean_division_equations. lia.
Qed.

Lemma printed_jump w pc : print_08x (Z.lor (top4 pc) (off26 w)) = print_08x (s32 (u32 pc / 2 ^ 28 * 2 ^ 28 + 4 * Z.land w 0x3ffffff)).
Proof.
  assert (Ht : top4 pc = pc / 2 ^ 28 * 2 ^ 28).
  { unfold top4. rewrite <-Z.ldiff_land, Z.ldiff_ones_r, Z.shiftl_mul_pow2, Z.shiftr_div_pow2 by lia. done. }
  assert (He : 0 <= Z.land w 0x3ffffff < 2 ^ 26).
  { change 0x3ffffff with (Z.ones 26). rewrite Z.land_ones by lia. apply Z.mod_pos_bound. lia. }
  apply print_08x_eq. rewrite u32_s32, Ht. unfold off26. change (Z.ones 26) with 0x3ffffff. rewrite Z.shiftl_mul_pow2 by lia.
  rewrite lor_low by lia. unfold u32. Z.to_euclidean_division_equations. lia.
Qed.

(** The listing of an instruction, after its address and its word. *)
Definition listing (i : Instruction) (pc : Z) : string :=
  lower (mnemonic (opCode i)) +:+ TAB +:+ commas (show_dump <$> dump_operands i pc).

Lemma special_listing w i pc : implemented (opCode i) = true -> aget specialTable (Z.land w 0x3f) = Ok (opCode i) ->
  rs i = Instr.rs w -> rt i = Instr.rt w -> rd i = Instr.rd w -> extra i = Instr.shamt w ->
  (name ← aget specialops (Z.land w 0x3f); s ← dump_special (Z.land w 0x3f) w; Ok (name +:+ TAB +:+ s)) = Ok (listing i pc).
Proof.
  intros Him Ho Hrs Hrt Hrd He. unfold dump_special. rewrite !R_name by apply five_bits.
  destruct i as [v o s t d e]. cbn [opCode rs rt rd extra] in *. subst s t d e. unfold listing, dump_operands, operands. cbn [opCode rs rt rd extra].
  assert (Hf : 0 <= Z.land w 0x3f < 64).
  { change 0x3f with (Z.ones 6). rewrite Z.land_ones by lia. apply Z.mod_pos_bound. lia. }
  revert Ho Him. generalize dependent (Z.land w 0x3f). intros f Hf. cases f; intros [= <-] [=]; reflexivity.
Qed.

Lemma normal_listing w i pc o f : implemented (opCode i) = true -> 2 <= Z.land (Z.shiftr w 26) 0x3f ->
  aget opTable (Z.land (Z.shiftr w 26) 0x3f) = Ok (o, f) -> opCode i = o ->
  rs i = Instr.rs w -> rt i = Instr.rt w -> extra i = Decode_extra f (u32 w) ->
  (name ← aget normalops (Z.land (Z.shiftr w 26) 0x3f); s ← dump_normal (Z.land (Z.shiftr w 26) 0x3f) w pc; Ok (name +:+ TAB +:+ s)) = Ok (listing i pc).
Proof.
  intros Him Hge Ho Hop Hrs Hrt He. unfold dump_normal. rewrite !R_name by apply five_bits. rewrite printed_branch, printed_jump.
  destruct i as [v o' s t d e]. cbn [opCode rs rt rd extra] in *. subst s t e o'. unfold listing, dump_operands, operands. cbn [opCode rs rt rd extra].
  assert (Hf : 0 <= Z.land (Z.shiftr w 26) 0x3f < 64) by exact (land_ones_range (Z.shiftr w 26) 6 63 eq_refl ltac:(lia)).
  assert (HI : Decode_extra IFMT (u32 w) = Instr.immed w) by apply Decode_extra_immed.
  assert (HJ : Decode_extra JFMT (u32 w) = Z.land w 0x3ffffff).
  { unfold Decode_extra. change 0x3ffffff with (Z.ones 26). rewrite !Z.land_ones by lia. unfold u32. Z.to_euclidean_division_equations. lia. }
  revert Ho Him Hge. generalize dependent (Z.land (Z.shiftr w 26) 0x3f). intros op Hf.
  cases op; intros [= <- <-] [=] Hge; try (exfalso; lia); rewrite ?HI, ?HJ; reflexivity.
Qed.

Lemma bcond_listing w i pc : implemented (opCode i) = true ->
  opCode i = (if Instr.rt w =? 0 then OP_BLTZ else if Instr.rt w =? 1 then OP_BGEZ
              else if Instr.rt w =? 16 then OP_BLTZAL else if Instr.rt w =? 17 then OP_BGEZAL else OP_UNIMP) ->
  rs i = Instr.rs w -> extra i = Decode_extra IFMT (u32 w) -> dump_bcond w pc = Ok (listing i pc).
Proof.
  intros Him Hop Hrs He. unfold dump_bcond. rewrite R_name by apply five_bits. rewrite printed_branch, <-Decode_extra_immed, <-He, <-Hrs.
  destruct i as [v o s t d e]. cbn [opCode rs rt rd extra] in *. subst o. unfold listing, dump_operands, operands. cbn [opCode rs rt rd extra].
  unfold I_BLTZ, I_BGEZ, I_BLTZAL, I_BGEZAL.
  destruct (Instr.rt w =? 0); [reflexivity|]. destruct (Instr.rt w =? 1); [reflexivity|].
  destruct (Instr.rt w =? 16); [reflexivity|]. destruct (Instr.rt w =? 17); [reflexivity|done].
Qed.

Lemma dump_listing w i pc : Decode (u32 w) = Ok i -> implemented (opCode i) = true -> w <> 0 ->
  dump_ascii w pc = Ok (print_08x pc +:+ ": " +:+ print_08x w +:+ "  " +:+ TAB +:+ listing i pc).
Proof.
  intros Hd Him Hw. destruct (Decode_fields w i Hd) as (Hrs & Hrt & Hrd & o & f & Ho & He & Hop).
  unfold dump_ascii. rewrite top_field. change I_NOP with 0. rewrite (proj2 (Z.eqb_neq w 0) Hw).
  assert (Hf : 0 <= Z.land (Z.shiftr w 26) 0x3f < 64) by exact (land_ones_range (Z.shiftr w 26) 6 63 eq_refl ltac:(lia)).
  destruct (Z.eqb_spec (Z.land (Z.shiftr w 26) 0x3f) I_SPECIAL) as [E|Hn0].
  - rewrite E in Ho. injection Ho as <- <-. cbn [decide] in Hop. rewrite decide_True in Hop by done.
    rewrite (special_listing w i pc) by (done || (rewrite He; apply (field_u32 w 6 5 31); done || lia)). done.
  - destruct (Z.eqb_spec (Z.land (Z.shiftr w 26) 0x3f) I_BCOND) as [E|Hn1].
    + rewrite E in Ho. injection Ho as <- <-. rewrite decide_False, decide_True in Hop by done. by rewrite (bcond_listing w i pc).
    + unfold I_SPECIAL, I_BCOND in *. destruct (opTable_rest (Z.land (Z.shiftr w 26) 0x3f) o f ltac:(lia) Ho) as [H1 H2]. rewrite !decide_False in Hop by done.
      rewrite (normal_listing w i pc o f) by (done || lia). done.
Qed.

(** ** The trace *)

Lemma append_nil_r s : s +:+ "" = s.
Proof. induction s as [|c s IH]; [done|]. change (String c (s +:+ "") = String c s). by rewrite IH. Qed.

Definition trace_text (i : Instruction) (pc : Z) : string :=
  mnemonic (opCode i) +:+ match trace_operands i pc with [] => "" | l => " " +:+ commas (show_trace <$> l) end.

#[local] Opaque print_x print_d.
Lemma trace_listing i pc : implemented (opCode i) = true ->
  trace i pc = Ok ("At PC = 0x" +:+ print_x pc +:+ ": " +:+ trace_text i pc +:+ NL).
Proof.
  unfold trace, trace_text, trace_operands, operands. destruct i as [v o s t d e]. cbn [opCode rs rt rd extra].
  destruct o; intros [=]; cbv -[print_d print_x String.append]; rewrite ?append_nil_r; reflexivity.
Qed.

#[local] Transparent print_x print_d.

(** Where an instruction goes is what its operand says. *)
Lemma operand_target i pc a b hi lo l t : isa i a b hi lo (s32 (pc + 4)) = Some (Goto l (Some t)) ->
  opCode i = OP_JR \/ opCode i = OP_JALR \/ In (OAddr t) (operands i pc).
Proof.
  unfold isa, operands. destruct (opCode i); try discriminate; intros H; auto; right; right;
    repeat case_match; simplify_eq; cbn; auto.
Qed.

(** ** Loading, and listing a whole program *)

(** The bytes that [getc] returns. *)
Definition read_bytes (file : list Z) (n : Z) : list Z := getc file <$> seqZ 0 n.

Lemma zlen_read_bytes file n : 0 <= n -> zlen (read_bytes file n) = n.
Proof. intros. unfold zlen, read_bytes. rewrite length_fmap, length_seqZ. lia. Qed.

Lemma splice_read_next file mem off i : 0 <= off -> 0 <= i -> off + i < zlen mem ->
  <[Z.to_nat (off + i) := getc file i]> (splice off (read_bytes file i) mem) = splice off (read_bytes file (i + 1)) mem.
Proof.
  intros Ho Hi Hl. unfold read_bytes. rewrite seqZ_app by lia. rewrite fmap_app. change (seqZ (0 + i) 1) with [0 + i]. cbn [fmap list_fmap].
  rewrite Z.add_0_l. fold (read_bytes file i).
  rewrite <-splice_splice; rewrite ?zlen_read_bytes by lia; [|lia|unfold zlen; cbn; unfold zlen in Hl; lia].
  rewrite splice_cons; [by rewrite splice_nil|lia|rewrite zlen_splice; rewrite ?zlen_read_bytes; unfold zlen in *; cbn; lia].
Qed.

Lemma for_loop_app {St} n1 n2 i body (s : St) : for_loop (n1 + n2) i body s = (s ← for_loop n1 i body s; for_loop n2 (i + Z.of_nat n1) body s).
Proof.
  revert i s. induction n1 as [|n1 IH]; intros i s; cbn [for_loop Nat.add]; [by rewrite Z.add_0_r|].
  destruct (body i s) as [t|]; [|done]. cbn [mbind res_bind]. rewrite IH. by replace (i + 1 + Z.of_nat n1) with (i + Z.of_nat (S n1)) by lia.
Qed.

Lemma aset_None (l : list Z) i v : aset l i v = Err MemFault <-> i < 0 \/ zlen l <= i.
Proof. unfold aset. destruct (Z.leb_spec 0 i), (Z.ltb_spec i (zlen l)); cbn; split; try done; lia. Qed.

(** Both loaders put a section that fits where it belongs.  The end of
    memory: disasm.c stops in front of it; main.c refuses a section that
    ends there, and writes past it before it refuses a longer one. *)
Lemma load_bounds file s_vaddr s_size mem : zlen mem = MEMSIZE -> memoffset <= s_vaddr -> 0 <= s_size ->
  let off := s_vaddr - memoffset in
  let loaded := splice off (read_bytes file s_size) mem in
  load_section file s_vaddr s_size mem = (if off + s_size <=? MEMSIZE then Ok loaded else if s_size =? 0 then Ok mem else Err Exited) /\
  LOADSECTION file s_vaddr s_size mem =
    (if off + s_size <? MEMSIZE then Ok loaded else if (off + s_size =? MEMSIZE) || (s_size =? 0) then Err Exited else Err MemFault).
Proof.
  intros Hm Hv Hs off loaded.
  assert (Hgen : forall n : nat, off + Z.of_nat n <= MEMSIZE ->
    for_loop n 0 (fun i mem => poke mem (s_vaddr + i) (getc file i)) mem = Ok (splice off (read_bytes file (Z.of_nat n)) mem) /\
    for_loop n 0 (fun i mem => if MEMSIZE <=? s_vaddr + i - memoffset then Err Exited else poke mem (s_vaddr + i) (getc file i)) mem =
      Ok (splice off (read_bytes file (Z.of_nat n)) mem)).
  { intros n Hn.
    assert (Hstep : forall j t, 0 <= j < 0 + Z.of_nat n -> t = splice off (read_bytes file j) mem ->
      exists t', poke t (s_vaddr + j) (getc file j) = Ok t' /\ t' = splice off (read_bytes file (j + 1)) mem).
    { intros j t Hj ->. unfold poke. replace (s_vaddr + j - memoffset) with (off + j) by (unfold off; lia).
      rewrite aset_in_range by (rewrite zlen_splice; rewrite ?zlen_read_bytes; unfold off; lia).
      eexists. split; [reflexivity|]. apply splice_read_next; unfold off; lia. }
    split.
    - destruct (for_loop_inv (fun i m => m = splice off (read_bytes file i) mem) (fun i mem => poke mem (s_vaddr + i) (getc file i)) n 0 mem) as (m & -> & ->); [symmetry; apply splice_nil|done|done].
    - destruct (for_loop_inv (fun i m => m = splice off (read_bytes file i) mem)
        (fun i mem => if MEMSIZE <=? s_vaddr + i - memoffset then Err Exited else poke mem (s_vaddr + i) (getc file i)) n 0 mem) as (m & -> & ->); [symmetry; apply splice_nil| |done].
      intros j t Hj Ht. rewrite (proj2 (Z.leb_gt _ _)) by (unfold off in Hn; lia). by apply Hstep. }
  unfold load_section, LOADSECTION. cbv zeta. rewrite Z.max_r by done. replace (s_vaddr + s_size - memoffset) with (off + s_size) by (unfold off; lia).
  destruct (Z.leb_spec (off + s_size) MEMSIZE) as [Hfit|Hbig].
  - destruct (Hgen (Z.to_nat s_size)) as [E1 E2]; [lia|]. rewrite E1, E2, Z2Nat.id by done. cbn [mbind res_bind]. split; [done|].
    destruct (Z.ltb_spec (off + s_size) MEMSIZE), (Z.leb_spec MEMSIZE (off + s_size)); try lia; [done|].
    by rewrite (proj2 (Z.eqb_eq _ _)) by lia.
  - rewrite (proj2 (Z.ltb_ge _ _)) by lia. rewrite (proj2 (Z.eqb_neq (off + s_size) MEMSIZE)) by lia. cbn [orb].
    destruct (Z.eqb_spec s_size 0) as [->|Hne]; [cbn; by rewrite (proj2 (Z.leb_le _ _)) by lia|].
    (* the first byte that does not fit *)
    destruct (decide (off <= MEMSIZE)) as [Hin|Hout].
    + replace (Z.to_nat s_size) with (Z.to_nat (MEMSIZE - off) + S (Z.to_nat (s_size - 1 - (MEMSIZE - off))))%nat by lia.
      destruct (Hgen (Z.to_nat (MEMSIZE - off))) as [E1 E2]; [lia|]. rewrite !for_loop_app, E1, E2. cbn [mbind res_bind for_loop].
      rewrite Z2Nat.id by lia. rewrite (proj2 (Z.leb_le MEMSIZE _)) by (unfold off; lia). split; [done|].
      unfold poke. rewrite (proj2 (aset_None _ _ _)); [done|]. rewrite zlen_splice; rewrite ?zlen_read_bytes; unfold off in *; lia.
    + replace (Z.to_nat s_size) with (S (Z.to_nat (s_size - 1))) by lia. cbn [for_loop].
      rewrite (proj2 (Z.leb_le MEMSIZE _)) by (unfold off in *; lia). split; [done|].
      unfold poke. rewrite (proj2 (aset_None _ _ _)); [done|]. unfold off in *. lia.
Qed.

Lemma dump_ascii_total w pc : exists s, dump_ascii w pc = Ok s.
Proof.
  unfold dump_ascii. rewrite top_field.
  assert (Hf : 0 <= Z.land (Z.shiftr w 26) 0x3f < 64) by exact (land_ones_range (Z.shiftr w 26) 6 63 eq_refl ltac:(lia)).
  assert (Hg : 0 <= Z.land w 0x3f < 64) by (change 0x3f with (Z.ones 6); rewrite Z.land_ones by lia; apply Z.mod_pos_bound; lia).
  destruct (aget_in_range specialops (Z.land w 0x3f)) as [s1 E1]; [done|].
  destruct (aget_in_range normalops (Z.land (Z.shiftr w 26) 0x3f)) as [s2 E2]; [done|].
  unfold dump_special, dump_bcond, dump_normal. rewrite E1, E2, !R_name by apply five_bits. cbn [mbind res_bind].
  destruct (w =? I_NOP); [by eexists|]. destruct (_ =? I_SPECIAL); [by eexists|]. destruct (_ =? I_BCOND); by eexists.
Qed.

(** A program is listed word by word. *)
Fixpoint program_lines (words : list Z) (pc : Z) : res string :=
  match words with
  | [] => Ok ""
  | w :: words => s ← dump_ascii w pc; rest ← program_lines words (pc + 4); Ok (s +:+ NL +:+ rest)
  end.

Lemma append_assoc (a b c : string) : (a +:+ b) +:+ c = a +:+ (b +:+ c).
Proof. induction a as [|x a IH]; [done|]. change (String x ((a +:+ b) +:+ c) = String x (a +:+ (b +:+ c))). by rewrite IH. Qed.

Lemma dis1_lines {OS} (x : Interp OS) words k text :
  (forall j w, words !! j = Some w -> fetch (memoffset + 4 * (k + Z.of_nat j)) x = Ok w) ->
  exists lines, program_lines words (memoffset + 4 * k) = Ok lines /\
    for_loop (length words) k (fun i => dis1 x (memoffset + 4 * i)) text = Ok (text +:+ lines).
Proof.
  revert k text. induction words as [|w words IH]; intros k text Hw; cbn [program_lines length for_loop].
  - exists "". split; [done|]. by rewrite append_nil_r.
  - assert (E := Hw 0%nat w eq_refl). replace (k + Z.of_nat 0) with k in E by lia. destruct (dump_ascii_total w (memoffset + 4 * k)) as [s Es].
    assert (Ed : dis1 x (memoffset + 4 * k) text = Ok (text +:+ s +:+ NL)) by (unfold dis1; rewrite E; cbn [mbind res_bind]; by rewrite Es).
    rewrite Ed, Es. cbn [mbind res_bind].
    destruct (IH (k + 1) (text +:+ s +:+ NL)) as (lines & E1 & E2).
    { intros j v Hj. specialize (Hw (S j) v Hj). by replace (k + 1 + Z.of_nat j) with (k + Z.of_nat (S j)) by lia. }
    replace (memoffset + 4 * k + 4) with (memoffset + 4 * (k + 1)) by lia. rewrite E1, E2. cbn [mbind res_bind].
    eexists. split; [done|]. by rewrite !append_assoc.
Qed.

Lemma disasm_program {OS} (x : Interp OS) words :
  (forall j w, words !! j = Some w -> fetch (memoffset + 4 * Z.of_nat j) x = Ok w) ->
  disasm (4 * zlen words) x = program_lines words memoffset.
Proof.
  intros Hw. destruct (dis1_lines x words 0 "" Hw) as (lines & E1 & E2). rewrite Z.mul_0_r, Z.add_0_r in E1. rewrite E1.
  unfold disasm. replace (Z.to_nat ((4 * zlen words + 3) / 4)) with (length words); [exact E2|].
  unfold zlen. Z.to_euclidean_division_equations. lia.
Qed.

(** Relocations whose numbers are in the tables. *)
Definition reloc_ok (symbols : list Sym) (rp : Reloc) : Prop :=
  0 <= r_type rp < zlen reloc_type /\ 0 <= r_symndx rp /\
  (if r_extern rp then r_symndx rp < MAXSYMS -> r_symndx rp < zlen symbols else r_symndx rp < zlen section_name).

Lemma print_section_ok symbols sspace h o : (forall i, exists s, sspace i = Ok s) -> Forall (reloc_ok symbols) (s_reloc h) ->
  exists o', print_section symbols sspace h o = Ok o'.
Proof.
  intros Hs Hr. unfold print_section.
  edestruct (for_loop_inv (fun _ _ => True) (print_word symbols sspace h) (length (s_data h)) 0) as (o' & E & _); [exact I| |by exists o'].
  intros j t Hj _. destruct (aget_in_range (s_data h) j) as [w Hw]; [unfold zlen; lia|]. unfold print_word. rewrite Hw. cbn [mbind res_bind].
  assert (Hp : forall pc t, exists t', print_reloc symbols sspace pc (s_reloc h) t = Ok t').
  { intros pc u. unfold print_reloc. destruct (list_find _ _) as [[n rp]|] eqn:Ef; [|by eexists].
    apply list_find_Some in Ef as (Hn & _). pose proof (Forall_lookup_1 _ _ _ _ Hr Hn) as (Ht & H0 & Hx). unfold print_rp.
    destruct (aget_in_range reloc_type (r_type rp)) as [ty Ety]; [done|]. rewrite Ety. destruct (r_extern rp).
    - destruct (Z.leb_spec MAXSYMS (r_symndx rp)); [by eexists|].
      destruct (aget_in_range symbols (r_symndx rp)) as [sy Esy]; [auto|]. rewrite Esy. cbn [mbind res_bind].
      destruct (Hs (iss sy)) as [nm ->]. by eexists.
    - destruct (aget_in_range section_name (r_symndx rp)) as [nm Enm]; [done|]. rewrite Enm. by eexists. }
  destruct (String.prefix _ _).
  - destruct (dump_ascii_total w (s_vaddr h + j * 4)) as [s ->]. cbn [mbind res_bind]. destruct (Hp (s_vaddr h + j * 4) (myprintf s t)) as [t' ->]. by exists t'.
  - cbn [mbind res_bind]. destruct (Hp (s_vaddr h + j * 4) (myprintf (print_data (s_vaddr h + j * 4) w) t)) as [t' ->]. by exists t'.
Qed.

Lemma mytab_column n o : column (mytab n o) = Z.max n (column o).
Proof.
  unfold mytab. assert (H : forall k o, column (spaces k o) = column o + Z.of_nat k).
  { induction k as [|k IH]; intros u; cbn [spaces]; [lia|]. rewrite IH. cbn. lia. }
  rewrite H. lia.
Qed.

(** ** Properties *)

(** C23: the disassembler and the trace of the simulator show the
    instruction that Decode finds.  For every word of an instruction the
    simulator knows, but the nop, the disassembler prints the address, the
    word, the name of the instruction and its operands, and the trace the
    address, the name and the operands; the addresses among the operands
    of the manual are where the architecture goes.  The operands are those
    of the manual but for BEQ, BNE, BLEZ, BGTZ, JALR, MFLO, MTHI and jumps
    from the end of a region in the disassembler, and JR and the targets in
    the trace. *)
Theorem listings_correct w i pc : Decode (u32 w) = Ok i -> implemented (opCode i) = true -> w <> 0 ->
  dump_ascii w pc = Ok (print_08x pc +:+ ": " +:+ print_08x w +:+ "  " +:+ TAB +:+
    lower (mnemonic (opCode i)) +:+ TAB +:+ commas (show_dump <$> dump_operands i pc)) /\
  trace i pc = Ok ("At PC = 0x" +:+ print_x pc +:+ ": " +:+ trace_text i pc +:+ NL) /\
  (forall a b hi lo l t, isa i a b hi lo (s32 (pc + 4)) = Some (Goto l (Some t)) ->
     opCode i = OP_JR \/ opCode i = OP_JALR \/ In (OAddr t) (operands i pc)) /\
  (dump_operands i pc = operands i pc <->
     match opCode i with
     | OP_BEQ | OP_BNE => rs i = rt i
     | OP_BLEZ | OP_BGTZ | OP_JALR => False
     | OP_MFLO | OP_MTHI => rs i = rd i
     | OP_J | OP_JAL => s32 (u32 pc / 2 ^ 28 * 2 ^ 28 + 4 * extra i) = s32 (u32 (s32 (pc + 4)) / 2 ^ 28 * 2 ^ 28 + 4 * extra i)
     | _ => True
     end).
Proof.
  intros Hd Him Hw. split; [by apply dump_listing|]. split; [by apply trace_listing|]. split; [intros a b hi lo l t; apply operand_target|].
  unfold dump_operands, operands. destruct (opCode i); try done; split; try done; try (by intros [=]); try (by intros ->).
Qed.

(** ADDIU r2, r0, 7 and a BEQ. *)
Lemma listings_correct_witness :
  dump_ascii 0x24020007 0x10 = Ok ("00000010: 24020007  " +:+ TAB +:+ "addiu" +:+ TAB +:+ "r2,0,0x7") /\
  trace (mkInstruction 0x24020007 OP_ADDIU 0 2 0 7) 0x10 = Ok ("At PC = 0x10: ADDIU r2,r0,7" +:+ NL) /\
  dump_ascii 0x10a4fffe 0x100 = Ok ("00000100: 10a4fffe  " +:+ TAB +:+ "beq" +:+ TAB +:+ "r4,r5,000000fc").
Proof.
  destruct (listings_correct 0x24020007 (mkInstruction 0x24020007 OP_ADDIU 0 2 0 7) 0x10) as (-> & -> & _); [reflexivity..|lia|].
  destruct (listings_correct 0x10a4fffe (mkInstruction 0x10a4fffe OP_BEQ 5 4 31 (-2)) 0x100) as (-> & _); [reflexivity..|lia|].
  repeat split; vm_compute; reflexivity.
Defined.
