(* ===== verification/SectorDisk.v ===== *)
(** * The interface of a sector disk

    What filesys/synchdisk.h promises to the file system: whole sectors are
    read and written by number.  The laws are stated on the contents of the
    sectors.  The file system is proved against this interface;
    Disk.v discharges it for the simulated disk. *)

From stdpp Require Import base list numbers.
From S2P Require Import Prelude Arrays State.

Definition SectorSize : Z := 128.
Definition SectorsPerTrack : Z := 32.
Definition NumTracks : Z := 32.
Definition NumSectors : Z := SectorsPerTrack * NumTracks.
Class SectorDisk (D : Type) := {
  ReadSector : Z -> M D (list Z);
  WriteSector : Z -> list Z -> M D unit
}.

Definition valid_sector (n : Z) : Prop := 0 <= n < NumSectors.

Definition is_sector_data (data : list Z) : Prop :=
  zlen data = SectorSize /\ Forall in_u8 data.

Class SectorDiskLaws (D : Type) `{!SectorDisk D} := {
  disk_ok : D -> Prop;
  sector : D -> Z -> list Z;
  sector_data : forall d n, disk_ok d -> valid_sector n -> is_sector_data (sector d n);
  ReadSector_law : forall d n, disk_ok d -> valid_sector n ->
    run_to (ReadSector n) d (fun data d' =>
      data = sector d n /\ disk_ok d' /\ forall k, valid_sector k -> sector d' k = sector d k);
  WriteSector_law : forall d n data, disk_ok d -> valid_sector n -> is_sector_data data ->
    run_to (WriteSector n data) d (fun _ d' =>
      disk_ok d' /\
      forall k, valid_sector k -> sector d' k = if decide (k = n) then data else sector d k)
}.

