(* ===== verification/Disk.v ===== *)
(** * machine/disk.{h,cc} and filesys/synchdisk.{h,cc}

    The simulated disk: 1024 sectors of 128 bytes kept in a UNIX file
    behind a magic number, the latency computed from the position of the
    head and the track buffer, one request at a time with an interrupt at
    its end; and the synchronous disk that a thread sees, which takes the
    lock, starts the request and waits for the interrupt.

    [SynchDisk] and [SynchDisk_laws] make it an instance of the interface
    of SectorDisk.v.  Time is an unbounded integer. *)

From stdpp Require Import base list numbers.
From S2P Require Import Prelude Arrays State SectorDisk.

Definition RotationTime : Z := 500.
Definition SeekTime : Z := 500.
Definition MagicNumber : Z := 0x456789ab.
Definition MagicSize : Z := 4.
Definition DiskSize : Z := MagicSize + NumSectors * SectorSize.

(** ** The disk and what it uses of the machine *)

Record Disk := mkDisk {
  storage : list Z;      (* the contents of the UNIX file *)
  active : bool;
  lastSector : Z;
  bufferInit : Z
}.

(** The disk with the clock, the statistics, the due times of its pending
    interrupts, and the semaphore and lock of the synchronous disk. *)
Record DiskWorld := mkDW {
  disk : Disk;
  totalTicks : Z;
  numDiskReads : Z;
  numDiskWrites : Z;
  pending : list Z;
  semaphore : Z;
  lock : bool
}.

Definition set_disk (w : DiskWorld) d : DiskWorld :=
  mkDW d (totalTicks w) (numDiskReads w) (numDiskWrites w) (pending w) (semaphore w) (lock w).
Definition set_ticks (w : DiskWorld) t : DiskWorld :=
  mkDW (disk w) t (numDiskReads w) (numDiskWrites w) (pending w) (semaphore w) (lock w).
Definition set_pending (w : DiskWorld) p : DiskWorld :=
  mkDW (disk w) (totalTicks w) (numDiskReads w) (numDiskWrites w) p (semaphore w) (lock w).
Definition set_semaphore (w : DiskWorld) s : DiskWorld :=
  mkDW (disk w) (totalTicks w) (numDiskReads w) (numDiskWrites w) (pending w) s (lock w).
Definition set_lock (w : DiskWorld) l : DiskWorld :=
  mkDW (disk w) (totalTicks w) (numDiskReads w) (numDiskWrites w) (pending w) (semaphore w) l.
Definition count_read (w : DiskWorld) : DiskWorld :=
  mkDW (disk w) (totalTicks w) (numDiskReads w + 1) (numDiskWrites w) (pending w) (semaphore w) (lock w).
Definition count_write (w : DiskWorld) : DiskWorld :=
  mkDW (disk w) (totalTicks w) (numDiskReads w) (numDiskWrites w + 1) (pending w) (semaphore w) (lock w).

(** ** The UNIX file, as sysdep.cc uses it *)

(** [Lseek(fd, offset, 0); Read(fd, buffer, nBytes);]: a short read fails
    the ASSERT of Read. *)
Definition file_read (offset nBytes : Z) (f : list Z) : res (list Z) :=
  _ ← ASSERT (0 <=? offset);
  _ ← ASSERT (offset + nBytes <=? zlen f);
  bread offset nBytes f.

(** [Lseek; WriteFile]: writing past the end fills the gap with zeros. *)
Definition file_write (offset : Z) (bytes f : list Z) : res (list Z) :=
  _ ← ASSERT (0 <=? offset);
  bwrite offset bytes (f ++ replicate (Z.to_nat (offset + zlen bytes - zlen f)) 0).

(** ** Disk::Disk *)

(** [unix] is the file if it exists. *)
Definition Disk_new (unix : option (list Z)) : res Disk :=
  match unix with
  | Some f =>
      bs ← file_read 0 MagicSize f;
      _ ← ASSERT (s32 (le_val bs) =? MagicNumber);
      Ok (mkDisk f false 0 0)
  | None =>
      f ← file_write 0 (le_bytes 4 MagicNumber) [];
      f ← file_write (DiskSize - 4) (le_bytes 4 0) f;
      Ok (mkDisk f false 0 0)
  end.

(** ** Latency *)

(** [TimeToSeek]: the seek time and [*rotation]. *)
Definition TimeToSeek (newSector : Z) (w : DiskWorld) : Z * Z :=
  let newTrack := Z.quot newSector SectorsPerTrack in
  let oldTrack := Z.quot (lastSector (disk w)) SectorsPerTrack in
  let seek := Z.abs (newTrack - oldTrack) * SeekTime in
  let over := Z.rem (totalTicks w + seek) RotationTime in
  (seek, if 0 <? over then RotationTime - over else 0).

Definition ModuloDiff (to from : Z) : Z :=
  let toOffset := Z.rem to SectorsPerTrack in
  let fromOffset := Z.rem from SectorsPerTrack in
  Z.rem ((toOffset - fromOffset) + SectorsPerTrack) SectorsPerTrack.

Definition ComputeLatency (newSector : Z) (writing : bool) (w : DiskWorld) : Z :=
  let '(seek, rotation) := TimeToSeek newSector w in
  let timeAfter := totalTicks w + seek + rotation in
  let bufInit := bufferInit (disk w) in
  if negb writing && (seek =? 0) &&
     (ModuloDiff newSector (Z.quot bufInit RotationTime) <?
        Z.quot (timeAfter - bufInit) RotationTime)
  then RotationTime
  else
    let rotation := rotation +
      ModuloDiff newSector (Z.quot timeAfter RotationTime) * RotationTime in
    seek + rotation + RotationTime.

Definition UpdateLast (newSector : Z) (w : DiskWorld) : DiskWorld :=
  let '(seek, rotate) := TimeToSeek newSector w in
  let d := disk w in
  set_disk w (mkDisk (storage d) (active d) newSector
    (if negb (seek =? 0) then totalTicks w + seek + rotate else bufferInit d)).

(** ** Requests *)

Definition set_active (b : bool) (w : DiskWorld) : DiskWorld :=
  let d := disk w in set_disk w (mkDisk (storage d) b (lastSector d) (bufferInit d)).

(** [interrupt->Schedule(DiskDone, this, ticks, DiskInt)]. *)
Definition Schedule (ticks : Z) : M DiskWorld unit :=
  _ ← assert (0 <? ticks);
  modify (fun w => set_pending w (pending w ++ [totalTicks w + ticks])).

Definition ReadRequest (sectorNumber : Z) : M DiskWorld (list Z) :=
  ticks ← gets (ComputeLatency sectorNumber false);
  busy ← gets (fun w => active (disk w));
  _ ← assert (negb busy);
  _ ← assert ((0 <=? sectorNumber) && (sectorNumber <? NumSectors));
  f ← gets (fun w => storage (disk w));
  data ← lift (file_read (SectorSize * sectorNumber + MagicSize) SectorSize f);
  _ ← modify (set_active true);
  _ ← modify (UpdateLast sectorNumber);
  _ ← modify count_read;
  _ ← Schedule ticks;
  ret data.

Definition WriteRequest (sectorNumber : Z) (data : list Z) : M DiskWorld unit :=
  ticks ← gets (ComputeLatency sectorNumber true);
  busy ← gets (fun w => active (disk w));
  _ ← assert (negb busy);
  _ ← assert ((0 <=? sectorNumber) && (sectorNumber <? NumSectors));
  bytes ← lift (bread 0 SectorSize data);
  f ← gets (fun w => storage (disk w));
  f' ← lift (file_write (SectorSize * sectorNumber + MagicSize) bytes f);
  _ ← modify (fun w => let d := disk w in
        set_disk w (mkDisk f' (active d) (lastSector d) (bufferInit d)));
  _ ← modify (set_active true);
  _ ← modify (UpdateLast sectorNumber);
  _ ← modify count_write;
  Schedule ticks.

(** ** The synchronous disk *)

(** [SynchDisk::RequestDone]: [semaphore->V()]. *)
Definition RequestDone : M DiskWorld unit :=
  modify (fun w => set_semaphore w (semaphore w + 1)).

(** [Disk::HandleInterrupt], whose handler is [DiskRequestDone]. *)
Definition HandleInterrupt : M DiskWorld unit :=
  _ ← modify (set_active false);
  RequestDone.

(** With every thread asleep the clock advances to the next interrupt;
    without one the machine halts. *)
Definition Idle : M DiskWorld unit :=
  p ← gets pending;
  match p with
  | [] => fail Exited
  | t :: rest =>
      _ ← modify (fun w => set_pending (set_ticks w (Z.max t (totalTicks w))) rest);
      HandleInterrupt
  end.

(** [semaphore->P()]: the caller sleeps while the value is 0; every
    wait consumes a pending interrupt. *)
Fixpoint P_loop (fuel : nat) : M DiskWorld unit :=
  value ← gets semaphore;
  if value =? 0 then
    match fuel with
    | O => fail Exited
    | S fuel' => _ ← Idle; P_loop fuel'
    end
  else modify (fun w => set_semaphore w (semaphore w - 1)).

Definition P : M DiskWorld unit := fun w => P_loop (length (pending w)) w.

(** [lock->Acquire()] by the only running thread. *)
Definition Acquire : M DiskWorld unit :=
  held ← gets lock;
  if (held : bool) then fail Exited else modify (fun w => set_lock w true).
Definition Release : M DiskWorld unit := modify (fun w => set_lock w false).

Definition SynchDisk_new (unix : option (list Z)) (now : Z) : res DiskWorld :=
  d ← Disk_new unix; Ok (mkDW d now 0 0 [] 0 false).

#[export] Instance SynchDisk : SectorDisk DiskWorld := {|
  ReadSector := fun sectorNumber =>
    _ ← Acquire;
    data ← ReadRequest sectorNumber;
    _ ← P;
    _ ← Release;
    ret data;
  WriteSector := fun sectorNumber data =>
    _ ← Acquire;
    _ ← WriteRequest sectorNumber data;
    _ ← P;
    Release
|}.

(** ** The latency is positive and bounded *)

Lemma ModuloDiff_range to from : 0 <= to -> 0 <= from -> 0 <= ModuloDiff to from < SectorsPerTrack.
Proof.
  intros H1 H2. unfold ModuloDiff, SectorsPerTrack. Z.to_euclidean_division_equations. lia.
Qed.

Lemma TimeToSeek_range n w :
  valid_sector n -> valid_sector (lastSector (disk w)) -> 0 <= totalTicks w ->
  let '(seek, rotation) := TimeToSeek n w in
  0 <= seek <= (NumTracks - 1) * SeekTime /\ 0 <= rotation < RotationTime.
Proof.
  unfold valid_sector, NumSectors, SectorsPerTrack, NumTracks. intros Hn Hl Ht.
  unfold TimeToSeek, SectorsPerTrack, SeekTime, RotationTime. split.
  - Z.to_euclidean_division_equations. lia.
  - assert (0 <= Z.abs (Z.quot n 32 - Z.quot (lastSector (disk w)) 32) * 500) by lia.
    pose proof (Z.rem_bound_pos (totalTicks w + Z.abs (Z.quot n 32 - Z.quot (lastSector (disk w)) 32) * 500) 500).
    case_match; lia.
Qed.

(** The largest latency: a seek over all tracks and a full rotation. *)
Definition MaxLatency : Z := (NumTracks - 1) * SeekTime + (SectorsPerTrack + 1) * RotationTime.

Lemma ComputeLatency_range n writing w :
  valid_sector n -> valid_sector (lastSector (disk w)) -> 0 <= totalTicks w ->
  RotationTime <= ComputeLatency n writing w < MaxLatency.
Proof.
  intros Hn Hl Ht. pose proof (TimeToSeek_range n w Hn Hl Ht) as Hs. unfold ComputeLatency.
  destruct (TimeToSeek n w) as [seek rotation]. destruct Hs as [Hs Hr].
  unfold MaxLatency, NumTracks, SeekTime, SectorsPerTrack, RotationTime in *.
  destruct (negb writing && _ && _); [lia|].
  assert (0 <= ModuloDiff n (Z.quot (totalTicks w + seek + rotation) 500) < 32).
  { apply ModuloDiff_range; [apply Hn|]. apply Z.quot_pos; lia. }
  lia.
Qed.

(** ** The synchronous disk implements the interface *)

Record disk_inv (w : DiskWorld) : Prop := {
  inv_size : zlen (storage (disk w)) = DiskSize;
  inv_bytes : Forall in_u8 (storage (disk w));
  inv_magic : slice 0 MagicSize (storage (disk w)) = le_bytes 4 MagicNumber;
  inv_active : active (disk w) = false;
  inv_pending : pending w = [];
  inv_semaphore : semaphore w = 0;
  inv_lock : lock w = false;
  inv_time : 0 <= totalTicks w;
  inv_last : valid_sector (lastSector (disk w))
}.

Definition sector_of (w : DiskWorld) (n : Z) : list Z :=
  slice (SectorSize * n + MagicSize) SectorSize (storage (disk w)).

Lemma sector_in_file n : valid_sector n ->
  0 <= SectorSize * n + MagicSize /\ SectorSize * n + MagicSize + SectorSize <= DiskSize.
Proof. unfold valid_sector, DiskSize, NumSectors, SectorsPerTrack, NumTracks, SectorSize, MagicSize. lia. Qed.

Lemma valid_sector_test n : valid_sector n -> (0 <=? n) && (n <? NumSectors) = true.
Proof. unfold valid_sector. intros. apply andb_true_intro. split; lia. Qed.

Lemma file_read_ok off n f :
  0 <= off -> 0 <= n -> off + n <= zlen f -> file_read off n f = Ok (slice off n f).
Proof.
  intros H1 H2 H3. unfold file_read. rewrite !ASSERT_true by lia. cbn [mbind res_bind].
  by apply bread_Ok.
Qed.

Lemma file_write_ok off bytes f :
  0 <= off -> off + zlen bytes <= zlen f -> file_write off bytes f = Ok (splice off bytes f).
Proof.
  intros H1 H2. unfold file_write. rewrite ASSERT_true by lia. cbn [mbind res_bind].
  replace (Z.to_nat (off + zlen bytes - zlen f)) with 0%nat by lia. cbn [replicate].
  rewrite app_nil_r. by apply bwrite_Ok.
Qed.

(** The world while a request is in progress, due at time [t]. *)
Definition requested (w w' : DiskWorld) (n t : Z) (f : list Z) : Prop :=
  storage (disk w') = f /\ lastSector (disk w') = n /\ pending w' = [t] /\
  semaphore w' = 0 /\ lock w' = true /\ totalTicks w' = totalTicks w.

Lemma run_to_P w Q : run_to (P_loop (length (pending w))) w Q -> run_to P w Q.
Proof. done. Qed.

(** Waiting for the interrupt ends the request. *)
Lemma wait_for_interrupt w0 w n t f :
  disk_inv w0 -> valid_sector n -> requested w0 w n t f ->
  zlen f = DiskSize -> Forall in_u8 f -> slice 0 MagicSize f = le_bytes 4 MagicNumber ->
  run_to P w (fun _ w' => disk_inv (set_lock w' false) /\ storage (disk w') = f).
Proof.
  intros Hi Hn (Hf & Hl & Hp & Hs & Hk & Ht) Hz Hb Hm. apply run_to_P.
  rewrite Hp. cbn [length P_loop]. step. rewrite Hs. cbn [Z.eqb].
  step. unfold Idle. step. rewrite Hp. step. unfold HandleInterrupt, RequestDone.
  repeat step. cbn [P_loop]. step.
  set (wd := set_semaphore _ _). assert (Hsem : semaphore wd = 1) by (cbn; lia).
  rewrite Hsem. cbn [Z.eqb]. step. split; [|done].
  pose proof (inv_time w0 Hi). split; cbn; try (done || by rewrite ?Hf, ?Hl); lia.
Qed.

Lemma UpdateLast_storage n w :
  storage (disk (UpdateLast n w)) = storage (disk w) /\ lastSector (disk (UpdateLast n w)) = n /\
  pending (UpdateLast n w) = pending w /\ semaphore (UpdateLast n w) = semaphore w /\
  lock (UpdateLast n w) = lock w /\ totalTicks (UpdateLast n w) = totalTicks w.
Proof. unfold UpdateLast. by destruct (TimeToSeek n w). Qed.

Lemma SynchDisk_read n w :
  disk_inv w -> valid_sector n ->
  run_to (ReadSector n) w (fun data w' =>
    data = sector_of w n /\ disk_inv w' /\ storage (disk w') = storage (disk w)).
Proof.
  intros Hi Hn. destruct (sector_in_file n Hn) as [H1 H2]. pose proof Hi as [].
  pose proof (ComputeLatency_range n false (set_lock w true) Hn inv_last0 inv_time0) as Hlat.
  unfold RotationTime in Hlat. cbn [ReadSector SynchDisk]. unfold Acquire. repeat step.
  rewrite inv_lock0. step. unfold ReadRequest. repeat step.
  { cbn. by rewrite inv_active0. } { by apply valid_sector_test. }
  { apply file_read_ok; cbn; [done|done|by rewrite inv_size0]. }
  unfold Schedule. repeat step; [by apply Z.ltb_lt; lia|].
  set (wr := set_pending _ _).
  assert (Hr : exists t, requested w wr n t (storage (disk w))).
  { eexists. unfold requested, wr. cbn -[UpdateLast].
    destruct (UpdateLast_storage n (set_active true (set_lock w true))) as (-> & -> & -> & -> & -> & ->).
    cbn. by rewrite inv_pending0. }
  destruct Hr as [t Hr].
  eapply run_to_mono; [by apply (wait_for_interrupt w wr n t _ Hi Hn Hr)|]. intros _' w' [Hw' Hst]. unfold Release.
  repeat step. split; [done|]. by split.
Qed.

Lemma SynchDisk_write n data w :
  disk_inv w -> valid_sector n -> is_sector_data data ->
  run_to (WriteSector n data) w (fun _ w' =>
    disk_inv w' /\
    storage (disk w') = splice (SectorSize * n + MagicSize) data (storage (disk w))).
Proof.
  intros Hi Hn [Hd Hdb]. destruct (sector_in_file n Hn) as [H1 H2]. pose proof Hi as [].
  pose proof (ComputeLatency_range n true (set_lock w true) Hn inv_last0 inv_time0) as Hlat.
  unfold RotationTime in Hlat. cbn [WriteSector SynchDisk]. unfold Acquire. repeat step.
  rewrite inv_lock0. step. unfold WriteRequest. repeat step.
  { cbn. by rewrite inv_active0. } { by apply valid_sector_test. }
  { apply bread_Ok; [done|done|by rewrite Hd]. }
  { apply file_write_ok; cbn; [done|]. rewrite (zlen_slice 0 SectorSize) by (done || by rewrite Hd). lia. }
  assert (Hsl : slice 0 SectorSize data = data) by (rewrite <-Hd; apply slice_all).
  rewrite Hsl. unfold Schedule. repeat step; [by apply Z.ltb_lt; lia|].
  set (f := splice _ data _). set (wr := set_pending _ _).
  assert (Hr : exists t, requested w wr n t f).
  { eexists. unfold requested, wr. cbn -[UpdateLast].
    match goal with |- context [UpdateLast n ?x] =>
      destruct (UpdateLast_storage n x) as (-> & -> & -> & -> & -> & ->) end.
    cbn. by rewrite inv_pending0. }
  destruct Hr as [t Hr].
  eapply run_to_mono; [eapply (wait_for_interrupt w wr n t f); try done|].
  - unfold f. rewrite zlen_splice; [done|done|by cbn [disk set_lock]; rewrite Hd, inv_size0].
  - by apply Forall_splice.
  - unfold f. rewrite slice_splice_ne; [done|done|by cbn [disk set_lock]; rewrite Hd, inv_size0|done|].
    left. unfold valid_sector, SectorSize, MagicSize in *. lia.
  - intros _' w' [Hw' Hst]. unfold Release. repeat step. by split.
Qed.

Lemma sector_of_update w w' n data k :
  disk_inv w -> valid_sector n -> valid_sector k -> zlen data = SectorSize ->
  storage (disk w') = splice (SectorSize * n + MagicSize) data (storage (disk w)) ->
  sector_of w' k = if decide (k = n) then data else sector_of w k.
Proof.
  intros Hi Hn Hk Hd Hst. destruct (sector_in_file n Hn) as [H1 H2].
  destruct (sector_in_file k Hk) as [H3 H4]. unfold sector_of. rewrite Hst.
  case_decide as Hkn.
  - subst k. rewrite <-Hd at 2. apply slice_splice_eq; [done|by rewrite Hd, (inv_size w Hi)].
  - apply slice_splice_ne; [done|by rewrite Hd, (inv_size w Hi)|done|].
    unfold SectorSize, MagicSize in *. lia.
Qed.

#[export] Program Instance SynchDisk_laws : SectorDiskLaws DiskWorld := {|
  disk_ok := disk_inv;
  sector := sector_of
|}.
Next Obligation.
  intros d n Hi Hn. destruct (sector_in_file n Hn) as [H1 H2]. split.
  - unfold sector_of. apply zlen_slice; [done|done|by rewrite (inv_size d Hi)].
  - apply Forall_slice, Hi.
Qed.
Next Obligation.
  intros d n Hi Hn. eapply run_to_mono; [by apply SynchDisk_read|].
  intros data d' (-> & Hi' & Hst). split; [done|]. split; [done|].
  intros k _. unfold sector_of. by rewrite Hst.
Qed.
Next Obligation.
  intros d n data Hi Hn Hd. eapply run_to_mono; [by apply SynchDisk_write|].
  intros [] d' [Hi' Hst]. split; [done|]. intros k Hk.
  by apply (sector_of_update d d' n data k); [..|apply Hd|].
Qed.

(** ** Creation and reopening *)

Lemma zlen_le_bytes n z : zlen (le_bytes n z) = Z.of_nat n.
Proof. unfold zlen. by rewrite length_le_bytes. Qed.

Lemma zlen_fresh :
  zlen (le_bytes 4 MagicNumber ++ replicate (Z.to_nat (NumSectors * SectorSize)) 0) = DiskSize.
Proof.
  rewrite zlen_app. unfold zlen. rewrite length_le_bytes, length_replicate.
  unfold DiskSize, NumSectors, SectorsPerTrack, NumTracks, SectorSize, MagicSize. lia.
Qed.

Lemma Disk_new_None :
  Disk_new None =
    Ok (mkDisk (le_bytes 4 MagicNumber ++ replicate (Z.to_nat (NumSectors * SectorSize)) 0) false 0 0).
Proof.
  pose proof zlen_fresh as Hz.
  assert (Hw : file_write 0 (le_bytes 4 MagicNumber) [] = Ok (le_bytes 4 MagicNumber)) by reflexivity.
  unfold Disk_new. rewrite Hw, bind_Ok. unfold file_write.
  rewrite ASSERT_true, bind_Ok by reflexivity.
  assert (Hgap : DiskSize - 4 + zlen (le_bytes 4 0) - zlen (le_bytes 4 MagicNumber) =
    NumSectors * SectorSize) by reflexivity.
  rewrite Hgap. clear Hgap Hw. revert Hz. generalize (Z.to_nat (NumSectors * SectorSize)). intros n Hz.
  set (f := le_bytes 4 MagicNumber ++ _) in *.
  assert (H1 : 0 <= DiskSize - 4) by (vm_compute; discriminate).
  assert (H2 : DiskSize - 4 + zlen (le_bytes 4 0) <= zlen f) by (rewrite Hz; vm_compute; discriminate).
  rewrite bwrite_Ok, bind_Ok by assumption.
  enough (Hs : splice (DiskSize - 4) (le_bytes 4 0) f = f) by (rewrite Hs; exact eq_refl).
  apply list_eq. intros i. rewrite splice_lookup by assumption. unfold f.
  case_decide as Hi; [|done]. change (le_bytes 4 0) with (replicate 4 0) in *.
  unfold f in Hz. rewrite zlen_app in Hz.
  unfold zlen, DiskSize, NumSectors, SectorsPerTrack, NumTracks, SectorSize, MagicSize in *.
  rewrite length_le_bytes, length_replicate in Hz.
  rewrite length_replicate in Hi. rewrite lookup_app_r by (rewrite length_le_bytes; lia).
  rewrite length_le_bytes, !lookup_replicate_2 by lia. done.
Qed.

Lemma fresh_disk_inv now : 0 <= now ->
  disk_inv (mkDW (mkDisk (le_bytes 4 MagicNumber ++ replicate (Z.to_nat (NumSectors * SectorSize)) 0)
                    false 0 0) now 0 0 [] 0 false).
Proof.
  intros Hn. split; cbn [disk storage active pending semaphore lock totalTicks lastSector].
  - apply zlen_fresh.
  - apply Forall_app. split; [apply le_bytes_in_u8|]. apply Forall_replicate. unfold in_u8. lia.
  - apply take_app_length'. by rewrite length_le_bytes.
  - reflexivity.
  - reflexivity.
  - reflexivity.
  - reflexivity.
  - exact Hn.
  - by split.
Qed.

Lemma Disk_reopen_ok w : disk_inv w ->
  Disk_new (Some (storage (disk w))) = Ok (mkDisk (storage (disk w)) false 0 0).
Proof.
  intros Hi. unfold Disk_new. rewrite file_read_ok.
  - cbn [mbind res_bind]. rewrite (inv_magic w Hi), le_val_le_bytes. done.
  - done.
  - done.
  - by rewrite (inv_size w Hi).
Qed.

(** ** Properties *)

(** A request to any sector takes at least one rotation of a sector
    and at most a seek over all tracks and a full turn, so the ASSERT of
    [Schedule] on the delay cannot fire; and a read of a track that has been
    passing the head for a whole turn is served from the track buffer in the
    minimal time. *)
Theorem Disk_latency w n writing :
  disk_inv w -> valid_sector n ->
  RotationTime <= ComputeLatency n writing w < MaxLatency /\
  (writing = false ->
   Z.quot n SectorsPerTrack = Z.quot (lastSector (disk w)) SectorsPerTrack ->
   0 <= bufferInit (disk w) ->
   bufferInit (disk w) + SectorsPerTrack * RotationTime <= totalTicks w ->
   ComputeLatency n writing w = RotationTime).
Proof.
  intros Hi Hn. pose proof (inv_time w Hi) as Ht. pose proof (inv_last w Hi) as Hl.
  split; [by apply ComputeLatency_range|]. intros -> Htr Hb Hb'.
  pose proof (TimeToSeek_range n w Hn Hl Ht) as Hs. unfold ComputeLatency.
  destruct (TimeToSeek n w) as [seek rotation] eqn:E. destruct Hs as [_ Hr].
  unfold TimeToSeek in E. rewrite Htr, Z.sub_diag in E. injection E as <- _.
  assert (H0 : 0 <= Z.quot (bufferInit (disk w)) RotationTime) by (apply Z.quot_pos; [done|by unfold RotationTime]).
  pose proof (ModuloDiff_range n (Z.quot (bufferInit (disk w)) RotationTime) (proj1 Hn) H0) as Hmd.
  cbn [negb andb Z.abs Z.mul Z.eqb]. rewrite (proj2 (Z.ltb_lt _ _)); [done|].
  eapply Z.lt_le_trans; [apply Hmd|]. unfold RotationTime, SectorsPerTrack in *.
  apply Z.quot_le_lower_bound; lia.
Qed.

Definition formatted_disk (now : Z) : DiskWorld :=
  mkDW (mkDisk (le_bytes 4 MagicNumber ++ replicate (Z.to_nat (NumSectors * SectorSize)) 0)
          false 0 0) now 0 0 [] 0 false.

Lemma Disk_latency_witness :
  ComputeLatency 7 false (formatted_disk 20000) = RotationTime /\
  ComputeLatency 1023 true (formatted_disk 0) < MaxLatency.
Proof.
  split.
  - apply (Disk_latency (formatted_disk 20000) 7 false);
      [by apply fresh_disk_inv|by split|reflexivity|reflexivity|done|by apply Z.leb_le].
  - apply (Disk_latency (formatted_disk 0) 1023 true); [by apply fresh_disk_inv|by split].
Defined.

(** C38: a disk created on a missing UNIX file, or opened on the file of
    a disk used before, is ready; a sector written through the synchronous
    disk is read back as written, every other sector reads as before, and
    each request is complete (no request active, no interrupt pending, the
    lock free) when the call returns. *)
Theorem SynchDisk_write_read w n k data :
  disk_inv w -> valid_sector n -> valid_sector k -> is_sector_data data ->
  run_to (WriteSector n data) w (fun _ w1 => disk_inv w1 /\
    Disk_new (Some (storage (disk w1))) = Ok (mkDisk (storage (disk w1)) false 0 0) /\
    run_to (ReadSector k) w1 (fun got w2 =>
      got = (if decide (k = n) then data else sector_of w k) /\
      disk_inv w2 /\ storage (disk w2) = storage (disk w1))) /\
  (exists d, Disk_new None = Ok d /\ disk_inv (mkDW d 0 0 0 [] 0 false) /\
     sector_of (mkDW d 0 0 0 [] 0 false) k = replicate 128 0).
Proof.
  intros Hi Hn Hk Hd. split.
  - eapply run_to_mono; [by apply SynchDisk_write|]. intros [] w1 [Hi1 Hst].
    split; [done|]. split; [by apply Disk_reopen_ok|].
    eapply run_to_mono; [by apply SynchDisk_read|]. intros got w2 (-> & Hi2 & Hst2).
    split; [|by split]. by apply (sector_of_update w w1 n data k); [..|apply Hd|].
  - eexists. split; [exact Disk_new_None|]. split; [by apply fresh_disk_inv|].
    destruct (sector_in_file k Hk) as [H1 H2]. unfold sector_of. cbn [disk storage].
    apply list_eq. intros i. rewrite slice_lookup by done. unfold valid_sector, NumSectors in *.
    unfold SectorsPerTrack, NumTracks, SectorSize, MagicSize in *. case_decide.
    + rewrite lookup_app_r by (rewrite length_le_bytes; lia).
      rewrite length_le_bytes, !lookup_replicate_2 by lia. done.
    + symmetry. apply lookup_replicate_None. lia.
Qed.

Lemma SynchDisk_write_read_witness :
  run_to (WriteSector 5 (replicate 128 7)) (formatted_disk 0) (fun _ w1 =>
    run_to (ReadSector 5) w1 (fun got _ => got = replicate 128 7)).
Proof.
  destruct (SynchDisk_write_read (formatted_disk 0) 5 5 (replicate 128 7)) as [H _].
  - by apply fresh_disk_inv.
  - by split.
  - by split.
  - split; [reflexivity|]. apply Forall_replicate. unfold in_u8. lia.
  - eapply run_to_mono; [exact H|]. intros _' w1 (_ & _ & Hr).
    eapply run_to_mono; [exact Hr|]. by intros got w2 [-> _].
Defined.
