(* ===== verification/FileHdr.v ===== *)
(** * filesys/IndirectPointerBlock.{h,cc} and filesys/filehdr.{h,cc}

    The file header (i-node), in the FILESYS build.  The object is
    128 bytes: the two counts and 30 words, which the code indexes as
    [dataSectors] from the first word on (past the four declared entries,
    into the two arrays that follow), as [indirectSector] from word 4 and
    as [indirectPointers] from word 17.  The indirect blocks live in a heap
    of their own.  Pointers are addresses of that heap.

    HdrSize is 180, more than the 128 bytes of the object and of a sector:
    the bcopy of FetchFrom and WriteBack runs past both.  What it does to
    the memory behind them is not modelled; the 128 bytes are.

    The disk is any [SectorDisk]. *)

From stdpp Require Import base list numbers gmap.
From S2P Require Import Prelude Arrays State Bitmap SectorDisk.

Definition MaxIndirectPointers : Z := (SectorSize - 4) / 4.
Definition PointersPerIndirect : Z := (SectorSize - 4) / 4.
Definition NumDirect : Z := (SectorSize - 2 * 4) / 4.
Definition NumInDirect : Z := (SectorSize - 2 * 4 - 4 * 4) / (4 + 4).
Definition HdrSize : Z := 4 * 2 + 4 * NumDirect + 4 * NumInDirect.
Definition MaxFileSize : Z := NumDirect * SectorSize.

(** A sector as words, and words (ints or unsigned) as a sector. *)
Definition sector_words (data : list Z) : list Z := s32 <$> bytes_to_words 32 data.
Definition words_sector (ws : list Z) : list Z := words_to_bytes (u32 <$> ws).

(** ** IndirectPointerBlock *)

Module IPB.
Record t := mk {
  numSectors : Z;
  dataSectors : list Z
}.

Definition new : t := mk 0 (replicate (Z.to_nat MaxIndirectPointers) 0).

(** The object is exactly one sector. *)
Definition of_sector (data : list Z) : t :=
  mk (default 0 (head (sector_words data))) (tail (sector_words data)).
Definition to_sector (b : t) : list Z := words_sector (numSectors b :: dataSectors b).

Definition ByteToSector (offset : Z) (b : t) : res Z :=
  aget (dataSectors b) (Z.quot offset SectorSize).

Definition PutSector (sector : Z) (b : t) : res t :=
  d ← aset (dataSectors b) (numSectors b) sector;
  Ok (mk (numSectors b + 1) d).

(** The loop clears entry [numSectors], not entry [i]. *)
Definition Deallocate (freeMap : BitMap) (b : t) : res (BitMap * t) :=
  freeMap ← for_loop (Z.to_nat (numSectors b)) 0
    (fun i fm => s ← aget (dataSectors b) (numSectors b); Bitmap.Clear s fm) freeMap;
  Ok (freeMap, mk 0 (dataSectors b)).

Section Disk.
Context {D : Type} `{!SectorDisk D}.
Definition FetchFrom (sector : Z) : M D t :=
  data ← ReadSector sector; ret (of_sector data).
Definition WriteBack (sector : Z) (b : t) : M D unit := WriteSector sector (to_sector b).
End Disk.
End IPB.

(** ** The world of the file system: the disk and the indirect blocks *)

Record FSWorld (D : Type) := mkFW {
  dsk : D;
  ipbs : gmap Z IPB.t;
  next_ptr : Z
}.
Arguments mkFW {D} _ _ _.
Arguments dsk {D} _.
Arguments ipbs {D} _.
Arguments next_ptr {D} _.

Section World.
Context {D : Type} `{!SectorDisk D}.

Definition set_dsk (d : D) (w : FSWorld D) : FSWorld D := mkFW d (ipbs w) (next_ptr w).
Definition set_ipbs (m : gmap Z IPB.t) (w : FSWorld D) : FSWorld D := mkFW (dsk w) m (next_ptr w).

Definition on_disk {A} : M D A -> M (FSWorld D) A := zoom dsk set_dsk.

(** [new IndirectPointerBlock()], [*p] and [*p = b]. *)
Definition new_ipb (b : IPB.t) : M (FSWorld D) Z :=
  fun w => Ok (next_ptr w, mkFW (dsk w) (<[next_ptr w := b]> (ipbs w)) (next_ptr w + 1)).
Definition get_ipb (p : Z) : M (FSWorld D) IPB.t :=
  m ← gets ipbs; lift (deref (m !! p)).
Definition put_ipb (p : Z) (b : IPB.t) : M (FSWorld D) unit :=
  modify (fun w => set_ipbs (<[p := b]> (ipbs w)) w).
End World.

(** ** FileHeader *)

Module FileHeader.
Record t := mk {
  numBytes : Z;
  numSectors : Z;
  words : list Z       (* the 30 words behind the counts *)
}.

(** The three arrays of the class inside the words. *)
Definition dataSectors (h : t) (i : Z) : res Z := aget (words h) i.
Definition indirectSector (h : t) (i : Z) : res Z := aget (words h) (4 + i).
Definition indirectPointers (h : t) (i : Z) : res Z := aget (words h) (4 + NumInDirect + i).
Definition set_word (k v : Z) (h : t) : res t :=
  ws ← aset (words h) k v; Ok (mk (numBytes h) (numSectors h) ws).
Definition set_dataSectors (i v : Z) (h : t) : res t := set_word i v h.
Definition set_indirectSector (i v : Z) (h : t) : res t := set_word (4 + i) v h.
Definition set_indirectPointers (i v : Z) (h : t) : res t := set_word (4 + NumInDirect + i) v h.

Definition of_sector (data : list Z) : t :=
  let ws := sector_words data in mk (nth 0 ws 0) (nth 1 ws 0) (drop 2 ws).
Definition to_sector (h : t) : list Z := words_sector (numBytes h :: numSectors h :: words h).

(** int against the unsigned NumDirect. *)
Definition gt_NumDirect (n : Z) : bool := NumDirect <? u32 n.
Definition lt_NumDirect (n : Z) : bool := u32 n <? NumDirect.

Definition FileLength (h : t) : Z := numBytes h.
Definition setNumBytes (newBytes : Z) (h : t) : t := mk newBytes (numSectors h) (words h).

Section Ops.
Context {D : Type} `{!SectorDisk D}.

(** The body of the [for] over one indirect block. *)
Fixpoint put_sectors (n : nat) (p : Z) (freeMap : BitMap) : M (FSWorld D) BitMap :=
  match n with
  | O => ret freeMap
  | S n' =>
      r ← lift (Bitmap.Find freeMap);
      let '(newSec, freeMap) := r in
      b ← get_ipb p;
      b ← lift (IPB.PutSector newSec b);
      _ ← put_ipb p b;
      put_sectors n' p freeMap
  end.

(** The [while] of Allocate; every turn allocates at least one sector. *)
Fixpoint Allocate_loop (fuel : nat) (i sectorsToAllocate : Z) (h : t) (freeMap : BitMap)
  : M (FSWorld D) (t * BitMap) :=
  match fuel with
  | O => ret (h, freeMap)
  | S fuel' =>
      if 0 <? sectorsToAllocate then
        if lt_NumDirect i then
          r ← lift (Bitmap.Find freeMap);
          let '(s, freeMap) := r in
          h ← lift (set_dataSectors i s h);
          Allocate_loop fuel' (i + 1) (sectorsToAllocate - 1) h freeMap
        else
          p ← new_ipb IPB.new;
          h ← lift (set_indirectPointers (i - NumDirect) p h);
          r ← lift (Bitmap.Find freeMap);
          let '(s, freeMap) := r in
          h ← lift (set_indirectSector (i - NumDirect) s h);
          let sectorsToAddToThisPage := Z.min sectorsToAllocate MaxIndirectPointers in
          freeMap ← put_sectors (Z.to_nat sectorsToAddToThisPage) p freeMap;
          Allocate_loop fuel' (i + 1) (sectorsToAllocate - sectorsToAddToThisPage) h freeMap
      else ret (h, freeMap)
  end.

Definition Allocate (freeMap : BitMap) (fileSize : Z) (h : t)
  : M (FSWorld D) (bool * t * BitMap) :=
  if MaxFileSize <? u32 fileSize then ret (false, h, freeMap)
  else
    let numSectors := divRoundUp fileSize SectorSize in
    let h := mk fileSize numSectors (words h) in
    clear ← lift (Bitmap.NumClear freeMap);
    if clear <? numSectors then ret (false, h, freeMap)
    else
      r ← Allocate_loop (Z.to_nat numSectors) 0 numSectors h freeMap;
      let '(h, freeMap) := r in
      ret (true, h, freeMap).

Definition num_indirects (n : Z) : Z := divRoundUp (u32 (n - NumDirect)) PointersPerIndirect.

(** The loop over the data sectors; nothing is freed from 30 sectors on. *)
Definition Deallocate_direct (h : t) (freeMap : BitMap) : res BitMap :=
  for_loop (Z.to_nat (numSectors h)) 0
    (fun i fm =>
       if lt_NumDirect (numSectors h) then
         s ← dataSectors h i;
         b ← Bitmap.Test s fm;
         _ ← ASSERT b;
         Bitmap.Clear s fm
       else Ok fm) freeMap.

Definition Deallocate (freeMap : BitMap) (h : t) : M (FSWorld D) BitMap :=
  freeMap ← lift (Deallocate_direct h freeMap);
  if gt_NumDirect (numSectors h) then
    foldM (Z.to_nat (num_indirects (numSectors h))) 0
      (fun i fm =>
         p ← lift (indirectPointers h i);
         b ← get_ipb p;
         r ← lift (IPB.Deallocate fm b);
         let '(fm, b) := r in
         _ ← put_ipb p b;
         s ← lift (indirectSector h i);
         lift (Bitmap.Clear s fm)) freeMap
  else ret freeMap.

Definition FetchFrom (sector : Z) : M (FSWorld D) t :=
  buf ← on_disk (ReadSector sector);
  let h := of_sector buf in
  if gt_NumDirect (numSectors h) then
    foldM (Z.to_nat (num_indirects (numSectors h))) 0
      (fun i h =>
         s ← lift (indirectSector h i);
         if s =? 0 then ret h
         else
           p ← new_ipb IPB.new;
           h ← lift (set_indirectPointers i p h);
           b ← on_disk (IPB.FetchFrom s);
           _ ← put_ipb p b;
           ret h) h
  else ret h.

Definition WriteBack (sector : Z) (h : t) : M (FSWorld D) unit :=
  _ ← on_disk (WriteSector sector (to_sector h));
  if gt_NumDirect (numSectors h) then
    forM (Z.to_nat (num_indirects (numSectors h))) 0
      (fun i =>
         s ← lift (indirectSector h i);
         if s =? 0 then ret tt
         else
           p ← lift (indirectPointers h i);
           b ← get_ipb p;
           on_disk (IPB.WriteBack s b))
  else ret tt.

(** The block is chosen by the size of the file, not by the offset. *)
Definition ByteToSector (offset : Z) (h : t) : M (FSWorld D) Z :=
  let sector := Z.quot offset SectorSize in
  if lt_NumDirect sector then lift (dataSectors h sector)
  else
    let relSec := divRoundDown (u32 (numSectors h - NumDirect)) PointersPerIndirect in
    let newOff := s32 (offset - SectorSize * NumDirect) in
    p ← lift (indirectPointers h relSec);
    b ← get_ipb p;
    lift (IPB.ByteToSector newOff b).
End Ops.
End FileHeader.

(** ** Headers and blocks as sectors *)

Lemma s32_u32_id ws : Forall in_s32 ws -> s32 <$> (u32 <$> ws) = ws.
Proof.
  induction 1 as [|w ws Hw _ IH]; [done|]. rewrite !fmap_cons, IH, s32_u32, s32_id by done. done.
Qed.

Lemma u32_words ws : Forall in_u32 (u32 <$> ws).
Proof. apply Forall_fmap, Forall_true. intros w. apply u32_range. Qed.

Lemma words_sector_data ws : length ws = 32%nat -> is_sector_data (words_sector ws).
Proof.
  intros Hl. split; [|apply words_to_bytes_in_u8]. unfold words_sector.
  rewrite zlen_words_to_bytes. unfold zlen. by rewrite length_fmap, Hl.
Qed.

Lemma sector_words_sector ws :
  length ws = 32%nat -> Forall in_s32 ws -> sector_words (words_sector ws) = ws.
Proof.
  intros Hl Hs. unfold sector_words, words_sector.
  replace 32%nat with (length (u32 <$> ws)) by by rewrite length_fmap.
  rewrite bytes_to_words_to_bytes by apply u32_words. by apply s32_u32_id.
Qed.

Lemma length_sector_words data : length (sector_words data) = 32%nat.
Proof. unfold sector_words. by rewrite length_fmap, length_bytes_to_words. Qed.

Lemma sector_words_s32 data : Forall in_s32 (sector_words data).
Proof. unfold sector_words. apply Forall_fmap, Forall_true. intros w. apply s32_range. Qed.

Lemma words_sector_words data :
  is_sector_data data -> words_sector (sector_words data) = data.
Proof.
  intros [Hl Hb]. unfold words_sector, sector_words.
  assert (E : u32 <$> (s32 <$> bytes_to_words 32 data) = bytes_to_words 32 data).
  { pose proof (bytes_to_words_in_u32 32 data Hb) as Hw.
    induction Hw as [|w ws Hw _ IH]; [done|]. rewrite !fmap_cons, IH, u32_s32, u32_id by done. done. }
  rewrite E. apply words_to_bytes_to_words; [done|]. unfold zlen, SectorSize in Hl. lia.
Qed.

Record wf_hdr (h : FileHeader.t) : Prop := {
  hdr_len : length (FileHeader.words h) = 30%nat;
  hdr_ints : Forall in_s32 (FileHeader.words h);
  hdr_bytes : in_s32 (FileHeader.numBytes h);
  hdr_sectors : in_s32 (FileHeader.numSectors h)
}.

Lemma to_sector_data h : wf_hdr h -> is_sector_data (FileHeader.to_sector h).
Proof. intros [Hl _ _ _]. apply words_sector_data. simpl. by rewrite Hl. Qed.

Lemma of_to_sector h : wf_hdr h -> FileHeader.of_sector (FileHeader.to_sector h) = h.
Proof.
  intros [Hl Hi Hb Hs]. unfold FileHeader.of_sector, FileHeader.to_sector.
  rewrite sector_words_sector.
  - by destruct h.
  - simpl. by rewrite Hl.
  - by do 2 (constructor; [done|]).
Qed.

Lemma of_sector_wf data : wf_hdr (FileHeader.of_sector data).
Proof.
  unfold FileHeader.of_sector. pose proof (length_sector_words data) as Hl.
  pose proof (sector_words_s32 data) as Hi.
  destruct (sector_words data) as [|a [|b ws]]; try discriminate. cbn in *.
  apply Forall_cons in Hi as [Ha Hi]. apply Forall_cons in Hi as [Hb Hi].
  split; cbn; rewrite ?drop_0; [lia|done..].
Qed.

Definition wf_ipb (b : IPB.t) : Prop :=
  in_s32 (IPB.numSectors b) /\ length (IPB.dataSectors b) = 31%nat /\
  Forall in_s32 (IPB.dataSectors b).

Lemma ipb_of_to_sector b : wf_ipb b -> IPB.of_sector (IPB.to_sector b) = b.
Proof.
  intros (H1 & H2 & H3). unfold IPB.of_sector, IPB.to_sector. rewrite sector_words_sector.
  - by destruct b.
  - simpl. by rewrite H2.
  - by constructor.
Qed.

Lemma ipb_to_sector_data b : wf_ipb b -> is_sector_data (IPB.to_sector b).
Proof. intros (_ & H2 & _). apply words_sector_data. simpl. by rewrite H2. Qed.

(** ** Small files: no indirect blocks *)

Lemma gt_NumDirect_small n : 0 <= n <= NumDirect -> FileHeader.gt_NumDirect n = false.
Proof.
  intros H. unfold FileHeader.gt_NumDirect. change NumDirect with 30 in *.
  rewrite u32_id by (unfold in_u32; lia). apply Z.ltb_ge. lia.
Qed.

Lemma lt_NumDirect_spec n : 0 <= n < 2 ^ 32 -> FileHeader.lt_NumDirect n = (n <? NumDirect).
Proof. intros H. unfold FileHeader.lt_NumDirect. by rewrite u32_id. Qed.

Section Ops.
Context {D : Type} `{!SectorDisk D}.
Implicit Types (w : FSWorld D).

(** The loop of Allocate on the direct sectors: they are the first clear
    bits of the map, in order. *)
Lemma Allocate_loop_direct n i h fm w :
  wf fm -> 0 <= i -> i + Z.of_nat n <= NumDirect ->
  length (FileHeader.words h) = 30%nat -> (n <= length (clear_bits fm))%nat ->
  exists fm', FileHeader.Allocate_loop n i (Z.of_nat n) h fm w =
      Ok ((FileHeader.mk (FileHeader.numBytes h) (FileHeader.numSectors h)
             (splice i (take n (clear_bits fm)) (FileHeader.words h)), fm'), w) /\
    wf fm' /\ numBits fm' = numBits fm /\ numWords fm' = numWords fm /\
    clear_bits fm' = drop n (clear_bits fm).
Proof.
  revert i h fm. induction n as [|n IH]; intros i h fm Hwf Hi Hn Hl Hc.
  - exists fm. cbn [FileHeader.Allocate_loop]. split; [|by rewrite drop_0].
    unfold ret. rewrite take_0, splice_nil. by destruct h.
  - destruct (clear_bits fm) as [|s l] eqn:E; [simpl in Hc; lia|].
    destruct (Find_clear fm s l Hwf E) as (fm1 & HF & Hwf1 & Hnb & Hnw & Hl1).
    assert (Hset : aset (FileHeader.words h) i s = Ok (<[Z.to_nat i := s]> (FileHeader.words h))).
    { apply aset_in_range. unfold zlen. rewrite Hl. change NumDirect with 30 in Hn. lia. }
    destruct (IH (i + 1) (FileHeader.mk (FileHeader.numBytes h) (FileHeader.numSectors h)
      (<[Z.to_nat i := s]> (FileHeader.words h))) fm1) as (fm' & HA & Hwf' & Hnb' & Hnw' & Hl').
    { done. } { lia. } { lia. } { cbn. by rewrite length_insert. } { rewrite Hl1. simpl in Hc. lia. }
    exists fm'. cbn [FileHeader.Allocate_loop].
    rewrite (proj2 (Z.ltb_lt 0 (Z.of_nat (S n)))) by lia.
    rewrite lt_NumDirect_spec by (change NumDirect with 30 in *; lia).
    rewrite (proj2 (Z.ltb_lt i NumDirect)) by lia.
    unfold mbind, M_bind, lift at 1. rewrite HF. cbn [fst snd].
    unfold FileHeader.set_dataSectors, FileHeader.set_word, lift. rewrite Hset. cbn [mbind res_bind].
    replace (Z.of_nat (S n) - 1) with (Z.of_nat n) by lia. rewrite HA, Hl1. cbn [FileHeader.words FileHeader.numBytes FileHeader.numSectors].
    split; [|by rewrite Hnb', Hnw', Hl', Hl1]. do 4 f_equal.
    rewrite firstn_cons, splice_cons; [done|done|]. change NumDirect with 30 in Hn.
    unfold zlen. rewrite length_take, Hl. lia.
Qed.

(** [Allocate], for every size. *)
Lemma Allocate_spec fm size h w :
  wf fm -> in_s32 size -> length (FileHeader.words h) = 30%nat ->
  let n := divRoundUp size SectorSize in
  if (size <? 0) || (MaxFileSize <? size) then
    FileHeader.Allocate fm size h w = Ok (false, h, fm, w)
  else if zlen (clear_bits fm) <? n then
    FileHeader.Allocate fm size h w =
      Ok (false, FileHeader.mk size n (FileHeader.words h), fm, w)
  else exists fm',
    FileHeader.Allocate fm size h w =
      Ok (true, FileHeader.mk size n
            (splice 0 (take (Z.to_nat n) (clear_bits fm)) (FileHeader.words h)), fm', w) /\
    wf fm' /\ numBits fm' = numBits fm /\ numWords fm' = numWords fm /\
    clear_bits fm' = drop (Z.to_nat n) (clear_bits fm).
Proof.
  intros Hwf Hs Hl. cbn zeta. unfold FileHeader.Allocate. change MaxFileSize with 3840.
  unfold in_s32 in Hs. destruct (Z.ltb_spec size 0) as [Hneg|Hpos]; cbn [orb].
  { replace (u32 size) with (size + 2 ^ 32); [by rewrite (proj2 (Z.ltb_lt _ _)) by lia|].
    apply (Z.mod_unique_pos _ _ (-1)); lia. }
  rewrite u32_id by (unfold in_u32; lia). destruct (Z.ltb_spec 3840 size) as [|Hmax]; [done|].
  unfold mbind, M_bind, lift at 1 2. rewrite NumClear_loop by done.
  set (n := divRoundUp size SectorSize). 
  assert (Hn : 0 <= n <= NumDirect).
  { pose proof (divRoundUp_spec size SectorSize Hpos ltac:(done)) as Hd. fold n in Hd.
    change SectorSize with 128 in Hd. change NumDirect with 30. lia. }
  destruct (Z.ltb_spec (zlen (clear_bits fm)) n) as [|Hc]; [done|].
  destruct (Allocate_loop_direct (Z.to_nat n) 0 (FileHeader.mk size n (FileHeader.words h)) fm w)
    as (fm' & HA & Hwf' & Hnb & Hnw & Hl'); [done|lia|lia|done|unfold zlen in Hc; lia|].
  rewrite Z2Nat.id in HA by lia. exists fm'. rewrite HA. done.
Qed.

Context `{!SectorDiskLaws D}.

Definition fs_ok (w : FSWorld D) : Prop := disk_ok (dsk w).

(** The world after a change of sector [n] only. *)
Definition sectors_of (w : FSWorld D) (n : Z) : list Z := sector (dsk w) n.

Lemma on_disk_read n w :
  fs_ok w -> valid_sector n ->
  run_to (on_disk (ReadSector n)) w (fun data w' =>
    data = sectors_of w n /\ fs_ok w' /\ forall k, valid_sector k -> sectors_of w' k = sectors_of w k).
Proof.
  intros Hok Hn. apply run_to_zoom. eapply run_to_mono; [by apply ReadSector_law|].
  intros data d' (-> & Hd & Hs). by split.
Qed.

Lemma on_disk_write n data w :
  fs_ok w -> valid_sector n -> is_sector_data data ->
  run_to (on_disk (WriteSector n data)) w (fun _ w' =>
    fs_ok w' /\ forall k, valid_sector k ->
      sectors_of w' k = if decide (k = n) then data else sectors_of w k).
Proof.
  intros Hok Hn Hd. apply run_to_zoom. eapply run_to_mono; [by apply WriteSector_law|].
  intros [] d' (Hd' & Hs). by split.
Qed.

Lemma hdr_WriteBack sector h w :
  fs_ok w -> valid_sector sector -> wf_hdr h -> 0 <= FileHeader.numSectors h <= NumDirect ->
  run_to (FileHeader.WriteBack sector h) w (fun _ w' =>
    fs_ok w' /\ forall k, valid_sector k ->
      sectors_of w' k = if decide (k = sector) then FileHeader.to_sector h else sectors_of w k).
Proof.
  intros Hok Hn Hh Hs. unfold FileHeader.WriteBack. rewrite gt_NumDirect_small by done.
  step_with (on_disk_write sector (FileHeader.to_sector h) w Hok Hn (to_sector_data h Hh)).
  intros _' w' [Hok' Hw']. apply run_to_ret. by split.
Qed.

Lemma hdr_FetchFrom sector h w :
  fs_ok w -> valid_sector sector -> wf_hdr h -> 0 <= FileHeader.numSectors h <= NumDirect ->
  sectors_of w sector = FileHeader.to_sector h ->
  run_to (FileHeader.FetchFrom sector) w (fun h' w' =>
    h' = h /\ fs_ok w' /\ forall k, valid_sector k -> sectors_of w' k = sectors_of w k).
Proof.
  intros Hok Hn Hh Hs Hsec. unfold FileHeader.FetchFrom.
  step_with (on_disk_read sector w Hok Hn). intros data w' (-> & Hok' & Hw').
  rewrite Hsec, of_to_sector, gt_NumDirect_small by done. apply run_to_ret. by split.
Qed.

Lemma hdr_ByteToSector off h w s :
  0 <= off < MaxFileSize -> aget (FileHeader.words h) (off / SectorSize) = Ok s ->
  run_to (FileHeader.ByteToSector off h) w (fun s' w' => s' = s /\ w' = w).
Proof.
  intros Ho Hs. unfold FileHeader.ByteToSector. change MaxFileSize with 3840 in Ho.
  change SectorSize with 128 in *. rewrite Z.quot_div_nonneg by lia.
  assert (0 <= off / 128 < 30) by (Z.to_euclidean_division_equations; lia).
  rewrite lt_NumDirect_spec by lia. change NumDirect with 30. rewrite (proj2 (Z.ltb_lt _ _)) by lia.
  by eapply run_to_lift.
Qed.

(** Freeing the data sectors of a file below the limit. *)
Lemma Deallocate_direct_spec h fm :
  wf fm -> wf_hdr h -> 0 <= FileHeader.numSectors h < NumDirect ->
  (forall s, s ∈ take (Z.to_nat (FileHeader.numSectors h)) (FileHeader.words h) ->
     0 <= s < numBits fm /\ bitat fm s = true) ->
  NoDup (take (Z.to_nat (FileHeader.numSectors h)) (FileHeader.words h)) ->
  exists fm', FileHeader.Deallocate_direct h fm = Ok fm' /\ wf fm' /\ numBits fm' = numBits fm /\
    forall j, j ∈ clear_bits fm' <->
      j ∈ take (Z.to_nat (FileHeader.numSectors h)) (FileHeader.words h) \/ j ∈ clear_bits fm.
Proof.
  intros Hwf Hh Hn Hsec Hnd. unfold FileHeader.Deallocate_direct.
  set (n := FileHeader.numSectors h) in *. set (ws := FileHeader.words h) in *.
  assert (Hlen : length ws = 30%nat) by apply Hh. change NumDirect with 30 in Hn.
  rewrite lt_NumDirect_spec by lia. change NumDirect with 30.
  rewrite (proj2 (Z.ltb_lt _ _)) by lia.
  destruct (for_loop_inv
    (fun i f => wf f /\ numBits f = numBits fm /\
       forall j, j ∈ clear_bits f <-> j ∈ take (Z.to_nat i) ws \/ j ∈ clear_bits fm)
    (fun i f => s ← FileHeader.dataSectors h i; b ← Bitmap.Test s f; _ ← ASSERT b; Bitmap.Clear s f)
    (Z.to_nat n) 0 fm) as (fm' & HF & Hwf' & Hnb & Hc).
  - split; [done|]. split; [done|]. intros j. rewrite take_0, elem_of_nil. tauto.
  - intros i f Hi (Hwff & Hnbf & Hcf). unfold FileHeader.dataSectors. fold ws.
    destruct (aget_in_range ws i) as [s Hs]; [unfold zlen; lia|]. rewrite Hs, bind_Ok.
    apply aget_Ok_inv in Hs as [_ Hs].
    assert (Hin : s ∈ take (Z.to_nat n) ws).
    { apply list_elem_of_lookup. exists (Z.to_nat i). rewrite lookup_take_lt by lia. done. }
    destruct (Hsec s Hin) as [Hsr Hsb].
    assert (Hb : bitat f s = true).
    { apply not_false_iff_true. intros Hf.
      assert (Hsc : s ∈ clear_bits f) by (apply elem_of_clear_bits; rewrite Hnbf; done).
      apply Hcf in Hsc as [Hsc|Hsc].
      - apply list_elem_of_lookup in Hsc as [k Hk]. 
        assert (k < Z.to_nat i)%nat by (apply lookup_lt_Some in Hk; rewrite length_take in Hk; lia).
        rewrite lookup_take_lt in Hk by lia.
        assert (k = Z.to_nat i); [|lia].
        eapply (NoDup_lookup (take (Z.to_nat n) ws)); [done| |]; rewrite lookup_take_lt by lia; done.
      - apply elem_of_clear_bits in Hsc as [_ Hsc]. congruence. }
    rewrite Test_bit, Hb by (done || lia). cbn [mbind res_bind ASSERT].
    destruct (Clear_clear_bits f s Hwff) as (f' & -> & Hwf1 & Hnb1 & Hc1); [by rewrite Hnbf|].
    exists f'. split; [done|]. split; [done|]. split; [congruence|]. intros j.
    rewrite Hc1, Hcf. replace (Z.to_nat (i + 1)) with (S (Z.to_nat i)) by lia.
    rewrite (take_S_r _ _ s) by done. rewrite elem_of_app, list_elem_of_singleton. tauto.
  - exists fm'. do 3 (split; [done|]). intros j. rewrite Hc. replace (0 + Z.of_nat (Z.to_nat n)) with n by lia. done.
Qed.
End Ops.

(** ** Properties *)


Definition empty_world : FSWorld unit := mkFW tt ∅ 0.
Definition zero_hdr : FileHeader.t := FileHeader.mk 0 0 (replicate 30 0).


(** A header of a file without indirect blocks that is written back
    to its sector is fetched as it was, and no other sector changes. *)
Theorem header_WriteBack_FetchFrom {D} `{!SectorDisk D, !SectorDiskLaws D} sector h (w : FSWorld D) :
  fs_ok w -> valid_sector sector -> wf_hdr h -> 0 <= FileHeader.numSectors h <= NumDirect ->
  run_to (_ ← FileHeader.WriteBack sector h; FileHeader.FetchFrom sector) w (fun h' w' =>
    h' = h /\ fs_ok w' /\
    forall k, valid_sector k -> k <> sector -> sectors_of w' k = sectors_of w k).
Proof.
  intros Hok Hn Hh Hs. step_with (hdr_WriteBack sector h w Hok Hn Hh Hs). intros ? w1 [Hok1 Hw1].
  eapply run_to_mono; [apply hdr_FetchFrom; try done|].
  - rewrite Hw1 by done. by rewrite decide_True.
  - intros h' w' (-> & Hok' & Hw'). split; [done|]. split; [done|]. intros k Hk Hne.
    rewrite Hw', Hw1 by done. by rewrite decide_False.
Qed.

(** A disk that is nothing but its sectors. *)
#[export] Instance RamDisk : SectorDisk (list (list Z)) := {|
  ReadSector := fun n => d ← gets id; s ← lift (aget d n); ret s;
  WriteSector := fun n data => d ← gets id; d' ← lift (aset d n data); modify (fun _ => d')
|}.

#[export] Program Instance RamDisk_laws : SectorDiskLaws (list (list Z)) := {|
  disk_ok := fun d => zlen d = NumSectors /\ Forall is_sector_data d;
  sector := fun d n => default [] (d !! Z.to_nat n)
|}.
Next Obligation.
  intros d n [Hl Hd] Hn. cbn. unfold valid_sector in Hn.
  destruct (lookup_lt_is_Some_2 d (Z.to_nat n)) as [s Hs]; [unfold zlen in Hl; lia|].
  rewrite Hs. cbn. by eapply Forall_lookup_1.
Qed.
Next Obligation.
  intros d n [Hl Hd] Hn. cbn. unfold valid_sector in Hn.
  destruct (aget_in_range d n) as [s Hs]; [lia|]. repeat step; [exact Hs|].
  apply aget_Ok_inv in Hs as [_ Hs]. step. unfold id. rewrite Hs. done.
Qed.
Next Obligation.
  intros d n data [Hl Hd] Hn Hdata. cbn. unfold valid_sector in Hn.
  repeat step; [apply aset_in_range; unfold id; lia|]. step. split.
  - unfold id. rewrite zlen_insert. split; [done|by apply Forall_insert].
  - intros k Hk. unfold id, valid_sector in *. case_decide as E.
    + subst k. rewrite list_lookup_insert_eq; [done|unfold zlen in Hl; lia].
    + by rewrite list_lookup_insert_ne by lia.
Qed.

Definition blank_disk : list (list Z) := replicate (Z.to_nat NumSectors) (replicate 128 0).
Definition blank_world : FSWorld (list (list Z)) := mkFW blank_disk ∅ 0.

Lemma blank_world_ok : fs_ok blank_world.
Proof.
  split; [vm_compute; reflexivity|]. apply Forall_replicate. split; [reflexivity|].
  apply Forall_replicate. unfold in_u8. lia.
Qed.

Definition example_hdr : FileHeader.t := FileHeader.mk 300 3 ([33; 35; 36] ++ replicate 27 0).

Lemma example_hdr_wf : wf_hdr example_hdr.
Proof. split; cbn; unfold in_s32; try lia. repeat (constructor; [lia|]). constructor. Qed.

Lemma header_WriteBack_FetchFrom_witness :
  run_to (_ ← FileHeader.WriteBack 9 example_hdr; FileHeader.FetchFrom 9) blank_world
    (fun h' _ => h' = example_hdr).
Proof.
  eapply run_to_mono.
  - apply (header_WriteBack_FetchFrom 9 example_hdr blank_world).
    + apply blank_world_ok.
    + by split.
    + apply example_hdr_wf.
    + by split.
  - by intros h' w' (-> & _).
Defined.

(** Deallocating the header that [Allocate] filled gives back every
    sector it took, for files of fewer than 30 sectors; a file of exactly
    30 sectors, which Allocate accepts, frees none of them. *)
Theorem Deallocate_Allocate {D} fm size h h' fm' (w : FSWorld D) :
  wf fm -> in_s32 size -> numBits fm < 2 ^ 31 -> wf_hdr h ->
  FileHeader.Allocate fm size h w = Ok (true, h', fm', w) ->
  exists fm'', FileHeader.Deallocate fm' h' w = Ok (fm'', w) /\ wf fm'' /\
    if FileHeader.numSectors h' =? NumDirect then fm'' = fm'
    else forall j, 0 <= j < numBits fm -> bitat fm'' j = bitat fm j.
Proof.
  intros Hwf Hs Hnb Hh HA. pose proof (Allocate_spec fm size h w Hwf Hs (hdr_len h Hh)) as Hsp.
  cbn zeta in Hsp. set (n := divRoundUp size SectorSize) in *.
  destruct ((size <? 0) || (MaxFileSize <? size)) eqn:Esz; [congruence|].
  destruct (Z.ltb_spec (zlen (clear_bits fm)) n) as [|Hc]; [congruence|].
  destruct Hsp as (fm1 & HA' & Hwf' & Hnb' & _ & Hcl). rewrite HA in HA'. injection HA' as -> ->.
  apply orb_false_elim in Esz as [E1 E2]. apply Z.ltb_ge in E1, E2.
  pose proof (divRoundUp_spec size SectorSize E1 ltac:(done)) as Hd. fold n in Hd.
  change SectorSize with 128 in Hd. change MaxFileSize with 3840 in E2. change NumDirect with 30.
  set (secs := take (Z.to_nat n) (clear_bits fm)) in *.
  assert (Hlen : length secs = Z.to_nat n) by (unfold secs; rewrite length_take; unfold zlen in Hc; lia).
  assert (Hcf : clear_bits fm = secs ++ clear_bits fm1) by (rewrite Hcl; symmetry; apply take_drop).
  unfold FileHeader.Deallocate. cbn [FileHeader.numSectors].
  rewrite gt_NumDirect_small by (change NumDirect with 30; lia).
  unfold mbind, M_bind, lift at 1. destruct (Z.eqb_spec n 30) as [Hn|Hn].
  - exists fm1. split; [|done]. unfold FileHeader.Deallocate_direct. cbn [FileHeader.numSectors].
    rewrite lt_NumDirect_spec, Hn by lia. reflexivity.
  - set (hd := FileHeader.mk size n _).
    assert (Hsz : zlen secs <= zlen (FileHeader.words h)).
    { unfold zlen. rewrite (hdr_len h Hh), Hlen. lia. }
    assert (Hw : take (Z.to_nat n) (FileHeader.words hd) = secs).
    { pose proof (slice_splice_eq 0 secs (FileHeader.words h) ltac:(lia) Hsz) as Hsl.
      unfold slice in Hsl. rewrite drop_0 in Hsl. unfold zlen in Hsl.
      rewrite Hlen, Nat2Z.id in Hsl. apply Hsl. }
    pose proof (NoDup_clear_bits fm) as Hnd. rewrite Hcf in Hnd. apply NoDup_app in Hnd as (Hn1 & Hdis & _).
    assert (Hin : forall s, s ∈ secs -> 0 <= s < numBits fm).
    { intros s Hs'. assert (Hsc : s ∈ clear_bits fm) by (rewrite Hcf, elem_of_app; by left).
      by apply elem_of_clear_bits in Hsc as [? _]. }
    assert (Hsec32 : Forall in_s32 secs).
    { apply Forall_forall. intros s Hs'. specialize (Hin s Hs'). unfold in_s32. lia. }
    destruct (Deallocate_direct_spec hd fm1) as (fm'' & HD & Hwf2 & Hnb2 & Hc2).
    + done.
    + split; cbn.
      * assert (Hz := zlen_splice 0 secs (FileHeader.words h) ltac:(lia) Hsz).
        unfold zlen in Hz. rewrite (hdr_len h Hh) in Hz. lia.
      * apply Forall_splice; [done|apply Hh].
      * done.
      * unfold in_s32. lia.
    + change NumDirect with 30. cbn. lia.
    + cbn [FileHeader.numSectors hd]. fold hd. rewrite Hw. intros s Hs'. rewrite Hnb'. split; [by apply Hin|].
      apply not_false_iff_true. intros Hf. apply (Hdis s Hs'), elem_of_clear_bits. rewrite Hnb'. auto.
    + cbn [FileHeader.numSectors hd]. fold hd. by rewrite Hw.
    + exists fm''. rewrite HD. split; [done|]. split; [done|]. intros j Hj.
      cbn [FileHeader.numSectors hd] in Hc2. fold hd in Hc2. rewrite Hw in Hc2.
      assert (Hiff : bitat fm'' j = false <-> bitat fm j = false).
      { transitivity (j ∈ clear_bits fm''); [rewrite elem_of_clear_bits, Hnb2, Hnb'; tauto|].
        rewrite Hc2, <-elem_of_app, <-Hcf, elem_of_clear_bits. tauto. }
      destruct (bitat fm'' j), (bitat fm j); try done.
      * by destruct (proj2 Hiff eq_refl).
      * by destruct (proj1 Hiff eq_refl).
Qed.

Lemma Deallocate_Allocate_witness :
  exists h' fm' fm'', FileHeader.Allocate example_map 300 zero_hdr empty_world = Ok (true, h', fm', empty_world) /\
    FileHeader.Deallocate fm' h' empty_world = Ok (fm'', empty_world) /\ bitat fm'' 33 = false.
Proof.
  destruct (FileHeader.Allocate example_map 300 zero_hdr empty_world) as [[[[b h'] fm'] w']|] eqn:E;
    [|vm_compute in E; discriminate].
  vm_compute in E. injection E as <- <- <- <-.
  destruct (Deallocate_Allocate example_map 300 zero_hdr
    (FileHeader.mk 300 3 ([33; 35; 36] ++ replicate 27 0)) (mkBitMap 40 2 [4294967295; 31]) empty_world)
    as (fm'' & HD & _ & Hb); try done.
  - apply example_map_wf.
  - split; cbn; unfold in_s32; try lia. repeat (constructor; [lia|]). constructor.
  - eexists _, _, fm''. split; [reflexivity|]. split; [exact HD|]. cbn in Hb. rewrite Hb by lia. reflexivity.
Defined.

(** [PutSector] appends a sector that [ByteToSector] finds at its
    place; but deallocating a block with [n] entries clears, [n] times over,
    the sector in the first unused entry and none of the sectors of the
    block, and faults when the block is full. *)
Theorem IPB_PutSector_Deallocate b s fm n e :
  wf fm -> n = IPB.numSectors b -> 0 < n <= MaxIndirectPointers ->
  length (IPB.dataSectors b) = 31%nat ->
  (n < MaxIndirectPointers -> exists b', IPB.PutSector s b = Ok b' /\ IPB.numSectors b' = n + 1 /\
     IPB.ByteToSector (n * SectorSize) b' = Ok s /\
     forall i, 0 <= i < n -> IPB.ByteToSector (i * SectorSize) b' = IPB.ByteToSector (i * SectorSize) b) /\
  (aget (IPB.dataSectors b) n = Ok e -> 0 <= e < numBits fm ->
     exists fm', IPB.Deallocate fm b = Ok (fm', IPB.mk 0 (IPB.dataSectors b)) /\
       forall j, 0 <= j < numBits fm -> bitat fm' j = if j =? e then false else bitat fm j) /\
  (n = MaxIndirectPointers -> IPB.Deallocate fm b = Err MemFault).
Proof.
  intros Hwf -> Hn Hl. change MaxIndirectPointers with 31 in *.
  assert (Hq : forall i, 0 <= i -> Z.quot (i * SectorSize) SectorSize = i).
  { intros i Hi. change SectorSize with 128. by rewrite Z.quot_mul. }
  split; [|split].
  - intros Hlt. unfold IPB.PutSector. rewrite aset_in_range by (unfold zlen; lia).
    eexists. split; [done|]. split; [done|]. unfold IPB.ByteToSector. cbn [IPB.dataSectors].
    rewrite Hq by lia. split; [apply aget_insert_eq; unfold zlen; lia|].
    intros i Hi. rewrite Hq by lia. apply aget_insert_ne; lia.
  - intros He Her. unfold IPB.Deallocate.
    destruct (for_loop_inv
      (fun i f => wf f /\ numBits f = numBits fm /\ forall j, 0 <= j < numBits fm ->
         bitat f j = if (0 <? i) && (j =? e) then false else bitat fm j)
      (fun _ f => s ← aget (IPB.dataSectors b) (IPB.numSectors b); Bitmap.Clear s f)
      (Z.to_nat (IPB.numSectors b)) 0 fm) as (fm' & -> & _ & _ & Hb).
    + by do 2 (split; [done|]).
    + intros i f Hi (Hwff & Hnb & Hb). rewrite He, bind_Ok.
      destruct (Clear_bit f e Hwff) as (f' & -> & Hwf' & Hnb' & Hb'); [by rewrite Hnb|].
      exists f'. split; [done|]. split; [done|]. split; [congruence|]. intros j Hj.
      rewrite Hb', Hb by lia. rewrite (proj2 (Z.ltb_lt 0 (i + 1))) by lia. cbn [andb].
      destruct (j =? e); [done|]. by rewrite andb_false_r.
    + exists fm'. split; [done|]. intros j Hj. rewrite Hb by done.
      by rewrite (proj2 (Z.ltb_lt 0 _)) by lia.
  - intros Hf. unfold IPB.Deallocate. rewrite Hf. change (Z.to_nat 31) with (S 30).
    cbn [for_loop]. unfold aget. cbn [Z.leb Z.compare].
    rewrite lookup_ge_None_2 by (rewrite Hl; reflexivity). reflexivity.
Qed.

Definition example_ipb : IPB.t := IPB.mk 2 ([33; 35; 36] ++ replicate 28 0).

Lemma IPB_PutSector_Deallocate_witness :
  exists fm', IPB.Deallocate example_map example_ipb = Ok (fm', IPB.mk 0 (IPB.dataSectors example_ipb)) /\
    bitat fm' 34 = bitat example_map 34.
Proof.
  destruct (IPB_PutSector_Deallocate example_ipb 9 example_map 2 36) as (_ & H & _);
    [apply example_map_wf|done|by split|done|].
  destruct H as (fm' & HD & Hb); [done|cbn; lia|]. exists fm'. split; [exact HD|].
  rewrite Hb by (cbn; lia). reflexivity.
Defined.
