(* ===== verification/OpenFile.v ===== *)
(** * filesys/openfile.{h,cc}

    Open files of the FILESYS build: reads and writes of byte ranges done
    with whole sectors.  [new_char] is the uninitialised memory that
    [new char[n]] returns.  ReadAt returns the bytes it stores in the
    caller's buffer; their number is its return value. *)

From stdpp Require Import base list numbers gmap.
From S2P Require Import Prelude Arrays State Bitmap SectorDisk FileHdr.

Record OpenFile := mkOpenFile {
  hdr : FileHeader.t;
  seekPosition : Z
}.

Section Ops.
Context {D : Type} `{!SectorDisk D} (new_char : Z -> list Z).

Definition OpenFile_new (sector : Z) : M (FSWorld D) OpenFile :=
  h ← FileHeader.FetchFrom sector; ret (mkOpenFile h 0).

Definition Seek (position : Z) (f : OpenFile) : OpenFile := mkOpenFile (hdr f) position.

Definition Length (f : OpenFile) : Z := FileHeader.FileLength (hdr f).

(** The bytes of the request that lie in the file. *)
Definition clip (fileLength numBytes position : Z) : Z :=
  if fileLength <? s32 (position + numBytes) then fileLength - position else numBytes.

Definition ReadAt (numBytes position : Z) (f : OpenFile) : M (FSWorld D) (list Z) :=
  let fileLength := FileHeader.FileLength (hdr f) in
  if (numBytes <=? 0) || (fileLength <=? position) then ret []
  else
    let numBytes := clip fileLength numBytes position in
    let firstSector := divRoundDown position SectorSize in
    let lastSector := divRoundDown (s32 (position + numBytes - 1)) SectorSize in
    let numSectors := 1 + lastSector - firstSector in
    buf ← foldM (Z.to_nat numSectors) firstSector
      (fun i buf =>
         s ← FileHeader.ByteToSector (i * SectorSize) (hdr f);
         data ← on_disk (ReadSector s);
         lift (bwrite ((i - firstSector) * SectorSize) data buf))
      (new_char (numSectors * SectorSize));
    lift (bread (position - firstSector * SectorSize) numBytes buf).

(** [ReadAt] into the buffer [buf] from offset [off] on. *)
Definition ReadAt_into (buf : list Z) (off numBytes position : Z) (f : OpenFile)
  : M (FSWorld D) (list Z) :=
  bytes ← ReadAt numBytes position f; lift (bwrite off bytes buf).

Definition WriteAt (from : list Z) (numBytes position : Z) (f : OpenFile) : M (FSWorld D) Z :=
  let fileLength := FileHeader.FileLength (hdr f) in
  if (numBytes <=? 0) || (fileLength <=? position) then ret 0
  else
    let numBytes := clip fileLength numBytes position in
    let firstSector := divRoundDown position SectorSize in
    let lastSector := divRoundDown (s32 (position + numBytes - 1)) SectorSize in
    let numSectors := 1 + lastSector - firstSector in
    let buf := new_char (numSectors * SectorSize) in
    let firstAligned := position =? firstSector * SectorSize in
    let lastAligned := position + numBytes =? (lastSector + 1) * SectorSize in
    buf ← (if negb firstAligned then
             ReadAt_into buf 0 SectorSize (firstSector * SectorSize) f
           else ret buf);
    buf ← (if negb lastAligned && (negb (firstSector =? lastSector) || firstAligned) then
             ReadAt_into buf ((lastSector - firstSector) * SectorSize) SectorSize
               (lastSector * SectorSize) f
           else ret buf);
    bytes ← lift (bread 0 numBytes from);
    buf ← lift (bwrite (position - firstSector * SectorSize) bytes buf);
    _ ← forM (Z.to_nat numSectors) firstSector
      (fun i =>
         s ← FileHeader.ByteToSector (i * SectorSize) (hdr f);
         data ← lift (bread ((i - firstSector) * SectorSize) SectorSize buf);
         on_disk (WriteSector s data));
    ret numBytes.

Definition Read (numBytes : Z) (f : OpenFile) : M (FSWorld D) (list Z * OpenFile) :=
  bytes ← ReadAt numBytes (seekPosition f) f;
  ret (bytes, mkOpenFile (hdr f) (s32 (seekPosition f + zlen bytes))).

Definition Write (from : list Z) (numBytes : Z) (f : OpenFile) : M (FSWorld D) (Z * OpenFile) :=
  result ← WriteAt from numBytes (seekPosition f) f;
  ret (result, mkOpenFile (hdr f) (s32 (seekPosition f + result))).

(** [BitMap::FetchFrom] and [BitMap::WriteBack]. *)
Definition BitMap_FetchFrom (file : OpenFile) (bm : BitMap) : M (FSWorld D) BitMap :=
  got ← ReadAt (numWords bm * 4) 0 file; lift (FetchFrom_bytes got bm).
Definition BitMap_WriteBack (file : OpenFile) (bm : BitMap) : M (FSWorld D) unit :=
  _ ← WriteAt (WriteBack_bytes bm) (numWords bm * 4) 0 file; ret tt.

(** [FileHeader::ExtendFile]; [words] is the fresh storage of the map.
    The index [i] never moves, so every new direct sector lands in the
    same entry and every turn beyond 30 sectors starts a new block. *)
Fixpoint ExtendFile_loop (fuel : nat) (i sectorsToAllocate : Z) (h : FileHeader.t)
    (freeMap : BitMap) : M (FSWorld D) (FileHeader.t * BitMap) :=
  match fuel with
  | O => ret (h, freeMap)
  | S fuel' =>
      if 0 <? sectorsToAllocate then
        if FileHeader.lt_NumDirect i then
          r ← lift (Bitmap.Find freeMap);
          let '(s, freeMap) := r in
          h ← lift (FileHeader.set_dataSectors i s h);
          let h := FileHeader.mk (FileHeader.numBytes h) (FileHeader.numSectors h + 1)
                     (FileHeader.words h) in
          ExtendFile_loop fuel' i (sectorsToAllocate - 1) h freeMap
        else
          p ← new_ipb IPB.new;
          h ← lift (FileHeader.set_indirectPointers (i - NumDirect) p h);
          let sectorsToAddToThisPage := Z.min sectorsToAllocate MaxIndirectPointers in
          freeMap ← FileHeader.put_sectors (Z.to_nat sectorsToAddToThisPage) p freeMap;
          let h := FileHeader.mk (FileHeader.numBytes h)
                     (FileHeader.numSectors h + sectorsToAddToThisPage) (FileHeader.words h) in
          ExtendFile_loop fuel' i (sectorsToAllocate - sectorsToAddToThisPage) h freeMap
      else ret (h, freeMap)
  end.

Definition FreeMapSector : Z := 0.

Definition ExtendFile (sectorsToAllocate : Z) (storage : list Z) (h : FileHeader.t)
  : M (FSWorld D) (bool * FileHeader.t) :=
  let sectorsToAllocate := s32 (sectorsToAllocate - FileHeader.numSectors h) in
  if sectorsToAllocate <=? 0 then ret (false, h)
  else
    freeMapFile ← OpenFile_new FreeMapSector;
    freeMap ← lift (BitMap_new NumSectors storage);
    freeMap ← BitMap_FetchFrom freeMapFile freeMap;
    clear ← lift (NumClear freeMap);
    if clear <? sectorsToAllocate then ret (false, h)
    else
      r ← ExtendFile_loop (Z.to_nat sectorsToAllocate) (FileHeader.numSectors h)
            sectorsToAllocate h freeMap;
      let '(h, freeMap) := r in
      _ ← BitMap_WriteBack freeMapFile freeMap;
      ret (true, h).
End Ops.

(** ** The flat file *)

(** Concatenation of blocks of one length. *)
Lemma mjoin_lookup {A} (ls : list (list A)) (c : nat) (k : nat) :
  (0 < c)%nat -> Forall (fun l => length l = c) ls ->
  mjoin ls !! k = (ls !! (k / c)%nat) ≫= (fun l => l !! (k mod c)%nat).
Proof.
  intros Hc Hl. revert k. induction Hl as [|l ls Hlen _ IH]; intros k; [done|].
  change (mjoin (l :: ls)) with (l ++ mjoin ls).
  destruct (decide (k < c)%nat) as [Hk|Hk].
  - rewrite lookup_app_l by lia. rewrite Nat.div_small, Nat.mod_small by lia. done.
  - rewrite lookup_app_r by lia. rewrite IH, Hlen.
    remember (k - c)%nat as j eqn:Hj. assert (Hk' : k = (j + 1 * c)%nat) by lia. subst k.
    rewrite Nat.div_add, Nat.Div0.mod_add by lia. by rewrite Nat.add_1_r.
Qed.

Lemma mjoin_length {A} (ls : list (list A)) (c : nat) :
  Forall (fun l => length l = c) ls -> length (mjoin ls) = (c * length ls)%nat.
Proof.
  induction 1 as [|l ls Hlen _ IH]; [simpl; lia|].
  change (mjoin (l :: ls)) with (l ++ mjoin ls). rewrite length_app, IH, Hlen. simpl. lia.
Qed.

Section Flat.
Context {D : Type} `{!SectorDisk D, !SectorDiskLaws D}.
Implicit Types (w : FSWorld D) (h : FileHeader.t).

Definition data_sectors h : list Z :=
  take (Z.to_nat (FileHeader.numSectors h)) (FileHeader.words h).

(** All bytes of the data sectors, and those of the file. *)
Definition file_data w h : list Z := mjoin (sectors_of w <$> data_sectors h).
Definition contents w h : list Z := take (Z.to_nat (FileHeader.numBytes h)) (file_data w h).

(** A file without indirect blocks. *)
Record file_ok h : Prop := {
  file_hdr : wf_hdr h;
  file_size : 0 <= FileHeader.numBytes h <= MaxFileSize;
  file_sectors : FileHeader.numSectors h = divRoundUp (FileHeader.numBytes h) SectorSize;
  file_valid : Forall valid_sector (data_sectors h);
  file_nodup : NoDup (data_sectors h)
}.

Lemma file_num_sectors h : file_ok h ->
  0 <= FileHeader.numSectors h <= NumDirect /\
  (FileHeader.numSectors h - 1) * SectorSize < FileHeader.numBytes h <= FileHeader.numSectors h * SectorSize.
Proof.
  intros [_ Hs Hn _ _]. rewrite Hn.
  pose proof (divRoundUp_spec (FileHeader.numBytes h) SectorSize ltac:(lia) ltac:(done)) as Hd.
  change MaxFileSize with 3840 in Hs. change NumDirect with 30. change SectorSize with 128 in *. lia.
Qed.

Lemma length_data_sectors h : file_ok h -> zlen (data_sectors h) = FileHeader.numSectors h.
Proof.
  intros Hf. pose proof (file_num_sectors h Hf) as [Hn _]. pose proof (hdr_len h (file_hdr h Hf)).
  unfold zlen, data_sectors. rewrite length_take. change NumDirect with 30 in Hn. lia.
Qed.

Lemma data_sector h i : file_ok h -> 0 <= i < FileHeader.numSectors h ->
  exists s, aget (FileHeader.words h) i = Ok s /\ data_sectors h !! Z.to_nat i = Some s /\ valid_sector s.
Proof.
  intros Hf Hi. pose proof (length_data_sectors h Hf) as Hl.
  destruct (lookup_lt_is_Some_2 (data_sectors h) (Z.to_nat i)) as [s Hs]; [unfold zlen in Hl; lia|].
  exists s. split; [|split; [done|]].
  - apply aget_lookup; [lia|]. unfold data_sectors in Hs. rewrite lookup_take_lt in Hs by lia. done.
  - by eapply (Forall_lookup_1 _ _ _ _ (file_valid h Hf)).
Qed.

Lemma sectors_length w h : fs_ok w -> file_ok h ->
  Forall (fun l => length l = 128%nat) (sectors_of w <$> data_sectors h).
Proof.
  intros Hw Hf. apply Forall_fmap. eapply Forall_impl; [apply (file_valid h Hf)|].
  intros s Hs. cbn. destruct (sector_data (dsk w) s Hw Hs) as [Hz _].
  unfold zlen, SectorSize in Hz. unfold sectors_of. lia.
Qed.

Lemma zlen_file_data w h : fs_ok w -> file_ok h ->
  zlen (file_data w h) = FileHeader.numSectors h * SectorSize.
Proof.
  intros Hw Hf. unfold zlen, file_data. rewrite (mjoin_length _ 128) by by apply sectors_length.
  rewrite length_fmap. pose proof (length_data_sectors h Hf) as Hl. unfold zlen in Hl.
  change SectorSize with 128. lia.
Qed.

Lemma zlen_contents w h : fs_ok w -> file_ok h -> zlen (contents w h) = FileHeader.numBytes h.
Proof.
  intros Hw Hf. pose proof (zlen_file_data w h Hw Hf) as Hz. pose proof (file_num_sectors h Hf).
  pose proof (file_size h Hf). unfold contents, zlen in *. rewrite length_take. lia.
Qed.

(** The bytes of the file, one by one. *)
Lemma file_data_lookup w h i s r :
  fs_ok w -> file_ok h -> data_sectors h !! i = Some s -> (r < 128)%nat ->
  file_data w h !! (i * 128 + r)%nat = sectors_of w s !! r.
Proof.
  intros Hw Hf Hs Hr. unfold file_data. rewrite (mjoin_lookup _ 128) by (lia || by apply sectors_length).
  rewrite Nat.div_add_l, Nat.div_small, Nat.add_0_r by lia.
  rewrite (Nat.add_comm (i * 128) r), Nat.Div0.mod_add, Nat.mod_small by lia.
  by rewrite list_lookup_fmap, Hs.
Qed.

Lemma contents_lookup w h k :
  contents w h !! k = if decide (Z.of_nat k < FileHeader.numBytes h) then file_data w h !! k else None.
Proof.
  unfold contents. case_decide; [apply lookup_take_lt; lia|apply lookup_take_ge; lia].
Qed.

Lemma slice_contents w h off n :
  0 <= off -> 0 <= n -> off + n <= FileHeader.numBytes h ->
  slice off n (contents w h) = slice off n (file_data w h).
Proof.
  intros Ho Hn Hl. apply list_eq. intros k. rewrite !slice_lookup by done.
  case_decide; [|done]. rewrite contents_lookup, decide_True by lia. done.
Qed.

Lemma file_data_same w w' h :
  file_ok h -> (forall k, valid_sector k -> sectors_of w' k = sectors_of w k) ->
  file_data w' h = file_data w h.
Proof.
  intros Hf Hs. unfold file_data. f_equal. apply list_fmap_ext. intros i s Hi.
  apply Hs. by eapply (Forall_lookup_1 _ _ _ _ (file_valid h Hf)).
Qed.

(** *** Reading *)

Variable new_char : Z -> list Z.
Hypothesis new_char_spec : forall n, 0 <= n -> zlen (new_char n) = n /\ Forall in_u8 (new_char n).

(** Nothing visible changed: the disk is ready and every sector is as before. *)
Definition unchanged w w' : Prop :=
  fs_ok w' /\ forall k, valid_sector k -> sectors_of w' k = sectors_of w k.

Lemma hdr_sector w h i s :
  0 <= i < NumDirect -> aget (FileHeader.words h) i = Ok s ->
  run_to (FileHeader.ByteToSector (i * SectorSize) h) w (fun s' w' => s' = s /\ w' = w).
Proof.
  intros Hi Hs. change NumDirect with 30 in Hi. apply hdr_ByteToSector.
  - change SectorSize with 128. change MaxFileSize with 3840. lia.
  - by rewrite Z.div_mul by (by change SectorSize with 128).
Qed.

Definition read_loop f firstSector : Z -> list Z -> M (FSWorld D) (list Z) :=
  fun i buf =>
    s ← FileHeader.ByteToSector (i * SectorSize) (hdr f);
    data ← on_disk (ReadSector s);
    lift (bwrite ((i - firstSector) * SectorSize) data buf).

(** The buffer holds the sectors [first..first+n). *)
Lemma read_loop_spec f w first n buf :
  fs_ok w -> file_ok (hdr f) -> 0 <= first -> 0 <= n ->
  first + n <= FileHeader.numSectors (hdr f) -> zlen buf = n * SectorSize -> Forall in_u8 buf ->
  run_to (foldM (Z.to_nat n) first (read_loop f first) buf) w (fun buf' w' =>
    unchanged w w' /\ Forall in_u8 buf' /\
    buf' = slice (first * SectorSize) (n * SectorSize) (file_data w (hdr f))).
Proof.
  intros Hw Hf Hfirst Hn Hend Hz Hb. pose proof (file_num_sectors _ Hf) as [Hns _].
  eapply run_to_mono.
  - apply (run_to_foldM (fun j b v => unchanged w v /\ zlen b = n * SectorSize /\ Forall in_u8 b /\
      forall k : nat, first * 128 <= Z.of_nat k < j * 128 ->
        b !! (k - Z.to_nat (first * 128))%nat = file_data w (hdr f) !! k)).
    + split; [by split|]. split; [done|]. split; [done|]. lia.
    + intros j b v Hj ([Hv Hsv] & Hzb & Hbb & Hlk). unfold read_loop.
      destruct (data_sector (hdr f) j Hf) as (s & Hs & Hds & Hvs); [lia|].
      step_with (hdr_sector v (hdr f) j s ltac:(lia) Hs). intros s' v' [-> ->].
      step_with (on_disk_read s v Hv Hvs). intros data v' (-> & Hv' & Hsv').
      destruct (sector_data (dsk v) s Hv Hvs) as [Hd Hdb]. fold (sectors_of v s) in Hd, Hdb.
      change SectorSize with 128 in *.
      assert (Hle : 0 <= (j - first) * 128 /\ (j - first) * 128 + zlen (sectors_of v s) <= zlen b) by lia.
      eapply run_to_lift; [apply bwrite_Ok; apply Hle|].
      split; [split; [done|]|split; [|split]].
      * intros k Hk. rewrite Hsv' by done. by apply Hsv.
      * rewrite zlen_splice by apply Hle. done.
      * by apply Forall_splice.
      * intros k Hk. rewrite splice_lookup by apply Hle. rewrite Hd.
        destruct (decide (j * 128 <= Z.of_nat k)).
        -- rewrite decide_True by lia. rewrite Hsv by done.
           replace k with (Z.to_nat j * 128 + (k - Z.to_nat j * 128))%nat at 2 by lia.
           rewrite (file_data_lookup w (hdr f) (Z.to_nat j) s) by (done || lia). f_equal. lia.
        -- rewrite decide_False by lia. apply Hlk. lia.
  - intros buf' w' (Hun & Hzb & Hbb & Hlk). split; [done|]. split; [done|].
    apply list_eq. intros k. change SectorSize with 128 in *. rewrite slice_lookup by lia.
    case_decide as Hk.
    + rewrite <-Hlk by lia. f_equal. lia.
    + apply lookup_ge_None_2. unfold zlen in Hzb. lia.
Qed.

Lemma clip_min len n pos :
  0 < n -> 0 <= pos < len -> pos + n < 2 ^ 31 -> clip len n pos = Z.min n (len - pos).
Proof.
  intros Hn Hp Ho. unfold clip. rewrite s32_id by (unfold in_s32; lia).
  destruct (Z.ltb_spec len (pos + n)); lia.
Qed.

(** What a read of [n] bytes at [pos] returns of a file with bytes [c]. *)
Definition flat_read (n pos : Z) (c : list Z) : list Z :=
  if (n <=? 0) || (zlen c <=? pos) then [] else slice pos (Z.min n (zlen c - pos)) c.

(** The sectors that a request touches. *)
Lemma request_sectors len pos n :
  0 < n -> 0 <= pos -> pos + n <= len -> len <= MaxFileSize ->
  let first := divRoundDown pos SectorSize in
  let last := divRoundDown (s32 (pos + n - 1)) SectorSize in
  0 <= first <= last /\ first * 128 <= pos < (first + 1) * 128 /\
  last * 128 < pos + n <= (last + 1) * 128.
Proof.
  intros Hn Hp Hl Hm. cbn zeta. change MaxFileSize with 3840 in Hm.
  rewrite s32_id by (unfold in_s32; lia). unfold divRoundDown. change SectorSize with 128.
  Z.to_euclidean_division_equations. lia.
Qed.

Lemma ReadAt_spec f w n pos :
  fs_ok w -> file_ok (hdr f) -> 0 <= pos -> pos + n < 2 ^ 31 ->
  run_to (ReadAt new_char n pos f) w (fun bytes w' =>
    unchanged w w' /\ bytes = flat_read n pos (contents w (hdr f))).
Proof.
  intros Hw Hf Hp Ho. unfold ReadAt, FileHeader.FileLength, flat_read.
  rewrite zlen_contents by done. set (len := FileHeader.numBytes (hdr f)).
  destruct (Z.leb_spec n 0) as [|Hn]; cbn [orb]; [by apply run_to_ret|].
  destruct (Z.leb_spec len pos) as [|Hlt]; [by apply run_to_ret|].
  rewrite clip_min by lia. set (m := Z.min n (len - pos)).
  pose proof (file_size _ Hf) as Hsz. fold len in Hsz.
  pose proof (file_num_sectors _ Hf) as [_ Hns]. fold len in Hns. change SectorSize with 128 in Hns.
  pose proof (request_sectors len pos m ltac:(lia) ltac:(lia) ltac:(lia) ltac:(lia)) as Hrs.
  cbn zeta in Hrs. set (first := divRoundDown pos SectorSize) in *.
  set (last := divRoundDown (s32 (pos + m - 1)) SectorSize) in *.
  destruct (new_char_spec ((1 + last - first) * SectorSize)) as [Hz Hb];
    [change SectorSize with 128; lia|].
  apply run_to_bind. eapply run_to_mono; [apply (read_loop_spec f w first (1 + last - first)); try done; lia|].
  intros buf w' (Hun & Hbb & ->). change SectorSize with 128.
  assert (Hzs : zlen (slice (first * 128) ((1 + last - first) * 128) (file_data w (hdr f))) =
            (1 + last - first) * 128).
  { apply zlen_slice; [lia|lia|]. rewrite zlen_file_data by done. change SectorSize with 128. lia. }
  eapply run_to_lift; [apply bread_Ok; lia|]. split; [done|].
  rewrite slice_contents by (fold len; lia). apply list_eq. intros k.
  rewrite !slice_lookup by lia. case_decide; [|done]. rewrite decide_True by lia. f_equal. lia.
Qed.

(** *** Writing *)

Lemma contents_u8 w h : fs_ok w -> file_ok h -> Forall in_u8 (contents w h).
Proof.
  intros Hw Hf. unfold contents, file_data. apply Forall_take.
  pose proof (file_valid h Hf) as Hv. induction Hv as [|s l Hs _ IH]; [constructor|].
  rewrite fmap_cons. change (mjoin (?x :: ?l)) with (x ++ mjoin l).
  apply Forall_app. split; [|done]. by apply (sector_data (dsk w) s).
Qed.

Lemma ReadAt_into_spec f w buf off i :
  fs_ok w -> file_ok (hdr f) -> Forall in_u8 buf -> 0 <= off -> off + 128 <= zlen buf ->
  0 <= i -> i * 128 < FileHeader.numBytes (hdr f) ->
  run_to (ReadAt_into new_char buf off 128 (i * 128) f) w (fun buf' w' =>
    unchanged w w' /\ zlen buf' = zlen buf /\ Forall in_u8 buf' /\
    forall k : nat, buf' !! k =
      if decide (off <= Z.of_nat k < off + Z.min 128 (FileHeader.numBytes (hdr f) - i * 128))
      then contents w (hdr f) !! Z.to_nat (Z.of_nat k - off + i * 128)
      else buf !! k).
Proof.
  intros Hw Hf Hb Hoff Hend Hi Hlt. unfold ReadAt_into. pose proof (file_size _ Hf) as Hsz.
  change MaxFileSize with 3840 in Hsz. set (len := FileHeader.numBytes (hdr f)) in *.
  step_with (ReadAt_spec f w 128 (i * 128) Hw Hf ltac:(lia) ltac:(lia)). intros bytes w' [Hun ->].
  assert (Hfl : flat_read 128 (i * 128) (contents w (hdr f)) =
            slice (i * 128) (Z.min 128 (len - i * 128)) (contents w (hdr f))).
  { unfold flat_read. rewrite zlen_contents by done. fold len.
    rewrite (proj2 (Z.leb_gt len (i * 128))) by lia. done. }
  rewrite Hfl. set (bs := slice _ _ _).
  assert (Hbs : zlen bs = Z.min 128 (len - i * 128)).
  { apply zlen_slice; [lia|lia|]. rewrite zlen_contents by done. fold len. lia. }
  eapply run_to_lift; [apply bwrite_Ok; lia|]. split; [done|].
  split; [apply zlen_splice; lia|]. split.
  - apply Forall_splice; [|done]. apply Forall_slice. by apply contents_u8.
  - intros k. rewrite splice_lookup by lia. rewrite Hbs. case_decide; [|done].
    unfold bs. rewrite slice_lookup, decide_True by lia. f_equal. lia.
Qed.

Definition write_loop f firstSector buf : Z -> M (FSWorld D) unit :=
  fun i =>
    s ← FileHeader.ByteToSector (i * SectorSize) (hdr f);
    data ← lift (bread ((i - firstSector) * SectorSize) SectorSize buf);
    on_disk (WriteSector s data).

(** The effect of a write on the disk: the file's bytes are [new], and no
    sector of another file changes. *)
Definition rewritten w w' h (new : list Z) : Prop :=
  fs_ok w' /\ file_data w' h = new /\
  forall k, valid_sector k -> k ∉ data_sectors h -> sectors_of w' k = sectors_of w k.

Lemma write_loop_spec f w first n buf :
  fs_ok w -> file_ok (hdr f) -> 0 <= first -> 0 <= n ->
  first + n <= FileHeader.numSectors (hdr f) -> zlen buf = n * SectorSize -> Forall in_u8 buf ->
  run_to (forM (Z.to_nat n) first (write_loop f first buf)) w (fun _ w' =>
    rewritten w w' (hdr f) (splice (first * SectorSize) buf (file_data w (hdr f)))).
Proof.
  intros Hw Hf Hfirst Hn Hend Hz Hb. pose proof (file_num_sectors _ Hf) as [Hns _].
  eapply run_to_mono.
  - apply (run_to_forM (fun j v => fs_ok v /\
      (forall (m : nat) s, data_sectors (hdr f) !! m = Some s ->
         sectors_of v s = if decide (first <= Z.of_nat m < j)
           then slice ((Z.of_nat m - first) * 128) 128 buf else sectors_of w s) /\
      (forall k, valid_sector k -> k ∉ data_sectors (hdr f) -> sectors_of v k = sectors_of w k))).
    + split; [done|]. split; [|done]. intros m s Hs. by rewrite decide_False by lia.
    + intros j v Hj (Hv & Hin & Hout). unfold write_loop.
      destruct (data_sector (hdr f) j Hf) as (s & Hs & Hds & Hvs); [lia|].
      step_with (hdr_sector v (hdr f) j s ltac:(lia) Hs). intros s' v' [-> ->].
      change SectorSize with 128 in *. apply run_to_bind.
      eapply run_to_lift; [apply bread_Ok; lia|].
      eapply run_to_mono; [apply (on_disk_write s); [done|done|]|].
      { split; [change SectorSize with 128; apply zlen_slice; lia|by apply Forall_slice]. }
      intros ? v' [Hv' Hsv']. split; [done|]. split.
      * intros m s' Hs'. assert (Hvs' : valid_sector s') by by eapply (Forall_lookup_1 _ _ _ _ (file_valid _ Hf)).
        rewrite Hsv' by done. case_decide as Heq.
        -- subst s'. assert (m = Z.to_nat j) as -> by by eapply (NoDup_lookup _ _ _ _ (file_nodup _ Hf)).
           rewrite decide_True by lia. f_equal. lia.
        -- rewrite (Hin m s' Hs').
           assert (Z.of_nat m <> j) by (intros <-; rewrite Nat2Z.id in Hds; congruence).
           destruct (decide (first <= Z.of_nat m < j)).
           ++ by rewrite decide_True by lia.
           ++ by rewrite decide_False by lia.
      * intros k Hk Hnk. rewrite Hsv' by done. rewrite decide_False; [by apply Hout|].
        intros ->. apply Hnk. by eapply list_elem_of_lookup_2.
  - intros ? w' (Hw' & Hin & Hout). split; [done|]. split; [|done].
    change SectorSize with 128 in *. pose proof (zlen_file_data w _ Hw Hf) as Hzd.
    pose proof (zlen_file_data w' _ Hw' Hf) as Hzd'. change SectorSize with 128 in *.
    apply list_eq. intros k. rewrite splice_lookup by lia.
    destruct (decide (Z.of_nat k < FileHeader.numSectors (hdr f) * 128)) as [Hk|Hk].
    + destruct (data_sector (hdr f) (Z.of_nat (k / 128)) Hf) as (s & _ & Hds & Hvs).
      { rewrite Nat2Z.inj_div. Z.to_euclidean_division_equations. lia. }
      rewrite Nat2Z.id in Hds. pose proof (Nat.div_mod_eq k 128) as Hdm.
      pose proof (Nat.mod_upper_bound k 128 ltac:(lia)) as Hr.
      set (q := (k / 128)%nat) in *. set (r := (k mod 128)%nat) in *.
      replace k with (q * 128 + r)%nat by lia.
      rewrite !(file_data_lookup _ _ q s) by done. rewrite (Hin q s Hds).
      destruct (decide (first <= Z.of_nat q < first + Z.of_nat (Z.to_nat n))).
      * rewrite decide_True by lia. rewrite slice_lookup, decide_True by lia. f_equal. lia.
      * by rewrite decide_False by lia.
    + rewrite decide_False by lia. unfold zlen in Hzd, Hzd'.
      rewrite !lookup_ge_None_2 by lia. done.
Qed.

(** What a write of the first [n] bytes of [from] at [pos] makes of [c]. *)
Definition flat_write (from : list Z) (n pos : Z) (c : list Z) : list Z :=
  if (n <=? 0) || (zlen c <=? pos) then c
  else splice pos (slice 0 (Z.min n (zlen c - pos)) from) c.

Definition flat_count (n pos : Z) (c : list Z) : Z :=
  if (n <=? 0) || (zlen c <=? pos) then 0 else Z.min n (zlen c - pos).

(** The buffer as filled before the copy: it holds every byte of the
    touched sectors that is in the file and not about to change. *)
Definition prepared w f (first last pos m : Z) (buf : list Z) : Prop :=
  zlen buf = (1 + last - first) * 128 /\ Forall in_u8 buf /\
  forall k : nat, first * 128 <= Z.of_nat k < (last + 1) * 128 ->
    Z.of_nat k < FileHeader.numBytes (hdr f) -> Z.of_nat k < pos \/ pos + m <= Z.of_nat k ->
    buf !! (k - Z.to_nat (first * 128))%nat = contents w (hdr f) !! k.

Lemma contents_same w w' h : file_ok h -> unchanged w w' -> contents w' h = contents w h.
Proof. intros Hf [_ Hs]. unfold contents. by rewrite (file_data_same w w' h Hf Hs). Qed.

Lemma prepare_spec f w first last pos m :
  fs_ok w -> file_ok (hdr f) -> 0 < m -> pos + m <= FileHeader.numBytes (hdr f) ->
  0 <= first <= last -> first * 128 <= pos < (first + 1) * 128 ->
  last * 128 < pos + m <= (last + 1) * 128 ->
  run_to (
    buf ← (if negb (pos =? first * 128) then
             ReadAt_into new_char (new_char ((1 + last - first) * 128)) 0 128 (first * 128) f
           else ret (new_char ((1 + last - first) * 128)));
    if negb (pos + m =? (last + 1) * 128) && (negb (first =? last) || (pos =? first * 128)) then
      ReadAt_into new_char buf ((last - first) * 128) 128 (last * 128) f
    else ret buf) w (fun buf w' => unchanged w w' /\ prepared w f first last pos m buf).
Proof.
  intros Hw Hf Hm Hlen Hfl Hpos Hlast. set (N := (1 + last - first) * 128).
  destruct (new_char_spec N ltac:(lia)) as [Hz Hb]. apply run_to_bind.
  apply (run_to_mono _ _ (fun buf w' => unchanged w w' /\ zlen buf = N /\ Forall in_u8 buf /\
    (pos <> first * 128 -> forall k : nat, first * 128 <= Z.of_nat k < (first + 1) * 128 ->
       Z.of_nat k < FileHeader.numBytes (hdr f) ->
       buf !! (k - Z.to_nat (first * 128))%nat = contents w (hdr f) !! k))).
  - destruct (Z.eqb_spec pos (first * 128)) as [Hal|Hal]; cbn [negb].
    + apply run_to_ret. split; [by split|]. do 2 (split; [done|]). lia.
    + eapply run_to_mono; [apply ReadAt_into_spec; try done; lia|].
      intros buf w' (Hun & Hzb & Hbb & Hlk). split; [done|]. split; [lia|]. split; [done|].
      intros _ k Hk Hkl. rewrite Hlk, decide_True by lia. f_equal. lia.
  - intros buf w1 (Hun & Hzb & Hbb & Hlk). destruct Hun as [Hw1 Hs1].
    assert (Hc1 : contents w1 (hdr f) = contents w (hdr f)) by by apply contents_same.
    destruct (negb _ && _) eqn:Etest.
    + apply andb_true_iff in Etest as [E1 E2].
      eapply run_to_mono; [apply ReadAt_into_spec; try done; lia|].
      intros buf' w2 ([Hw2 Hs2] & Hzb' & Hbb' & Hlk'). split.
      { split; [done|]. intros k Hk. rewrite Hs2 by done. by apply Hs1. }
      split; [lia|]. split; [done|]. intros k Hk Hkl Hor. rewrite Hlk', Hc1.
      destruct (decide (last * 128 <= Z.of_nat k)).
      * rewrite decide_True by lia. f_equal. lia.
      * rewrite decide_False by lia. apply Hlk; lia.
    + apply run_to_ret. split; [by split|]. split; [done|]. split; [done|].
      intros k Hk Hkl Hor.
      destruct (Z.eqb_spec (pos + m) ((last + 1) * 128)), (Z.eqb_spec first last),
        (Z.eqb_spec pos (first * 128)); try discriminate Etest; apply Hlk; lia.
Qed.

Lemma WriteAt_spec f w from n pos :
  fs_ok w -> file_ok (hdr f) -> 0 <= pos -> pos + n < 2 ^ 31 ->
  Forall in_u8 from -> n <= zlen from ->
  run_to (WriteAt new_char from n pos f) w (fun r w' =>
    r = flat_count n pos (contents w (hdr f)) /\ fs_ok w' /\
    contents w' (hdr f) = flat_write from n pos (contents w (hdr f)) /\
    forall k, valid_sector k -> k ∉ data_sectors (hdr f) -> sectors_of w' k = sectors_of w k).
Proof.
  intros Hw Hf Hp Ho Hfrom Hnf. unfold WriteAt, FileHeader.FileLength, flat_write, flat_count.
  rewrite zlen_contents by done. set (len := FileHeader.numBytes (hdr f)).
  destruct (Z.leb_spec n 0) as [|Hn]; cbn [orb]; [by apply run_to_ret|].
  destruct (Z.leb_spec len pos) as [|Hlt]; [by apply run_to_ret|].
  rewrite clip_min by lia. set (m := Z.min n (len - pos)).
  pose proof (file_size _ Hf) as Hsz. fold len in Hsz.
  pose proof (file_num_sectors _ Hf) as [_ Hns]. fold len in Hns. change SectorSize with 128 in Hns.
  pose proof (request_sectors len pos m ltac:(lia) ltac:(lia) ltac:(lia) ltac:(lia)) as Hrs.
  cbn zeta in Hrs. set (first := divRoundDown pos SectorSize) in *.
  set (last := divRoundDown (s32 (pos + m - 1)) SectorSize) in *. change SectorSize with 128.
  pose proof (prepare_spec f w first last pos m Hw Hf ltac:(lia) ltac:(fold len; lia)
    ltac:(lia) ltac:(lia) ltac:(lia)) as Hprep.
  apply run_to_assoc. step_with Hprep. clear Hprep.
  intros buf w1 ([Hw1 Hs1] & Hzb & Hbb & Hlk).
  assert (Hfd : file_data w1 (hdr f) = file_data w (hdr f)) by by apply file_data_same.
  assert (Hbs : zlen (slice 0 m from) = m) by (apply zlen_slice; lia).
  apply run_to_bind. eapply run_to_lift; [apply bread_Ok; lia|].
  apply run_to_bind. eapply run_to_lift; [apply bwrite_Ok; lia|].
  set (buf2 := splice _ _ buf).
  assert (Hz2 : zlen buf2 = (1 + last - first) * 128) by (unfold buf2; rewrite zlen_splice; lia).
  apply run_to_bind. eapply run_to_mono;
    [apply (write_loop_spec f w1 first (1 + last - first) buf2); try done; try lia|].
  { apply Forall_splice; [|done]. by apply Forall_slice. }
  intros ? w2 (Hw2 & Hd2 & Hout). apply run_to_ret. split; [done|]. split; [done|]. split.
  - rewrite Hfd in Hd2. change SectorSize with 128 in Hd2.
    pose proof (zlen_file_data w _ Hw Hf) as Hzd. change SectorSize with 128 in Hzd.
    pose proof (zlen_contents w _ Hw Hf) as Hzc. fold len in Hzc.
    apply list_eq. intros k. rewrite contents_lookup. fold len. rewrite Hd2.
    rewrite (splice_lookup pos) by lia. rewrite Hbs. case_decide as Hk.
    + rewrite splice_lookup by lia.
      destruct (decide (first * 128 <= Z.of_nat k < first * 128 + zlen buf2)) as [Hin|Hin].
      * unfold buf2. rewrite splice_lookup by lia. rewrite Hbs.
        destruct (decide (pos <= Z.of_nat k < pos + m)).
        -- rewrite decide_True by lia. f_equal. lia.
        -- rewrite decide_False by lia. 
           replace (k - Z.to_nat (first * 128))%nat with (k - Z.to_nat (first * 128))%nat by lia.
           apply Hlk; [lia|done|lia].
      * rewrite decide_False by lia. rewrite contents_lookup, decide_True by (fold len; lia). done.
    + rewrite decide_False by lia. symmetry. apply lookup_ge_None_2. unfold zlen in Hzc. lia.
  - intros k Hk Hnk. rewrite Hout by done. by apply Hs1.
Qed.
End Flat.

(** ** Properties *)

(** What is known of fresh memory: its size, and that it holds bytes. *)
Definition memory_source (new_char : Z -> list Z) : Prop :=
  forall n, 0 <= n -> zlen (new_char n) = n /\ Forall in_u8 (new_char n).

Definition zeroed (n : Z) : list Z := replicate (Z.to_nat n) 0.

Lemma zeroed_source : memory_source zeroed.
Proof.
  intros n Hn. split; [unfold zlen, zeroed; rewrite length_replicate; lia|].
  apply Forall_replicate. unfold in_u8. lia.
Qed.

(** C31: [ReadAt] returns exactly the bytes of the file that the request
    covers, none past the end of the file, whatever the alignment of the
    request and whatever fresh memory holds, and changes no sector. *)
Theorem ReadAt_correct {D} `{!SectorDisk D, !SectorDiskLaws D} new_char f (w : FSWorld D) n pos :
  memory_source new_char -> fs_ok w -> file_ok (hdr f) -> 0 <= pos -> pos + n < 2 ^ 31 ->
  run_to (ReadAt new_char n pos f) w (fun bytes w' =>
    unchanged w w' /\ bytes = flat_read n pos (contents w (hdr f)) /\
    zlen bytes = flat_count n pos (contents w (hdr f))).
Proof.
  intros Hnew Hw Hf Hp Ho. eapply run_to_mono; [by apply ReadAt_spec|].
  intros bytes w' [Hun ->]. split; [done|]. split; [done|]. unfold flat_read, flat_count.
  destruct (Z.leb_spec n 0), (Z.leb_spec (zlen (contents w (hdr f))) pos); cbn [orb]; try done.
  apply zlen_slice; lia.
Qed.

(** C30: [WriteAt] changes the bytes of the file in the requested range,
    cut at the end of the file, to the given ones and nothing else: the
    other bytes of the sectors it rewrites, every sector of every other
    file, and the length all stay; reading the range back gives the bytes. *)
Theorem WriteAt_correct {D} `{!SectorDisk D, !SectorDiskLaws D} new_char f (w : FSWorld D) from n pos :
  memory_source new_char -> fs_ok w -> file_ok (hdr f) -> 0 <= pos -> pos + n < 2 ^ 31 ->
  Forall in_u8 from -> n <= zlen from ->
  run_to (WriteAt new_char from n pos f) w (fun r w' =>
    r = flat_count n pos (contents w (hdr f)) /\ fs_ok w' /\
    contents w' (hdr f) = flat_write from n pos (contents w (hdr f)) /\
    (forall h', file_ok h' -> (forall s, s ∈ data_sectors h' -> s ∉ data_sectors (hdr f)) ->
       contents w' h' = contents w h') /\
    run_to (ReadAt new_char n pos f) w' (fun bytes _ => bytes = slice 0 r from)).
Proof.
  intros Hnew Hw Hf Hp Ho Hfrom Hn. eapply run_to_mono; [by apply WriteAt_spec|].
  intros r w' (-> & Hw' & Hc & Hout). split; [done|]. split; [done|]. split; [done|]. split.
  - intros h' Hf' Hdis. unfold contents, file_data. do 2 f_equal. apply list_fmap_ext.
    intros i s Hs. apply Hout.
    + by eapply (Forall_lookup_1 _ _ _ _ (file_valid h' Hf')).
    + apply Hdis. by eapply list_elem_of_lookup_2.
  - eapply run_to_mono; [by apply ReadAt_spec|]. intros bytes w2 [_ ->]. rewrite Hc.
    unfold flat_read, flat_write, flat_count. pose proof (zlen_contents w _ Hw Hf) as Hz.
    destruct (Z.leb_spec n 0) as [|Hn0]; cbn [orb]; [done|].
    destruct (Z.leb_spec (zlen (contents w (hdr f))) pos) as [|Hlt].
    { by rewrite (proj2 (Z.leb_le _ _)) by done. }
    set (m := Z.min n (zlen (contents w (hdr f)) - pos)).
    assert (Hbs : zlen (slice 0 m from) = m) by (apply zlen_slice; lia).
    rewrite zlen_splice by lia. rewrite (proj2 (Z.leb_gt _ _)) by lia. fold m.
    rewrite <-Hbs at 1. rewrite slice_splice_eq by lia. done.
Qed.

(** A file of 300 bytes in sectors 33, 35 and 36 of a blank disk. *)
Definition example_file : OpenFile := mkOpenFile example_hdr 0.

Lemma example_file_ok : file_ok example_hdr.
Proof.
  split.
  - apply example_hdr_wf.
  - by split.
  - reflexivity.
  - change (data_sectors example_hdr) with [33; 35; 36]. repeat (constructor; [by split|]). constructor.
  - apply (bool_decide_unpack _). reflexivity.
Qed.

Lemma WriteAt_correct_witness :
  run_to (WriteAt zeroed [1; 2; 3; 4; 5] 5 126 example_file) blank_world (fun r w' => r = 5 /\
    run_to (ReadAt zeroed 5 126 example_file) w' (fun bytes _ => bytes = [1; 2; 3; 4; 5])).
Proof.
  eapply run_to_mono; [apply (WriteAt_correct zeroed example_file blank_world [1; 2; 3; 4; 5] 5 126)|].
  - apply zeroed_source.
  - apply blank_world_ok.
  - apply example_file_ok.
  - lia.
  - lia.
  - repeat (constructor; [unfold in_u8; lia|]). constructor.
  - done.
  - intros r w' (Hr & _ & _ & _ & Hread). assert (r = 5) as ->.
    { rewrite Hr. unfold flat_count. rewrite zlen_contents; [reflexivity|apply blank_world_ok|apply example_file_ok]. }
    split; [done|]. exact Hread.
Defined.

Lemma ReadAt_correct_witness :
  run_to (ReadAt zeroed 1000 200 example_file) blank_world (fun bytes _ => zlen bytes = 100).
Proof.
  eapply run_to_mono; [apply (ReadAt_correct zeroed example_file blank_world 1000 200)|].
  - apply zeroed_source.
  - apply blank_world_ok.
  - apply example_file_ok.
  - lia.
  - lia.
  - intros bytes w' (_ & _ & ->). unfold flat_count.
    rewrite zlen_contents; [reflexivity|apply blank_world_ok|apply example_file_ok].
Defined.
