(* ===== verification/Directory.v ===== *)
(** * filesys/directory.{h,cc}

    The directory: a table of entries, each with a flag, the sector of a
    file header and a name in a buffer of ten bytes that strncmp and strncpy
    use up to nine.  The table is stored in a file as the bytes of the
    array, padding included.  [dir_map] is the abstract directory, a finite
    map from names (cut at nine characters) to sectors. *)

From stdpp Require Import base list numbers gmap.
From S2P Require Import Prelude Arrays State SectorDisk FileHdr OpenFile.

Definition FileNameMaxLen : Z := 9.

Record DirectoryEntry := mkDE {
  inUse : bool;
  sector : Z;
  name : list Z;       (* ten bytes *)
  padding : list Z     (* three bytes behind inUse, two behind name *)
}.

Definition sizeof_DirectoryEntry : Z := 20.

Record Directory := mkDirectory {
  tableSize : Z;
  table : list DirectoryEntry
}.

(** ** The C library's bounded string functions, on a NUL-terminated
    string given by its characters, or on a buffer *)

(** [!strncmp(a, b, n)] *)
Fixpoint strneq (n : nat) (a b : list Z) : bool :=
  match n with
  | O => true
  | S n' =>
      let x := default 0 (head a) in
      let y := default 0 (head b) in
      if x =? y then if x =? 0 then true else strneq n' (tail a) (tail b)
      else false
  end.

(** [strncpy(buf, s, n)]: the first [n] bytes of the buffer, padded with
    zeros behind a shorter string; the rest is kept. *)
Definition strncpy (n : nat) (s buf : list Z) : list Z :=
  take n (s ++ replicate n 0) ++ drop n buf.

(** The C string in the first [n] characters. *)
Fixpoint cstr (n : nat) (s : list Z) : list Z :=
  match n, s with
  | S n', c :: s' => if c =? 0 then [] else c :: cstr n' s'
  | _, _ => []
  end.

Definition maxlen : nat := Z.to_nat FileNameMaxLen.

(** ** Operations *)

(** [storage] is the uninitialised array of [new DirectoryEntry[size]]. *)
Definition Directory_new (size : Z) (storage : list DirectoryEntry) : res Directory :=
  t ← for_loop (Z.to_nat size) 0
        (fun i t => e ← aget t i; aset t i (mkDE false (sector e) (name e) (padding e))) storage;
  Ok (mkDirectory size t).

Definition FindIndex (nm : list Z) (d : Directory) : res Z :=
  r ← for_break (Z.to_nat (tableSize d)) 0
        (fun i (_ : unit) =>
           e ← aget (table d) i;
           Ok (if inUse e && strneq maxlen (name e) nm then inr i else inl tt)) tt;
  Ok (match r with inl _ => -1 | inr i => i end).

Definition Find (nm : list Z) (d : Directory) : res Z :=
  i ← FindIndex nm d;
  if negb (i =? -1) then e ← aget (table d) i; Ok (sector e) else Ok (-1).

Definition Add (nm : list Z) (newSector : Z) (d : Directory) : res (bool * Directory) :=
  i ← FindIndex nm d;
  if negb (i =? -1) then Ok (false, d)
  else
    r ← for_break (Z.to_nat (tableSize d)) 0
          (fun i (_ : unit) =>
             e ← aget (table d) i;
             if negb (inUse e) then
               t ← aset (table d) i
                     (mkDE true newSector (strncpy maxlen nm (name e)) (padding e));
               Ok (inr t)
             else Ok (inl tt)) tt;
    Ok (match r with
        | inl _ => (false, d)
        | inr t => (true, mkDirectory (tableSize d) t)
        end).

Definition Remove (nm : list Z) (d : Directory) : res (bool * Directory) :=
  i ← FindIndex nm d;
  if i =? -1 then Ok (false, d)
  else
    e ← aget (table d) i;
    t ← aset (table d) i (mkDE false (sector e) (name e) (padding e));
    Ok (true, mkDirectory (tableSize d) t).

(** The names that List prints ([%s] of the buffer; a buffer without a NUL
    is printed to its end here, and past it by the code). *)
Definition List (d : Directory) : res (list (list Z)) :=
  for_loop (Z.to_nat (tableSize d)) 0
    (fun i out => e ← aget (table d) i;
       Ok (if inUse e then out ++ [cstr 10 (name e)] else out)) [].

(** ** The table as bytes *)

Definition entry_bytes (e : DirectoryEntry) : list Z :=
  (if inUse e then 1 else 0) :: take 3 (padding e) ++ le_bytes 4 (u32 (sector e)) ++
  name e ++ drop 3 (padding e).

Definition entry_of_bytes (bs : list Z) : DirectoryEntry :=
  mkDE (negb (nth 0 bs 0 =? 0)) (s32 (le_val (slice 4 4 bs))) (slice 8 10 bs)
    (slice 1 3 bs ++ slice 18 2 bs).

Definition table_bytes (t : list DirectoryEntry) : list Z := t ≫= entry_bytes.

Fixpoint table_of_bytes (n : nat) (bs : list Z) : list DirectoryEntry :=
  match n with
  | O => []
  | S n' => entry_of_bytes (take 20 bs) :: table_of_bytes n' (drop 20 bs)
  end.

Section Disk.
Context {D : Type} `{!SectorDisk D} (new_char : Z -> list Z).

(** The bytes read replace the front of the array. *)
Definition FetchFrom (file : OpenFile) (d : Directory) : M (FSWorld D) Directory :=
  got ← ReadAt new_char (tableSize d * sizeof_DirectoryEntry) 0 file;
  bs ← lift (bwrite 0 got (table_bytes (table d)));
  ret (mkDirectory (tableSize d) (table_of_bytes (length (table d)) bs)).

Definition WriteBack (file : OpenFile) (d : Directory) : M (FSWorld D) unit :=
  _ ← WriteAt new_char (table_bytes (table d)) (tableSize d * sizeof_DirectoryEntry) 0 file;
  ret tt.
End Disk.

(** ** Names *)

Lemma strneq_cstr n a b : strneq n a b = bool_decide (cstr n a = cstr n b).
Proof.
  revert a b. induction n as [|n IH]; intros a b; [by cbn|].
  destruct a as [|x a], b as [|y b]; cbn [strneq cstr head default tail hd_error from_option id].
  - done.
  - destruct (Z.eqb_spec 0 y) as [<-|Hy]; [done|].
    rewrite (proj2 (Z.eqb_neq y 0)) by lia. by rewrite bool_decide_eq_false_2 by done.
  - destruct (Z.eqb_spec x 0) as [->|Hx]; [done|]. by rewrite bool_decide_eq_false_2 by done.
  - destruct (Z.eqb_spec x y) as [->|Hxy].
    + destruct (Z.eqb_spec y 0) as [->|Hy]; [by rewrite bool_decide_eq_true_2 by done|].
      rewrite IH. apply bool_decide_ext. split; [congruence|]. by intros [= ->].
    + destruct (Z.eqb_spec x 0), (Z.eqb_spec y 0); subst; try done;
        rewrite bool_decide_eq_false_2; congruence.
Qed.

Lemma cstr_app_pad n s k : cstr n (s ++ replicate k 0) = cstr n s.
Proof.
  revert s. induction n as [|n IH]; intros [|c s]; try done.
  - by destruct k.
  - cbn [app cstr]. by rewrite IH.
Qed.

Lemma cstr_take n s : cstr n (take n s) = cstr n s.
Proof.
  revert s. induction n as [|n IH]; intros [|c s]; [done..|]. rewrite firstn_cons. cbn [cstr]. by rewrite IH.
Qed.

Lemma cstr_app_take n a b : length a = n -> cstr n (a ++ b) = cstr n a.
Proof. intros <-. rewrite <-(cstr_take _ (a ++ b)), take_app_length. done. Qed.

Lemma cstr_strncpy n s buf : cstr n (strncpy n s buf) = cstr n s.
Proof.
  unfold strncpy. rewrite cstr_app_take; [|rewrite length_take, length_app, length_replicate; lia].
  by rewrite cstr_take, cstr_app_pad.
Qed.

Lemma length_strncpy n s buf : (n <= length buf)%nat -> length (strncpy n s buf) = length buf.
Proof. intros. unfold strncpy. rewrite length_app, length_take, length_app, length_replicate, length_drop. lia. Qed.

(** ** The abstract directory *)

Definition key (e : DirectoryEntry) : list Z := cstr maxlen (name e).
Definition used (t : list DirectoryEntry) : list DirectoryEntry := filter (fun e => Is_true (inUse e)) t.
Definition binding (e : DirectoryEntry) : list Z * Z := (key e, sector e).

(** The finite map from names to header sectors. *)
Definition dir_map (d : Directory) : gmap (list Z) Z := list_to_map (binding <$> used (table d)).

Definition entry_ok (e : DirectoryEntry) : Prop :=
  length (name e) = 10%nat /\ Forall in_u8 (name e) /\
  length (padding e) = 5%nat /\ Forall in_u8 (padding e) /\ in_s32 (sector e).

Record dir_wf (d : Directory) : Prop := {
  dir_size : tableSize d = zlen (table d);
  dir_entries : Forall entry_ok (table d);
  dir_nodup : NoDup (key <$> used (table d))
}.

Lemma used_insert_free t i e e' :
  t !! i = Some e -> inUse e = false -> inUse e' = true ->
  used (<[i := e']> t) ≡ₚ e' :: used t.
Proof.
  intros Hi Hf Hu. apply take_drop_middle in Hi as Hs. assert (Hl := lookup_lt_Some _ _ _ Hi).
  rewrite insert_take_drop by done. rewrite <-Hs at 3. unfold used.
  rewrite !list.filter_app, !filter_cons, Hf, Hu.
  rewrite decide_True by done. rewrite decide_False by (by intros []).
  symmetry. apply Permutation_middle.
Qed.

Lemma used_insert_used t i e e' :
  t !! i = Some e -> inUse e = true -> inUse e' = false ->
  used t ≡ₚ e :: used (<[i := e']> t).
Proof.
  intros Hi Hf Hu. apply take_drop_middle in Hi as Hs. assert (Hl := lookup_lt_Some _ _ _ Hi).
  rewrite insert_take_drop by done. rewrite <-Hs at 1. unfold used.
  rewrite !list.filter_app, !filter_cons, Hf, Hu.
  rewrite decide_True by done. rewrite decide_False by (by intros []).
  symmetry. apply Permutation_middle.
Qed.

(** [FindIndex] finds the entry of the name. *)
Lemma FindIndex_spec nm d :
  dir_wf d ->
  (FindIndex nm d = Ok (-1) /\ forall e, e ∈ used (table d) -> key e <> cstr maxlen nm) \/
  (exists i e, FindIndex nm d = Ok (Z.of_nat i) /\ table d !! i = Some e /\ inUse e = true /\
     key e = cstr maxlen nm).
Proof.
  intros Hwf. unfold FindIndex. rewrite (dir_size d Hwf). unfold zlen. rewrite Nat2Z.id.
  rewrite (search_loop (table d) (fun e => inUse e && strneq maxlen (name e) nm) (fun i _ => Ok i)).
  2:{ intros i e He. rewrite He. cbn. by destruct (inUse e && _). }
  destruct (list_find _ (table d)) as [[i e]|] eqn:E; cbn [mbind res_bind].
  - right. apply list_find_Some in E as (Hi & Hp & _). exists i, e. split; [done|]. split; [done|].
    apply Is_true_true in Hp. apply andb_true_iff in Hp as [Hu Hs]. split; [done|].
    rewrite strneq_cstr in Hs. by apply bool_decide_eq_true in Hs.
  - left. split; [done|]. apply list_find_None in E. intros e He Hk. unfold used in He.
    apply list_elem_of_filter in He as [Hu He]. rewrite Forall_forall in E. apply (E e He).
    apply Is_true_true. apply andb_true_iff. split; [by apply Is_true_true|].
    rewrite strneq_cstr. by apply bool_decide_eq_true.
Qed.

Lemma elem_of_used t i e : t !! i = Some e -> inUse e = true -> e ∈ used t.
Proof.
  intros Hi Hu. apply list_elem_of_filter. split; [by rewrite Hu|by eapply list_elem_of_lookup_2].
Qed.

Lemma dir_map_nodup d : dir_wf d -> NoDup ((binding <$> used (table d)).*1).
Proof. intros Hwf. rewrite <-list_fmap_compose. apply Hwf. Qed.

Lemma dir_map_Some d e : dir_wf d -> e ∈ used (table d) -> dir_map d !! key e = Some (sector e).
Proof.
  intros Hwf He. apply elem_of_list_to_map; [by apply dir_map_nodup|].
  apply list_elem_of_fmap. by exists e.
Qed.

Lemma dir_map_None d k : (forall e, e ∈ used (table d) -> key e <> k) -> dir_map d !! k = None.
Proof.
  intros H. apply not_elem_of_list_to_map. rewrite <-list_fmap_compose.
  intros Hin. apply list_elem_of_fmap in Hin as (e & He & Hu). by apply (H e Hu).
Qed.

Lemma dir_Find_spec nm d :
  dir_wf d -> Find nm d = Ok (default (-1) (dir_map d !! cstr maxlen nm)).
Proof.
  intros Hwf. unfold Find. destruct (FindIndex_spec nm d Hwf) as [[-> Hn]|(i & e & -> & Hi & Hu & Hk)].
  - cbn. by rewrite dir_map_None.
  - cbn [mbind res_bind]. rewrite (proj2 (Z.eqb_neq _ (-1))) by lia. cbn [negb].
    rewrite (aget_lookup _ _ e) by (lia || by rewrite Nat2Z.id). cbn [mbind res_bind].
    rewrite <-Hk, (dir_map_Some d e Hwf) by by eapply elem_of_used. done.
Qed.

(** The map of a table whose used entries are a permutation of others. *)
Lemma dir_map_cons d d' e :
  NoDup (key <$> used (table d')) -> used (table d') ≡ₚ e :: used (table d) ->
  dir_map d' = <[key e := sector e]> (dir_map d).
Proof.
  intros Hnd Hp. unfold dir_map. erewrite list_to_map_proper; [|..|by apply Permutation_map, Hp].
  - done.
  - by rewrite <-list_fmap_compose.
Qed.

(** Every entry is in use when there are as many used entries as entries. *)
Lemma used_full d : dir_wf d ->
  zlen (used (table d)) = tableSize d <-> Forall (fun e => inUse e = true) (table d).
Proof.
  intros Hwf. rewrite (dir_size d Hwf). unfold zlen, used. clear Hwf.
  induction (table d) as [|e t IH]; [done|].
  rewrite filter_cons, Forall_cons, <-IH. pose proof (list.length_filter (fun e => Is_true (inUse e)) t).
  destruct (inUse e); cbn [length].
  - rewrite decide_True by done. cbn [length]. intuition lia.
  - rewrite decide_False by (by intros []). intuition (lia || done).
Qed.

Lemma used_bound d : dir_wf d -> zlen (used (table d)) <= tableSize d.
Proof.
  intros Hwf. rewrite (dir_size d Hwf). unfold zlen, used.
  pose proof (list.length_filter (fun e => Is_true (inUse e)) (table d)). lia.
Qed.

Lemma dir_wf_insert d i e :
  dir_wf d -> entry_ok e -> NoDup (key <$> used (<[i := e]> (table d))) ->
  dir_wf (mkDirectory (tableSize d) (<[i := e]> (table d))).
Proof.
  intros Hwf He Hnd. split; cbn; [|by apply Forall_insert; [apply Hwf|]|done].
  rewrite zlen_insert. apply Hwf.
Qed.

Lemma Add_spec nm s d :
  dir_wf d -> in_s32 s -> Forall in_u8 nm ->
  (is_Some (dir_map d !! cstr maxlen nm) -> Add nm s d = Ok (false, d)) /\
  (dir_map d !! cstr maxlen nm = None -> Forall (fun e => inUse e = true) (table d) ->
     Add nm s d = Ok (false, d)) /\
  (dir_map d !! cstr maxlen nm = None -> ~ Forall (fun e => inUse e = true) (table d) ->
     exists d', Add nm s d = Ok (true, d') /\ dir_wf d' /\ tableSize d' = tableSize d /\
       dir_map d' = <[cstr maxlen nm := s]> (dir_map d)).
Proof.
  intros Hwf Hs Hnm. unfold Add.
  assert (Hloop : for_break (Z.to_nat (tableSize d)) 0
      (fun i (_ : unit) =>
         e ← aget (table d) i;
         if negb (inUse e) then
           t ← aset (table d) i (mkDE true s (strncpy maxlen nm (name e)) (padding e)); Ok (inr t)
         else Ok (inl tt)) tt =
    match list_find (fun e => Is_true (negb (inUse e))) (table d) with
    | None => Ok (inl tt)
    | Some (i, e) =>
        t ← aset (table d) (Z.of_nat i) (mkDE true s (strncpy maxlen nm (name e)) (padding e));
        Ok (inr t)
    end).
  { rewrite (dir_size d Hwf). unfold zlen. rewrite Nat2Z.id.
    apply (search_loop (table d) (fun e => negb (inUse e))
      (fun i e => aset (table d) i (mkDE true s (strncpy maxlen nm (name e)) (padding e)))).
    intros i e He. by rewrite He. }
  split; [|split].
  - intros [v Hv]. destruct (FindIndex_spec nm d Hwf) as [[_ Hn]|(i & e & -> & _)].
    + by rewrite (dir_map_None d _ Hn) in Hv.
    + cbn [mbind res_bind]. by rewrite (proj2 (Z.eqb_neq _ (-1))) by lia.
  - intros Hnone Hall.
    destruct (FindIndex_spec nm d Hwf) as [[-> _]|(i & e & _ & Hi & Hu & Hk)].
    + cbn [mbind res_bind Z.eqb Pos.eqb negb]. rewrite Hloop.
      destruct (list_find _ (table d)) as [[i e]|] eqn:E; [|done].
      apply list_find_Some in E as (Hi & Hp & _).
      by rewrite (Forall_lookup_1 _ _ _ _ Hall Hi) in Hp.
    + rewrite <-Hk, (dir_map_Some d e Hwf) in Hnone; [done|by eapply elem_of_used].
  - intros Hnone Hfree.
    destruct (FindIndex_spec nm d Hwf) as [[-> Hn]|(i & e & _ & Hi & Hu & Hk)].
    2:{ rewrite <-Hk, (dir_map_Some d e Hwf) in Hnone; [done|by eapply elem_of_used]. }
    cbn [mbind res_bind Z.eqb Pos.eqb negb]. rewrite Hloop.
    destruct (list_find _ (table d)) as [[i e]|] eqn:E.
    2:{ exfalso. apply Hfree. apply list_find_None in E. eapply Forall_impl; [apply E|].
        intros x Hx. cbn in Hx. destruct (inUse x); [done|]. by destruct Hx. }
    apply list_find_Some in E as (Hi & Hp & _). assert (Hl := lookup_lt_Some _ _ _ Hi).
    assert (Hu : inUse e = false) by (by destruct (inUse e)).
    rewrite aset_in_range by (unfold zlen; lia). rewrite Nat2Z.id. cbn [mbind res_bind].
    set (e' := mkDE true s _ _). eexists. split; [done|].
    pose proof (Forall_lookup_1 _ _ _ _ (dir_entries d Hwf) Hi) as (H1 & H2 & H3 & H4 & _).
    assert (Hk : key e' = cstr maxlen nm) by apply cstr_strncpy.
    assert (Hperm := used_insert_free (table d) i e e' Hi Hu eq_refl).
    assert (Hnd : NoDup (key <$> used (<[i := e']> (table d)))).
    { rewrite Hperm, fmap_cons. apply list.NoDup_cons. split; [|apply Hwf].
      rewrite Hk. intros Hin. apply list_elem_of_fmap in Hin as (x & Hx & Hxu). by apply (Hn x Hxu). }
    split; [apply dir_wf_insert; [done| |done]|split; [done|]].
    + split; [|split; [|split; [done|split; [done|done]]]]; cbn.
      * rewrite length_strncpy; [done|]. rewrite H1. unfold maxlen, FileNameMaxLen. lia.
      * unfold strncpy. apply Forall_app. split; [|by apply Forall_drop]. apply Forall_take, Forall_app.
        split; [done|]. apply Forall_replicate. unfold in_u8. lia.
    + rewrite <-Hk. by apply dir_map_cons.
Qed.

Lemma Remove_spec nm d :
  dir_wf d ->
  (dir_map d !! cstr maxlen nm = None -> Remove nm d = Ok (false, d)) /\
  (is_Some (dir_map d !! cstr maxlen nm) ->
     exists d', Remove nm d = Ok (true, d') /\ dir_wf d' /\ tableSize d' = tableSize d /\
       dir_map d' = delete (cstr maxlen nm) (dir_map d)).
Proof.
  intros Hwf. unfold Remove. split.
  - intros Hnone. destruct (FindIndex_spec nm d Hwf) as [[-> _]|(i & e & _ & Hi & Hu & Hk)]; [done|].
    rewrite <-Hk, (dir_map_Some d e Hwf) in Hnone; [done|by eapply elem_of_used].
  - intros [v Hv]. destruct (FindIndex_spec nm d Hwf) as [[_ Hn]|(i & e & -> & Hi & Hu & Hk)].
    { by rewrite (dir_map_None d _ Hn) in Hv. }
    cbn [mbind res_bind]. rewrite (proj2 (Z.eqb_neq _ (-1))) by lia.
    assert (Hl := lookup_lt_Some _ _ _ Hi).
    rewrite (aget_lookup _ _ e) by (lia || by rewrite Nat2Z.id). cbn [mbind res_bind].
    rewrite aset_in_range by (unfold zlen; lia). rewrite Nat2Z.id. cbn [mbind res_bind].
    set (e' := mkDE false _ _ _). eexists. split; [done|].
    assert (Hperm := used_insert_used (table d) i e e' Hi Hu eq_refl).
    assert (Hnd := dir_nodup d Hwf). rewrite Hperm, fmap_cons in Hnd.
    apply list.NoDup_cons in Hnd as [Hni Hnd].
    pose proof (Forall_lookup_1 _ _ _ _ (dir_entries d Hwf) Hi) as Hok.
    split; [by apply dir_wf_insert|]. split; [done|].
    rewrite (dir_map_cons (mkDirectory (tableSize d) (<[i:=e']> (table d))) d e (dir_nodup d Hwf) Hperm).
    rewrite Hk, delete_insert_id; [done|]. rewrite <-Hk. apply dir_map_None. cbn.
    intros x Hx Hkx. apply Hni. apply list_elem_of_fmap. by exists x.
Qed.

(** ** The table as bytes *)

Lemma length_entry_bytes e : entry_ok e -> length (entry_bytes e) = 20%nat.
Proof.
  intros (H1 & _ & H2 & _). unfold entry_bytes.
  cbn [length]. rewrite !length_app, length_take, length_drop, length_le_bytes, H1, H2. done.
Qed.

Lemma entry_of_to_bytes e : entry_ok e -> entry_of_bytes (entry_bytes e) = e.
Proof.
  intros (H1 & _ & H2 & _ & Hs). destruct e as [u s nm pad]. cbn [name padding sector] in *.
  destruct pad as [|a [|b [|c [|d [|f [|]]]]]]; try discriminate.
  unfold entry_of_bytes, entry_bytes. cbn [inUse name padding sector take drop firstn skipn app].
  unfold slice. change (Z.to_nat 4) with 4%nat. change (Z.to_nat 8) with 8%nat.
  change (Z.to_nat 10) with 10%nat. change (Z.to_nat 1) with 1%nat. change (Z.to_nat 3) with 3%nat.
  change (Z.to_nat 18) with 18%nat. change (Z.to_nat 2) with 2%nat.
  pose proof (length_le_bytes 4 (u32 s)) as Hle. pose proof (le_val_le_bytes 4 (u32 s)) as Hlv.
  destruct (le_bytes 4 (u32 s)) as [|x0 [|x1 [|x2 [|x3 [|]]]]]; try discriminate.
  cbn [app skipn drop nth].
  f_equal.
  - by destruct u.
  - cbn [firstn skipn]. rewrite take_0, Hlv. change (256 ^ Z.of_nat 4) with (2 ^ 32). fold (u32 (u32 s)).
    by rewrite !s32_u32, s32_id.
  - cbn [skipn]. by rewrite drop_0, take_app_length'.
  - cbn [firstn skipn app]. by rewrite drop_app_length'.
Qed.

Lemma entry_bytes_u8 e : entry_ok e -> Forall in_u8 (entry_bytes e).
Proof.
  intros (_ & Hn & _ & Hp & _). unfold entry_bytes. constructor; [destruct (inUse e); unfold in_u8; lia|].
  repeat apply Forall_app_2; auto using Forall_take, Forall_drop, le_bytes_in_u8.
Qed.

Lemma table_bytes_cons e t : table_bytes (e :: t) = entry_bytes e ++ table_bytes t.
Proof. done. Qed.

Lemma zlen_table_bytes t : Forall entry_ok t -> zlen (table_bytes t) = 20 * zlen t.
Proof.
  induction 1 as [|e t He _ IH]; [done|]. rewrite table_bytes_cons, zlen_app, IH.
  unfold zlen. rewrite length_entry_bytes by done. cbn [length]. lia.
Qed.

Lemma table_of_to_bytes t rest :
  Forall entry_ok t -> table_of_bytes (length t) (table_bytes t ++ rest) = t.
Proof.
  induction 1 as [|e t He _ IH]; [done|]. rewrite table_bytes_cons. cbn [length table_of_bytes].
  rewrite <-app_assoc, take_app_length', drop_app_length' by (by rewrite length_entry_bytes).
  by rewrite entry_of_to_bytes, IH.
Qed.

Lemma table_bytes_u8 t : Forall entry_ok t -> Forall in_u8 (table_bytes t).
Proof.
  induction 1 as [|e t He _ IH]; [constructor|]. rewrite table_bytes_cons.
  apply Forall_app_2; [by apply entry_bytes_u8|done].
Qed.

(** ** Properties *)

(** C29: the directory implements a finite map from names, cut at nine
    characters, to sectors: Find is lookup, Add is insertion of a name that
    is not there into a table that is not full, Remove is deletion of a name
    that is there, and both leave the table alone otherwise. *)
Theorem Directory_refines_map d nm s :
  dir_wf d -> in_s32 s -> Forall in_u8 nm ->
  let k := cstr maxlen nm in
  Find nm d = Ok (default (-1) (dir_map d !! k)) /\
  (exists ok d', Add nm s d = Ok (ok, d') /\ dir_wf d' /\ tableSize d' = tableSize d /\
     ok = bool_decide (dir_map d !! k = None) && negb (bool_decide (zlen (used (table d)) = tableSize d)) /\
     dir_map d' = if ok then <[k := s]> (dir_map d) else dir_map d) /\
  (exists ok d', Remove nm d = Ok (ok, d') /\ dir_wf d' /\ tableSize d' = tableSize d /\
     ok = bool_decide (is_Some (dir_map d !! k)) /\
     dir_map d' = delete k (dir_map d)).
Proof.
  intros Hwf Hs Hnm k. split; [by apply dir_Find_spec|]. split.
  - destruct (Add_spec nm s d Hwf Hs Hnm) as (H1 & H2 & H3). fold k in H1, H2, H3.
    pose proof (used_full d Hwf) as Hfull.
    destruct (dir_map d !! k) as [v|] eqn:Ek.
    + exists false, d. rewrite H1 by eauto. by rewrite bool_decide_eq_false_2 by done.
    + rewrite bool_decide_eq_true_2 by done. cbn [andb].
      destruct (decide (zlen (used (table d)) = tableSize d)) as [Hf|Hf].
      * exists false, d. rewrite H2 by (done || by apply Hfull). by rewrite bool_decide_eq_true_2.
      * destruct H3 as (d' & HA & Hwf' & Hsz & Hm); [done|by rewrite <-Hfull|].
        exists true, d'. by rewrite bool_decide_eq_false_2.
  - destruct (Remove_spec nm d Hwf) as (H1 & H2). fold k in H1, H2.
    destruct (dir_map d !! k) as [v|] eqn:Ek.
    + destruct H2 as (d' & HR & Hwf' & Hsz & Hm); [by eauto|]. exists true, d'.
      by rewrite bool_decide_eq_true_2 by eauto.
    + exists false, d. rewrite H1 by done. rewrite bool_decide_eq_false_2 by (by intros [? ?]).
      do 4 (split; [done|]). by rewrite delete_id.
Qed.

(** A directory of two entries, the first in use for the file "a". *)
Definition example_dir : Directory :=
  mkDirectory 2 [mkDE true 7 [97; 0; 0; 0; 0; 0; 0; 0; 0; 204] [0; 0; 0; 0; 0];
                 mkDE false 0 (replicate 10 0) [0; 0; 0; 0; 0]].

Lemma example_dir_wf : dir_wf example_dir.
Proof.
  split.
  - reflexivity.
  - repeat (constructor; [split; [done|]|]); [| |constructor].
    + split; [repeat (constructor; [unfold in_u8; lia|]); constructor|]. split; [done|].
      split; [repeat (constructor; [unfold in_u8; lia|]); constructor|]. unfold in_s32. cbn. lia.
    + split; [repeat (constructor; [unfold in_u8; lia|]); constructor|]. split; [done|].
      split; [repeat (constructor; [unfold in_u8; lia|]); constructor|]. unfold in_s32. cbn. lia.
  - apply (bool_decide_unpack _). reflexivity.
Qed.

Lemma Directory_refines_map_witness :
  Find [98] example_dir = Ok (-1) /\
  exists d', Add [98] 9 example_dir = Ok (true, d') /\ dir_map d' = <[[98] := 9]> (dir_map example_dir).
Proof.
  destruct (Directory_refines_map example_dir [98] 9 example_dir_wf) as (HF & (ok & d' & HA & _ & _ & Hok & Hm) & _).
  - unfold in_s32. lia.
  - constructor; [unfold in_u8; lia|constructor].
  - split; [exact HF|]. assert (ok = true) as -> by (rewrite Hok; vm_compute; reflexivity).
    exists d'. by split.
Defined.
