(* ===== verification/FileSys.v ===== *)
(** * filesys/filesys.{h,cc}

    The file system: the free map and the directory are files themselves,
    whose headers sit in sectors 0 and 1 and which stay open.  The abstract
    file system is a finite map from names to file contents; the invariant
    says that the sectors of headers and data are owned by one file each
    and marked in the map.

    [Fresh] is the uninitialised memory the operations allocate. *)

From stdpp Require Import base list numbers gmap.
From S2P Require Import Prelude Arrays State Bitmap SectorDisk FileHdr OpenFile Directory.

Definition FreeMapSector : Z := 0.
Definition DirectorySector : Z := 1.
Definition FreeMapFileSize : Z := Z.quot NumSectors BitsInByte.
Definition NumDirEntries : Z := 10.
Definition DirectoryFileSize : Z := sizeof_DirectoryEntry * NumDirEntries.

(** What [new] returns for each kind of object. *)
Record Fresh := mkFresh {
  new_char : Z -> list Z;
  new_words : Z -> list Z;
  new_entries : Z -> list DirectoryEntry;
  new_hdr : FileHeader.t
}.

Record fresh_ok (F : Fresh) : Prop := {
  fresh_char : memory_source (new_char F);
  fresh_words : forall n, 0 <= n -> zlen (new_words F n) = n /\ Forall in_u32 (new_words F n);
  fresh_entries : forall n, 0 <= n -> zlen (new_entries F n) = n /\ Forall entry_ok (new_entries F n);
  fresh_hdr : wf_hdr (new_hdr F)
}.

Record FileSystem := mkFS {
  freeMapFile : OpenFile;
  directoryFile : OpenFile
}.

Section Ops.
Context {D : Type} `{!SectorDisk D} (F : Fresh).

Definition new_map : res BitMap :=
  BitMap_new NumSectors (new_words F (divRoundUp NumSectors BitsInWord)).
Definition new_directory : res Directory :=
  Directory_new NumDirEntries (new_entries F NumDirEntries).

Definition FileSystem_new (format : bool) : M (FSWorld D) FileSystem :=
  if format then
    freeMap ← lift new_map;
    directory ← lift new_directory;
    freeMap ← lift (Bitmap.Mark FreeMapSector freeMap);
    freeMap ← lift (Bitmap.Mark DirectorySector freeMap);
    r ← FileHeader.Allocate freeMap FreeMapFileSize (new_hdr F);
    let '(ok, mapHdr, freeMap) := r in
    _ ← assert ok;
    r ← FileHeader.Allocate freeMap DirectoryFileSize (new_hdr F);
    let '(ok, dirHdr, freeMap) := r in
    _ ← assert ok;
    _ ← FileHeader.WriteBack FreeMapSector mapHdr;
    _ ← FileHeader.WriteBack DirectorySector dirHdr;
    freeMapFile ← OpenFile_new FreeMapSector;
    directoryFile ← OpenFile_new DirectorySector;
    _ ← BitMap_WriteBack (new_char F) freeMapFile freeMap;
    _ ← Directory.WriteBack (new_char F) directoryFile directory;
    ret (mkFS freeMapFile directoryFile)
  else
    freeMapFile ← OpenFile_new FreeMapSector;
    directoryFile ← OpenFile_new DirectorySector;
    ret (mkFS freeMapFile directoryFile).

Definition fetch_directory (fs : FileSystem) : M (FSWorld D) Directory :=
  directory ← lift new_directory;
  Directory.FetchFrom (new_char F) (directoryFile fs) directory.

Definition fetch_map (fs : FileSystem) : M (FSWorld D) BitMap :=
  freeMap ← lift new_map;
  BitMap_FetchFrom (new_char F) (freeMapFile fs) freeMap.

Definition Create (nm : list Z) (initialSize : Z) (fs : FileSystem) : M (FSWorld D) bool :=
  directory ← fetch_directory fs;
  found ← lift (Directory.Find nm directory);
  if negb (found =? -1) then ret false
  else
    freeMap ← fetch_map fs;
    r ← lift (Bitmap.Find freeMap);
    let '(sector, freeMap) := r in
    if sector =? -1 then ret false
    else
      r ← lift (Directory.Add nm sector directory);
      let '(ok, directory) := r in
      if negb ok then ret false
      else
        r ← FileHeader.Allocate freeMap initialSize (new_hdr F);
        let '(ok, hdr, freeMap) := r in
        if negb ok then ret false
        else
          _ ← FileHeader.WriteBack sector hdr;
          _ ← Directory.WriteBack (new_char F) (directoryFile fs) directory;
          _ ← BitMap_WriteBack (new_char F) (freeMapFile fs) freeMap;
          ret true.

Definition Open (nm : list Z) (fs : FileSystem) : M (FSWorld D) (option OpenFile) :=
  directory ← fetch_directory fs;
  sector ← lift (Directory.Find nm directory);
  if 0 <=? sector then
    openFile ← OpenFile_new sector;
    ret (Some openFile)
  else ret None.

Definition Remove (nm : list Z) (fs : FileSystem) : M (FSWorld D) bool :=
  directory ← fetch_directory fs;
  sector ← lift (Directory.Find nm directory);
  if sector =? -1 then ret false
  else
    fileHdr ← FileHeader.FetchFrom sector;
    freeMap ← fetch_map fs;
    freeMap ← FileHeader.Deallocate freeMap fileHdr;
    freeMap ← lift (Bitmap.Clear sector freeMap);
    r ← lift (Directory.Remove nm directory);
    let '(_, directory) := r in
    _ ← BitMap_WriteBack (new_char F) (freeMapFile fs) freeMap;
    _ ← Directory.WriteBack (new_char F) (directoryFile fs) directory;
    ret true.

Definition List (fs : FileSystem) : M (FSWorld D) (list (list Z)) :=
  directory ← fetch_directory fs;
  lift (Directory.List directory).
End Ops.

(** ** The invariant *)

(** What the disk holds: the free map, the directory, and the header of
    each file. *)
Record view := mkView {
  v_map : BitMap;
  v_dir : Directory;
  v_hdrs : gmap (list Z) FileHeader.t
}.

(** The parts of the disk that own sectors. *)
Inductive owner :=
  | OSys (n : Z) | OMap | ODir
  | OHdr (k : list Z) | OData (k : list Z).

Definition map_hdr (fs : FileSystem) : FileHeader.t := hdr (freeMapFile fs).
Definition dir_hdr (fs : FileSystem) : FileHeader.t := hdr (directoryFile fs).

Definition owns (fs : FileSystem) (V : view) (o : owner) (s : Z) : Prop :=
  match o with
  | OSys n => (n = FreeMapSector \/ n = DirectorySector) /\ s = n
  | OMap => s ∈ data_sectors (map_hdr fs)
  | ODir => s ∈ data_sectors (dir_hdr fs)
  | OHdr k => dir_map (v_dir V) !! k = Some s
  | OData k => exists h, v_hdrs V !! k = Some h /\ s ∈ data_sectors h
  end.

(** The part of the invariant that does not mention the disk. *)
Record view_ok (fs : FileSystem) (V : view) : Prop := {
  vo_map_file : file_ok (map_hdr fs);
  vo_map_size : FileHeader.numBytes (map_hdr fs) = FreeMapFileSize;
  vo_dir_file : file_ok (dir_hdr fs);
  vo_dir_size : FileHeader.numBytes (dir_hdr fs) = DirectoryFileSize;
  vo_map : wf (v_map V);
  vo_bits : numBits (v_map V) = NumSectors;
  vo_dir : dir_wf (v_dir V);
  vo_entries : tableSize (v_dir V) = NumDirEntries;
  vo_dom : forall k, is_Some (dir_map (v_dir V) !! k) <-> is_Some (v_hdrs V !! k);
  vo_files : forall k h, v_hdrs V !! k = Some h -> file_ok h;
  vo_owned : forall o s, owns fs V o s -> valid_sector s /\ bitat (v_map V) s = true;
  vo_disjoint : forall o1 o2 s, owns fs V o1 s -> owns fs V o2 s -> o1 = o2
}.

Section Proofs.
Context {D : Type} `{!SectorDisk D, !SectorDiskLaws D} (F : Fresh) (HF : fresh_ok F).
Implicit Types (w : FSWorld D) (fs : FileSystem) (V : view).

Record stored fs V w : Prop := {
  st_ok : fs_ok w;
  st_map : contents w (map_hdr fs) = WriteBack_bytes (v_map V);
  st_dir : contents w (dir_hdr fs) = table_bytes (table (v_dir V));
  st_map_hdr : sectors_of w FreeMapSector = FileHeader.to_sector (map_hdr fs);
  st_dir_hdr : sectors_of w DirectorySector = FileHeader.to_sector (dir_hdr fs);
  st_hdrs : forall k s h, dir_map (v_dir V) !! k = Some s -> v_hdrs V !! k = Some h ->
    sectors_of w s = FileHeader.to_sector h
}.

Definition fs_inv fs V w : Prop := view_ok fs V /\ stored fs V w.

Lemma same_sectors_contents w w' h :
  file_ok h -> (forall s, s ∈ data_sectors h -> sectors_of w' s = sectors_of w s) ->
  contents w' h = contents w h.
Proof.
  intros Hf Hs. unfold contents, file_data. do 2 f_equal. apply list_fmap_ext.
  intros i s Hi. apply Hs. by eapply list_elem_of_lookup_2.
Qed.

Lemma fs_inv_unchanged fs V w w' : fs_inv fs V w -> unchanged w w' -> fs_inv fs V w'.
Proof.
  intros [Hv []] [Hok Hs]. split; [done|].
  assert (Hc : forall h, file_ok h -> contents w' h = contents w h).
  { intros h Hf. apply contents_same; [done|by split]. }
  split; try done.
  - rewrite Hc; [done|apply Hv].
  - rewrite Hc; [done|apply Hv].
  - by rewrite Hs.
  - by rewrite Hs.
  - intros k s h Hk Hh. rewrite Hs; [by eapply st_hdrs0|].
    by apply (vo_owned fs V Hv (OHdr k)).
Qed.

Lemma unchanged_trans w1 w2 w3 : unchanged w1 w2 -> unchanged w2 w3 -> unchanged w1 w3.
Proof. intros [H1 S1] [H2 S2]. split; [done|]. intros k Hk. by rewrite S2, S1. Qed.

(** ** Fetching the map and the directory *)

Lemma new_map_ok : exists bm, new_map F = Ok bm /\ wf bm /\ numBits bm = NumSectors /\
  clear_bits bm = seqZ 0 NumSectors.
Proof.
  destruct (fresh_words F HF (divRoundUp NumSectors BitsInWord)) as [Hl Hw]; [by cbn|].
  by apply BitMap_new_clear.
Qed.

Lemma new_directory_ok : exists d, new_directory F = Ok d /\ dir_wf d /\
  tableSize d = NumDirEntries /\ used (table d) = [].
Proof.
  destruct (fresh_entries F HF NumDirEntries) as [Hl He]; [done|].
  unfold new_directory, Directory_new.
  destruct (for_loop_inv
    (fun i t => zlen t = NumDirEntries /\ Forall entry_ok t /\
       forall j e, 0 <= j < i -> aget t j = Ok e -> inUse e = false)
    (fun i t => e ← aget t i; aset t i (mkDE false (sector e) (name e) (padding e)))
    (Z.to_nat NumDirEntries) 0 (new_entries F NumDirEntries)) as (t & -> & Ht & Hte & Hfree).
  - split; [done|]. split; [done|]. lia.
  - intros i t Hi (Hlt & Hte & Hfree). change NumDirEntries with 10 in *.
    destruct (aget_in_range t i) as [e Hge]; [lia|]. rewrite Hge, bind_Ok.
    apply aget_Ok_inv in Hge as [Hr Hge].
    pose proof (Forall_lookup_1 _ _ _ _ Hte Hge) as Heok.
    rewrite aset_in_range by done. eexists. split; [done|]. rewrite zlen_insert. split; [done|].
    split; [by apply Forall_insert|]. intros j e' Hj He'.
    destruct (decide (i = j)) as [<-|Hne].
    + rewrite aget_insert_eq in He' by done. by injection He' as <-.
    + rewrite aget_insert_ne in He' by lia. apply (Hfree j); [lia|done].
  - cbn [mbind res_bind]. eexists. split; [done|].
    assert (Hall : used t = []).
    { destruct (used t) as [|e l] eqn:E; [done|]. exfalso.
      assert (Heu : e ∈ used t) by (rewrite E; left). apply list_elem_of_filter in Heu as [Hu Hin].
      apply list_elem_of_lookup in Hin as [i Hi]. rewrite (Hfree (Z.of_nat i) e) in Hu.
      - by destruct Hu.
      - apply lookup_lt_Some in Hi. unfold zlen in Ht. change NumDirEntries with 10 in *. lia.
      - apply aget_lookup; [lia|by rewrite Nat2Z.id]. }
    split; [|done]. split; cbn [table tableSize]; [done|done|]. rewrite Hall. constructor.
Qed.

Lemma flat_read_whole c n : 0 < n -> zlen c = n -> flat_read n 0 c = c.
Proof.
  intros Hn Hz. unfold flat_read. rewrite Hz.
  rewrite (proj2 (Z.leb_gt n 0)) by done. cbn [orb]. rewrite Z.sub_0_r, Z.min_id, <-Hz. apply slice_all.
Qed.

Lemma flat_write_whole from c n : 0 < n -> zlen c = n -> zlen from = n -> flat_write from n 0 c = from.
Proof.
  intros Hn Hz Hf. unfold flat_write. rewrite Hz.
  rewrite (proj2 (Z.leb_gt n 0)) by done. cbn [orb]. rewrite Z.sub_0_r, Z.min_id, <-Hf, slice_all.
  apply splice_whole. congruence.
Qed.

Lemma zlen_map_bytes bm : wf bm -> numBits bm = NumSectors ->
  numWords bm * 4 = FreeMapFileSize /\ zlen (WriteBack_bytes bm) = FreeMapFileSize.
Proof.
  intros Hwf Hn. pose proof (wf_words bm Hwf) as Hw. rewrite Hn in Hw.
  pose proof (wf_len bm Hwf) as Hl. unfold WriteBack_bytes. rewrite zlen_words_to_bytes, Hl, Hw. done.
Qed.

Lemma fetch_map_spec fs V w :
  fs_inv fs V w -> run_to (fetch_map F fs) w (fun bm w' => bm = v_map V /\ unchanged w w').
Proof.
  intros [Hv Hs]. unfold fetch_map. destruct new_map_ok as (bm0 & Hnew & Hwf0 & Hn0 & _).
  apply run_to_bind. eapply run_to_lift; [exact Hnew|]. unfold BitMap_FetchFrom.
  destruct (zlen_map_bytes bm0 Hwf0 Hn0) as [Hsz _]. rewrite Hsz.
  destruct (zlen_map_bytes (v_map V) (vo_map _ _ Hv) (vo_bits _ _ Hv)) as [_ Hz].
  step_with (ReadAt_spec (new_char F) (fresh_char F HF) (freeMapFile fs) w FreeMapFileSize 0
    (st_ok _ _ _ Hs) (vo_map_file _ _ Hv) ltac:(done) ltac:(done)).
  intros got w' [Hun ->]. fold (map_hdr fs). rewrite (st_map _ _ _ Hs).
  rewrite flat_read_whole by done. eapply run_to_lift.
  - apply FetchFrom_WriteBack; [apply Hv|].
    rewrite (wf_len bm0 Hwf0), (wf_len _ (vo_map _ _ Hv)), (wf_words bm0 Hwf0), (wf_words _ (vo_map _ _ Hv)).
    by rewrite Hn0, (vo_bits _ _ Hv).
  - split; [|done]. unfold set_map. rewrite (wf_words bm0 Hwf0), Hn0.
    rewrite <-(vo_bits _ _ Hv), <-(wf_words _ (vo_map _ _ Hv)). by destruct (v_map V).
Qed.

Lemma zlen_dir_bytes d : dir_wf d -> tableSize d = NumDirEntries ->
  tableSize d * sizeof_DirectoryEntry = DirectoryFileSize /\ zlen (table_bytes (table d)) = DirectoryFileSize.
Proof.
  intros Hwf Hn. split; [by rewrite Hn|]. rewrite zlen_table_bytes by apply Hwf.
  rewrite <-(dir_size d Hwf), Hn. done.
Qed.

Lemma fetch_directory_spec fs V w :
  fs_inv fs V w -> run_to (fetch_directory F fs) w (fun d w' => d = v_dir V /\ unchanged w w').
Proof.
  intros [Hv Hs]. unfold fetch_directory. destruct new_directory_ok as (d0 & Hnew & Hwf0 & Hn0 & _).
  apply run_to_bind. eapply run_to_lift; [exact Hnew|]. unfold Directory.FetchFrom.
  destruct (zlen_dir_bytes d0 Hwf0 Hn0) as [Hsz Hz0]. rewrite Hsz.
  destruct (zlen_dir_bytes (v_dir V) (vo_dir _ _ Hv) (vo_entries _ _ Hv)) as [_ Hz].
  step_with (ReadAt_spec (new_char F) (fresh_char F HF) (directoryFile fs) w DirectoryFileSize 0
    (st_ok _ _ _ Hs) (vo_dir_file _ _ Hv) ltac:(done) ltac:(done)).
  intros got w' [Hun ->]. fold (dir_hdr fs). rewrite (st_dir _ _ _ Hs).
  rewrite flat_read_whole by done. apply run_to_bind.
  eapply run_to_lift; [apply bwrite_Ok; [done|by rewrite Hz, Hz0]|].
  rewrite splice_whole by congruence. apply run_to_ret. split; [|done].
  assert (Hlen : length (table d0) = length (table (v_dir V))).
  { pose proof (dir_size d0 Hwf0). pose proof (dir_size _ (vo_dir _ _ Hv)).
    pose proof (vo_entries _ _ Hv). unfold zlen in *. lia. }
  rewrite Hlen, <-(app_nil_r (table_bytes _)), table_of_to_bytes by apply (vo_dir _ _ Hv).
  rewrite Hn0, <-(vo_entries _ _ Hv). by destruct (v_dir V).
Qed.

(** ** Storing them *)

Lemma write_map_spec fs w bm :
  fs_ok w -> file_ok (map_hdr fs) -> FileHeader.numBytes (map_hdr fs) = FreeMapFileSize ->
  wf bm -> numBits bm = NumSectors ->
  run_to (BitMap_WriteBack (new_char F) (freeMapFile fs) bm) w (fun _ w' =>
    fs_ok w' /\ contents w' (map_hdr fs) = WriteBack_bytes bm /\
    forall k, valid_sector k -> k ∉ data_sectors (map_hdr fs) -> sectors_of w' k = sectors_of w k).
Proof.
  intros Hw Hf Hsz Hwf Hn. unfold BitMap_WriteBack. destruct (zlen_map_bytes bm Hwf Hn) as [Hwz Hz].
  rewrite Hwz.
  step_with (WriteAt_spec (new_char F) (fresh_char F HF) (freeMapFile fs) w (WriteBack_bytes bm)
    FreeMapFileSize 0 Hw Hf ltac:(done) ltac:(done) (words_to_bytes_in_u8 _) ltac:(by rewrite Hz)).
  intros r w' (_ & Hw' & Hc & Hout). apply run_to_ret. split; [done|]. split; [|done].
  fold (map_hdr fs) in Hc. rewrite Hc. apply flat_write_whole; [done| |done].
  by rewrite zlen_contents.
Qed.

Lemma write_dir_spec fs w d :
  fs_ok w -> file_ok (dir_hdr fs) -> FileHeader.numBytes (dir_hdr fs) = DirectoryFileSize ->
  dir_wf d -> tableSize d = NumDirEntries ->
  run_to (Directory.WriteBack (new_char F) (directoryFile fs) d) w (fun _ w' =>
    fs_ok w' /\ contents w' (dir_hdr fs) = table_bytes (table d) /\
    forall k, valid_sector k -> k ∉ data_sectors (dir_hdr fs) -> sectors_of w' k = sectors_of w k).
Proof.
  intros Hw Hf Hsz Hwf Hn. unfold Directory.WriteBack. destruct (zlen_dir_bytes d Hwf Hn) as [Hdz Hz].
  rewrite Hdz.
  step_with (WriteAt_spec (new_char F) (fresh_char F HF) (directoryFile fs) w (table_bytes (table d))
    DirectoryFileSize 0 Hw Hf ltac:(done) ltac:(done) (table_bytes_u8 _ (dir_entries d Hwf)) ltac:(by rewrite Hz)).
  intros r w' (_ & Hw' & Hc & Hout). apply run_to_ret. split; [done|]. split; [|done].
  fold (dir_hdr fs) in Hc. rewrite Hc. apply flat_write_whole; [done| |done].
  by rewrite zlen_contents.
Qed.

(** ** Create *)

Lemma marked_bit bm x : 0 <= x < numBits bm -> x ∉ clear_bits bm -> bitat bm x = true.
Proof.
  intros Hx Hn. apply not_false_iff_true. intros Hf. apply Hn, elem_of_clear_bits. by split.
Qed.

Lemma create_owns fs V k s h fm d o x :
  dir_map d = <[k := s]> (dir_map (v_dir V)) ->
  owns fs (mkView fm d (<[k := h]> (v_hdrs V))) o x ->
  owns fs V o x \/ (o = OHdr k /\ x = s) \/ (o = OData k /\ x ∈ data_sectors h).
Proof.
  intros Hd. destruct o as [n| | |k'|k']; cbn; try tauto.
  - rewrite Hd. destruct (decide (k' = k)) as [->|Hne].
    + rewrite lookup_insert_eq. intros [= ->]. tauto.
    + rewrite lookup_insert_ne by done. tauto.
  - destruct (decide (k' = k)) as [->|Hne].
    + rewrite lookup_insert_eq. intros (h' & [= <-] & Hx). tauto.
    + rewrite lookup_insert_ne by done. tauto.
Qed.

(** The new view is well formed: the new file owns sectors nobody owned. *)
Lemma create_view fs V k s l n h fm d :
  view_ok fs V -> clear_bits (v_map V) = s :: l ->
  wf fm -> numBits fm = NumSectors -> clear_bits fm = drop n l ->
  file_ok h -> data_sectors h = take n l ->
  dir_wf d -> tableSize d = NumDirEntries -> dir_map d = <[k := s]> (dir_map (v_dir V)) ->
  view_ok fs (mkView fm d (<[k := h]> (v_hdrs V))).
Proof.
  intros Hv Hcl Hwf Hnb Hcl' Hh Hds Hdw Hdt Hdm. pose proof Hv as [].
  pose proof (NoDup_clear_bits (v_map V)) as Hnd. rewrite Hcl in Hnd.
  apply list.NoDup_cons in Hnd as [Hns Hnd]. rewrite <-(take_drop n l) in Hns, Hnd.
  apply NoDup_app in Hnd as (_ & Htd & _). rewrite elem_of_app in Hns.
  assert (Hin : forall x, x = s \/ x ∈ take n l -> 0 <= x < NumSectors /\ bitat (v_map V) x = false /\ bitat fm x = true).
  { intros x Hx. assert (Hxc : x ∈ clear_bits (v_map V)).
    { rewrite Hcl, elem_of_cons. destruct Hx as [->|Hx]; [by left|right].
      rewrite <-(take_drop n l), elem_of_app. by left. }
    apply elem_of_clear_bits in Hxc as [Hr Hb]. rewrite vo_bits0 in Hr. split; [done|]. split; [done|].
    apply marked_bit; [by rewrite Hnb|]. rewrite Hcl'. destruct Hx as [->|Hx]; [tauto|by apply Htd]. }
  split; cbn [v_map v_dir v_hdrs]; try done.
  - intros k'. rewrite Hdm. destruct (decide (k' = k)) as [->|Hne].
    + rewrite !lookup_insert_eq. split; intros _; by eexists.
    + by rewrite !lookup_insert_ne.
  - intros k' h'. destruct (decide (k' = k)) as [->|Hne].
    + rewrite lookup_insert_eq. by intros [= <-].
    + rewrite lookup_insert_ne by done. apply vo_files0.
  - intros o x Ho. apply (create_owns _ _ _ s) in Ho as [Ho|[[_ ->]|[_ Hx]]]; [| | |done].
    + destruct (vo_owned0 o x Ho) as [Hvx Hbx]. split; [done|].
      apply marked_bit; [by rewrite Hnb|]. rewrite Hcl'. intros Hd.
      assert (Hxc : x ∈ clear_bits (v_map V)).
      { rewrite Hcl, elem_of_cons. right. rewrite <-(take_drop n l), elem_of_app. by right. }
      apply elem_of_clear_bits in Hxc as [_ Hxc]. congruence.
    + destruct (Hin s) as (? & _ & ?); [by left|done].
    + rewrite Hds in Hx. destruct (Hin x) as (? & _ & ?); [by right|done].
  - assert (Hnew : forall o x, owns fs V o x -> x = s \/ x ∈ data_sectors h -> False).
    { intros o x Ho Hx. rewrite Hds in Hx. destruct (vo_owned0 o x Ho) as [_ Hb].
      destruct (Hin x Hx) as (_ & Hc & _). congruence. }
    intros o1 o2 x H1 H2.
    apply (create_owns _ _ _ s) in H1; [|done]. apply (create_owns _ _ _ s) in H2; [|done].
    destruct H1 as [H1|[[-> ->]|[-> H1]]], H2 as [H2|[[-> E]|[-> H2]]]; try done.
    + by apply (vo_disjoint0 o1 o2 x).
    + subst x. destruct (Hnew _ _ H1); auto.
    + destruct (Hnew _ _ H1); auto.
    + destruct (Hnew _ _ H2); auto.
    + rewrite Hds in H2. tauto.
    + destruct (Hnew _ _ H2); auto.
    + subst x. rewrite Hds in H1. tauto.
Qed.

(** The parts of the disk keep apart. *)
Lemma owned_elsewhere fs V o1 o2 s :
  view_ok fs V -> owns fs V o1 s -> o1 <> o2 -> ~ owns fs V o2 s.
Proof. intros Hv H1 Hne H2. apply Hne. by apply (vo_disjoint _ _ Hv _ _ s). Qed.

(** Flushing the directory and then the map, in either order of the code,
    stores a view whose headers are already on the disk. *)
Definition headers_stored fs V w : Prop :=
  sectors_of w FreeMapSector = FileHeader.to_sector (map_hdr fs) /\
  sectors_of w DirectorySector = FileHeader.to_sector (dir_hdr fs) /\
  forall k s h, dir_map (v_dir V) !! k = Some s -> v_hdrs V !! k = Some h ->
    sectors_of w s = FileHeader.to_sector h.

Lemma headers_stored_frame fs V w w' :
  view_ok fs V -> headers_stored fs V w ->
  (forall k, valid_sector k -> k ∉ data_sectors (map_hdr fs) -> k ∉ data_sectors (dir_hdr fs) ->
     sectors_of w' k = sectors_of w k) ->
  headers_stored fs V w'.
Proof.
  intros Hv (H1 & H2 & H3) Hfr.
  assert (Hown : forall o x, owns fs V o x -> o <> OMap -> o <> ODir -> sectors_of w' x = sectors_of w x).
  { intros o x Ho Hm Hd. apply Hfr.
    - by apply (vo_owned _ _ Hv o).
    - by apply (owned_elsewhere fs V o OMap x).
    - by apply (owned_elsewhere fs V o ODir x). }
  split; [|split].
  - rewrite (Hown (OSys FreeMapSector)); [done|split; [by left|done]|done|done].
  - rewrite (Hown (OSys DirectorySector)); [done|split; [by right|done]|done|done].
  - intros k s h Hk Hh. rewrite (Hown (OHdr k)); [by apply (H3 k)|done|done|done].
Qed.

Lemma flush_spec fs V w :
  fs_ok w -> view_ok fs V -> headers_stored fs V w ->
  run_to (_ ← Directory.WriteBack (new_char F) (directoryFile fs) (v_dir V);
          BitMap_WriteBack (new_char F) (freeMapFile fs) (v_map V)) w (fun _ w' =>
    stored fs V w' /\
    forall k, valid_sector k -> k ∉ data_sectors (map_hdr fs) -> k ∉ data_sectors (dir_hdr fs) ->
      sectors_of w' k = sectors_of w k).
Proof.
  intros Hw Hv Hh. pose proof Hv as [].
  step_with (write_dir_spec fs w (v_dir V) Hw vo_dir_file0 vo_dir_size0 vo_dir0 vo_entries0).
  intros ? w1 (Hw1 & Hc1 & Hf1).
  eapply run_to_mono; [by apply (write_map_spec fs w1 (v_map V))|].
  intros ? w2 (Hw2 & Hc2 & Hf2).
  assert (Hfr : forall k, valid_sector k -> k ∉ data_sectors (map_hdr fs) -> k ∉ data_sectors (dir_hdr fs) ->
      sectors_of w2 k = sectors_of w k).
  { intros k Hk Hm Hd. by rewrite Hf2, Hf1. }
  split; [|done]. destruct (headers_stored_frame fs V w w2 Hv Hh Hfr) as (G1 & G2 & G3).
  split; try done. rewrite <-Hc1. apply same_sectors_contents; [done|].
  intros s Hs. apply Hf2; [by apply (vo_owned0 ODir)|].
  by apply (owned_elsewhere fs V ODir OMap s).
Qed.

Lemma flush_spec' fs V w :
  fs_ok w -> view_ok fs V -> headers_stored fs V w ->
  run_to (_ ← BitMap_WriteBack (new_char F) (freeMapFile fs) (v_map V);
          Directory.WriteBack (new_char F) (directoryFile fs) (v_dir V)) w (fun _ w' =>
    stored fs V w' /\
    forall k, valid_sector k -> k ∉ data_sectors (map_hdr fs) -> k ∉ data_sectors (dir_hdr fs) ->
      sectors_of w' k = sectors_of w k).
Proof.
  intros Hw Hv Hh. pose proof Hv as [].
  step_with (write_map_spec fs w (v_map V) Hw vo_map_file0 vo_map_size0 vo_map0 vo_bits0).
  intros ? w1 (Hw1 & Hc1 & Hf1).
  eapply run_to_mono; [by apply (write_dir_spec fs w1 (v_dir V))|].
  intros ? w2 (Hw2 & Hc2 & Hf2).
  assert (Hfr : forall k, valid_sector k -> k ∉ data_sectors (map_hdr fs) -> k ∉ data_sectors (dir_hdr fs) ->
      sectors_of w2 k = sectors_of w k).
  { intros k Hk Hm Hd. by rewrite Hf2, Hf1. }
  split; [|done]. destruct (headers_stored_frame fs V w w2 Hv Hh Hfr) as (G1 & G2 & G3).
  split; try done. rewrite <-Hc1. apply same_sectors_contents; [done|].
  intros s Hs. apply Hf2; [by apply (vo_owned0 OMap)|].
  by apply (owned_elsewhere fs V OMap ODir s).
Qed.

(** When Create succeeds. *)
Definition create_ok V (nm : list Z) (size : Z) : bool :=
  bool_decide (v_hdrs V !! cstr maxlen nm = None) &&
  (zlen (used (table (v_dir V))) <? NumDirEntries) &&
  (0 <=? size) && (size <=? MaxFileSize) &&
  (divRoundUp size SectorSize + 1 <=? zlen (clear_bits (v_map V))).

Lemma dir_lookup_valid fs V k s :
  view_ok fs V -> dir_map (v_dir V) !! k = Some s -> valid_sector s.
Proof. intros Hv Hk. by apply (vo_owned _ _ Hv (OHdr k)). Qed.

Lemma dir_None_hdrs fs V k :
  view_ok fs V -> dir_map (v_dir V) !! k = None <-> v_hdrs V !! k = None.
Proof.
  intros Hv. pose proof (vo_dom _ _ Hv k) as Hd. rewrite !eq_None_not_Some. tauto.
Qed.

(** The header that a successful Allocate makes. *)
Lemma allocated_file_ok size l h0 :
  0 <= size <= MaxFileSize -> divRoundUp size SectorSize <= zlen l -> NoDup l ->
  Forall valid_sector l -> wf_hdr h0 ->
  let n := divRoundUp size SectorSize in
  let h := FileHeader.mk size n (splice 0 (take (Z.to_nat n) l) (FileHeader.words h0)) in
  file_ok h /\ data_sectors h = take (Z.to_nat n) l.
Proof.
  intros Hs Hl Hnd Hvl Hh0 n h.
  pose proof (divRoundUp_spec size SectorSize ltac:(lia) ltac:(done)) as Hd. fold n in Hd, Hl.
  change MaxFileSize with 3840 in Hs. change SectorSize with 128 in Hd.
  set (secs := take (Z.to_nat n) l) in *.
  assert (Hlen : zlen secs = n) by (unfold zlen, secs in *; rewrite length_take; lia).
  pose proof (hdr_len h0 Hh0) as H30.
  assert (Hsz : 0 + zlen secs <= zlen (FileHeader.words h0)) by (unfold zlen in *; lia).
  assert (Hds : data_sectors h = secs).
  { pose proof (slice_splice_eq 0 secs (FileHeader.words h0) ltac:(lia) Hsz) as Hsl.
    unfold slice in Hsl. rewrite drop_0, Hlen in Hsl. exact Hsl. }
  split; [|done]. split; rewrite ?Hds.
  - split; cbn.
    + pose proof (zlen_splice 0 secs (FileHeader.words h0) ltac:(lia) Hsz) as Hz. unfold zlen in Hz. lia.
    + apply Forall_splice; [|apply Hh0]. apply Forall_take. eapply Forall_impl; [apply Hvl|].
      intros x Hx. unfold valid_sector, NumSectors, SectorsPerTrack, NumTracks in Hx. unfold in_s32. lia.
    + unfold in_s32. lia.
    + unfold in_s32. lia.
  - cbn. change MaxFileSize with 3840. lia.
  - done.
  - by apply Forall_take.
  - rewrite <-(take_drop (Z.to_nat n) l) in Hnd. by apply NoDup_app in Hnd as [? _].
Qed.

(** The last part of Create: storing the header, the directory and the map. *)
Lemma create_commit fs V w k s l h fm d :
  fs_inv fs V w -> clear_bits (v_map V) = s :: l -> file_ok h ->
  (let V' := mkView fm d (<[k := h]> (v_hdrs V)) in
   view_ok fs V' -> dir_map d = <[k := s]> (dir_map (v_dir V)) ->
   run_to (_ ← FileHeader.WriteBack s h;
           _ ← Directory.WriteBack (new_char F) (directoryFile fs) d;
           _ ← BitMap_WriteBack (new_char F) (freeMapFile fs) fm;
           ret true) w (fun ok w' => ok = true /\ fs_inv fs V' w' /\
     forall k' h', v_hdrs V !! k' = Some h' -> contents w' h' = contents w h')).
Proof.
  intros [Hv Hst] Hcl Hfh V' Hv' Hdm. pose proof Hv as [].
  assert (Hsc : s ∈ clear_bits (v_map V)) by (rewrite Hcl; left).
  apply elem_of_clear_bits in Hsc as [Hs Hsc]. rewrite vo_bits0 in Hs.
  step_with (hdr_WriteBack s h w (st_ok _ _ _ Hst) Hs (file_hdr h Hfh) (proj1 (file_num_sectors h Hfh))).
  intros ? w3 [Hok3 Hs3].
  assert (Hown3 : forall o x, owns fs V o x -> sectors_of w3 x = sectors_of w x).
  { intros o x Ho. destruct (vo_owned0 o x Ho) as [Hvx Hbx]. rewrite Hs3 by done.
    rewrite decide_False; [done|]. intros ->. congruence. }
  assert (Hhs : headers_stored fs V' w3).
  { split; [|split].
    - rewrite (Hown3 (OSys FreeMapSector)); [apply Hst|split; [by left|done]].
    - rewrite (Hown3 (OSys DirectorySector)); [apply Hst|split; [by right|done]].
    - intros k' s' h'. cbn [v_dir v_hdrs V']. rewrite Hdm. destruct (decide (k' = k)) as [->|Hne].
      + rewrite !lookup_insert_eq. intros [= <-] [= <-]. rewrite Hs3 by done. by rewrite decide_True.
      + rewrite !lookup_insert_ne by done. intros Hk' Hh'. rewrite (Hown3 (OHdr k')) by done.
        by apply (st_hdrs fs V w Hst k'). }
  apply run_to_assoc. step_with (flush_spec fs V' w3 Hok3 Hv' Hhs). intros ? w4 [Hst4 Hfr4].
  apply run_to_ret. split; [done|]. split; [by split|].
  intros k' h' Hk'. apply same_sectors_contents; [by apply (vo_files0 k')|]. intros x Hx.
  assert (Ho : owns fs V (OData k') x) by (by exists h').
  rewrite Hfr4; [by apply (Hown3 (OData k'))|..].
  - by apply (vo_owned0 (OData k')).
  - by apply (owned_elsewhere fs V (OData k') OMap x).
  - by apply (owned_elsewhere fs V (OData k') ODir x).
Qed.

(** Allocating a header from the map. *)
Lemma alloc_file fm size w :
  wf fm -> numBits fm = NumSectors -> 0 <= size <= MaxFileSize ->
  divRoundUp size SectorSize <= zlen (clear_bits fm) ->
  exists h fm', FileHeader.Allocate fm size (new_hdr F) w = Ok (true, h, fm', w) /\
    file_ok h /\ FileHeader.numBytes h = size /\
    data_sectors h = take (Z.to_nat (divRoundUp size SectorSize)) (clear_bits fm) /\
    wf fm' /\ numBits fm' = NumSectors /\
    clear_bits fm' = drop (Z.to_nat (divRoundUp size SectorSize)) (clear_bits fm).
Proof.
  intros Hwf Hnb Hs Hn. change MaxFileSize with 3840 in Hs.
  pose proof (Allocate_spec fm size (new_hdr F) w Hwf) as Hal. cbn zeta in Hal.
  specialize (Hal ltac:(unfold in_s32; lia) (hdr_len _ (fresh_hdr F HF))).
  change MaxFileSize with 3840 in Hal.
  rewrite (proj2 (Z.ltb_ge size 0)), (proj2 (Z.ltb_ge 3840 size)), (proj2 (Z.ltb_ge _ _)) in Hal by lia.
  destruct Hal as (fm' & Hal & Hwf' & Hnb' & _ & Hcl).
  destruct (allocated_file_ok size (clear_bits fm) (new_hdr F)) as [Hfh Hds];
    [by change MaxFileSize with 3840|done|apply NoDup_clear_bits| |apply HF|].
  { apply Forall_forall. intros x Hx. apply elem_of_clear_bits in Hx as [Hx _]. by rewrite Hnb in Hx. }
  eexists _, fm'. split; [exact Hal|]. split; [exact Hfh|]. split; [done|]. split; [done|].
  split; [done|]. split; [congruence|done].
Qed.

Lemma Create_spec fs V w nm size :
  fs_inv fs V w -> in_s32 size -> Forall in_u8 nm ->
  run_to (Create F nm size fs) w (fun ok w' =>
    ok = create_ok V nm size /\
    if ok then exists h bm d,
      let V' := mkView bm d (<[cstr maxlen nm := h]> (v_hdrs V)) in
      fs_inv fs V' w' /\ FileHeader.numBytes h = size /\
      forall k' h', v_hdrs V !! k' = Some h' -> contents w' h' = contents w h'
    else unchanged w w').
Proof.
  intros Hinv Hsize Hnm. unfold Create. set (k := cstr maxlen nm).
  step_with (fetch_directory_spec fs V w Hinv). intros d0 w1 [-> Hun1].
  pose proof Hinv as [Hv _]. pose proof Hv as [].
  apply run_to_bind. eapply run_to_lift; [by apply dir_Find_spec|]. fold k.
  destruct (dir_map (v_dir V) !! k) as [s0|] eqn:Ek.
  { cbn [default from_option id].
    pose proof (dir_lookup_valid fs V k s0 Hv Ek) as Hs0. unfold valid_sector in Hs0.
    rewrite (proj2 (Z.eqb_neq s0 (-1))) by lia. apply run_to_ret. split; [|done].
    unfold create_ok. fold k. rewrite bool_decide_eq_false_2; [done|].
    intros Hn. apply (dir_None_hdrs fs V k Hv) in Hn. congruence. }
  assert (Hhn : v_hdrs V !! k = None) by by apply (dir_None_hdrs fs V k Hv).
  cbn [default from_option Z.eqb Pos.eqb negb].
  step_with (fetch_map_spec fs V w1 (fs_inv_unchanged fs V w w1 Hinv Hun1)). intros fm0 w2 [-> Hun2].
  assert (Hun : unchanged w w2) by by eapply unchanged_trans.
  unfold create_ok. fold k. rewrite Hhn, bool_decide_eq_true_2 by done. cbn [andb].
  destruct (clear_bits (v_map V)) as [|s l] eqn:Ecl.
  { apply run_to_bind. eapply run_to_lift; [by apply Find_full|]. cbn [Z.eqb Pos.eqb].
    apply run_to_ret. split; [|done]. symmetry.
    destruct (Z.leb_spec 0 size) as [Hs0|]; [|by rewrite andb_false_r].
    pose proof (divRoundUp_nonneg size SectorSize Hs0 ltac:(done)).
    change (zlen (@nil Z)) with 0. rewrite (proj2 (Z.leb_gt _ 0)) by lia. by rewrite andb_false_r. }
  destruct (Find_clear (v_map V) s l vo_map0 Ecl) as (fm1 & HF1 & Hwf1 & Hnb1 & _ & Hcl1).
  assert (Hsv : forall x, x ∈ s :: l -> valid_sector x).
  { intros x Hx. rewrite <-Ecl in Hx. apply elem_of_clear_bits in Hx as [Hx _].
    by rewrite vo_bits0 in Hx. }
  assert (Hs : valid_sector s) by (apply Hsv; left).
  apply run_to_bind. eapply run_to_lift; [exact HF1|]. cbv beta iota.
  assert (Hs' := Hs). unfold valid_sector in Hs'. rewrite (proj2 (Z.eqb_neq s (-1))) by lia.
  assert (Hs32 : in_s32 s) by (unfold NumSectors, SectorsPerTrack, NumTracks in Hs'; unfold in_s32; lia).
  destruct (Add_spec nm s (v_dir V) vo_dir0 Hs32 Hnm) as (_ & Hfull & Hfree). fold k in Hfull, Hfree.
  pose proof (used_full (v_dir V) vo_dir0) as Huf. pose proof (used_bound (v_dir V) vo_dir0) as Hub.
  rewrite vo_entries0 in Huf, Hub.
  destruct (Z.ltb_spec (zlen (used (table (v_dir V)))) NumDirEntries) as [Hlt|Hge].
  2:{ apply run_to_bind. eapply run_to_lift; [apply Hfull; [done|apply Huf; lia]|]. cbv beta iota.
      cbn [negb]. apply run_to_ret. done. }
  destruct Hfree as (d & HA & Hdwf & Hdt & Hdm); [done|rewrite <-Huf; lia|].
  apply run_to_bind. eapply run_to_lift; [exact HA|]. cbv beta iota. cbn [negb].
  pose proof (Allocate_spec fm1 size (new_hdr F) w2 Hwf1 Hsize (hdr_len _ (fresh_hdr F HF))) as Hal.
  cbn zeta in Hal. rewrite Hcl1 in Hal. set (n := divRoundUp size SectorSize) in *.
  assert (Hzl : zlen (s :: l) = 1 + zlen l) by (unfold zlen; cbn [length]; lia). rewrite Hzl.
  destruct (Z.leb_spec 0 size) as [Hs0|Hs0].
  2:{ rewrite (proj2 (Z.ltb_lt size 0)) in Hal by done. cbn [orb] in Hal.
      apply run_to_bind. exists (false, new_hdr F, fm1), w2. split; [exact Hal|]. cbv beta iota. cbn [negb]. apply run_to_ret. done. }
  rewrite (proj2 (Z.ltb_ge size 0)) in Hal by done. cbn [orb andb] in Hal |- *.
  destruct (Z.leb_spec size MaxFileSize) as [Hmax|Hmax].
  2:{ rewrite (proj2 (Z.ltb_lt MaxFileSize size)) in Hal by done.
      apply run_to_bind. exists (false, new_hdr F, fm1), w2. split; [exact Hal|]. cbv beta iota. cbn [negb]. apply run_to_ret. done. }
  rewrite (proj2 (Z.ltb_ge MaxFileSize size)) in Hal by done. cbn [andb].
  destruct (Z.ltb_spec (zlen l) n) as [Hsp|Hsp].
  { apply run_to_bind. eexists (false, _, fm1), w2. split; [exact Hal|]. cbv beta iota. cbn [negb]. apply run_to_ret. split; [|done].
    symmetry. apply Z.leb_gt. lia. }
  rewrite (proj2 (Z.leb_le (n + 1) _)) by lia. clear Hal. rewrite <-Hcl1 in Hsp.
  destruct (alloc_file fm1 size w2) as (h & fm & Hal & Hfh & Hnbh & Hdsh & Hwfm & Hnbm & Hclm);
    [done|congruence|done|exact Hsp|]. fold n in Hdsh, Hclm. rewrite Hcl1 in Hdsh, Hclm.
  apply run_to_bind. exists (true, h, fm), w2. split; [exact Hal|]. cbv beta iota. cbn [negb].
  assert (Hv' : view_ok fs (mkView fm d (<[k := h]> (v_hdrs V)))).
  { apply (create_view fs V k s l (Z.to_nat n)); try done; congruence. }
  eapply run_to_mono; [by apply (create_commit fs V w2 k s l h fm d
    (fs_inv_unchanged fs V w w2 Hinv Hun) Ecl Hfh Hv' Hdm)|].
  intros ok w3 (-> & Hinv' & Hc). split; [done|]. exists h, fm, d. split; [done|]. split; [done|].
  intros k' h' Hk'. rewrite (Hc k' h' Hk'). apply contents_same; [by apply (vo_files0 k')|done].
Qed.

(** ** Open *)

Lemma Open_spec fs V w nm :
  fs_inv fs V w ->
  run_to (Open F nm fs) w (fun f w' =>
    f = (fun h => mkOpenFile h 0) <$> v_hdrs V !! cstr maxlen nm /\ unchanged w w').
Proof.
  intros Hinv. unfold Open. set (k := cstr maxlen nm).
  step_with (fetch_directory_spec fs V w Hinv). intros d0 w1 [-> Hun1].
  pose proof Hinv as [Hv _]. pose proof (fs_inv_unchanged fs V w w1 Hinv Hun1) as [_ Hst1].
  apply run_to_bind. eapply run_to_lift; [by apply dir_Find_spec, Hv|]. fold k.
  destruct (dir_map (v_dir V) !! k) as [s|] eqn:Ek; cbn [default from_option id].
  - pose proof (dir_lookup_valid fs V k s Hv Ek) as Hs. rewrite (proj2 (Z.leb_le 0 s)) by apply Hs.
    destruct (proj1 (vo_dom _ _ Hv k)) as [h Hh]; [by eexists|].
    pose proof (vo_files _ _ Hv k h Hh) as Hfh. unfold OpenFile_new. apply run_to_bind, run_to_bind.
    eapply run_to_mono; [apply (hdr_FetchFrom s h w1); try done|].
    + apply Hun1.
    + apply Hfh.
    + by apply file_num_sectors.
    + by apply (st_hdrs fs V w1 Hst1 k).
    + intros h' w2 (-> & Hok2 & Hs2). do 2 apply run_to_ret. rewrite Hh. split; [done|].
      by apply (unchanged_trans w w1).
  - apply run_to_ret. apply (dir_None_hdrs fs V k Hv) in Ek. by rewrite Ek.
Qed.

(** ** Remove *)

(** What Deallocate gives back: the data sectors, except those of a file of
    30 sectors. *)
Definition freed (h : FileHeader.t) (j : Z) : Prop :=
  FileHeader.numSectors h <> NumDirect /\ j ∈ data_sectors h.

Lemma Deallocate_file h fm w :
  file_ok h -> wf fm -> (forall s, s ∈ data_sectors h -> 0 <= s < numBits fm /\ bitat fm s = true) ->
  exists fm', FileHeader.Deallocate fm h w = Ok (fm', w) /\ wf fm' /\ numBits fm' = numBits fm /\
    forall j, j ∈ clear_bits fm' <-> freed h j \/ j ∈ clear_bits fm.
Proof.
  intros Hf Hwf Hm. destruct (file_num_sectors h Hf) as [Hn _].
  unfold FileHeader.Deallocate. rewrite gt_NumDirect_small by done.
  unfold mbind, M_bind, lift at 1, freed. destruct (decide (FileHeader.numSectors h = NumDirect)) as [He|Hne].
  - exists fm. unfold FileHeader.Deallocate_direct. rewrite He. split; [reflexivity|]. tauto.
  - destruct (Deallocate_direct_spec h fm) as (fm' & -> & ? & ? & Hc); [done|apply Hf|lia|done|apply Hf|].
    exists fm'. do 3 (split; [done|]). intros j. rewrite Hc. unfold data_sectors. tauto.
Qed.

Lemma remove_owns fs V k fm d o x :
  dir_map d = delete k (dir_map (v_dir V)) ->
  owns fs (mkView fm d (delete k (v_hdrs V))) o x -> owns fs V o x /\ o <> OHdr k /\ o <> OData k.
Proof.
  intros Hd. destruct o as [n| | |k'|k']; cbn [owns v_dir v_hdrs]; try (intros Hx; split; [exact Hx|by split]).
  - intros Hx. rewrite Hd in Hx. apply lookup_delete_Some in Hx as [Hne Hx]. split; [done|]. split; congruence.
  - intros (h & Hh & Hx). apply lookup_delete_Some in Hh as [Hne Hh].
    split; [by exists h|]. split; congruence.
Qed.

Lemma remove_view fs V k s h fm d :
  view_ok fs V -> dir_map (v_dir V) !! k = Some s -> v_hdrs V !! k = Some h ->
  wf fm -> numBits fm = NumSectors ->
  (forall j, j ∈ clear_bits fm <-> j = s \/ freed h j \/ j ∈ clear_bits (v_map V)) ->
  dir_wf d -> tableSize d = NumDirEntries -> dir_map d = delete k (dir_map (v_dir V)) ->
  view_ok fs (mkView fm d (delete k (v_hdrs V))).
Proof.
  intros Hv Hk Hh Hwf Hnb Hcl Hdw Hdt Hdm. pose proof Hv as [].
  split; cbn [v_map v_dir v_hdrs]; try done.
  - intros k'. rewrite Hdm. destruct (decide (k' = k)) as [->|Hne].
    + rewrite !lookup_delete_eq. split; intros []; done.
    + by rewrite !lookup_delete_ne.
  - intros k' h' Hk'. apply lookup_delete_Some in Hk' as [_ Hk']. by apply (vo_files0 k').
  - intros o x Ho. destruct (remove_owns fs V k fm d o x Hdm Ho) as (Ho' & Hn1 & Hn2).
    destruct (vo_owned0 o x Ho') as [Hvx Hbx]. split; [done|]. apply marked_bit; [by rewrite Hnb|].
    rewrite Hcl. intros [->|[[_ Hx]|Hx]].
    + by apply Hn1, (vo_disjoint0 o (OHdr k) s).
    + apply Hn2, (vo_disjoint0 o (OData k) x); [done|by exists h].
    + apply elem_of_clear_bits in Hx as [_ Hx]. congruence.
  - intros o1 o2 x H1 H2. apply (remove_owns _ _ k) in H1 as [H1 _]; [|done].
    apply (remove_owns _ _ k) in H2 as [H2 _]; [|done]. by apply (vo_disjoint0 o1 o2 x).
Qed.

Lemma Remove_file_spec fs V w nm :
  fs_inv fs V w ->
  run_to (Remove F nm fs) w (fun ok w' =>
    match v_hdrs V !! cstr maxlen nm with
    | None => ok = false /\ unchanged w w'
    | Some h => ok = true /\ exists bm d s,
        fs_inv fs (mkView bm d (delete (cstr maxlen nm) (v_hdrs V))) w' /\
        dir_map (v_dir V) !! cstr maxlen nm = Some s /\
        (forall j, j ∈ clear_bits bm <-> j = s \/ freed h j \/ j ∈ clear_bits (v_map V)) /\
        forall k' h', k' <> cstr maxlen nm -> v_hdrs V !! k' = Some h' -> contents w' h' = contents w h'
    end).
Proof.
  intros Hinv. unfold Remove. set (k := cstr maxlen nm).
  step_with (fetch_directory_spec fs V w Hinv). intros d0 w1 [-> Hun1].
  pose proof Hinv as [Hv _]. pose proof Hv as []. pose proof (fs_inv_unchanged fs V w w1 Hinv Hun1) as [_ Hst1].
  apply run_to_bind. eapply run_to_lift; [by apply dir_Find_spec|]. fold k.
  destruct (dir_map (v_dir V) !! k) as [s|] eqn:Ek; cbn [default from_option id].
  2:{ cbn. apply run_to_ret. apply (dir_None_hdrs fs V k Hv) in Ek. by rewrite Ek. }
  pose proof (dir_lookup_valid fs V k s Hv Ek) as Hs. assert (Hs' := Hs). unfold valid_sector in Hs'.
  rewrite (proj2 (Z.eqb_neq s (-1))) by lia.
  destruct (proj1 (vo_dom0 k)) as [h Hh]; [by eexists|]. rewrite Hh.
  pose proof (vo_files0 k h Hh) as Hfh.
  step_with (hdr_FetchFrom s h w1 (proj1 Hun1) Hs (file_hdr h Hfh) (proj1 (file_num_sectors h Hfh))
    (st_hdrs fs V w1 Hst1 k s h Ek Hh)).
  intros h' w2 (-> & Hok2 & Hs2).
  assert (Hun2 : unchanged w w2) by by apply (unchanged_trans w w1).
  step_with (fetch_map_spec fs V w2 (fs_inv_unchanged fs V w w2 Hinv Hun2)). intros fm0 w3 [-> Hun3].
  assert (Hun : unchanged w w3) by by apply (unchanged_trans w w2).
  destruct (Deallocate_file h (v_map V) w3 Hfh vo_map0) as (fm1 & HD & Hwf1 & Hnb1 & Hcl1).
  { intros x Hx. rewrite vo_bits0. apply (vo_owned0 (OData k)). by exists h. }
  apply run_to_bind. exists fm1, w3. split; [exact HD|].
  destruct (Clear_clear_bits fm1 s Hwf1) as (fm & HC & Hwf & Hnb & Hcl); [by rewrite Hnb1, vo_bits0|].
  apply run_to_bind. eapply run_to_lift; [exact HC|].
  destruct (proj2 (Remove_spec nm (v_dir V) vo_dir0)) as (d & HR & Hdw & Hdt & Hdm); [fold k; by rewrite Ek|].
  apply run_to_bind. eapply run_to_lift; [exact HR|]. cbv beta iota. fold k in Hdm.
  assert (Hcl' : forall j, j ∈ clear_bits fm <-> j = s \/ freed h j \/ j ∈ clear_bits (v_map V)).
  { intros j. rewrite Hcl, Hcl1. tauto. }
  set (V' := mkView fm d (delete k (v_hdrs V))).
  assert (Hv' : view_ok fs V') by (apply (remove_view fs V k s h); try done; congruence).
  destruct (fs_inv_unchanged fs V w w3 Hinv Hun) as [_ Hst3].
  assert (Hhs : headers_stored fs V' w3).
  { split; [apply Hst3|]. split; [apply Hst3|]. intros k' s' h'. cbn [v_dir v_hdrs V']. rewrite Hdm.
    rewrite !lookup_delete_Some. intros [_ Hk'] [_ Hh']. by apply (st_hdrs fs V w3 Hst3 k'). }
  apply run_to_assoc. step_with (flush_spec' fs V' w3 (proj1 Hun) Hv' Hhs). intros ? w4 [Hst4 Hfr4].
  apply run_to_ret. split; [done|]. exists fm, d, s. split; [by split|]. split; [done|]. split; [done|].
  intros k' h' Hne Hk'. apply same_sectors_contents; [by apply (vo_files0 k')|]. intros x Hx.
  assert (Ho : owns fs V (OData k') x) by (by exists h').
  rewrite Hfr4; [apply Hun|..].
  - by apply (vo_owned0 (OData k')).
  - by apply (vo_owned0 (OData k')).
  - by apply (owned_elsewhere fs V (OData k') OMap x).
  - by apply (owned_elsewhere fs V (OData k') ODir x).
Qed.

(** ** Formatting and mounting *)

Lemma open_header s h w :
  fs_ok w -> valid_sector s -> file_ok h -> sectors_of w s = FileHeader.to_sector h ->
  run_to (OpenFile_new s) w (fun f w' => f = mkOpenFile h 0 /\ unchanged w w').
Proof.
  intros Hw Hs Hf Hst. unfold OpenFile_new.
  step_with (hdr_FetchFrom s h w Hw Hs (file_hdr h Hf) (proj1 (file_num_sectors h Hf)) Hst).
  intros h' w' (-> & Hok & Hsec). apply run_to_ret. by split.
Qed.

Lemma mount_spec w mh dh :
  fs_ok w -> file_ok mh -> file_ok dh ->
  sectors_of w FreeMapSector = FileHeader.to_sector mh ->
  sectors_of w DirectorySector = FileHeader.to_sector dh ->
  run_to (FileSystem_new F false) w (fun fs w' =>
    fs = mkFS (mkOpenFile mh 0) (mkOpenFile dh 0) /\ unchanged w w').
Proof.
  intros Hw Hm Hd Hsm Hsd. unfold FileSystem_new.
  step_with (open_header FreeMapSector mh w Hw ltac:(done) Hm Hsm). intros f1 w1 [-> Hu1].
  step_with (open_header DirectorySector dh w1 (proj1 Hu1) ltac:(done) Hd
    ltac:(by rewrite (proj2 Hu1))). intros f2 w2 [-> Hu2].
  apply run_to_ret. split; [done|]. by apply (unchanged_trans w w1).
Qed.

(** The free map as the constructor marks it. *)
Lemma marked_map : exists bm0 bm1 bm2, new_map F = Ok bm0 /\
  Bitmap.Mark FreeMapSector bm0 = Ok bm1 /\ Bitmap.Mark DirectorySector bm1 = Ok bm2 /\
  wf bm2 /\ numBits bm2 = NumSectors /\ clear_bits bm2 = seqZ 2 (NumSectors - 2).
Proof.
  destruct new_map_ok as (bm0 & Hnew & Hwf0 & Hnb0 & Hc0).
  destruct (Mark_clear_bits bm0 FreeMapSector Hwf0) as (bm1 & H1 & Hwf1 & Hnb1 & Hc1); [by rewrite Hnb0|].
  destruct (Mark_clear_bits bm1 DirectorySector Hwf1) as (bm2 & H2 & Hwf2 & Hnb2 & Hc2);
    [by rewrite Hnb1, Hnb0|].
  exists bm0, bm1, bm2. do 4 (split; [done|]). split; [congruence|].
  rewrite Hc2, Hc1, Hc0. vm_compute. reflexivity.
Qed.

(** The view of a fresh disk is well formed. *)
Lemma fresh_view mh dh fm d :
  file_ok mh -> FileHeader.numBytes mh = FreeMapFileSize -> data_sectors mh = [2] ->
  file_ok dh -> FileHeader.numBytes dh = DirectoryFileSize -> data_sectors dh = [3; 4] ->
  wf fm -> numBits fm = NumSectors -> clear_bits fm = seqZ 5 (NumSectors - 5) ->
  dir_wf d -> tableSize d = NumDirEntries -> used (table d) = [] ->
  view_ok (mkFS (mkOpenFile mh 0) (mkOpenFile dh 0)) (mkView fm d ∅).
Proof.
  intros Hmh Hms Hmd Hdh Hds Hdd Hwf Hnb Hcl Hdw Hdt Hdu.
  assert (Hdm : dir_map d = ∅) by (unfold dir_map; by rewrite Hdu).
  assert (Hown : forall o x, owns (mkFS (mkOpenFile mh 0) (mkOpenFile dh 0)) (mkView fm d ∅) o x ->
    (o, x) ∈ [(OSys 0, 0); (OSys 1, 1); (OMap, 2); (ODir, 3); (ODir, 4)]).
  { intros o x. rewrite !elem_of_cons. destruct o as [n| | |k|k]; cbn [owns v_dir v_hdrs].
    - intros [[-> | ->] ->]; unfold FreeMapSector, DirectorySector; tauto.
    - unfold map_hdr. cbn [freeMapFile hdr]. rewrite Hmd, list_elem_of_singleton. intros ->. tauto.
    - unfold dir_hdr. cbn [directoryFile hdr]. rewrite Hdd, !elem_of_cons, elem_of_nil.
      intros [->|[->|[]]]; tauto.
    - rewrite Hdm, lookup_empty. done.
    - intros (h & Hh & _). by rewrite lookup_empty in Hh. }
  split; try done; cbn [v_map v_dir v_hdrs].
  - intros k. by rewrite Hdm, !lookup_empty.
  - intros o x Ho. apply Hown in Ho. rewrite !elem_of_cons, elem_of_nil in Ho.
    assert (Hx : 0 <= x < 5) by (destruct Ho as [[= -> ->]|[[= -> ->]|[[= -> ->]|[[= -> ->]|[[= -> ->]|[]]]]]]; lia).
    unfold valid_sector. change NumSectors with 1024 in *. split; [lia|].
    apply marked_bit; [lia|]. rewrite Hcl, elem_of_seqZ. lia.
  - intros o1 o2 x H1 H2. apply Hown in H1, H2. rewrite !elem_of_cons, elem_of_nil in H1, H2.
    destruct H1 as [[= -> ->]|[[= -> ->]|[[= -> ->]|[[= -> ->]|[[= -> ->]|[]]]]]];
      by destruct H2 as [[= ->]|[[= ->]|[[= ->]|[[= ->]|[[= ->]|[]]]]]].
Qed.

Lemma format_spec w :
  fs_ok w ->
  run_to (FileSystem_new F true) w (fun fs w' => exists fm d,
    fs_inv fs (mkView fm d ∅) w' /\ used (table d) = [] /\ clear_bits fm = seqZ 5 (NumSectors - 5)).
Proof.
  intros Hw. unfold FileSystem_new. destruct marked_map as (bm0 & bm1 & bm2 & E0 & E1 & E2 & Hwf2 & Hnb2 & Hc2).
  destruct new_directory_ok as (d & Ed & Hdw & Hdt & Hdu).
  apply run_to_bind. eapply run_to_lift; [exact E0|]. apply run_to_bind. eapply run_to_lift; [exact Ed|].
  apply run_to_bind. eapply run_to_lift; [exact E1|]. apply run_to_bind. eapply run_to_lift; [exact E2|].
  destruct (alloc_file bm2 FreeMapFileSize w Hwf2 Hnb2) as (mh & fm1 & HA1 & Hmh & Hmn & Hmd & Hwf3 & Hnb3 & Hc3);
    [done|rewrite Hc2; by vm_compute|].
  apply run_to_bind. exists (true, mh, fm1), w. split; [exact HA1|]. cbv beta iota.
  apply run_to_bind, run_to_assert; [done|].
  rewrite Hc2 in Hmd, Hc3.
  assert (Hc3' : clear_bits fm1 = seqZ 3 (NumSectors - 3)) by (rewrite Hc3; by vm_compute).
  destruct (alloc_file fm1 DirectoryFileSize w Hwf3 Hnb3) as (dh & fm & HA2 & Hdh & Hdn & Hdd & Hwf & Hnb & Hc);
    [done|rewrite Hc3'; by vm_compute|].
  apply run_to_bind. exists (true, dh, fm), w. split; [exact HA2|]. cbv beta iota.
  apply run_to_bind, run_to_assert; [done|]. rewrite Hc3' in Hdd, Hc.
  assert (Hc' : clear_bits fm = seqZ 5 (NumSectors - 5)) by (rewrite Hc; by vm_compute).
  assert (Hv : view_ok (mkFS (mkOpenFile mh 0) (mkOpenFile dh 0)) (mkView fm d ∅)).
  { by apply fresh_view. }
  step_with (hdr_WriteBack FreeMapSector mh w Hw ltac:(done) (file_hdr mh Hmh) (proj1 (file_num_sectors mh Hmh))).
  intros ? w1 [Hok1 Hs1].
  step_with (hdr_WriteBack DirectorySector dh w1 Hok1 ltac:(done) (file_hdr dh Hdh) (proj1 (file_num_sectors dh Hdh))).
  intros ? w2 [Hok2 Hs2].
  assert (Hm2 : sectors_of w2 FreeMapSector = FileHeader.to_sector mh) by (by rewrite Hs2, Hs1).
  assert (Hd2 : sectors_of w2 DirectorySector = FileHeader.to_sector dh) by (by rewrite Hs2).
  step_with (open_header FreeMapSector mh w2 Hok2 ltac:(done) Hmh Hm2). intros f1 w3 [-> Hu3].
  step_with (open_header DirectorySector dh w3 (proj1 Hu3) ltac:(done) Hdh
    ltac:(by rewrite (proj2 Hu3))). intros f2 w4 [-> Hu4].
  pose proof (unchanged_trans w2 w3 w4 Hu3 Hu4) as [Hok4 Hs4].
  apply run_to_assoc. step_with (flush_spec' (mkFS (mkOpenFile mh 0) (mkOpenFile dh 0)) (mkView fm d ∅) w4 Hok4 Hv).
  { split; [|split]; [by rewrite Hs4|by rewrite Hs4|].
    intros k s h _. cbn [v_hdrs]. by rewrite lookup_empty. }
  intros ? w5 [Hst _]. apply run_to_ret. exists fm, d. split; [by split|]. done.
Qed.
End Proofs.

(** ** Properties *)

(** The abstract file system: the contents of each file by name. *)
Definition file_map {D} `{!SectorDisk D, !SectorDiskLaws D} (V : view) (w : FSWorld D) : gmap (list Z) (list Z) :=
  contents w <$> v_hdrs V.

Lemma file_map_unchanged {D} `{!SectorDisk D, !SectorDiskLaws D} fs V (w w' : FSWorld D) :
  view_ok fs V -> unchanged w w' -> file_map V w' = file_map V w.
Proof.
  intros Hv Hun. unfold file_map. apply map_eq. intros k. rewrite !lookup_fmap.
  destruct (v_hdrs V !! k) as [h|] eqn:E; [|done]. cbn. f_equal.
  apply contents_same; [by apply (vo_files _ _ Hv k)|done].
Qed.

Lemma fmap_alter_at {K} `{Countable K} {A B} (f g : A -> B) (m : gmap K A) k :
  (forall k' x, k' <> k -> m !! k' = Some x -> f x = g x) ->
  forall x, f <$> <[k := x]> m = <[k := f x]> (g <$> m).
Proof.
  intros Hfg x. apply map_eq. intros k'. rewrite lookup_fmap. destruct (decide (k' = k)) as [->|Hne].
  - by rewrite !lookup_insert_eq.
  - rewrite !lookup_insert_ne, lookup_fmap by done.
    destruct (m !! k') as [y|] eqn:E; [|done]. cbn. f_equal. by apply (Hfg k').
Qed.

(** C2: [Create] returns whether the name is new, the directory has a
    free entry, the size is allowed and the sectors suffice; then the file
    system is the old one plus a file of that size under the name, cut to
    its 9 characters, every other file keeps its contents, no sector is
    owned twice, and otherwise no file changes. *)
Theorem Create_correct {D} `{!SectorDisk D, !SectorDiskLaws D} F fs V (w : FSWorld D) nm size :
  fresh_ok F -> fs_inv fs V w -> in_s32 size -> Forall in_u8 nm ->
  run_to (Create F nm size fs) w (fun ok w' =>
    ok = create_ok V nm size /\
    exists V', fs_inv fs V' w' /\
      if ok then exists c, zlen c = size /\ file_map V' w' = <[cstr maxlen nm := c]> (file_map V w)
      else V' = V /\ file_map V w' = file_map V w).
Proof.
  intros HF Hinv Hs Hnm. eapply run_to_mono; [by apply Create_spec|].
  intros ok w' [Hok H]. split; [done|]. destruct ok.
  - destruct H as (h & bm & d & Hinv' & Hsz & Hc). eexists; split; [exact Hinv'|].
    exists (contents w' h). split.
    + rewrite <-Hsz. destruct Hinv' as [Hv' Hst']. apply zlen_contents; [apply Hst'|].
      apply (vo_files _ _ Hv' (cstr maxlen nm)). cbn. apply lookup_insert_eq.
    + apply fmap_alter_at. intros k' x _ Hx. by apply (Hc k').
  - exists V. split; [by eapply fs_inv_unchanged|]. split; [done|].
    by eapply file_map_unchanged; [apply Hinv|].
Qed.

(** C4: [Remove] fails and changes no file when the name is unknown;
    otherwise exactly that file disappears, every other file keeps its
    contents, the header's sector is clear in the free map again, and so
    are the data sectors unless the file has 30 of them. *)
Theorem Remove_correct {D} `{!SectorDisk D, !SectorDiskLaws D} F fs V (w : FSWorld D) nm :
  fresh_ok F -> fs_inv fs V w ->
  run_to (Remove F nm fs) w (fun ok w' => exists V', fs_inv fs V' w' /\
    match v_hdrs V !! cstr maxlen nm with
    | None => ok = false /\ V' = V /\ file_map V w' = file_map V w
    | Some h => ok = true /\ file_map V' w' = delete (cstr maxlen nm) (file_map V w) /\
        exists s, dir_map (v_dir V) !! cstr maxlen nm = Some s /\
        forall j, j ∈ clear_bits (v_map V') <->
          j ∈ clear_bits (v_map V) \/ j = s \/ FileHeader.numSectors h <> 30 /\ j ∈ data_sectors h
    end).
Proof.
  intros HF Hinv. eapply run_to_mono; [by apply Remove_file_spec|]. intros ok w'.
  destruct (v_hdrs V !! cstr maxlen nm) as [h|].
  - intros (-> & bm & d & s & Hinv' & Hs & Hcl & Hc). eexists; split; [exact Hinv'|]. split; [done|]. split.
    + unfold file_map. rewrite <-fmap_delete. apply map_fmap_ext. intros k x Hx.
      apply lookup_delete_Some in Hx as [Hne Hx]. by apply (Hc k).
    + exists s. split; [done|]. intros j. cbn [v_map]. rewrite Hcl. unfold freed. change NumDirect with 30. tauto.
  - intros [-> Hun]. exists V. split; [by eapply fs_inv_unchanged|]. do 2 (split; [done|]).
    by eapply file_map_unchanged; [apply Hinv|].
Qed.

(** C7: [Open] finds exactly the names of the file system, whatever
    follows their ninth character; the handle starts at position 0, has the
    length of the file and reads its contents, and no file changes. *)
Theorem Open_correct {D} `{!SectorDisk D, !SectorDiskLaws D} F fs V (w : FSWorld D) nm :
  fresh_ok F -> fs_inv fs V w ->
  run_to (Open F nm fs) w (fun f w' => fs_inv fs V w' /\ file_map V w' = file_map V w /\
    match file_map V w !! cstr maxlen nm with
    | None => f = None
    | Some c => exists o, f = Some o /\ seekPosition o = 0 /\ Length o = zlen c /\
        run_to (ReadAt (new_char F) (zlen c) 0 o) w' (fun bytes _ => bytes = c)
    end).
Proof.
  intros HF Hinv. eapply run_to_mono; [by apply Open_spec|]. intros f w' [-> Hun].
  pose proof (fs_inv_unchanged fs V w w' Hinv Hun) as Hinv'. pose proof Hinv as [Hv Hst].
  split; [done|]. split; [by eapply file_map_unchanged|]. unfold file_map. rewrite lookup_fmap.
  destruct (v_hdrs V !! cstr maxlen nm) as [h|] eqn:E; [|done]. cbn [fmap option_fmap option_map].
  pose proof (vo_files _ _ Hv _ h E) as Hf. pose proof (file_size h Hf) as Hsz. change MaxFileSize with 3840 in Hsz.
  assert (Hz := zlen_contents w h (st_ok _ _ _ Hst) Hf).
  exists (mkOpenFile h 0). split; [done|]. split; [done|]. split; [done|]. rewrite Hz.
  eapply run_to_mono; [apply (ReadAt_spec (new_char F) (fresh_char F HF) (mkOpenFile h 0) w')|].
  - apply Hinv'.
  - done.
  - done.
  - lia.
  - intros bytes w2 [_ ->]. cbn [hdr]. rewrite (contents_same w w' h Hf Hun).
    unfold flat_read. rewrite Hz, Z.sub_0_r, Z.min_id.
    destruct (Z.leb_spec (FileHeader.numBytes h) 0) as [H0|H0]; cbn [orb].
    + symmetry. apply length_zero_iff_nil. unfold zlen in Hz. lia.
    + rewrite <-Hz. apply slice_all.
Qed.

(** C3: writing through an open file changes the bytes of that file as
    [flat_write] says and no other file, and the invariant of the file
    system survives: no sequence of writes can reach the free map, the
    directory, a header or another file. *)
Theorem WriteAt_isolated {D} `{!SectorDisk D, !SectorDiskLaws D} F fs V (w : FSWorld D) k h p from n pos :
  fresh_ok F -> fs_inv fs V w -> v_hdrs V !! k = Some h ->
  0 <= pos -> pos + n < 2 ^ 31 -> Forall in_u8 from -> n <= zlen from ->
  run_to (WriteAt (new_char F) from n pos (mkOpenFile h p)) w (fun r w' =>
    fs_inv fs V w' /\ r = flat_count n pos (contents w h) /\
    file_map V w' = <[k := flat_write from n pos (contents w h)]> (file_map V w)).
Proof.
  intros HF [Hv Hst] Hk Hpos Hn Hfrom Hlen. pose proof Hv as [].
  assert (Hother : forall o x, owns fs V o x -> o <> OData k -> valid_sector x /\ x ∉ data_sectors h).
  { intros o x Ho Hne. split; [by apply (vo_owned0 o)|]. intros Hx. apply Hne.
    apply (vo_disjoint0 o (OData k) x Ho). by exists h. }
  eapply run_to_mono; [apply (WriteAt_spec (new_char F) (fresh_char F HF) (mkOpenFile h p) w);
    [apply Hst|by apply (vo_files0 k)|done..]|]. cbn [hdr].
  intros r w' (-> & Hok & Hc & Hout).
  assert (Hsame : forall h' o, file_ok h' -> o <> OData k -> (forall x, x ∈ data_sectors h' -> owns fs V o x) ->
    contents w' h' = contents w h').
  { intros h' o Hf' Hne Ho. apply same_sectors_contents; [done|]. intros x Hx.
    destruct (Hother o x (Ho x Hx) Hne). by apply Hout. }
  split; [|split; [done|]].
  - split; [done|]. destruct Hst as []. split; [done|..].
    + rewrite (Hsame _ OMap); done.
    + rewrite (Hsame _ ODir); done.
    + destruct (Hother (OSys FreeMapSector) FreeMapSector); [split; [by left|done]|done|]. by rewrite Hout.
    + destruct (Hother (OSys DirectorySector) DirectorySector); [split; [by right|done]|done|]. by rewrite Hout.
    + intros k' s h' Hk' Hh'. destruct (Hother (OHdr k') s); [done|done|].
      rewrite Hout by done. by apply (st_hdrs0 k').
  - rewrite <-Hc. unfold file_map. rewrite <-(insert_id (v_hdrs V) k h Hk) at 1. apply fmap_alter_at.
    intros k' h' Hne Hh'. apply (Hsame h' (OData k')); [by apply (vo_files0 k')|congruence|].
    intros x Hx. by exists h'.
Qed.

(** C8: formatting gives a file system without files, with 1019 clear
    sectors, on any disk; mounting that disk again later, without
    formatting, gives the same file system. *)
Theorem format_correct {D} `{!SectorDisk D, !SectorDiskLaws D} F (w : FSWorld D) :
  fresh_ok F -> fs_ok w ->
  run_to (FileSystem_new F true) w (fun fs w' => exists V,
    fs_inv fs V w' /\ file_map V w' = ∅ /\ zlen (clear_bits (v_map V)) = 1019 /\
    forall V2 w2, fs_inv fs V2 w2 ->
      run_to (FileSystem_new F false) w2 (fun fs' w3 =>
        fs_inv fs' V2 w3 /\ file_map V2 w3 = file_map V2 w2)).
Proof.
  intros HF Hw. eapply run_to_mono; [by apply format_spec|].
  intros fs w' (fm & d & Hinv & Hu & Hcl). exists (mkView fm d ∅). split; [done|].
  split; [unfold file_map; cbn; apply fmap_empty|]. split; [cbn [v_map]; rewrite Hcl; by vm_compute|].
  intros V2 w2 Hinv2. pose proof Hinv2 as [Hv2 []]. pose proof Hv2 as [].
  eapply run_to_mono; [by apply (mount_spec F w2 (map_hdr fs) (dir_hdr fs))|].
  intros fs' w3 [-> Hun]. split; [|by eapply file_map_unchanged].
  destruct (fs_inv_unchanged fs V2 w2 w3 Hinv2 Hun) as [_ []]. by split.
Qed.

(** A concrete file system: fresh memory is zero. *)
Definition fresh0 : Fresh :=
  mkFresh zeroed zeroed
    (fun n => replicate (Z.to_nat n) (mkDE false 0 (replicate 10 0) (replicate 5 0))) zero_hdr.

Lemma fresh0_ok : fresh_ok fresh0.
Proof.
  split; cbn.
  - apply zeroed_source.
  - intros n Hn. split; [unfold zlen, zeroed; rewrite length_replicate; lia|].
    apply Forall_replicate. unfold in_u32. lia.
  - intros n Hn. split; [unfold zlen; rewrite length_replicate; lia|]. apply Forall_replicate.
    split_and!; [done|by repeat constructor|done|by repeat constructor|by vm_compute].
  - split; [done| |by vm_compute|by vm_compute]. apply (Forall_replicate _ 30). by vm_compute.
Qed.

(** The formatted disk with one file [f] of 300 bytes. *)
Lemma formatted : exists fs V (w : FSWorld (list (list Z))), fs_inv fs V w /\
  v_hdrs V = ∅ /\ create_ok V [102] 300 = true.
Proof.
  destruct (format_spec fresh0 fresh0_ok blank_world blank_world_ok) as (fs & w & _ & fm & d & Hinv & Hu & Hcl).
  exists fs, (mkView fm d ∅), w. split; [done|]. split; [done|].
  unfold create_ok. cbn [v_map v_dir v_hdrs]. rewrite Hu, Hcl, lookup_empty. by vm_compute.
Qed.

Lemma one_file : exists fs V (w : FSWorld (list (list Z))) h, fs_inv fs V w /\
  v_hdrs V !! [102] = Some h /\ FileHeader.numBytes h = 300.
Proof.
  destruct formatted as (fs & V & w & Hinv & _ & Hok).
  destruct (Create_spec fresh0 fresh0_ok fs V w [102] 300 Hinv) as (ok & w' & _ & -> & H); [by vm_compute|by repeat constructor|].
  rewrite Hok in H. destruct H as (h & bm & d & Hinv' & Hn & _).
  exists fs, (mkView bm d (<[[102] := h]> (v_hdrs V))), w', h. split; [exact Hinv'|].
  split; [|done]. cbn [v_hdrs]. apply lookup_insert_eq.
Qed.

Lemma Create_correct_witness : exists fs V (w : FSWorld (list (list Z))),
  fs_inv fs V w /\ run_to (Create fresh0 [102] 300 fs) w (fun ok _ => ok = true).
Proof.
  destruct formatted as (fs & V & w & Hinv & _ & Hok). exists fs, V, w. split; [done|].
  eapply run_to_mono; [apply (Create_correct fresh0 fs V w [102] 300 fresh0_ok Hinv)|].
  - by vm_compute.
  - by repeat constructor.
  - intros ok w' [-> _]. exact Hok.
Defined.

Lemma Remove_correct_witness : exists fs V (w : FSWorld (list (list Z))),
  fs_inv fs V w /\ run_to (Remove fresh0 [102] fs) w (fun ok _ => ok = true).
Proof.
  destruct one_file as (fs & V & w & h & Hinv & Hh & _). exists fs, V, w. split; [done|].
  eapply run_to_mono; [apply (Remove_correct fresh0 fs V w [102] fresh0_ok Hinv)|].
  intros ok w' (V' & _ & H). change (cstr maxlen [102]) with [102] in H. rewrite Hh in H. apply H.
Defined.

Lemma Open_correct_witness : exists fs V (w : FSWorld (list (list Z))),
  fs_inv fs V w /\ run_to (Open fresh0 [102] fs) w (fun f _ => exists o, f = Some o /\ Length o = 300).
Proof.
  destruct one_file as (fs & V & w & h & Hinv & Hh & Hn). exists fs, V, w. split; [done|].
  eapply run_to_mono; [apply (Open_correct fresh0 fs V w [102] fresh0_ok Hinv)|].
  intros f w' (_ & _ & H). change (cstr maxlen [102]) with [102] in H. unfold file_map in H.
  rewrite lookup_fmap, Hh in H. destruct H as (o & -> & _ & Hl & _). exists o. split; [done|].
  rewrite Hl, zlen_contents; [done|apply Hinv|]. by apply (vo_files _ _ (proj1 Hinv) [102]).
Defined.

Lemma WriteAt_isolated_witness : exists fs V (w : FSWorld (list (list Z))) h,
  fs_inv fs V w /\ run_to (WriteAt zeroed [1; 2; 3] 3 299 (mkOpenFile h 0)) w (fun r w' =>
    r = 1 /\ fs_inv fs V w').
Proof.
  destruct one_file as (fs & V & w & h & Hinv & Hh & Hn). exists fs, V, w, h. split; [done|].
  eapply run_to_mono; [apply (WriteAt_isolated fresh0 fs V w [102] h 0 [1; 2; 3] 3 299 fresh0_ok Hinv Hh)|].
  - done.
  - by vm_compute.
  - by repeat constructor.
  - done.
  - intros r w' (Hi & -> & _). split; [|done]. unfold flat_count. rewrite zlen_contents.
    + by rewrite Hn.
    + apply Hinv.
    + by apply (vo_files _ _ (proj1 Hinv) [102]).
Defined.

Lemma format_correct_witness :
  run_to (FileSystem_new fresh0 true) blank_world (fun fs w' => exists V, fs_inv fs V w').
Proof.
  eapply run_to_mono; [apply (format_correct fresh0 blank_world fresh0_ok blank_world_ok)|].
  intros fs w' (V & H & _). by exists V.
Defined.
