(* ===== verification/FsTest.v ===== *)
(** * filesys/fstest.cc

    The three drivers of the file system: [Copy] brings a UNIX file into
    Nachos, [Print] shows a Nachos file, [PerformanceTest] writes and reads
    a large file in small pieces.  What they print is part of the state.
    The loops that only end when a read returns 0 have a fuel; a result
    [None] says that the fuel was too small. *)

From stdpp Require Import base list numbers gmap.
From S2P Require Import Prelude Arrays State Bitmap SectorDisk FileHdr OpenFile Directory FileSys.

Definition TransferSize : Z := 10.

(** The calls of printf, and of [stats->Print]. *)
Inductive message :=
  | Copy_no_input                    (* Copy: couldn't open input file *)
  | Copy_no_output (to : list Z)     (* Copy: couldn't create output file *)
  | Print_unable (name : list Z)     (* Print: unable to open file *)
  | Char (c : Z)
  | Perf_starting | Perf_statistics
  | Perf_write (size chunk : Z)      (* Sequential write of ... *)
  | Perf_cannot_create | Perf_cannot_open | Perf_cannot_write
  | Perf_read (size chunk : Z)       (* Sequential read of ... *)
  | Perf_cannot_open_file | Perf_cannot_read
  | Perf_cannot_remove.

(** The disk, and what was printed. *)
Record TestWorld (D : Type) := mkTW { files : FSWorld D; out : list message }.
Arguments mkTW {D} _ _.
Arguments files {D} _.
Arguments out {D} _.

(** "TestFile", "1234567890" *)
Definition FileName : list Z := [84; 101; 115; 116; 70; 105; 108; 101].
Definition Contents : list Z := [49; 50; 51; 52; 53; 54; 55; 56; 57; 48].
Definition ContentSize : Z := zlen Contents.
Definition FileSize : Z := ContentSize * 5000.

Section Drivers.
Context {D : Type} `{!SectorDisk D} (F : Fresh) (fs : FileSystem).
Notation W := (TestWorld D).

Definition on_fs {A} (m : M (FSWorld D) A) : M W A := zoom files (fun v w => mkTW v (out w)) m.
Definition printf (ms : list message) : M W unit := modify (fun w => mkTW (files w) (out w ++ ms)).

(** ** Copy

    [rest] is what fread has not delivered yet. *)
Fixpoint Copy_loop (fuel : nat) (rest buffer : list Z) (openFile : OpenFile) : M W (option unit) :=
  match fuel with
  | O => ret None
  | S fuel =>
      let chunk := take (Z.to_nat TransferSize) rest in
      let amountRead := zlen chunk in
      buffer ← lift (bwrite 0 chunk buffer);
      if 0 <? amountRead then
        r ← on_fs (Write (new_char F) buffer amountRead openFile);
        Copy_loop fuel (drop (Z.to_nat TransferSize) rest) buffer (snd r)
      else ret (Some tt)
  end.

(** [from]: the bytes of the UNIX file, [None] when fopen fails. *)
Definition Copy (fuel : nat) (from : option (list Z)) (to : list Z) : M W (option unit) :=
  match from with
  | None => _ ← printf [Copy_no_input]; ret (Some tt)
  | Some bytes =>
      let fileLength := s32 (zlen bytes) in
      created ← on_fs (Create F to fileLength fs);
      if negb created then _ ← printf [Copy_no_output to]; ret (Some tt)
      else
        o ← on_fs (Open F to fs);
        _ ← assert (bool_decide (is_Some o));
        openFile ← lift (deref o);
        Copy_loop fuel bytes (new_char F TransferSize) openFile
  end.

(** ** Print *)

Fixpoint Print_loop (fuel : nat) (openFile : OpenFile) : M W (option unit) :=
  match fuel with
  | O => ret None
  | S fuel =>
      r ← on_fs (Read (new_char F) TransferSize openFile);
      let '(buffer, openFile) := r in
      if 0 <? zlen buffer then
        _ ← printf (Char <$> buffer);
        Print_loop fuel openFile
      else ret (Some tt)
  end.

Definition Print (fuel : nat) (name : list Z) : M W (option unit) :=
  o ← on_fs (Open F name fs);
  match o with
  | None => _ ← printf [Print_unable name]; ret (Some tt)
  | Some openFile => Print_loop fuel openFile
  end.

(** ** PerformanceTest

    The loops make [FileSize / ContentSize] turns unless they return. *)
Definition turns : nat := Z.to_nat (FileSize / ContentSize).

Fixpoint FileWrite_loop (n : nat) (openFile : OpenFile) : M W unit :=
  match n with
  | O => ret tt
  | S n =>
      r ← on_fs (Write (new_char F) Contents ContentSize openFile);
      let '(numBytes, openFile) := r in
      if numBytes <? 10 then printf [Perf_cannot_write] else FileWrite_loop n openFile
  end.

Definition FileWrite : M W unit :=
  _ ← printf [Perf_write FileSize ContentSize];
  created ← on_fs (Create F FileName 0 fs);
  if negb created then printf [Perf_cannot_create]
  else
    o ← on_fs (Open F FileName fs);
    match o with
    | None => printf [Perf_cannot_open]
    | Some openFile => FileWrite_loop turns openFile
    end.

Fixpoint FileRead_loop (n : nat) (buffer : list Z) (openFile : OpenFile) : M W unit :=
  match n with
  | O => ret tt
  | S n =>
      r ← on_fs (Read (new_char F) ContentSize openFile);
      let '(bytes, openFile) := r in
      buffer ← lift (bwrite 0 bytes buffer);
      if (zlen bytes <? 10) || negb (strneq (Z.to_nat ContentSize) buffer Contents)
      then printf [Perf_cannot_read]
      else FileRead_loop n buffer openFile
  end.

Definition FileRead : M W unit :=
  let buffer := new_char F ContentSize in
  _ ← printf [Perf_read FileSize ContentSize];
  o ← on_fs (Open F FileName fs);
  match o with
  | None => printf [Perf_cannot_open_file]
  | Some openFile => FileRead_loop turns buffer openFile
  end.

Definition PerformanceTest : M W unit :=
  _ ← printf [Perf_starting];
  _ ← printf [Perf_statistics];
  _ ← FileWrite;
  _ ← FileRead;
  removed ← on_fs (Remove F FileName fs);
  if negb removed then printf [Perf_cannot_remove]
  else printf [Perf_statistics].
End Drivers.

(** ** Proofs *)

Lemma zlen_drop {A} (n : nat) (l : list A) : zlen (drop n l) = Z.max 0 (zlen l - Z.of_nat n).
Proof. unfold zlen. rewrite length_drop. lia. Qed.

Lemma zlen_take {A} (n : nat) (l : list A) : zlen (take n l) = Z.min (Z.of_nat n) (zlen l).
Proof. unfold zlen. rewrite length_take. lia. Qed.

(** Reading and writing at the end of what was read or written before. *)
Lemma flat_read_app n pre rest :
  0 < n -> flat_read n (zlen pre) (pre ++ rest) = take (Z.to_nat n) rest.
Proof.
  intros Hn. unfold flat_read. rewrite zlen_app, (proj2 (Z.leb_gt n 0)) by done. cbn [orb].
  destruct (Z.leb_spec (zlen pre + zlen rest) (zlen pre)) as [H|H].
  - assert (Hr : rest = []) by (apply length_zero_iff_nil; unfold zlen in H; lia).
    by rewrite Hr, take_nil.
  - unfold slice. rewrite drop_app_length' by (unfold zlen; lia).
    destruct (Z.min_spec n (zlen pre + zlen rest - zlen pre)) as [[_ ->]|[Hle ->]]; [done|].
    rewrite !take_ge; [done|unfold zlen in *; lia|unfold zlen in *; lia].
Qed.

Lemma flat_write_app chunk buffer pre old :
  0 < zlen chunk -> zlen chunk <= zlen buffer -> zlen chunk <= zlen old ->
  flat_write (splice 0 chunk buffer) (zlen chunk) (zlen pre) (pre ++ old) =
    (pre ++ chunk) ++ drop (length chunk) old.
Proof.
  intros Hc Hb Ho. unfold flat_write. rewrite zlen_app, (proj2 (Z.leb_gt _ 0)) by done.
  rewrite (proj2 (Z.leb_gt _ _)) by lia. cbn [orb].
  rewrite Z.min_l by lia. rewrite slice_splice_eq by lia. unfold splice.
  rewrite take_app_length' by (unfold zlen; lia). rewrite drop_app_ge by (unfold zlen; lia).
  rewrite <-app_assoc. do 3 f_equal. unfold zlen. lia.
Qed.

Section Proofs.
Context {D : Type} `{!SectorDisk D, !SectorDiskLaws D} (F : Fresh) (HF : fresh_ok F) (fs : FileSystem).
Implicit Types (w : TestWorld D) (V : view).

Lemma run_to_on_fs {A} (m : M (FSWorld D) A) w (P : A -> FSWorld D -> Prop) (Q : A -> TestWorld D -> Prop) :
  run_to m (files w) P -> (forall a v, P a v -> Q a (mkTW v (out w))) -> run_to (on_fs m) w Q.
Proof. intros Hm HQ. apply run_to_zoom. by eapply run_to_mono. Qed.

Lemma run_to_printf ms w (Q : unit -> TestWorld D -> Prop) :
  Q tt (mkTW (files w) (out w ++ ms)) -> run_to (printf ms) w Q.
Proof. intros HQ. unfold printf. by apply run_to_modify. Qed.

Lemma file_map_lookup V v k h : v_hdrs V !! k = Some h -> file_map V v !! k = Some (contents v h).
Proof. intros H. unfold file_map. by rewrite lookup_fmap, H. Qed.

(** An open file of the file system, at a position. *)
Lemma file_bounds V v k h : fs_inv fs V v -> v_hdrs V !! k = Some h ->
  fs_ok v /\ file_ok h /\ zlen (contents v h) <= 3840.
Proof.
  intros [Hv Hst] Hh. pose proof (vo_files _ _ Hv k h Hh) as Hf. pose proof (file_size h Hf) as Hs.
  change MaxFileSize with 3840 in Hs. pose proof (st_ok _ _ _ Hst) as Hok.
  rewrite zlen_contents by done. split; [done|]. split; [done|]. lia.
Qed.

Lemma Write_spec V w k h from n pos :
  fs_inv fs V (files w) -> v_hdrs V !! k = Some h -> 0 <= pos <= 3840 -> 0 <= n <= 10 ->
  Forall in_u8 from -> n <= zlen from ->
  run_to (on_fs (Write (new_char F) from n (mkOpenFile h pos))) w (fun r w' =>
    let m := flat_count n pos (contents (files w) h) in
    r = (m, mkOpenFile h (pos + m)) /\ out w' = out w /\ fs_inv fs V (files w') /\
    contents (files w') h = flat_write from n pos (contents (files w) h) /\
    file_map V (files w') = <[k := contents (files w') h]> (file_map V (files w))).
Proof.
  intros Hinv Hk Hpos Hn Hfrom Hlen.
  eapply (run_to_on_fs _ _ (fun r v => let m := flat_count n pos (contents (files w) h) in
    r = (m, mkOpenFile h (pos + m)) /\ fs_inv fs V v /\
    file_map V v = <[k := flat_write from n pos (contents (files w) h)]> (file_map V (files w)))).
  - unfold Write. cbn [seekPosition].
    step_with (WriteAt_isolated F fs V (files w) k h pos from n pos HF Hinv Hk ltac:(lia) ltac:(lia) Hfrom Hlen).
    intros r v (Hi & -> & Hmap). apply run_to_ret. split; [|by split]. cbn [hdr]. do 2 f_equal.
    apply s32_id. unfold in_s32, flat_count.
    destruct (file_bounds V (files w) k h Hinv Hk) as (_ & _ & Hz). unfold zlen in *. destruct (_ || _); lia.
  - intros r v (-> & Hi & Hmap). cbn [files out]. split; [done|]. split; [done|]. split; [done|].
    assert (Hc : contents v h = flat_write from n pos (contents (files w) h)).
    { pose proof (file_map_lookup V v k h Hk) as Hl. rewrite Hmap, lookup_insert_eq in Hl. by injection Hl. }
    split; [done|]. by rewrite Hc.
Qed.

Lemma Read_spec V w k h n pos :
  fs_inv fs V (files w) -> v_hdrs V !! k = Some h -> 0 <= pos <= 3840 -> 0 <= n <= 10 ->
  run_to (on_fs (Read (new_char F) n (mkOpenFile h pos))) w (fun r w' =>
    let bytes := flat_read n pos (contents (files w) h) in
    r = (bytes, mkOpenFile h (pos + zlen bytes)) /\ out w' = out w /\ unchanged (files w) (files w')).
Proof.
  intros Hinv Hk Hpos Hn. destruct (file_bounds V (files w) k h Hinv Hk) as (Hok & Hf & Hz).
  eapply (run_to_on_fs _ _ (fun r v => let bytes := flat_read n pos (contents (files w) h) in
    r = (bytes, mkOpenFile h (pos + zlen bytes)) /\ unchanged (files w) v)).
  - unfold Read. cbn [seekPosition].
    step_with (ReadAt_spec (new_char F) (fresh_char F HF) (mkOpenFile h pos) (files w) n pos Hok Hf ltac:(lia) ltac:(lia)).
    intros bytes v [Hun ->]. apply run_to_ret. split; [|done]. cbn [hdr]. do 2 f_equal. apply s32_id.
    unfold in_s32, flat_read. destruct (Z.leb_spec n 0), (Z.leb_spec (zlen (contents (files w) h)) pos); cbn [orb];
      try (change (zlen (@nil Z)) with 0; lia). rewrite zlen_slice by lia. lia.
  - by intros r v [-> Hun].
Qed.

(** ** Copy *)

Lemma Copy_loop_spec V k h fuel : forall rest old pre buffer w,
  fs_inv fs V (files w) -> v_hdrs V !! k = Some h -> Forall in_u8 rest -> Forall in_u8 buffer ->
  zlen buffer = TransferSize -> contents (files w) h = pre ++ old -> zlen old = zlen rest ->
  (length rest < fuel)%nat ->
  run_to (Copy_loop F fuel rest buffer (mkOpenFile h (zlen pre))) w (fun r w' =>
    r = Some tt /\ out w' = out w /\ fs_inv fs V (files w') /\
    file_map V (files w') = <[k := pre ++ rest]> (file_map V (files w))).
Proof.
  induction fuel as [|fuel IH]; intros rest old pre buffer w Hinv Hk Hr8 Hb8 Hbuf Hc Hold Hfuel; [lia|].
  cbn [Copy_loop]. change TransferSize with 10 in *. set (chunk := take (Z.to_nat 10) rest).
  assert (Hck : zlen chunk = Z.min 10 (zlen rest)) by (unfold chunk; rewrite zlen_take; lia).
  apply run_to_bind. eapply run_to_lift; [apply bwrite_Ok; lia|].
  destruct (Z.ltb_spec 0 (zlen chunk)) as [Hpos|Hz].
  2:{ apply run_to_ret. assert (Hr : rest = []) by (apply length_zero_iff_nil; unfold zlen in *; lia).
      subst rest. assert (Ho : old = []) by (apply length_zero_iff_nil; unfold zlen in *; cbn in *; lia).
      subst old. split; [done|]. split; [done|]. split; [done|]. rewrite <-Hc.
      symmetry. apply insert_id. by apply file_map_lookup. }
  destruct (file_bounds V (files w) k h Hinv Hk) as (_ & _ & Hz). rewrite Hc, zlen_app in Hz.
  assert (Hc8 : Forall in_u8 chunk) by by apply Forall_take.
  apply run_to_bind. eapply run_to_mono; [apply (Write_spec V w k h (splice 0 chunk buffer) (zlen chunk) (zlen pre) Hinv Hk)|].
  { unfold zlen in *. lia. }
  { lia. }
  { by apply Forall_splice. }
  { rewrite zlen_splice; lia. }
  intros r w1 (-> & Hout & Hinv1 & Hc1 & Hmap). cbn [snd].
  rewrite Hc, flat_write_app in Hc1 by lia.
  assert (Hn : flat_count (zlen chunk) (zlen pre) (contents (files w) h) = zlen chunk).
  { unfold flat_count. rewrite Hc, zlen_app, (proj2 (Z.leb_gt _ 0)), (proj2 (Z.leb_gt _ _)) by lia.
    cbn [orb]. lia. }
  rewrite Hn, <-zlen_app.
  assert (Hlc : length chunk = Nat.min 10 (length rest)) by (unfold chunk; rewrite length_take; lia).
  eapply run_to_mono; [eapply (IH (drop (Z.to_nat 10) rest) (drop (length chunk) old) (pre ++ chunk))|].
  - done.
  - done.
  - by apply Forall_drop.
  - by apply Forall_splice.
  - rewrite zlen_splice; lia.
  - done.
  - rewrite !zlen_drop, Hlc. unfold zlen in *. lia.
  - rewrite length_drop. unfold zlen in *. lia.
  - intros r w' (-> & Ho & Hi & Hm). split; [done|]. split; [congruence|]. split; [done|].
    rewrite Hm, Hmap, insert_insert_eq. rewrite <-app_assoc. unfold chunk. by rewrite take_drop.
Qed.

(** What Create and Open have to say of a name. *)
Lemma Create_file V w nm size :
  fs_inv fs V (files w) -> in_s32 size -> Forall in_u8 nm ->
  run_to (on_fs (Create F nm size fs)) w (fun ok w' => ok = create_ok V nm size /\ out w' = out w /\
    if ok then exists V' h, fs_inv fs V' (files w') /\ v_hdrs V' !! cstr maxlen nm = Some h /\
      zlen (contents (files w') h) = size /\
      file_map V' (files w') = <[cstr maxlen nm := contents (files w') h]> (file_map V (files w))
    else unchanged (files w) (files w')).
Proof.
  intros Hinv Hs Hnm. eapply run_to_on_fs; [by apply Create_spec|].
  intros ok v [Hok H]. split; [done|]. split; [done|]. destruct ok; [|done].
  destruct H as (h & bm & d & Hi & Hn & Hc). cbn [files]. eexists _, h. split; [exact Hi|]. cbn [v_hdrs].
  split; [apply lookup_insert_eq|]. split.
  - rewrite <-Hn. destruct Hi as [Hv Hst]. apply zlen_contents; [apply Hst|].
    apply (vo_files _ _ Hv (cstr maxlen nm)). cbn. apply lookup_insert_eq.
  - apply fmap_alter_at. intros k' x _ Hx. by apply (Hc k').
Qed.

Lemma Open_file V w nm :
  fs_inv fs V (files w) ->
  run_to (on_fs (Open F nm fs)) w (fun o w' =>
    o = (fun h => mkOpenFile h 0) <$> v_hdrs V !! cstr maxlen nm /\ out w' = out w /\
    fs_inv fs V (files w') /\ unchanged (files w) (files w')).
Proof.
  intros Hinv. eapply run_to_on_fs; [by apply Open_spec|]. intros o v [-> Hun].
  split; [done|]. split; [done|]. split; [by eapply fs_inv_unchanged|done].
Qed.

Lemma Copy_spec V w bytes to fuel :
  fs_inv fs V (files w) -> Forall in_u8 bytes -> zlen bytes < 2 ^ 31 -> Forall in_u8 to ->
  (length bytes < fuel)%nat ->
  run_to (Copy F fs fuel (Some bytes) to) w (fun r w' => r = Some tt /\
    if create_ok V to (zlen bytes) then out w' = out w /\ exists V', fs_inv fs V' (files w') /\
      file_map V' (files w') = <[cstr maxlen to := bytes]> (file_map V (files w))
    else out w' = out w ++ [Copy_no_output to] /\ unchanged (files w) (files w')).
Proof.
  intros Hinv H8 Hlen Hto Hfuel. unfold Copy. cbv zeta.
  assert (Hs : in_s32 (zlen bytes)) by (unfold in_s32, zlen in *; lia). rewrite s32_id by done.
  apply run_to_bind. eapply run_to_mono; [by apply Create_file|].
  intros ok w1 (-> & Ho1 & H). destruct (create_ok V to (zlen bytes)); cbn [negb].
  2:{ apply run_to_bind, run_to_printf, run_to_ret. cbn [files out]. by rewrite Ho1. }
  destruct H as (V' & h & Hi1 & Hh & Hz & Hm1).
  apply run_to_bind. eapply run_to_mono; [by apply Open_file|].
  intros o w2 (-> & Ho2 & Hi2 & Hun). rewrite Hh.
  apply run_to_bind, run_to_assert; [by apply bool_decide_eq_true_2; eexists|].
  apply run_to_bind. eapply run_to_lift; [reflexivity|].
  assert (Hc : contents (files w2) h = contents (files w1) h).
  { apply contents_same; [by apply (vo_files _ _ (proj1 Hi1) (cstr maxlen to))|done]. }
  destruct (fresh_char F HF TransferSize ltac:(done)) as [Hbz Hb8].
  eapply run_to_mono; [apply (Copy_loop_spec V' (cstr maxlen to) h fuel bytes (contents (files w2) h) []); try done|].
  - rewrite Hc. done.
  - intros r w3 (-> & Ho3 & Hi3 & Hm3). split; [done|]. split; [congruence|]. exists V'. split; [done|].
    rewrite Hm3, (file_map_unchanged fs V' (files w1)), Hm1; [|apply Hi1|done]. apply insert_insert_eq.
Qed.

(** ** Print *)

(** What Print shows for a name. *)
Definition shown (name : list Z) (o : option (list Z)) : list message :=
  match o with None => [Print_unable name] | Some c => Char <$> c end.

Lemma Print_loop_spec V k h fuel : forall rest pre w,
  fs_inv fs V (files w) -> v_hdrs V !! k = Some h -> contents (files w) h = pre ++ rest ->
  (length rest < fuel)%nat ->
  run_to (Print_loop F fuel (mkOpenFile h (zlen pre))) w (fun r w' =>
    r = Some tt /\ out w' = out w ++ (Char <$> rest) /\ unchanged (files w) (files w')).
Proof.
  induction fuel as [|fuel IH]; intros rest pre w Hinv Hk Hc Hfuel; [lia|]. cbn [Print_loop].
  destruct (file_bounds V (files w) k h Hinv Hk) as (_ & Hf & Hz). rewrite Hc, zlen_app in Hz.
  apply run_to_bind. eapply run_to_mono; [apply (Read_spec V w k h TransferSize (zlen pre) Hinv Hk)|].
  { unfold zlen in *. lia. }
  { done. }
  intros r w1 (-> & Ho1 & Hun). cbv beta iota zeta. rewrite Hc, flat_read_app by done.
  change TransferSize with 10. set (chunk := take (Z.to_nat 10) rest).
  assert (Hck : zlen chunk = Z.min 10 (zlen rest)) by (unfold chunk; rewrite zlen_take; lia).
  destruct (Z.ltb_spec 0 (zlen chunk)) as [Hpos|Hn].
  2:{ apply run_to_ret. assert (Hr : rest = []) by (apply length_zero_iff_nil; unfold zlen in *; lia).
      subst rest. cbn [fmap list_fmap]. by rewrite app_nil_r. }
  apply run_to_bind, run_to_printf. rewrite <-zlen_app.
  eapply run_to_mono; [apply (IH (drop (Z.to_nat 10) rest) (pre ++ chunk))|].
  - cbn [files]. by eapply fs_inv_unchanged.
  - done.
  - cbn [files]. rewrite (contents_same (files w) (files w1) h Hf Hun), Hc, <-app_assoc.
    unfold chunk. by rewrite take_drop.
  - rewrite length_drop. unfold zlen in *. lia.
  - cbn [files out]. intros r w' (-> & Ho & Hu). split; [done|]. split; [|by eapply unchanged_trans].
    rewrite Ho, Ho1, <-app_assoc, <-fmap_app. unfold chunk. by rewrite take_drop.
Qed.

Lemma Print_spec V w name fuel :
  fs_inv fs V (files w) -> (3840 < fuel)%nat ->
  run_to (Print F fs fuel name) w (fun r w' => r = Some tt /\ unchanged (files w) (files w') /\
    out w' = out w ++ shown name (file_map V (files w) !! cstr maxlen name)).
Proof.
  intros Hinv Hfuel. unfold Print.
  apply run_to_bind. eapply run_to_mono; [by apply Open_file|]. intros o w1 (-> & Ho1 & Hi1 & Hun).
  unfold file_map. rewrite lookup_fmap.
  destruct (v_hdrs V !! cstr maxlen name) as [h|] eqn:Eh; cbn [fmap option_fmap option_map shown].
  - destruct (file_bounds V (files w1) _ h Hi1 Eh) as (_ & Hf & Hz).
    rewrite <-(contents_same (files w) (files w1) h Hf Hun).
    eapply run_to_mono; [apply (Print_loop_spec V _ h fuel (contents (files w1) h) [] w1 Hi1 Eh)|].
    + done.
    + unfold zlen in Hz. lia.
    + intros r w' (-> & Ho & Hu). split; [done|]. split; [by eapply unchanged_trans|]. by rewrite Ho, Ho1.
  - apply run_to_bind, run_to_printf, run_to_ret. cbn [files out]. by rewrite Ho1.
Qed.

(** ** PerformanceTest *)

Lemma FileWrite_spec V w :
  fs_inv fs V (files w) ->
  run_to (FileWrite F fs) w (fun _ w' =>
    if create_ok V FileName 0 then exists V', fs_inv fs V' (files w') /\
      out w' = out w ++ [Perf_write 50000 10; Perf_cannot_write] /\
      file_map V' (files w') = <[FileName := []]> (file_map V (files w))
    else unchanged (files w) (files w') /\ out w' = out w ++ [Perf_write 50000 10; Perf_cannot_create]).
Proof.
  intros Hinv. unfold FileWrite. change FileSize with 50000. change ContentSize with 10.
  apply run_to_bind, run_to_printf.
  apply run_to_bind. eapply run_to_mono; [apply (Create_file V _ FileName 0); [done|done|by repeat constructor]|].
  cbn [files out]. intros ok w1 (-> & Ho1 & H). change (cstr maxlen FileName) with FileName in H.
  destruct (create_ok V FileName 0); cbn [negb].
  2:{ apply run_to_printf. cbn [files out]. split; [done|]. by rewrite Ho1, <-app_assoc. }
  destruct H as (V' & h & Hi1 & Hh & Hz & Hm1).
  apply run_to_bind. eapply run_to_mono; [by apply Open_file|].
  change (cstr maxlen FileName) with FileName. intros o w2 (-> & Ho2 & Hi2 & Hun). rewrite Hh.
  cbn [fmap option_fmap option_map].
  assert (Hc : contents (files w2) h = []).
  { rewrite (contents_same (files w1)); [|by apply (vo_files _ _ (proj1 Hi1) FileName)|done].
    apply length_zero_iff_nil. unfold zlen in Hz. lia. }
  destruct turns as [|n] eqn:Et; [by vm_compute in Et|]. cbn [FileWrite_loop]. change ContentSize with 10.
  apply run_to_bind. eapply run_to_mono; [apply (Write_spec V' w2 FileName h Contents 10 0 Hi2 Hh);
    [lia|lia|by repeat constructor|done]|].
  cbv zeta. intros r w3 (-> & Ho3 & Hi3 & Hc3 & Hm3). rewrite Hc in *.
  unfold flat_count. cbn. apply run_to_printf. cbn [files out]. exists V'. split; [done|]. split.
  - by rewrite Ho3, Ho2, Ho1, <-app_assoc.
  - rewrite Hm3, Hc3, (file_map_unchanged fs V' (files w1)), Hm1; [|apply Hi1|done]. apply insert_insert_eq.
Qed.

(** No file is as long as the loop expects. *)
Lemma FileRead_loop_spec V k h n : forall pos buffer w,
  fs_inv fs V (files w) -> v_hdrs V !! k = Some h -> zlen buffer = 10 ->
  0 <= pos <= zlen (contents (files w) h) -> 3840 < pos + 10 * Z.of_nat n ->
  run_to (FileRead_loop F n buffer (mkOpenFile h pos)) w (fun _ w' =>
    out w' = out w ++ [Perf_cannot_read] /\ unchanged (files w) (files w')).
Proof.
  induction n as [|n IH]; intros pos buffer w Hinv Hk Hbuf Hpos Hn;
    destruct (file_bounds V (files w) k h Hinv Hk) as (_ & Hf & Hz); [lia|].
  cbn [FileRead_loop]. change ContentSize with 10. change (Z.to_nat 10) with 10%nat.
  apply run_to_bind. eapply run_to_mono; [apply (Read_spec V w k h 10 pos Hinv Hk); lia|].
  cbv zeta. set (bytes := flat_read 10 pos _). intros r w1 (-> & Ho1 & Hun). cbv beta iota.
  assert (Hb : zlen bytes = Z.min 10 (zlen (contents (files w) h) - pos)).
  { unfold bytes, flat_read. cbn [Z.leb Z.compare orb]. destruct (Z.leb_spec (zlen (contents (files w) h)) pos).
    - change (zlen (@nil Z)) with 0. lia.
    - apply zlen_slice; lia. }
  apply run_to_bind. eapply run_to_lift; [apply bwrite_Ok; lia|].
  destruct (Z.ltb_spec (zlen bytes) 10) as [Hlt|Hge]; cbn [orb].
  { apply run_to_printf. cbn [files out]. by rewrite Ho1. }
  destruct (strneq _ _ _); cbn [negb].
  2:{ apply run_to_printf. cbn [files out]. by rewrite Ho1. }
  eapply run_to_mono; [apply (IH (pos + zlen bytes))|].
  - by eapply fs_inv_unchanged.
  - done.
  - rewrite zlen_splice; lia.
  - rewrite (contents_same (files w) (files w1)) by done. lia.
  - lia.
  - intros _ w' [Ho Hu]. split; [congruence|by eapply unchanged_trans].
Qed.

Lemma FileRead_spec V w :
  fs_inv fs V (files w) ->
  run_to (FileRead F fs) w (fun _ w' => unchanged (files w) (files w') /\
    out w' = out w ++ [Perf_read 50000 10;
      if bool_decide (v_hdrs V !! FileName = None) then Perf_cannot_open_file else Perf_cannot_read]).
Proof.
  intros Hinv. unfold FileRead. change FileSize with 50000. cbv zeta.
  change ContentSize with 10. apply run_to_bind, run_to_printf.
  apply run_to_bind. eapply run_to_mono; [by apply Open_file|]. change (cstr maxlen FileName) with FileName.
  cbn [files out]. intros o w1 (-> & Ho1 & Hi1 & Hun).
  destruct (v_hdrs V !! FileName) as [h|] eqn:Eh; cbn [fmap option_fmap option_map].
  - destruct (file_bounds V (files w1) FileName h Hi1 Eh) as (_ & Hf & Hz).
    eapply run_to_mono; [apply (FileRead_loop_spec V FileName h turns 0 (new_char F 10) w1 Hi1 Eh)|].
    + by apply (fresh_char F HF).
    + unfold zlen. lia.
    + unfold turns. rewrite Z2Nat.id by done. done.
    + intros _ w' [Ho Hu]. split; [by eapply unchanged_trans|]. rewrite Ho, Ho1, <-app_assoc. done.
  - apply run_to_printf. cbn [files out]. split; [done|]. by rewrite Ho1, <-app_assoc.
Qed.
End Proofs.

(** ** Properties *)


(** C37: [PerformanceTest] always ends, and never passes: files do not
    grow, so the first write into the empty TestFile is refused, and no
    file is long enough for the reads.  Afterwards TestFile is gone (even
    one that existed before) and every other file is as it was. *)
Theorem PerformanceTest_fails {D} `{!SectorDisk D, !SectorDiskLaws D} F fs V (w : TestWorld D) :
  fresh_ok F -> fs_inv fs V (files w) ->
  run_to (PerformanceTest F fs) w (fun _ w' => exists V', fs_inv fs V' (files w') /\
    file_map V' (files w') = delete FileName (file_map V (files w)) /\
    let ok := create_ok V FileName 0 in
    let missing := negb ok && bool_decide (file_map V (files w) !! FileName = None) in
    out w' = out w ++
      [Perf_starting; Perf_statistics;
       Perf_write 50000 10; if ok then Perf_cannot_write else Perf_cannot_create;
       Perf_read 50000 10; if missing then Perf_cannot_open_file else Perf_cannot_read;
       if missing then Perf_cannot_remove else Perf_statistics]).
Proof.
  intros HF Hinv. unfold PerformanceTest. apply run_to_bind, run_to_printf, run_to_bind, run_to_printf.
  cbn [files out]. rewrite <-app_assoc.
  apply run_to_bind. eapply run_to_mono; [by apply (FileWrite_spec F HF fs V)|]. cbn [files out].
  intros _ w1 H. cbv zeta.
  (* reading and removing, in whatever file system the writing left *)
  assert (Hrest : forall V1, fs_inv fs V1 (files w1) ->
    run_to (_ ← FileRead F fs; removed ← on_fs (Remove F FileName fs);
            if negb removed then printf [Perf_cannot_remove] else printf [Perf_statistics]) w1
      (fun _ w' => exists V', fs_inv fs V' (files w') /\
        file_map V' (files w') = delete FileName (file_map V1 (files w1)) /\
        let missing := bool_decide (v_hdrs V1 !! FileName = None) in
        out w' = out w1 ++ [Perf_read 50000 10; if missing then Perf_cannot_open_file else Perf_cannot_read;
                            if missing then Perf_cannot_remove else Perf_statistics])).
  { intros V1 Hi1. apply run_to_bind. eapply run_to_mono; [by apply (FileRead_spec F HF fs V1)|].
    intros _ w2 [Hun Ho2]. pose proof (fs_inv_unchanged fs V1 _ _ Hi1 Hun) as Hi2.
    rewrite <-(file_map_unchanged fs V1 (files w1) (files w2) (proj1 Hi1) Hun).
    apply run_to_bind. eapply (run_to_on_fs _ _ _ _ (Remove_file_spec F HF fs V1 (files w2) FileName Hi2)).
    change (cstr maxlen FileName) with FileName. intros ok v Hr. cbv zeta.
    destruct (v_hdrs V1 !! FileName) as [h|] eqn:Eh.
    - destruct Hr as (-> & bm & d & s & Hi3 & _ & _ & Hc). cbn [negb]. apply run_to_printf. cbn [files out].
      eexists. split; [exact Hi3|]. split.
      + unfold file_map. rewrite <-fmap_delete. apply map_fmap_ext. intros k x Hx.
        apply lookup_delete_Some in Hx as [Hne Hx]. by apply (Hc k).
      + by rewrite Ho2, <-app_assoc.
    - destruct Hr as [-> Hu]. cbn [negb]. apply run_to_printf. cbn [files out].
      exists V1. split; [by eapply fs_inv_unchanged|]. split.
      + rewrite (file_map_unchanged fs V1 (files w2) v (proj1 Hi2) Hu). symmetry. apply delete_id.
        unfold file_map. by rewrite lookup_fmap, Eh.
      + by rewrite Ho2, <-app_assoc. }
  destruct (create_ok V FileName 0); cbn [negb andb].
  - destruct H as (V1 & Hi1 & Ho1 & Hm1). eapply run_to_mono; [by apply (Hrest V1)|].
    intros _ w' (V' & Hi & Hm & Ho). exists V'. split; [done|]. split.
    + rewrite Hm, Hm1. apply delete_insert_eq.
    + assert (Hs : v_hdrs V1 !! FileName <> None).
      { intros Hno. assert (E : file_map V1 (files w1) !! FileName = None) by (unfold file_map; by rewrite lookup_fmap, Hno).
        by rewrite Hm1, lookup_insert_eq in E. }
      rewrite Ho, Ho1. rewrite bool_decide_eq_false_2 by done. by rewrite <-!app_assoc.
  - destruct H as [Hun Ho1]. assert (Hi1 : fs_inv fs V (files w1)) by by eapply fs_inv_unchanged.
    eapply run_to_mono; [by apply (Hrest V)|]. intros _ w' (V' & Hi & Hm & Ho). exists V'. split; [done|]. split.
    + rewrite Hm. by rewrite (file_map_unchanged fs V (files w) (files w1) (proj1 Hinv) Hun).
    + rewrite Ho, Ho1, <-!app_assoc. cbn [app]. unfold file_map. rewrite lookup_fmap.
      by destruct (v_hdrs V !! FileName).
Qed.


Lemma PerformanceTest_fails_witness : exists fs V (w : TestWorld (list (list Z))),
  fs_inv fs V (files w) /\ run_to (PerformanceTest fresh0 fs) w (fun _ w' =>
    Perf_cannot_write ∈ out w' /\ exists V', fs_inv fs V' (files w')).
Proof.
  destruct (format_spec fresh0 fresh0_ok blank_world blank_world_ok) as (fs & w & _ & fm & d & Hinv & Hu & Hcl).
  exists fs, (mkView fm d ∅), (mkTW w []). split; [exact Hinv|].
  eapply run_to_mono; [apply (PerformanceTest_fails fresh0 fs (mkView fm d ∅) (mkTW w []) fresh0_ok Hinv)|].
  intros _ w' (V' & Hi & _ & Ho). split; [|by exists V']. rewrite Ho.
  assert (Hok : create_ok (mkView fm d ∅) FileName 0 = true).
  { unfold create_ok. cbn [v_map v_dir v_hdrs]. rewrite Hu, Hcl, lookup_empty. by vm_compute. }
  rewrite Hok. do 3 right. left.
Defined.
