(* ===== verification/List.v ===== *)
(** * threads/list.{h,cc}

    The singly linked lists of the kernel: the pointer implementation, the
    interface its clients (the scheduler, the synchronisation objects, the
    pending interrupts) are proved against, and the proof that the pointers
    implement it.

    Addresses of list elements are positive integers, NULL is 0.  Elements
    are allocated and deleted by their list only, so each list carries the
    part of the C++ heap that holds its own elements. *)

From stdpp Require Import base list sorting numbers gmap fin_maps fin_map_dom.
From S2P Require Import Prelude.

(** ** The interface *)

(** Inserting before the first element with a larger key. *)
Fixpoint insert_sorted {A} (k : Z) (x : A) (xs : list (Z * A)) : list (Z * A) :=
  match xs with
  | [] => [(k, x)]
  | (k', y) :: r => if k <? k' then (k, x) :: xs else (k', y) :: insert_sorted k x r
  end.

Class ListOps (L : Type -> Type) := {
  New : forall A, L A;
  Append : forall A, A -> L A -> L A;
  Prepend : forall A, A -> L A -> L A;
  IsEmpty : forall A, L A -> bool;
  SortedInsert : forall A, A -> Z -> L A -> L A;
  SortedRemove : forall A, L A -> option (A * Z) * L A;
  Mapcar : forall A, L A -> list A
}.
Arguments New {L _} A.
Arguments Append {L _ A}.
Arguments Prepend {L _ A}.
Arguments IsEmpty {L _ A}.
Arguments SortedInsert {L _ A}.
Arguments SortedRemove {L _ A}.
Arguments Mapcar {L _ A}.

(** What a list promises: it is a sequence of keyed items. *)
Class ListLaws (L : Type -> Type) `{!ListOps L} := {
  elems : forall A, L A -> list (Z * A);
  elems_new : forall A, elems A (New A) = [];
  elems_append : forall A x l, elems A (Append x l) = elems A l ++ [(0, x)];
  elems_prepend : forall A x l, elems A (Prepend x l) = (0, x) :: elems A l;
  elems_empty : forall A l, IsEmpty l = bool_decide (length (elems A l) = 0%nat);
  elems_insert : forall A x k l, elems A (SortedInsert x k l) = insert_sorted k x (elems A l);
  elems_remove : forall A l,
    (fst (SortedRemove l) = (fun p => (snd p, fst p)) <$> head (elems A l)) /\
    elems A (snd (SortedRemove l)) = tail (elems A l);
  elems_mapcar : forall A l, Mapcar l = (elems A l).*2
}.
Arguments elems {L _ _ A}.

(** [List::Remove]: SortedRemove without the key. *)
Definition Remove {L : Type -> Type} `{!ListOps L} {A} (l : L A) : option A * L A :=
  let '(r, l) := SortedRemove l in (option_map fst r, l).

(** ** The pointers *)

Record ListElement (A : Type) := mkElement { next : Z; key : Z; item : A }.
Arguments mkElement {A}.
Arguments next {A}.
Arguments key {A}.
Arguments item {A}.

Record PtrList (A : Type) := mkPtrList {
  elements : gmap Z (ListElement A);
  fresh_addr : Z;
  first : Z;
  last_ : Z
}.
Arguments mkPtrList {A}.
Arguments elements {A}.
Arguments fresh_addr {A}.
Arguments first {A}.
Arguments last_ {A}.

Module Ptr.
Section Ops.
Context {A : Type}.
Implicit Types (l : PtrList A).

Definition set_next (n : Z) (e : ListElement A) : ListElement A := mkElement n (key e) (item e).
Definition get l (p : Z) : res (ListElement A) := deref (elements l !! p).
Definition put (p : Z) (e : ListElement A) l : PtrList A :=
  mkPtrList (<[p := e]> (elements l)) (fresh_addr l) (first l) (last_ l).
Definition set_first (p : Z) l : PtrList A := mkPtrList (elements l) (fresh_addr l) p (last_ l).
Definition set_last (p : Z) l : PtrList A := mkPtrList (elements l) (fresh_addr l) (first l) p.

(** [new ListElement(itemPtr, sortKey)]. *)
Definition new_element (x : A) (sortKey : Z) l : Z * PtrList A :=
  (fresh_addr l,
   mkPtrList (<[fresh_addr l := mkElement 0 sortKey x]> (elements l)) (fresh_addr l + 1) (first l) (last_ l)).

Definition New : PtrList A := mkPtrList ∅ 1 0 0.
Definition IsEmpty l : bool := first l =? 0.

Definition Append (x : A) l : res (PtrList A) :=
  let '(element, l) := new_element x 0 l in
  if IsEmpty l then Ok (set_last element (set_first element l))
  else
    e ← get l (last_ l);
    Ok (set_last element (put (last_ l) (set_next element e) l)).

Definition Prepend (x : A) l : res (PtrList A) :=
  let '(element, l) := new_element x 0 l in
  if IsEmpty l then Ok (set_last element (set_first element l))
  else
    e ← get l element;
    Ok (set_first element (put element (set_next (first l) e) l)).

(** The search loop of SortedInsert, at [ptr]. *)
Fixpoint insert_loop (fuel : nat) (element sortKey ptr : Z) l : res (PtrList A) :=
  match fuel with
  | O => Err MemFault
  | S fuel =>
      p ← get l ptr;
      if next p =? 0 then
        e ← get l (last_ l);
        Ok (set_last element (put (last_ l) (set_next element e) l))
      else
        q ← get l (next p);
        if sortKey <? key q then
          e ← get l element;
          let l := put element (set_next (next p) e) l in
          Ok (put ptr (set_next element p) l)
        else insert_loop fuel element sortKey (next p) l
  end.

Definition SortedInsert (x : A) (sortKey : Z) l : res (PtrList A) :=
  let '(element, l) := new_element x sortKey l in
  if IsEmpty l then Ok (set_last element (set_first element l))
  else
    f ← get l (first l);
    if sortKey <? key f then
      e ← get l element;
      Ok (set_first element (put element (set_next (first l) e) l))
    else insert_loop (size (elements l)) element sortKey (first l) l.

Definition SortedRemove l : res (option (A * Z) * PtrList A) :=
  let element := first l in
  if IsEmpty l then Ok (None, l)
  else
    e ← get l (first l);
    let thing := item e in
    let l := if first l =? last_ l then set_last 0 (set_first 0 l) else set_first (next e) l in
    Ok (Some (thing, key e), mkPtrList (delete element (elements l)) (fresh_addr l) (first l) (last_ l)).

Definition Remove l : res (option A * PtrList A) :=
  r ← SortedRemove l;
  Ok (option_map fst (fst r), snd r).

(** The items Mapcar calls its function on, in order. *)
Fixpoint walk (fuel : nat) (ptr : Z) l : res (list (Z * A)) :=
  if ptr =? 0 then Ok []
  else
    match fuel with
    | O => Err MemFault
    | S fuel =>
        e ← get l ptr;
        r ← walk fuel (next e) l;
        Ok ((key e, item e) :: r)
    end.

Definition Mapcar l : res (list A) :=
  r ← walk (size (elements l)) (first l) l; Ok (r.*2).

(** The destructor removes until the list is empty. *)
Fixpoint destroy (fuel : nat) l : res (PtrList A) :=
  match fuel with
  | O => Err MemFault
  | S fuel =>
      r ← Remove l;
      let '(o, l) := r in
      match o with Some _ => destroy fuel l | None => Ok l end
  end.
End Ops.

(** ** Pointers and sequences *)

Section Repr.
Context {A : Type}.
Implicit Types (h : gmap Z (ListElement A)) (l : PtrList A) (xs : list (Z * A)) (ps : list Z).

(** The elements from [p] on have the addresses [ps] and hold [xs]. *)
Fixpoint chain h (p : Z) ps xs : Prop :=
  match ps, xs with
  | [], [] => p = 0
  | a :: ps, (k, x) :: xs => p = a /\ a <> 0 /\ exists n, h !! a = Some (mkElement n k x) /\ chain h n ps xs
  | _, _ => False
  end.

Record repr l ps xs : Prop := {
  repr_chain : chain (elements l) (first l) ps xs;
  repr_nodup : NoDup ps;
  repr_last : last_ l = default 0 (last ps);
  repr_dom : dom (elements l) = list_to_set ps;
  repr_fresh : forall p, p ∈ ps -> 0 < p < fresh_addr l;
  repr_addr : 0 < fresh_addr l
}.

Lemma chain_frame h p ps xs a e : a ∉ ps -> chain h p ps xs -> chain (<[a := e]> h) p ps xs.
Proof.
  revert p xs. induction ps as [|b ps IH]; intros p [|[k x] xs] Ha Hc; try done.
  apply not_elem_of_cons in Ha as [Hab Ha]. destruct Hc as (-> & Hb & n & Hn & Hc).
  split; [done|]. split; [done|]. exists n. rewrite lookup_insert_ne by done. split; [done|]. by apply IH.
Qed.

Lemma chain_delete h p ps xs a : a ∉ ps -> chain h p ps xs -> chain (delete a h) p ps xs.
Proof.
  revert p xs. induction ps as [|b ps IH]; intros p [|[k x] xs] Ha Hc; try done.
  apply not_elem_of_cons in Ha as [Hab Ha]. destruct Hc as (-> & Hb & n & Hn & Hc).
  split; [done|]. split; [done|]. exists n. rewrite lookup_delete_ne by done. split; [done|]. by apply IH.
Qed.

Lemma chain_length h p ps xs : chain h p ps xs -> length ps = length xs.
Proof.
  revert p xs. induction ps as [|b ps IH]; intros p [|[k x] xs] Hc; try done.
  destruct Hc as (_ & _ & n & _ & Hc). cbn. f_equal. by eapply IH.
Qed.

(** Linking a new element behind the last one. *)
Lemma chain_snoc h p ps xs b e a k x :
  chain h p ps xs -> NoDup ps -> last ps = Some b -> h !! b = Some e -> a ∉ ps -> a <> 0 ->
  h !! a = Some (mkElement 0 k x) ->
  chain (<[b := set_next a e]> h) p (ps ++ [a]) (xs ++ [(k, x)]).
Proof.
  revert p xs. induction ps as [|c ps IH]; intros p [|[k' x'] xs] Hc Hnd Hl Hb Ha Ha0 Hh; try done.
  apply list.NoDup_cons in Hnd as [Hcn Hnd]. apply not_elem_of_cons in Ha as [Hac Ha].
  destruct Hc as (-> & Hc0 & n & Hn & Hc). split; [done|]. split; [done|].
  destruct ps as [|d ps].
  - injection Hl as ->. destruct xs as [|[? ?] ?]; [|done]. cbn in Hc. subst n.
    rewrite Hn in Hb. injection Hb as <-. exists a. rewrite lookup_insert_eq. split; [done|].
    split; [done|]. split; [done|]. exists 0. by rewrite lookup_insert_ne.
  - rewrite last_cons_cons in Hl. exists n. rewrite lookup_insert_ne.
    + split; [done|]. by apply IH.
    + intros ->. apply Hcn. by apply last_Some_elem_of.
Qed.

Lemma walk_chain l fuel p ps xs :
  chain (elements l) p ps xs -> (length ps <= fuel)%nat -> walk fuel p l = Ok xs.
Proof.
  revert p ps xs. induction fuel as [|fuel IH]; intros p [|a ps] [|[k x] xs] Hc Hf; cbn [length] in Hf;
    try done; try lia; cbn [walk].
  - cbn in Hc. by rewrite Hc.
  - cbn in Hc. by rewrite Hc.
  - destruct Hc as (-> & Ha & n & Hn & Hc). rewrite (proj2 (Z.eqb_neq a 0)) by done.
    unfold get. rewrite Hn. cbn [deref mbind res_bind next]. rewrite (IH n ps xs) by (done || lia). done.
Qed.

Lemma repr_size l ps xs : repr l ps xs -> size (elements l) = length ps.
Proof.
  intros H. rewrite <-size_dom, (repr_dom _ _ _ H), size_list_to_set by apply H. done.
Qed.

Lemma repr_not_fresh l ps xs : repr l ps xs -> fresh_addr l ∉ ps.
Proof. intros H Hin. apply (repr_fresh _ _ _ H) in Hin. lia. Qed.

Lemma repr_empty l ps xs : repr l ps xs -> IsEmpty l = bool_decide (length xs = 0%nat).
Proof.
  intros H. pose proof (repr_chain _ _ _ H) as Hc. unfold IsEmpty.
  destruct ps as [|a ps], xs as [|[k x] xs]; try done; cbn in Hc.
  - by rewrite Hc.
  - destruct Hc as (-> & Ha & _). by apply Z.eqb_neq.
Qed.

Lemma New_repr : repr (@New A) [] [].
Proof. split; cbn; try done; [constructor|by intros p Hp%elem_of_nil]. Qed.

(** The list after [new ListElement]: the element is not linked yet. *)
Lemma repr_new l ps xs x k :
  repr l ps xs ->
  let '(a, l') := new_element x k l in
  (a ∉ ps) /\ a <> 0 /\ elements l' !! a = Some (mkElement 0 k x) /\
  chain (elements l') (first l') ps xs /\ first l' = first l /\ last_ l' = default 0 (last ps) /\
  dom (elements l') = {[a]} ∪ list_to_set ps /\ fresh_addr l' = a + 1 /\ a = fresh_addr l.
Proof.
  intros H. pose proof (repr_not_fresh _ _ _ H) as Hf. pose proof (repr_addr _ _ _ H).
  cbn. split; [done|]. split; [lia|]. rewrite lookup_insert_eq. split; [done|].
  split; [apply chain_frame; [done|apply H]|]. split; [done|]. split; [apply H|].
  rewrite dom_insert_L, (repr_dom _ _ _ H). done.
Qed.

(** Any permutation of the old addresses with the new one keeps [repr]. *)
Lemma repr_link l ps xs h f la qs ys :
  repr l ps xs -> chain h f qs ys -> qs ≡ₚ fresh_addr l :: ps -> la = default 0 (last qs) ->
  dom h = {[fresh_addr l]} ∪ list_to_set ps ->
  repr (mkPtrList h (fresh_addr l + 1) f la) qs ys.
Proof.
  intros H Hc Hp Hla Hd. pose proof (repr_not_fresh _ _ _ H). pose proof (repr_addr _ _ _ H).
  split; cbn; try done.
  - rewrite Hp. by apply list.NoDup_cons; split; [|apply H].
  - rewrite Hd. apply set_eq. intros p. rewrite elem_of_union, elem_of_singleton, !elem_of_list_to_set, Hp, elem_of_cons. done.
  - intros p. rewrite Hp, elem_of_cons. intros [->|Hin]; [lia|]. apply (repr_fresh _ _ _ H) in Hin. lia.
  - lia.
Qed.

Lemma repr_single l x k :
  repr l [] [] -> forall h, h = <[fresh_addr l := mkElement 0 k x]> (elements l) ->
  repr (mkPtrList h (fresh_addr l + 1) (fresh_addr l) (fresh_addr l)) [fresh_addr l] [(k, x)].
Proof.
  intros H h ->. pose proof (repr_addr _ _ _ H).
  apply (repr_link l [] []); try done.
  - cbn. split; [done|]. split; [lia|]. exists 0. by rewrite lookup_insert_eq.
  - by rewrite dom_insert_L, (repr_dom _ _ _ H).
Qed.

Lemma repr_nil_inv l ps xs : repr l ps xs -> IsEmpty l = true -> ps = [] /\ xs = [].
Proof.
  intros H He. rewrite (repr_empty _ _ _ H) in He. apply bool_decide_eq_true in He.
  pose proof (chain_length _ _ _ _ (repr_chain _ _ _ H)) as Hl.
  destruct ps, xs; done.
Qed.

Lemma repr_last_elem l ps xs :
  repr l ps xs -> IsEmpty l = false -> exists b e, last ps = Some b /\ last_ l = b /\
    elements l !! b = Some e /\ b ∈ ps.
Proof.
  intros H He. destruct (last ps) as [b|] eqn:E.
  - assert (Hb : b ∈ ps) by by apply last_Some_elem_of.
    assert (Hd : b ∈ dom (elements l)) by (rewrite (repr_dom _ _ _ H); by apply elem_of_list_to_set).
    apply elem_of_dom in Hd as [e He']. exists b, e. rewrite (repr_last _ _ _ H), E. done.
  - apply last_None in E. subst ps. rewrite (repr_empty _ _ _ H) in He.
    pose proof (chain_length _ _ _ _ (repr_chain _ _ _ H)) as Hl. by destruct xs.
Qed.

(** Putting the new element behind the last one, as Append and SortedInsert do. *)
Lemma link_last l ps xs x k :
  repr l ps xs -> IsEmpty l = false ->
  exists l', (let '(a, l1) := new_element x k l in
     (e ← get l1 (last_ l1); Ok (set_last a (put (last_ l1) (set_next a e) l1)))) = Ok l' /\
  repr l' (ps ++ [fresh_addr l]) (xs ++ [(k, x)]).
Proof.
  intros H He. destruct (repr_last_elem _ _ _ H He) as (b & e & Hlb & Hb & Heb & Hin).
  pose proof (repr_not_fresh _ _ _ H) as Hf. pose proof (repr_addr _ _ _ H) as Ha.
  assert (Hne : b <> fresh_addr l) by (intros ->; done).
  cbn. unfold get. cbn [last_ elements]. rewrite Hb, lookup_insert_ne, Heb by done. cbn [deref mbind res_bind].
  eexists. split; [done|]. unfold set_last, put. cbn [elements fresh_addr first].
  apply (repr_link l ps xs); try done.
  - apply chain_snoc; try done; try apply H.
    + apply chain_frame; [done|apply H].
    + by rewrite lookup_insert_ne.
    + lia.
    + by rewrite lookup_insert_eq.
  - by rewrite Permutation_app_comm.
  - by rewrite last_snoc.
  - rewrite !dom_insert_L, (repr_dom _ _ _ H). set_solver.
Qed.

(** Putting it in front of the first one. *)
Lemma link_first l ps xs x k :
  repr l ps xs -> IsEmpty l = false ->
  exists l', (let '(a, l1) := new_element x k l in
     (e ← get l1 a; Ok (set_first a (put a (set_next (first l1) e) l1)))) = Ok l' /\
  repr l' (fresh_addr l :: ps) ((k, x) :: xs).
Proof.
  intros H He. pose proof (repr_not_fresh _ _ _ H) as Hf. pose proof (repr_addr _ _ _ H) as Ha.
  destruct (repr_last_elem _ _ _ H He) as (b & _ & Hlb & Hb & _).
  cbn. unfold get. cbn [elements]. rewrite lookup_insert_eq. cbn [deref mbind res_bind].
  eexists. split; [done|]. unfold set_first, put. cbn [elements fresh_addr last_ first].
  apply (repr_link l ps xs); try done.
  - cbn. split; [done|]. split; [lia|]. exists (first l). rewrite lookup_insert_eq. split; [done|].
    apply chain_frame; [done|]. apply chain_frame; [done|apply H].
  - rewrite Hb. destruct ps; [done|]. by rewrite last_cons_cons, Hlb.
  - rewrite !dom_insert_L, (repr_dom _ _ _ H). set_solver.
Qed.

Lemma Append_repr l ps xs x :
  repr l ps xs -> exists l', Append x l = Ok l' /\ repr l' (ps ++ [fresh_addr l]) (xs ++ [(0, x)]).
Proof.
  intros H. destruct (IsEmpty l) eqn:He.
  - destruct (repr_nil_inv _ _ _ H He) as [-> ->]. unfold Append. cbn. unfold IsEmpty in He |- *.
    cbn [first]. rewrite He. eexists. split; [done|]. by apply repr_single.
  - destruct (link_last l ps xs x 0 H He) as (l' & Hl & Hr). exists l'. split; [|done].
    unfold Append. cbn in Hl |- *. unfold IsEmpty in He |- *. cbn [first]. by rewrite He.
Qed.

Lemma Prepend_repr l ps xs x :
  repr l ps xs -> exists l', Prepend x l = Ok l' /\ repr l' (fresh_addr l :: ps) ((0, x) :: xs).
Proof.
  intros H. destruct (IsEmpty l) eqn:He.
  - destruct (repr_nil_inv _ _ _ H He) as [-> ->]. unfold Prepend. cbn. unfold IsEmpty in He |- *.
    cbn [first]. rewrite He. eexists. split; [done|]. by apply repr_single.
  - destruct (link_first l ps xs x 0 H He) as (l' & Hl & Hr). exists l'. split; [|done].
    unfold Prepend. cbn in Hl |- *. unfold IsEmpty in He |- *. cbn [first]. by rewrite He.
Qed.

Lemma SortedRemove_repr l ps xs :
  repr l ps xs -> exists l', SortedRemove l = Ok ((fun p => (snd p, fst p)) <$> head xs, l') /\
    repr l' (tail ps) (tail xs).
Proof.
  intros H. unfold SortedRemove. destruct (IsEmpty l) eqn:He.
  { destruct (repr_nil_inv _ _ _ H He) as [-> ->]. by exists l. }
  destruct (repr_last_elem _ _ _ H He) as (b & _ & Hlb & Hb & _ & Hin).
  pose proof (repr_chain _ _ _ H) as Hc. pose proof (repr_nodup _ _ _ H) as Hnd.
  destruct ps as [|a ps]; [done|]. destruct xs as [|[k x] xs]; [done|].
  destruct Hc as (Hfa & Ha & n & Hn & Hc). unfold get. rewrite Hfa, Hn. cbn [deref mbind res_bind item key next].
  apply list.NoDup_cons in Hnd as [Hna Hnd]. eexists. split; [done|].
  assert (Hdom : dom (delete a (elements l)) = list_to_set ps).
  { rewrite dom_delete_L, (repr_dom _ _ _ H). cbn. set_solver. }
  assert (Hfr : forall p, p ∈ ps -> 0 < p < fresh_addr l).
  { intros p Hp. apply (repr_fresh _ _ _ H). by right. }
  destruct (Z.eqb_spec a (last_ l)) as [Hal|Hal].
  - assert (Hps : ps = []).
    { destruct ps as [|c ps]; [done|]. exfalso. rewrite last_cons_cons in Hlb. apply Hna.
      rewrite Hal, Hb. by apply last_Some_elem_of. }
    subst ps. destruct xs as [|[? ?] ?]; [|done]. split; cbn; try done. exact (repr_addr _ _ _ H).
  - assert (Hps : ps <> []) by (intros ->; apply Hal; injection Hlb as <-; congruence).
    split; cbn; try done.
    + by apply chain_delete.
    + rewrite (repr_last _ _ _ H). by destruct ps.
    + exact (repr_addr _ _ _ H).
Qed.

(** ** Sorted insertion *)

(** The loop, started at an element whose key is not larger, changes only
    the suffix from there on. *)
Lemma insert_loop_spec fuel l a k x b kb xb ps xs :
  chain (elements l) b (b :: ps) ((kb, xb) :: xs) -> NoDup (b :: ps) -> a ∉ b :: ps -> a <> 0 ->
  elements l !! a = Some (mkElement 0 k x) -> last_ l = default 0 (last (b :: ps)) ->
  (length ps < fuel)%nat ->
  exists l' qs, insert_loop fuel a k b l = Ok l' /\
    chain (elements l') b (b :: qs) ((kb, xb) :: insert_sorted k x xs) /\ qs ≡ₚ a :: ps /\
    last_ l' = default 0 (last (b :: qs)) /\ first l' = first l /\ fresh_addr l' = fresh_addr l /\
    dom (elements l') = dom (elements l) /\
    forall p, p <> a -> p ∉ b :: ps -> elements l' !! p = elements l !! p.
Proof.
  revert b kb xb ps xs. induction fuel as [|fuel IH]; intros b kb xb ps xs Hc Hnd Ha Ha0 Hea Hla Hf; [lia|].
  destruct Hc as (_ & Hb0 & n & Hn & Hc). pose proof Hnd as [Hbn Hnd']%list.NoDup_cons.
  pose proof Ha as [Hab Ha']%not_elem_of_cons.
  assert (Hba : b ∈ dom (elements l)) by by eapply elem_of_dom_2.
  assert (Haa : a ∈ dom (elements l)) by by eapply elem_of_dom_2.
  cbn [insert_loop]. unfold get. rewrite Hn. cbn [deref mbind res_bind next].
  destruct ps as [|c ps], xs as [|[kc xc] xs]; try done.
  - cbn in Hc. subst n. cbn [Z.eqb]. cbn in Hla. rewrite Hla, Hn. cbn [deref mbind res_bind].
    eexists _, [a]. split; [done|]. cbn [elements set_last put last_ first fresh_addr].
    split_and!; try done.
    + cbn. split; [done|]. split; [done|]. exists a. rewrite lookup_insert_eq. split; [done|].
      split; [done|]. split; [done|]. exists 0. by rewrite lookup_insert_ne.
    + rewrite dom_insert_L. set_solver.
    + intros p Hp1 Hp2. apply not_elem_of_cons in Hp2 as [Hp2 _]. by rewrite lookup_insert_ne.
  - destruct Hc as (-> & Hc0 & m & Hm & Hc). rewrite (proj2 (Z.eqb_neq c 0)) by done.
    rewrite Hm. cbn [deref mbind res_bind key insert_sorted].
    assert (Hca : c <> a) by (intros ->; apply Ha'; by left).
    assert (Hbc : b <> c) by (intros ->; apply Hbn; by left).
    destruct (Z.ltb_spec k kc) as [Hk|Hk].
    + rewrite Hea. cbn [deref mbind res_bind]. eexists _, (a :: c :: ps). split; [done|].
      cbn [elements put last_ first fresh_addr]. split_and!; try done.
      * cbn. split; [done|]. split; [done|]. exists a. rewrite lookup_insert_eq. split; [done|].
        split; [done|]. split; [done|]. exists c. rewrite lookup_insert_ne, lookup_insert_eq by done.
        split; [done|]. split; [done|]. split; [done|]. exists m.
        rewrite !lookup_insert_ne by done. split; [done|].
        apply not_elem_of_cons in Ha' as [_ Ha']. apply not_elem_of_cons in Hbn as [_ Hbn].
        apply chain_frame; [done|]. by apply chain_frame.
      * rewrite !dom_insert_L. set_solver.
      * intros p Hp1 Hp2. apply not_elem_of_cons in Hp2 as [Hp2 _]. by rewrite !lookup_insert_ne.
    + destruct (IH c kc xc ps xs) as (l' & qs & HL & Hch & Hp & Hl' & Hfi & Hfr & Hdo & Hout); try done.
      * cbn. split; [done|]. split; [done|]. by exists m.
      * cbn [length] in Hf. lia.
      * exists l', (c :: qs). split; [done|]. split_and!; try done.
        -- split; [done|]. split; [done|]. exists c. rewrite Hout by (done || congruence). done.
        -- rewrite Hp. by rewrite Permutation_swap.
        -- intros p Hp1 Hp2. apply Hout; [done|]. by apply not_elem_of_cons in Hp2 as [_ ?].
Qed.

Lemma SortedInsert_repr l ps xs x k :
  repr l ps xs -> exists l' qs, SortedInsert x k l = Ok l' /\ repr l' qs (insert_sorted k x xs).
Proof.
  intros H. destruct (IsEmpty l) eqn:He.
  { destruct (repr_nil_inv _ _ _ H He) as [-> ->]. unfold SortedInsert. cbn. unfold IsEmpty in He |- *.
    cbn [first]. rewrite He. eexists _, [fresh_addr l]. split; [done|]. by apply repr_single. }
  pose proof (repr_new l ps xs x k H) as Hn. unfold SortedInsert.
  destruct (new_element x k l) as [a l1] eqn:E.
  destruct Hn as (Ha & Ha0 & Hea & Hc & Hfi & Hla & Hd & Hfr & Haf).
  assert (He1 : IsEmpty l1 = false) by (unfold IsEmpty in *; by rewrite Hfi). rewrite He1.
  pose proof (repr_nodup _ _ _ H) as Hnd. pose proof (repr_size _ _ _ H) as Hs.
  destruct (link_first l ps xs x k H He) as (l0 & Hl0 & Hr0). rewrite E in Hl0.
  destruct (repr_last_elem _ _ _ H He) as (b0 & _ & Hlb & _).
  destruct ps as [|b ps]; [done|]. destruct xs as [|[kb xb] xs]; [done|].
  pose proof Hc as (Hfb & Hb0 & n & Hnb & _). unfold get in Hl0 |- *. rewrite Hfb, Hnb.
  cbn [deref mbind res_bind key insert_sorted]. destruct (Z.ltb_spec k kb) as [Hk|Hk].
  - exists l0, (fresh_addr l :: b :: ps). split; [|done]. by rewrite Hfb in Hl0.
  - destruct (insert_loop_spec (size (elements l1)) l1 a k x b kb xb ps xs)
      as (l' & qs & HL & Hch & Hp & Hl' & Hfi' & Hfr' & Hdo & _); try done.
    + by rewrite Hfb in Hc.
    + assert (Hz : size (elements l1) = S (length (b :: ps))); [|rewrite Hz; cbn; lia].
      rewrite <-size_dom, Hd, size_union, size_singleton, size_list_to_set by (done || set_solver). done.
    + exists l', (b :: qs). split; [done|]. destruct l' as [h' f' fi' la']. cbn in *.
      rewrite Hfi', Hfr', Hfr, Haf. rewrite Hfb.
      apply (repr_link l (b :: ps) ((kb, xb) :: xs)); try done.
      * rewrite Hp, Haf. by rewrite Permutation_swap.
      * by rewrite Hdo, Hd, Haf.
Qed.
End Repr.
End Ptr.

(** ** The implementation of the interface *)

Definition holds {A} (l : PtrList A) (xs : list (Z * A)) : Prop := exists ps, Ptr.repr l ps xs.

Definition LIST (A : Type) : Type := { l : PtrList A | exists xs, holds l xs }.

(** The list an operation returns, which always exists. *)
Definition result {A} (r : res (PtrList A)) :
  (exists l', r = Ok l' /\ exists xs, holds l' xs) -> LIST A :=
  match r with
  | Ok l' => fun H => exist _ l'
      (match H with ex_intro _ l0 (conj E V) =>
         match E in _ = y return match y with Ok z => exists xs, holds z xs | Err _ => False end -> exists xs, holds l' xs with
         | eq_refl => fun v => v end V end)
  | Err e => fun H =>
      match match H with ex_intro _ l0 (conj E _) =>
        match E in _ = y return match y with Ok _ => False | Err _ => True end with eq_refl => I end end
      return LIST A with end
  end.

Section Instance_.
Context {A : Type}.

Lemma append_ok (x : A) (l : LIST A) : exists l', Ptr.Append x (proj1_sig l) = Ok l' /\ exists xs, holds l' xs.
Proof.
  destruct l as [l (xs & ps & H)]. destruct (Ptr.Append_repr l ps xs x H) as (l' & HA & Hr).
  exists l'. split; [done|]. eexists. by eexists.
Qed.

Lemma prepend_ok (x : A) (l : LIST A) : exists l', Ptr.Prepend x (proj1_sig l) = Ok l' /\ exists xs, holds l' xs.
Proof.
  destruct l as [l (xs & ps & H)]. destruct (Ptr.Prepend_repr l ps xs x H) as (l' & HA & Hr).
  exists l'. split; [done|]. eexists. by eexists.
Qed.

Lemma insert_ok (x : A) k (l : LIST A) : exists l', Ptr.SortedInsert x k (proj1_sig l) = Ok l' /\ exists xs, holds l' xs.
Proof.
  destruct l as [l (xs & ps & H)]. destruct (Ptr.SortedInsert_repr l ps xs x k H) as (l' & qs & HA & Hr).
  exists l'. split; [done|]. eexists. by eexists.
Qed.

Lemma remove_ok (l : LIST A) :
  exists l', (r ← Ptr.SortedRemove (proj1_sig l); Ok (snd r)) = Ok l' /\ exists xs, holds l' xs.
Proof.
  destruct l as [l (xs & ps & H)]. destruct (Ptr.SortedRemove_repr l ps xs H) as (l' & HA & Hr).
  exists l'. cbn [proj1_sig]. rewrite HA. split; [done|]. eexists. by eexists.
Qed.

Lemma new_ok : exists xs, holds (@Ptr.New A) xs.
Proof. exists [], []. apply Ptr.New_repr. Qed.
End Instance_.

#[export] Instance List_ops : ListOps LIST := {|
  New A := exist _ Ptr.New new_ok;
  Append A x l := result (Ptr.Append x (proj1_sig l)) (append_ok x l);
  Prepend A x l := result (Ptr.Prepend x (proj1_sig l)) (prepend_ok x l);
  IsEmpty A l := Ptr.IsEmpty (proj1_sig l);
  SortedInsert A x k l := result (Ptr.SortedInsert x k (proj1_sig l)) (insert_ok x k l);
  SortedRemove A l :=
    (match Ptr.SortedRemove (proj1_sig l) with Ok (o, _) => o | Err _ => None end,
     result (r ← Ptr.SortedRemove (proj1_sig l); Ok (snd r)) (remove_ok l));
  Mapcar A l := match Ptr.Mapcar (proj1_sig l) with Ok xs => xs | Err _ => [] end
|}.

(** The items of a list with their keys. *)
Definition items {A} (l : PtrList A) : list (Z * A) :=
  match Ptr.walk (size (elements l)) (first l) l with Ok xs => xs | Err _ => [] end.

Lemma walk_holds {A} (l : PtrList A) xs :
  holds l xs -> Ptr.walk (size (elements l)) (first l) l = Ok xs.
Proof.
  intros [ps H]. apply (Ptr.walk_chain _ _ _ ps); [apply H|].
  by rewrite (Ptr.repr_size _ _ _ H).
Qed.

Lemma items_holds {A} (l : PtrList A) xs : holds l xs -> items l = xs.
Proof. intros H. unfold items. by rewrite (walk_holds l xs H). Qed.

Lemma result_val {A} (r : res (PtrList A)) H l' : r = Ok l' -> proj1_sig (result r H) = l'.
Proof. intros ->. reflexivity. Qed.

#[export] Program Instance List_laws : ListLaws LIST := {| elems A l := items (proj1_sig l) |}.
Next Obligation. done. Qed.
Next Obligation.
  intros A x [l (xs & ps & H)]. destruct (Ptr.Append_repr l ps xs x H) as (l' & HA & Hr).
  cbn [Append List_ops]. rewrite (result_val _ _ l' HA). cbn [proj1_sig].
  by rewrite (items_holds l' _ (ex_intro _ _ Hr)), (items_holds l xs (ex_intro _ _ H)).
Qed.
Next Obligation.
  intros A x [l (xs & ps & H)]. destruct (Ptr.Prepend_repr l ps xs x H) as (l' & HA & Hr).
  cbn [Prepend List_ops]. rewrite (result_val _ _ l' HA). cbn [proj1_sig].
  by rewrite (items_holds l' _ (ex_intro _ _ Hr)), (items_holds l xs (ex_intro _ _ H)).
Qed.
Next Obligation.
  intros A [l (xs & ps & H)]. cbn [IsEmpty List_ops proj1_sig].
  by rewrite (items_holds l xs (ex_intro _ _ H)), (Ptr.repr_empty _ _ _ H).
Qed.
Next Obligation.
  intros A x k [l (xs & ps & H)]. destruct (Ptr.SortedInsert_repr l ps xs x k H) as (l' & qs & HA & Hr).
  cbn [SortedInsert List_ops]. rewrite (result_val _ _ l' HA). cbn [proj1_sig].
  by rewrite (items_holds l' _ (ex_intro _ _ Hr)), (items_holds l xs (ex_intro _ _ H)).
Qed.
Next Obligation.
  intros A [l (xs & ps & H)]. destruct (Ptr.SortedRemove_repr l ps xs H) as (l' & HA & Hr).
  cbn [SortedRemove List_ops fst snd]. rewrite (result_val _ _ l') by (cbn [proj1_sig]; by rewrite HA).
  cbn [proj1_sig]. rewrite HA.
  by rewrite (items_holds l' _ (ex_intro _ _ Hr)), (items_holds l xs (ex_intro _ _ H)).
Qed.
Next Obligation.
  intros A [l (xs & ps & H)]. cbn [Mapcar List_ops proj1_sig]. unfold Ptr.Mapcar.
  by rewrite (walk_holds l xs (ex_intro _ _ H)), (items_holds l xs (ex_intro _ _ H)).
Qed.

(** ** Sorted sequences *)

Definition keys_sorted {A} (xs : list (Z * A)) : Prop := Sorted Z.le xs.*1.

Lemma filter_none {A} (P : A -> Prop) `{!forall x, Decision (P x)} (l : list A) :
  Forall (fun x => ~ P x) l -> filter P l = [].
Proof. induction 1 as [|x l Hx _ IH]; [done|]. by rewrite filter_cons_False. Qed.

Lemma filter_every {A} (P : A -> Prop) `{!forall x, Decision (P x)} (l : list A) :
  Forall P l -> filter P l = l.
Proof. induction 1 as [|x l Hx _ IH]; [done|]. by rewrite filter_cons_True, IH. Qed.

Lemma insert_sorted_split {A} k (x : A) xs :
  keys_sorted xs ->
  insert_sorted k x xs = filter (fun p => p.1 <= k) xs ++ (k, x) :: filter (fun p => k < p.1) xs.
Proof.
  unfold keys_sorted. induction xs as [|[k' y] xs IH]; intros Hs; [done|]. cbn [insert_sorted].
  apply Sorted_StronglySorted in Hs; [|by intros a b c; lia]. inversion Hs as [|? ? Hs' Hall]; subst.
  destruct (Z.ltb_spec k k') as [Hk|Hk].
  - rewrite filter_cons_False by (cbn; lia).
    rewrite (filter_cons_True _ (k', y)) by (cbn; lia).
    assert (H1 : filter (fun p : Z * A => p.1 <= k) xs = []).
    { apply filter_none. rewrite Forall_fmap in Hall. eapply Forall_impl; [exact Hall|].
      intros p Hp. cbn in Hp. lia. }
    assert (H2 : filter (fun p : Z * A => k < p.1) xs = xs).
    { apply filter_every. rewrite Forall_fmap in Hall. eapply Forall_impl; [exact Hall|].
      intros p Hp. cbn in Hp. lia. }
    by rewrite H1, H2.
  - rewrite filter_cons_True by (cbn; lia). rewrite (filter_cons_False _ (k', y)) by (cbn; lia).
    cbn. f_equal. apply IH. by apply StronglySorted_Sorted.
Qed.

Lemma insert_sorted_perm {A} k (x : A) xs : insert_sorted k x xs ≡ₚ (k, x) :: xs.
Proof.
  induction xs as [|[k' y] xs IH]; [done|]. cbn. destruct (k <? k'); [done|].
  rewrite IH. by rewrite Permutation_swap.
Qed.

Lemma insert_sorted_sorted {A} k (x : A) xs : keys_sorted xs -> keys_sorted (insert_sorted k x xs).
Proof.
  unfold keys_sorted. induction xs as [|[k' y] xs IH]; intros Hs; cbn [insert_sorted].
  - by repeat constructor.
  - destruct (Z.ltb_spec k k').
    + rewrite fmap_cons. constructor; [done|]. constructor. cbn. lia.
    + rewrite fmap_cons. rewrite fmap_cons in Hs. inversion Hs as [|? ? Hs' Hhd]; subst.
      constructor; [by apply IH|]. destruct xs as [|[k2 y2] xs]; cbn in *; [constructor; lia|].
      inversion Hhd; subst. destruct (k <? k2); cbn; constructor; lia.
Qed.

(** The destructor deletes every element. *)
Lemma destroy_repr {A} (l : PtrList A) ps xs fuel :
  Ptr.repr l ps xs -> (length xs < fuel)%nat ->
  exists l', Ptr.destroy fuel l = Ok l' /\ elements l' = ∅ /\ Ptr.repr l' [] [].
Proof.
  revert l ps xs. induction fuel as [|fuel IH]; intros l ps xs H Hf; [lia|]. cbn [Ptr.destroy].
  destruct (Ptr.SortedRemove_repr l ps xs H) as (l' & HR & Hr). unfold Ptr.Remove. rewrite HR.
  cbn [mbind res_bind fst snd]. pose proof (Ptr.chain_length _ _ _ _ (Ptr.repr_chain _ _ _ H)) as Hl.
  destruct xs as [|[k x] xs]; cbn.
  - destruct ps; [|done]. exists l'. split; [done|]. split; [|done].
    apply dom_empty_inv_L. by rewrite (Ptr.repr_dom _ _ _ Hr).
  - apply (IH l' (tail ps) xs); [done|]. cbn in Hf. lia.
Qed.

(** ** Properties *)

(** C6: the pointers implement a sequence: on a list that holds [xs],
    every operation follows only valid pointers and does what its name says
    to [xs]; SortedInsert puts the item behind all items with a key that is
    not larger, which keeps a sorted list sorted and equal keys in order of
    arrival; the destructor frees every element. *)
Theorem List_refines_sequence {A} (l : PtrList A) xs (x : A) k :
  holds l xs ->
  Ptr.IsEmpty l = bool_decide (length xs = 0%nat) /\
  (exists l', Ptr.Append x l = Ok l' /\ holds l' (xs ++ [(0, x)])) /\
  (exists l', Ptr.Prepend x l = Ok l' /\ holds l' ((0, x) :: xs)) /\
  (exists l', Ptr.SortedRemove l = Ok ((fun p => (p.2, p.1)) <$> head xs, l') /\ holds l' (tail xs)) /\
  (exists l', Ptr.SortedInsert x k l = Ok l' /\ holds l' (insert_sorted k x xs)) /\
  (keys_sorted xs -> keys_sorted (insert_sorted k x xs) /\
     insert_sorted k x xs = filter (fun p => p.1 <= k) xs ++ (k, x) :: filter (fun p => k < p.1) xs) /\
  Ptr.Mapcar l = Ok xs.*2 /\
  (exists l', Ptr.destroy (S (length xs)) l = Ok l' /\ elements l' = ∅).
Proof.
  intros [ps H]. split_and!.
  - by apply (Ptr.repr_empty _ ps).
  - destruct (Ptr.Append_repr l ps xs x H) as (l' & HA & Hr). exists l'. split; [done|]. by eexists.
  - destruct (Ptr.Prepend_repr l ps xs x H) as (l' & HA & Hr). exists l'. split; [done|]. by eexists.
  - destruct (Ptr.SortedRemove_repr l ps xs H) as (l' & HA & Hr). exists l'. split; [done|]. by eexists.
  - destruct (Ptr.SortedInsert_repr l ps xs x k H) as (l' & qs & HA & Hr). exists l'. split; [done|]. by eexists.
  - intros Hs. split; [by apply insert_sorted_sorted|by apply insert_sorted_split].
  - unfold Ptr.Mapcar. by rewrite (walk_holds l xs (ex_intro _ _ H)).
  - destruct (destroy_repr l ps xs (S (length xs)) H) as (l' & HD & He & _); [lia|]. by exists l'.
Qed.

Lemma List_refines_sequence_witness : exists l : PtrList Z,
  (l0 ← Ptr.SortedInsert 7 5 Ptr.New; Ptr.SortedInsert 8 3 l0) = Ok l /\
  exists l', Ptr.SortedInsert 9 5 l = Ok l' /\ holds l' [(3, 8); (5, 7); (5, 9)].
Proof.
  eexists. split; [reflexivity|].
  apply (List_refines_sequence _ [(3, 8); (5, 7)] 9 5). exists [2; 1].
  split.
  - vm_compute. split_and!; try done. eexists. split; [done|]. split_and!; try done. by eexists.
  - repeat (constructor; [set_solver|]). constructor.
  - by vm_compute.
  - by vm_compute.
  - intros p. rewrite !elem_of_cons, elem_of_nil. change (fresh_addr _) with 3. lia.
  - by vm_compute.
Defined.
