(* ===== verification/Proc.v ===== *)
(** * Kernel threads as resumable programs

    A thread of the kernel is C++ code running on a stack of its own; the
    only place where it can lose the processor is SWITCH.  [proc] is that
    code: atomic steps on the kernel's state, sequence, loops, and calls
    through function pointers, whose bodies may be recursive.  [step]
    executes one step; a machine holds the state and the rest of every
    thread's code, and runs the thread on whose stack the processor is.

    [wp] is a rely-guarantee program logic for it: partial correctness of
    one thread, given what the other threads promise; [machine_safe] says
    that threads verified one by one run together without error. *)

From stdpp Require Import base list numbers gmap.
From S2P Require Import Prelude State.

Section Proc.
Context {W F : Type}.

Inductive proc (A : Type) : Type :=
  | Ret (a : A)
  | Atom (m : M W A)
  | Bind {B : Type} (m : proc B) (f : B -> proc A)
  | Loop {B : Type} (body : proc (option B)) (f : B -> proc A)
  | Call (g : F) (arg : Z) (k : proc A).

End Proc.
Arguments proc : clear implicits.
Arguments Ret {W F A}.
Arguments Atom {W F A}.
Arguments Bind {W F A B}.
Arguments Loop {W F A B}.
Arguments Call {W F A}.

Notation "x '<~' p ;;; q" := (Bind p (fun x => q))
  (at level 100, p at next level, q at level 200, right associativity).
Notation "p ;;; q" := (Bind p (fun _ => q))
  (at level 100, q at level 200, right associativity).

(** [while (c) body], the condition being part of the body. *)
Definition While {W F} (body : proc W F bool) : proc W F unit :=
  Loop (Bind body (fun c : bool => Ret (if c then None else Some tt))) Ret.

Section Exec.
Context {W F : Type} (code : F -> Z -> proc W F unit).

Fixpoint step {A} (p : proc W F A) (w : W) : res ((A + proc W F A) * W) :=
  match p with
  | Ret a => Ok (inl a, w)
  | Atom m =>
      match m w with Ok (a, w') => Ok (inl a, w') | Err e => Err e end
  | Bind m f =>
      match step m w with
      | Ok (inl b, w') => Ok (inr (f b), w')
      | Ok (inr m', w') => Ok (inr (Bind m' f), w')
      | Err e => Err e
      end
  | Loop body f =>
      Ok (inr (Bind body (fun o => match o with None => Loop body f | Some b => f b end)), w)
  | Call g a k => Ok (inr (Bind (code g a) (fun _ => k)), w)
  end.

(** ** Running all threads *)

(** [cpu w] is the thread on whose stack the processor runs, [start] the
    code SWITCH enters for a thread that has not run yet. *)
Context (cpu : W -> Z) (start : Z -> W -> res (proc W F unit)).

Record config := mkConfig { kern : W; stacks : gmap Z (proc W F unit) }.

Definition running (c : config) : res (proc W F unit) :=
  match stacks c !! cpu (kern c) with
  | Some p => Ok p
  | None => start (cpu (kern c)) (kern c)
  end.

(** One step of the running thread.  A thread whose root frame returns
    has no code left; executing on is a fault. *)
Definition mstep (c : config) : res config :=
  p ← running c;
  match p with
  | Ret _ => Err MemFault
  | _ =>
      r ← step p (kern c);
      let p' := match fst r with inr p' => p' | inl a => Ret a end in
      Ok (mkConfig (snd r) (<[cpu (kern c) := p']> (stacks c)))
  end.

Fixpoint msteps (n : nat) (c : config) : res config :=
  match n with O => Ok c | S n => c' ← mstep c; msteps n c' end.
End Exec.
Arguments mkConfig {W F}.
Arguments kern {W F}.
Arguments stacks {W F}.

(** ** The logic *)

Section Logic.
Context {W F : Type} (code : F -> Z -> proc W F unit) (cpu : W -> Z).
(** [always] holds after every step; [inv] when the processor changes
    hands; [rely t w w'] is what the threads other than [t] keep. *)
Context (bad : err -> bool) (always : Z -> W -> Prop) (inv : W -> Prop) (rely : Z -> W -> W -> Prop).

Definition guarantee (t : Z) (w w' : W) : Prop := inv w' /\ forall u, u <> t -> rely u w w'.

(** [wp n t w0 p Q w]: thread [t], which got the processor in [w0], runs
    [p] from [w] for [n] steps without error and keeps its guarantee at
    each switch; when [p] returns, [Q] holds with the steps left. *)
Fixpoint wp (n : nat) (t : Z) {A} (w0 : W) (p : proc W F A) (Q : nat -> W -> A -> W -> Prop) (w : W) : Prop :=
  match n with
  | O => True
  | S n =>
      match step code p w with
      | Err e => bad e = false
      | Ok (r, w') =>
          let cont v0 v := match r with inl a => Q n v0 a v | inr p' => wp n t v0 p' Q v end in
          if decide (cpu w' = t) then always t w' /\ cont w0 w'
          else guarantee t w0 w' /\ forall w'', cpu w'' = t -> inv w'' -> rely t w' w'' -> cont w'' w''
      end
  end.

Lemma wp_ret n t {A} w0 (a : A) Q w :
  cpu w = t -> always t w -> (forall m, (m <= n)%nat -> Q m w0 a w) -> wp n t w0 (Ret a) Q w.
Proof.
  intros Hc Ha HQ. destruct n as [|n]; [done|]. cbn. rewrite decide_True by done. split; [done|].
  apply HQ. lia.
Qed.

Lemma wp_atom n t {A} w0 (m : M W A) Q w :
  run_to m w (fun a w' => cpu w' = t /\ always t w' /\ forall k, (k <= n)%nat -> Q k w0 a w') ->
  wp n t w0 (Atom m) Q w.
Proof.
  intros (a & w' & Hm & Hc & Ha & HQ). destruct n as [|n]; [done|]. cbn. rewrite Hm.
  rewrite decide_True by done. split; [done|]. apply HQ. lia.
Qed.

Lemma wp_fail n t {A} w0 (m : M W A) Q w e :
  m w = Err e -> bad e = false -> wp n t w0 (Atom m) Q w.
Proof. intros Hm He. destruct n as [|n]; [done|]. cbn. by rewrite Hm. Qed.

(** The step that gives the processor away. *)
Lemma wp_switch n t {A} w0 (m : M W A) Q w a w' :
  m w = Ok (a, w') -> cpu w' <> t -> guarantee t w0 w' ->
  (forall k w'', (k <= n)%nat -> cpu w'' = t -> inv w'' -> rely t w' w'' -> Q k w'' a w'') ->
  wp n t w0 (Atom m) Q w.
Proof.
  intros Hm Hc Hg HQ. destruct n as [|n]; [done|]. cbn. rewrite Hm. rewrite decide_False by done.
  split; [done|]. intros w'' H1 H2 H3. apply HQ; [lia|done..].
Qed.

Lemma wp_bind n t {A B} w0 (m : proc W F B) (f : B -> proc W F A) Q w :
  wp n t w0 m (fun k v0 b v => wp k t v0 (f b) Q v) w -> wp n t w0 (Bind m f) Q w.
Proof.
  revert w0 m w. induction n as [|n IH]; intros w0 m w H; [done|]. cbn in H |- *.
  destruct (step code m w) as [[[b|m'] w']|e]; [| |done].
  - exact H.
  - destruct (decide (cpu w' = t)).
    + destruct H as [Ha H]. split; [done|]. by apply IH.
    + destruct H as [Hg H]. split; [done|]. intros w'' H1 H2 H3. apply IH. by apply H.
Qed.

Lemma wp_call n t {A} w0 g a (k : proc W F A) Q w :
  cpu w = t -> always t w ->
  (forall m, (m < n)%nat -> wp m t w0 (code g a) (fun k' v0 _ v => wp k' t v0 k Q v) w) ->
  wp n t w0 (Call g a k) Q w.
Proof.
  intros Hc Ha H. destruct n as [|n]; [done|]. cbn. rewrite decide_True by done. split; [done|].
  apply wp_bind, H. lia.
Qed.

Lemma wp_mono n t {A} w0 (p : proc W F A) (P Q : nat -> W -> A -> W -> Prop) w :
  wp n t w0 p P w -> (forall k u0 a u, (k < n)%nat -> P k u0 a u -> Q k u0 a u) -> wp n t w0 p Q w.
Proof.
  revert w0 p w. induction n as [|n IH]; intros w0 p w H HP; [done|]. cbn in H |- *.
  destruct (step code p w) as [[[b|m'] w']|e]; [| |done]; destruct (decide (cpu w' = t)).
  - destruct H. split; [done|]. by apply HP; [lia|].
  - destruct H as [Hg H]. split; [done|]. intros w'' H1 H2 H3. apply HP; [lia|]. by apply H.
  - destruct H. split; [done|]. eapply IH; [done|]. intros k u0 o u Hk. apply HP. lia.
  - destruct H as [Hg H]. split; [done|]. intros w'' H1 H2 H3. eapply IH; [by apply H|].
    intros k u0 o u Hk. apply HP. lia.
Qed.

(** Loops: the invariant may depend on where the segment started. *)
Lemma wp_loop n t {A B} w0 (body : proc W F (option B)) (f : B -> proc W F A) Q w (I : W -> W -> Prop) :
  I w0 w ->
  (forall v0 v, I v0 v -> cpu v = t /\ always t v) ->
  (forall m v0 v, (m <= n)%nat -> I v0 v ->
     wp m t v0 body (fun k u0 o u =>
       match o with None => I u0 u | Some b => wp k t u0 (f b) Q u end) v) ->
  wp n t w0 (Loop body f) Q w.
Proof.
  intros HI Hcpu Hbody. revert w0 w HI. induction n as [n IH] using lt_wf_ind. intros w0 w HI.
  destruct n as [|n]; [done|]. cbn. destruct (Hcpu w0 w HI). rewrite decide_True by done. split; [done|].
  apply wp_bind. eapply wp_mono; [apply (Hbody n w0 w); [lia|done]|]. intros k u0 [b|] u Hk H1; [done|].
  apply IH; [lia| |done]. intros m v0 v Hm. apply Hbody. lia.
Qed.

Lemma wp_while n t w0 (body : proc W F bool) Q w (I : W -> W -> Prop) :
  I w0 w ->
  (forall v0 v, I v0 v -> cpu v = t /\ always t v) ->
  (forall m v0 v, (m <= n)%nat -> I v0 v ->
     wp m t v0 body (fun k u0 (c : bool) u => cpu u = t /\ always t u /\
       if c then I u0 u else forall k', (k' <= k)%nat -> Q k' u0 tt u) v) ->
  wp n t w0 (While body) Q w.
Proof.
  intros HI Hcpu Hbody. apply (wp_loop _ _ _ _ _ _ _ I HI Hcpu). intros m v0 v Hm Hv.
  apply wp_bind. eapply wp_mono; [by apply Hbody|]. intros k u0 [] u Hk (H1 & H2 & H3).
  - apply wp_ret; [done|done|]. intros k' _. exact H3.
  - apply wp_ret; [done|done|]. intros k' Hk'. apply wp_ret; [done|done|]. intros k'' Hk''.
    apply H3. lia.
Qed.
End Logic.

(** ** Soundness *)

Section Sound.
Context {W F : Type} (code : F -> Z -> proc W F unit) (cpu : W -> Z) (start : Z -> W -> res (proc W F unit)).
Context (bad : err -> bool) (always : Z -> W -> Prop) (inv : W -> Prop) (rely : Z -> W -> W -> Prop).
Context (rely_refl : forall t w, rely t w w) (rely_trans : forall t w1 w2 w3, rely t w1 w2 -> rely t w2 w3 -> rely t w1 w3).

(** Thread [t] never returns from its root frame. *)
Definition never (n : nat) (v0 : W) (a : unit) (v : W) : Prop := False.

#[local] Notation WP := (wp code cpu bad always inv rely).

(** A thread that gets the processor for the first time can start. *)
Context (main : Z) (start_ok : forall w, inv w -> cpu w <> main ->
  exists p, start (cpu w) w = Ok p /\ forall n, WP n (cpu w) w p never w).

(** What is known of a machine with [n] steps to go: the thread that runs
    is safe, and so will be each other one when it gets the processor. *)
Definition good (n : nat) (c : config (W := W) (F := F)) : Prop := exists w0,
  (exists p, running cpu start c = Ok p /\ WP n (cpu (kern c)) w0 p never (kern c)) /\
  is_Some (stacks c !! main) /\
  forall u p, u <> cpu (kern c) -> stacks c !! u = Some p ->
    exists wu, rely u wu w0 /\
      forall w'', cpu w'' = u -> inv w'' -> rely u wu w'' -> WP n u w'' p never w''.

Lemma wp_down n m t {A} w0 (p : proc W F A) Q w :
  (forall k k' v0 a v, (k <= k')%nat -> Q k' v0 a v -> Q k v0 a v) ->
  (m <= n)%nat -> WP n t w0 p Q w -> WP m t w0 p Q w.
Proof.
  intros HQ. revert n w0 p w. induction m as [|m IH]; intros [|n] w0 p w Hm H; [done|done|lia|].
  cbn in H |- *. destruct (step code p w) as [[[b|m'] w']|e]; [| |done]; destruct (decide (cpu w' = t)).
  - destruct H. split; [done|]. apply (HQ _ n); [lia|done].
  - destruct H as [Hg H]. split; [done|]. intros w'' H1 H2 H3. apply (HQ _ n); [lia|by apply H].
  - destruct H. split; [done|]. apply (IH n); [lia|done].
  - destruct H as [Hg H]. split; [done|]. intros w'' H1 H2 H3. apply (IH n); [lia|by apply H].
Qed.

Lemma mstep_not_ret c p :
  running cpu start c = Ok p -> (forall a, p <> Ret a) ->
  mstep code cpu start c =
    (r ← step code p (kern c);
     Ok (mkConfig (snd r) (<[cpu (kern c) := match fst r with inr p' => p' | inl a => Ret a end]> (stacks c)))).
Proof. intros Hp Hr. unfold mstep. rewrite Hp. cbn [mbind res_bind]. destruct p; done || by destruct (Hr a). Qed.

Lemma wp_never_ret n t w0 a w : WP (S n) t w0 (Ret a) never w -> cpu w = t -> False.
Proof. cbn. intros H Ht. rewrite decide_True in H by done. by destruct H. Qed.

Definition step_ok (n : nat) (c : config (W := W) (F := F)) : Prop :=
  match mstep code cpu start c with
  | Err e => bad e = false
  | Ok c' => good n c' /\ (cpu (kern c') = cpu (kern c) -> always (cpu (kern c)) (kern c')) /\
      (cpu (kern c') <> cpu (kern c) -> inv (kern c'))
  end.

(** One step of a good machine: it goes on, or stops without a bad error. *)
Lemma mstep_good n c : good (S (S n)) c -> step_ok (S n) c.
Proof.
  intros (w0 & (p & Hp & Hwp) & Hmain & Hothers). set (t := cpu (kern c)) in *. unfold step_ok.
  rewrite (mstep_not_ret c p Hp) by (intros a ->; by eapply wp_never_ret).
  fold t. cbn in Hwp. destruct (step code p (kern c)) as [[r w']|e]; [|done]. cbn [mbind res_bind fst snd].
  set (p' := match r with inr p' => p' | inl a => Ret a end).
  assert (Hdown : forall u q v0 v, WP (S (S n)) u v0 q never v -> WP (S n) u v0 q never v).
  { intros u q v0 v H. by apply (wp_down (S (S n)) (S n)); [|lia|]. }
  assert (Hstk : forall (q : proc W F unit), is_Some (<[t := q]> (stacks c) !! main)).
  { intros q. destruct (decide (main = t)) as [->|]; [by rewrite lookup_insert_eq|by rewrite lookup_insert_ne]. }
  destruct (decide (cpu w' = t)) as [Ht|Ht].
  - destruct Hwp as [Ha Hcont]. destruct r as [[]|q]; [by destruct Hcont|]. split; [|done].
    exists w0. cbn. unfold running. cbn. rewrite Ht. split; [exists q; by rewrite lookup_insert_eq|].
    split; [apply Hstk|]. intros u q' Hu Hq. rewrite lookup_insert_ne in Hq by done.
    destruct (Hothers u q' Hu Hq) as (wu & Hr & H). exists wu. split; [done|].
    intros w'' H1 H2 H3. by apply Hdown, H.
  - destruct Hwp as [[Hinv Hg] Hcont]. split; [|done]. exists w'. cbn [kern stacks]. split; [|split; [apply Hstk|]].
    + unfold running. cbn [kern stacks]. rewrite lookup_insert_ne by done.
      destruct (stacks c !! cpu w') as [q|] eqn:Hq.
      * exists q. split; [done|]. destruct (Hothers _ q Ht Hq) as (wu & Hr & H). apply Hdown, H; [done|done|].
        by eapply rely_trans; [exact Hr|apply Hg].
      * destruct (start_ok w') as (q & Hs & Hq'); [done|intros Hm; rewrite Hm in Hq; by destruct Hmain; congruence|].
        by exists q.
    + intros u q Hu Hq. destruct (decide (u = t)) as [->|Hne].
      * rewrite lookup_insert_eq in Hq. injection Hq as <-. exists w'. split; [apply rely_refl|].
        intros w'' H1 H2 H3. specialize (Hcont w'' H1 H2 H3). unfold p'. by destruct r as [[]|q].
      * rewrite lookup_insert_ne in Hq by done. destruct (Hothers u q Hne Hq) as (wu & Hr & H). exists wu.
        split; [by eapply rely_trans; [exact Hr|apply Hg]|]. intros w'' H1 H2 H3. by apply Hdown, H.
Qed.

(** What holds after every step, whoever runs next. *)
Context (reach : W -> Prop) (always_reach : forall w, always (cpu w) w -> reach w)
  (inv_reach : forall w, inv w -> reach w).

Lemma msteps_good n c :
  (forall k, good k c) -> reach (kern c) ->
  match msteps code cpu start n c with
  | Err e => bad e = false
  | Ok c' => (forall k, good k c') /\ reach (kern c')
  end.
Proof.
  revert c. induction n as [|n IH]; intros c H Hre; cbn [msteps]; [done|].
  assert (Hs : forall k, step_ok (S k) c) by (intros k; apply mstep_good, H).
  unfold step_ok in Hs. destruct (mstep code cpu start c) as [c'|e]; cbn [mbind res_bind].
  - apply IH.
    + intros k. destruct (Hs k) as [H' _]. destruct H' as (w0 & (p & Hp & Hw) & Hm & Ho).
      exists w0. split; [exists p; split; [done|]|split; [done|]].
      * by apply (wp_down (S k) k); [|lia|].
      * intros u q Hu Hq. destruct (Ho u q Hu Hq) as (wu & Hr & H2). exists wu. split; [done|].
        intros w'' H3 H4 H5. by apply (wp_down (S k) k); [|lia|apply H2].
    + destruct (Hs 0%nat) as (_ & Ha & Hi). destruct (decide (cpu (kern c') = cpu (kern c))) as [E|E].
      * apply always_reach. rewrite E. by apply Ha.
      * by apply inv_reach, Hi.
  - exact (Hs 0%nat).
Qed.

(** The machine with one verified thread that forks verified threads never
    stops with a bad error, and [reach] holds in all its states. *)
Lemma machine_safe w p n :
  cpu w = main -> reach w -> (forall k, WP k main w p never w) ->
  match msteps code cpu start n (mkConfig w {[main := p]}) with
  | Err e => bad e = false
  | Ok c => reach (kern c)
  end.
Proof.
  intros Hc Hre Hwp. pose proof (msteps_good n (mkConfig w {[main := p]})) as H.
  destruct (msteps code cpu start n _) as [c|e]; apply H; try done; clear H; intros k; exists w;
    cbn [kern stacks]; unfold running; cbn [kern stacks]; rewrite Hc, lookup_singleton_eq.
  - split; [by exists p|]. split; [done|]. intros u q Hu Hq. by rewrite lookup_singleton_ne in Hq.
  - split; [by exists p|]. split; [done|]. intros u q Hu Hq. by rewrite lookup_singleton_ne in Hq.
Qed.
End Sound.
