(* ===== verification/Kernel.v ===== *)
(** * The kernel's state; machine/interrupt, threads/{scheduler,thread},
    machine/{timer,stats}

    One record holds the global variables of system.cc and every object of
    the thread system, by address.  Code that cannot lose the processor is
    a computation of State.v on it; code that can is a [proc].

    Code pointers are the constructors of [VoidFunctionPtr]; [User f] are
    the functions that client code forks. *)

From stdpp Require Import base list numbers gmap.
From S2P Require Import Prelude Arrays State Proc List Machine.

(** ** Data *)

Inductive IntStatus := IntOff | IntOn.
Inductive IntType := TimerInt | DiskInt | ConsoleWriteInt | ConsoleReadInt | NetworkSendInt | NetworkRecvInt.
Inductive ThreadStatus := JUST_CREATED | RUNNING | READY | BLOCKED.

#[export] Instance IntStatus_eq_dec : EqDecision IntStatus.
Proof. solve_decision. Defined.
#[export] Instance IntType_eq_dec : EqDecision IntType.
Proof. solve_decision. Defined.
#[export] Instance ThreadStatus_eq_dec : EqDecision ThreadStatus.
Proof. solve_decision. Defined.

(** The functions that are called through pointers.  [RequestDone] stands
    for the completion handlers of the synchronous devices, whose argument
    is here the semaphore they signal. *)
Inductive VoidFunctionPtr :=
  | OneTick_ | InterruptEnable | ThreadFinish
  | TimerHandler | TimerInterruptHandler | RequestDone
  | User (f : Z).

Record PendingInterrupt := mkPI {
  handler : VoidFunctionPtr;
  arg : Z;
  when : Z;
  type : IntType
}.

(** Constants of stats.h and thread.cc. *)
Definition UserTick : Z := 1.
Definition SystemTick : Z := 10.
Definition TimerTicks : Z := 100.
Definition STACK_FENCEPOST : Z := 0xdeadbeef.

Record Statistics := mkStats {
  totalTicks : Z;
  idleTicks : Z;
  systemTicks : Z;
  userTicks : Z;
  numDiskReads : Z;
  numDiskWrites : Z;
  numConsoleCharsRead : Z;
  numConsoleCharsWritten : Z;
  numPageFaults : Z;
  numPacketsSent : Z;
  numPacketsRecvd : Z
}.

Definition set_totalTicks (v : Z) (r : Statistics) : Statistics :=
  mkStats v (idleTicks r) (systemTicks r) (userTicks r) (numDiskReads r) (numDiskWrites r) (numConsoleCharsRead r) (numConsoleCharsWritten r) (numPageFaults r) (numPacketsSent r) (numPacketsRecvd r).
Definition set_idleTicks (v : Z) (r : Statistics) : Statistics :=
  mkStats (totalTicks r) v (systemTicks r) (userTicks r) (numDiskReads r) (numDiskWrites r) (numConsoleCharsRead r) (numConsoleCharsWritten r) (numPageFaults r) (numPacketsSent r) (numPacketsRecvd r).
Definition set_systemTicks (v : Z) (r : Statistics) : Statistics :=
  mkStats (totalTicks r) (idleTicks r) v (userTicks r) (numDiskReads r) (numDiskWrites r) (numConsoleCharsRead r) (numConsoleCharsWritten r) (numPageFaults r) (numPacketsSent r) (numPacketsRecvd r).
Definition set_userTicks (v : Z) (r : Statistics) : Statistics :=
  mkStats (totalTicks r) (idleTicks r) (systemTicks r) v (numDiskReads r) (numDiskWrites r) (numConsoleCharsRead r) (numConsoleCharsWritten r) (numPageFaults r) (numPacketsSent r) (numPacketsRecvd r).
Definition set_numDiskReads (v : Z) (r : Statistics) : Statistics :=
  mkStats (totalTicks r) (idleTicks r) (systemTicks r) (userTicks r) v (numDiskWrites r) (numConsoleCharsRead r) (numConsoleCharsWritten r) (numPageFaults r) (numPacketsSent r) (numPacketsRecvd r).
Definition set_numDiskWrites (v : Z) (r : Statistics) : Statistics :=
  mkStats (totalTicks r) (idleTicks r) (systemTicks r) (userTicks r) (numDiskReads r) v (numConsoleCharsRead r) (numConsoleCharsWritten r) (numPageFaults r) (numPacketsSent r) (numPacketsRecvd r).
Definition set_numConsoleCharsRead (v : Z) (r : Statistics) : Statistics :=
  mkStats (totalTicks r) (idleTicks r) (systemTicks r) (userTicks r) (numDiskReads r) (numDiskWrites r) v (numConsoleCharsWritten r) (numPageFaults r) (numPacketsSent r) (numPacketsRecvd r).
Definition set_numConsoleCharsWritten (v : Z) (r : Statistics) : Statistics :=
  mkStats (totalTicks r) (idleTicks r) (systemTicks r) (userTicks r) (numDiskReads r) (numDiskWrites r) (numConsoleCharsRead r) v (numPageFaults r) (numPacketsSent r) (numPacketsRecvd r).
Definition set_numPageFaults (v : Z) (r : Statistics) : Statistics :=
  mkStats (totalTicks r) (idleTicks r) (systemTicks r) (userTicks r) (numDiskReads r) (numDiskWrites r) (numConsoleCharsRead r) (numConsoleCharsWritten r) v (numPacketsSent r) (numPacketsRecvd r).
Definition set_numPacketsSent (v : Z) (r : Statistics) : Statistics :=
  mkStats (totalTicks r) (idleTicks r) (systemTicks r) (userTicks r) (numDiskReads r) (numDiskWrites r) (numConsoleCharsRead r) (numConsoleCharsWritten r) (numPageFaults r) v (numPacketsRecvd r).
Definition set_numPacketsRecvd (v : Z) (r : Statistics) : Statistics :=
  mkStats (totalTicks r) (idleTicks r) (systemTicks r) (userTicks r) (numDiskReads r) (numDiskWrites r) (numConsoleCharsRead r) (numConsoleCharsWritten r) (numPageFaults r) (numPacketsSent r) v.

Definition Statistics_new : Statistics := mkStats 0 0 0 0 0 0 0 0 0 0 0.

(** The stack is kept as its lowest word, the only one the code reads; the
    saved machine state as the procedure StackAllocate stores in it. *)
Record Thread := mkThread {
  stack : option Z;
  machineState : option (VoidFunctionPtr * Z);
  tstatus : ThreadStatus;
  userRegisters : list Z;
  space : option Z
}.

Definition set_stack (v : option Z) (r : Thread) : Thread :=
  mkThread v (machineState r) (tstatus r) (userRegisters r) (space r).
Definition set_machineState (v : option (VoidFunctionPtr * Z)) (r : Thread) : Thread :=
  mkThread (stack r) v (tstatus r) (userRegisters r) (space r).
Definition set_tstatus (v : ThreadStatus) (r : Thread) : Thread :=
  mkThread (stack r) (machineState r) v (userRegisters r) (space r).
Definition set_userRegisters (v : list Z) (r : Thread) : Thread :=
  mkThread (stack r) (machineState r) (tstatus r) v (space r).
Definition set_space (v : option Z) (r : Thread) : Thread :=
  mkThread (stack r) (machineState r) (tstatus r) (userRegisters r) v.

Record Timer := mkTimer {
  randomize : bool;
  thandler : VoidFunctionPtr;
  targ : Z
}.

Definition set_randomize (v : bool) (r : Timer) : Timer :=
  mkTimer v (thandler r) (targ r).
Definition set_thandler (v : VoidFunctionPtr) (r : Timer) : Timer :=
  mkTimer (randomize r) v (targ r).
Definition set_targ (v : Z) (r : Timer) : Timer :=
  mkTimer (randomize r) (thandler r) v.

Record AddrSpace := mkSpace {
  pageTable_ : list TranslationEntry;
  numPages : Z
}.

Definition set_pageTable_ (v : list TranslationEntry) (r : AddrSpace) : AddrSpace :=
  mkSpace v (numPages r).
Definition set_numPages (v : Z) (r : AddrSpace) : AddrSpace :=
  mkSpace (pageTable_ r) v.

Section Kernel.
Context {L : Type -> Type} `{!ListOps L}.

Record Interrupt := mkInt {
  level : IntStatus;
  pending : L PendingInterrupt;
  inHandler : bool;
  yieldOnReturn : bool;
  mstatus : MachineStatus
}.

Definition set_level (v : IntStatus) (r : Interrupt) : Interrupt :=
  mkInt v (pending r) (inHandler r) (yieldOnReturn r) (mstatus r).
Definition set_pending (v : L PendingInterrupt) (r : Interrupt) : Interrupt :=
  mkInt (level r) v (inHandler r) (yieldOnReturn r) (mstatus r).
Definition set_inHandler (v : bool) (r : Interrupt) : Interrupt :=
  mkInt (level r) (pending r) v (yieldOnReturn r) (mstatus r).
Definition set_yieldOnReturn (v : bool) (r : Interrupt) : Interrupt :=
  mkInt (level r) (pending r) (inHandler r) v (mstatus r).
Definition set_mstatus (v : MachineStatus) (r : Interrupt) : Interrupt :=
  mkInt (level r) (pending r) (inHandler r) (yieldOnReturn r) v.

Record Semaphore := mkSem {
  value : Z;
  queue : L Z
}.

Definition set_value (v : Z) (r : Semaphore) : Semaphore :=
  mkSem v (queue r).
Definition set_queue (v : L Z) (r : Semaphore) : Semaphore :=
  mkSem (value r) v.

Record Lock := mkLock {
  heldThread : option Z
}.

Definition set_heldThread (v : option Z) (r : Lock) : Lock :=
  mkLock v.

Record Condition := mkCond {
  cqueue : L Z
}.

Definition set_cqueue (v : L Z) (r : Condition) : Condition :=
  mkCond v.

Record SynchList := mkSL {
  list_ : L Z;
  lock : Z;
  listEmpty : Z
}.

Definition set_list_ (v : L Z) (r : SynchList) : SynchList :=
  mkSL v (lock r) (listEmpty r).
Definition set_lock (v : Z) (r : SynchList) : SynchList :=
  mkSL (list_ r) v (listEmpty r).
Definition set_listEmpty (v : Z) (r : SynchList) : SynchList :=
  mkSL (list_ r) (lock r) v.

(** The global variables of system.cc and the objects; [cpu] is the thread
    on whose stack the processor runs, [rand] the host's random numbers. *)
Record Kernel := mkKernel {
  threads : gmap Z Thread;
  nextThread : Z;
  currentThread : Z;
  threadToBeDestroyed : option Z;
  cpu : Z;
  readyList : L Z;
  interrupt : Interrupt;
  stats : Statistics;
  timers : gmap Z Timer;
  rand : nat -> Z;
  nrand : nat;
  machine : option Machine;
  spaces : gmap Z AddrSpace;
  semaphores : gmap Z Semaphore;
  locks : gmap Z Lock;
  conditions : gmap Z Condition;
  synchlists : gmap Z SynchList
}.

Definition set_threads (v : gmap Z Thread) (r : Kernel) : Kernel :=
  mkKernel v (nextThread r) (currentThread r) (threadToBeDestroyed r) (cpu r) (readyList r) (interrupt r) (stats r) (timers r) (rand r) (nrand r) (machine r) (spaces r) (semaphores r) (locks r) (conditions r) (synchlists r).
Definition set_nextThread (v : Z) (r : Kernel) : Kernel :=
  mkKernel (threads r) v (currentThread r) (threadToBeDestroyed r) (cpu r) (readyList r) (interrupt r) (stats r) (timers r) (rand r) (nrand r) (machine r) (spaces r) (semaphores r) (locks r) (conditions r) (synchlists r).
Definition set_currentThread (v : Z) (r : Kernel) : Kernel :=
  mkKernel (threads r) (nextThread r) v (threadToBeDestroyed r) (cpu r) (readyList r) (interrupt r) (stats r) (timers r) (rand r) (nrand r) (machine r) (spaces r) (semaphores r) (locks r) (conditions r) (synchlists r).
Definition set_threadToBeDestroyed (v : option Z) (r : Kernel) : Kernel :=
  mkKernel (threads r) (nextThread r) (currentThread r) v (cpu r) (readyList r) (interrupt r) (stats r) (timers r) (rand r) (nrand r) (machine r) (spaces r) (semaphores r) (locks r) (conditions r) (synchlists r).
Definition set_cpu (v : Z) (r : Kernel) : Kernel :=
  mkKernel (threads r) (nextThread r) (currentThread r) (threadToBeDestroyed r) v (readyList r) (interrupt r) (stats r) (timers r) (rand r) (nrand r) (machine r) (spaces r) (semaphores r) (locks r) (conditions r) (synchlists r).
Definition set_readyList (v : L Z) (r : Kernel) : Kernel :=
  mkKernel (threads r) (nextThread r) (currentThread r) (threadToBeDestroyed r) (cpu r) v (interrupt r) (stats r) (timers r) (rand r) (nrand r) (machine r) (spaces r) (semaphores r) (locks r) (conditions r) (synchlists r).
Definition set_interrupt (v : Interrupt) (r : Kernel) : Kernel :=
  mkKernel (threads r) (nextThread r) (currentThread r) (threadToBeDestroyed r) (cpu r) (readyList r) v (stats r) (timers r) (rand r) (nrand r) (machine r) (spaces r) (semaphores r) (locks r) (conditions r) (synchlists r).
Definition set_stats (v : Statistics) (r : Kernel) : Kernel :=
  mkKernel (threads r) (nextThread r) (currentThread r) (threadToBeDestroyed r) (cpu r) (readyList r) (interrupt r) v (timers r) (rand r) (nrand r) (machine r) (spaces r) (semaphores r) (locks r) (conditions r) (synchlists r).
Definition set_timers (v : gmap Z Timer) (r : Kernel) : Kernel :=
  mkKernel (threads r) (nextThread r) (currentThread r) (threadToBeDestroyed r) (cpu r) (readyList r) (interrupt r) (stats r) v (rand r) (nrand r) (machine r) (spaces r) (semaphores r) (locks r) (conditions r) (synchlists r).
Definition set_rand (v : nat -> Z) (r : Kernel) : Kernel :=
  mkKernel (threads r) (nextThread r) (currentThread r) (threadToBeDestroyed r) (cpu r) (readyList r) (interrupt r) (stats r) (timers r) v (nrand r) (machine r) (spaces r) (semaphores r) (locks r) (conditions r) (synchlists r).
Definition set_nrand (v : nat) (r : Kernel) : Kernel :=
  mkKernel (threads r) (nextThread r) (currentThread r) (threadToBeDestroyed r) (cpu r) (readyList r) (interrupt r) (stats r) (timers r) (rand r) v (machine r) (spaces r) (semaphores r) (locks r) (conditions r) (synchlists r).
Definition set_machine (v : option Machine) (r : Kernel) : Kernel :=
  mkKernel (threads r) (nextThread r) (currentThread r) (threadToBeDestroyed r) (cpu r) (readyList r) (interrupt r) (stats r) (timers r) (rand r) (nrand r) v (spaces r) (semaphores r) (locks r) (conditions r) (synchlists r).
Definition set_spaces (v : gmap Z AddrSpace) (r : Kernel) : Kernel :=
  mkKernel (threads r) (nextThread r) (currentThread r) (threadToBeDestroyed r) (cpu r) (readyList r) (interrupt r) (stats r) (timers r) (rand r) (nrand r) (machine r) v (semaphores r) (locks r) (conditions r) (synchlists r).
Definition set_semaphores (v : gmap Z Semaphore) (r : Kernel) : Kernel :=
  mkKernel (threads r) (nextThread r) (currentThread r) (threadToBeDestroyed r) (cpu r) (readyList r) (interrupt r) (stats r) (timers r) (rand r) (nrand r) (machine r) (spaces r) v (locks r) (conditions r) (synchlists r).
Definition set_locks (v : gmap Z Lock) (r : Kernel) : Kernel :=
  mkKernel (threads r) (nextThread r) (currentThread r) (threadToBeDestroyed r) (cpu r) (readyList r) (interrupt r) (stats r) (timers r) (rand r) (nrand r) (machine r) (spaces r) (semaphores r) v (conditions r) (synchlists r).
Definition set_conditions (v : gmap Z Condition) (r : Kernel) : Kernel :=
  mkKernel (threads r) (nextThread r) (currentThread r) (threadToBeDestroyed r) (cpu r) (readyList r) (interrupt r) (stats r) (timers r) (rand r) (nrand r) (machine r) (spaces r) (semaphores r) (locks r) v (synchlists r).
Definition set_synchlists (v : gmap Z SynchList) (r : Kernel) : Kernel :=
  mkKernel (threads r) (nextThread r) (currentThread r) (threadToBeDestroyed r) (cpu r) (readyList r) (interrupt r) (stats r) (timers r) (rand r) (nrand r) (machine r) (spaces r) (semaphores r) (locks r) (conditions r) v.

Notation KM := (M Kernel).
Notation KP := (proc Kernel VoidFunctionPtr).

(** ** Access to the objects *)

Definition get_thread (t : Z) : KM Thread := k ← gets threads; lift (deref (k !! t)).
Definition upd_thread (t : Z) (f : Thread -> Thread) : KM unit :=
  th ← get_thread t;
  modify (fun k => set_threads (<[t := f th]> (threads k)) k).
Definition upd_interrupt (f : Interrupt -> Interrupt) : KM unit :=
  modify (fun k => set_interrupt (f (interrupt k)) k).
Definition upd_stats (f : Statistics -> Statistics) : KM unit :=
  modify (fun k => set_stats (f (stats k)) k).

(** ** Interrupts, without the handlers *)

Definition ChangeLevel (old now : IntStatus) : KM unit := upd_interrupt (set_level now).

Definition YieldOnReturn : KM unit :=
  k ← gets interrupt;
  _ ← assert (inHandler k);
  upd_interrupt (set_yieldOnReturn true).

Definition Schedule (handler : VoidFunctionPtr) (arg fromNow : Z) (type : IntType) : KM unit :=
  now ← gets (fun k => totalTicks (stats k));
  let when := now + fromNow in
  let toOccur := mkPI handler arg when type in
  _ ← assert (0 <? fromNow);
  upd_interrupt (fun i => set_pending (SortedInsert toOccur when (pending i)) i).

(** ** The scheduler, up to the switch *)

Definition setStatus (st : ThreadStatus) (thread : Z) : KM unit := upd_thread thread (set_tstatus st).

Definition ReadyToRun (thread : Z) : KM unit :=
  _ ← setStatus READY thread;
  modify (fun k => set_readyList (Append thread (readyList k)) k).

Definition FindNextToRun : KM (option Z) :=
  l ← gets readyList;
  let '(t, l) := Remove l in
  _ ← modify (set_readyList l);
  ret t.

Definition CheckOverflow (t : Z) : KM unit :=
  th ← get_thread t;
  match stack th with
  | Some w => assert (w =? STACK_FENCEPOST)
  | None => ret tt
  end.

(** [delete thread]. *)
Definition Thread_delete (t : Z) : KM unit :=
  _ ← get_thread t;
  c ← gets currentThread;
  _ ← assert (negb (t =? c));
  modify (fun k => set_threads (delete t (threads k)) k).

(** ** The user's half of a thread *)

Definition get_machine : KM Machine := o ← gets machine; lift (deref o).

Fixpoint save_regs (n : nat) (i : Z) (m : Machine) (saved : list Z) : res (list Z) :=
  match n with
  | O => Ok saved
  | S n => v ← ReadRegister i m; saved ← aset saved i v; save_regs n (i + 1) m saved
  end.

Definition SaveUserState (t : Z) : KM unit :=
  th ← get_thread t;
  m ← get_machine;
  regs ← lift (save_regs (Z.to_nat NumTotalRegs) 0 m (userRegisters th));
  upd_thread t (set_userRegisters regs).

Fixpoint restore_regs (n : nat) (i : Z) (saved : list Z) (m : Machine) : res Machine :=
  match n with
  | O => Ok m
  | S n => v ← aget saved i; m ← WriteRegister i v m; restore_regs n (i + 1) saved m
  end.

Definition RestoreUserState (t : Z) : KM unit :=
  th ← get_thread t;
  m ← get_machine;
  m ← lift (restore_regs (Z.to_nat NumTotalRegs) 0 (userRegisters th) m);
  modify (set_machine (Some m)).

Definition SaveState (space : Z) : KM unit := ret tt.

Definition RestoreState (space : Z) : KM unit :=
  sp ← gets spaces;
  s ← lift (deref (sp !! space));
  m ← get_machine;
  modify (set_machine (Some (mkMachine (mainMemory m) (registers m) (tlb m)
    (Some (pageTable_ s)) (numPages s) (singleStep m) (runUntilTime m)))).

(** ** The switch *)

Definition SWITCH (oldThread nextThread : Z) : KM unit :=
  _ ← get_thread nextThread;
  modify (set_cpu nextThread).

(** What Run does before and after the switch. *)
Definition Run_before (nextThread : Z) : KM Z :=
  oldThread ← gets currentThread;
  th ← get_thread oldThread;
  _ ← match space th with
      | Some s => _ ← SaveUserState oldThread; SaveState s
      | None => ret tt
      end;
  _ ← CheckOverflow oldThread;
  _ ← modify (set_currentThread nextThread);
  _ ← setStatus RUNNING nextThread;
  ret oldThread.

Definition Run_after : KM unit :=
  d ← gets threadToBeDestroyed;
  _ ← match d with
      | Some t => _ ← Thread_delete t; modify (set_threadToBeDestroyed None)
      | None => ret tt
      end;
  c ← gets currentThread;
  th ← get_thread c;
  match space th with
  | Some s => _ ← RestoreUserState c; RestoreState s
  | None => ret tt
  end.

Definition Run (nextThread : Z) : KP unit :=
  oldThread <~ Atom (Run_before nextThread);;;
  Atom (SWITCH oldThread nextThread);;;
  Atom Run_after.

(** ** Interrupts *)

(** The tick and the possible context switch are reached through the
    pointer: OneTick and Yield call each other. *)
Definition SetLevel (now : IntStatus) : KP IntStatus :=
  old <~ Atom (
    old ← gets (fun k => level (interrupt k));
    i ← gets interrupt;
    _ ← assert (bool_decide (now = IntOff) || negb (inHandler i));
    _ ← ChangeLevel old now;
    ret old);;;
  if bool_decide (now = IntOn) && bool_decide (old = IntOff) then Call OneTick_ 0 (Ret old)
  else Ret old.

Definition Enable : KP unit := _ <~ SetLevel IntOn;;; Ret tt.

(** Taking the next interrupt off the list, or finding that none is due. *)
Definition take_due (advanceClock : bool) : KM (option PendingInterrupt) :=
  i ← gets interrupt;
  _ ← assert (bool_decide (level i = IntOff));
  let '(r, p) := SortedRemove (pending i) in
  _ ← upd_interrupt (set_pending p);
  match r with
  | None => ret None
  | Some (toOccur, when) =>
      now ← gets (fun k => totalTicks (stats k));
      let put_back := upd_interrupt (fun i => set_pending (SortedInsert toOccur when (pending i)) i) in
      let late := (now <? when) in
      if late && negb advanceClock then
        _ ← put_back; ret None
      else
        _ ← (if late then
               upd_stats (fun s => set_totalTicks when (set_idleTicks (idleTicks s + (when - now)) s))
             else ret tt);
        if bool_decide (mstatus i = IdleMode) && bool_decide (type toOccur = TimerInt) && IsEmpty p then
          _ ← put_back; ret None
        else ret (Some toOccur)
  end.

Definition CheckIfDue (advanceClock : bool) : KP bool :=
  old <~ Atom (gets (fun k => mstatus (interrupt k)));;;
  o <~ Atom (take_due advanceClock);;;
  match o with
  | None => Ret false
  | Some toOccur =>
      Atom (
        m ← gets machine;
        _ ← match m with
            | Some m => m ← lift (DelayedLoad 0 0 m); modify (set_machine (Some m))
            | None => ret tt
            end;
        upd_interrupt (fun i => set_inHandler true (set_mstatus SystemMode i)));;;
      Call (handler toOccur) (arg toOccur) (
        Atom (upd_interrupt (fun i => set_inHandler false (set_mstatus old i)));;;
        Ret true)
  end.

Definition Halt : KM unit := fail Exited.

Definition Idle : KP unit :=
  Atom (upd_interrupt (set_mstatus IdleMode));;;
  c <~ CheckIfDue true;;;
  if c : bool then
    While (CheckIfDue false);;;
    Atom (upd_interrupt (fun i => set_mstatus SystemMode (set_yieldOnReturn false i)))
  else Atom Halt.

(** ** Threads *)

Definition StackAllocate (t : Z) (func : VoidFunctionPtr) (a : Z) : KM unit :=
  upd_thread t (fun th => set_machineState (Some (func, a)) (set_stack (Some STACK_FENCEPOST) th)).

Definition Thread_new : KM Z :=
  t ← gets nextThread;
  _ ← modify (fun k => set_nextThread (t + 1)
        (set_threads (<[t := mkThread None None JUST_CREATED (replicate (Z.to_nat NumTotalRegs) 0) None]> (threads k)) k));
  ret t.

Definition Fork (t : Z) (func : VoidFunctionPtr) (a : Z) : KP unit :=
  Atom (StackAllocate t func a);;;
  oldLevel <~ SetLevel IntOff;;;
  Atom (ReadyToRun t);;;
  SetLevel oldLevel;;;
  Ret tt.

Definition this_is_current (t : Z) : KM unit := c ← gets currentThread; assert (t =? c).

Definition Yield (this : Z) : KP unit :=
  oldLevel <~ SetLevel IntOff;;;
  nextThread <~ Atom (_ ← this_is_current this; FindNextToRun);;;
  match nextThread with
  | Some n => Atom (ReadyToRun this);;; Run n
  | None => Ret tt
  end;;;
  SetLevel oldLevel;;;
  Ret tt.

Definition Sleep (this : Z) : KP unit :=
  Atom (
    _ ← this_is_current this;
    i ← gets interrupt;
    _ ← assert (bool_decide (level i = IntOff));
    setStatus BLOCKED this);;;
  Loop
    (nextThread <~ Atom FindNextToRun;;;
     match nextThread with
     | Some n => Ret (Some n)
     | None => Idle;;; Ret None
     end)
    Run.

Definition Finish (this : Z) : KP unit :=
  _ <~ SetLevel IntOff;;;
  Atom (
    _ ← this_is_current this;
    c ← gets currentThread;
    modify (set_threadToBeDestroyed (Some c)));;;
  Sleep this.

(** The first frame of a forked thread (switch.s). *)
Definition ThreadRoot (func : VoidFunctionPtr) (a : Z) : KP unit :=
  Call InterruptEnable 0 (Call func a (Call ThreadFinish 0 (Ret tt))).

(** What SWITCH enters for a thread that has not run yet. *)
Definition start (t : Z) (k : Kernel) : res (KP unit) :=
  th ← deref (threads k !! t);
  fa ← deref (machineState th);
  Ok (ThreadRoot (fst fa) (snd fa)).

Definition OneTick : KP unit :=
  old <~ Atom (
    i ← gets interrupt;
    _ ← (if bool_decide (mstatus i = SystemMode) then
           upd_stats (fun s => set_totalTicks (totalTicks s + SystemTick) (set_systemTicks (systemTicks s + SystemTick) s))
         else
           upd_stats (fun s => set_totalTicks (totalTicks s + UserTick) (set_userTicks (userTicks s + UserTick) s)));
    _ ← ChangeLevel IntOn IntOff;
    ret (mstatus i));;;
  While (CheckIfDue false);;;
  y <~ Atom (
    _ ← ChangeLevel IntOff IntOn;
    i ← gets interrupt;
    ret (yieldOnReturn i));;;
  if y : bool then
    c <~ Atom (
      _ ← upd_interrupt (fun i => set_mstatus SystemMode (set_yieldOnReturn false i));
      gets currentThread);;;
    Yield c;;;
    Atom (upd_interrupt (set_mstatus old))
  else Ret tt.

(** ** The timer *)

Definition Random : KM Z :=
  k ← gets (fun k => (rand k, nrand k));
  _ ← modify (set_nrand (S (snd k)));
  ret (fst k (snd k)).

Definition TimeOfNextInterrupt (t : Timer) : KM Z :=
  if randomize t then r ← Random; ret (1 + Z.rem r (TimerTicks * 2)) else ret TimerTicks.

Definition Timer_new (this : Z) (timerHandler : VoidFunctionPtr) (callArg : Z) (doRandom : bool) : KM unit :=
  let t := mkTimer doRandom timerHandler callArg in
  _ ← modify (fun k => set_timers (<[this := t]> (timers k)) k);
  n ← TimeOfNextInterrupt t;
  Schedule TimerHandler this n TimerInt.

Definition TimerExpired (this : Z) : KP unit :=
  t <~ Atom (
    ts ← gets timers;
    t ← lift (deref (ts !! this));
    n ← TimeOfNextInterrupt t;
    _ ← Schedule TimerHandler this n TimerInt;
    ret t);;;
  Call (thandler t) (targ t) (Ret tt).

Definition TimerInterrupt (dummy : Z) : KM unit :=
  i ← gets interrupt;
  if bool_decide (mstatus i = IdleMode) then ret tt else YieldOnReturn.

(** ** Starting up: the thread system's part of Initialize *)

Definition Interrupt_new : Interrupt := mkInt IntOff (New _) false false SystemMode.
Definition Scheduler_new : L Z := New Z.

(** The globals before Initialize; [rand] is the host's generator. *)
Definition blank (rand : nat -> Z) : Kernel :=
  mkKernel ∅ 1 0 None 0 Scheduler_new Interrupt_new Statistics_new ∅ rand 0 None ∅ ∅ ∅ ∅ ∅.

Definition Initialize (randomYield : bool) : KP unit :=
  Atom (
    _ ← modify (set_stats Statistics_new);
    _ ← modify (set_interrupt Interrupt_new);
    _ ← modify (set_readyList Scheduler_new);
    _ ← (if randomYield then Timer_new 1 TimerInterruptHandler 0 randomYield else ret tt);
    _ ← modify (set_threadToBeDestroyed None);
    t ← Thread_new;
    _ ← modify (fun k => set_cpu t (set_currentThread t k));
    setStatus RUNNING t);;;
  Enable.
End Kernel.
Arguments Interrupt : clear implicits.
Arguments Semaphore : clear implicits.
Arguments Condition : clear implicits.
Arguments SynchList : clear implicits.
Arguments Kernel : clear implicits.
