(* ===== verification/Switch.v ===== *)
(** * threads/switch.{s,h} for the i386: the context switch

    The text of switch.s (the build takes its copy switch.c, for the
    preprocessor) written out as instructions, with the few i386
    instructions they use, and Thread::StackAllocate, which builds the state
    that SWITCH finds in a new thread.  Kernel.v has SWITCH as a change of
    the thread the processor runs; this file is what that rests on.

    Memory is words at multiples of 4; what is not in the map faults.  A
    called C procedure is a parameter that may not return. *)

From stdpp Require Import base list numbers gmap fin_maps fin_map_dom.
From S2P Require Import Prelude Arrays.

(** ** The processor *)

Inductive register := EAX | EBX | ECX | EDX | ESI | EDI | EBP | ESP.

Record Cpu := mkCpu { eax : Z; ebx : Z; ecx : Z; edx : Z; esi : Z; edi : Z; ebp : Z; esp : Z }.

Definition get_reg (r : register) (c : Cpu) : Z :=
  match r with
  | EAX => eax c | EBX => ebx c | ECX => ecx c | EDX => edx c
  | ESI => esi c | EDI => edi c | EBP => ebp c | ESP => esp c
  end.

Definition set_reg (r : register) (v : Z) (c : Cpu) : Cpu :=
  match r with
  | EAX => mkCpu v (ebx c) (ecx c) (edx c) (esi c) (edi c) (ebp c) (esp c)
  | EBX => mkCpu (eax c) v (ecx c) (edx c) (esi c) (edi c) (ebp c) (esp c)
  | ECX => mkCpu (eax c) (ebx c) v (edx c) (esi c) (edi c) (ebp c) (esp c)
  | EDX => mkCpu (eax c) (ebx c) (ecx c) v (esi c) (edi c) (ebp c) (esp c)
  | ESI => mkCpu (eax c) (ebx c) (ecx c) (edx c) v (edi c) (ebp c) (esp c)
  | EDI => mkCpu (eax c) (ebx c) (ecx c) (edx c) (esi c) v (ebp c) (esp c)
  | EBP => mkCpu (eax c) (ebx c) (ecx c) (edx c) (esi c) (edi c) v (esp c)
  | ESP => mkCpu (eax c) (ebx c) (ecx c) (edx c) (esi c) (edi c) (ebp c) v
  end.

Notation memory := (gmap Z Z).

Definition load (a : Z) (m : memory) : res Z := if a mod 4 =? 0 then deref (m !! a) else Err MemFault.
Definition store (a v : Z) (m : memory) : res memory := _ ← load a m; Ok (<[a := v]> m).

(** [%r], [off(%r)] and a variable. *)
Inductive operand := Reg (r : register) | At (off : Z) (r : register) | Var (a : Z).

Inductive instr :=
  | movl (src dst : operand)
  | pushl (r : register)
  | popl (r : register)
  | call (r : register)       (* call *%r *)
  | ret.

Definition State : Type := Cpu * memory.

Definition read (o : operand) (s : State) : res Z :=
  match o with
  | Reg r => Ok (get_reg r (fst s))
  | At off r => load (get_reg r (fst s) + off) (snd s)
  | Var a => load a (snd s)
  end.

Definition write (o : operand) (v : Z) (s : State) : res State :=
  match o with
  | Reg r => Ok (set_reg r v (fst s), snd s)
  | At off r => m ← store (get_reg r (fst s) + off) v (snd s); Ok (fst s, m)
  | Var a => m ← store a v (snd s); Ok (fst s, m)
  end.

Definition push (v : Z) (s : State) : res State :=
  let c := set_reg ESP (esp (fst s) - 4) (fst s) in
  m ← store (esp c) v (snd s); Ok (c, m).

Definition pop (s : State) : res (Z * State) :=
  v ← load (esp (fst s)) (snd s); Ok (v, (set_reg ESP (esp (fst s) + 4) (fst s), snd s)).

(** A call that was made: the procedure and the word that is its first
    argument, if it has one. *)
Definition event : Type := Z * Z.

Section Run.
(** What a procedure does, up to its own ret; the address behind the n-th
    instruction. *)
Context (callee : Z -> State -> option State) (behind : nat -> Z).

(** From the n-th instruction on: the calls made, and where the last ret
    leads, unless a procedure does not return. *)
Fixpoint run (code : list instr) (n : nat) (s : State) : res (list event * option (Z * State)) :=
  match code with
  | [] => Err MemFault
  | movl src dst :: code => v ← read src s; s ← write dst v s; run code (S n) s
  | pushl r :: code => s ← push (get_reg r (fst s)) s; run code (S n) s
  | popl r :: code => p ← pop s; run code (S n) (set_reg r (fst p) (fst (snd p)), snd (snd p))
  | call r :: code =>
      let f := get_reg r (fst s) in
      s ← push (behind n) s;
      arg ← load (esp (fst s) + 4) (snd s);
      match callee f s with
      | None => Ok ([(f, arg)], None)
      | Some s => l ← run code (S n) s; Ok ((f, arg) :: fst l, snd l)
      end
  | ret :: _ => p ← pop s; Ok ([], Some p)
  end.
End Run.

(** ** switch.h *)

Definition _ESP : Z := 0.
Definition _EAX : Z := 4.
Definition _EBX : Z := 8.
Definition _ECX : Z := 12.
Definition _EDX : Z := 16.
Definition _EBP : Z := 20.
Definition _ESI : Z := 24.
Definition _EDI : Z := 28.
Definition _PC : Z := 32.

Definition PCState : Z := _PC / 4 - 1.
Definition InitialPCState : Z := _ESI / 4 - 1.
Definition InitialArgState : Z := _EDX / 4 - 1.
Definition WhenDonePCState : Z := _EDI / 4 - 1.
Definition StartupPCState : Z := _ECX / 4 - 1.

Definition InitialPC : register := ESI.
Definition InitialArg : register := EDX.
Definition WhenDonePC : register := EDI.
Definition StartupPC : register := ECX.

(** ** switch.s *)

Definition ThreadRoot : list instr := [
  pushl EBP;
  movl (Reg ESP) (Reg EBP);
  pushl InitialArg;
  call StartupPC;
  call InitialPC;
  call WhenDonePC;
  (* not reached *)
  movl (Reg EBP) (Reg ESP);
  popl EBP;
  ret].

Definition SWITCH (_eax_save : Z) : list instr := [
  movl (Reg EAX) (Var _eax_save);
  movl (At 4 ESP) (Reg EAX);
  movl (Reg EBX) (At _EBX EAX);
  movl (Reg ECX) (At _ECX EAX);
  movl (Reg EDX) (At _EDX EAX);
  movl (Reg ESI) (At _ESI EAX);
  movl (Reg EDI) (At _EDI EAX);
  movl (Reg EBP) (At _EBP EAX);
  movl (Reg ESP) (At _ESP EAX);
  movl (Var _eax_save) (Reg EBX);
  movl (Reg EBX) (At _EAX EAX);
  movl (At 0 ESP) (Reg EBX);
  movl (Reg EBX) (At _PC EAX);
  movl (At 8 ESP) (Reg EAX);
  movl (At _EAX EAX) (Reg EBX);
  movl (Reg EBX) (Var _eax_save);
  movl (At _EBX EAX) (Reg EBX);
  movl (At _ECX EAX) (Reg ECX);
  movl (At _EDX EAX) (Reg EDX);
  movl (At _ESI EAX) (Reg ESI);
  movl (At _EDI EAX) (Reg EDI);
  movl (At _EBP EAX) (Reg EBP);
  movl (At _ESP EAX) (Reg ESP);
  movl (At _PC EAX) (Reg EAX);
  movl (Reg EAX) (At 4 ESP);
  movl (Var _eax_save) (Reg EAX);
  ret].

(** ** Thread::StackAllocate *)

Definition StackSize : Z := 4 * 1024.
Definition STACK_FENCEPOST : Z := 0xdeadbeef.

(** [machineState[i] = v] of the thread at [t]. *)
Definition set_machineState (t i v : Z) (m : memory) : res memory := store (t + 4 + 4 * i) v m.

(** [stack] is what AllocBoundedArray returns; the others are the addresses
    of the procedures.  [stackTop] is the first word of the object. *)
Definition StackAllocate (t stack threadRoot interruptEnable threadFinish func arg : Z) (m : memory) : res memory :=
  let stackTop := stack + 4 * (StackSize - 4) in
  let stackTop := stackTop - 4 in
  m ← store t stackTop m;
  m ← store stackTop threadRoot m;
  m ← store stack STACK_FENCEPOST m;
  m ← set_machineState t PCState threadRoot m;
  m ← set_machineState t StartupPCState interruptEnable m;
  m ← set_machineState t InitialPCState func m;
  m ← set_machineState t InitialArgState arg m;
  set_machineState t WhenDonePCState threadFinish m.

(** ** Memory *)

(** A word that can be accessed, and one with its value. *)
Definition mapped (m : memory) (a : Z) : Prop := exists v, load a m = Ok v.

Lemma load_stored_eq a v m : mapped m a -> load a (<[a := v]> m) = Ok v.
Proof.
  intros [w H]. unfold load in *. destruct (a mod 4 =? 0); [|done]. by rewrite lookup_insert_eq.
Qed.

Lemma load_stored_ne a b v m : a <> b -> load a (<[b := v]> m) = load a m.
Proof. intros H. unfold load. by rewrite lookup_insert_ne by congruence. Qed.

Lemma store_mapped a v m : mapped m a -> store a v m = Ok (<[a := v]> m).
Proof. intros [w H]. unfold store. by rewrite H. Qed.

Lemma mapped_store a b v m : mapped m a -> mapped (<[b := v]> m) a.
Proof.
  intros H. destruct (decide (a = b)) as [->|Hne]; [exists v; by apply load_stored_eq|].
  destruct H as [w H]. exists w. by rewrite load_stored_ne.
Qed.

Lemma mapped_load a v m : load a m = Ok v -> mapped m a.
Proof. intros H. by exists v. Qed.

(** What SWITCH keeps of a thread: the nine words of the object at [t]. *)
Record saved (m : memory) (t : Z) (c : Cpu) (pc : Z) : Prop := {
  sv_esp : load (t + _ESP) m = Ok (esp c);
  sv_eax : load (t + _EAX) m = Ok (eax c);
  sv_ebx : load (t + _EBX) m = Ok (ebx c);
  sv_ecx : load (t + _ECX) m = Ok (ecx c);
  sv_edx : load (t + _EDX) m = Ok (edx c);
  sv_ebp : load (t + _EBP) m = Ok (ebp c);
  sv_esi : load (t + _ESI) m = Ok (esi c);
  sv_edi : load (t + _EDI) m = Ok (edi c);
  sv_pc : load (t + _PC) m = Ok pc
}.

Definition area (t a : Z) : Prop := t <= a < t + 36.
Definition area_mapped (m : memory) (t : Z) : Prop := forall k, In k [_ESP; _EAX; _EBX; _ECX; _EDX; _EBP; _ESI; _EDI; _PC] -> mapped m (t + k).

Lemma saved_mapped m t c pc : saved m t c pc -> area_mapped m t.
Proof.
  intros [] k Hk. cbn [In] in Hk. destruct Hk as [<-|[<-|[<-|[<-|[<-|[<-|[<-|[<-|[<-|[]]]]]]]]]]; by eapply mapped_load.
Qed.

(** *** Steps of the symbolic execution *)

Ltac offsets := unfold _ESP, _EAX, _EBX, _ECX, _EDX, _EBP, _ESI, _EDI, _PC in *.

Section Switching.
Context (callee : Z -> State -> option State) (behind : nat -> Z) (_eax_save : Z).

(** Which addresses are different: the two objects from each other, from
    the variable, and from the words of the two stacks in use. *)
Record apart (t1 t2 sp sp2 : Z) : Prop := {
  ap_threads : forall j k, 0 <= j < 36 -> 0 <= k < 36 -> t1 + j <> t2 + k;
  ap_var : forall k, 0 <= k < 36 -> t1 + k <> _eax_save /\ t2 + k <> _eax_save;
  ap_sp : forall j k, In j [0; 8] -> 0 <= k < 36 -> t1 + k <> sp + j;
  ap_sp2 : forall j k, In j [0; 4] -> 0 <= k < 36 -> t1 + k <> sp2 + j /\ t2 + k <> sp2 + j;
  ap_sp_var : forall j, In j [0; 4; 8] -> sp + j <> _eax_save;
  ap_sp2_var : forall j, In j [0; 4] -> sp2 + j <> _eax_save
}.

(** Two addresses that [apart] says are different. *)
Ltac differ A1 A2 A3 A4 A5 A6 :=
  solve [ apply A1; done | apply not_eq_sym, A1; done
        | apply A2; done | apply not_eq_sym, A2; done
        | apply A3; [cbn; tauto|done] | apply not_eq_sym, A3; [cbn; tauto|done]
        | apply A4; [cbn; tauto|done] | apply not_eq_sym, A4; [cbn; tauto|done]
        | apply A5; cbn; tauto | apply not_eq_sym, A5; cbn; tauto
        | apply A6; cbn; tauto | apply not_eq_sym, A6; cbn; tauto
        | offsets; lia ].

(** The old thread is in [c] and has called SWITCH; the new one was saved as
    [c2]; its stack has [r2] on top. *)
Lemma SWITCH_run c m t1 t2 ra c2 pc2 r2 n :
  load (esp c + 0) m = Ok ra -> load (esp c + 4) m = Ok t1 -> load (esp c + 8) m = Ok t2 ->
  area_mapped m t1 -> saved m t2 c2 pc2 -> load (esp c2 + 0) m = Ok r2 -> mapped m (esp c2 + 4) -> mapped m _eax_save ->
  apart t1 t2 (esp c) (esp c2) ->
  exists m', run callee behind (SWITCH _eax_save) n (c, m) = Ok ([], Some (r2, (set_reg ESP (esp c2 + 4) c2, m'))) /\
    saved m' t1 c ra /\ load (esp c2 + 4) m' = Ok pc2 /\
    (forall a, ~ area t1 a -> a <> _eax_save -> a <> esp c2 + 4 -> load a m' = load a m) /\
    (forall a, mapped m a -> mapped m' a).
Proof.
  intros Hra H1 H2 Ha1 [] Hr2 Hm2 Hsave [A1 A2 A3 A4 A5 A6].
  assert (Hm1 : forall k, In k [_ESP; _EAX; _EBX; _ECX; _EDX; _EBP; _ESI; _EDI; _PC] -> mapped m (t1 + k)) by exact Ha1.
  unfold SWITCH.
  repeat first
    [ progress cbn [run read write get_reg set_reg fst snd mbind res_bind eax ebx ecx edx esi edi ebp esp]
    | rewrite load_stored_eq by (repeat apply mapped_store; first [exact Hsave|exact Hm2|apply Hm1; cbn; tauto])
    | rewrite load_stored_ne by differ A1 A2 A3 A4 A5 A6
    | rewrite store_mapped by (repeat apply mapped_store; first [exact Hsave|exact Hm2|apply Hm1; cbn; tauto])
    | rewrite H1 | rewrite H2 | rewrite Hra | rewrite sv_esp0 | rewrite sv_eax0 | rewrite sv_ebx0 | rewrite sv_ecx0 | rewrite sv_edx0
    | rewrite sv_ebp0 | rewrite sv_esi0 | rewrite sv_edi0 | rewrite sv_pc0 ].
  unfold pop. cbn [fst snd esp].
  match goal with |- context [load (esp c2) ?M] => replace (load (esp c2) M) with (load (esp c2 + 0) M) by (f_equal; lia) end.
  do 12 (rewrite load_stored_ne by differ A1 A2 A3 A4 A5 A6). rewrite Hr2. cbn [mbind res_bind].
  eexists. split; [done|]. split; [|split; [|split]].
  - split.
    all: repeat first
      [ rewrite load_stored_eq by (repeat apply mapped_store; apply Hm1; cbn; tauto); reflexivity
      | rewrite load_stored_ne by differ A1 A2 A3 A4 A5 A6 ].
  - apply load_stored_eq. by repeat apply mapped_store.
  - intros a Ha Hne1 Hne2. unfold area in Ha. offsets. by rewrite !load_stored_ne by (done || lia).
  - intros a Ha. by repeat apply mapped_store.
Qed.
End Switching.

(** ** A new thread *)

(** The words of the object and of the stack, apart from each other. *)
Record thread_memory (m : memory) (t stack : Z) : Prop := {
  tm_object : area_mapped m t;
  tm_stack : forall i, 0 <= i < StackSize -> mapped m (stack + 4 * i);
  tm_apart : t + 36 <= stack \/ stack + 4 * StackSize <= t
}.

Lemma machineState_slot t i v m : mapped m (t + 4 + 4 * i) -> set_machineState t i v m = Ok (<[t + 4 + 4 * i := v]> m).
Proof. intros H. by apply store_mapped. Qed.

(** The first word of a new stack in use. *)
Definition new_sp (stack : Z) : Z := stack + 4 * (StackSize - 4) - 4.

Lemma StackAllocate_saved m t stack tr ie tf func arg : thread_memory m t stack ->
  exists m' c, StackAllocate t stack tr ie tf func arg m = Ok m' /\
    saved m' t c tr /\ esp c = new_sp stack /\ ecx c = ie /\ esi c = func /\ edx c = arg /\ edi c = tf /\
    load (new_sp stack) m' = Ok tr /\ load stack m' = Ok STACK_FENCEPOST /\
    (forall a, mapped m a -> mapped m' a) /\
    (forall a, ~ area t a -> a <> stack -> a <> new_sp stack -> load a m' = load a m).
Proof.
  intros [Ho Hs Hd]. unfold StackSize in *.
  assert (Hobj : forall k, In k [_ESP; _EAX; _EBX; _ECX; _EDX; _EBP; _ESI; _EDI; _PC] -> mapped m (t + k)) by exact Ho.
  assert (H0 : mapped m t) by (replace t with (t + _ESP) by (offsets; lia); apply Hobj; cbn; tauto).
  assert (Htop : mapped m (new_sp stack)).
  { replace (new_sp stack) with (stack + 4 * 4091) by (unfold new_sp, StackSize; lia). apply Hs. lia. }
  assert (Hbot : mapped m stack) by (replace stack with (stack + 4 * 0) by lia; apply Hs; lia).
  unfold StackAllocate. fold (new_sp stack).
  change PCState with 7. change StartupPCState with 2. change InitialPCState with 5. change InitialArgState with 3. change WhenDonePCState with 6.
  rewrite store_mapped by done. cbn [mbind res_bind]. rewrite store_mapped by by apply mapped_store. cbn [mbind res_bind].
  rewrite store_mapped by by repeat apply mapped_store. cbn [mbind res_bind].
  assert (Hslot : forall i, In i [7; 2; 5; 3; 6] -> In (4 + 4 * i) [_ESP; _EAX; _EBX; _ECX; _EDX; _EBP; _ESI; _EDI; _PC]).
  { intros i Hi. cbn [In] in *. offsets. lia. }
  do 5 (rewrite machineState_slot by (repeat apply mapped_store; rewrite <-Z.add_assoc; apply Hobj, Hslot; cbn; tauto); cbn [mbind res_bind]).
  match goal with |- exists m' c, Ok ?M = _ /\ _ => set (m' := M) end.
  assert (Hmap : forall a, mapped m a -> mapped m' a) by (intros a Ha; unfold m'; by repeat apply mapped_store).
  assert (Hval : forall k, In k [_EAX; _EBX; _EBP] -> exists v, load (t + k) m' = Ok v).
  { intros k Hk. apply Hmap, Hobj. cbn [In] in *. tauto. }
  destruct (Hval _EAX) as [va Ea]; [cbn; tauto|]. destruct (Hval _EBX) as [vb Eb]; [cbn; tauto|]. destruct (Hval _EBP) as [vp Ep]; [cbn; tauto|].
  assert (Hne : new_sp stack <> stack) by (unfold new_sp, StackSize; lia).
  exists m', (mkCpu va vb ie arg func tf vp (new_sp stack)). split; [done|].
  assert (Hload : load (t + _ESP) m' = Ok (new_sp stack) /\ load (t + _ECX) m' = Ok ie /\ load (t + _EDX) m' = Ok arg /\
    load (t + _ESI) m' = Ok func /\ load (t + _EDI) m' = Ok tf /\ load (t + _PC) m' = Ok tr /\
    load (new_sp stack) m' = Ok tr /\ load stack m' = Ok STACK_FENCEPOST).
  { assert (Em : m' = <[t + _EDI := tf]> (<[t + _EDX := arg]> (<[t + _ESI := func]> (<[t + _ECX := ie]> (<[t + _PC := tr]>
      (<[stack := STACK_FENCEPOST]> (<[new_sp stack := tr]> (<[t + _ESP := new_sp stack]> m)))))))).
    { replace (t + _EDI) with (t + 4 + 4 * 6) by (offsets; lia). replace (t + _EDX) with (t + 4 + 4 * 3) by (offsets; lia).
      replace (t + _ESI) with (t + 4 + 4 * 5) by (offsets; lia). replace (t + _ECX) with (t + 4 + 4 * 2) by (offsets; lia).
      replace (t + _PC) with (t + 4 + 4 * 7) by (offsets; lia). replace (t + _ESP) with t by (offsets; lia). done. }
    rewrite Em. clear Em Hval Hslot Hmap. unfold new_sp, StackSize in *. clearbody m'.
    split_and!.
    all: repeat first
      [ rewrite load_stored_eq by (repeat apply mapped_store; first [exact Hbot|exact Htop|apply Hobj; cbn; tauto]); reflexivity
      | rewrite load_stored_ne by (offsets; lia) ]. }
  destruct Hload as (? & ? & ? & ? & ? & ? & ? & ?). split; [by split|]. split_and!; try done.
  intros a Ha Hn1 Hn2. unfold area in Ha. unfold m'. by rewrite !load_stored_ne by (done || lia).
Qed.

(** The calling convention: a procedure that returns has kept these
    registers and popped its return address; one without arguments has kept
    the word behind it. *)
Definition cdecl (callee : Z -> State -> option State) (no_args : Z) : Prop :=
  forall f s s', callee f s = Some s' ->
    ebx (fst s') = ebx (fst s) /\ esi (fst s') = esi (fst s) /\ edi (fst s') = edi (fst s) /\ ebp (fst s') = ebp (fst s) /\
    esp (fst s') = esp (fst s) + 4 /\ (forall a, mapped (snd s) a -> mapped (snd s') a) /\
    (f = no_args -> load (esp (fst s) + 4) (snd s') = load (esp (fst s) + 4) (snd s)).

Lemma push_ok v c m : mapped m (esp c - 4) -> push v (c, m) = Ok (set_reg ESP (esp c - 4) c, <[esp c - 4 := v]> m).
Proof. intros H. unfold push. cbn [fst snd set_reg esp]. by rewrite store_mapped. Qed.

Lemma pushl_run callee behind r code n c m : mapped m (esp c - 4) ->
  run callee behind (pushl r :: code) n (c, m) =
    run callee behind code (S n) (set_reg ESP (esp c - 4) c, <[esp c - 4 := get_reg r c]> m).
Proof. intros H. cbn [run fst]. by rewrite push_ok. Qed.

Lemma movl_run callee behind a b code n c m :
  run callee behind (movl (Reg a) (Reg b) :: code) n (c, m) = run callee behind code (S n) (set_reg b (get_reg a c) c, m).
Proof. done. Qed.

(** One call of ThreadRoot: with [arg] on top of the stack. *)
Lemma call_run callee behind r code n c m f arg w :
  get_reg r c = f -> r <> ESP -> load (esp c) m = Ok arg -> mapped m (esp c - 4) -> w = behind n ->
  run callee behind (call r :: code) n (c, m) =
    match callee f (set_reg ESP (esp c - 4) c, <[esp c - 4 := w]> m) with
    | None => Ok ([(f, arg)], None)
    | Some s => l ← run callee behind code (S n) s; Ok ((f, arg) :: fst l, snd l)
    end.
Proof.
  intros Hr Hne Harg Hm ->. cbn [run fst]. rewrite push_ok by done. cbn [mbind res_bind fst snd set_reg esp].
  rewrite load_stored_ne by lia. rewrite Z.sub_add, Harg. cbn [mbind res_bind]. cbn [fst]. by rewrite Hr.
Qed.

Lemma ThreadRoot_run callee behind c m ie func tf arg :
  cdecl callee ie -> (forall s, callee tf s = None) ->
  ecx c = ie -> esi c = func -> edx c = arg -> edi c = tf ->
  mapped m (esp c - 4) -> mapped m (esp c - 8) -> mapped m (esp c - 12) ->
  exists log x, run callee behind ThreadRoot 0 (c, m) = Ok (log, None) /\
    (log = [(ie, arg)] \/ log = [(ie, arg); (func, arg)] \/ log = [(ie, arg); (func, arg); (tf, x)]) /\
    ((forall s, is_Some (callee ie s)) -> [(ie, arg); (func, arg)] `prefix_of` log /\
     ((forall s, is_Some (callee func s)) -> log = [(ie, arg); (func, arg); (tf, x)])).
Proof.
  intros Hcd Htf <- <- <- <- H4 H8 H12. unfold ThreadRoot. rewrite pushl_run by done.
  rewrite movl_run. cbn [get_reg set_reg eax ebx ecx edx esi edi ebp esp].
  rewrite pushl_run by (cbn [esp]; replace (esp c - 4 - 4) with (esp c - 8) by lia; by apply mapped_store).
  cbn [get_reg set_reg eax ebx ecx edx esi edi ebp esp InitialArg].
  set (c2 := mkCpu _ _ _ _ _ _ _ _). set (m2 := <[_ := edx c]> _).
  assert (Hm : forall a, mapped m a -> mapped m2 a) by (intros a Ha; unfold m2; by repeat apply mapped_store).
  assert (E2 : esp c2 = esp c - 8) by (cbn; lia).
  assert (Harg : load (esp c2) m2 = Ok (edx c)).
  { unfold m2. change (esp c2) with (esp c - 4 - 4). apply load_stored_eq, mapped_store. by replace (esp c - 4 - 4) with (esp c - 8) by lia. }
  assert (H12' : esp c2 - 4 = esp c - 12) by lia.
  rewrite (call_run callee behind StartupPC _ _ c2 m2 (ecx c) (edx c) (behind 3%nat)); [|done|done|done|rewrite H12'; by apply Hm|done].
  destruct (callee (ecx c) _) as [s3|] eqn:E3.
  2:{ exists [(ecx c, edx c)], 0. split; [done|]. split; [by left|]. intros Hsome. exfalso. eapply is_Some_None. rewrite <-E3. apply Hsome. }
  destruct (Hcd _ _ _ E3) as (_ & Hesi3 & Hedi3 & _ & Hesp3 & Hmap3 & Harg3). cbn [fst snd set_reg esp esi edi] in *.
  destruct s3 as [c3 m3]. cbn [fst snd] in *. replace (esp c2 - 4 + 4) with (esp c2) in * by lia.
  rewrite load_stored_ne in Harg3 by lia.
  assert (H12'' : mapped m3 (esp c3 - 4)) by (rewrite Hesp3, H12'; apply Hmap3, mapped_store; by apply Hm).
  rewrite (call_run callee behind InitialPC _ _ c3 m3 (esi c) (edx c) (behind 4%nat)); [|by cbn|done|rewrite Hesp3, Harg3; done|done|done].
  destruct (callee (esi c) _) as [s4|] eqn:E4.
  2:{ exists [(ecx c, edx c); (esi c, edx c)], 0. split; [done|]. split; [by right; left|]. intros _. split; [done|].
      intros Hsome. exfalso. eapply is_Some_None. rewrite <-E4. apply Hsome. }
  destruct (Hcd _ _ _ E4) as (_ & _ & Hedi4 & _ & Hesp4 & Hmap4 & _). cbn [fst snd set_reg esp esi edi] in *.
  destruct s4 as [c4 m4]. cbn [fst snd] in *.
  assert (H8' : mapped m4 (esp c4)) by (rewrite Hesp4; apply Hmap4, mapped_store; rewrite Z.sub_add, Hesp3; apply Hmap3, mapped_store; by exists (edx c)).
  destruct H8' as [x Hx].
  assert (H12c : mapped m4 (esp c4 - 4)) by (rewrite Hesp4; replace (esp c3 - 4 + 4 - 4) with (esp c3 - 4) by lia; apply Hmap4, mapped_store; done).
  rewrite (call_run callee behind WhenDonePC _ _ c4 m4 (edi c) x (behind 5%nat)); [|change (edi c4 = edi c); by rewrite Hedi4, Hedi3|done|done|done|done].
  rewrite Htf. exists [(ecx c, edx c); (esi c, edx c); (edi c, x)], x. split; [done|]. split; [by right; right|].
  intros _. split; [by exists [(edi c, x)]|done].
Qed.

(** ** Properties *)

(** C26: SWITCH is a change of the thread that runs, and gives back what
    it took.  It leads to the word on top of the new thread's stack, with
    all its registers as they were saved, and changes nothing but the old
    thread's object, its own variable and the word behind the one it
    returns through.  When later any thread switches to the old one, whose
    object and stack nobody has touched, SWITCH returns to where the old
    thread called it, with all its registers, as if it had done nothing. *)
Theorem SWITCH_gives_back callee behind v c m t1 t2 ra c2 pc2 r2 n :
  load (esp c + 0) m = Ok ra -> load (esp c + 4) m = Ok t1 -> load (esp c + 8) m = Ok t2 ->
  area_mapped m t1 -> saved m t2 c2 pc2 -> load (esp c2 + 0) m = Ok r2 -> mapped m (esp c2 + 4) -> mapped m v ->
  apart v t1 t2 (esp c) (esp c2) -> esp c <> esp c2 + 4 ->
  exists m', run callee behind (SWITCH v) n (c, m) = Ok ([], Some (r2, (set_reg ESP (esp c2 + 4) c2, m'))) /\
    (forall a, ~ area t1 a -> a <> v -> a <> esp c2 + 4 -> load a m' = load a m) /\
    forall c3 m3 t3 ra3 n3,
      (forall a, area t1 a \/ a = esp c \/ a = esp c + 4 -> load a m3 = load a m') ->
      load (esp c3 + 0) m3 = Ok ra3 -> load (esp c3 + 4) m3 = Ok t3 -> load (esp c3 + 8) m3 = Ok t1 ->
      area_mapped m3 t3 -> mapped m3 v -> apart v t3 t1 (esp c3) (esp c) ->
      exists m4, run callee behind (SWITCH v) n3 (c3, m3) = Ok ([], Some (ra, (set_reg ESP (esp c + 4) c, m4))) /\
        (forall a, ~ area t3 a -> a <> v -> a <> esp c + 4 -> load a m4 = load a m3).
Proof.
  intros Hra H1 H2 Ha1 Hs2 Hr2 Hm2 Hv Hap Hsp.
  destruct (SWITCH_run callee behind v c m t1 t2 ra c2 pc2 r2 n) as (m' & E & Hsv & _ & Hfr & Hmap); try done.
  exists m'. split; [done|]. split; [done|]. intros c3 m3 t3 ra3 n3 Hsame Hra3 H31 H32 Ha3 Hv3 Hap3.
  assert (Harea : forall k, 0 <= k < 36 -> load (t1 + k) m3 = load (t1 + k) m') by (intros k Hk; apply Hsame; left; unfold area; lia).
  assert (Hsv3 : saved m3 t1 c ra).
  { destruct Hsv. split; rewrite Harea by (offsets; lia); done. }
  assert (Htop : load (esp c + 0) m3 = Ok ra).
  { replace (esp c + 0) with (esp c) in * by lia. rewrite Hsame by auto. rewrite Hfr; [done| | |done].
    - intros Ha. unfold area in Ha. apply (ap_sp _ _ _ _ _ Hap 0 (esp c - t1)); [cbn; tauto|lia|lia].
    - pose proof (ap_sp_var _ _ _ _ _ Hap 0). rewrite Z.add_0_r in *. cbn in *. tauto. }
  assert (Harg : mapped m3 (esp c + 4)).
  { unfold mapped. rewrite Hsame by auto. apply Hmap. by exists t1. }
  destruct (SWITCH_run callee behind v c3 m3 t3 t1 ra3 c ra ra n3) as (m4 & E4 & _ & _ & Hfr4 & _); try done. by exists m4.
Qed.

(** C27: a thread made by StackAllocate runs its procedure.  The first
    SWITCH to it, from any thread, leads to ThreadRoot on its own stack,
    above the fencepost, which stays; ThreadRoot calls the procedure that
    enables interrupts, then the procedure of Fork with its argument, then
    ThreadFinish, as far as they return, and makes no other call; nothing
    faults. *)
Theorem new_thread_runs callee behind v t stack tr ie tf func arg m0 c t1 ra n :
  thread_memory m0 t stack -> mapped m0 v -> stack <> v -> ~ area t1 stack ->
  cdecl callee ie -> (forall s, callee tf s = None) -> apart v t1 t (esp c) (new_sp stack) ->
  exists m, StackAllocate t stack tr ie tf func arg m0 = Ok m /\
    (forall a, ~ area t a -> a <> stack -> a <> new_sp stack -> load a m = load a m0) /\
    (load (esp c + 0) m = Ok ra -> load (esp c + 4) m = Ok t1 -> load (esp c + 8) m = Ok t -> area_mapped m t1 ->
     exists s log x, run callee behind (SWITCH v) n (c, m) = Ok ([], Some (tr, s)) /\
       load stack (snd s) = Ok STACK_FENCEPOST /\
       run callee behind ThreadRoot 0 s = Ok (log, None) /\
       (log = [(ie, arg)] \/ log = [(ie, arg); (func, arg)] \/ log = [(ie, arg); (func, arg); (tf, x)]) /\
       ((forall s, is_Some (callee ie s)) -> [(ie, arg); (func, arg)] `prefix_of` log /\
        ((forall s, is_Some (callee func s)) -> log = [(ie, arg); (func, arg); (tf, x)]))).
Proof.
  intros Htm Hv Hsv Hst Hcd Htf Hap.
  destruct (StackAllocate_saved m0 t stack tr ie tf func arg Htm) as (m & c2 & E & Hs2 & Hsp & Hecx & Hesi & Hedx & Hedi & Htop & Hfence & Hmap & Hframe).
  exists m. split; [done|]. split; [done|]. intros Hra H1 H2 Ha1. rewrite <-Hsp in Hap, Htop.
  assert (Hstk : forall i, 0 <= i < StackSize -> mapped m (stack + 4 * i)) by (intros i Hi; by apply Hmap, Htm).
  assert (Hsp4 : mapped m (esp c2 + 4)).
  { replace (esp c2 + 4) with (stack + 4 * 4092) by (rewrite Hsp; unfold new_sp, StackSize; lia). apply Hstk. unfold StackSize. lia. }
  destruct (SWITCH_run callee behind v c m t1 t ra c2 tr tr n) as (m' & Er & _ & _ & Hfr & Hmap'); try done; [by rewrite Z.add_0_r|by apply Hmap|].
  assert (Hslot : forall j, 0 <= j <= 4091 -> mapped m' (stack + 4 * j)) by (intros j Hj; apply Hmap', Hstk; unfold StackSize; lia).
  destruct (ThreadRoot_run callee behind (set_reg ESP (esp c2 + 4) c2) m' ie func tf arg Hcd Htf) as (log & x & Hlog); try done.
  - cbn [set_reg esp]. replace (esp c2 + 4 - 4) with (stack + 4 * 4091) by (rewrite Hsp; unfold new_sp, StackSize; lia). apply Hslot. lia.
  - cbn [set_reg esp]. replace (esp c2 + 4 - 8) with (stack + 4 * 4090) by (rewrite Hsp; unfold new_sp, StackSize; lia). apply Hslot. lia.
  - cbn [set_reg esp]. replace (esp c2 + 4 - 12) with (stack + 4 * 4089) by (rewrite Hsp; unfold new_sp, StackSize; lia). apply Hslot. lia.
  - exists (set_reg ESP (esp c2 + 4) c2, m'), log, x. split; [done|]. split; [|done]. cbn [snd].
    rewrite Hfr; [done|done|done|]. rewrite Hsp. unfold new_sp, StackSize. lia.
Qed.

(** *** An example *)

(** [n] words from address 0. *)
Definition words (n : Z) : memory := gset_to_gmap 0 (list_to_set ((Z.mul 4) <$> seqZ 0 n)).

Lemma words_mapped n a : 0 <= a < 4 * n -> a mod 4 = 0 -> mapped (words n) a.
Proof.
  intros Ha Hm. assert (E : words n !! a = Some 0).
  { apply lookup_gset_to_gmap_Some. split; [|done]. apply elem_of_list_to_set, list_elem_of_fmap.
    exists (a / 4). pose proof (Z.div_mod a 4). rewrite elem_of_seqZ. lia. }
  exists 0. unfold load. by rewrite (proj2 (Z.eqb_eq _ 0) Hm), E.
Qed.

Lemma words_load n a : 0 <= a < 4 * n -> a mod 4 = 0 -> load a (words n) = Ok 0.
Proof.
  intros Ha Hm. destruct (words_mapped n a Ha Hm) as [v Hv]. rewrite Hv. f_equal. unfold load in Hv.
  rewrite (proj2 (Z.eqb_eq _ 0) Hm) in Hv. unfold words in Hv. destruct (gset_to_gmap _ _ !! a) as [w|] eqn:E; [|done].
  apply lookup_gset_to_gmap_Some in E as [_ <-]. by injection Hv as <-.
Qed.

Lemma object_words t k : In k [_ESP; _EAX; _EBX; _ECX; _EDX; _EBP; _ESI; _EDI; _PC] ->
  t <= t + k < t + 36 /\ (t mod 4 = 0 -> (t + k) mod 4 = 0).
Proof.
  intros Hk. cbn [In] in Hk. offsets.
  destruct Hk as [<-|[<-|[<-|[<-|[<-|[<-|[<-|[<-|[<-|[]]]]]]]]]]; (split; [lia|]); intros Hm; rewrite Z.add_mod, Hm by lia; done.
Qed.

Definition example_cpu : Cpu := mkCpu 1 2 3 4 5 6 7 17000.

Lemma new_thread_runs_witness :
  let m0 := <[17000 := 77]> (<[17004 := 18000]> (<[17008 := 100]> (words 5000))) in
  let callee f (s : State) := if f =? 30 then None else Some (set_reg ESP (esp (fst s) + 4) (fst s), snd s) in
  exists m s x, StackAllocate 100 400 10 20 30 40 5 m0 = Ok m /\
    run callee (fun _ => 0) (SWITCH 0) 0 (example_cpu, m) = Ok ([], Some (10, s)) /\
    run callee (fun _ => 0) ThreadRoot 0 s = Ok ([(20, 5); (40, 5); (30, x)], None).
Proof.
  intros m0 callee.
  assert (Hm0 : forall a, 0 <= a < 20000 -> a mod 4 = 0 -> mapped m0 a).
  { intros a Ha Hm. apply mapped_store, mapped_store, mapped_store. by apply words_mapped. }
  assert (Hw : forall a, (0 <=? a) && (a <? 20000) && (a mod 4 =? 0) = true -> mapped (words 5000) a).
  { intros a Ha. apply words_mapped; lia. }
  destruct (new_thread_runs callee (fun _ => 0) 0 100 400 10 20 30 40 5 m0 example_cpu 18000 77 0) as (m & E & H).
  - split; [|intros i Hi; unfold StackSize in Hi; apply Hm0; [lia|by rewrite (Z.add_mod 400), (Z.mul_comm 4), Z.mod_mul by lia]|unfold StackSize; lia].
    intros k Hk. destruct (object_words 100 k Hk) as [Hr Hmod]. apply Hm0; [lia|by apply Hmod].
  - by apply Hm0.
  - lia.
  - unfold area. lia.
  - intros f s s'. unfold callee. destruct (f =? 30); [done|]. intros [= <-]. by repeat split.
  - done.
  - unfold new_sp, StackSize. split; cbn [esp example_cpu In]; intros; lia.
  - destruct H as [Hfr H]. destruct H as (s & log & x & H1 & _ & H2 & _ & H3).
    + rewrite Hfr by (unfold area, new_sp, StackSize; cbn; lia). apply load_stored_eq, mapped_store, mapped_store. apply Hw; reflexivity.
    + rewrite Hfr by (unfold area, new_sp, StackSize; cbn; lia). unfold m0. rewrite load_stored_ne by (cbn; lia).
      apply load_stored_eq, mapped_store. apply Hw; reflexivity.
    + rewrite Hfr by (unfold area, new_sp, StackSize; cbn; lia). unfold m0. rewrite !load_stored_ne by (cbn; lia).
      apply load_stored_eq. apply Hw; reflexivity.
    + intros k Hk. destruct (object_words 18000 k Hk) as [Hr Hmod]. unfold mapped.
      rewrite Hfr by (unfold area, new_sp, StackSize; lia). apply Hm0; [lia|by apply Hmod].
    + exists m, s, x. split; [done|]. split; [done|]. rewrite H2. destruct H3 as [_ H3]; [intros [c1 m1]; unfold callee; by eexists|].
      rewrite H3; [done|]. intros [c1 m1]. unfold callee. by eexists.
Defined.

Lemma second_saved w : (forall a, 0 <= a < 20000 -> a mod 4 = 0 -> load a w = Ok 0) ->
  saved (<[17000 := 77]> (<[17004 := 100]> (<[17008 := 200]> (<[18000 := 88]> (<[200 := 18000]> w))))) 200 (mkCpu 0 0 0 0 0 0 0 18000) 0.
Proof.
  intros Hw. split; offsets; rewrite !load_stored_ne by done; [apply load_stored_eq; exists 0|..]; by apply Hw.
Qed.

(** Two threads with objects at 100 and 200: the first switches to the
    second, which switches back. *)
Lemma SWITCH_gives_back_witness :
  let m := <[17000 := 77]> (<[17004 := 100]> (<[17008 := 200]> (<[18000 := 88]> (<[200 := 18000]> (words 5000))))) in
  let c2 := mkCpu 0 0 0 0 0 0 0 18000 in
  exists m' m4, run (fun _ _ => None) (fun _ => 0) (SWITCH 0) 0 (example_cpu, m) = Ok ([], Some (88, (set_reg ESP 18004 c2, m'))) /\
    run (fun _ _ => None) (fun _ => 0) (SWITCH 0) 0
      (set_reg ESP 18100 c2, <[0 := 5]> (<[18100 := 99]> (<[18104 := 200]> (<[18108 := 100]> m')))) =
    Ok ([], Some (77, (set_reg ESP 17004 example_cpu, m4))).
Proof.
  intros m c2.
  assert (Hw : forall a, 0 <= a < 20000 -> a mod 4 = 0 -> load a (words 5000) = Ok 0) by (intros; by apply words_load).
  assert (Hm : forall a, 0 <= a < 20000 -> a mod 4 = 0 -> mapped m a).
  { intros a Ha Hm. unfold m. do 5 apply mapped_store. by exists 0; apply Hw. }
  destruct (SWITCH_gives_back (fun _ _ => None) (fun _ => 0) 0 example_cpu m 100 200 77 c2 0 88 0) as (m' & E & Hfr & Hback).
  - by apply load_stored_eq; do 4 apply mapped_store; exists 0; apply Hw.
  - unfold m. rewrite load_stored_ne by done. by apply load_stored_eq; do 3 apply mapped_store; exists 0; apply Hw.
  - unfold m. rewrite !load_stored_ne by done. by apply load_stored_eq; do 2 apply mapped_store; exists 0; apply Hw.
  - intros k Hk. destruct (object_words 100 k Hk) as [Hr Hmod]. apply Hm; [lia|by apply Hmod].
  - by apply second_saved.
  - unfold m. rewrite !load_stored_ne by done. by apply load_stored_eq; do 1 apply mapped_store; exists 0; apply Hw.
  - by apply Hm.
  - by apply Hm.
  - split; cbn [esp example_cpu c2 In]; intros; lia.
  - done.
  - assert (Hm' : forall a, 136 <= a < 18004 \/ 18004 < a < 20000 -> a mod 4 = 0 -> mapped m' a).
    { intros a Ha Hmod. unfold mapped. rewrite Hfr by (unfold area; cbn; lia). apply Hm; [lia|assumption]. }
    destruct (Hback (set_reg ESP 18100 c2) (<[0 := 5]> (<[18100 := 99]> (<[18104 := 200]> (<[18108 := 100]> m')))) 200 99 0%nat)
      as (m4 & E4 & _).
    + intros a Ha. unfold area in Ha. cbn in Ha. rewrite !load_stored_ne by lia. reflexivity.
    + cbn [set_reg esp]; rewrite load_stored_ne by lia. apply load_stored_eq, mapped_store, mapped_store, Hm'; [lia|reflexivity].
    + cbn [set_reg esp]; rewrite !load_stored_ne by lia. apply load_stored_eq, mapped_store, Hm'; [lia|reflexivity].
    + cbn [set_reg esp]; rewrite !load_stored_ne by lia. apply load_stored_eq, Hm'; [lia|reflexivity].
    + intros k Hk. apply mapped_store, mapped_store, mapped_store, mapped_store. destruct (object_words 200 k Hk) as [Hr Hmod]. apply Hm'; [lia|apply Hmod; reflexivity].
    + exists 5. unfold load. rewrite lookup_insert_eq. reflexivity.
    + split; cbn [esp example_cpu c2 set_reg In]; intros; lia.
    + exists m', m4. split; assumption.
Defined.
