(* ===== verification/Synch.v ===== *)
(** * threads/{synch,synchlist}.{h,cc} and the programs that use them

    Semaphores, locks, condition variables and synchronised lists, in the
    CHANGED build; the table of code pointers; and clients, the kernel
    threads that call these operations in any order. *)

From stdpp Require Import base list numbers gmap.
From S2P Require Import Prelude Arrays State Proc List Kernel.

Section Synch.
Context {L : Type -> Type} `{!ListOps L}.
Notation KM := (M (Kernel L)).
Notation KP := (proc (Kernel L) VoidFunctionPtr).

Definition get_sem (s : Z) : KM (Semaphore L) := m ← gets semaphores; lift (deref (m !! s)).
Definition put_sem (s : Z) (v : Semaphore L) : KM unit :=
  modify (fun k => set_semaphores (<[s := v]> (semaphores k)) k).
Definition get_lock (l : Z) : KM Lock := m ← gets locks; lift (deref (m !! l)).
Definition put_lock (l : Z) (v : Lock) : KM unit :=
  modify (fun k => set_locks (<[l := v]> (locks k)) k).
Definition get_cond (c : Z) : KM (Condition L) := m ← gets conditions; lift (deref (m !! c)).
Definition put_cond (c : Z) (v : Condition L) : KM unit :=
  modify (fun k => set_conditions (<[c := v]> (conditions k)) k).
Definition get_sl (s : Z) : KM (SynchList L) := m ← gets synchlists; lift (deref (m !! s)).
Definition put_sl (s : Z) (v : SynchList L) : KM unit :=
  modify (fun k => set_synchlists (<[s := v]> (synchlists k)) k).
Definition current : KM Z := gets currentThread.

(** ** Semaphores *)

Definition Semaphore_new (initialValue : Z) : Semaphore L := mkSem initialValue (New Z).

Definition P (s : Z) : KP unit :=
  oldLevel <~ SetLevel IntOff;;;
  While (
    v <~ Atom (get_sem s);;;
    if value v =? 0 then
      c <~ Atom (
        v ← get_sem s; c ← current;
        _ ← put_sem s (set_queue (Append c (queue v)) v);
        ret c);;;
      Sleep c;;;
      Ret true
    else Ret false);;;
  Atom (v ← get_sem s; put_sem s (set_value (value v - 1) v));;;
  SetLevel oldLevel;;;
  Ret tt.

Definition V_body (s : Z) : KM unit :=
  v ← get_sem s;
  let '(thread, q) := Remove (queue v) in
  _ ← put_sem s (set_queue q v);
  _ ← match thread with Some t => ReadyToRun t | None => ret tt end;
  v ← get_sem s;
  put_sem s (set_value (value v + 1) v).

Definition V (s : Z) : KP unit :=
  oldLevel <~ SetLevel IntOff;;;
  Atom (V_body s);;;
  SetLevel oldLevel;;;
  Ret tt.

(** ** Locks *)

Definition Lock_new : Lock := mkLock None.

Definition isHeldByCurrentThread (l : Z) : KM bool :=
  k ← get_lock l; c ← current;
  ret (match heldThread k with Some t => c =? t | None => false end).

Definition Acquire (l : Z) : KP unit :=
  While (
    busy <~ Atom (
      k ← get_lock l; h ← isHeldByCurrentThread l;
      ret (match heldThread k with Some _ => negb h | None => false end));;;
    if busy : bool then c <~ Atom current;;; Yield c;;; Ret true
    else Ret false);;;
  oldLevel <~ SetLevel IntOff;;;
  Atom (c ← current; k ← get_lock l; put_lock l (set_heldThread (Some c) k));;;
  SetLevel oldLevel;;;
  Ret tt.

Definition Release (l : Z) : KP unit :=
  h <~ Atom (isHeldByCurrentThread l);;;
  if negb h then Ret tt
  else
    oldLevel <~ SetLevel IntOff;;;
    Atom (k ← get_lock l; put_lock l (set_heldThread None k));;;
    SetLevel oldLevel;;;
    Ret tt.

(** ** Condition variables *)

Definition Condition_new : Condition L := mkCond (New Z).

Definition Wait (c conditionLock : Z) : KP unit :=
  h <~ Atom (isHeldByCurrentThread conditionLock);;;
  if negb h then Ret tt
  else
    oldLevel <~ SetLevel IntOff;;;
    Atom (t ← current; v ← get_cond c; put_cond c (set_cqueue (Append t (cqueue v)) v));;;
    Release conditionLock;;;
    t <~ Atom current;;;
    Sleep t;;;
    SetLevel oldLevel;;;
    Acquire conditionLock.

(** Taking one waiter off the queue and making it ready. *)
Definition wake (c : Z) : KM unit :=
  v ← get_cond c;
  let '(t, q) := Remove (cqueue v) in
  _ ← put_cond c (set_cqueue q v);
  match t with Some t => ReadyToRun t | None => ret tt end.

Definition Signal (c conditionLock : Z) : KP unit :=
  go <~ Atom (
    h ← isHeldByCurrentThread conditionLock;
    if negb h then ret false
    else v ← get_cond c; ret (negb (IsEmpty (cqueue v))));;;
  if negb go then Ret tt
  else
    oldLevel <~ SetLevel IntOff;;;
    Atom (wake c);;;
    SetLevel oldLevel;;;
    Ret tt.

Definition Broadcast (c conditionLock : Z) : KP unit :=
  h <~ Atom (isHeldByCurrentThread conditionLock);;;
  if negb h then Ret tt
  else
    oldLevel <~ SetLevel IntOff;;;
    While (
      v <~ Atom (get_cond c);;;
      if IsEmpty (cqueue v) then Ret false
      else Atom (wake c);;; Ret true);;;
    SetLevel oldLevel;;;
    Ret tt.

(** ** Synchronised lists *)

Definition SynchList_new (lock listEmpty : Z) : SynchList L := mkSL (New Z) lock listEmpty.

Definition SynchList_Append (s item : Z) : KP unit :=
  sl <~ Atom (get_sl s);;;
  Acquire (lock sl);;;
  Atom (sl ← get_sl s; put_sl s (set_list_ (Append item (list_ sl)) sl));;;
  Signal (listEmpty sl) (lock sl);;;
  Release (lock sl).

Definition SynchList_Remove (s : Z) : KP Z :=
  sl <~ Atom (get_sl s);;;
  Acquire (lock sl);;;
  While (
    v <~ Atom (get_sl s);;;
    if IsEmpty (list_ v) then Wait (listEmpty sl) (lock sl);;; Ret true else Ret false);;;
  item <~ Atom (
    sl ← get_sl s;
    let '(item, l) := Remove (list_ sl) in
    _ ← put_sl s (set_list_ l sl);
    _ ← assert (match item with Some p => negb (p =? 0) | None => false end);
    ret (default 0 item));;;
  Release (lock sl);;;
  Ret item.

Definition SynchList_Mapcar (s : Z) (func : VoidFunctionPtr) : KP unit :=
  sl <~ Atom (get_sl s);;;
  Acquire (lock sl);;;
  items <~ Atom (sl ← get_sl s; ret (Mapcar (list_ sl)));;;
  foldr (fun x rest => Call func x rest) (Ret tt) items;;;
  Release (lock sl).

(** ** Clients *)

(** What a kernel thread can do: call an operation, use the result.
    [CTick] is the boundary of kernel and user code, where interrupts are
    taken (Machine::Run calls OneTick after every instruction);
    [CAssertHeld] is ASSERT(lock->isHeldByCurrentThread()). *)
Inductive client :=
  | CDone
  | CYield (k : client)
  | CTick (k : client)
  | CFork (f : Z) (a : Z) (k : client)
  | CP (s : Z) (k : client)
  | CV (s : Z) (k : client)
  | CAcquire (l : Z) (k : client)
  | CRelease (l : Z) (k : client)
  | CAssertHeld (l : Z) (k : client)
  | CWait (c l : Z) (k : client)
  | CSignal (c l : Z) (k : client)
  | CBroadcast (c l : Z) (k : client)
  | CPut (s x : Z) (k : client)
  | CGet (s : Z) (k : Z -> client).

(** [Thread *t = new Thread(...); t->Fork(f, a);] *)
Definition fork_new (f : Z) (a : Z) : KP unit := t <~ Atom Thread_new;;; Fork t (User f) a.

Fixpoint run_client (c : client) : KP unit :=
  match c with
  | CDone => Ret tt
  | CYield k => c <~ Atom current;;; Yield c;;; run_client k
  | CTick k => Call OneTick_ 0 (run_client k)
  | CFork f a k => fork_new f a;;; run_client k
  | CP s k => P s;;; run_client k
  | CV s k => V s;;; run_client k
  | CAcquire l k => Acquire l;;; run_client k
  | CRelease l k => Release l;;; run_client k
  | CAssertHeld l k => Atom (h ← isHeldByCurrentThread l; assert h);;; run_client k
  | CWait c l k => Wait c l;;; run_client k
  | CSignal c l k => Signal c l;;; run_client k
  | CBroadcast c l k => Broadcast c l;;; run_client k
  | CPut s x k => SynchList_Append s x;;; run_client k
  | CGet s k => x <~ SynchList_Remove s;;; run_client (k x)
  end.

(** The code behind the pointers. *)
Definition code (user : Z -> Z -> client) (f : VoidFunctionPtr) (a : Z) : KP unit :=
  match f with
  | OneTick_ => OneTick
  | InterruptEnable => Enable
  | ThreadFinish => c <~ Atom current;;; Finish c
  | TimerHandler => TimerExpired a
  | TimerInterruptHandler => Atom (TimerInterrupt a)
  | RequestDone => V a
  | User f => run_client (user f a)
  end.

(** main(): the initial thread runs its code and finishes. *)
Definition main_program (c : client) : KP unit := run_client c;;; Call ThreadFinish 0 (Ret tt).

Definition system_step (user : Z -> Z -> client) : config -> res config :=
  mstep (code user) cpu start.
Definition system_run (user : Z -> Z -> client) (n : nat) : config -> res config :=
  msteps (code user) cpu start n.
End Synch.
