(* ===== verification/ThreadInv.v ===== *)
(** * The invariants of the thread system

    Which thread is where: the scheduler's invariant [sched_ok], the
    invariant [objs_ok] of the other objects, what a thread may rely on
    while it does not run, and how the kernel's atomic actions keep them. *)

From stdpp Require Import base list sorting numbers gmap.
From S2P Require Import Prelude Arrays State Proc List Kernel Synch.

(** ** Where threads are *)

Inductive qid := QSem (s : Z) | QCond (c : Z).

#[export] Instance qid_eq_dec : EqDecision qid.
Proof. solve_decision. Defined.

Section Inv.
Context {L : Type -> Type} `{!ListOps L, !ListLaws L}.
Notation K := (Kernel L).
Implicit Types (k : Kernel L) (t u : Z).

Definition content (l : L Z) : list Z := (elems l).*2.
Definition ready k : list Z := content (readyList k).
Definition queue_of k (q : qid) : option (list Z) :=
  match q with
  | QSem s => (fun v => content (queue v)) <$> semaphores k !! s
  | QCond c => (fun v => content (cqueue v)) <$> conditions k !! c
  end.
Definition in_queue k q t : Prop := exists ts, queue_of k q = Some ts /\ t ∈ ts.
Definition status_of k t : option ThreadStatus := tstatus <$> threads k !! t.

(** No other thread can make this one run again. *)
Definition dead k t : Prop := t < nextThread k /\
  (status_of k t = None \/ status_of k t = Some BLOCKED) /\ forall q, ~ in_queue k q t.

(** What a thread that can be started looks like. *)
Definition thread_ok (main t : Z) (th : Thread) : Prop :=
  space th = None /\ (forall w, stack th = Some w -> w = STACK_FENCEPOST) /\
  (t <> main -> tstatus th <> JUST_CREATED -> exists f a, machineState th = Some (User f, a)).

(** The scheduler.  [entering]: the running thread may already be in the
    queue it is going to block on; [hand]: a thread that was just taken
    off the ready list. *)
Record sched_ok (main : Z) (entering : bool) (hand : option Z) k : Prop := {
  so_run : forall t, status_of k t = Some RUNNING -> t = currentThread k;
  so_ready : forall t, (t ∈ ready k) <-> status_of k t = Some READY /\ hand <> Some t;
  so_hand : forall t, hand = Some t -> status_of k t = Some READY;
  so_nodup : NoDup (ready k);
  so_queue : forall q t, in_queue k q t -> status_of k t = Some BLOCKED \/
    (entering = true /\ t = currentThread k /\ status_of k t = Some RUNNING);
  so_qnodup : forall q ts, queue_of k q = Some ts -> NoDup ts;
  so_disjoint : forall q1 q2 t, in_queue k q1 t -> in_queue k q2 t -> q1 = q2;
  so_dead : forall t, threadToBeDestroyed k = Some t -> is_Some (threads k !! t) /\
    (dead k t \/ (entering = true /\ t = currentThread k /\ status_of k t = Some RUNNING /\ forall q, ~ in_queue k q t));
  so_threads : forall t th, threads k !! t = Some th -> thread_ok main t th /\ t < nextThread k
}.

(** The objects clients use. *)
Record Env := mkEnv { e_sems : gset Z; e_locks : gset Z; e_conds : gset Z; e_lists : gset Z }.

Definition handler_ok k (p : PendingInterrupt) : Prop :=
  (handler p = TimerHandler /\ exists tm, timers k !! arg p = Some tm /\ thandler tm = TimerInterruptHandler) \/
  (handler p = RequestDone /\ is_Some (semaphores k !! arg p)).

Record objs_ok (E : Env) k : Prop := {
  ob_sems : forall s, s ∈ e_sems E -> is_Some (semaphores k !! s);
  ob_locks : forall l, l ∈ e_locks E -> is_Some (locks k !! l);
  ob_conds : forall c, c ∈ e_conds E -> is_Some (conditions k !! c);
  ob_lists : forall s, s ∈ e_lists E -> is_Some (synchlists k !! s);
  ob_value : forall s v, semaphores k !! s = Some v -> 0 <= value v;
  ob_list : forall s sl, synchlists k !! s = Some sl ->
    is_Some (locks k !! lock sl) /\ (lock sl ∉ e_locks E) /\ is_Some (conditions k !! listEmpty sl) /\
    (0 ∉ content (list_ sl));
  ob_pending : forall w p, (w, p) ∈ elems (pending (interrupt k)) -> w = when p /\ handler_ok k p;
  ob_sorted : keys_sorted (elems (pending (interrupt k)));
  ob_rand : forall n, 0 <= rand k n;
  ob_machine : machine k = None
}.

(** ** What threads rely on *)

Definition heldBy k (l t : Z) : Prop := exists lk, locks k !! l = Some lk /\ heldThread lk = Some t.

(** While [t] is switched out: nobody takes or gives its locks, the
    objects stay, lists whose lock it holds do not change, and if it can
    never be woken it stays so. *)
Record rely t k k' : Prop := {
  re_held : forall l, heldBy k l t <-> heldBy k' l t;
  re_locks : forall l, is_Some (locks k !! l) -> is_Some (locks k' !! l);
  re_sems : forall s, is_Some (semaphores k !! s) -> is_Some (semaphores k' !! s);
  re_conds : forall c, is_Some (conditions k !! c) -> is_Some (conditions k' !! c);
  re_lists : forall s sl, synchlists k !! s = Some sl -> exists sl', synchlists k' !! s = Some sl' /\
    lock sl' = lock sl /\ listEmpty sl' = listEmpty sl /\
    (heldBy k (lock sl) t -> content (list_ sl') = content (list_ sl));
  re_timers : forall x tm, timers k !! x = Some tm -> timers k' !! x = Some tm;
  re_dead : dead k t -> dead k' t
}.

Lemma rely_refl t k : rely t k k.
Proof. split; try done. intros s sl H. by exists sl. Qed.

Lemma rely_trans t k1 k2 k3 : rely t k1 k2 -> rely t k2 k3 -> rely t k1 k3.
Proof.
  intros H1 H2. split; intros.
  - rewrite (re_held _ _ _ H1). apply H2.
  - by apply H2, H1.
  - by apply H2, H1.
  - by apply H2, H1.
  - destruct (re_lists _ _ _ H1 s sl H) as (sl1 & Hs1 & E1 & E2 & Hc1).
    destruct (re_lists _ _ _ H2 s sl1 Hs1) as (sl2 & Hs2 & E3 & E4 & Hc2).
    exists sl2. split; [done|]. split; [congruence|]. split; [congruence|]. intros Hh.
    rewrite Hc2, Hc1; [done|done|]. rewrite E1. by apply (re_held _ _ _ H1).
  - by apply H2, H1.
  - by apply H2, H1.
Qed.

(** Changes of the interrupt state, the clock, the ready list or the
    current thread concern no other thread. *)
Lemma rely_same t k k' :
  locks k' = locks k -> semaphores k' = semaphores k -> conditions k' = conditions k ->
  synchlists k' = synchlists k -> timers k' = timers k -> threads k' = threads k ->
  nextThread k' = nextThread k -> rely t k k'.
Proof.
  intros E1 E2 E3 E4 E5 E6 E7. split.
  - intros l. unfold heldBy. by rewrite E1.
  - by rewrite E1.
  - by rewrite E2.
  - by rewrite E3.
  - intros s sl H. exists sl. by rewrite E4.
  - by rewrite E5.
  - unfold dead, status_of, in_queue. assert (Hq : forall q, queue_of k' q = queue_of k q).
    { intros [s|c]; cbn; by rewrite ?E2, ?E3. }
    rewrite E6, E7. intros (H0 & H1 & H2). split_and!; [done|done|]. intros q. rewrite Hq. apply H2.
Qed.

(** [sched_ok] does not look at these either. *)
Lemma sched_ok_same main e h k k' :
  readyList k' = readyList k -> semaphores k' = semaphores k -> conditions k' = conditions k ->
  threads k' = threads k -> nextThread k' = nextThread k -> currentThread k' = currentThread k ->
  threadToBeDestroyed k' = threadToBeDestroyed k -> sched_ok main e h k -> sched_ok main e h k'.
Proof.
  intros E1 E2 E3 E4 E5 E6 E7 [].
  assert (Hst : forall t, status_of k' t = status_of k t) by (intros t; unfold status_of; by rewrite E4).
  assert (Hq : forall q, queue_of k' q = queue_of k q) by (intros [s|c]; cbn; by rewrite ?E2, ?E3).
  assert (Hiq : forall q t, in_queue k' q t <-> in_queue k q t) by (intros q t; unfold in_queue; by rewrite Hq).
  assert (Hre : ready k' = ready k) by (unfold ready; by rewrite E1).
  split.
  - intros t. rewrite Hst, E6. auto.
  - intros t. rewrite Hre, Hst. auto.
  - intros t. rewrite Hst. auto.
  - by rewrite Hre.
  - intros q t. rewrite Hiq, Hst, E6. eauto.
  - intros q ts. rewrite Hq. eauto.
  - intros q1 q2 t. rewrite !Hiq. eauto.
  - intros t. rewrite E7. unfold dead. rewrite Hst, E5, E6, E4. intros Ht. destruct (so_dead0 t Ht) as [H0 H1].
    split; [done|]. destruct H1 as [(H1 & H2 & H3)|(H1 & H2 & H3 & H4)]; [left|right]; split_and!; try done;
      intros q; rewrite Hiq; auto.
  - intros t th. rewrite E4, E5. auto.
Qed.

Lemma handler_ok_same k k' p :
  semaphores k' = semaphores k -> timers k' = timers k -> handler_ok k p -> handler_ok k' p.
Proof. intros E1 E2. unfold handler_ok. by rewrite E1, E2. Qed.

(** The other objects, when only the pending interrupts change. *)
Lemma objs_ok_interrupt E k k' :
  locks k' = locks k -> semaphores k' = semaphores k -> conditions k' = conditions k ->
  synchlists k' = synchlists k -> timers k' = timers k -> rand k' = rand k -> machine k' = machine k ->
  (forall w p, (w, p) ∈ elems (pending (interrupt k')) -> w = when p /\ handler_ok k p) ->
  keys_sorted (elems (pending (interrupt k'))) -> objs_ok E k -> objs_ok E k'.
Proof.
  intros E1 E2 E3 E4 E5 E6 E7 Hp Hs [].
  split; rewrite ?E1, ?E2, ?E3, ?E4, ?E6, ?E7; auto.
  intros w p H. destruct (Hp w p H). split; [done|]. by eapply handler_ok_same.
Qed.

Lemma objs_ok_same E k k' :
  locks k' = locks k -> semaphores k' = semaphores k -> conditions k' = conditions k ->
  synchlists k' = synchlists k -> timers k' = timers k -> rand k' = rand k -> machine k' = machine k ->
  elems (pending (interrupt k')) = elems (pending (interrupt k)) -> objs_ok E k -> objs_ok E k'.
Proof.
  intros E1 E2 E3 E4 E5 E6 E7 Hp Ho.
  apply (objs_ok_interrupt E k k'); try done; rewrite Hp; apply Ho.
Qed.

(** ** Lists of threads *)

Lemma content_append x l : content (Append x l) = content l ++ [x].
Proof. unfold content. by rewrite elems_append, fmap_app. Qed.

Lemma Remove_content l :
  fst (Remove l) = head (content l) /\ content (snd (Remove l)) = tail (content l).
Proof.
  unfold Remove, content. destruct (elems_remove Z l) as [H1 H2].
  destruct (SortedRemove l) as [r l']. cbn [fst snd] in *. rewrite H1, H2.
  by destruct (elems l) as [|[k x] xs].
Qed.

Lemma IsEmpty_content l : IsEmpty l = bool_decide (content l = []).
Proof.
  rewrite elems_empty. apply bool_decide_ext. unfold content. by destruct (elems l) as [|[k x] xs].
Qed.

(** ** Status changes *)

Lemma status_update k t th' u :
  status_of (set_threads (<[t := th']> (threads k)) k) u =
  if decide (u = t) then Some (tstatus th') else status_of k u.
Proof.
  unfold status_of. cbn. destruct (decide (u = t)) as [->|Hne].
  - by rewrite lookup_insert_eq.
  - by rewrite lookup_insert_ne.
Qed.

Lemma status_thread k t st : status_of k t = Some st -> exists th, threads k !! t = Some th /\ tstatus th = st.
Proof. unfold status_of. intros H. apply fmap_Some in H as (th & Hth & ->). by exists th. Qed.

Lemma run_setStatus st t k (Q : unit -> Kernel L -> Prop) s :
  status_of k t = Some s ->
  (forall th, threads k !! t = Some th -> Q tt (set_threads (<[t := set_tstatus st th]> (threads k)) k)) ->
  run_to (setStatus st t) k Q.
Proof.
  intros Hs HQ. destruct (status_thread k t s Hs) as (th & Hth & _).
  unfold setStatus, upd_thread, get_thread. do 2 apply run_to_bind. apply run_to_gets.
  eapply run_to_lift; [by rewrite Hth|]. by apply run_to_modify, HQ.
Qed.

(** Objects other than threads do not change. *)
Lemma rely_threads t k k' :
  locks k' = locks k -> semaphores k' = semaphores k -> conditions k' = conditions k ->
  synchlists k' = synchlists k -> timers k' = timers k -> (dead k t -> dead k' t) -> rely t k k'.
Proof.
  intros E1 E2 E3 E4 E5 Hd. split; try done.
  - intros l. unfold heldBy. by rewrite E1.
  - by rewrite E1.
  - by rewrite E2.
  - by rewrite E3.
  - intros s sl H. exists sl. by rewrite E4.
  - by rewrite E5.
Qed.

Lemma dead_status k t th' u :
  u <> t -> dead k u -> dead (set_threads (<[t := th']> (threads k)) k) u.
Proof.
  intros Hne (H0 & H1 & H2). split; [done|]. rewrite status_update, decide_False by done. split; [done|].
  intros q. apply H2.
Qed.

Lemma in_queue_not_ready main e h k q t :
  sched_ok main e h k -> in_queue k q t -> status_of k t = Some BLOCKED \/ status_of k t = Some RUNNING.
Proof. intros Hs Hq. destruct (so_queue _ _ _ _ Hs q t Hq) as [?|(_ & _ & ?)]; auto. Qed.

(** [ReadyToRun] on a thread that is in no queue. *)
Lemma ReadyToRun_ok main e h k t st :
  sched_ok main e h k -> status_of k t = Some st -> st <> READY -> (forall q, ~ in_queue k q t) ->
  threadToBeDestroyed k <> Some t ->
  (st = JUST_CREATED -> t <> main -> forall th, threads k !! t = Some th -> exists f a, machineState th = Some (User f, a)) ->
  run_to (ReadyToRun t) k (fun _ k' =>
    sched_ok main e h k' /\ (forall u, status_of k' u = if decide (u = t) then Some READY else status_of k u) /\
    (forall u, u <> t -> dead k u -> dead k' u) /\
    exists th rl, threads k !! t = Some th /\
      k' = set_readyList rl (set_threads (<[t := set_tstatus READY th]> (threads k)) k)).
Proof.
  intros Hs Hst Hne Hq Hd Hnew. unfold ReadyToRun. apply run_to_bind.
  apply (run_setStatus READY t k _ st Hst). intros th Hth. apply run_to_modify.
  set (k1 := set_threads _ k). set (rl := Append t (readyList k1)). set (k' := set_readyList rl k1).
  assert (Hst' : forall u, status_of k' u = if decide (u = t) then Some READY else status_of k u).
  { intros u. apply (status_update k t (set_tstatus READY th) u). }
  assert (Hdead : forall u, u <> t -> dead k u -> dead k' u).
  { intros u Hu. apply (dead_status k t (set_tstatus READY th) u Hu). }
  assert (Hre : ready k' = ready k ++ [t]) by apply content_append.
  assert (Htr : t ∉ ready k) by (rewrite (so_ready _ _ _ _ Hs); intros [? _]; congruence).
  split; [|split; [done|split; [done|by exists th, rl]]]. destruct Hs. split.
  - intros u. rewrite Hst'. destruct (decide (u = t)); [done|]. apply so_run0.
  - intros u. rewrite Hre, elem_of_app, list_elem_of_singleton, Hst', so_ready0.
    destruct (decide (u = t)) as [->|Hu]; [|tauto]. split; [|tauto]. intros _. split; [done|].
    intros ->. specialize (so_hand0 t eq_refl). congruence.
  - intros u Hu. rewrite Hst'. destruct (decide (u = t)); [done|]. by apply so_hand0.
  - rewrite Hre. apply NoDup_app. split; [done|]. split; [|apply NoDup_singleton].
    intros u Hu. rewrite list_elem_of_singleton. by intros ->.
  - intros q u Hu. rewrite Hst'. destruct (decide (u = t)) as [->|Hne']; [by destruct (Hq q)|].
    by apply (so_queue0 q u).
  - intros q. apply so_qnodup0.
  - intros q1 q2 u. apply so_disjoint0.
  - intros u Hu. assert (Hut : u <> t) by (intros ->; by apply Hd).
    destruct (so_dead0 u Hu) as [H0 H1]. split; [cbn; by rewrite lookup_insert_ne|].
    destruct H1 as [H1|(H1 & H2 & H3 & H4)]; [left; by apply Hdead|right].
    split_and!; try done. by rewrite Hst', decide_False.
  - intros u thu. cbn. destruct (decide (u = t)) as [->|Hu].
    + rewrite lookup_insert_eq. intros [= <-]. destruct (so_threads0 t th Hth) as [(H1 & H2 & H3) H4].
      split; [|done]. split; [done|]. split; [done|]. intros Hm _. cbn.
      destruct (decide (tstatus th = JUST_CREATED)) as [Ej|Ej]; [|by apply H3].
      apply (Hnew ltac:(unfold status_of in Hst; rewrite Hth in Hst; cbn in Hst; congruence) Hm th Hth).
    + rewrite lookup_insert_ne by done. apply so_threads0.
Qed.

(** ** Scheduling *)

Lemma FindNextToRun_ok main e k :
  sched_ok main e None k ->
  run_to FindNextToRun k (fun o k' =>
    sched_ok main e o k' /\ (o = None -> ready k = []) /\
    exists rl, k' = set_readyList rl k).
Proof.
  intros Hs. unfold FindNextToRun. apply run_to_bind, run_to_gets. cbv beta.
  pose proof (Remove_content (readyList k)) as [H1 H2]. destruct (Remove (readyList k)) as [o l'].
  cbn [fst snd] in *. apply run_to_bind, run_to_modify, run_to_ret.
  fold (ready k) in H1, H2. split; [|split; [|by eexists]].
  2:{ intros ->. by destruct (ready k). }
  pose proof (so_nodup _ _ _ _ Hs) as Hnd.
  assert (Hst : forall t, status_of (set_readyList l' k) t = status_of k t) by done.
  assert (Hre : ready (set_readyList l' k) = tail (ready k)) by done.
  pose proof Hs as []. split; try done.
  - intros t. rewrite Hre, Hst. destruct (ready k) as [|n r] eqn:Er.
    + cbn in H1 |- *. rewrite H1. rewrite <-(so_ready0 t), elem_of_nil. done.
    + cbn in H1 |- *. rewrite H1. apply list.NoDup_cons in Hnd as [Hn Hnd].
      specialize (so_ready0 t). rewrite elem_of_cons in so_ready0. split.
      * intros Ht. split; [apply so_ready0; by right|]. intros [= ->]. done.
      * intros [Ha Hb]. destruct (proj2 so_ready0) as [->|]; [by split|by destruct Hb|done].
  - intros t ->. rewrite Hst. destruct (ready k) as [|n r]; [done|]. injection H1 as ->.
    apply (so_ready0 n). by left.
  - rewrite Hre. destruct (ready k); [constructor|]. by apply list.NoDup_cons in Hnd as [_ ?].
Qed.

(** The running thread blocks. *)
Lemma block_ok main e k :
  sched_ok main e None k -> status_of k (currentThread k) = Some RUNNING ->
  run_to (setStatus BLOCKED (currentThread k)) k (fun _ k' =>
    sched_ok main false None k' /\ status_of k' (currentThread k) = Some BLOCKED /\
    (forall u, u <> currentThread k -> dead k u -> dead k' u) /\
    exists th, threads k !! currentThread k = Some th /\
      k' = set_threads (<[currentThread k := set_tstatus BLOCKED th]> (threads k)) k).
Proof.
  intros Hs Hrun. set (t := currentThread k) in *. apply (run_setStatus BLOCKED t k _ RUNNING Hrun).
  intros th Hth. set (k' := set_threads _ k).
  assert (Hst' : forall u, status_of k' u = if decide (u = t) then Some BLOCKED else status_of k u).
  { intros u. apply (status_update k t (set_tstatus BLOCKED th) u). }
  assert (Hdead : forall u, u <> t -> dead k u -> dead k' u).
  { intros u Hu. apply (dead_status k t (set_tstatus BLOCKED th) u Hu). }
  split; [|split; [rewrite Hst'; by rewrite decide_True|split; [done|by exists th]]].
  destruct Hs. split; try done.
  - intros u. rewrite Hst'. destruct (decide (u = t)); [done|]. apply so_run0.
  - intros u. rewrite Hst'. destruct (decide (u = t)) as [->|]; [|apply so_ready0].
    split; [|by intros []]. intros Hr. apply so_ready0 in Hr as [? _]. congruence.
  - intros q u Hu. rewrite Hst'. destruct (decide (u = t)) as [|Hne]; [by left|].
    destruct (so_queue0 q u Hu) as [|(_ & ? & _)]; [by left|done].
  - intros u Hu. destruct (so_dead0 u Hu) as [H0 H1]. split.
    { cbn. destruct (decide (u = t)) as [->|]; [by rewrite lookup_insert_eq|by rewrite lookup_insert_ne]. }
    left. destruct H1 as [H1|(_ & -> & _ & H4)].
    + apply Hdead; [|done]. intros ->. destruct H1 as (_ & [?|?] & _); congruence.
    + split; [by apply (so_threads0 t th Hth)|]. fold t. rewrite Hst', decide_True by done. by split; [right|].
  - intros u thu. cbn. destruct (decide (u = t)) as [->|Hu].
    + rewrite lookup_insert_eq. intros [= <-]. destruct (so_threads0 t th Hth) as [(H1 & H2 & H3) H4].
      split; [|done]. split; [done|]. split; [done|]. intros Hm _. cbn. apply H3; [done|].
      unfold status_of in Hrun. rewrite Hth in Hrun. cbn in Hrun. congruence.
    + rewrite lookup_insert_ne by done. apply so_threads0.
Qed.

(** Everything Run does before the switch. *)
Lemma Run_before_ok main k n :
  sched_ok main false (Some n) k -> is_Some (threads k !! currentThread k) ->
  status_of k (currentThread k) <> Some RUNNING ->
  run_to (Run_before n) k (fun _ k' =>
    sched_ok main false None k' /\ status_of k' n = Some RUNNING /\ currentThread k' = n /\
    (forall u, dead k u -> dead k' u) /\
    exists th, threads k !! n = Some th /\
      k' = set_threads (<[n := set_tstatus RUNNING th]> (threads k)) (set_currentThread n k)).
Proof.
  intros Hs [thc Hc] Hnr. destruct (so_threads _ _ _ _ Hs _ _ Hc) as [(Hsp & Hstk & _) _].
  pose proof (so_hand _ _ _ _ Hs n eq_refl) as Hn. unfold Run_before.
  apply run_to_bind, run_to_gets, run_to_bind. unfold get_thread.
  apply run_to_bind, run_to_gets. eapply run_to_lift; [by rewrite Hc|]. cbv beta.
  rewrite Hsp. apply run_to_bind, run_to_ret, run_to_bind. unfold CheckOverflow, get_thread.
  do 2 apply run_to_bind. apply run_to_gets. eapply run_to_lift; [by rewrite Hc|].
  assert (Hov : run_to (match stack thc with Some w => assert (w =? STACK_FENCEPOST) | None => ret tt end) k
    (fun _ k' => k' = k)).
  { destruct (stack thc) as [w|]; [|by apply run_to_ret]. rewrite (Hstk w eq_refl). by apply run_to_assert. }
  eapply run_to_mono; [exact Hov|]. intros ? ? ->.
  apply run_to_bind, run_to_modify, run_to_bind.
  apply (run_setStatus RUNNING n _ _ READY); [exact Hn|]. cbn. intros th Hth. apply run_to_ret.
  set (k' := set_threads _ _).
  assert (Hst' : forall u, status_of k' u = if decide (u = n) then Some RUNNING else status_of k u).
  { intros u. apply (status_update (set_currentThread n k) n (set_tstatus RUNNING th) u). }
  assert (Hnq : forall q, ~ in_queue k q n).
  { intros q Hq. destruct (in_queue_not_ready _ _ _ _ _ _ Hs Hq); congruence. }
  assert (Hdead : forall u, dead k u -> dead k' u).
  { intros u Hu. apply (dead_status (set_currentThread n k) n); [|done]. intros ->.
    destruct Hu as (_ & [?|?] & _); congruence. }
  split; [|split; [by rewrite Hst', decide_True|split; [done|split; [done|by exists th]]]].
  pose proof Hs as []. split; try done.
  - intros u. rewrite Hst'. destruct (decide (u = n)) as [->|]; [done|]. intros Hu.
    specialize (so_run0 u Hu). subst u. done.
  - intros u. rewrite Hst'. destruct (decide (u = n)) as [->|Hne].
    + split; [|by intros []]. intros Hr. apply so_ready0 in Hr as [_ ?]. done.
    + etransitivity; [apply so_ready0|]. split; intros [? _]; (split; [done|congruence]).
  - intros q u Hu. rewrite Hst'. destruct (decide (u = n)) as [->|]; [by destruct (Hnq q)|].
    destruct (so_queue0 q u Hu) as [|(? & _)]; [by left|done].
  - intros u Hu. destruct (so_dead0 u Hu) as [H0 H1]. split.
    { cbn. destruct (decide (u = n)) as [->|]; [by rewrite lookup_insert_eq|by rewrite lookup_insert_ne]. }
    left. apply Hdead. by destruct H1 as [H1|(? & _)].
  - intros u thu. cbn. destruct (decide (u = n)) as [->|Hu].
    + rewrite lookup_insert_eq. intros [= <-]. destruct (so_threads0 n th Hth) as [(H1 & H2 & H3) H4].
      split; [|done]. split; [done|]. split; [done|]. intros Hm _. cbn. apply H3; [done|].
      unfold status_of in Hn. rewrite Hth in Hn. cbn in Hn. congruence.
    + rewrite lookup_insert_ne by done. apply so_threads0.
Qed.

(** Everything Run does after it. *)
Lemma Run_after_ok main k :
  sched_ok main false None k -> status_of k (currentThread k) = Some RUNNING ->
  run_to Run_after k (fun _ k' =>
    sched_ok main false None k' /\ status_of k' (currentThread k) = Some RUNNING /\
    (forall u, dead k u -> dead k' u) /\
    exists ths, k' = set_threadToBeDestroyed None (set_threads ths k)).
Proof.
  intros Hs Hrun. unfold Run_after. apply run_to_bind, run_to_gets, run_to_bind.
  set (Q := fun (_ : unit) k' => sched_ok main false None k' /\ status_of k' (currentThread k) = Some RUNNING /\
        (forall u, dead k u -> dead k' u) /\
        exists ths, k' = set_threadToBeDestroyed None (set_threads ths k)).
  assert (Hdel : run_to (match threadToBeDestroyed k with
      | Some t => _ ← Thread_delete t; modify (set_threadToBeDestroyed None)
      | None => ret tt
      end) k Q).
  { destruct (threadToBeDestroyed k) as [d|] eqn:Ed.
    2:{ apply run_to_ret. split; [done|]. split; [done|]. split; [done|]. exists (threads k).
        destruct k. cbn in *. by subst. }
    destruct (so_dead _ _ _ _ Hs d Ed) as [[thd Hthd] [Hd|(? & _)]]; [|done].
    assert (Hdc : d <> currentThread k) by (intros ->; destruct Hd as (_ & [?|?] & _); congruence).
    unfold Thread_delete, get_thread. do 3 apply run_to_bind. apply run_to_gets.
    eapply run_to_lift; [by rewrite Hthd|]. apply run_to_bind, run_to_gets, run_to_bind, run_to_assert.
    { by rewrite (proj2 (Z.eqb_neq _ _) Hdc). }
    apply run_to_modify, run_to_modify. set (k' := set_threadToBeDestroyed None _).
    assert (Hst' : forall u, status_of k' u = if decide (u = d) then None else status_of k u).
    { intros u. unfold status_of. cbn. destruct (decide (u = d)) as [->|].
      - by rewrite lookup_delete_eq.
      - by rewrite lookup_delete_ne. }
    split; [|split; [by rewrite Hst', decide_False|split; [|by eexists]]].
    2:{ intros u (H0 & H1 & H2). split; [done|]. rewrite Hst'. split; [|done].
        destruct (decide (u = d)); auto. }
    pose proof Hs as []. split; try done.
    - intros u. rewrite Hst'. destruct (decide (u = d)); [done|]. apply so_run0.
    - intros u. rewrite Hst'. destruct (decide (u = d)) as [->|]; [|apply so_ready0].
      split; [|by intros []]. intros Hr. apply so_ready0 in Hr as [Hr _].
      destruct Hd as (_ & [?|?] & _); congruence.
    - intros q u Hu. rewrite Hst'. destruct (decide (u = d)) as [->|].
      + by destruct Hd as (_ & _ & Hd); destruct (Hd q).
      + destruct (so_queue0 q u Hu) as [|(? & _)]; [by left|done].
    - intros u thu. cbn. intros Hu. apply lookup_delete_Some in Hu as [_ Hu]. by apply so_threads0. }
  eapply run_to_mono; [exact Hdel|]. intros [] k' (Hs' & Hr' & Hd' & ths & Hk'). apply run_to_bind, run_to_gets.
  assert (Hc' : currentThread k' = currentThread k) by by rewrite Hk'.
  rewrite Hc'. destruct (status_thread _ _ _ Hr') as (th & Hth & _). apply run_to_bind.
  unfold get_thread. apply run_to_bind, run_to_gets. eapply run_to_lift; [by rewrite Hth|].
  destruct (so_threads _ _ _ _ Hs' _ _ Hth) as [(Hsp & _) _]. rewrite Hsp. apply run_to_ret.
  split; [done|]. split; [done|]. split; [done|]. by exists ths.
Qed.

(** ** Queues *)

(** Two states that differ in the queues only. *)
Record same_sched k k' : Prop := {
  ss_threads : threads k' = threads k;
  ss_next : nextThread k' = nextThread k;
  ss_current : currentThread k' = currentThread k;
  ss_destroy : threadToBeDestroyed k' = threadToBeDestroyed k;
  ss_ready : readyList k' = readyList k
}.

Lemma same_status k k' t : same_sched k k' -> status_of k' t = status_of k t.
Proof. intros H. unfold status_of. by rewrite (ss_threads _ _ H). Qed.

Lemma dead_shrink k k' t :
  same_sched k k' -> (forall q u, in_queue k' q u -> in_queue k q u) -> dead k t -> dead k' t.
Proof.
  intros H Hq (H0 & H1 & H2). split; [by rewrite (ss_next _ _ H)|].
  rewrite (same_status _ _ _ H). split; [done|]. intros q Hin. by apply (H2 q), Hq.
Qed.

(** Shrinking queues keep the invariant. *)
Lemma sched_ok_shrink main h k k' :
  sched_ok main false h k -> same_sched k k' ->
  (forall q ts', queue_of k' q = Some ts' -> exists ts, queue_of k q = Some ts /\ (ts' = ts \/ ts' = tail ts)) ->
  sched_ok main false h k' /\ (forall q u, in_queue k' q u -> in_queue k q u).
Proof.
  intros Hs Hss Hq.
  assert (Hiq : forall q u, in_queue k' q u -> in_queue k q u).
  { intros q u (ts' & Hts' & Hu). destruct (Hq q ts' Hts') as (ts & Hts & Ht). exists ts. split; [done|].
    destruct Ht as [->| ->]; [done|]. destruct ts; [done|]. by right. }
  split; [|done]. pose proof Hs as []. split.
  - intros t. rewrite (same_status _ _ _ Hss), (ss_current _ _ Hss). apply so_run0.
  - intros t. rewrite (same_status _ _ _ Hss). unfold ready. rewrite (ss_ready _ _ Hss). apply so_ready0.
  - intros t. rewrite (same_status _ _ _ Hss). apply so_hand0.
  - unfold ready. by rewrite (ss_ready _ _ Hss).
  - intros q t Ht. rewrite (same_status _ _ _ Hss). left.
    by destruct (so_queue0 q t (Hiq q t Ht)) as [|(? & _)].
  - intros q ts' Hts'. destruct (Hq q ts' Hts') as (ts & Hts & Ht). specialize (so_qnodup0 q ts Hts).
    destruct Ht as [->| ->]; [done|]. destruct ts; [done|]. by apply list.NoDup_cons in so_qnodup0 as [_ ?].
  - intros q1 q2 t H1 H2. by eapply so_disjoint0; apply Hiq.
  - intros t. rewrite (ss_destroy _ _ Hss), (ss_threads _ _ Hss). intros Ht.
    destruct (so_dead0 t Ht) as [H0 [H1|(? & _)]]; [|done]. split; [done|]. left. by eapply dead_shrink.
  - intros t th. rewrite (ss_threads _ _ Hss), (ss_next _ _ Hss). apply so_threads0.
Qed.

(** Interrupt handlers change a thread only by waking it. *)
Definition woken k k' : Prop := forall u,
  status_of k' u = status_of k u \/ (status_of k u = Some BLOCKED /\ status_of k' u = Some READY).

Lemma woken_refl k : woken k k.
Proof. by left. Qed.

Lemma woken_trans k1 k2 k3 : woken k1 k2 -> woken k2 k3 -> woken k1 k3.
Proof.
  intros H1 H2 u. destruct (H1 u) as [E1|[E1 E2]], (H2 u) as [E3|[E3 E4]]; rewrite ?E3, ?E1; auto.
  right. split; [congruence|done].
Qed.

Lemma woken_same k k' : threads k' = threads k -> woken k k'.
Proof. intros Hk u. left. unfold status_of. by rewrite Hk. Qed.

Lemma woken_running k k' u : woken k k' -> status_of k' u = Some RUNNING <-> status_of k u = Some RUNNING.
Proof. intros H. destruct (H u) as [->|[-> ->]]; split; congruence. Qed.

Lemma woken_live k k' u : woken k k' -> status_of k u <> None -> status_of k' u <> None.
Proof. intros H. destruct (H u) as [->|[-> ->]]; congruence. Qed.

(** Waking the head of a queue, from which it was just removed. *)
Lemma wake_ok main k k1 q0 ts :
  sched_ok main false None k -> same_sched k k1 ->
  queue_of k q0 = Some ts -> queue_of k1 q0 = Some (tail ts) ->
  (forall q, q <> q0 -> queue_of k1 q = queue_of k q) ->
  run_to (match head ts with Some t => ReadyToRun t | None => ret tt end) k1 (fun _ k' =>
    sched_ok main false None k' /\ woken k k' /\ (forall u, dead k u -> dead k' u) /\
    exists ths rl, k' = set_readyList rl (set_threads ths k1)).
Proof.
  intros Hs Hss Hq0 Hq1 Hqo.
  assert (Hsub : forall q ts', queue_of k1 q = Some ts' -> exists ts, queue_of k q = Some ts /\ (ts' = ts \/ ts' = tail ts)).
  { intros q ts' Hts'. destruct (decide (q = q0)) as [->|Hne].
    - exists ts. split; [done|]. right. congruence.
    - rewrite Hqo in Hts' by done. exists ts'. auto. }
  destruct (sched_ok_shrink main None k k1 Hs Hss Hsub) as [Hs1 Hiq].
  destruct ts as [|t ts]; cbn [head].
  { apply run_to_ret. split; [done|]. split; [apply woken_same, Hss|].
    split; [intros u; by apply dead_shrink|]. exists (threads k1), (readyList k1). by destruct k1. }
  assert (Hin : in_queue k q0 t) by (exists (t :: ts); split; [done|by left]).
  assert (Hst : status_of k t = Some BLOCKED) by by destruct (so_queue _ _ _ _ Hs q0 t Hin) as [|(? & _)].
  pose proof (so_qnodup _ _ _ _ Hs q0 _ Hq0) as Hnd. apply list.NoDup_cons in Hnd as [Hnt Hnd].
  eapply run_to_mono; [apply (ReadyToRun_ok main false None k1 t BLOCKED Hs1)|].
  - by rewrite (same_status _ _ _ Hss).
  - done.
  - intros q Hq. assert (q = q0) as ->.
    { eapply (so_disjoint _ _ _ _ Hs); [by apply Hiq|done]. }
    destruct Hq as (ts' & Hts' & Ht). rewrite Hq1 in Hts'. injection Hts' as <-. done.
  - rewrite (ss_destroy _ _ Hss). intros Hd. destruct (so_dead _ _ _ _ Hs t Hd) as [_ [Hd'|(? & _)]]; [|done].
    by apply (proj2 (proj2 Hd') q0).
  - done.
  - intros [] k' (Hs' & Hst' & Hd' & th & rl & Hth & Hk'). split; [done|]. split; [|split].
    + intros u. rewrite Hst'. destruct (decide (u = t)) as [->|]; [by right|left].
      by rewrite (same_status _ _ _ Hss).
    + intros u Hu. apply Hd'; [|by eapply dead_shrink]. intros ->. by apply (proj2 (proj2 Hu) q0).
    + by eexists _, rl.
Qed.

(** The running thread enters a queue. *)
Lemma enqueue_ok main k k' q0 ts :
  sched_ok main false None k -> status_of k (currentThread k) = Some RUNNING -> same_sched k k' ->
  queue_of k q0 = Some ts -> queue_of k' q0 = Some (ts ++ [currentThread k]) ->
  (forall q, q <> q0 -> queue_of k' q = queue_of k q) ->
  sched_ok main true None k' /\ (forall u, u <> currentThread k -> dead k u -> dead k' u) /\
  in_queue k' q0 (currentThread k).
Proof.
  intros Hs Hrun Hss Hq0 Hq1 Hqo. set (t := currentThread k) in *.
  assert (Hiq : forall q u, in_queue k' q u -> in_queue k q u \/ (q = q0 /\ u = t)).
  { intros q u (ts' & Hts' & Hu). destruct (decide (q = q0)) as [->|Hne].
    - rewrite Hq1 in Hts'. injection Hts' as <-. rewrite elem_of_app, list_elem_of_singleton in Hu.
      destruct Hu as [Hu|Hu]; [left; by exists ts|by right].
    - rewrite Hqo in Hts' by done. left. by exists ts'. }
  assert (Hnt : forall q, ~ in_queue k q t).
  { intros q Hq. destruct (so_queue _ _ _ _ Hs q t Hq) as [?|(? & _)]; congruence. }
  assert (Hdead : forall u, u <> t -> dead k u -> dead k' u).
  { intros u Hu (H0 & H1 & H2). split; [by rewrite (ss_next _ _ Hss)|].
    rewrite (same_status _ _ _ Hss). split; [done|]. intros q Hq.
    destruct (Hiq q u Hq) as [?|[_ ?]]; [by apply (H2 q)|done]. }
  split; [|split; [done|]].
  2:{ exists (ts ++ [t]). split; [done|]. rewrite elem_of_app, list_elem_of_singleton. by right. }
  pose proof Hs as []. split.
  - intros u. rewrite (same_status _ _ _ Hss), (ss_current _ _ Hss). apply so_run0.
  - intros u. rewrite (same_status _ _ _ Hss). unfold ready. rewrite (ss_ready _ _ Hss). apply so_ready0.
  - done.
  - unfold ready. by rewrite (ss_ready _ _ Hss).
  - intros q u Hu. rewrite (same_status _ _ _ Hss), (ss_current _ _ Hss).
    destruct (Hiq q u Hu) as [Hu'|[_ ->]]; [|by right].
    left. by destruct (so_queue0 q u Hu') as [|(? & _)].
  - intros q ts' Hts'. destruct (decide (q = q0)) as [->|Hne].
    + rewrite Hq1 in Hts'. injection Hts' as <-. apply NoDup_app. split; [by apply (so_qnodup0 q0)|].
      split; [|apply NoDup_singleton]. intros u Hu. rewrite list_elem_of_singleton. intros ->.
      apply (Hnt q0). by exists ts.
    + rewrite Hqo in Hts' by done. by apply (so_qnodup0 q).
  - intros q1 q2 u H1 H2. destruct (Hiq q1 u H1) as [H1'|[-> E1]], (Hiq q2 u H2) as [H2'|[-> E2]]; [|subst u..|done].
    + by eapply so_disjoint0.
    + by destruct (Hnt q1).
    + by destruct (Hnt q2).
  - intros u. rewrite (ss_destroy _ _ Hss), (ss_threads _ _ Hss). intros Hu.
    destruct (so_dead0 u Hu) as [H0 [H1|(? & _)]]; [|done]. split; [done|]. left. apply Hdead; [|done].
    intros ->. destruct H1 as (_ & [?|?] & _); congruence.
  - intros u th. rewrite (ss_threads _ _ Hss), (ss_next _ _ Hss). apply so_threads0.
Qed.

(** ** New threads *)

Lemma Thread_new_ok main e k :
  sched_ok main e None k ->
  run_to Thread_new k (fun t k' =>
    t = nextThread k /\ sched_ok main e None k' /\ status_of k' t = Some JUST_CREATED /\
    (forall q, ~ in_queue k' q t) /\ threadToBeDestroyed k' <> Some t /\
    (forall u, u <> t -> status_of k' u = status_of k u) /\ (forall u, dead k u -> dead k' u) /\
    exists ths n, k' = set_nextThread n (set_threads ths k)).
Proof.
  intros Hs. unfold Thread_new. apply run_to_bind, run_to_gets. set (t := nextThread k).
  apply run_to_bind, run_to_modify, run_to_ret. set (th := mkThread _ _ _ _ _).
  set (k' := set_nextThread (t + 1) _).
  assert (Hfr : threads k !! t = None).
  { destruct (threads k !! t) as [th'|] eqn:E; [|done]. destruct (so_threads _ _ _ _ Hs t th' E). unfold t in *. lia. }
  assert (Hstn : status_of k t = None) by (unfold status_of; by rewrite Hfr).
  assert (Hst' : forall u, status_of k' u = if decide (u = t) then Some JUST_CREATED else status_of k u).
  { intros u. apply (status_update k t th u). }
  assert (Hnq : forall q, ~ in_queue k q t).
  { intros q Hq. destruct (so_queue _ _ _ _ Hs q t Hq) as [?|(_ & _ & ?)]; congruence. }
  assert (Hdead : forall u, dead k u -> dead k' u).
  { intros u (H0 & H1 & H2). assert (u <> t) by (unfold t; lia). split; [cbn; unfold t; lia|].
    rewrite Hst', decide_False by done. split; [done|]. intros q. apply (H2 q). }
  assert (Hnd : threadToBeDestroyed k <> Some t).
  { intros Hd. destruct (so_dead _ _ _ _ Hs t Hd) as [[? ?] _]. congruence. }
  split; [done|]. split; [|split; [by rewrite Hst', decide_True|split; [done|split; [done|split; [|split; [done|by eexists _, _]]]]]].
  2:{ intros u Hu. by rewrite Hst', decide_False. }
  pose proof Hs as []. split; try done.
  - intros u. rewrite Hst'. destruct (decide (u = t)); [done|]. apply so_run0.
  - intros u. rewrite Hst'. destruct (decide (u = t)) as [->|]; [|apply so_ready0].
    split; [|by intros []]. intros Hr. apply so_ready0 in Hr as [? _]. congruence.
  - intros q u Hu. rewrite Hst'. destruct (decide (u = t)) as [->|]; [by destruct (Hnq q)|]. by apply (so_queue0 q).
  - intros u Hu. destruct (so_dead0 u Hu) as [H0 H1]. assert (u <> t) by (intros ->; done).
    split; [cbn; by rewrite lookup_insert_ne|]. destruct H1 as [H1|(H1 & H2 & H3 & H4)]; [left; by apply Hdead|right].
    split_and!; try done. by rewrite Hst', decide_False.
  - intros u thu. cbn. destruct (decide (u = t)) as [->|Hu].
    + rewrite lookup_insert_eq. intros [= <-]. split; [|lia]. by split.
    + rewrite lookup_insert_ne by done. intros Hth. destruct (so_threads0 u thu Hth). split; [done|]. unfold t. lia.
Qed.

(** ** The other objects, when semaphores or conditions change *)

(** Objects are only ever changed, never removed. *)
Record same_objs k k' : Prop := {
  so_locks : locks k' = locks k;
  so_sems : forall s, is_Some (semaphores k !! s) -> is_Some (semaphores k' !! s);
  so_conds : forall c, is_Some (conditions k !! c) -> is_Some (conditions k' !! c);
  so_lists : synchlists k' = synchlists k;
  so_timers : timers k' = timers k
}.

Lemma rely_objs t k k' : same_objs k k' -> (dead k t -> dead k' t) -> rely t k k'.
Proof.
  intros [E1 E2 E3 E4 E5] Hd. split; try done.
  - intros l. unfold heldBy. by rewrite E1.
  - by rewrite E1.
  - intros s sl H. exists sl. by rewrite E4.
  - by rewrite E5.
Qed.

Lemma handler_ok_mono k k' p :
  (forall s, is_Some (semaphores k !! s) -> is_Some (semaphores k' !! s)) -> timers k' = timers k ->
  handler_ok k p -> handler_ok k' p.
Proof.
  intros E1 E2 [(H1 & tm & H2 & H3)|[H1 H2]]; [left|right].
  - split; [done|]. exists tm. by rewrite E2.
  - auto.
Qed.

Lemma objs_ok_objs E k k' :
  same_objs k k' -> interrupt k' = interrupt k -> rand k' = rand k -> machine k' = machine k ->
  (forall s v, semaphores k' !! s = Some v -> 0 <= value v) -> objs_ok E k -> objs_ok E k'.
Proof.
  intros [E1 E2 E3 E4 E5] Ei Er Em Hv []. split; rewrite ?E1, ?E4, ?Ei, ?Er, ?Em; auto.
  - intros s sl H. destruct (ob_list0 s sl H) as (H1 & H2 & H3 & H4). split_and!; try done; auto.
  - intros w p H. destruct (ob_pending0 w p H). split; [done|]. by eapply handler_ok_mono.
Qed.

Lemma insert_dom {A} (m : gmap Z A) i x : is_Some (m !! i) ->
  forall j, is_Some (m !! j) -> is_Some (<[i := x]> m !! j).
Proof.
  intros Hi j Hj. destruct (decide (j = i)) as [->|]; [by rewrite lookup_insert_eq|by rewrite lookup_insert_ne].
Qed.

(** [V_body], interrupts being off. *)
Lemma run_get_sem s k v (Q : Semaphore L -> K -> Prop) :
  semaphores k !! s = Some v -> Q v k -> run_to (get_sem s) k Q.
Proof.
  intros Hv HQ. unfold get_sem. apply run_to_bind, run_to_gets. eapply run_to_lift; [by rewrite Hv|done].
Qed.

Lemma V_body_ok main E k s :
  sched_ok main false None k -> objs_ok E k -> is_Some (semaphores k !! s) ->
  run_to (V_body s) k (fun _ k' =>
    sched_ok main false None k' /\ objs_ok E k' /\ woken k k' /\ (forall u, rely u k k') /\
    interrupt k' = interrupt k /\ cpu k' = cpu k /\ currentThread k' = currentThread k).
Proof.
  intros Hs Ho [v Hv]. unfold V_body. apply run_to_bind. apply (run_get_sem s k v); [done|].
  pose proof (Remove_content (queue v)) as [H1 H2]. destruct (Remove (queue v)) as [o q]. cbn [fst snd] in *.
  apply run_to_bind, run_to_modify, run_to_bind. set (k1 := set_semaphores _ k). rewrite H1.
  assert (Hq1 : queue_of k1 (QSem s) = Some (tail (content (queue v)))) by (cbn; rewrite lookup_insert_eq; cbn; by rewrite H2).
  assert (Hqo : forall q', q' <> QSem s -> queue_of k1 q' = queue_of k q').
  { intros [s'|c] Hne; [|done]. cbn. by rewrite lookup_insert_ne by congruence. }
  eapply run_to_mono; [apply (wake_ok main k k1 (QSem s) (content (queue v)) Hs); [done|cbn; by rewrite Hv|done|done]|].
  intros [] k2 (Hs2 & Hw2 & Hd2 & ths & rl & Hk2).
  assert (Hv2 : semaphores k2 !! s = Some (set_queue q v)) by (rewrite Hk2; cbn; by rewrite lookup_insert_eq).
  apply run_to_bind. apply (run_get_sem s k2 _ _ Hv2). apply run_to_modify. set (k3 := set_semaphores _ k2).
  assert (Hqs : forall q' ts', queue_of k3 q' = Some ts' -> exists ts, queue_of k2 q' = Some ts /\ (ts' = ts \/ ts' = tail ts)).
  { intros [s'|c] ts' Hts'; [|by eauto]. exists ts'. split; [|by left]. cbn in Hts' |- *.
    destruct (decide (s' = s)) as [->|]; [|by rewrite lookup_insert_ne in Hts'].
    rewrite lookup_insert_eq in Hts'. by rewrite Hv2. }
  destruct (sched_ok_shrink main None k2 k3 Hs2) as [Hs3 Hiq]; [done|done|].
  assert (Hobj : same_objs k k3).
  { subst k3 k2 k1. split; cbn; try done. intros s' Hs'.
    apply insert_dom; [by rewrite lookup_insert_eq|]. by apply insert_dom; [rewrite Hv|]. }
  split; [done|]. split; [|split; [|split]].
  - apply (objs_ok_objs E k k3 Hobj); [by subst k3 k2|by subst k3 k2|by subst k3 k2| |done].
    intros s' v'. subst k3. cbn. destruct (decide (s' = s)) as [->|Hne].
    + rewrite lookup_insert_eq. intros [= <-]. cbn. pose proof (ob_value _ _ Ho s v Hv). lia.
    + rewrite lookup_insert_ne by done. subst k2. cbn. rewrite lookup_insert_ne by done. apply Ho.
  - by eapply woken_trans; [exact Hw2|apply woken_same].
  - intros u. apply rely_objs; [done|]. intros Hu. apply (dead_shrink k2 k3 u); [done|exact Hiq|by apply Hd2].
  - by subst k3 k2.
Qed.
End Inv.
