(* ===== verification/ThreadSpecs.v ===== *)
(** * Specifications of the thread operations

    Every operation of the thread system, verified for one thread in the
    rely-guarantee logic of Proc.v: it fails no ASSERT, follows no invalid
    pointer, keeps the invariants of ThreadInv.v at every switch and
    whenever interrupts are on, and has the stated effect.  The rules are
    in continuation-passing form. *)

From stdpp Require Import base list sorting numbers gmap.
From S2P Require Import Prelude Arrays State Proc List Machine Kernel Synch ThreadInv.

Section Specs.
Context {L : Type -> Type} `{!ListOps L, !ListLaws L}.
Context (main : Z) (E : Env) (user : Z -> Z -> client).
Notation K := (Kernel L).
Implicit Types (k : Kernel L) (t u : Z).

(** An ASSERT or an invalid access is bad; Halt is not. *)
Definition bad (e : err) : bool := negb (bool_decide (e = Exited)).

Definition lv k : IntStatus := level (interrupt k).

(** Thread [t] runs ordinary kernel code. *)
Record normal t k : Prop := {
  n_cpu : cpu k = t;
  n_cur : currentThread k = t;
  n_sched : sched_ok main false None k;
  n_run : status_of k t = Some RUNNING;
  n_handler : inHandler (interrupt k) = false;
  n_objs : objs_ok E k
}.

Definition always t k : Prop := lv k = IntOn -> normal t k.
Definition inv k : Prop := lv k = IntOff /\ normal (cpu k) k.

Notation WP := (wp (code user) cpu bad always inv rely).

(** What [t] kept for the others since it got the processor in [w0]. *)
Definition kept t w0 k : Prop := forall u, u <> t -> rely u w0 k.

Lemma kept_trans t w0 k k' : kept t w0 k -> (forall u, u <> t -> rely u k k') -> kept t w0 k'.
Proof. intros H1 H2 u Hu. by eapply rely_trans; [apply H1|apply H2]. Qed.

Lemma always_off t k : lv k = IntOff -> always t k.
Proof. intros H H'. congruence. Qed.

(** An atomic step with interrupts off. *)
Lemma wp_off n t {A} w0 (m : M K A) (Q : nat -> K -> A -> K -> Prop) k :
  run_to m k (fun a k' => cpu k' = t /\ lv k' = IntOff /\ forall j, (j <= n)%nat -> Q j w0 a k') ->
  WP n t w0 (Atom m) Q k.
Proof.
  intros H. apply wp_atom. eapply run_to_mono; [exact H|]. intros a k' (H1 & H2 & H3).
  split; [done|]. split; [by apply always_off|done].
Qed.

(** A step that only reads the state. *)
Lemma wp_read n t {A} w0 (m : M K A) (Q : nat -> K -> A -> K -> Prop) k :
  cpu k = t -> always t k ->
  run_to m k (fun a k' => k' = k /\ forall j, (j <= n)%nat -> Q j w0 a k) -> WP n t w0 (Atom m) Q k.
Proof.
  intros Hc Ha H. apply wp_atom. eapply run_to_mono; [exact H|]. by intros a k' [-> HQ].
Qed.

Definition with_level (v : IntStatus) k : K := set_interrupt (set_level v (interrupt k)) k.

Lemma SetLevel_off n t w0 (Q : nat -> K -> IntStatus -> K -> Prop) k :
  cpu k = t ->
  (forall m, (m <= n)%nat -> Q m w0 (lv k) (with_level IntOff k)) -> WP n t w0 (SetLevel IntOff) Q k.
Proof.
  intros Hc HQ. unfold SetLevel. apply wp_bind, wp_off.
  apply run_to_bind, run_to_gets, run_to_bind, run_to_gets, run_to_bind, run_to_assert; [done|].
  apply run_to_bind, run_to_modify, run_to_ret. split; [done|]. split; [done|]. intros j Hj. cbn.
  apply wp_ret; [done|by apply always_off|]. intros i Hi. apply HQ. lia.
Qed.

(** Interrupts stay off. *)
Lemma SetLevel_same n t w0 (Q : nat -> K -> IntStatus -> K -> Prop) k :
  cpu k = t -> lv k = IntOff -> (forall m, (m <= n)%nat -> Q m w0 IntOff k) -> WP n t w0 (SetLevel IntOff) Q k.
Proof.
  intros Hc Hl HQ. apply SetLevel_off; [done|]. intros m Hm. unfold with_level.
  assert (Hk : set_interrupt (set_level IntOff (interrupt k)) k = k).
  { destruct k as [? ? ? ? ? ? []]. cbn in *. by subst. }
  rewrite Hk, Hl. by apply HQ.
Qed.

(** ** Interrupt handlers *)

(** [t]'s processor time with interrupts off: all invariants but that [t]
    itself is running. *)
Record quiet t w0 k : Prop := {
  q_cpu : cpu k = t;
  q_cur : currentThread k = t;
  q_level : lv k = IntOff;
  q_sched : sched_ok main false None k;
  q_objs : objs_ok E k;
  q_kept : kept t w0 k
}.

(** What handlers may do from [k] on. *)
Record handled t k k' : Prop := {
  h_rely : rely t k k';
  h_woken : woken k k';
  h_in : inHandler (interrupt k') = inHandler (interrupt k)
}.

Lemma handled_refl t k : handled t k k.
Proof. split; [apply rely_refl|apply woken_refl|done]. Qed.

Lemma handled_trans t k1 k2 k3 : handled t k1 k2 -> handled t k2 k3 -> handled t k1 k3.
Proof.
  intros [] []. split; [by eapply rely_trans|by eapply woken_trans|congruence].
Qed.

(** Changes of the interrupt state and the clock, of the machine's random
    numbers and of nothing else. *)
Definition only_interrupt k k' : Prop := exists i s n,
  k' = set_interrupt i (set_stats s (set_nrand n k)).

Lemma only_interrupt_rely u k k' : only_interrupt k k' -> rely u k k'.
Proof. intros (i & s & n & ->). by apply rely_same. Qed.

Lemma only_interrupt_woken k k' : only_interrupt k k' -> woken k k'.
Proof. intros (i & s & n & ->). by apply woken_same. Qed.

Lemma only_interrupt_sched e h k k' : only_interrupt k k' -> sched_ok main e h k -> sched_ok main e h k'.
Proof. intros (i & s & n & ->). by apply sched_ok_same. Qed.

(** [pending] is the only part of the interrupt state that matters. *)
Definition pending_ok k k' : Prop :=
  (forall w p, (w, p) ∈ elems (pending (interrupt k')) -> w = when p /\ handler_ok k p) /\
  keys_sorted (elems (pending (interrupt k'))).

Lemma pending_same k k' :
  objs_ok E k -> elems (pending (interrupt k')) = elems (pending (interrupt k)) -> pending_ok k k'.
Proof. intros Ho He. unfold pending_ok. rewrite He. split; apply Ho. Qed.

Lemma only_interrupt_objs k k' : only_interrupt k k' -> pending_ok k k' -> objs_ok E k -> objs_ok E k'.
Proof.
  intros (i & s & n & ->) [Hp Hs] Ho. by apply (objs_ok_interrupt E k).
Qed.

Lemma quiet_interrupt t w0 k k' :
  quiet t w0 k -> only_interrupt k k' -> pending_ok k k' -> lv k' = IntOff -> quiet t w0 k'.
Proof.
  intros [] Hi Hp Hl. split; [|..].
  - by destruct Hi as (? & ? & ? & ->).
  - by destruct Hi as (? & ? & ? & ->).
  - done.
  - by eapply only_interrupt_sched.
  - by eapply only_interrupt_objs.
  - eapply kept_trans; [done|]. intros u _. by apply only_interrupt_rely.
Qed.

Lemma handled_interrupt t k k' :
  only_interrupt k k' -> inHandler (interrupt k') = inHandler (interrupt k) -> handled t k k'.
Proof. intros Hi Hh. split; [by apply only_interrupt_rely|by apply only_interrupt_woken|done]. Qed.

(** [Schedule] puts the interrupt in its place. *)
Lemma Schedule_ok k h a from ty :
  objs_ok E k -> 0 < from -> handler_ok k (mkPI h a (totalTicks (stats k) + from) ty) ->
  run_to (Schedule h a from ty) k (fun _ k' => only_interrupt k k' /\ pending_ok k k' /\
    lv k' = lv k /\ inHandler (interrupt k') = inHandler (interrupt k)).
Proof.
  intros Ho Hf Hh. unfold Schedule. apply run_to_bind, run_to_gets, run_to_bind, run_to_assert; [by apply Z.ltb_lt|].
  apply run_to_modify. split; [exists (set_pending (SortedInsert (mkPI h a (totalTicks (stats k) + from) ty)
      (totalTicks (stats k) + from) (pending (interrupt k))) (interrupt k)), (stats k), (nrand k); by destruct k|].
  split; [|done]. unfold pending_ok. cbn. rewrite elems_insert. split.
  - intros w p Hin. rewrite insert_sorted_perm, elem_of_cons in Hin. destruct Hin as [[= -> ->]|Hin]; [by split|].
    by apply (ob_pending _ _ Ho).
  - apply insert_sorted_sorted, Ho.
Qed.

Lemma V_off n t w0 s (Q : nat -> K -> unit -> K -> Prop) k :
  quiet t w0 k -> is_Some (semaphores k !! s) ->
  (forall m k', (m <= n)%nat -> quiet t w0 k' -> handled t k k' -> Q m w0 tt k') ->
  WP n t w0 (V s) Q k.
Proof.
  intros Hq Hs HQ. pose proof Hq as []. unfold V. apply wp_bind, SetLevel_same; [done|done|]. intros m Hm.
  apply wp_bind, wp_off. eapply run_to_mono; [by apply (V_body_ok main E k s)|].
  intros [] k' (Hs' & Ho' & Hw' & Hr' & Hi' & Hc' & Hcu').
  assert (Hl' : lv k' = IntOff) by (unfold lv; rewrite Hi'; exact q_level0).
  split; [congruence|]. split; [done|]. intros j Hj.
  apply wp_bind, SetLevel_same; [congruence|done|]. intros i Hi.
  apply wp_ret; [congruence|by apply always_off|]. intros i' Hi''.
  apply HQ; [lia| |split; [done|done|by rewrite Hi']].
  split; [congruence|congruence|done|done|done|]. eapply kept_trans; [done|]. auto.
Qed.

(** Random waiting times are positive. *)
Lemma TimeOfNextInterrupt_ok tm k :
  objs_ok E k ->
  run_to (TimeOfNextInterrupt tm) k (fun n k' => 0 < n /\ exists r, k' = set_nrand r k).
Proof.
  intros Ho. unfold TimeOfNextInterrupt. destruct (randomize tm).
  - unfold Random. apply run_to_bind, run_to_bind, run_to_gets, run_to_bind, run_to_modify, run_to_ret, run_to_ret.
    cbn. split; [|by eexists]. pose proof (ob_rand _ _ Ho (nrand k)) as Hr.
    pose proof (Z.rem_nonneg (rand k (nrand k)) (TimerTicks * 2) ltac:(done) Hr). lia.
  - apply run_to_ret. split; [done|]. exists (nrand k). by destruct k.
Qed.

Lemma TimerExpired_ok n t w0 a (Q : nat -> K -> unit -> K -> Prop) k :
  quiet t w0 k -> inHandler (interrupt k) = true ->
  (exists tm, timers k !! a = Some tm /\ thandler tm = TimerInterruptHandler) ->
  (forall m k', (m <= n)%nat -> quiet t w0 k' -> handled t k k' -> Q m w0 tt k') ->
  WP n t w0 (TimerExpired a) Q k.
Proof.
  intros Hq Hin (tm & Htm & Hth) HQ. pose proof Hq as []. unfold TimerExpired. apply wp_bind, wp_off.
  apply run_to_bind, run_to_gets, run_to_bind. eapply run_to_lift; [by rewrite Htm|]. apply run_to_bind.
  eapply run_to_mono; [by apply TimeOfNextInterrupt_ok|]. intros d k1 [Hd [r ->]]. set (k1 := set_nrand r k).
  apply run_to_bind. assert (Ho1 : objs_ok E k1) by by apply (objs_ok_same E k).
  eapply run_to_mono; [apply (Schedule_ok k1); [done|done|]|].
  { left. split; [done|]. by exists tm. }
  intros [] k2 (Hi2 & Hp2 & Hl2 & Hh2). apply run_to_ret.
  assert (Hi : only_interrupt k k2) by (destruct Hi2 as (i & s & n' & ->); by exists i, s, n').
  assert (Hq2 : quiet t w0 k2) by (apply (quiet_interrupt t w0 k); [done|done|done|rewrite Hl2; exact q_level0]).
  pose proof Hq2 as [Hc2 Hcu2 Hlv2 _ _ _].
  split; [done|]. split; [done|]. intros j Hj. apply wp_call; [done|by apply always_off|]. intros m Hm.
  rewrite Hth. cbn [code]. apply wp_off. unfold TimerInterrupt. apply run_to_bind, run_to_gets.
  assert (Hin2 : inHandler (interrupt k2) = true) by by rewrite Hh2.
  set (k3 := set_interrupt (set_yieldOnReturn true (interrupt k2)) k2).
  assert (HQ' : forall j k', (j <= n)%nat -> (k' = k2 \/ k' = k3) -> cpu k' = t /\ lv k' = IntOff /\
    forall i, (i <= j)%nat -> wp (code user) cpu bad always inv rely i t w0 (Ret tt) Q k').
  { intros j' k' Hj' Hk'. assert (Hq' : quiet t w0 k' /\ handled t k k').
    { destruct Hk' as [->| ->].
      - split; [done|]. apply handled_interrupt; [done|]. by rewrite Hh2.
      - split; [|apply handled_interrupt].
        + apply (quiet_interrupt t w0 k2); [done| | |done].
          * exists (set_yieldOnReturn true (interrupt k2)), (stats k2), (nrand k2). by destruct k2.
          * by apply pending_same; [apply Hq2|].
        + destruct Hi as (i & s & n' & ->). by exists (set_yieldOnReturn true i), s, n'.
        + exact Hh2. }
    destruct Hq' as [Hq' Hh']. pose proof Hq' as [Hc' _ Hl' _ _ _]. split; [done|]. split; [done|].
    intros i Hi'. apply wp_ret; [done|by apply always_off|]. intros i' Hi''. apply HQ; [lia|done|done]. }
  destruct (bool_decide (mstatus (interrupt k2) = IdleMode)).
  - apply run_to_ret. destruct (HQ' j k2 ltac:(lia) (or_introl eq_refl)) as (H1 & H2 & H3).
    split; [done|]. split; [done|]. intros i Hi'. apply H3. lia.
  - unfold YieldOnReturn. apply run_to_bind, run_to_gets, run_to_bind, run_to_assert; [done|].
    apply run_to_modify. fold k3. destruct (HQ' j k3 ltac:(lia) (or_intror eq_refl)) as (H1 & H2 & H3).
    split; [done|]. split; [done|]. intros i Hi'. apply H3. lia.
Qed.

(** The handler of a pending interrupt. *)
Lemma handler_spec n t w0 p (Q : nat -> K -> unit -> K -> Prop) k :
  quiet t w0 k -> inHandler (interrupt k) = true -> handler_ok k p ->
  (forall m k', (m <= n)%nat -> quiet t w0 k' -> handled t k k' -> Q m w0 tt k') ->
  WP n t w0 (code user (handler p) (arg p)) Q k.
Proof.
  intros Hq Hin [[-> Htm]|[-> Hs]] HQ; cbn [code].
  - by apply TimerExpired_ok.
  - by apply V_off.
Qed.

(** ** CheckIfDue *)

Lemma take_due_ok t w0 adv k :
  quiet t w0 k ->
  run_to (take_due adv) k (fun o k' => quiet t w0 k' /\ only_interrupt k k' /\
    inHandler (interrupt k') = inHandler (interrupt k) /\
    match o with Some p => handler_ok k' p | None => True end).
Proof.
  intros Hq. pose proof Hq as [Hc Hcu Hl Hs Ho Hk]. unfold take_due.
  apply run_to_bind, run_to_gets, run_to_bind, run_to_assert; [by apply bool_decide_eq_true|].
  pose proof (elems_remove _ (pending (interrupt k))) as [Hr Ht].
  destruct (SortedRemove (pending (interrupt k))) as [r pd]. cbn [fst snd] in Hr, Ht.
  set (k1 := set_interrupt (set_pending pd (interrupt k)) k).
  apply run_to_bind, run_to_modify. fold k1.
  assert (Hi1 : only_interrupt k k1) by (exists (set_pending pd (interrupt k)), (stats k), (nrand k); by destruct k).
  assert (Hsort : keys_sorted (elems pd)).
  { rewrite Ht. pose proof (ob_sorted _ _ Ho) as Hso. unfold keys_sorted in *.
    destruct (elems (pending (interrupt k))); [done|]. cbn in Hso |- *. by apply Sorted_inv in Hso as [? _]. }
  assert (Hin : forall w p, (w, p) ∈ elems pd -> w = when p /\ handler_ok k p).
  { intros w p Hp. apply (ob_pending _ _ Ho). rewrite Ht in Hp. destruct (elems (pending (interrupt k))); [done|by right]. }
  assert (Hp1 : pending_ok k k1) by (split; [exact Hin|exact Hsort]).
  assert (Hq1 : quiet t w0 k1) by by apply (quiet_interrupt t w0 k).
  destruct r as [[p w]|]; [|by apply run_to_ret].
  assert (Hp : w = when p /\ handler_ok k p).
  { apply (ob_pending _ _ Ho). destruct (elems (pending (interrupt k))) as [|[a b] l]; [done|].
    injection Hr as -> ->. by left. }
  assert (Hback : forall k2, only_interrupt k1 k2 -> interrupt k2 = interrupt k1 ->
    run_to (_ ← upd_interrupt (fun i => set_pending (SortedInsert p w (pending i)) i); ret None) k2
      (fun (o : option PendingInterrupt) k' => quiet t w0 k' /\ only_interrupt k k' /\
        inHandler (interrupt k') = inHandler (interrupt k) /\
        match o with Some p => handler_ok k' p | None => True end)).
  { intros k2 Hi2 He2. apply run_to_bind, run_to_modify, run_to_ret. rewrite He2.
    set (k3 := set_interrupt _ k2). 
    assert (Hi3 : only_interrupt k k3).
    { destruct Hi2 as (i & s & n & ->). by eexists _, s, n. }
    split; [|split; [done|split; [|done]]]; [|done].
    apply (quiet_interrupt t w0 k); [done|done| |done].
    unfold pending_ok. cbn. rewrite elems_insert. split; [|by apply insert_sorted_sorted].
    intros w' p' Hin'. rewrite insert_sorted_perm, elem_of_cons in Hin'.
    destruct Hin' as [[= -> ->]|Hin']; [done|by apply Hin]. }
  apply run_to_bind, run_to_gets. cbv beta zeta.
  destruct ((totalTicks (stats k1) <? w) && negb adv).
  { apply Hback; [|done]. exists (interrupt k1), (stats k1), (nrand k1). by destruct k1. }
  set (adv_clock := if totalTicks (stats k1) <? w then _ else _).
  assert (Hadv : run_to adv_clock k1 (fun _ k2 => only_interrupt k1 k2 /\ interrupt k2 = interrupt k1)).
  { subst adv_clock. destruct (totalTicks (stats k1) <? w).
    - apply run_to_modify. split; [|done]. exists (interrupt k1), (set_totalTicks w (set_idleTicks
        (idleTicks (stats k1) + (w - totalTicks (stats k1))) (stats k1))), (nrand k1). by destruct k1.
    - apply run_to_ret. split; [|done]. exists (interrupt k1), (stats k1), (nrand k1). by destruct k1. }
  apply run_to_bind. eapply run_to_mono; [exact Hadv|]. intros [] k2 [Hi2 He2]. cbv beta.
  destruct (bool_decide (mstatus (interrupt k) = IdleMode) && bool_decide (type p = TimerInt) && IsEmpty pd).
  { by apply Hback. }
  apply run_to_ret. split.
  - apply (quiet_interrupt t w0 k1); [done|done| |unfold lv; by rewrite He2].
    apply pending_same; [apply Hq1|by rewrite He2].
  - destruct Hi2 as (i & s & n & ->). split; [by eexists _, s, n|]. cbn in He2 |- *. split; [by subst i|].
    apply (handler_ok_same k); [done|done|apply Hp].
Qed.

Lemma CheckIfDue_spec n t w0 adv (Q : nat -> K -> bool -> K -> Prop) k :
  quiet t w0 k -> inHandler (interrupt k) = false ->
  (forall m b k', (m <= n)%nat -> quiet t w0 k' -> handled t k k' -> Q m w0 b k') ->
  WP n t w0 (CheckIfDue adv) Q k.
Proof.
  intros Hq Hin HQ. pose proof Hq as [Hc _ Hl _ Ho _]. unfold CheckIfDue. apply wp_bind, wp_off.
  apply run_to_gets. split; [done|]. split; [done|]. intros j Hj. apply wp_bind, wp_off.
  eapply run_to_mono; [by apply take_due_ok|]. intros o k1 (Hq1 & Hi1 & Hh1 & Ho1).
  pose proof Hq1 as [Hc1 _ Hl1 _ Hob1 _]. split; [done|]. split; [done|]. intros j1 Hj1.
  destruct o as [p|].
  2:{ apply wp_ret; [done|by apply always_off|]. intros i Hi. apply HQ; [lia|done|by apply handled_interrupt]. }
  apply wp_bind, wp_off. apply run_to_bind, run_to_gets. rewrite (ob_machine _ _ Hob1).
  apply run_to_bind, run_to_ret, run_to_modify. set (k2 := set_interrupt _ k1).
  assert (Hi2 : only_interrupt k1 k2).
  { exists (set_inHandler true (set_mstatus SystemMode (interrupt k1))), (stats k1), (nrand k1). by destruct k1. }
  assert (Hq2 : quiet t w0 k2) by (apply (quiet_interrupt t w0 k1); [done|done|by apply pending_same|done]).
  split; [done|]. split; [done|]. intros j2 Hj2. apply wp_call; [done|by apply always_off|]. intros j3 Hj3.
  apply handler_spec; [done|done| |].
  { by apply (handler_ok_same k1). }
  intros j4 k3 Hj4 Hq3 Hh3. pose proof Hq3 as [Hc3 _ Hl3 _ _ _]. apply wp_bind, wp_off, run_to_modify.
  set (k4 := set_interrupt _ k3).
  assert (Hi4 : only_interrupt k3 k4).
  { exists (set_inHandler false (set_mstatus (mstatus (interrupt k)) (interrupt k3))), (stats k3), (nrand k3).
    by destruct k3. }
  assert (Hq4 : quiet t w0 k4).
  { apply (quiet_interrupt t w0 k3); [done|done|apply pending_same; [apply Hq3|done]|done]. }
  split; [done|]. split; [done|]. intros j5 Hj5. apply wp_ret; [done|by apply always_off|]. intros i Hi.
  apply HQ; [lia|done|]. split; [| |done].
  - eapply rely_trans; [by apply only_interrupt_rely|]. eapply rely_trans; [by apply only_interrupt_rely|].
    eapply rely_trans; [apply Hh3|by apply only_interrupt_rely].
  - eapply woken_trans; [by apply only_interrupt_woken|]. eapply woken_trans; [by apply only_interrupt_woken|].
    eapply woken_trans; [apply Hh3|by apply only_interrupt_woken].
Qed.

Lemma drain_spec n t w0 (Q : nat -> K -> unit -> K -> Prop) k :
  quiet t w0 k -> inHandler (interrupt k) = false ->
  (forall m k', (m <= n)%nat -> quiet t w0 k' -> handled t k k' -> Q m w0 tt k') ->
  WP n t w0 (While (CheckIfDue false)) Q k.
Proof.
  intros Hq Hin HQ.
  apply (wp_while _ _ _ _ _ _ n t w0 _ _ _ (fun v0 v => v0 = w0 /\ quiet t w0 v /\ handled t k v)).
  - split; [done|]. split; [done|apply handled_refl].
  - intros v0 v (_ & [] & _). split; [done|by apply always_off].
  - intros m v0 v Hm (-> & Hv & Hh). apply CheckIfDue_spec; [done|by rewrite (h_in _ _ _ Hh)|].
    intros m' b k' Hm' Hq' Hh'. pose proof Hq' as [Hc' _ Hl' _ _ _]. split; [done|]. split; [by apply always_off|].
    assert (Hh2 : handled t k k') by by eapply handled_trans.
    destruct b; [done|]. intros j Hj. apply HQ; [lia|done|done].
Qed.

(** ** Switching *)

Lemma Run_after_normal t k :
  normal t k -> lv k = IntOff ->
  run_to Run_after k (fun _ k' => normal t k' /\ lv k' = IntOff /\ forall u, rely u k k').
Proof.
  intros [] Hl. eapply run_to_mono; [apply (Run_after_ok main k); [done|by rewrite n_cur0]|].
  intros [] k' (Hs & Hr & Hd & ths & Hk'). rewrite n_cur0 in Hr. split; [|split].
  - split; [by subst k'|by subst k'|done|done|by subst k'|]. apply (objs_ok_same E k); by subst k'.
  - by subst k'.
  - intros u. subst k'. apply rely_threads; try done. apply Hd.
Qed.

Lemma Run_spec n t w0 nx (Q : nat -> K -> unit -> K -> Prop) k :
  cpu k = t -> currentThread k = t -> lv k = IntOff -> inHandler (interrupt k) = false ->
  objs_ok E k -> kept t w0 k -> sched_ok main false (Some nx) k ->
  status_of k t <> None -> status_of k t <> Some RUNNING ->
  (forall m w0' k', (m <= n)%nat -> normal t k' -> lv k' = IntOff -> kept t w0' k' -> rely t k k' ->
     ~ dead k t -> Q m w0' tt k') ->
  WP n t w0 (Run nx) Q k.
Proof.
  intros Hc Hcu Hl Hin Ho Hk Hs Hlive Hnr HQ. unfold Run. apply wp_bind, wp_off.
  eapply run_to_mono; [apply (Run_before_ok main k nx Hs)|].
  { rewrite Hcu. unfold status_of in Hlive. by destruct (threads k !! t). }
  { by rewrite Hcu. }
  intros old k1 (Hs1 & Hr1 & Hcu1 & Hd1 & th & Hth & Hk1).
  assert (Hre1 : forall u, rely u k k1) by (intros u; subst k1; apply rely_threads; try done; apply Hd1).
  assert (Ho1 : objs_ok E k1) by (apply (objs_ok_same E k); by subst k1).
  split; [by subst k1|]. split; [by subst k1|]. intros j Hj.
  set (k2 := set_cpu nx k1).
  assert (HSW : SWITCH old nx k1 = Ok (tt, k2)).
  { unfold SWITCH, get_thread, mbind, M_bind, gets, lift, modify. subst k1. cbn. by rewrite lookup_insert_eq. }
  assert (Hn2 : normal nx k2).
  { split; [done|done| |done|by subst k1|]; [by apply (sched_ok_same main false None k1)|by apply (objs_ok_same E k1)]. }
  assert (Hl2 : lv k2 = IntOff) by by subst k1.
  assert (Hre2 : forall u, rely u k k2) by (intros u; eapply rely_trans; [apply Hre1|by apply rely_same]).
  assert (Hfin : forall m w0' k3, (m <= j)%nat -> normal t k3 -> lv k3 = IntOff -> kept t w0' k3 ->
    rely t k k3 -> ~ dead k t -> WP m t w0' (Atom Run_after) Q k3).
  { intros m w0' k3 Hm Hn3 Hl3 Hk3 Hr3 Hnd. apply wp_off. eapply run_to_mono; [by apply Run_after_normal|].
    intros [] k4 (Hn4 & Hl4 & Hr4). split; [apply Hn4|]. split; [done|]. intros i Hi.
    apply HQ; [lia|done|done| |by eapply rely_trans|done]. eapply kept_trans; [done|]. auto. }
  destruct (decide (nx = t)) as [->|Hne].
  - apply wp_bind, wp_off. exists tt, k2. split; [done|]. split; [done|]. split; [done|]. intros i Hi.
    apply Hfin; [lia|done|done| |apply Hre2|].
    + eapply kept_trans; [done|]. auto.
    + pose proof (so_hand _ _ _ _ Hs t eq_refl) as Hst. intros (_ & [?|?] & _); congruence.
  - apply wp_bind. eapply wp_switch; [exact HSW|done| |].
    + split; [by split|]. intros u Hu. eapply rely_trans; [by apply Hk|apply Hre2].
    + intros i w'' Hi Hc'' [Hl'' Hn''] Hr''. rewrite Hc'' in Hn''. apply Hfin; [done|done|done| | |].
      * intros u _. apply rely_refl.
      * eapply rely_trans; [apply Hre2|exact Hr''].
      * intros Hd. assert (Hd'' : dead w'' t) by (apply (re_dead _ _ _ Hr''), (re_dead _ _ _ (Hre2 t)), Hd).
        pose proof (n_run _ _ Hn''). destruct Hd'' as (_ & [?|?] & _); congruence.
Qed.

Lemma Idle_spec n t w0 (Q : nat -> K -> unit -> K -> Prop) k :
  quiet t w0 k -> inHandler (interrupt k) = false ->
  (forall m k', (m <= n)%nat -> quiet t w0 k' -> handled t k k' -> Q m w0 tt k') ->
  WP n t w0 Idle Q k.
Proof.
  intros Hq Hin HQ. pose proof Hq as [Hc _ Hl _ Ho _]. unfold Idle. apply wp_bind, wp_off, run_to_modify.
  set (k1 := set_interrupt _ k).
  assert (Hi1 : only_interrupt k k1).
  { exists (set_mstatus IdleMode (interrupt k)), (stats k), (nrand k). by destruct k. }
  assert (Hq1 : quiet t w0 k1) by (apply (quiet_interrupt t w0 k); [done|done|by apply pending_same|done]).
  assert (Hh1 : handled t k k1) by by apply handled_interrupt.
  split; [done|]. split; [done|]. intros j Hj. apply wp_bind, CheckIfDue_spec; [done|done|].
  intros j2 b k2 Hj2 Hq2 Hh2. destruct b; [|by eapply wp_fail].
  apply wp_bind, drain_spec; [done|by rewrite (h_in _ _ _ Hh2)|].
  intros j3 k3 Hj3 Hq3 Hh3. pose proof Hq3 as [Hc3 _ Hl3 _ Ho3 _]. apply wp_off, run_to_modify.
  set (k4 := set_interrupt _ k3).
  assert (Hi4 : only_interrupt k3 k4).
  { exists (set_mstatus SystemMode (set_yieldOnReturn false (interrupt k3))), (stats k3), (nrand k3). by destruct k3. }
  split; [done|]. split; [done|]. intros i Hi. apply HQ; [lia| |].
  - apply (quiet_interrupt t w0 k3); [done|done|by apply pending_same|done].
  - eapply handled_trans; [exact Hh1|]. eapply handled_trans; [exact Hh2|].
    eapply handled_trans; [exact Hh3|by apply handled_interrupt].
Qed.

(** Sleep returns when another thread or a handler woke the caller. *)
Lemma Sleep_spec e n t w0 (Q : nat -> K -> unit -> K -> Prop) k :
  cpu k = t -> currentThread k = t -> lv k = IntOff -> inHandler (interrupt k) = false ->
  objs_ok E k -> kept t w0 k -> sched_ok main e None k -> status_of k t = Some RUNNING ->
  (forall m w0' k', (m <= n)%nat -> normal t k' -> lv k' = IntOff -> kept t w0' k' -> rely t k k' ->
     ~ (forall q, ~ in_queue k q t) -> Q m w0' tt k') ->
  WP n t w0 (Sleep t) Q k.
Proof.
  intros Hc Hcu Hl Hin Ho Hk Hs Hr HQ. unfold Sleep. apply wp_bind, wp_off.
  apply run_to_bind. unfold this_is_current. apply run_to_bind, run_to_gets, run_to_assert.
  { rewrite Hcu. apply Z.eqb_refl. }
  apply run_to_bind, run_to_gets, run_to_bind, run_to_assert; [by apply bool_decide_eq_true|].
  subst t. rewrite <-Hcu in Hr |- *. 
  eapply run_to_mono; [by apply (block_ok main e k)|].
  intros [] k1 (Hs1 & Hb1 & Hd1 & th & Hth & Hk1). rewrite Hcu in *. set (t := cpu k) in *.
  split; [by subst k1|]. split; [by subst k1|]. intros j Hj.
  assert (Hr1 : forall u, rely u k k1).
  { intros u. assert (Hd : dead k u -> dead k1 u).
    { intros Hu. apply Hd1; [|done]. intros ->. destruct Hu as (_ & [?|?] & _); congruence. }
    subst k1. by apply (rely_threads u). }
  assert (Hq1 : quiet t w0 k1).
  { split; [by subst k1|by subst k1|by subst k1|done|apply (objs_ok_same E k); by subst k1|].
    eapply kept_trans; [done|]. auto. }
  assert (Hin1 : inHandler (interrupt k1) = false) by by subst k1.
  apply (wp_loop _ _ _ _ _ _ _ _ _ _ _ _ _ (fun v0 v => v0 = w0 /\ quiet t w0 v /\ handled t k1 v)).
  - split; [done|]. split; [done|apply handled_refl].
  - intros v0 v (_ & [] & _). split; [done|by apply always_off].
  - intros m v0 v Hm (-> & Hqv & Hhv). pose proof Hqv as [Hcv Hcuv Hlv Hsv Hov Hkv].
    assert (Hstv : status_of v t <> Some RUNNING).
    { rewrite (woken_running k1 v t) by apply Hhv. congruence. }
    apply wp_bind, wp_off. eapply run_to_mono; [by apply (FindNextToRun_ok main false v)|].
    intros o v1 (Hs2 & _ & rl & Hv1). split; [by subst v1|]. split; [by subst v1|]. intros j2 Hj2.
    assert (Hrv : forall u, rely u v v1) by (intros u; subst v1; by apply rely_same).
    assert (Ho2 : objs_ok E v1) by (apply (objs_ok_same E v); by subst v1).
    assert (Hk2 : kept t w0 v1) by (eapply kept_trans; [done|auto]).
    destruct o as [nx|].
    + apply wp_ret; [by subst v1|apply always_off; by subst v1|]. intros j3 Hj3.
      apply Run_spec; try done; try by subst v1.
      * subst v1. cbn. by rewrite (h_in _ _ _ Hhv).
      * assert (Hl1 : status_of v t <> None) by (eapply woken_live; [apply Hhv|congruence]). by subst v1.
      * intros i w0' k' Hi Hn' Hl' Hk' Hr' Hnd. apply HQ; [lia|done|done|done| |].
        -- eapply rely_trans; [apply Hr1|]. eapply rely_trans; [apply Hhv|]. by eapply rely_trans; [apply Hrv|].
        -- intros Hnq. apply Hnd, (re_dead _ _ _ (Hrv t)), (re_dead _ _ _ (h_rely _ _ _ Hhv)).
           split; [|split; [by right|by subst k1]]. subst k1. cbn. by apply (so_threads _ _ _ _ Hs t th).
    + assert (Hqv1 : quiet t w0 v1) by (split; try done; by subst v1).
      assert (Hhv1 : handled t k1 v1).
      { eapply handled_trans; [exact Hhv|]. split; [apply Hrv|apply woken_same; by subst v1|by subst v1]. }
      apply wp_bind, Idle_spec; [done|by rewrite (h_in _ _ _ Hhv1)|]. intros j3 k3 Hj3 Hq3 Hh3.
      pose proof Hq3 as [Hc3 _ Hl3 _ _ _]. apply wp_ret; [done|by apply always_off|]. intros i Hi.
      split; [done|]. split; [done|]. by eapply handled_trans.
Qed.

(** ** Operations of a running thread *)

(** [OneTick], by steps left: Yield calls it again. *)
Definition tick_ok (n : nat) : Prop := forall j t w0 (Q : nat -> K -> unit -> K -> Prop) k,
  (j <= n)%nat -> normal t k -> kept t w0 k ->
  (forall i w0' k', (i <= j)%nat -> normal t k' -> lv k' = IntOn -> kept t w0' k' -> rely t k k' ->
     Q i w0' tt k') ->
  WP j t w0 OneTick Q k.

Lemma normal_interrupt t k k' :
  normal t k -> only_interrupt k k' -> pending_ok k k' -> inHandler (interrupt k') = false -> normal t k'.
Proof.
  intros [] Hi Hp Hh. split.
  - by destruct Hi as (? & ? & ? & ->).
  - by destruct Hi as (? & ? & ? & ->).
  - by eapply only_interrupt_sched.
  - by rewrite (woken_running k k') by by apply only_interrupt_woken.
  - done.
  - by eapply only_interrupt_objs.
Qed.

Lemma only_interrupt_set k i : only_interrupt k (set_interrupt i k).
Proof. exists i, (stats k), (nrand k). by destruct k. Qed.

Lemma normal_level t k v : normal t k -> normal t (with_level v k).
Proof.
  intros Hn. apply (normal_interrupt t k); [done|apply only_interrupt_set| |apply Hn].
  apply pending_same; [apply Hn|done].
Qed.

Lemma quiet_normal t w0 k : normal t k -> kept t w0 k -> lv k = IntOff -> quiet t w0 k.
Proof. intros [] Hk Hl. by split. Qed.

Lemma handled_normal t w0 k k' :
  normal t k -> quiet t w0 k' -> handled t k k' -> normal t k'.
Proof.
  intros [] [] []. split; try done; [by rewrite (woken_running k k')|congruence].
Qed.

Lemma normal_always t k : normal t k -> always t k.
Proof. by intros H _. Qed.

(** Turning interrupts off at the beginning of an operation. *)
Lemma op_SetLevel_off n t w0 (Q : nat -> K -> IntStatus -> K -> Prop) k :
  normal t k -> kept t w0 k ->
  (forall m k', (m <= n)%nat -> k' = with_level IntOff k -> normal t k' -> lv k' = IntOff -> kept t w0 k' ->
     (forall u, rely u k k') -> Q m w0 (lv k) k') ->
  WP n t w0 (SetLevel IntOff) Q k.
Proof.
  intros Hn Hk HQ. apply SetLevel_off; [apply Hn|]. intros m Hm.
  assert (Hr : forall u, rely u k (with_level IntOff k)).
  { intros u. apply only_interrupt_rely, only_interrupt_set. }
  apply HQ; [done|done|by apply normal_level|done| |done]. eapply kept_trans; [done|]. auto.
Qed.

(** Setting the level back: a tick, and perhaps other threads, if
    interrupts were on. *)
Lemma SetLevel_back n m t w0 old (Q : nat -> K -> IntStatus -> K -> Prop) k :
  tick_ok n -> (m <= S n)%nat -> normal t k -> lv k = IntOff -> kept t w0 k ->
  (forall i w0' a k', (i <= m)%nat -> normal t k' -> lv k' = old -> kept t w0' k' -> rely t k k' ->
     Q i w0' a k') ->
  WP m t w0 (SetLevel old) Q k.
Proof.
  intros Ht Hm Hn Hl Hk HQ. destruct old.
  { apply SetLevel_same; [apply Hn|done|]. intros i Hi. apply HQ; [done|done|done|done|apply rely_refl]. }
  unfold SetLevel. apply wp_bind, wp_atom.
  apply run_to_bind, run_to_gets, run_to_bind, run_to_gets, run_to_bind, run_to_assert.
  { cbn. by rewrite (n_handler _ _ Hn). }
  apply run_to_bind, run_to_modify, run_to_ret. pose proof (normal_level t k IntOn Hn) as Hn1.
  unfold ChangeLevel. fold (with_level IntOn k). split; [apply Hn1|]. split; [by apply normal_always|].
  intros i Hi. fold (lv k). rewrite Hl. cbn [bool_decide decide IntStatus_eq_dec andb].
  assert (Hr1 : forall u, rely u k (with_level IntOn k)).
  { intros u. apply only_interrupt_rely, only_interrupt_set. }
  apply wp_call; [apply Hn1|by apply normal_always|]. intros i1 Hi1. cbn [code].
  apply Ht; [lia|done|eapply kept_trans; [done|auto]|].
  intros i2 w0' k2 Hi2 Hn2 Hl2 Hk2 Hr2. apply wp_ret; [apply Hn2|by apply normal_always|].
  intros i3 Hi3. apply HQ; [lia|done|done|done|]. by eapply rely_trans; [apply Hr1|].
Qed.

Lemma Yield_ok n : tick_ok n -> forall m t w0 (Q : nat -> K -> unit -> K -> Prop) k,
  (m <= S n)%nat -> normal t k -> kept t w0 k ->
  (forall i w0' k', (i <= m)%nat -> normal t k' -> lv k' = lv k -> kept t w0' k' -> rely t k k' ->
     Q i w0' tt k') ->
  WP m t w0 (Yield t) Q k.
Proof.
  intros Ht m t w0 Q k Hm Hn Hk HQ. unfold Yield. apply wp_bind, op_SetLevel_off; [done|done|].
  intros i k1 Hi _ Hn1 Hl1 Hk1 Hr1. pose proof Hn1 as [Hc1 Hcu1 Hs1 Hst1 Hh1 Ho1].
  apply wp_bind, wp_off. apply run_to_bind. unfold this_is_current. apply run_to_bind, run_to_gets, run_to_assert.
  { rewrite Hcu1. apply Z.eqb_refl. }
  eapply run_to_mono; [by apply (FindNextToRun_ok main false k1)|].
  intros o k2 (Hs2 & _ & rl & Hk2). split; [by subst k2|]. split; [by subst k2|]. intros j Hj.
  assert (Hr2 : forall u, rely u k1 k2) by (intros u; subst k2; by apply rely_same).
  assert (Ho2 : objs_ok E k2) by (apply (objs_ok_same E k1); by subst k2).
  assert (Hkp2 : kept t w0 k2) by (eapply kept_trans; [done|auto]).
  assert (Hend : forall i w0' k', (i <= j)%nat -> normal t k' -> lv k' = IntOff -> kept t w0' k' ->
    rely t k2 k' -> WP i t w0' (SetLevel (lv k);;; Ret tt) Q k').
  { intros i2 w0' k' Hi2 Hn' Hl' Hk' Hr'. apply wp_bind, (SetLevel_back n); [done|lia|done|done|done|].
    intros i3 w0'' a k3 Hi3 Hn3 Hl3 Hk3 Hr3. apply wp_ret; [apply Hn3|by apply normal_always|].
    intros i4 Hi4. apply HQ; [lia|done|done|done|]. eapply rely_trans; [apply Hr1|].
    eapply rely_trans; [apply Hr2|]. by eapply rely_trans. }
  apply wp_bind. destruct o as [nx|].
  - apply wp_bind, wp_off. eapply run_to_mono; [apply (ReadyToRun_ok main false (Some nx) k2 t RUNNING Hs2)|].
    + by subst k2.
    + done.
    + intros q Hq. destruct (so_queue _ _ _ _ Hs2 q t Hq) as [Hb|(? & _)]; [|done]. subst k2.
      change (status_of k1 t = Some BLOCKED) in Hb. congruence.
    + intros Hd. destruct (so_dead _ _ _ _ Hs2 t Hd) as [_ [(_ & Hb & _)|(? & _)]]; [|done]. subst k2.
      change (status_of k1 t = None \/ status_of k1 t = Some BLOCKED) in Hb. destruct Hb; congruence.
    + done.
    + intros [] k3 (Hs3 & Hst3 & Hd3 & th & rl' & Hth & Hk3).
      assert (Hr3 : forall u, u <> t -> rely u k2 k3).
      { intros u Hu. subst k3. apply rely_threads; try done. by apply Hd3. }
      assert (Hr3t : rely t k2 k3).
      { subst k3. apply rely_threads; try done. intros (_ & Hb & _). subst k2.
        change (status_of k1 t = None \/ status_of k1 t = Some BLOCKED) in Hb. destruct Hb; congruence. }
      assert (Hk30 : cpu k3 = t /\ currentThread k3 = t /\ lv k3 = IntOff /\ inHandler (interrupt k3) = false).
      { subst k3 k2. done. }
      destruct Hk30 as (H1 & H2 & H3 & H4). split; [done|]. split; [done|]. intros j2 Hj2.
      apply Run_spec; try done.
      * subst k3. by apply (objs_ok_same E k2).
      * by eapply kept_trans.
      * rewrite Hst3, decide_True by done. done.
      * rewrite Hst3, decide_True by done. done.
      * intros i2 w0' k' Hi2 Hn' Hl' Hk' Hr' _. apply Hend; [lia|done|done|done|]. by eapply rely_trans.
  - assert (Hn2 : normal t k2) by (split; try done; by subst k2).
    apply wp_ret; [apply Hn2|by apply normal_always|]. intros i2 Hi2.
    apply Hend; [done|done|by subst k2|done|apply rely_refl].
Qed.

Lemma tick_step n : tick_ok n -> tick_ok (S n).
Proof.
  intros Ht j t w0 Q k Hj Hn Hk HQ. unfold OneTick. apply wp_bind, wp_off.
  apply run_to_bind, run_to_gets, run_to_bind.
  set (tick := if bool_decide _ then _ else _).
  assert (Htick : run_to tick k (fun _ k' => exists s, k' = set_stats s k)).
  { subst tick. destruct (bool_decide (mstatus (interrupt k) = SystemMode)); apply run_to_modify; by eexists. }
  eapply run_to_mono; [exact Htick|]. intros [] k1 [s Hk1]. apply run_to_bind, run_to_modify, run_to_ret.
  set (k2 := set_interrupt _ k1).
  assert (Hi2 : only_interrupt k k2).
  { exists (set_level IntOff (interrupt k)), s, (nrand k). subst k2 k1. by destruct k. }
  assert (Hh2 : inHandler (interrupt k2) = false) by (subst k2 k1; apply Hn).
  assert (Hn2 : normal t k2).
  { apply (normal_interrupt t k); [done|done|apply pending_same; [apply Hn|by subst k2 k1]|done]. }
  split; [apply Hn2|]. split; [done|]. intros i Hi.
  assert (Hk2 : kept t w0 k2) by (eapply kept_trans; [done|intros u _; by apply only_interrupt_rely]).
  apply wp_bind, drain_spec; [by apply quiet_normal|done|]. intros i2 k3 Hi3 Hq3 Hd3.
  assert (Hn3 : normal t k3) by by eapply handled_normal.
  assert (Hr3 : rely t k k3) by (eapply rely_trans; [by apply only_interrupt_rely|apply Hd3]).
  apply wp_bind, wp_atom. apply run_to_bind, run_to_modify, run_to_bind, run_to_gets, run_to_ret.
  unfold ChangeLevel. fold (with_level IntOn k3).
  pose proof (normal_level t k3 IntOn Hn3) as Hn4. set (k4 := with_level IntOn k3) in *.
  assert (Hr4 : forall u, rely u k3 k4) by (intros u; apply only_interrupt_rely, only_interrupt_set).
  assert (Hk4 : kept t w0 k4) by (eapply kept_trans; [apply Hq3|auto]).
  assert (Hr4' : rely t k k4) by by eapply rely_trans.
  split; [apply Hn4|]. split; [by apply normal_always|]. intros i3 Hi4.
  destruct (yieldOnReturn (interrupt k4)).
  2:{ apply wp_ret; [apply Hn4|by apply normal_always|]. intros i4 Hi5. by apply HQ; [lia|..]. }
  apply wp_bind, wp_atom. apply run_to_bind, run_to_modify, run_to_gets. set (k5 := set_interrupt _ k4).
  assert (Hi5 : only_interrupt k4 k5) by apply only_interrupt_set.
  assert (Hn5 : normal t k5).
  { apply (normal_interrupt t k4); [done|done|apply pending_same; [apply Hn4|done]|apply Hn4]. }
  split; [apply Hn5|]. split; [by apply normal_always|]. intros i4 Hi6.
  rewrite (n_cur _ _ Hn5). apply wp_bind, (Yield_ok n Ht); [lia|done| |].
  { eapply kept_trans; [done|]. intros u _. by apply only_interrupt_rely. }
  intros i5 w0' k6 Hi7 Hn6 Hl6 Hk6 Hr6. apply wp_atom, run_to_modify. set (k7 := set_interrupt _ k6).
  assert (Hi8 : only_interrupt k6 k7) by apply only_interrupt_set.
  assert (Hn7 : normal t k7).
  { apply (normal_interrupt t k6); [done|done|apply pending_same; [apply Hn6|done]|apply Hn6]. }
  split; [apply Hn7|]. split; [by apply normal_always|]. intros i6 Hi9. apply HQ; [lia|done|exact Hl6| |].
  - eapply kept_trans; [done|]. intros u _. by apply only_interrupt_rely.
  - eapply rely_trans; [exact Hr4'|]. eapply rely_trans; [by apply only_interrupt_rely|].
    eapply rely_trans; [exact Hr6|by apply only_interrupt_rely].
Qed.

Lemma tick_all n : tick_ok n.
Proof.
  induction n as [|n IH]; [|by apply tick_step]. intros j t w0 Q k Hj _ _ _.
  by replace j with 0%nat by lia.
Qed.
End Specs.
