(* ===== verification/SynchSpecs.v ===== *)
(** * Specifications of semaphores, locks, conditions and synchronised lists

    The operations of Synch.v, and every client built from them, verified
    in the logic of Proc.v; the theorem that any system of such clients is
    safe under every interleaving the timer and the devices cause. *)

From stdpp Require Import base list sorting numbers gmap.
From S2P Require Import Prelude Arrays State Proc List Machine Kernel Synch ThreadInv ThreadSpecs.

Section Specs.
Context {L : Type -> Type} `{!ListOps L, !ListLaws L}.
Context (main : Z) (E : Env) (user : Z -> Z -> client).
Notation K := (Kernel L).
Notation normal := (normal main E).
Notation always := (always main E).
Notation inv := (inv main E).
Notation WP := (wp (code user) cpu bad always inv rely).
Implicit Types (k : Kernel L) (t u : Z).

(** [op m Pre Post]: from ordinary code where [Pre] holds, [m] runs to
    ordinary code at the same interrupt level and establishes [Post]. *)
Definition op {A} (m : proc K VoidFunctionPtr A) (Pre : Z -> K -> Prop) (Post : Z -> K -> A -> K -> Prop) : Prop :=
  forall n t w0 (Q : nat -> K -> A -> K -> Prop) k, normal t k -> kept t w0 k -> Pre t k ->
    (forall i w0' a k', (i <= n)%nat -> normal t k' -> lv k' = lv k -> kept t w0' k' -> Post t k a k' ->
       Q i w0' a k') ->
    WP n t w0 m Q k.

(** Setting the level back at the end of an operation. *)
Lemma op_back n t w0 old (Q : nat -> K -> IntStatus -> K -> Prop) k :
  normal t k -> lv k = IntOff -> kept t w0 k ->
  (forall i w0' a k', (i <= n)%nat -> normal t k' -> lv k' = old -> kept t w0' k' -> rely t k k' ->
     Q i w0' a k') ->
  WP n t w0 (SetLevel old) Q k.
Proof. intros Hn Hl Hk HQ. apply (SetLevel_back main E user n n); try done; [apply tick_all|lia]. Qed.

(** The end of an operation: level back, return. *)
Lemma op_end n t w0 old (Q : nat -> K -> unit -> K -> Prop) k :
  normal t k -> lv k = IntOff -> kept t w0 k ->
  (forall i w0' k', (i <= n)%nat -> normal t k' -> lv k' = old -> kept t w0' k' -> rely t k k' ->
     Q i w0' tt k') ->
  WP n t w0 (SetLevel old;;; Ret tt) Q k.
Proof.
  intros Hn Hl Hk HQ. apply wp_bind, op_back; [done|done|done|]. intros i w0' a k' Hi Hn' Hl' Hk' Hr'.
  apply wp_ret; [apply Hn'|by apply normal_always|]. intros j Hj. apply HQ; [lia|done..].
Qed.

Lemma Yield_spec : forall n t w0 (Q : nat -> K -> unit -> K -> Prop) k, normal t k -> kept t w0 k ->
  (forall i w0' k', (i <= n)%nat -> normal t k' -> lv k' = lv k -> kept t w0' k' -> rely t k k' -> Q i w0' tt k') ->
  WP n t w0 (Yield t) Q k.
Proof. intros n t w0 Q k Hn Hk HQ. apply (Yield_ok main E user n); [apply tick_all|lia|done..]. Qed.

Lemma normal_step t k k' :
  normal t k -> sched_ok main false None k' -> objs_ok E k' -> woken k k' ->
  interrupt k' = interrupt k -> cpu k' = cpu k -> currentThread k' = currentThread k -> normal t k'.
Proof.
  intros [] Hs Ho Hw Hi Hc Hcu. split; try done; [congruence|congruence| |by rewrite Hi].
  by rewrite (woken_running k k').
Qed.

(** An atomic step of ordinary code. *)
Lemma wp_normal n t {A} w0 (m : M K A) (Q : nat -> K -> A -> K -> Prop) k :
  run_to m k (fun a k' => normal t k' /\ forall j, (j <= n)%nat -> Q j w0 a k') -> WP n t w0 (Atom m) Q k.
Proof.
  intros H. apply wp_atom. eapply run_to_mono; [exact H|]. intros a k' [Hn HQ].
  split; [apply Hn|]. split; [by apply normal_always|done].
Qed.

Lemma wp_return n t {A} w0 (a : A) (Q : nat -> K -> A -> K -> Prop) k :
  normal t k -> (forall j, (j <= n)%nat -> Q j w0 a k) -> WP n t w0 (Ret a) Q k.
Proof. intros Hn HQ. apply wp_ret; [apply Hn|by apply normal_always|done]. Qed.

Lemma kept_step t w0 k k' : kept t w0 k -> (forall u, u <> t -> rely u k k') -> kept t w0 k'.
Proof. apply kept_trans. Qed.

(** ** Semaphores *)

(** Changing a semaphore but not its queue. *)
Lemma put_sem_ok t k s v v' :
  normal t k -> semaphores k !! s = Some v -> content (queue v') = content (queue v) -> 0 <= value v' ->
  run_to (put_sem s v') k (fun _ k' => normal t k' /\ lv k' = lv k /\ forall u, rely u k k').
Proof.
  intros Hn Hv Hq Hv'. apply run_to_modify. set (k' := set_semaphores _ k). pose proof Hn as [].
  assert (Hqs : forall q' ts', queue_of k' q' = Some ts' -> exists ts, queue_of k q' = Some ts /\ (ts' = ts \/ ts' = tail ts)).
  { intros [s'|c] ts' Hts'; [|by eauto]. exists ts'. split; [|by left]. cbn in Hts' |- *.
    destruct (decide (s' = s)) as [->|]; [|by rewrite lookup_insert_ne in Hts'].
    rewrite lookup_insert_eq in Hts'. rewrite Hv. cbn in *. by rewrite <-Hq. }
  destruct (sched_ok_shrink main None k k') as [Hs' Hiq]; [done|done|done|].
  assert (Hobj : same_objs k k').
  { split; cbn; try done. intros s' Hs''. by apply insert_dom; [rewrite Hv|]. }
  split; [|split; [done|]].
  - apply (normal_step t k); try done; [|by apply woken_same]. apply (objs_ok_objs E k); try done.
    intros s' v2. cbn. destruct (decide (s' = s)) as [->|Hne].
    + rewrite lookup_insert_eq. by intros [= <-].
    + rewrite lookup_insert_ne by done. by apply (ob_value _ _ n_objs).
  - intros u. apply rely_objs; [done|]. by eapply dead_shrink.
Qed.

(** The running thread enters the queue of a semaphore. *)
Lemma wait_sem_ok t w0 k s v :
  normal t k -> kept t w0 k -> lv k = IntOff -> semaphores k !! s = Some v ->
  run_to (put_sem s (set_queue (Append t (queue v)) v)) k (fun _ k' =>
    cpu k' = t /\ currentThread k' = t /\ lv k' = IntOff /\ inHandler (interrupt k') = false /\
    objs_ok E k' /\ kept t w0 k' /\ sched_ok main true None k' /\ status_of k' t = Some RUNNING /\
    rely t k k').
Proof.
  intros Hn Hk Hl Hv. pose proof Hn as []. apply run_to_modify. set (k' := set_semaphores _ k).
  destruct (enqueue_ok main k k' (QSem s) (content (queue v))) as (Hs' & Hd' & Hin'); try done.
  - by rewrite n_cur.
  - cbn. by rewrite Hv.
  - cbn. rewrite lookup_insert_eq. cbn. by rewrite content_append, n_cur.
  - intros [s'|c] Hne; [|done]. cbn. rewrite lookup_insert_ne by congruence. done.
  - assert (Hobj : same_objs k k').
    { split; cbn; try done. intros s' Hs''. by apply insert_dom; [rewrite Hv|]. }
    rewrite n_cur in Hd'. split_and!; try done.
    + apply (objs_ok_objs E k); try done. intros s' v2. cbn. destruct (decide (s' = s)) as [->|Hne].
      * rewrite lookup_insert_eq. intros [= <-]. by apply (ob_value _ _ n_objs s v).
      * rewrite lookup_insert_ne by done. by apply (ob_value _ _ n_objs).
    + eapply kept_trans; [done|]. intros u Hu. apply rely_objs; [done|auto].
    + apply rely_objs; [done|]. intros (_ & [?|?] & _); congruence.
Qed.

Definition quietly (t : Z) (k : K) (a : unit) (k' : K) : Prop := rely t k k'.

Lemma P_spec s : op (P s) (fun t k => is_Some (semaphores k !! s)) quietly.
Proof.
  intros n t w0 Q k Hn Hk Hsem HQ. unfold P. apply wp_bind, op_SetLevel_off; [done|done|].
  intros m k1 Hm _ Hn1 Hl1 Hk1 Hr1. apply wp_bind.
  apply (wp_while _ _ _ _ _ _ m t w0 _ _ _
    (fun v0 v => normal t v /\ kept t v0 v /\ lv v = IntOff /\ rely t k v)).
  - split; [done|]. split; [done|]. split; [done|apply Hr1].
  - intros v0 v (Hv & _). split; [apply Hv|by apply normal_always].
  - intros i v0 v Hi (Hnv & Hkv & Hlv & Hrv). pose proof (re_sems _ _ _ Hrv s Hsem) as [sv Hsv].
    pose proof Hnv as [Hcv Hcuv _ _ _ Hov].
    apply wp_bind, wp_normal. apply (run_get_sem s v sv); [done|]. split; [done|]. intros j Hj.
    destruct (Z.eqb_spec (value sv) 0) as [Hz|Hnz].
    + apply wp_bind, wp_off. apply run_to_bind, (run_get_sem s v sv); [done|].
      apply run_to_bind. unfold current. apply run_to_gets. rewrite Hcuv. apply run_to_bind.
      eapply run_to_mono; [by apply (wait_sem_ok t v0)|].
      intros [] k2 (Hc2 & Hcu2 & Hl2 & Hh2 & Ho2 & Hk2 & Hs2 & Hst2 & Hr2). apply run_to_ret.
      split; [done|]. split; [done|]. intros j2 Hj2. apply wp_bind.
      eapply (Sleep_spec main E user true); try done. intros j3 w0' k3 Hj3 Hn3 Hl3 Hk3 Hr3 _.
      apply wp_return; [done|]. intros j4 Hj4. split; [apply Hn3|]. split; [by apply normal_always|].
      split; [done|]. split; [done|]. split; [done|]. eapply rely_trans; [exact Hrv|].
      eapply rely_trans; [exact Hr2|exact Hr3].
    + apply wp_return; [done|]. intros j2 Hj2. split; [done|]. split; [by apply normal_always|].
      intros j3 Hj3. apply wp_bind, wp_off. apply run_to_bind, (run_get_sem s v sv); [done|].
      pose proof (ob_value _ _ Hov s sv Hsv) as Hpos.
      eapply run_to_mono; [apply (put_sem_ok t v s sv); [done|done|done|cbn; lia]|].
      intros [] k2 (Hn2 & Hl2 & Hr2). split; [apply Hn2|]. split; [congruence|]. intros j4 Hj4.
      apply op_end; [done|congruence|by eapply kept_step; [exact Hkv|auto]|].
      intros j5 w0' k3 Hj5 Hn3 Hl3 Hk3 Hr3. apply HQ; [lia|done|done|done|].
      unfold quietly. eapply rely_trans; [exact Hrv|]. eapply rely_trans; [apply Hr2|exact Hr3].
Qed.

Lemma V_spec s : op (V s) (fun t k => is_Some (semaphores k !! s)) quietly.
Proof.
  intros n t w0 Q k Hn Hk Hsem HQ. unfold V. apply wp_bind, op_SetLevel_off; [done|done|].
  intros m k1 Hm Ek1 Hn1 Hl1 Hk1 Hr1. pose proof Hn1 as []. apply wp_bind, wp_off.
  eapply run_to_mono; [apply (V_body_ok main E k1 s); [done|done|by subst k1]|].
  intros [] k2 (Hs2 & Ho2 & Hw2 & Hr2 & Hi2 & Hc2 & Hcu2).
  assert (Hn2 : normal t k2) by by apply (normal_step t k1).
  assert (Hl2 : lv k2 = IntOff) by (unfold lv; by rewrite Hi2).
  split; [apply Hn2|]. split; [done|]. intros j Hj. apply op_end; [done|done| |].
  - eapply kept_step; [exact Hk1|auto].
  - intros i w0' k3 Hi Hn3 Hl3 Hk3 Hr3. apply HQ; [lia|done|done|done|]. unfold quietly.
    eapply rely_trans; [apply Hr1|]. eapply rely_trans; [apply Hr2|exact Hr3].
Qed.

(** ** Locks *)

(** [rely], but for one lock of the thread's own. *)
Record rely_but (l t : Z) k k' : Prop := {
  rb_held : forall l', l' <> l -> heldBy k l' t <-> heldBy k' l' t;
  rb_locks : forall l, is_Some (locks k !! l) -> is_Some (locks k' !! l);
  rb_sems : forall s, is_Some (semaphores k !! s) -> is_Some (semaphores k' !! s);
  rb_conds : forall c, is_Some (conditions k !! c) -> is_Some (conditions k' !! c);
  rb_lists : forall s sl, synchlists k !! s = Some sl -> exists sl', synchlists k' !! s = Some sl' /\
    lock sl' = lock sl /\ listEmpty sl' = listEmpty sl
}.

Lemma rely_rely_but l t k k' : rely t k k' -> rely_but l t k k'.
Proof.
  intros []. split; auto. intros s sl H. destruct (re_lists s sl H) as (sl' & ? & ? & ? & _). by exists sl'.
Qed.

Lemma rely_but_trans l t k1 k2 k3 : rely_but l t k1 k2 -> rely_but l t k2 k3 -> rely_but l t k1 k3.
Proof.
  intros H1 H2. split; intros.
  - rewrite (rb_held _ _ _ _ H1) by done. by apply H2.
  - by apply H2, H1.
  - by apply H2, H1.
  - by apply H2, H1.
  - destruct (rb_lists _ _ _ _ H1 s sl H) as (sl1 & Hs1 & ? & ?).
    destruct (rb_lists _ _ _ _ H2 s sl1 Hs1) as (sl2 & Hs2 & ? & ?). exists sl2. split; [done|]. split; congruence.
Qed.

Lemma heldBy_put k l l' t h :
  heldBy (set_locks (<[l := mkLock h]> (locks k)) k) l' t <-> if decide (l' = l) then h = Some t else heldBy k l' t.
Proof.
  unfold heldBy. cbn. destruct (decide (l' = l)) as [->|Hne].
  - rewrite lookup_insert_eq. split; [by intros (lk & [= <-] & H)|]. intros ->. by eexists.
  - by rewrite lookup_insert_ne.
Qed.

Lemma run_get_lock l k lk (Q : Lock -> K -> Prop) :
  locks k !! l = Some lk -> Q lk k -> run_to (get_lock l) k Q.
Proof.
  intros Hv HQ. unfold get_lock. apply run_to_bind, run_to_gets. eapply run_to_lift; [by rewrite Hv|done].
Qed.

Lemma run_isHeld l k lk t (Q : bool -> K -> Prop) :
  locks k !! l = Some lk -> currentThread k = t ->
  Q (bool_decide (heldThread lk = Some t)) k -> run_to (isHeldByCurrentThread l) k Q.
Proof.
  intros Hv Hc HQ. unfold isHeldByCurrentThread, current. apply run_to_bind, (run_get_lock l k lk); [done|].
  apply run_to_bind, run_to_gets, run_to_ret. rewrite Hc. destruct (heldThread lk) as [h|].
  - destruct (Z.eqb_spec t h) as [->|Hne].
    + by rewrite bool_decide_eq_true_2 in HQ.
    + rewrite bool_decide_eq_false_2 in HQ by congruence. done.
  - by rewrite bool_decide_eq_false_2 in HQ.
Qed.

(** Changing the holder of a lock from or to the running thread, or from
    nobody. *)
Lemma put_lock_frame k l lk h :
  locks k !! l = Some lk -> let k' := set_locks (<[l := mkLock h]> (locks k)) k in
  (forall e hd, sched_ok main e hd k -> sched_ok main e hd k') /\ (objs_ok E k -> objs_ok E k') /\
  (forall u, (heldThread lk = Some u <-> h = Some u) -> rely u k k') /\ (forall u, rely_but l u k k').
Proof.
  intros Hl k'.
  assert (Hdom : forall l', is_Some (locks k !! l') -> is_Some (locks k' !! l')).
  { intros l'. cbn. apply insert_dom. by rewrite Hl. }
  assert (Hh : forall l' u, l' <> l -> heldBy k l' u <-> heldBy k' l' u).
  { intros l' u Hne. unfold k'. rewrite heldBy_put. by rewrite decide_False. }
  split; [|split; [|split]].
  - intros e hd. by apply sched_ok_same.
  - intros []. split; try done; auto. intros s sl H. destruct (ob_list s sl H) as (H1 & H2 & H3 & H4).
    split_and!; auto.
  - intros u Hu. split; try done.
    + intros l'. destruct (decide (l' = l)) as [->|Hne]; [|by apply Hh].
      unfold k'. rewrite heldBy_put, decide_True by done. rewrite <-Hu. unfold heldBy. rewrite Hl. split.
      * by intros (lk' & [= <-] & H).
      * intros H. by eexists.
    + intros s sl H. by exists sl.
  - intros u. split; try done; [by intros l' Hne; apply Hh|]. intros s sl H. by exists sl.
Qed.

Definition acquired (l t : Z) (k : K) (a : unit) (k' : K) : Prop := rely_but l t k k' /\ heldBy k' l t.
Definition released (l t : Z) (k : K) (a : unit) (k' : K) : Prop := rely_but l t k k' /\ ~ heldBy k' l t.

(** Acquire returns with the lock held, whoever had it before. *)
Lemma Acquire_spec l : op (Acquire l) (fun t k => is_Some (locks k !! l)) (acquired l).
Proof.
  intros n t w0 Q k Hn Hk Hlock HQ. unfold Acquire. apply wp_bind.
  apply (wp_while _ _ _ _ _ _ n t w0 _ _ _
    (fun v0 v => normal t v /\ kept t v0 v /\ lv v = lv k /\ rely t k v)).
  - split; [done|]. split; [done|]. split; [done|apply rely_refl].
  - intros v0 v (Hv & _). split; [apply Hv|by apply normal_always].
  - intros i v0 v Hi (Hnv & Hkv & Hlv & Hrv). pose proof (re_locks _ _ _ Hrv l Hlock) as [lk Hlk].
    pose proof Hnv as [Hcv Hcuv _ _ _ Hov].
    apply wp_bind, wp_normal. apply run_to_bind, (run_get_lock l v lk); [done|].
    apply run_to_bind, (run_isHeld l v lk t); [done|done|]. apply run_to_ret. split; [done|]. intros j Hj.
    destruct (match heldThread lk with Some _ => negb (bool_decide (heldThread lk = Some t)) | None => false end) eqn:Eb.
    + apply wp_bind, wp_normal, run_to_gets. split; [done|]. intros j1 Hj1. rewrite Hcuv.
      apply wp_bind, Yield_spec; [done|done|]. intros j2 w0' k2 Hj2 Hn2 Hl2 Hk2 Hr2.
      apply wp_return; [done|]. intros j3 Hj3. split; [apply Hn2|]. split; [by apply normal_always|].
      split; [done|]. split; [done|]. split; [congruence|]. by eapply rely_trans.
    + assert (Hfree : forall u, u <> t -> heldThread lk <> Some u).
      { intros u Hu Hh. rewrite Hh in Eb. rewrite bool_decide_eq_false_2 in Eb by congruence. done. }
      apply wp_return; [done|]. intros j1 Hj1. split; [done|]. split; [by apply normal_always|].
      intros j2 Hj2. apply wp_bind, op_SetLevel_off; [done|done|].
      intros j3 k1 Hj3 Ek1 Hn1 Hl1 Hk1 Hr1.
      assert (Hlk1 : locks k1 !! l = Some lk) by by subst k1.
      apply wp_bind, wp_off. apply run_to_bind. unfold current. apply run_to_gets. rewrite (n_cur _ _ _ _ Hn1).
      apply run_to_bind, (run_get_lock l k1 lk); [done|]. apply run_to_modify.
      destruct (put_lock_frame k1 l lk (Some t) Hlk1) as (Hs2 & Ho2 & Hr2 & Hb2).
      change (set_heldThread (Some t) lk) with (mkLock (Some t)). set (k2 := set_locks _ k1) in *.
      assert (Hn2 : normal t k2) by (destruct Hn1; split; try done; auto).
      split; [apply Hn2|]. split; [done|]. intros j4 Hj4. apply op_end; [done|done| |].
      * eapply kept_step; [done|]. intros u Hu. apply Hr2. split; [|congruence]. intros H. by destruct (Hfree u).
      * intros j5 w0' k3 Hj5 Hn3 Hl3 Hk3 Hr3. apply HQ; [lia|done|congruence|done|]. split.
        -- eapply rely_but_trans; [by apply rely_rely_but|]. eapply rely_but_trans; [apply rely_rely_but, Hr1|].
           eapply rely_but_trans; [apply Hb2|by apply rely_rely_but].
        -- apply (re_held _ _ _ Hr3). unfold k2. rewrite heldBy_put. by rewrite decide_True.
Qed.

Lemma heldBy_lookup k l lk t : locks k !! l = Some lk -> heldBy k l t <-> heldThread lk = Some t.
Proof.
  intros H. unfold heldBy. rewrite H. split; [by intros (lk' & [= <-] & ?)|]. intros ?. by exists lk.
Qed.

(** Only the holder releases; for others Release does nothing. *)
Lemma Release_spec l : op (Release l) (fun t k => is_Some (locks k !! l)) (released l).
Proof.
  intros n t w0 Q k Hn Hk [lk Hlk] HQ. unfold Release. apply wp_bind, wp_normal.
  apply (run_isHeld l k lk t); [done|apply Hn|]. split; [done|]. intros j Hj.
  destruct (bool_decide (heldThread lk = Some t)) eqn:Eh; cbn [negb].
  2:{ apply bool_decide_eq_false in Eh. apply wp_return; [done|]. intros i Hi.
      apply HQ; [lia|done|done|done|]. split; [apply rely_rely_but, rely_refl|]. by rewrite (heldBy_lookup _ _ lk). }
  apply bool_decide_eq_true in Eh. apply wp_bind, op_SetLevel_off; [done|done|].
  intros j3 k1 Hj3 Ek1 Hn1 Hl1 Hk1 Hr1. assert (Hlk1 : locks k1 !! l = Some lk) by by subst k1.
  apply wp_bind, wp_off. apply run_to_bind, (run_get_lock l k1 lk); [done|]. apply run_to_modify.
  destruct (put_lock_frame k1 l lk None Hlk1) as (Hs2 & Ho2 & Hr2 & Hb2).
  change (set_heldThread None lk) with (mkLock None). set (k2 := set_locks _ k1) in *.
  assert (Hn2 : normal t k2) by (destruct Hn1; split; try done; auto).
  split; [apply Hn2|]. split; [done|]. intros j4 Hj4. apply op_end; [done|done| |].
  - eapply kept_step; [done|]. intros u Hu. apply Hr2. split; congruence.
  - intros j5 w0' k3 Hj5 Hn3 Hl3 Hk3 Hr3. apply HQ; [lia|done|congruence|done|]. split.
    + eapply rely_but_trans; [apply rely_rely_but, Hr1|]. eapply rely_but_trans; [apply Hb2|by apply rely_rely_but].
    + rewrite <-(re_held _ _ _ Hr3 l). unfold k2. rewrite heldBy_put, decide_True by done. done.
Qed.

(** ** Condition variables *)

Lemma run_get_cond c k v (Q : Condition L -> K -> Prop) :
  conditions k !! c = Some v -> Q v k -> run_to (get_cond c) k Q.
Proof.
  intros Hv HQ. unfold get_cond. apply run_to_bind, run_to_gets. eapply run_to_lift; [by rewrite Hv|done].
Qed.

Lemma cond_objs k c v v' : conditions k !! c = Some v ->
  same_objs k (set_conditions (<[c := v']> (conditions k)) k).
Proof. intros Hv. split; cbn; try done. intros c' Hc'. by apply insert_dom; [rewrite Hv|]. Qed.

Lemma wake_spec t w0 k c :
  normal t k -> lv k = IntOff -> kept t w0 k -> is_Some (conditions k !! c) ->
  run_to (wake c) k (fun _ k' => normal t k' /\ lv k' = IntOff /\ kept t w0 k' /\ rely t k k' /\
    is_Some (conditions k' !! c)).
Proof.
  intros Hn Hl Hk [v Hv]. pose proof Hn as []. unfold wake. apply run_to_bind, (run_get_cond c k v); [done|].
  pose proof (Remove_content (cqueue v)) as [H1 H2]. destruct (Remove (cqueue v)) as [o q]. cbn [fst snd] in *.
  apply run_to_bind, run_to_modify. set (k1 := set_conditions _ k). rewrite H1.
  assert (Hq1 : queue_of k1 (QCond c) = Some (tail (content (cqueue v)))) by (cbn; rewrite lookup_insert_eq; cbn; by rewrite H2).
  assert (Hqo : forall q', q' <> QCond c -> queue_of k1 q' = queue_of k q').
  { intros [s'|c'] Hne; [done|]. cbn. by rewrite lookup_insert_ne by congruence. }
  eapply run_to_mono; [apply (wake_ok main k k1 (QCond c) (content (cqueue v))); [done|done|cbn; by rewrite Hv|done|done]|].
  intros [] k2 (Hs2 & Hw2 & Hd2 & ths & rl & Hk2).
  assert (Hobj : same_objs k k2).
  { destruct (cond_objs k c v (set_cqueue q v) Hv) as [E1 E2 E3 E4 E5]. subst k2. by split. }
  assert (Hr : forall u, rely u k k2) by (intros u; apply rely_objs; [done|apply Hd2]).
  split; [|split; [by subst k2|split; [|split; [apply Hr|]]]].
  - apply (normal_step t k); try done; try by subst k2. apply (objs_ok_objs E k); try done; try by subst k2.
    subst k2. cbn. apply (ob_value _ _ n_objs).
  - eapply kept_step; [exact Hk|auto].
  - apply Hobj. by eexists.
Qed.

Lemma Signal_spec c l : op (Signal c l)
  (fun t k => is_Some (conditions k !! c) /\ is_Some (locks k !! l)) quietly.
Proof.
  intros n t w0 Q k Hn Hk [[v Hv] [lk Hlk]] HQ. unfold Signal. apply wp_bind, wp_normal.
  apply run_to_bind, (run_isHeld l k lk t); [done|apply Hn|].
  set (body := if negb _ then _ else _).
  assert (Hb : run_to body k (fun _ k' => k' = k)).
  { subst body. destruct (bool_decide (heldThread lk = Some t)); [|by apply run_to_ret].
    apply run_to_bind, (run_get_cond c k v); [done|by apply run_to_ret]. }
  eapply run_to_mono; [exact Hb|]. intros go ? ->. split; [done|]. intros j Hj.
  destruct go; cbn [negb].
  2:{ apply wp_return; [done|]. intros i Hi. apply HQ; [lia|done|done|done|apply rely_refl]. }
  apply wp_bind, op_SetLevel_off; [done|done|]. intros j3 k1 Hj3 Ek1 Hn1 Hl1 Hk1 Hr1.
  apply wp_bind, wp_off. eapply run_to_mono; [apply (wake_spec t w0 k1 c); [done|done|done|by subst k1; eexists]|].
  intros [] k2 (Hn2 & Hl2 & Hk2 & Hr2 & _). split; [apply Hn2|]. split; [done|]. intros j4 Hj4.
  apply op_end; [done|done|done|]. intros j5 w0' k3 Hj5 Hn3 Hl3 Hk3 Hr3.
  apply HQ; [lia|done|congruence|done|]. unfold quietly. eapply rely_trans; [apply Hr1|].
  eapply rely_trans; [exact Hr2|exact Hr3].
Qed.

Lemma Broadcast_spec c l : op (Broadcast c l)
  (fun t k => is_Some (conditions k !! c) /\ is_Some (locks k !! l)) quietly.
Proof.
  intros n t w0 Q k Hn Hk [Hc [lk Hlk]] HQ. unfold Broadcast. apply wp_bind, wp_normal.
  apply (run_isHeld l k lk t); [done|apply Hn|]. split; [done|]. intros j Hj.
  destruct (bool_decide (heldThread lk = Some t)); cbn [negb].
  2:{ apply wp_return; [done|]. intros i Hi. apply HQ; [lia|done|done|done|apply rely_refl]. }
  apply wp_bind, op_SetLevel_off; [done|done|]. intros j3 k1 Hj3 Ek1 Hn1 Hl1 Hk1 Hr1. apply wp_bind.
  apply (wp_while _ _ _ _ _ _ j3 t w0 _ _ _ (fun v0 v => normal t v /\ kept t v0 v /\ lv v = IntOff /\
    rely t k v /\ is_Some (conditions v !! c))).
  - split; [done|]. split; [done|]. split; [done|]. split; [apply Hr1|by subst k1].
  - intros v0 v (Hv & _). split; [apply Hv|by apply normal_always].
  - intros i v0 v Hi (Hnv & Hkv & Hlv & Hrv & [cv Hcv]). apply wp_bind, wp_normal, (run_get_cond c v cv); [done|].
    split; [done|]. intros i1 Hi1. destruct (IsEmpty (cqueue cv)).
    + apply wp_return; [done|]. intros i2 Hi2. split; [apply Hnv|]. split; [by apply normal_always|].
      intros i3 Hi3. apply op_end; [done|done|done|]. intros j5 w0' k3 Hj5 Hn3 Hl3 Hk3 Hr3.
      apply HQ; [lia|done|congruence|done|]. unfold quietly. by eapply rely_trans.
    + apply wp_bind, wp_normal. eapply run_to_mono; [apply (wake_spec t v0 v c); [done|done|done|by eexists]|].
      intros [] k2 (Hn2 & Hl2 & Hk2 & Hr2 & Hc2). split; [done|]. intros i2 Hi2. apply wp_return; [done|].
      intros i3 Hi3. split; [apply Hn2|]. split; [by apply normal_always|]. split_and!; try done.
      by eapply rely_trans.
Qed.

(** Wait gives the lock away while it sleeps and has it again when it
    returns. *)
Lemma Wait_spec c l : op (Wait c l)
  (fun t k => is_Some (conditions k !! c) /\ is_Some (locks k !! l))
  (fun t k _ k' => rely_but l t k k' /\ (heldBy k l t -> heldBy k' l t)).
Proof.
  intros n t w0 Q k Hn Hk [[v Hv] [lk Hlk]] HQ. unfold Wait. apply wp_bind, wp_normal.
  apply (run_isHeld l k lk t); [done|apply Hn|]. split; [done|]. intros j Hj.
  destruct (bool_decide (heldThread lk = Some t)) eqn:Eh; cbn [negb].
  2:{ apply wp_return; [done|]. intros i Hi. apply HQ; [lia|done|done|done|]. split; [apply rely_rely_but, rely_refl|done]. }
  apply bool_decide_eq_true in Eh. apply wp_bind, op_SetLevel_off; [done|done|].
  intros j3 k1 Hj3 Ek1 Hn1 Hl1 Hk1 Hr1. pose proof Hn1 as [].
  assert (Hv1 : conditions k1 !! c = Some v) by by subst k1.
  assert (Hlk1 : locks k1 !! l = Some lk) by by subst k1.
  (* enter the queue *)
  apply wp_bind, wp_off. apply run_to_bind. unfold current. apply run_to_gets. rewrite n_cur.
  apply run_to_bind, (run_get_cond c k1 v); [done|]. apply run_to_modify. set (k2 := set_conditions _ k1).
  destruct (enqueue_ok main k1 k2 (QCond c) (content (cqueue v))) as (Hs2 & Hd2 & Hin2); try done.
  { by rewrite n_cur. } { cbn. by rewrite Hv1. } { cbn. rewrite lookup_insert_eq. cbn. by rewrite content_append, n_cur. }
  { intros [s'|c'] Hne; [done|]. cbn. rewrite lookup_insert_ne by congruence. done. }
  rewrite n_cur in Hd2, Hin2. pose proof (cond_objs k1 c v (set_cqueue (Append t (cqueue v)) v) Hv1) as Hobj. fold k2 in Hobj.
  assert (Ho2 : objs_ok E k2) by (apply (objs_ok_objs E k1); try done; apply (ob_value _ _ n_objs)).
  assert (Hk2 : kept t w0 k2) by (eapply kept_step; [done|]; intros u Hu; apply rely_objs; [done|auto]).
  assert (Hr2 : rely t k1 k2) by (apply rely_objs; [done|]; intros (_ & [?|?] & _); congruence).
  split; [done|]. split; [done|]. intros j4 Hj4.
  (* release the lock *)
  assert (Hlk2 : locks k2 !! l = Some lk) by done.
  destruct (put_lock_frame k2 l lk None Hlk2) as (Hs3 & Ho3 & Hr3 & Hb3). set (k3 := set_locks _ k2) in *.
  apply wp_bind. unfold Release. apply wp_bind, wp_off, (run_isHeld l k2 lk t); [done|done|].
  split; [done|]. split; [done|]. intros j5 Hj5. rewrite bool_decide_eq_true_2 by done. cbn [negb].
  apply wp_bind, SetLevel_same; [done|done|]. intros j6 Hj6. apply wp_bind, wp_off.
  apply run_to_bind, (run_get_lock l k2 lk); [done|]. apply run_to_modify.
  change (set_heldThread None lk) with (mkLock None). fold k3. split; [done|]. split; [done|]. intros j7 Hj7.
  apply wp_bind, SetLevel_same; [done|done|]. intros j8 Hj8. apply wp_ret; [done|by apply always_off|]. intros j9 Hj9.
  (* sleep *)
  apply wp_bind, wp_off, run_to_gets. split; [done|]. split; [done|]. intros j10 Hj10.
  change (currentThread k3) with (currentThread k1). rewrite n_cur. apply wp_bind.
  apply (Sleep_spec main E user true); try done; auto.
  { eapply kept_step; [done|]. intros u Hu. apply Hr3. split; congruence. }
  intros j11 w0' k4 Hj11 Hn4 Hl4 Hk4 Hr4 _. apply wp_bind, op_back; [done|done|done|].
  intros j12 w0'' a k5 Hj12 Hn5 Hl5 Hk5 Hr5. apply Acquire_spec; [done|done| |].
  { apply (re_locks _ _ _ Hr5), (re_locks _ _ _ Hr4). cbn. rewrite lookup_insert_eq. by eexists. }
  intros j13 w3 [] k6 Hj13 Hn6 Hl6 Hk6 [Hr6 Hh6]. apply HQ; [lia|done|congruence|done|]. split; [|done].
  eapply rely_but_trans; [apply rely_rely_but, Hr1|]. eapply rely_but_trans; [apply rely_rely_but, Hr2|].
  eapply rely_but_trans; [apply Hb3|]. eapply rely_but_trans; [apply rely_rely_but, Hr4|].
  eapply rely_but_trans; [apply rely_rely_but, Hr5|exact Hr6].
Qed.
End Specs.
