(* ===== verification/SystemSafe.v ===== *)
(** * Systems of kernel threads are safe

    Synchronised lists, forking and finishing, and the theorem: a machine
    that runs any clients which use the objects they own by their rules
    never fails an ASSERT and never follows an invalid pointer, under every
    interleaving, and keeps the scheduler's and the objects' invariants. *)

From stdpp Require Import base list sorting numbers gmap.
From S2P Require Import Prelude Arrays State Proc List Machine Kernel Synch ThreadInv ThreadSpecs SynchSpecs.

Section System.
Context {L : Type -> Type} `{!ListOps L, !ListLaws L}.
Context (main : Z) (E : Env) (user : Z -> Z -> client).
Notation K := (Kernel L).
Notation normal := (normal main E).
Notation always := (always main E).
Notation inv := (inv main E).
Notation WP := (wp (code user) cpu bad always inv rely).
Notation op := (op main E user).
Implicit Types (k : Kernel L) (t u : Z).

(** ** Synchronised lists *)

Lemma run_get_sl s k v (Q : SynchList L -> K -> Prop) :
  synchlists k !! s = Some v -> Q v k -> run_to (get_sl s) k Q.
Proof.
  intros Hv HQ. unfold get_sl. apply run_to_bind, run_to_gets. eapply run_to_lift; [by rewrite Hv|done].
Qed.

(** The holder of the list's lock changes the list. *)
Lemma put_sl_ok t w0 k s sl l' :
  normal t k -> kept t w0 k -> synchlists k !! s = Some sl -> heldBy k (lock sl) t -> (0 ∉ content l') ->
  run_to (put_sl s (set_list_ l' sl)) k (fun _ k' => normal t k' /\ lv k' = lv k /\ kept t w0 k' /\
    rely_but (lock sl) t k k' /\ (forall l u, heldBy k' l u <-> heldBy k l u)).
Proof.
  intros Hn Hk Hsl Hh Hl'. apply run_to_modify. set (k' := set_synchlists _ k). pose proof Hn as [].
  assert (Hlists : forall u, (u = t -> False) -> forall s' sl', synchlists k !! s' = Some sl' ->
    exists sl2, synchlists k' !! s' = Some sl2 /\ lock sl2 = lock sl' /\ listEmpty sl2 = listEmpty sl' /\
      (heldBy k (lock sl') u -> content (list_ sl2) = content (list_ sl'))).
  { intros u Hu s' sl' Hs'. cbn. destruct (decide (s' = s)) as [->|Hne].
    - rewrite lookup_insert_eq. rewrite Hsl in Hs'. injection Hs' as <-. eexists. split; [done|].
      split; [done|]. split; [done|]. intros (lk & Hlk & H1). destruct Hh as (lk' & Hlk' & H2). exfalso. apply Hu. congruence.
    - rewrite lookup_insert_ne by done. by exists sl'. }
  split; [|split; [done|split; [|split; [|done]]]].
  - apply (normal_step main E t k); try done; [by apply (sched_ok_same main false None k)| |by apply woken_same].
    destruct n_objs. split; try done.
    + intros s' Hs'. cbn. apply insert_dom; [by rewrite Hsl|auto].
    + intros s' sl'. cbn. destruct (decide (s' = s)) as [->|Hne].
      * rewrite lookup_insert_eq. intros [= <-]. destruct (ob_list s sl Hsl) as (H1 & H2 & H3 & H4). by split_and!.
      * rewrite lookup_insert_ne by done. apply ob_list.
  - eapply kept_step; [done|]. intros u Hu. split; try done. by apply Hlists.
  - split; try done. intros s' sl' Hs'. cbn. destruct (decide (s' = s)) as [->|Hne].
    + rewrite lookup_insert_eq. rewrite Hsl in Hs'. injection Hs' as <-. by eexists.
    + rewrite lookup_insert_ne by done. by exists sl'.
Qed.

(** A synchronised list that [t] may use in [k], where it was in [k0]. *)
Definition has_list (s l c : Z) k : Prop := exists sl, synchlists k !! s = Some sl /\ lock sl = l /\ listEmpty sl = c /\
  is_Some (locks k !! l) /\ is_Some (conditions k !! c).

Lemma has_list_but s l c l' t k k' : rely_but l' t k k' -> has_list s l c k -> has_list s l c k'.
Proof.
  intros [] (sl & Hsl & H1 & H2 & H3 & H4). destruct (rb_lists s sl Hsl) as (sl' & Hsl' & E1 & E2).
  exists sl'. split_and!; auto; congruence.
Qed.

Lemma objs_has_list k s sl : objs_ok E k -> synchlists k !! s = Some sl -> has_list s (lock sl) (listEmpty sl) k.
Proof. intros Ho Hs. destruct (ob_list _ _ Ho s sl Hs) as (H1 & _ & H2 & _). by exists sl. Qed.

(** What an operation on a list leaves: everything but its lock. *)
Definition list_post (s : Z) (t : Z) (k k' : K) : Prop :=
  forall sl, synchlists k !! s = Some sl -> rely_but (lock sl) t k k'.

Lemma SynchList_Append_spec s x : op (SynchList_Append s x)
  (fun t k => is_Some (synchlists k !! s) /\ x <> 0) (fun t k _ k' => list_post s t k k').
Proof.
  intros n t w0 Q k Hn Hk [[sl Hsl] Hx] HQ. unfold SynchList_Append.
  pose proof (objs_has_list k s sl (n_objs _ _ _ _ Hn) Hsl) as Hhas. set (l := lock sl) in *. set (c := listEmpty sl) in *.
  apply wp_bind, (wp_normal main E), (run_get_sl s k sl); [done|]. split; [done|]. intros j Hj. fold l c.
  apply wp_bind, (Acquire_spec main E user); [done|done|by destruct Hhas as (? & _ & _ & _ & ? & _)|].
  intros j1 w1 [] k1 Hj1 Hn1 Hl1 Hk1 [Hr1 Hh1]. pose proof (has_list_but _ _ _ _ _ _ _ Hr1 Hhas) as Hhas1.
  destruct Hhas1 as (sl1 & Hsl1 & El1 & Ec1 & Hll1 & Hcc1).
  destruct (ob_list _ _ (n_objs _ _ _ _ Hn1) s sl1 Hsl1) as (_ & _ & _ & Hnz).
  apply wp_bind, (wp_normal main E), run_to_bind, (run_get_sl s k1 sl1); [done|].
  eapply run_to_mono; [apply (put_sl_ok t w1 k1 s sl1); [done|done|done|by rewrite El1|]|].
  { rewrite content_append, elem_of_app, list_elem_of_singleton. intros [?|?]; done. }
  intros [] k2 (Hn2 & Hl2 & Hk2 & Hr2 & Hh2). rewrite El1 in Hr2. split; [done|]. intros j2 Hj2.
  assert (Hhas2 : has_list s l c k2) by (apply (has_list_but _ _ _ l t k1); [done|]; by exists sl1).
  destruct Hhas2 as (_ & _ & _ & _ & Hll2 & Hcc2).
  apply wp_bind, (Signal_spec main E user); [done|done|done|].
  intros j3 w3 [] k3 Hj3 Hn3 Hl3 Hk3 Hr3. unfold quietly in Hr3.
  apply (Release_spec main E user); [done|done|by apply (re_locks _ _ _ Hr3)|].
  intros j4 w4 [] k4 Hj4 Hn4 Hl4 Hk4 [Hr4 _]. apply HQ; [lia|done|congruence|done|].
  intros sl' Hsl'. rewrite Hsl in Hsl'. injection Hsl' as <-. fold l.
  eapply rely_but_trans; [exact Hr1|]. eapply rely_but_trans; [exact Hr2|].
  eapply rely_but_trans; [by apply rely_rely_but|exact Hr4].
Qed.

(** Remove waits until the list has an item; the item is never NULL. *)
Lemma SynchList_Remove_spec s : op (SynchList_Remove s)
  (fun t k => is_Some (synchlists k !! s)) (fun t k x k' => x <> 0 /\ list_post s t k k').
Proof.
  intros n t w0 Q k Hn Hk [sl Hsl] HQ. unfold SynchList_Remove.
  pose proof (objs_has_list k s sl (n_objs _ _ _ _ Hn) Hsl) as Hhas. set (l := lock sl) in *. set (c := listEmpty sl) in *.
  apply wp_bind, (wp_normal main E), (run_get_sl s k sl); [done|]. split; [done|]. intros j Hj. fold l c.
  apply wp_bind, (Acquire_spec main E user); [done|done|by destruct Hhas as (? & _ & _ & _ & ? & _)|].
  intros j1 w1 [] k1 Hj1 Hn1 Hl1 Hk1 [Hr1 Hh1]. pose proof (has_list_but _ _ _ _ _ _ _ Hr1 Hhas) as Hhas1.
  apply wp_bind, (wp_while _ _ _ _ _ _ j1 t w1 _ _ _ (fun v0 v => normal t v /\ kept t v0 v /\ lv v = lv k /\
    rely_but l t k v /\ heldBy v l t /\ has_list s l c v)).
  - by split_and!.
  - intros v0 v (Hv & _). split; [apply Hv|by apply (normal_always main E)].
  - intros i v0 v Hi (Hnv & Hkv & Hlv & Hrv & Hhv & Hhasv). pose proof Hhasv as (slv & Hslv & Elv & Ecv & Hllv & Hccv).
    apply wp_bind, (wp_normal main E), (run_get_sl s v slv); [done|]. split; [done|]. intros i1 Hi1.
    rewrite IsEmpty_content. destruct (bool_decide (content (list_ slv) = [])) eqn:Ee.
    + apply wp_bind, (Wait_spec main E user); [done|done|done|].
      intros i2 w2 [] k2 Hi2 Hn2 Hl2 Hk2 [Hr2 Hh2]. apply (wp_return main E); [done|]. intros i3 Hi3.
      split; [apply Hn2|]. split; [by apply (normal_always main E)|]. split_and!; try done.
      * congruence.
      * by eapply rely_but_trans.
      * by apply Hh2.
      * by eapply has_list_but.
    + apply bool_decide_eq_false in Ee. apply (wp_return main E); [done|]. intros i2 Hi2.
      split; [apply Hnv|]. split; [by apply (normal_always main E)|]. intros i3 Hi3.
      destruct (ob_list _ _ (n_objs _ _ _ _ Hnv) s slv Hslv) as (_ & _ & _ & Hnz).
      apply wp_bind, (wp_normal main E), run_to_bind, (run_get_sl s v slv); [done|].
      pose proof (Remove_content (list_ slv)) as [H1 H2]. destruct (Remove (list_ slv)) as [o q]. cbn [fst snd] in *.
      destruct (content (list_ slv)) as [|x xs]; [done|]. cbn in H1, H2. subst o.
      apply not_elem_of_cons in Hnz as [Hx Hnz]. apply run_to_bind.
      eapply run_to_mono; [apply (put_sl_ok t v0 v s slv); [done|done|done|by rewrite Elv|by rewrite H2]|].
      intros [] k2 (Hn2 & Hl2 & Hk2 & Hr2 & Hh2). rewrite Elv in Hr2. apply run_to_bind, run_to_assert.
      { by rewrite (proj2 (Z.eqb_neq x 0)). }
      apply run_to_ret. split; [done|]. intros j2 Hj2. cbn [default from_option id].
      pose proof (has_list_but _ _ _ _ _ _ _ Hr2 Hhasv) as (_ & _ & _ & _ & Hll2 & _).
      apply wp_bind, (Release_spec main E user); [done|done|done|].
      intros j3 w3 [] k3 Hj3 Hn3 Hl3 Hk3 [Hr3 _]. apply (wp_return main E); [done|]. intros j4 Hj4.
      apply HQ; [lia|done|congruence|done|]. split; [done|].
      intros sl' Hsl'. rewrite Hsl in Hsl'. injection Hsl' as <-. fold l.
      eapply rely_but_trans; [exact Hrv|]. eapply rely_but_trans; [exact Hr2|exact Hr3].
Qed.

(** ** Forking and finishing *)

Lemma StackAllocate_ok t k f a e :
  sched_ok main e None k -> status_of k t = Some JUST_CREATED ->
  run_to (StackAllocate t (User f) a) k (fun _ k' => sched_ok main e None k' /\ woken k k' /\
    (forall u, dead k u -> dead k' u) /\
    exists th, threads k' !! t = Some th /\ machineState th = Some (User f, a) /\
      exists ths, k' = set_threads ths k).
Proof.
  intros Hs Hst. destruct (status_thread _ _ _ Hst) as (th & Hth & Hj). unfold StackAllocate, upd_thread, get_thread.
  do 2 apply run_to_bind. apply run_to_gets. eapply run_to_lift; [by rewrite Hth|]. apply run_to_modify.
  set (th' := set_machineState _ _). set (k' := set_threads _ k).
  assert (Hst' : forall u, status_of k' u = status_of k u).
  { intros u. transitivity (if decide (u = t) then Some (tstatus th') else status_of k u); [apply (status_update k t th')|].
    destruct (decide (u = t)) as [->|]; [|done]. rewrite Hst. by cbn; rewrite Hj. }
  assert (Hdead : forall u, dead k u -> dead k' u).
  { intros u (H0 & H1 & H2). split; [done|]. by rewrite Hst'. }
  split; [|split; [by intros u; left|split; [done|]]].
  2:{ exists th'. cbn. rewrite lookup_insert_eq. split; [done|]. split; [done|]. by eexists. }
  destruct Hs. split; try done.
  - intros u. rewrite Hst'. apply so_run.
  - intros u. rewrite Hst'. apply so_ready.
  - intros q u. rewrite Hst'. apply so_queue.
  - intros u Hu. destruct (so_dead u Hu) as [H0 H1]. split.
    { cbn. destruct (decide (u = t)) as [->|]; [by rewrite lookup_insert_eq|by rewrite lookup_insert_ne]. }
    destruct H1 as [H1|(? & ? & ? & ?)]; [left; by apply Hdead|right]. by rewrite Hst'.
  - intros u thu. cbn. destruct (decide (u = t)) as [->|Hu].
    + rewrite lookup_insert_eq. intros [= <-]. destruct (so_threads t th Hth) as [(H1 & H2 & H3) H4]. split; [|done].
      split; [done|]. split; [by intros w [= <-]|]. intros _ _. by exists f, a.
    + rewrite lookup_insert_ne by done. apply so_threads.
Qed.

Lemma Fork_spec f a :
  op (fork_new f a) (fun _ _ => True) quietly.
Proof.
  intros n t w0 Q k Hn Hk _ HQ. unfold fork_new. pose proof Hn as []. apply wp_bind, (wp_normal main E).
  eapply run_to_mono; [by apply Thread_new_ok|].
  intros t' k1 (Et' & Hs1 & Hj1 & Hq1 & Hd1 & Hst1 & Hdd1 & ths1 & m1 & Hk1).
  assert (Hr1 : forall u, rely u k k1) by (intros u; subst k1; apply rely_threads; try done; apply Hdd1).
  assert (Htt : t <> t').
  { intros ->. destruct (status_thread _ _ _ n_run) as (th & Hth & _).
    destruct (so_threads _ _ _ _ n_sched _ _ Hth). lia. }
  assert (Hn1 : normal t k1).
  { split; try done; [by subst k1|by subst k1| |by subst k1|].
    - by rewrite Hst1.
    - apply (objs_ok_same E k); by subst k1. }
  split; [done|]. intros j Hj. unfold Fork. apply wp_bind, (wp_normal main E).
  eapply run_to_mono; [by apply (StackAllocate_ok t' k1 f a false)|].
  intros [] k2 (Hs2 & Hw2 & Hd2 & th2 & Hth2 & Hm2 & ths2 & Hk2).
  assert (Hr2 : forall u, rely u k1 k2) by (intros u; subst k2; apply rely_threads; try done; apply Hd2).
  assert (Hn2 : normal t k2).
  { apply (normal_step main E t k1); try done; try by subst k2. apply (objs_ok_same E k1); try by subst k2. apply Hn1. }
  assert (Hj2 : status_of k2 t' = Some JUST_CREATED) by (destruct (Hw2 t') as [->|[? _]]; [done|congruence]).
  split; [done|]. intros j2 Hj2'. apply wp_bind, (op_SetLevel_off main E user); [done| |].
  { eapply kept_step; [|intros u _; apply Hr2]. eapply kept_step; [exact Hk|intros u _; apply Hr1]. }
  intros j3 k3 Hj3 Ek3 Hn3 Hl3 Hk3 Hr3. apply wp_bind, wp_off.
  eapply run_to_mono; [apply (ReadyToRun_ok main false None k3 t' JUST_CREATED)|].
  - apply Hn3.
  - by subst k3.
  - done.
  - subst k3 k2. apply Hq1.
  - subst k3 k2. apply Hd1.
  - intros _ _ th Hth. subst k3. cbn in Hth. rewrite Hth2 in Hth. injection Hth as <-. by exists f, a.
  - intros [] k4 (Hs4 & Hst4 & Hd4 & th4 & rl & Hth4 & Hk4).
    assert (Hr4 : forall u, rely u k3 k4).
    { intros u. assert (Hd : dead k3 u -> dead k4 u).
      { intros Hu. apply Hd4; [|done]. intros ->. destruct Hu as (_ & Hb & _). subst k3.
        change (status_of k2 t' = None \/ status_of k2 t' = Some BLOCKED) in Hb. destruct Hb; congruence. }
      subst k4. by apply rely_threads. }
    assert (Hn4 : normal t k4).
    { pose proof Hn3 as []. split; [by subst k4|by subst k4|done| |by subst k4|].
      - by rewrite Hst4, decide_False.
      - apply (objs_ok_same E k3); by subst k4. }
    split; [apply Hn4|]. split; [by subst k4|]. intros j4 Hj4. apply (op_end main E user); [done|by subst k4| |].
    { eapply kept_step; [exact Hk3|intros u _; apply Hr4]. }
    intros j5 w5 k5 Hj5 Hn5 Hl5 Hk5 Hr5. apply HQ; [lia|done| |done|].
    + rewrite Hl5. by subst k2 k1.
    + unfold quietly. eapply rely_trans; [apply Hr1|]. eapply rely_trans; [apply Hr2|].
      eapply rely_trans; [apply Hr3|]. eapply rely_trans; [apply Hr4|exact Hr5].
Qed.

(** Finish does not return. *)
Lemma Finish_spec n t w0 (Q : nat -> K -> unit -> K -> Prop) k :
  normal t k -> kept t w0 k -> WP n t w0 (Finish t) Q k.
Proof.
  intros Hn Hk. unfold Finish. apply wp_bind, (op_SetLevel_off main E user); [done|done|].
  intros j k1 Hj Ek1 Hn1 Hl1 Hk1 Hr1. pose proof Hn1 as []. apply wp_bind, wp_off.
  apply run_to_bind. unfold this_is_current. apply run_to_bind, run_to_gets, run_to_assert.
  { rewrite n_cur. apply Z.eqb_refl. }
  apply run_to_bind, run_to_gets, run_to_modify. rewrite n_cur. set (k2 := set_threadToBeDestroyed _ k1).
  assert (Hnq : forall q, ~ in_queue k1 q t).
  { intros q Hq. destruct (so_queue _ _ _ _ n_sched q t Hq) as [?|(? & _)]; congruence. }
  assert (Hs2 : sched_ok main true None k2).
  { pose proof n_sched as []. split; try done.
    - intros q u Hu. destruct (so_queue q u Hu) as [?|(? & _)]; [by left|done].
    - intros u. cbn. intros [= <-]. destruct (status_thread _ _ _ n_run) as (th & Hth & _).
      split; [by rewrite Hth|]. right. split; [done|]. split; [done|]. by split. }
  split; [done|]. split; [done|]. intros j2 Hj2.
  apply (Sleep_spec main E user true); [done..|by apply (objs_ok_same E k1)| |done|done|].
  - eapply kept_step; [done|]. intros u _. by apply rely_same.
  - intros m w0' k' _ _ _ _ _ Hq. exfalso. by apply Hq.
Qed.

(** ** Clients *)

(** A client that knows it holds the locks [H]. *)
Fixpoint client_ok (H : gset Z) (c : client) : Prop :=
  match c with
  | CDone => True
  | CYield k | CTick k | CFork _ _ k => client_ok H k
  | CP s k | CV s k => s ∈ e_sems E /\ client_ok H k
  | CAcquire l k => l ∈ e_locks E /\ client_ok ({[l]} ∪ H) k
  | CRelease l k => l ∈ e_locks E /\ client_ok (H ∖ {[l]}) k
  | CAssertHeld l k => l ∈ e_locks E /\ l ∈ H /\ client_ok H k
  | CWait c l k | CSignal c l k | CBroadcast c l k => c ∈ e_conds E /\ l ∈ e_locks E /\ client_ok H k
  | CPut s x k => s ∈ e_lists E /\ x <> 0 /\ client_ok H k
  | CGet s k => s ∈ e_lists E /\ forall x, x <> 0 -> client_ok H (k x)
  end.

Definition holds_all (H : gset Z) t k : Prop := forall l, l ∈ H -> l ∈ e_locks E /\ heldBy k l t.

Lemma holds_rely H t k k' : rely t k k' -> holds_all H t k -> holds_all H t k'.
Proof. intros Hr Hh l Hl. destruct (Hh l Hl). split; [done|]. by apply (re_held _ _ _ Hr). Qed.

Lemma holds_but H t l k k' : rely_but l t k k' -> holds_all H t k -> (l ∈ H -> heldBy k' l t) -> holds_all H t k'.
Proof.
  intros Hr Hh Hl l' Hl'. destruct (Hh l' Hl'). split; [done|].
  destruct (decide (l' = l)) as [->|]; [by apply Hl|by apply (rb_held _ _ _ _ Hr)].
Qed.

Lemma holds_list H t s k k' :
  objs_ok E k -> is_Some (synchlists k !! s) -> list_post s t k k' -> holds_all H t k -> holds_all H t k'.
Proof.
  intros Ho [sl Hsl] Hp Hh. apply (holds_but H t (lock sl) k k'); [by apply Hp|done|].
  intros Hl. destruct (Hh _ Hl) as [Hl' _]. by destruct (ob_list _ _ Ho s sl Hsl) as (_ & ? & _).
Qed.

(** One operation of a client, then the rest. *)
Lemma run_op n t w0 {A} (m : proc K VoidFunctionPtr A) Pre Post (f : A -> proc K VoidFunctionPtr unit) Q k :
  op m Pre Post -> normal t k -> kept t w0 k -> Pre t k ->
  (forall i w0' a k', (i <= n)%nat -> normal t k' -> lv k' = lv k -> kept t w0' k' -> Post t k a k' ->
     WP i t w0' (f a) Q k') ->
  WP n t w0 (Bind m f) Q k.
Proof. intros Hop Hn Hk HP HQ. by apply wp_bind, Hop. Qed.

Lemma run_client_ok c H n t w0 (Q : nat -> K -> unit -> K -> Prop) k :
  client_ok H c -> normal t k -> kept t w0 k -> lv k = IntOn -> holds_all H t k ->
  (forall i w0' k', (i <= n)%nat -> normal t k' -> kept t w0' k' -> lv k' = IntOn -> Q i w0' tt k') ->
  WP n t w0 (run_client c) Q k.
Proof.
  (* every case: run the operation by its rule, then the rest by induction *)
  revert H n w0 Q k. induction c; intros HH n w0 Q k0 Hc Hn Hk Hl Hh HQ; cbn in Hc |- *;
    pose proof (n_objs _ _ _ _ Hn) as Ho;
    try match type of IHc with context [run_client ?c'] =>
      assert (IH' : forall H' i w1 k1, (i <= n)%nat -> client_ok H' c' -> normal t k1 -> lv k1 = IntOn ->
        kept t w1 k1 -> holds_all H' t k1 -> WP i t w1 (run_client c') Q k1)
        by (intros H' i w1 k1 Hi1 Hc1 Hn1 Hl1 Hk1 Hh1; apply (IHc H'); try done;
            intros i2 w2 k2 Hi2; apply HQ; lia)
    end.
  - apply (wp_return main E); [done|]. intros j Hj. by apply HQ.
  - apply wp_bind, (wp_normal main E), run_to_gets. split; [done|]. intros j Hj. rewrite (n_cur _ _ _ _ Hn).
    apply wp_bind, (Yield_spec main E user); [done|done|]. intros i w1 k1 Hi Hn1 Hl1 Hk1 Hr1.
    apply (IH' HH); try done; [lia|congruence|by eapply holds_rely].
  - apply wp_call; [apply Hn|by apply (normal_always main E)|]. intros m Hm. cbn [code].
    apply (tick_all main E user m); [done|done|done|]. intros i w1 k1 Hi Hn1 Hl1 Hk1 Hr1.
    apply (IH' HH); try done; [lia|by eapply holds_rely].
  - eapply run_op; [apply (Fork_spec f a)|done|done|done|]. intros i w1 [] k1 Hi Hn1 Hl1 Hk1 Hr1.
    apply (IH' HH); try done; [congruence|by eapply holds_rely].
  - destruct Hc as [Hs Hc]. eapply run_op; [apply (P_spec main E user s)|done|done|by apply Ho|].
    intros i w1 [] k1 Hi Hn1 Hl1 Hk1 Hr1. apply (IH' HH); try done; [congruence|by eapply holds_rely].
  - destruct Hc as [Hs Hc]. eapply run_op; [apply (V_spec main E user s)|done|done|by apply Ho|].
    intros i w1 [] k1 Hi Hn1 Hl1 Hk1 Hr1. apply (IH' HH); try done; [congruence|by eapply holds_rely].
  - destruct Hc as [Hs Hc]. eapply run_op; [apply (Acquire_spec main E user l)|done|done|by apply Ho|].
    intros i w1 [] k1 Hi Hn1 Hl1 Hk1 [Hr1 Hh1]. apply (IH' _ i w1 k1 ltac:(lia) Hc); try done; [congruence|].
    intros l' [->%elem_of_singleton|Hl']%elem_of_union; [done|]. by eapply holds_but.
  - destruct Hc as [Hs Hc]. eapply run_op; [apply (Release_spec main E user l)|done|done|by apply Ho|].
    intros i w1 [] k1 Hi Hn1 Hl1 Hk1 [Hr1 Hh1]. apply (IH' _ i w1 k1 ltac:(lia) Hc); try done; [congruence|].
    eapply holds_but; [exact Hr1| |].
    + intros l' [Hl' _]%elem_of_difference. by apply Hh.
    + intros [_ Hl']%elem_of_difference. by rewrite elem_of_singleton in Hl'.
  - destruct Hc as (Hs & HlH & Hc). destruct (Hh l HlH) as [_ (lk & Hlk & Hht)].
    apply wp_bind, (wp_normal main E), run_to_bind, (run_isHeld l k0 lk t); [done|apply Hn|].
    apply run_to_assert; [by apply bool_decide_eq_true|]. split; [done|]. intros j Hj. by apply (IH' HH).
  - destruct Hc as (Hcd & Hs & Hc). eapply run_op; [apply (Wait_spec main E user c l)|done|done|by split; apply Ho|].
    intros i w1 [] k1 Hi Hn1 Hl1 Hk1 [Hr1 Hh1]. apply (IH' HH); try done; [congruence|].
    eapply holds_but; [done|done|]. intros Hl'. by apply Hh1, Hh.
  - destruct Hc as (Hcd & Hs & Hc). eapply run_op; [apply (Signal_spec main E user c l)|done|done|by split; apply Ho|].
    intros i w1 [] k1 Hi Hn1 Hl1 Hk1 Hr1. apply (IH' HH); try done; [congruence|by eapply holds_rely].
  - destruct Hc as (Hcd & Hs & Hc). eapply run_op; [apply (Broadcast_spec main E user c l)|done|done|by split; apply Ho|].
    intros i w1 [] k1 Hi Hn1 Hl1 Hk1 Hr1. apply (IH' HH); try done; [congruence|by eapply holds_rely].
  - destruct Hc as (Hs & Hx & Hc). eapply run_op; [apply (SynchList_Append_spec s x)|done|done|by split; [apply Ho|]|].
    intros i w1 [] k1 Hi Hn1 Hl1 Hk1 Hr1. apply (IH' HH); try done; [congruence|].
    by apply (holds_list HH t s k0); [|apply Ho| |].
  - destruct Hc as (Hs & Hc). eapply run_op; [apply (SynchList_Remove_spec s)|done|done|by apply Ho|].
    intros i w1 x k1 Hi Hn1 Hl1 Hk1 [Hx Hr1]. eapply (H x HH); try done; [by apply Hc|congruence| |].
    + by apply (holds_list HH t s k0); [|apply Ho| |].
    + intros; apply HQ; [lia|done..].
Qed.

(** ** The machine *)

Lemma finish_root n t w0 k :
  normal t k -> kept t w0 k -> WP n t w0 (Call ThreadFinish 0 (Ret tt)) never k.
Proof.
  intros Hn Hk. apply wp_call; [apply Hn|by apply (normal_always main E)|]. intros m Hm. cbn [code].
  apply wp_bind, (wp_normal main E), run_to_gets. split; [done|]. intros j Hj. rewrite (n_cur _ _ _ _ Hn).
  by apply Finish_spec.
Qed.

Context (users_ok : forall f a, client_ok ∅ (user f a)).

Lemma empty_holds t k : holds_all ∅ t k.
Proof. intros l Hl. by apply elem_of_empty in Hl. Qed.

Lemma start_safe w : inv w -> cpu w <> main ->
  exists p, start (cpu w) w = Ok p /\ forall n, WP n (cpu w) w p never w.
Proof.
  intros [Hl Hn] Hm. set (t := cpu w) in *. destruct (status_thread _ _ _ (n_run _ _ _ _ Hn)) as (th & Hth & Hst).
  destruct (so_threads _ _ _ _ (n_sched _ _ _ _ Hn) t th Hth) as [(_ & _ & Hms) _].
  destruct Hms as (f & a & Hms); [done|by rewrite Hst|]. exists (ThreadRoot (User f) a). split.
  { unfold start. rewrite Hth. cbn [deref mbind res_bind]. by rewrite Hms. }
  intros n. assert (Hk : kept t w w) by (intros u _; apply rely_refl).
  unfold ThreadRoot. apply wp_call; [done|by apply (normal_always main E)|]. intros m Hm'. cbn [code]. unfold Enable.
  apply wp_bind, (op_back main E user); [done|done|done|]. intros i w1 a1 k1 Hi Hn1 Hl1 Hk1 Hr1.
  apply (wp_return main E); [done|]. intros i1 Hi1.
  apply wp_call; [apply Hn1|by apply (normal_always main E)|]. intros i2 Hi2. cbn [code].
  apply (run_client_ok _ ∅); [done|done|done|done|apply empty_holds|].
  intros i3 w3 k3 Hi3 Hn3 Hk3 Hl3. by apply finish_root.
Qed.

Lemma system_safe c n k :
  normal main k -> lv k = IntOn -> client_ok ∅ c ->
  match system_run user n (mkConfig k {[main := main_program c]}) with
  | Err e => bad e = false
  | Ok cfg => lv (kern cfg) = IntOn -> normal (cpu (kern cfg)) (kern cfg)
  end.
Proof.
  intros Hn Hl Hc. unfold system_run.
  apply (machine_safe (code user) cpu start bad always inv rely rely_refl rely_trans main start_safe
    (fun w => lv w = IntOn -> normal (cpu w) w)).
  - intros w Ha. exact Ha.
  - intros w [Hl' _] Hl''. congruence.
  - apply Hn.
  - intros _. by rewrite (n_cpu _ _ _ _ Hn).
  - intros m. unfold main_program. apply wp_bind.
    apply (run_client_ok c ∅); [done|done|intros u _; apply rely_refl|done|apply empty_holds|].
    intros i w1 k1 Hi Hn1 Hk1 Hl1. by apply finish_root.
Qed.
End System.

(** ** Properties *)

(** C1: a machine running any number of threads, each any sequence of
    forks, yields, P, V, Acquire, Release, Wait, Signal, Broadcast and
    synchronised list operations on objects that exist, preempted by timer
    and device interrupts at every point where interrupts are enabled,
    never fails an ASSERT (in particular a thread that took a lock holds it
    until it gives it away itself, so critical sections exclude each other,
    and SynchList::Remove never finds NULL) and never follows an invalid
    pointer; whenever interrupts are on, exactly the current thread is
    RUNNING, the ready list holds exactly the READY threads, once each,
    every thread in a queue is BLOCKED and in no other queue, semaphores
    are not negative and the pending interrupts are in order of time. *)
Theorem System_safe {L : Type -> Type} `{!ListOps L, !ListLaws L} main E user c n (k : Kernel L) :
  normal main E main k -> lv k = IntOn -> client_ok E ∅ c -> (forall f a, client_ok E ∅ (user f a)) ->
  match system_run user n (mkConfig k {[main := main_program c]}) with
  | Err e => e = Exited
  | Ok cfg => lv (kern cfg) = IntOn -> normal main E (cpu (kern cfg)) (kern cfg)
  end.
Proof.
  intros Hn Hl Hc Hu. pose proof (system_safe main E user Hu c n k Hn Hl Hc) as H.
  destruct (system_run user n _) as [cfg|e]; [done|]. unfold bad in H. by apply negb_false_iff, bool_decide_eq_true in H.
Qed.

(** A producer, a consumer and two threads with a critical section, under
    a random timer. *)
Definition example_user (f a : Z) : client :=
  if f =? 0 then CPut 1 (2 * a + 1) (CV 1 CDone)
  else if f =? 1 then CGet 1 (fun x => CP 1 CDone)
  else CAcquire 1 (CYield (CAssertHeld 1 (CTick (CSignal 1 1 (CAssertHeld 1 (CRelease 1 CDone)))))).
Definition example_main : client :=
  CFork 1 0 (CFork 2 0 (CFork 2 0 (CFork 0 6 (CYield (CAcquire 1 (CWait 1 1 (CAssertHeld 1 (CRelease 1 CDone)))))))).

Definition example_env : Env := mkEnv {[1]} {[1]} {[1]} {[1]}.

(** The state Initialize leaves, with one object of each kind; the lock
    and the condition of the synchronised list have number 2. *)
Definition example_kernel : Kernel LIST :=
  mkKernel {[1 := mkThread None None RUNNING (replicate 40 0) None]} 2 1 None 1
    (New Z)
    (mkInt IntOn (SortedInsert (mkPI TimerHandler 1 8 TimerInt) 8 (New _)) false false SystemMode)
    (mkStats 10 0 10 0 0 0 0 0 0 0 0)
    {[1 := mkTimer true TimerInterruptHandler 0]} (fun n => 7 * Z.of_nat n + 11) 1 None ∅
    {[1 := Semaphore_new 0]} {[1 := Lock_new; 2 := Lock_new]} {[1 := Condition_new; 2 := Condition_new]}
    {[1 := SynchList_new 2 2]}.

Lemma queue_empty k q : queue_of example_kernel q = Some k -> k = [].
Proof.
  destruct q as [s|c]; cbn [queue_of]; intros (v & Hv & ->)%fmap_Some; cbn [semaphores conditions example_kernel] in Hv.
  - apply lookup_singleton_Some in Hv as [_ <-]. reflexivity.
  - apply lookup_insert_Some in Hv as [[_ <-]|[_ [_ <-]%lookup_singleton_Some]]; reflexivity.
Qed.

Lemma example_queue q t : ~ in_queue example_kernel q t.
Proof. intros (ts & Hts & Ht). apply queue_empty in Hts as ->. by apply elem_of_nil in Ht. Qed.

Lemma example_status t : status_of example_kernel t = if decide (t = 1) then Some RUNNING else None.
Proof.
  unfold status_of. cbn. destruct (decide (t = 1)) as [->|]; [by rewrite lookup_singleton_eq|by rewrite lookup_singleton_ne].
Qed.

Lemma example_sched : sched_ok 1 false None example_kernel.
Proof.
  split.
  - intros t. rewrite example_status. by destruct (decide (t = 1)).
  - intros t. rewrite example_status. change (ready example_kernel) with (@nil Z). rewrite elem_of_nil. split; [done|]. intros [H _]. by destruct (decide (t = 1)).
  - done.
  - change (ready example_kernel) with (@nil Z). constructor.
  - intros q t H. by apply example_queue in H.
  - intros q ts H. apply queue_empty in H as ->. constructor.
  - intros q1 q2 t H. by apply example_queue in H.
  - done.
  - intros t th. cbn. destruct (decide (t = 1)) as [->|]; [|by rewrite lookup_singleton_ne].
    rewrite lookup_singleton_eq. intros [= <-]. split; [by split|lia].
Qed.

Lemma example_objs : objs_ok example_env example_kernel.
Proof.
  assert (H1 : forall (s : Z), s ∈ ({[1]} : gset Z) -> s = 1) by (intros s; by rewrite elem_of_singleton).
  split.
  - intros s Hs. rewrite (H1 s Hs). by eexists.
  - intros s Hs. rewrite (H1 s Hs). by eexists.
  - intros s Hs. rewrite (H1 s Hs). by eexists.
  - intros s Hs. rewrite (H1 s Hs). by eexists.
  - intros s v H. cbn [semaphores example_kernel] in H. by apply lookup_singleton_Some in H as [_ <-].
  - intros s sl H. cbn [synchlists example_kernel] in H. apply lookup_singleton_Some in H as [_ <-]. split; [by eexists|]. split; [cbn; set_solver|].
    split; [by eexists|]. by intros ?%elem_of_nil.
  - intros w p H. change (elems _) with [(8, mkPI TimerHandler 1 8 TimerInt)] in H.
    apply list_elem_of_singleton in H as [= -> ->]. split; [done|]. left. split; [done|]. by eexists.
  - vm_compute. repeat constructor.
  - intros n. cbn [rand example_kernel]. lia.
  - done.
Qed.

Lemma example_normal : normal 1 example_env 1 example_kernel.
Proof.
  split; [done|done|apply example_sched|by rewrite example_status|done|apply example_objs].
Qed.

Lemma System_safe_witness :
  match system_run example_user 2000 (mkConfig example_kernel {[1 := main_program example_main]}) with
  | Err e => e = Exited
  | Ok cfg => lv (kern cfg) = IntOn -> normal 1 example_env (cpu (kern cfg)) (kern cfg)
  end.
Proof.
  apply (System_safe 1 example_env example_user example_main 2000 example_kernel).
  - apply example_normal.
  - reflexivity.
  - cbn. split_and!; try done; set_solver.
  - intros f a. unfold example_user. destruct (f =? 0) eqn:E0; [|destruct (f =? 1) eqn:E1]; cbn.
    + split_and!; try done; try lia; set_solver.
    + split_and!; try done; try set_solver.
    + split_and!; try done; set_solver.
Defined.
