(* ===== verification/ThreadTest.v ===== *)
(** * threads/threadtest.cc

    [ThreadTest1 n] starts n threads and becomes one more; each adds 1 to a
    shared variable five times.  The three versions of SimpleThread that the
    preprocessor chooses from are here: without the CHANGED part it only
    prints and yields; the CHANGED build of threads/Makefile loses updates;
    with HW1_SEMAPHORES it does not.

    The first two are C++ code that loses the processor only in Yield, so
    they run in the turns of the ready list, first come first served.  The
    semaphore is that of Synch.v seen from outside: P waits while the value
    is 0, and here any thread can move next, between any two accesses. *)

From stdpp Require Import base list numbers sorting.
From S2P Require Import Prelude Arrays.

(** The calls of printf. *)
Inductive message :=
  | Sees (which val : Z)      (* *** thread %d sees value %d *)
  | Final (which val : Z)     (* Thread %d sees final value %d *)
  | Looped (which num : Z)    (* *** thread %d looped %d times *)
  | No_test.                  (* No test specified. *)

(** ** Threads that only lose the processor in Yield

    [turn which l sh] runs the code up to the next Yield, or to the end
    ([None]). *)
Section Queue.
Context {L : Type} (turn : Z -> L -> Z -> option L * Z * list message).

(** The running thread and the ready list behind it. *)
Record queue := mkQ { ready : list (Z * L); shared : Z; out : list message }.

Definition Yield_next (q : queue) : queue :=
  match ready q with
  | [] => q
  | (which, l) :: rest =>
      let '(o, sh, ms) := turn which l (shared q) in
      mkQ (match o with Some l' => rest ++ [(which, l')] | None => rest end) sh (out q ++ ms)
  end.

Fixpoint run_turns (n : nat) (q : queue) : queue :=
  match n with O => q | S n => run_turns n (Yield_next q) end.

(** ThreadTest1: the threads forked get the numbers 1 to n, the caller 0. *)
Definition fork_all (n : Z) (l : L) (sh : Z) : queue :=
  mkQ ((0, l) :: ((fun i => (i, l)) <$> seqZ 1 n)) sh [].
End Queue.
Arguments mkQ {L} _ _ _.
Arguments ready {L} _.
Arguments shared {L} _.
Arguments out {L} _.

(** *** SimpleThread without the CHANGED part *)

(** At the test of the loop, with this [num]. *)
Definition SimpleThread_plain (which num sh : Z) : option Z * Z * list message :=
  if num <? 5 then (Some (num + 1), sh, [Looped which num]) else (None, sh, []).

(** *** SimpleThread in the CHANGED build *)

(** At the test of the loop; behind the first Yield of a turn. *)
Inductive place := AtTest (num : Z) | AfterYield (num val : Z).

Definition SimpleThread (which : Z) (p : place) (SharedVariable : Z) : option place * Z * list message :=
  match p with
  | AtTest num =>
      let val := SharedVariable in
      if num <? 5 then (Some (AfterYield num val), SharedVariable, [Sees which val])
      else (None, SharedVariable, [Final which val])
  | AfterYield num val => (Some (AtTest (num + 1)), val + 1, [])
  end.

Definition ThreadTest1 (n : Z) : queue := fork_all n (AtTest 0) 0.

(** The switch on [testnum]; the turns taken are a parameter. *)
Definition ThreadTest (turns : nat) (testnum n : Z) : list message :=
  if testnum =? 1 then out (run_turns SimpleThread turns (ThreadTest1 n)) else [No_test].

(** ** SimpleThread with HW1_SEMAPHORES *)

(** The statements of the loop, the increment in its three accesses. *)
Inductive point := Yield1 | CallP | ReadVar | WriteVar | GetVal | CallV | PrintVal | Yield2 | AfterLoop | Finished.

Record Locals := mkLocals { num : Z; val : Z; temp : Z; pc : point }.
Record SemWorld := mkSW { SharedVariable : Z; s_value : Z; threads : list Locals; printed : list message }.

Definition at_pc (p : point) (t : Locals) : Locals := mkLocals (num t) (val t) (temp t) p.

(** One step of a thread; [None] when it cannot move. *)
Definition sem_thread (which : Z) (t : Locals) (v s : Z) : option (Locals * Z * Z * list message) :=
  match pc t with
  | Yield1 => Some (at_pc CallP t, v, s, [])
  | CallP => if 0 <? s then Some (at_pc ReadVar t, v, s - 1, []) else None
  | ReadVar => Some (mkLocals (num t) (val t) v WriteVar, v, s, [])
  | WriteVar => Some (at_pc GetVal t, temp t + 1, s, [])
  | GetVal => Some (mkLocals (num t) v (temp t) CallV, v, s, [])
  | CallV => Some (at_pc PrintVal t, v, s + 1, [])
  | PrintVal => Some (at_pc Yield2 t, v, s, [Sees which (val t)])
  | Yield2 =>
      let num := num t + 1 in
      Some (mkLocals num (val t) (temp t) (if num <? 5 then Yield1 else AfterLoop), v, s, [])
  | AfterLoop => Some (mkLocals (num t) v (temp t) Finished, v, s, [Final which v])
  | Finished => None
  end.

Definition sem_step (i : nat) (w : SemWorld) : option SemWorld :=
  t ← threads w !! i;
  '(t', v, s, ms) ← sem_thread (Z.of_nat i) t (SharedVariable w) (s_value w);
  Some (mkSW v s (<[i := t']> (threads w)) (printed w ++ ms)).

(** The threads of a schedule take a step each, those that cannot are
    passed over; and how many steps that were. *)
Fixpoint sem_run (sched : list nat) (w : SemWorld) : SemWorld :=
  match sched with
  | [] => w
  | i :: sched => sem_run sched (default w (sem_step i w))
  end.
Fixpoint sem_moves (sched : list nat) (w : SemWorld) : Z :=
  match sched with
  | [] => 0
  | i :: sched => match sem_step i w with
                  | Some w' => 1 + sem_moves sched w'
                  | None => sem_moves sched w
                  end
  end.

Definition ThreadTest1_sem (n : nat) : SemWorld :=
  mkSW 0 1 (replicate (S n) (mkLocals 0 0 0 Yield1)) [].

(** ** Turns of the ready list *)

Section Rounds.
Context {L : Type} (turn : Z -> L -> Z -> option L * Z * list message).

Lemma run_turns_add a b q : run_turns turn (a + b) q = run_turns turn b (run_turns turn a q).
Proof. revert q. induction a as [|a IH]; intros q; [done|]. apply IH. Qed.

Lemma run_turns_done n sh o : run_turns turn n (mkQ [] sh o) = mkQ [] sh o.
Proof. induction n as [|n IH]; [done|]. exact IH. Qed.

(** A round in which all threads of the list are at the same place: [sh']
    is what each of them leaves in the shared variable. *)
Lemma run_round l (l' : option L) sh sh' (ms : Z -> list message) ids rest o :
  (forall i s, s = sh \/ s = sh' -> turn i l s = (l', sh', ms i)) -> ids <> [] ->
  run_turns turn (length ids) (mkQ (((fun i => (i, l)) <$> ids) ++ rest) sh o) =
    mkQ (rest ++ match l' with Some l' => (fun i => (i, l')) <$> ids | None => [] end) sh' (o ++ (ids ≫= ms)).
Proof.
  intros Ht. assert (Hgen : forall ids rest s o, s = sh \/ s = sh' ->
    run_turns turn (length ids) (mkQ (((fun i => (i, l)) <$> ids) ++ rest) s o) =
    mkQ (rest ++ match l' with Some l' => (fun i => (i, l')) <$> ids | None => [] end)
      (match ids with [] => s | _ => sh' end) (o ++ (ids ≫= ms))).
  { clear ids rest o. induction ids as [|i ids IH]; intros rest s o Hs; cbn [length run_turns fmap list_fmap].
    - cbn [app mbind list_bind]. rewrite app_nil_r. f_equal. destruct l'; cbn; by rewrite app_nil_r.
    - unfold Yield_next. cbn [ready app shared out]. rewrite Ht by done. cbn [mbind list_bind].
      replace (match l' with Some l'0 => (((fun i0 => (i0, l)) <$> ids) ++ rest) ++ [(i, l'0)]
                           | None => ((fun i0 => (i0, l)) <$> ids) ++ rest end)
        with (((fun i0 => (i0, l)) <$> ids) ++ (rest ++ match l' with Some l'0 => [(i, l'0)] | None => [] end))
        by (destruct l'; [by rewrite app_assoc|by rewrite app_nil_r]).
      rewrite IH by by right. f_equal.
      + destruct l' as [l0|]; cbn [fmap list_fmap]; [by rewrite <-app_assoc|by rewrite !app_nil_r].
      + by destruct ids.
      + by rewrite <-app_assoc. }
  intros Hne. rewrite (Hgen ids rest sh o) by by left. by destruct ids.
Qed.
End Rounds.

Lemma fork_all_ids {L} n (l : L) sh : 0 <= n -> fork_all n l sh = mkQ ((fun i => (i, l)) <$> seqZ 0 (n + 1)) sh [].
Proof. intros Hn. unfold fork_all. rewrite (seqZ_cons 0 (n + 1)) by lia. by replace (Z.pred (n + 1)) with n by lia. Qed.

Lemma bind_nil (ids : list Z) : (ids ≫= (fun _ => [])) = @nil message.
Proof. by induction ids. Qed.

Lemma bind_single (f : Z -> message) (ids : list Z) : (ids ≫= (fun i => [f i])) = f <$> ids.
Proof. induction ids as [|i ids IH]; [done|]. cbn. by rewrite <-IH. Qed.

(** One turn of the loop of all threads: everybody sees the same value, and
    one increment is left of all. *)
Lemma SimpleThread_loop_turn ids k o : ids <> [] -> k < 5 ->
  run_turns SimpleThread (length ids + length ids) (mkQ ((fun i => (i, AtTest k)) <$> ids) k o) =
    mkQ ((fun i => (i, AtTest (k + 1))) <$> ids) (k + 1) (o ++ ((fun i => Sees i k) <$> ids)).
Proof.
  intros Hne Hk. rewrite run_turns_add. rewrite <-(app_nil_r (_ <$> ids)) at 1.
  rewrite (run_round SimpleThread (AtTest k) (Some (AfterYield k k)) k k (fun i => [Sees i k]) ids []); [|intros i s [->| ->]; cbn; by rewrite (proj2 (Z.ltb_lt k 5))|done].
  rewrite bind_single. cbn [app]. rewrite <-(app_nil_r (_ <$> ids)) at 1.
  rewrite (run_round SimpleThread (AfterYield k k) (Some (AtTest (k + 1))) k (k + 1) (fun i => []) ids []); [|done|done].
  by rewrite bind_nil, app_nil_r.
Qed.

Definition lost_updates_output (n : Z) : list message :=
  (seqZ 0 5 ≫= (fun k => (fun i => Sees i k) <$> seqZ 0 (n + 1))) ++ ((fun i => Final i 5) <$> seqZ 0 (n + 1)).

Lemma ThreadTest1_rounds n : 0 <= n ->
  run_turns SimpleThread (11 * length (seqZ 0 (n + 1))) (ThreadTest1 n) = mkQ [] 5 (lost_updates_output n).
Proof.
  intros Hn. unfold ThreadTest1, lost_updates_output. rewrite fork_all_ids by done. set (ids := seqZ 0 (n + 1)).
  assert (Hne : ids <> []) by (intros E; apply (f_equal length) in E; unfold ids in E; rewrite length_seqZ in E; cbn in E; lia).
  replace (11 * length ids)%nat with
    ((length ids + length ids) + ((length ids + length ids) + ((length ids + length ids) + ((length ids + length ids) +
      ((length ids + length ids) + length ids)))))%nat by lia.
  do 5 (rewrite run_turns_add, SimpleThread_loop_turn by done; cbn [Z.add Pos.add Pos.succ]).
  rewrite <-(app_nil_r (_ <$> ids)) at 1.
  rewrite (run_round SimpleThread (AtTest 5) None 5 5 (fun i => [Final i 5]) ids []); [|by intros i s [->| ->]|done].
  rewrite bind_single. cbn [app]. f_equal. change (seqZ 0 5) with [0; 1; 2; 3; 4]. cbn [mbind list_bind].
  by rewrite <-!app_assoc.
Qed.

(** Without the CHANGED part the threads take turns, too. *)
Lemma SimpleThread_plain_rounds n : 0 <= n ->
  run_turns SimpleThread_plain (6 * length (seqZ 0 (n + 1))) (fork_all n 0 0) =
    mkQ [] 0 (seqZ 0 5 ≫= (fun k => (fun i => Looped i k) <$> seqZ 0 (n + 1))).
Proof.
  intros Hn. rewrite fork_all_ids by done. set (ids := seqZ 0 (n + 1)).
  assert (Hne : ids <> []) by (intros E; apply (f_equal length) in E; unfold ids in E; rewrite length_seqZ in E; cbn in E; lia).
  assert (Hround : forall k o, k < 5 -> run_turns SimpleThread_plain (length ids) (mkQ ((fun i => (i, k)) <$> ids) 0 o) =
    mkQ ((fun i => (i, k + 1)) <$> ids) 0 (o ++ ((fun i => Looped i k) <$> ids))).
  { intros k o Hk. rewrite <-(app_nil_r (_ <$> ids)) at 1.
    rewrite (run_round SimpleThread_plain k (Some (k + 1)) 0 0 (fun i => [Looped i k]) ids []);
      [by rewrite bind_single|intros i s [->| ->]; unfold SimpleThread_plain; by rewrite (proj2 (Z.ltb_lt k 5))|done]. }
  replace (6 * length ids)%nat with (length ids + (length ids + (length ids + (length ids + (length ids + length ids)))))%nat by lia.
  do 5 (rewrite run_turns_add, Hround by done; cbn [Z.add Pos.add Pos.succ]).
  rewrite <-(app_nil_r (_ <$> ids)) at 1.
  rewrite (run_round SimpleThread_plain 5 None 0 0 (fun i => []) ids []); [|by intros i s [->| ->]|done].
  rewrite bind_nil, app_nil_r. cbn [app]. f_equal. change (seqZ 0 5) with [0; 1; 2; 3; 4]. cbn [mbind list_bind].
  rewrite <-!app_assoc. cbn [app]. by rewrite ?app_nil_r.
Qed.

(** ** Sums over the threads *)

Section Totals.
Context {T : Type} (f : T -> Z).
Fixpoint total (l : list T) : Z := match l with [] => 0 | t :: l => f t + total l end.

Lemma total_insert l i t t' : l !! i = Some t -> total (<[i := t']> l) = total l - f t + f t'.
Proof.
  revert i. induction l as [|x l IH]; intros [|i] H; [done..| |].
  - injection H as ->. cbn. lia.
  - change (f x + total (<[i := t']> l) = f x + total l - f t + f t'). rewrite (IH i H). lia.
Qed.

Context (Hf : forall t, 0 <= f t).

Lemma total_nonneg l : 0 <= total l.
Proof. induction l as [|x l IH]; cbn; [done|]. pose proof (Hf x). lia. Qed.

Lemma total_lookup l i t : l !! i = Some t -> f t <= total l.
Proof.
  revert i. induction l as [|x l IH]; intros [|i] H; [done..| |]; cbn in H |- *.
  - injection H as ->. pose proof (total_nonneg l). lia.
  - pose proof (IH i H). pose proof (Hf x). lia.
Qed.

Lemma total_two l i j t u : i <> j -> l !! i = Some t -> l !! j = Some u -> f t + f u <= total l.
Proof.
  revert i j. induction l as [|x l IH]; intros [|i] [|j] Hne Hi Hj; try done; cbn in Hi, Hj |- *.
  - injection Hi as ->. pose proof (total_lookup l j u Hj). lia.
  - injection Hj as ->. pose proof (total_lookup l i t Hi). lia.
  - pose proof (IH i j ltac:(congruence) Hi Hj). pose proof (Hf x). lia.
Qed.

Lemma total_positive l : 0 < total l -> exists i t, l !! i = Some t /\ 0 < f t.
Proof.
  induction l as [|x l IH]; cbn; [lia|]. intros H. destruct (decide (0 < f x)); [by exists 0%nat, x|].
  destruct IH as (i & t & Hi & Ht); [pose proof (Hf x); lia|]. by exists (S i), t.
Qed.
End Totals.

Lemma total_add {T} (f g h : T -> Z) l : (forall t, h t = f t + g t) -> total h l = total f l + total g l.
Proof. intros H. induction l as [|x l IH]; cbn; [done|]. rewrite IH, H. lia. Qed.

Lemma total_const {T} (f : T -> Z) c l : Forall (fun t => f t = c) l -> total f l = c * zlen l.
Proof. induction 1 as [|x l Hx _ IH]; cbn; [unfold zlen; cbn; lia|]. rewrite IH, Hx. unfold zlen. cbn [length]. lia. Qed.

(** The lists that the threads hold, put together. *)
Lemma join_insert {T} (f : T -> list Z) l i t t' : l !! i = Some t ->
  (<[i := t']> l ≫= f) ++ f t ≡ₚ (l ≫= f) ++ f t'.
Proof.
  revert i. induction l as [|x l IH]; intros [|i] H; [done..| |].
  - injection H as ->. cbn. rewrite <-!app_assoc, (Permutation_app_comm (l ≫= f) (f t)), (Permutation_app_comm (l ≫= f) (f t')).
    rewrite !app_assoc. by rewrite (Permutation_app_comm (f t') (f t)).
  - change ((f x ++ (<[i := t']> l ≫= f)) ++ f t ≡ₚ (f x ++ (l ≫= f)) ++ f t').
    rewrite <-!app_assoc. by rewrite (IH i H).
Qed.

(** ** The semaphore version *)

Definition critical (t : Locals) : bool := match pc t with ReadVar | WriteVar | GetVal | CallV => true | _ => false end.
Definition crit (t : Locals) : Z := if critical t then 1 else 0.

(** Increments written, values read back, between writing and reading. *)
Definition written (t : Locals) : Z := num t + match pc t with GetVal | CallV | PrintVal | Yield2 => 1 | _ => 0 end.
Definition read_back (t : Locals) : Z := num t + match pc t with CallV | PrintVal | Yield2 => 1 | _ => 0 end.
Definition getting (t : Locals) : Z := match pc t with GetVal => 1 | _ => 0 end.

(** The value that a thread has read and not yet shown. *)
Definition held (t : Locals) : list Z := match pc t with CallV | PrintVal => [val t] | _ => [] end.
Definition seen (ms : list message) : list Z := ms ≫= (fun m => match m with Sees _ v => [v] | _ => [] end).

(** Steps to go. *)
Definition left_over (t : Locals) : Z :=
  match pc t with
  | Finished => 0
  | AfterLoop => 1
  | Yield1 => 8 * (5 - num t) + 1 | CallP => 8 * (5 - num t) | ReadVar => 8 * (5 - num t) - 1
  | WriteVar => 8 * (5 - num t) - 2 | GetVal => 8 * (5 - num t) - 3 | CallV => 8 * (5 - num t) - 4
  | PrintVal => 8 * (5 - num t) - 5 | Yield2 => 8 * (5 - num t) - 6
  end.

Definition thread_ok (v : Z) (t : Locals) : Prop :=
  match pc t with
  | AfterLoop | Finished => num t = 5
  | WriteVar => 0 <= num t < 5 /\ temp t = v
  | _ => 0 <= num t < 5
  end.

Record sem_inv (n : nat) (w : SemWorld) : Prop := {
  si_length : length (threads w) = S n;
  si_threads : forall i t, threads w !! i = Some t -> thread_ok (SharedVariable w) t;
  si_value : 0 <= s_value w;
  si_critical : s_value w + total crit (threads w) = 1;
  si_shared : SharedVariable w = total written (threads w);
  si_seen : seen (printed w) ++ (threads w ≫= held) ≡ₚ seqZ 1 (total read_back (threads w))
}.

Lemma crit_nonneg t : 0 <= crit t.
Proof. unfold crit. destruct (critical t); lia. Qed.

(** At most one thread is inside. *)
Lemma critical_unique n w i j t u :
  sem_inv n w -> threads w !! i = Some t -> threads w !! j = Some u -> critical t = true -> critical u = true -> i = j.
Proof.
  intros Hw Hi Hj Ht Hu. destruct (decide (i = j)) as [|Hne]; [done|]. exfalso.
  pose proof (total_two crit crit_nonneg _ i j t u Hne Hi Hj) as H. unfold crit at 1 2 in H. rewrite Ht, Hu in H.
  pose proof (si_value _ _ Hw). pose proof (si_critical _ _ Hw). lia.
Qed.

Lemma seen_app a b : seen (a ++ b) = seen a ++ seen b.
Proof. unfold seen. by rewrite bind_app. Qed.

(** Everything but the invariant of the threads themselves. *)
Lemma sem_step_totals n w i t t' v s ms :
  sem_inv n w -> threads w !! i = Some t -> 0 <= s ->
  s + crit t' = s_value w + crit t -> v + written t = SharedVariable w + written t' ->
  (forall j u, threads w !! j = Some u -> j <> i -> thread_ok (SharedVariable w) u -> thread_ok v u) -> thread_ok v t' ->
  (read_back t' = read_back t /\ seen ms ++ held t' = held t \/
   read_back t' = read_back t + 1 /\ held t = [] /\ seen ms = [] /\ held t' = [total read_back (threads w) + 1]) ->
  0 <= total read_back (threads w) ->
  sem_inv n (mkSW v s (<[i := t']> (threads w)) (printed w ++ ms)).
Proof.
  intros [Hl Ht Hs Hc Hv Hp] Hi Hs0 Hcrit Hwr Hothers Ht' Hread Hr0. split; cbn [SharedVariable s_value threads printed].
  - by rewrite length_insert.
  - intros j u. destruct (decide (j = i)) as [->|Hne].
    + rewrite list_lookup_insert_eq by (by eapply lookup_lt_Some). by intros [= <-].
    + rewrite list_lookup_insert_ne by done. intros Hj. apply (Hothers j u Hj Hne). by apply (Ht j).
  - done.
  - rewrite (total_insert crit _ i t t' Hi). lia.
  - rewrite (total_insert written _ i t t' Hi). lia.
  - rewrite (total_insert read_back _ i t t' Hi), seen_app.
    pose proof (join_insert held (threads w) i t t' Hi) as Hj.
    destruct Hread as [[-> E]|(-> & E1 & E2 & E3)].
    + rewrite Z.sub_add. rewrite <-Hp, <-app_assoc. f_equiv. rewrite <-E in Hj.
      apply (Permutation_app_inv_r (held t')). rewrite <-Hj, <-app_assoc.
      rewrite (Permutation_app_comm (seen ms)), <-app_assoc. f_equiv. apply Permutation_app_comm.
    + rewrite E1, E3, app_nil_r in Hj. rewrite E2, app_nil_r, Hj, app_assoc, Hp.
      replace (total read_back (threads w) - read_back t + (read_back t + 1)) with (total read_back (threads w) + 1) by lia.
      rewrite (seqZ_app 1 (total read_back (threads w)) 1) by lia.
      by replace (1 + total read_back (threads w)) with (total read_back (threads w) + 1) by lia.
Qed.

Lemma total_read_back n w : sem_inv n w -> 0 <= total read_back (threads w).
Proof.
  intros Hw. pose proof (si_threads n w Hw) as Ht. clear Hw. induction (threads w) as [|x l IH]; cbn; [done|].
  pose proof (Ht 0%nat x eq_refl) as Hx.
  assert (0 <= read_back x) by (unfold thread_ok, read_back in *; destruct (pc x); lia).
  assert (0 <= total read_back l) by (apply IH; intros j u Hj; exact (Ht (S j) u Hj)). lia.
Qed.

(** A thread that is about to read the variable back is the only one whose
    increment was not read back yet. *)
Lemma reads_back n w i t : sem_inv n w -> threads w !! i = Some t -> pc t = GetVal ->
  SharedVariable w = total read_back (threads w) + 1.
Proof.
  intros Hw Hi Hpc. rewrite (si_shared n w Hw), (total_add read_back getting written); [f_equal|].
  - assert (Hg : forall x, 0 <= getting x) by (intros x; unfold getting; destruct (pc x); lia).
    pose proof (total_lookup getting Hg _ i _ Hi) as H1. unfold getting at 1 in H1. rewrite Hpc in H1.
    assert (Hle : total getting (threads w) <= total crit (threads w)).
    { clear. induction (threads w) as [|x l IH]; cbn; [done|].
      assert (getting x <= crit x) by (unfold getting, crit, critical; destruct (pc x); lia). lia. }
    pose proof (si_critical n w Hw). pose proof (si_value n w Hw). lia.
  - intros x. unfold written, read_back, getting. destruct (pc x); lia.
Qed.

Lemma sem_step_inv n w i w' : sem_inv n w -> sem_step i w = Some w' ->
  sem_inv n w' /\ total left_over (threads w) = 1 + total left_over (threads w').
Proof.
  intros Hw. pose proof (total_read_back n w Hw) as Hr0. pose proof (si_value n w Hw) as Hs. unfold sem_step.
  destruct (threads w !! i) as [t|] eqn:Hi; [|done]. cbn [mbind option_bind].
  pose proof (si_threads n w Hw i t Hi) as Hok. pose proof (reads_back n w i t Hw Hi) as Hget.
  destruct t as [nm vl tm p]. unfold thread_ok in Hok. cbn [pc num temp] in Hok, Hget.
  unfold sem_thread. cbn [pc num val temp at_pc].
  assert (Hfin : forall t' v s ms, left_over (mkLocals nm vl tm p) = 1 + left_over t' ->
    sem_inv n (mkSW v s (<[i := t']> (threads w)) (printed w ++ ms)) ->
    sem_inv n (mkSW v s (<[i := t']> (threads w)) (printed w ++ ms)) /\
    total left_over (threads w) = 1 + total left_over (<[i := t']> (threads w))).
  { intros t' v s ms E H. split; [done|]. rewrite (total_insert left_over _ i _ t' Hi). lia. }
  pose proof (fun t' v s ms => sem_step_totals n w i _ t' v s ms Hw Hi) as Hstep.
  destruct p; cbn [mbind option_bind].
  - intros [= <-]. apply Hfin; [unfold left_over; cbn [pc num at_pc]; lia|]. by apply Hstep; try done; left.
  - destruct (Z.ltb_spec 0 (s_value w)) as [Hpos|]; [|done]. cbn [mbind option_bind]. intros [= <-].
    apply Hfin; [unfold left_over; cbn [pc num at_pc]; lia|]. apply Hstep; try done; [lia|cbn; lia|by left].
  - intros [= <-]. apply Hfin; [unfold left_over; cbn [pc num at_pc]; lia|]. by apply Hstep; try done; left.
  - intros [= <-]. apply Hfin; [unfold left_over; cbn [pc num at_pc]; lia|]. destruct Hok as [Hnm ->].
    apply Hstep; try done; [unfold written; cbn [pc num temp at_pc]; lia| |by left].
    intros j u Hj Hne. unfold thread_ok. destruct (pc u) eqn:Epc; try done. intros _. exfalso. apply Hne.
    by apply (critical_unique n w j i u _ Hw Hj Hi); [unfold critical; rewrite Epc|].
  - intros [= <-]. apply Hfin; [unfold left_over; cbn [pc num at_pc]; lia|]. apply Hstep; try done. right. split; [unfold read_back; cbn [pc num]; lia|].
    split; [done|]. split; [done|]. cbn. f_equal. by apply Hget.
  - intros [= <-]. apply Hfin; [unfold left_over; cbn [pc num at_pc]; lia|]. apply Hstep; try done; [lia|cbn; lia|by left].
  - intros [= <-]. apply Hfin; [unfold left_over; cbn [pc num at_pc]; lia|]. by apply Hstep; try done; left.
  - intros [= <-]. apply Hfin; [unfold left_over; cbn [pc num]; destruct (Z.ltb_spec (nm + 1) 5); lia|].
    destruct (Z.ltb_spec (nm + 1) 5); (apply Hstep; try done;
      [unfold written; cbn [pc num]; lia|unfold thread_ok; cbn [pc num]; lia|]); left;
      (split; [unfold read_back; cbn [pc num]; lia|done]).
  - intros [= <-]. apply Hfin; [unfold left_over; cbn [pc num at_pc]; lia|]. by apply Hstep; try done; left.
  - done.
Qed.

Lemma ThreadTest1_sem_inv n : sem_inv n (ThreadTest1_sem n).
Proof.
  unfold ThreadTest1_sem. set (t0 := mkLocals 0 0 0 Yield1).
  assert (Hz : forall f : Locals -> Z, f t0 = 0 -> total f (replicate (S n) t0) = 0).
  { intros f Hf. rewrite (total_const f 0); [reflexivity|]. by apply Forall_replicate. }
  split; cbn [SharedVariable s_value threads printed].
  - apply length_replicate.
  - intros i t Hi. apply lookup_replicate in Hi as [-> _]. unfold t0, thread_ok. cbn [pc num]. lia.
  - done.
  - by rewrite Hz.
  - by rewrite Hz.
  - rewrite Hz by done. cbn. clear Hz. induction n as [|n IH]; [done|]. exact IH.
Qed.

(** The invariant along a schedule, with the steps taken. *)
Lemma sem_run_inv n sched w : sem_inv n w ->
  sem_inv n (sem_run sched w) /\ total left_over (threads w) = sem_moves sched w + total left_over (threads (sem_run sched w)).
Proof.
  revert w. induction sched as [|i sched IH]; intros w Hw; cbn [sem_run sem_moves]; [split; [done|lia]|].
  destruct (sem_step i w) as [w'|] eqn:E; cbn [default from_option id]; [|by apply IH].
  destruct (sem_step_inv n w i w' Hw E) as [Hw' El]. destruct (IH w' Hw') as [H1 H2]. split; [done|]. lia.
Qed.

Definition all_finished (w : SemWorld) : Prop := Forall (fun t => pc t = Finished) (threads w).

(** A thread that cannot move is finished, or waits for one that can. *)
Lemma no_deadlock n w : sem_inv n w -> (forall i, sem_step i w = None) -> all_finished w.
Proof.
  intros Hw Hno. apply Forall_lookup. intros i t Hi. pose proof (Hno i) as Hs. unfold sem_step in Hs.
  rewrite Hi in Hs. cbn [mbind option_bind] in Hs. unfold sem_thread in Hs.
  destruct (pc t) eqn:Epc; try done. destruct (Z.ltb_spec 0 (s_value w)) as [|Hz]; [done|]. exfalso.
  destruct (total_positive crit crit_nonneg (threads w)) as (j & u & Hj & Hu).
  { pose proof (si_critical _ _ Hw). pose proof (si_value _ _ Hw). lia. }
  specialize (Hno j). unfold sem_step in Hno. rewrite Hj in Hno. cbn [mbind option_bind] in Hno.
  unfold sem_thread in Hno. unfold crit, critical in Hu. by destruct (pc u).
Qed.

Lemma held_finished l : Forall (fun t => pc t = Finished) l -> l ≫= held = [].
Proof. induction 1 as [|t l Ht _ IH]; [done|]. cbn. unfold held at 1. by rewrite Ht. Qed.

Lemma finished_result n w : sem_inv n w -> all_finished w ->
  SharedVariable w = 5 * (Z.of_nat n + 1) /\ seen (printed w) ≡ₚ seqZ 1 (5 * (Z.of_nat n + 1)).
Proof.
  intros [Hl Ht Hs Hc Hv Hp] Hf. assert (Hz : zlen (threads w) = Z.of_nat n + 1) by (unfold zlen; lia).
  assert (Hnum : Forall (fun t => pc t = Finished /\ num t = 5) (threads w)).
  { apply Forall_lookup. intros i t Hi. pose proof (proj1 (Forall_lookup _ _) Hf i t Hi) as Hpc. cbn in Hpc.
    split; [done|]. pose proof (Ht i t Hi) as H. unfold thread_ok in H. by rewrite Hpc in H. }
  assert (Hw5 : total written (threads w) = 5 * (Z.of_nat n + 1)).
  { rewrite <-Hz. apply total_const. eapply Forall_impl; [exact Hnum|]. intros t [E1 E2]. unfold written. rewrite E1, E2. done. }
  assert (Hr5 : total read_back (threads w) = 5 * (Z.of_nat n + 1)).
  { rewrite <-Hz. apply total_const. eapply Forall_impl; [exact Hnum|]. intros t [E1 E2]. unfold read_back. rewrite E1, E2. done. }
  split; [by rewrite Hv|]. rewrite <-Hr5, <-Hp, held_finished by done. by rewrite app_nil_r.
Qed.

(** ** Properties *)

(** C24: SimpleThread with the semaphore, with any number of threads and
    under every schedule, even one that switches between any two accesses:
    at most one thread is between P and V; the threads cannot block each
    other for ever, and there are exactly 41 steps in each, so every
    schedule that goes on ends with all of them finished; then the variable
    is 5(n+1), and the values they saw are 1 to 5(n+1), each seen once. *)
Theorem SimpleThread_semaphore n sched :
  let w := sem_run sched (ThreadTest1_sem n) in
  (forall i j t u, threads w !! i = Some t -> threads w !! j = Some u ->
     critical t = true -> critical u = true -> i = j) /\
  ((forall i, sem_step i w = None) -> all_finished w) /\
  sem_moves sched (ThreadTest1_sem n) <= 41 * (Z.of_nat n + 1) /\
  (sem_moves sched (ThreadTest1_sem n) = 41 * (Z.of_nat n + 1) <-> all_finished w) /\
  (all_finished w -> SharedVariable w = 5 * (Z.of_nat n + 1) /\ seen (printed w) ≡ₚ seqZ 1 (5 * (Z.of_nat n + 1))).
Proof.
  intros w. pose proof (sem_run_inv n sched _ (ThreadTest1_sem_inv n)) as [Hw Hmoves]. fold w in Hw, Hmoves.
  assert (H41 : total left_over (threads (ThreadTest1_sem n)) = 41 * (Z.of_nat n + 1)).
  { rewrite (total_const left_over 41); [unfold zlen; cbn [threads ThreadTest1_sem]; rewrite length_replicate; lia|].
    by apply Forall_replicate. }
  assert (Hnn : forall t, (exists i, threads w !! i = Some t) -> 0 <= left_over t /\ (left_over t = 0 -> pc t = Finished)).
  { intros t [i Hi]. pose proof (si_threads _ _ Hw i t Hi) as H. unfold thread_ok, left_over in *. destruct (pc t); (split; [lia|]); (done || lia). }
  assert (Htot : 0 <= total left_over (threads w) /\ (total left_over (threads w) = 0 <-> all_finished w)).
  { unfold all_finished. clear -Hnn. induction (threads w) as [|x l IH]; cbn [total]; [split; [done|]; split; [constructor|done]|].
    destruct (Hnn x) as [H0 H1]; [by exists 0%nat|]. destruct IH as [H2 H3]; [intros t [i Hi]; apply Hnn; by exists (S i)|].
    split; [lia|]. rewrite Forall_cons, <-H3. split.
    - intros E. split; [apply H1; lia|lia].
    - intros [Ex E]. assert (left_over x = 0) by (unfold left_over; by rewrite Ex). lia. }
  split; [|split; [|split; [lia|split]]].
  - intros i j t u Hi Hj Ht Hu. by apply (critical_unique n w i j t u).
  - intros Hno. by apply (no_deadlock n).
  - destruct Htot as [H1 H2]. rewrite <-H2. lia.
  - intros Hf. by apply (finished_result n).
Qed.

(** SimpleThread as the kernel is built loses updates: with n threads
    besides the first, for every n, first come first served, everybody
    reads the variable before anybody writes it, so that all see the same
    values 0 to 4, each round leaves one increment of n+1, and the final
    value everybody prints is 5; the test always ends, after 11 turns of
    each thread. *)
Theorem ThreadTest_loses_updates n turns :
  0 <= n -> 11 * (n + 1) <= Z.of_nat turns ->
  ThreadTest turns 1 n =
    (seqZ 0 5 ≫= (fun k => (fun i => Sees i k) <$> seqZ 0 (n + 1))) ++ ((fun i => Final i 5) <$> seqZ 0 (n + 1)) /\
  ready (run_turns SimpleThread turns (ThreadTest1 n)) = [] /\
  shared (run_turns SimpleThread turns (ThreadTest1 n)) = 5.
Proof.
  intros Hn Ht. unfold ThreadTest. cbn [Z.eqb Pos.eqb].
  replace turns with (11 * length (seqZ 0 (n + 1)) + (turns - 11 * length (seqZ 0 (n + 1))))%nat
    by (rewrite length_seqZ; lia).
  rewrite run_turns_add, ThreadTest1_rounds, run_turns_done by done. done.
Qed.

Lemma ThreadTest_loses_updates_witness : ThreadTest (Z.to_nat 22) 1 1 =
  [Sees 0 0; Sees 1 0; Sees 0 1; Sees 1 1; Sees 0 2; Sees 1 2; Sees 0 3; Sees 1 3; Sees 0 4; Sees 1 4; Final 0 5; Final 1 5].
Proof. destruct (ThreadTest_loses_updates 1 (Z.to_nat 22)) as [-> _]; [lia|lia|reflexivity]. Defined.
