(* ===== verification/Lru.v ===== *)
(** * userprog/memorymanager.{h,cc} and vm/lru.{h,cc}

    The physical page allocator and the queue of resident pages, a doubly
    linked list.  A lock is here the flag that the running thread holds it:
    [Acquire] by its holder does not wait, and [Release] by anyone else
    does nothing (synch.cc); waiting for another thread is not part of this
    sequential model.  A page table entry is named by its table and index. *)

From stdpp Require Import base list numbers gmap.
From S2P Require Import Prelude Arrays Bitmap Machine.

Definition NUM_OF_PHYSICAL_PAGES : Z := 32.

(** [&table[i]]: the block [new TranslationEntry[n]] returned, and [i];
    block 0 is NULL. *)
Definition entry_ptr : Type := Z * Z.

Record MemoryManager := mkMM {
  pages : BitMap;
  numUsedPages : Z;
  memLock : bool
}.

(** [storage] and [used0] are the uninitialised memory. *)
Definition MemoryManager_new (storage : list Z) (used0 : Z) : res MemoryManager :=
  bm ← BitMap_new NUM_OF_PHYSICAL_PAGES storage;
  Ok (mkMM bm used0 false).

Definition getPage (mm : MemoryManager) : res (Z * MemoryManager) :=
  r ← Find (pages mm);
  let '(freePage, bm) := r in
  if freePage =? -1 then Ok (-1, mkMM bm (numUsedPages mm) true)
  else Ok (freePage, mkMM bm (s32 (numUsedPages mm + 1)) false).

Definition clearPage (i : Z) (mm : MemoryManager) : res MemoryManager :=
  bm ← Clear i (pages mm);
  Ok (mkMM bm (s32 (numUsedPages mm - 1)) false).

Definition getAvailable (mm : MemoryManager) : res (Z * MemoryManager) :=
  tmp ← NumClear (pages mm);
  Ok (tmp, mkMM (pages mm) (numUsedPages mm) false).

(** ** The list of resident pages *)

Record LRU_Node := mkNode {
  nnext : Z;
  nprev : Z;
  nvalue : entry_ptr;
  npid : Z
}.

Record LRU := mkLRU {
  nodes : gmap Z LRU_Node;
  fresh_node : Z;
  head : Z;
  tail : Z;
  LRU_lock : bool
}.

Section Ops.
Implicit Types (l : LRU).

(** What [new] finds in the members a constructor leaves alone. *)
Context (garbage : Z).

Definition LRU_new : LRU := mkLRU ∅ 1 0 0 false.

Definition getn l (p : Z) : res LRU_Node := deref (nodes l !! p).
Definition set_nodes (h : gmap Z LRU_Node) l : LRU := mkLRU h (fresh_node l) (head l) (tail l) (LRU_lock l).
Definition set_head (p : Z) l : LRU := mkLRU (nodes l) (fresh_node l) p (tail l) (LRU_lock l).
Definition set_tail (p : Z) l : LRU := mkLRU (nodes l) (fresh_node l) (head l) p (LRU_lock l).
Definition set_lru_lock (b : bool) l : LRU := mkLRU (nodes l) (fresh_node l) (head l) (tail l) b.

(** [p->next = n], [p->prev = n] and [p->pid = n]. *)
Definition upd_next (p n : Z) l : res LRU :=
  e ← getn l p; Ok (set_nodes (<[p := mkNode n (nprev e) (nvalue e) (npid e)]> (nodes l)) l).
Definition upd_prev (p n : Z) l : res LRU :=
  e ← getn l p; Ok (set_nodes (<[p := mkNode (nnext e) n (nvalue e) (npid e)]> (nodes l)) l).
Definition upd_pid (p n : Z) l : res LRU :=
  e ← getn l p; Ok (set_nodes (<[p := mkNode (nnext e) (nprev e) (nvalue e) n]> (nodes l)) l).

Definition new_node (page : entry_ptr) l : Z * LRU :=
  (fresh_node l,
   mkLRU (<[fresh_node l := mkNode 0 garbage page garbage]> (nodes l)) (fresh_node l + 1) (head l) (tail l) (LRU_lock l)).
Definition delete_node (p : Z) l : res LRU := _ ← getn l p; Ok (set_nodes (delete p (nodes l)) l).

(** The search of replace_head, from [current] on: [inr] when the node was
    found and moved to the front, and the function has returned. *)
Fixpoint find_loop (fuel : nat) (node prev current : Z) l : res (LRU + LRU) :=
  if current =? 0 then Ok (inl l)
  else
    match fuel with
    | O => Err MemFault
    | S fuel =>
        c ← getn l current;
        if current =? node then
          l ← (if negb (prev =? 0) then upd_next prev (nnext c) l else Ok l);
          l ← (if negb (nnext c =? 0) then upd_prev (nnext c) (nprev c) l else Ok l);
          l ← upd_next current (head l) l;
          l ← upd_prev (head l) current l;
          Ok (inr (set_head current l))
        else find_loop fuel node current (nnext c) l
    end.

Definition replace_head (node : Z) l : res LRU :=
  let l := set_lru_lock true l in
  if head l =? 0 then
    let l := set_tail node (set_head node l) in
    l ← upd_next node 0 l;
    upd_prev node 0 l
  else if head l =? node then Ok l
  else
    r ← find_loop (size (nodes l)) node 0 (head l) l;
    match r with
    | inr l => Ok l
    | inl l =>
        l ← upd_next node (head l) l;
        l ← upd_prev node 0 l;
        l ← upd_prev (head l) node l;
        Ok (set_lru_lock false (set_head node l))
    end.

Definition AddPage (page : entry_ptr) (pid : Z) l : res LRU :=
  let l := set_lru_lock true l in
  let '(node, l) := new_node page l in
  l ← upd_pid node pid l;
  l ← replace_head node l;
  Ok (set_lru_lock false l).

Definition GetLRU l : res entry_ptr := t ← getn l (tail l); Ok (nvalue t).
Definition tail_pid l : res Z := t ← getn l (tail l); Ok (npid t).

Definition Remove_LRU_Page l : res LRU :=
  let temp := tail l in
  t ← getn l (tail l);
  let l := set_tail (nprev t) l in
  l ← upd_next (tail l) 0 l;
  delete_node temp l.

(** One node leaves the list and is deleted; [if(tail = current)] assigns. *)
Definition unlink (current next prev : Z) l : res LRU :=
  l ← (if negb (prev =? 0) then upd_next prev next l else Ok l);
  l ← (if negb (next =? 0) then upd_prev next prev l else Ok l);
  let l := if head l =? current then set_head next l else l in
  let l := set_tail current l in
  let l := if negb (tail l =? 0) then set_tail next l else l in
  delete_node current l.

(** RemovePage gives the frames of the process back; [frame] reads
    [physicalPage] of an entry. *)
Fixpoint remove_loop (fuel : nat) (frame : entry_ptr -> res Z) (pid current : Z) (s : LRU * MemoryManager)
  : res (LRU * MemoryManager) :=
  if current =? 0 then Ok s
  else
    match fuel with
    | O => Err MemFault
    | S fuel =>
        let '(l, mm) := s in
        c ← getn l current;
        if npid c =? pid then
          f ← frame (nvalue c);
          mm ← clearPage f mm;
          l ← unlink current (nnext c) (nprev c) l;
          remove_loop fuel frame pid (nnext c) (l, mm)
        else remove_loop fuel frame pid (nnext c) (l, mm)
    end.

Definition RemovePage (frame : entry_ptr -> res Z) (pid : Z) (l : LRU) (mm : MemoryManager)
  : res (LRU * MemoryManager) :=
  r ← remove_loop (size (nodes l)) frame pid (head l) (set_lru_lock true l, mm);
  Ok (set_lru_lock false (fst r), snd r).
End Ops.

(** ** The queue as a sequence *)

(** From [p], whose predecessor is [pr], the nodes have the addresses [ps]
    and hold the pages and owners [xs]. *)
Fixpoint dchain (h : gmap Z LRU_Node) (pr p : Z) (ps : list Z) (xs : list (entry_ptr * Z)) : Prop :=
  match ps, xs with
  | [], [] => p = 0
  | a :: ps, (v, pid) :: xs => p = a /\ a <> 0 /\ exists n, h !! a = Some (mkNode n pr v pid) /\ dchain h a n ps xs
  | _, _ => False
  end.

Record queue (l : LRU) (ps : list Z) (xs : list (entry_ptr * Z)) : Prop := {
  queue_chain : dchain (nodes l) 0 (head l) ps xs;
  queue_nodup : NoDup ps;
  queue_tail : tail l = default 0 (last ps);
  queue_dom : dom (nodes l) = list_to_set ps;
  queue_fresh : forall p, p ∈ ps -> 0 < p < fresh_node l;
  queue_addr : 0 < fresh_node l;
  queue_lock : LRU_lock l = false
}.

Lemma dchain_frame h pr p ps xs a e : a ∉ ps -> dchain h pr p ps xs -> dchain (<[a := e]> h) pr p ps xs.
Proof.
  revert pr p xs. induction ps as [|b ps IH]; intros pr p [|[v o] xs] Ha Hc; try done.
  apply not_elem_of_cons in Ha as [Hab Ha]. destruct Hc as (-> & Hb & n & Hn & Hc).
  split; [done|]. split; [done|]. exists n. rewrite lookup_insert_ne by done. split; [done|]. by apply IH.
Qed.

Lemma dchain_delete h pr p ps xs a : a ∉ ps -> dchain h pr p ps xs -> dchain (delete a h) pr p ps xs.
Proof.
  revert pr p xs. induction ps as [|b ps IH]; intros pr p [|[v o] xs] Ha Hc; try done.
  apply not_elem_of_cons in Ha as [Hab Ha]. destruct Hc as (-> & Hb & n & Hn & Hc).
  split; [done|]. split; [done|]. exists n. rewrite lookup_delete_ne by done. split; [done|]. by apply IH.
Qed.

Lemma dchain_length h pr p ps xs : dchain h pr p ps xs -> length ps = length xs.
Proof.
  revert pr p xs. induction ps as [|b ps IH]; intros pr p [|[v o] xs] Hc; try done.
  destruct Hc as (_ & _ & n & _ & Hc). cbn. f_equal. by eapply IH.
Qed.

Lemma dchain_nonzero h pr p ps xs : dchain h pr p ps xs -> 0 ∉ ps.
Proof.
  revert pr p xs. induction ps as [|b ps IH]; intros pr p [|[v o] xs] Hc; try done; [by intros ?%elem_of_nil|].
  destruct Hc as (_ & Hb & n & _ & Hc). apply not_elem_of_cons. split; [done|by eapply IH].
Qed.

(** The new node of AddPage is not found in the list. *)
Lemma find_loop_absent fuel node pr l p ps xs :
  dchain (nodes l) pr p ps xs -> node ∉ ps -> (length ps <= fuel)%nat ->
  find_loop fuel node pr p l = Ok (inl l).
Proof.
  revert pr p ps xs. induction fuel as [|fuel IH]; intros pr p [|a ps] [|[v o] xs] Hc Hn Hf; cbn [length] in Hf;
    try done; try lia; cbn [find_loop].
  - cbn in Hc. by rewrite Hc.
  - cbn in Hc. by rewrite Hc.
  - destruct Hc as (-> & Ha & n & Hh & Hc). apply not_elem_of_cons in Hn as [Hne Hn].
    rewrite (proj2 (Z.eqb_neq a 0)) by done. unfold getn. rewrite Hh. cbn [deref mbind res_bind nnext].
    rewrite (proj2 (Z.eqb_neq a node)) by congruence. eapply IH; [exact Hc|done|lia].
Qed.

Lemma queue_size l ps xs : queue l ps xs -> size (nodes l) = length ps.
Proof. intros H. rewrite <-size_dom, (queue_dom _ _ _ H), size_list_to_set by apply H. done. Qed.

Lemma queue_not_fresh l ps xs : queue l ps xs -> fresh_node l ∉ ps.
Proof. intros H Hin. apply (queue_fresh _ _ _ H) in Hin. lia. Qed.

Lemma LRU_new_queue : queue LRU_new [] [].
Proof.
  split; cbn; try done.
  - apply NoDup_nil_2.
  - by intros p Hp%elem_of_nil.
Qed.

Ltac lru_simpl := cbn [deref mbind res_bind set_head set_tail set_nodes set_lru_lock head tail nodes fresh_node LRU_lock
  nnext nprev nvalue npid fst snd negb].

Lemma upd_next_ok p n l e : nodes l !! p = Some e ->
  upd_next p n l = Ok (set_nodes (<[p := mkNode n (nprev e) (nvalue e) (npid e)]> (nodes l)) l).
Proof. intros H. unfold upd_next, getn. by rewrite H. Qed.

Lemma upd_prev_ok p n l e : nodes l !! p = Some e ->
  upd_prev p n l = Ok (set_nodes (<[p := mkNode (nnext e) n (nvalue e) (npid e)]> (nodes l)) l).
Proof. intros H. unfold upd_prev, getn. by rewrite H. Qed.

(** [new LRU_Node], which touches no other node. *)
Lemma AddPage_queue g page pid l ps xs : queue l ps xs ->
  exists l', AddPage g page pid l = Ok l' /\ queue l' (fresh_node l :: ps) ((page, pid) :: xs).
Proof.
  intros H. pose proof (queue_not_fresh _ _ _ H) as Hf. pose proof (queue_addr _ _ _ H) as Ha.
  pose proof (queue_chain _ _ _ H) as Hc. pose proof (queue_tail _ _ _ H) as Ht. pose proof (queue_dom _ _ _ H) as Hd.
  pose proof (queue_fresh _ _ _ H) as Hfr. pose proof (queue_nodup _ _ _ H) as Hnd.
  set (a := fresh_node l) in *. unfold AddPage, new_node, upd_pid, getn. cbn [set_lru_lock nodes fresh_node head tail LRU_lock].
  fold a. rewrite lookup_insert_eq. cbn [deref mbind res_bind nnext nprev nvalue npid set_nodes nodes fresh_node head tail LRU_lock].
  rewrite insert_insert_eq. unfold replace_head. cbn [set_lru_lock set_nodes nodes fresh_node head tail LRU_lock].
  destruct ps as [|b ps], xs as [|[v o] xs]; try done.
  - cbn in Hc. rewrite Hc. cbn. unfold upd_next, upd_prev, getn. cbn. rewrite lookup_insert_eq. cbn.
    rewrite insert_insert_eq, lookup_insert_eq. cbn. rewrite insert_insert_eq. eexists. split; [reflexivity|].
    split; cbn; try done.
    + split; [done|]. split; [lia|]. exists 0. by rewrite lookup_insert_eq.
    + apply NoDup_singleton.
    + rewrite dom_insert_L, Hd. done.
    + intros p ->%list_elem_of_singleton. fold a. lia.
    + lia.
  - destruct Hc as (Hhd & Hb & n & Hn & Hc). apply not_elem_of_cons in Hf as [Hab Hf].
    apply list.NoDup_cons in Hnd as [Hbn Hnd]. rewrite Hhd.
    rewrite (proj2 (Z.eqb_neq b 0)), (proj2 (Z.eqb_neq b a)) by congruence.
    set (h := <[a := _]> (nodes l)).
    rewrite (find_loop_absent _ _ _ _ _ (b :: ps) ((v, o) :: xs)).
    2:{ cbn [nodes set_lru_lock set_nodes]. split; [done|]. split; [done|]. exists n. subst h. rewrite lookup_insert_ne by done. split; [done|]. by apply dchain_frame. }
    2:{ by apply not_elem_of_cons. }
    2:{ cbn [nodes set_lru_lock set_nodes]. subst h. rewrite map_size_insert_None; [|apply not_elem_of_dom; rewrite Hd, elem_of_list_to_set, elem_of_cons; naive_solver].
        rewrite (queue_size _ _ _ H). cbn. lia. }
    subst h. lru_simpl. erewrite upd_next_ok by (lru_simpl; apply lookup_insert_eq). lru_simpl. rewrite insert_insert_eq.
    erewrite upd_prev_ok by (lru_simpl; apply lookup_insert_eq). lru_simpl. rewrite insert_insert_eq.
    erewrite upd_prev_ok by (lru_simpl; rewrite lookup_insert_ne by done; exact Hn). lru_simpl.
    eexists. split; [reflexivity|]. split; cbn; try done.
    + split; [done|]. split; [lia|]. exists b. rewrite lookup_insert_ne, lookup_insert_eq by done. split; [done|].
      split; [done|]. split; [done|]. exists n. rewrite lookup_insert_eq. split; [done|]. by do 2 (apply dchain_frame; [done|]).
    + apply list.NoDup_cons. split; [by apply not_elem_of_cons|]. by apply list.NoDup_cons.
    + rewrite !dom_insert_L, Hd. cbn [list_to_set]. set_solver.
    + intros p. rewrite elem_of_cons. intros [->|Hp]; [fold a; lia|]. specialize (Hfr p Hp). lia.
    + lia.
Qed.

(** ** Segments of the list *)

(** As [dchain], but up to the node [la], whose successor is [q]. *)
Fixpoint dseg (h : gmap Z LRU_Node) (pr p : Z) (ps : list Z) (xs : list (entry_ptr * Z)) (la q : Z) : Prop :=
  match ps, xs with
  | [], [] => p = q /\ pr = la
  | a :: ps, (v, o) :: xs => p = a /\ a <> 0 /\ exists n, h !! a = Some (mkNode n pr v o) /\ dseg h a n ps xs la q
  | _, _ => False
  end.

Lemma dchain_dseg h pr p ps xs : dchain h pr p ps xs <-> dseg h pr p ps xs (default pr (last ps)) 0.
Proof.
  revert pr p xs. induction ps as [|a ps IH]; intros pr p [|[v o] xs]; cbn [dchain dseg]; try done.
  - cbn. tauto.
  - do 2 (apply and_iff_compat_l). split; intros (n & Hn & H); exists n; (split; [done|]); apply IH in H || apply IH;
      rewrite last_cons in *; by destruct (last ps).
Qed.

Lemma dseg_la h pr p ps xs la q : dseg h pr p ps xs la q -> la = default pr (last ps).
Proof.
  revert pr p xs. induction ps as [|a ps IH]; intros pr p [|[v o] xs]; cbn [dseg]; try done.
  - by intros [_ ->].
  - intros (_ & _ & n & _ & H). apply IH in H as ->. rewrite last_cons. by destruct (last ps).
Qed.

Lemma dseg_app h pr p ps1 ps2 xs1 xs2 la q : length ps1 = length xs1 ->
  dseg h pr p (ps1 ++ ps2) (xs1 ++ xs2) la q <->
  exists z m, dseg h pr p ps1 xs1 z m /\ dseg h z m ps2 xs2 la q.
Proof.
  revert pr p xs1. induction ps1 as [|a ps1 IH]; intros pr p [|[v o] xs1] Hl; try done; cbn [app dseg].
  - split; [intros H; by exists pr, p|]. by intros (z & m & [-> ->] & H).
  - injection Hl as Hl. split.
    + intros (-> & Ha & n & Hn & H). apply IH in H as (z & m & H1 & H2); [|done]. exists z, m. split; [|done].
      split; [done|]. split; [done|]. by exists n.
    + intros (z & m & (-> & Ha & n & Hn & H1) & H2). split; [done|]. split; [done|]. exists n. split; [done|].
      apply IH; [done|]. by exists z, m.
Qed.

Lemma dseg_frame h pr p ps xs la q a e : a ∉ ps -> dseg h pr p ps xs la q -> dseg (<[a := e]> h) pr p ps xs la q.
Proof.
  revert pr p xs. induction ps as [|b ps IH]; intros pr p [|[v o] xs] Ha Hc; try done.
  apply not_elem_of_cons in Ha as [Hab Ha]. destruct Hc as (-> & Hb & n & Hn & Hc).
  split; [done|]. split; [done|]. exists n. rewrite lookup_insert_ne by done. split; [done|]. by apply IH.
Qed.

Lemma dseg_delete h pr p ps xs la q a : a ∉ ps -> dseg h pr p ps xs la q -> dseg (delete a h) pr p ps xs la q.
Proof.
  revert pr p xs. induction ps as [|b ps IH]; intros pr p [|[v o] xs] Ha Hc; try done.
  apply not_elem_of_cons in Ha as [Hab Ha]. destruct Hc as (-> & Hb & n & Hn & Hc).
  split; [done|]. split; [done|]. exists n. rewrite lookup_delete_ne by done. split; [done|]. by apply IH.
Qed.

(** The last node of a segment gets another successor... *)
Lemma dseg_retarget h pr p ps xs la q n :
  dseg h pr p ps xs la q -> NoDup ps -> ps <> [] ->
  exists e, h !! la = Some e /\ nnext e = q /\
  dseg (<[la := mkNode n (nprev e) (nvalue e) (npid e)]> h) pr p ps xs la n.
Proof.
  revert pr p xs. induction ps as [|a ps IH]; intros pr p [|[v o] xs] Hs Hnd Hne; try done.
  destruct Hs as (-> & Ha & m & Hm & Hs). apply list.NoDup_cons in Hnd as [Han Hnd].
  destruct ps as [|b ps].
  - destruct xs as [|[? ?] ?]; [|done]. destruct Hs as [-> <-]. eexists. split; [exact Hm|]. split; [done|].
    split; [done|]. split; [done|]. exists n. by rewrite lookup_insert_eq.
  - destruct (IH a m xs Hs Hnd) as (e & He & Hq & IH'); [done|]. exists e. split; [done|]. split; [done|].
    split; [done|]. split; [done|]. exists m. rewrite lookup_insert_ne; [done|].
    intros E. apply Han. rewrite <-E, (dseg_la _ _ _ _ _ _ _ Hs), last_cons. apply elem_of_cons.
    destruct (last ps) eqn:El; [right; by apply last_Some_elem_of|by left].
Qed.

(** ... and the first one another predecessor. *)
Lemma dseg_repoint h pr p ps xs la q z :
  dseg h pr p ps xs la q -> NoDup ps -> ps <> [] ->
  exists e, h !! p = Some e /\ nprev e = pr /\ p ∈ ps /\
  dseg (<[p := mkNode (nnext e) z (nvalue e) (npid e)]> h) z p ps xs la q.
Proof.
  destruct ps as [|a ps], xs as [|[v o] xs]; try done. intros (-> & Ha & m & Hm & Hs) [Han Hnd]%list.NoDup_cons _.
  eexists. split; [exact Hm|]. split; [done|]. split; [by left|]. split; [done|]. split; [done|]. exists m.
  rewrite lookup_insert_eq. split; [done|]. by apply dseg_frame.
Qed.

Lemma dseg_nonzero h pr p ps xs la q : dseg h pr p ps xs la q -> 0 ∉ ps.
Proof.
  revert pr p xs. induction ps as [|b ps IH]; intros pr p [|[v o] xs] Hc; try done; [by intros ?%elem_of_nil|].
  destruct Hc as (_ & Hb & n & _ & Hc). apply not_elem_of_cons. split; [done|by eapply IH].
Qed.

Lemma dseg_start h pr p ps xs la q : dseg h pr p ps xs la q -> p = default q (hd_error ps).
Proof. destruct ps as [|a ps], xs as [|[v o] xs]; cbn; try done; [by intros [-> _]|by intros [-> _]]. Qed.

Lemma dseg_length h pr p ps xs la q : dseg h pr p ps xs la q -> length ps = length xs.
Proof.
  revert pr p xs. induction ps as [|b ps IH]; intros pr p [|[v o] xs] Hc; try done.
  destruct Hc as (_ & _ & n & _ & Hc). cbn. f_equal. by eapply IH.
Qed.

(** ** The end of the queue *)

Lemma queue_snoc l ps xs v o : queue l ps (xs ++ [(v, o)]) ->
  exists qs z, ps = qs ++ [tail l] /\ nodes l !! tail l = Some (mkNode 0 z v o) /\
    dseg (nodes l) 0 (head l) qs xs z (tail l) /\ tail l <> 0.
Proof.
  intros H. pose proof (queue_chain _ _ _ H) as Hc. pose proof (dchain_length _ _ _ _ _ Hc) as Hl.
  rewrite length_app in Hl. cbn in Hl. destruct ps as [|a ps _] using rev_ind; [cbn in Hl; lia|].
  rewrite length_app in Hl. cbn in Hl. pose proof (queue_tail _ _ _ H) as Ht. rewrite last_snoc in Ht. cbn in Ht.
  apply dchain_dseg, dseg_app in Hc as (z & m & H1 & (-> & Ha & n & Hn & -> & _)); [|lia].
  exists ps, z. rewrite Ht. done.
Qed.

Lemma GetLRU_queue l ps xs v o : queue l ps (xs ++ [(v, o)]) -> GetLRU l = Ok v /\ tail_pid l = Ok o.
Proof.
  intros (qs & z & _ & Hn & _)%queue_snoc. unfold GetLRU, tail_pid, getn. by rewrite Hn.
Qed.

Lemma Remove_LRU_Page_queue l ps xs v o : queue l ps (xs ++ [(v, o)]) -> xs <> [] ->
  exists l' qs, Remove_LRU_Page l = Ok l' /\ queue l' qs xs.
Proof.
  intros H Hne. destruct (queue_snoc _ _ _ _ _ H) as (qs & z & -> & Hn & Hs & Ht0).
  pose proof (queue_nodup _ _ _ H) as (Hnd & Hdis & _)%NoDup_app. pose proof (queue_dom _ _ _ H) as Hd.
  assert (Htq : tail l ∉ qs) by (intros Hin; by eapply Hdis; [done|left]).
  assert (Hqs : qs <> []) by (intros ->; by destruct xs as [|[] ?]).
  destruct (dseg_retarget _ _ _ _ _ _ _ 0 Hs Hnd Hqs) as (e & He & _ & Hs').
  assert (Hzq : z ∈ qs).
  { apply dseg_la in Hs as ->. destruct (last qs) eqn:E; [by apply last_Some_elem_of|by apply last_None in E]. }
  assert (Hz : z <> tail l) by congruence.
  unfold Remove_LRU_Page, getn. rewrite Hn. lru_simpl. erewrite upd_next_ok by (lru_simpl; exact He). lru_simpl.
  unfold delete_node, getn. lru_simpl. rewrite lookup_insert_ne, Hn by done. lru_simpl.
  eexists _, qs. split; [reflexivity|]. split; lru_simpl; try done; try exact (queue_addr _ _ _ H); try exact (queue_lock _ _ _ H).
  - apply dchain_dseg. rewrite <-(dseg_la _ _ _ _ _ _ _ Hs). by apply dseg_delete.
  - pose proof (dseg_la _ _ _ _ _ _ _ Hs). by destruct (last qs).
  - rewrite dom_delete_L, dom_insert_L, Hd, list_to_set_app_L. cbn. set_solver.
  - intros p Hp. apply (queue_fresh _ _ _ H). rewrite elem_of_app. by left.
Qed.

(** ** Removing the pages of a process *)

Fixpoint clear_all (fs : list Z) (mm : MemoryManager) : res MemoryManager :=
  match fs with
  | [] => Ok mm
  | f :: fs => mm ← clearPage f mm; clear_all fs mm
  end.

(** The pages of [pid], and the others. *)
Definition owned (pid : Z) (xs : list (entry_ptr * Z)) : list (entry_ptr * Z) := filter (fun x => x.2 = pid) xs.
Definition others (pid : Z) (xs : list (entry_ptr * Z)) : list (entry_ptr * Z) := filter (fun x => x.2 <> pid) xs.

(** What RemovePage leaves in [tail]: the successor of the last node it
    deleted. *)
Fixpoint tail_after (t pid : Z) (ps : list Z) (xs : list (entry_ptr * Z)) : Z :=
  match ps, xs with
  | _ :: ps, (_, o) :: xs => tail_after (if o =? pid then default 0 (hd_error ps) else t) pid ps xs
  | _, _ => t
  end.

(** The state of the loop: [ps1] kept, [ps2] still to visit. *)
Record removing (l : LRU) (ps1 ps2 : list Z) (xs1 xs2 : list (entry_ptr * Z)) (z cur : Z) : Prop := {
  rm_before : dseg (nodes l) 0 (head l) ps1 xs1 z cur;
  rm_after : exists la, dseg (nodes l) z cur ps2 xs2 la 0;
  rm_nodup : NoDup (ps1 ++ ps2);
  rm_dom : dom (nodes l) = list_to_set (ps1 ++ ps2)
}.

Lemma hd_zero ps (n : Z) : 0 ∉ ps -> n = default 0 (hd_error ps) -> (n =? 0) = bool_decide (ps = []).
Proof.
  destruct ps as [|a ps]; intros H ->; [done|]. apply not_elem_of_cons in H as [H _]. rewrite bool_decide_false by done. cbn.
  apply Z.eqb_neq. congruence.
Qed.

Lemma unlink_ok l ps1 a ps2 xs1 v o xs2 z : removing l ps1 (a :: ps2) xs1 ((v, o) :: xs2) z a ->
  exists n, nodes l !! a = Some (mkNode n z v o) /\ n = default 0 (hd_error ps2) /\
  exists l', unlink a n z l = Ok l' /\ removing l' ps1 ps2 xs1 xs2 z n /\ tail l' = n /\
    fresh_node l' = fresh_node l /\ LRU_lock l' = LRU_lock l.
Proof.
  intros [H1 (la & _ & Ha & n & Hn & H2) Hnd Hdom].
  pose proof (dseg_start _ _ _ _ _ _ _ H2) as Hst. exists n. split; [done|]. split; [done|].
  apply NoDup_app in Hnd as (Hnd1 & Hdis & [Ha2 Hnd2]%list.NoDup_cons).
  assert (Ha1 : a ∉ ps1) by (intros Hin; by eapply Hdis; [done|left]).
  pose proof (dseg_la _ _ _ _ _ _ _ H1) as Hz.
  assert (Hz0 : (z =? 0) = bool_decide (ps1 = [])).
  { destruct ps1 as [|b ps1]; [by rewrite Hz|]. rewrite bool_decide_false by done. apply Z.eqb_neq. rewrite Hz.
    pose proof (dseg_nonzero _ _ _ _ _ _ _ H1) as Hno. rewrite last_cons. intros E. apply Hno. rewrite <-E.
    destruct (last ps1) eqn:El; cbn; [right; by apply last_Some_elem_of|left]. }
  assert (Hn0 : (n =? 0) = bool_decide (ps2 = [])) by (apply hd_zero; [by eapply dseg_nonzero|done]).
  assert (Hhd : (head l =? a) = bool_decide (ps1 = [])).
  { pose proof (dseg_start _ _ _ _ _ _ _ H1) as ->. destruct ps1 as [|b ps1]; [by rewrite Z.eqb_refl|].
    rewrite bool_decide_false by done. cbn. apply Z.eqb_neq. intros ->. apply Ha1. left. }
  (* the predecessor *)
  assert (Hp1 : exists h1, (if negb (z =? 0) then upd_next z n l else Ok l) = Ok (set_nodes h1 l) /\
    dseg h1 0 (if bool_decide (ps1 = []) then n else head l) ps1 xs1 z n /\ dseg h1 a n ps2 xs2 la 0 /\
    h1 !! a = Some (mkNode n z v o) /\ dom h1 = dom (nodes l)).
  { rewrite Hz0. destruct (decide (ps1 = [])) as [->|Hne].
    - destruct xs1; [|done]. exists (nodes l). split; [by destruct l|]. split; [by destruct H1|]. done.
    - rewrite bool_decide_false by done. cbn [negb]. destruct (dseg_retarget _ _ _ _ _ _ _ n H1 Hnd1 Hne) as (e & He & _ & H1').
      assert (Hzin : z ∈ ps1) by (rewrite Hz; destruct (last ps1) eqn:El; [by apply last_Some_elem_of|by apply last_None in El]).
      assert (z <> a) by congruence.
      eexists. split; [by apply upd_next_ok|]. split; [exact H1'|]. split; [|split; [by rewrite lookup_insert_ne|]].
      + apply dseg_frame; [|done]. intros Hin. eapply Hdis; [exact Hzin|by right].
      + apply dom_insert_lookup_L. eauto. }
  destruct Hp1 as (h1 & E1 & H1' & H2' & Ha' & Hd1). unfold unlink. rewrite E1. lru_simpl.
  (* the successor *)
  assert (Hp2 : exists h2, (if negb (n =? 0) then upd_prev n z (set_nodes h1 l) else Ok (set_nodes h1 l)) = Ok (set_nodes h2 l) /\
    dseg h2 0 (if bool_decide (ps1 = []) then n else head l) ps1 xs1 z n /\ (exists la, dseg h2 z n ps2 xs2 la 0) /\
    h2 !! a = Some (mkNode n z v o) /\ dom h2 = dom (nodes l)).
  { rewrite Hn0. destruct (decide (ps2 = [])) as [->|Hne].
    - destruct xs2; [|done]. exists h1. split; [done|]. split; [done|]. split; [|done]. destruct H2' as [-> _]. by exists z.
    - rewrite bool_decide_false by done. cbn [negb]. destruct (dseg_repoint _ _ _ _ _ _ _ z H2' Hnd2 Hne) as (e & He & _ & Hin & H2'').
      exists (<[n := mkNode (nnext e) z (nvalue e) (npid e)]> h1). split; [by erewrite upd_prev_ok by exact He|]. split.
      + apply dseg_frame; [|done]. intros Hin1. eapply Hdis; [exact Hin1|by right].
      + split; [by exists la|]. rewrite lookup_insert_ne by congruence. split; [done|]. rewrite dom_insert_lookup_L; [done|eauto]. }
  destruct Hp2 as (h2 & E2 & H1'' & (la' & H2'') & Ha'' & Hd2). rewrite E2. lru_simpl. rewrite Hhd.
  rewrite (proj2 (Z.eqb_neq a 0)) by done. lru_simpl.
  unfold delete_node, getn. destruct (bool_decide (ps1 = [])) eqn:Eb; lru_simpl; rewrite Ha''; lru_simpl;
    (eexists; split; [reflexivity|]; split; [|done]; split; lru_simpl;
     [by apply dseg_delete|exists la'; by apply dseg_delete|by apply NoDup_app; split; [|split; [|done]]; [done|intros x Hx Hx2; eapply Hdis; [exact Hx|by right]]|
      rewrite dom_delete_L, Hd2, Hdom, !list_to_set_app_L; cbn; set_solver]).
Qed.

Lemma remove_loop_ok fuel frame pid fs l mm mm' ps1 ps2 xs1 xs2 z cur :
  removing l ps1 ps2 xs1 xs2 z cur -> (length ps2 <= fuel)%nat ->
  Forall2 (fun x f => frame x.1 = Ok f) (owned pid xs2) fs -> clear_all fs mm = Ok mm' ->
  exists l' qs z', remove_loop fuel frame pid cur (l, mm) = Ok (l', mm') /\
    removing l' qs [] (xs1 ++ others pid xs2) [] z' 0 /\ tail l' = tail_after (tail l) pid ps2 xs2 /\
    fresh_node l' = fresh_node l /\ LRU_lock l' = LRU_lock l /\ (forall p, p ∈ qs -> p ∈ ps1 ++ ps2).
Proof.
  revert fs l mm ps1 ps2 xs1 xs2 z cur.
  induction fuel as [|fuel IH]; intros fs l mm ps1 [|a ps2] xs1 [|[v o] xs2] z cur H Hf Hfs Hcl; cbn [length] in Hf;
    try lia; try (by destruct (rm_after _ _ _ _ _ _ _ H) as (? & [])).
  1,2: destruct (rm_after _ _ _ _ _ _ _ H) as (la & -> & ->); cbn in Hfs; apply Forall2_nil_inv_l in Hfs as ->; injection Hcl as <-;
    exists l, ps1, la; cbn; rewrite app_nil_r; (split; [done|]); (split; [done|]); do 3 (split; [done|]); intros p; by rewrite app_nil_r.
  pose proof (rm_after _ _ _ _ _ _ _ H) as (la & -> & Ha & _).
  destruct (unlink_ok _ _ _ _ _ _ _ _ _ H) as (n & Hn & Hhd & l1 & E1 & H1 & Ht1 & Hf1 & Hk1).
  cbn [remove_loop]. rewrite (proj2 (Z.eqb_neq a 0)) by done. unfold getn. rewrite Hn. lru_simpl. cbn [tail_after].
  unfold owned in Hfs. unfold others. rewrite filter_cons in Hfs |- *. destruct (Z.eqb_spec o pid) as [->|Hne].
  - rewrite decide_True in Hfs by done. rewrite decide_False by naive_solver. apply Forall2_cons_inv_l in Hfs as (f & fs' & Hv & Hfs & ->).
    cbn in Hcl. destruct (clearPage f mm) as [mm1|] eqn:Ec; [|done]. cbn in Hv. rewrite Hv. lru_simpl. rewrite Ec. lru_simpl. rewrite E1. lru_simpl.
    destruct (IH fs' l1 mm1 ps1 ps2 xs1 xs2 z n H1 ltac:(lia) Hfs Hcl) as (l' & qs & z' & El & Hr & Ht & Hf' & Hk' & Hqs).
    exists l', qs, z'. rewrite El, Ht, Ht1, <-Hhd. split; [done|]. split; [done|]. split; [done|]. split; [congruence|]. split; [congruence|].
    intros p Hp. apply Hqs in Hp. rewrite elem_of_app in Hp |- *. rewrite elem_of_cons. tauto.
  - rewrite decide_False in Hfs by done. rewrite decide_True by done.
    assert (H2 : removing l (ps1 ++ [a]) ps2 (xs1 ++ [(v, o)]) xs2 a n).
    { destruct H as [Hb (la' & _ & _ & n' & Hn' & Haft) Hnd Hd]. rewrite Hn in Hn'. injection Hn' as <-. split.
      - apply dseg_app; [by eapply dseg_length|]. exists z, a. split; [done|]. split; [done|]. split; [done|]. by exists n.
      - by exists la'.
      - by rewrite <-app_assoc.
      - by rewrite <-app_assoc. }
    destruct (IH fs l mm _ _ _ _ _ _ H2 ltac:(lia) Hfs Hcl) as (l' & qs & z' & El & Hr & Ht & Hf' & Hk' & Hqs).
    exists l', qs, z'. split; [done|]. split; [by rewrite <-app_assoc in Hr|]. split; [done|]. split; [done|]. split; [done|].
    intros p Hp. apply Hqs in Hp. by rewrite <-app_assoc in Hp.
Qed.

(** [RemovePage] frees the frames of the process and takes its nodes off
    the list, but the queue keeps its end only if ... *)
Lemma RemovePage_list frame pid fs l ps xs mm mm' :
  queue l ps xs -> Forall2 (fun x f => frame x.1 = Ok f) (owned pid xs) fs -> clear_all fs mm = Ok mm' ->
  exists l' qs, RemovePage frame pid l mm = Ok (l', mm') /\
    dchain (nodes l') 0 (head l') qs (others pid xs) /\ tail l' = tail_after (tail l) pid ps xs /\
    nodes l' !! 0 = None /\ (tail l' = default 0 (last qs) -> queue l' qs (others pid xs)).
Proof.
  intros H Hfs Hcl. assert (Hr : removing (set_lru_lock true l) [] ps [] xs 0 (head l)).
  { split; lru_simpl; cbn; [done| |apply H|apply H]. eexists. apply dchain_dseg, H. }
  destruct (remove_loop_ok (size (nodes l)) frame pid fs _ mm mm' _ _ _ _ _ _ Hr) as (l' & qs & z' & E & [Hb Ha Hnd Hd] & Ht & Hf & Hk & Hqs);
    [by rewrite (queue_size _ _ _ H)|done|done|].
  unfold RemovePage. lru_simpl. rewrite E. lru_simpl. rewrite app_nil_r in Hnd, Hd. cbn [app] in Hb, Hqs.
  assert (Hc : dchain (nodes l') 0 (head l') qs (others pid xs)).
  { apply dchain_dseg. by rewrite <-(dseg_la _ _ _ _ _ _ _ Hb). }
  eexists _, qs. split; [reflexivity|]. split; [done|]. split; [done|]. lru_simpl. split.
  { apply not_elem_of_dom. rewrite Hd, elem_of_list_to_set. by eapply dchain_nonzero. }
  intros Htl.
  split; lru_simpl; try done.
  - intros p Hp. rewrite Hf. by apply (queue_fresh _ _ _ H), Hqs.
  - rewrite Hf. exact (queue_addr _ _ _ H).
Qed.

Lemma tail_after_last t pid ps xs v : length ps = length (xs ++ [(v, pid)]) ->
  tail_after t pid ps (xs ++ [(v, pid)]) = 0.
Proof.
  revert t xs. induction ps as [|a ps IH]; intros t [|[w o] xs] Hl; cbn [app length] in Hl; try done; cbn [app tail_after].
  - injection Hl as Hl. apply length_zero_iff_nil in Hl as ->. by rewrite Z.eqb_refl.
  - apply IH. by injection Hl.
Qed.

Lemma tail_after_none t pid ps xs : owned pid xs = [] -> tail_after t pid ps xs = t.
Proof.
  unfold owned. revert t xs. induction ps as [|a ps IH]; intros t [|[w o] xs] H; try done. cbn [tail_after].
  rewrite filter_cons in H. destruct (Z.eqb_spec o pid) as [->|Hne].
  - by rewrite decide_True in H.
  - rewrite decide_False in H by done. by apply IH.
Qed.

Lemma remove_loop_none fuel frame pid l mm pr p ps xs :
  dchain (nodes l) pr p ps xs -> owned pid xs = [] -> (length ps <= fuel)%nat ->
  remove_loop fuel frame pid p (l, mm) = Ok (l, mm).
Proof.
  unfold owned. revert pr p ps xs. induction fuel as [|fuel IH]; intros pr p [|a ps] [|[v o] xs] Hc Ho Hf; cbn [length] in Hf;
    try done; try lia; cbn [remove_loop].
  - cbn in Hc. by rewrite Hc.
  - cbn in Hc. by rewrite Hc.
  - destruct Hc as (-> & Ha & n & Hn & Hc). rewrite filter_cons in Ho. cbn in Ho.
    rewrite (proj2 (Z.eqb_neq a 0)) by done. unfold getn. rewrite Hn. lru_simpl.
    destruct (decide (o = pid)) as [->|Hne]; [done|]. rewrite (proj2 (Z.eqb_neq o pid)) by done. eapply IH; [exact Hc|done|lia].
Qed.

Lemma RemovePage_none frame pid l ps xs mm :
  queue l ps xs -> owned pid xs = [] -> RemovePage frame pid l mm = Ok (l, mm).
Proof.
  intros H Ho. unfold RemovePage. erewrite remove_loop_none; [|apply H|exact Ho|by rewrite (queue_size _ _ _ H)]. lru_simpl.
  pose proof (queue_lock _ _ _ H) as Hk. destruct l. unfold set_lru_lock. cbn in *. by rewrite Hk.
Qed.

(** C39: the list of resident pages is a queue: AddPage puts a page and
    its owner at the front, GetLRU and tail_pid look at the other end, and
    Remove_LRU_Page takes that page off when it is not the only one.  On
    an empty queue, and for Remove_LRU_Page on a queue of one page, the
    code follows NULL. *)
Theorem LRU_refines_queue garbage page pid l ps xs : queue l ps xs ->
  (exists l', AddPage garbage page pid l = Ok l' /\ queue l' (fresh_node l :: ps) ((page, pid) :: xs)) /\
  match rev xs with
  | [] => GetLRU l = Err MemFault /\ tail_pid l = Err MemFault
  | [(v, o)] => GetLRU l = Ok v /\ tail_pid l = Ok o /\ Remove_LRU_Page l = Err MemFault
  | (v, o) :: ys => GetLRU l = Ok v /\ tail_pid l = Ok o /\
      exists l' qs, Remove_LRU_Page l = Ok l' /\ queue l' qs (rev ys)
  end.
Proof.
  intros H. split; [by apply AddPage_queue|]. pose proof (queue_dom _ _ _ H) as Hd.
  destruct xs as [|[v o] ys _] using rev_ind.
  - pose proof (queue_chain _ _ _ H) as Hc. destruct ps; [|done]. pose proof (queue_tail _ _ _ H) as Ht. cbn in Ht.
    assert (Hn : nodes l !! tail l = None) by (apply not_elem_of_dom; rewrite Hd; set_solver).
    unfold GetLRU, tail_pid, getn. cbn. by rewrite Hn.
  - rewrite rev_app_distr. cbn. destruct (GetLRU_queue _ _ _ _ _ H) as [HG Hp].
    destruct (rev ys) as [|[v' o'] zs] eqn:E.
    + split; [done|]. split; [done|]. apply (f_equal (@rev _)) in E. rewrite rev_involutive in E. cbn in E. subst ys.
      destruct (queue_snoc _ _ _ _ _ H) as (qs & z & -> & Hn & Hs & _). destruct qs; [|done]. destruct Hs as [_ <-].
      assert (H0 : nodes l !! 0 = None).
      { apply not_elem_of_dom. rewrite Hd. cbn. pose proof (dchain_nonzero _ _ _ _ _ (queue_chain _ _ _ H)) as Hno. cbn in Hno. set_solver. }
      unfold Remove_LRU_Page, getn. rewrite Hn. lru_simpl. unfold upd_next, getn. lru_simpl. by rewrite H0.
    + split; [done|]. split; [done|]. rewrite <-E, rev_involutive. eapply Remove_LRU_Page_queue; [exact H|]. by intros ->.
Qed.

(** RemovePage gives the frames of the process back, each once, and
    takes exactly its pages off the list; a queue without such pages is
    left as it was.  But when the page at the end is one of them, the
    member [tail] becomes NULL although other pages may remain, and then
    the next eviction follows NULL. *)
Theorem RemovePage_correct frame pid fs l ps xs mm mm' :
  queue l ps xs -> Forall2 (fun x f => frame x.1 = Ok f) (owned pid xs) fs -> clear_all fs mm = Ok mm' ->
  (owned pid xs = [] -> RemovePage frame pid l mm = Ok (l, mm)) /\
  exists l' qs, RemovePage frame pid l mm = Ok (l', mm') /\
    dchain (nodes l') 0 (head l') qs (others pid xs) /\
    (tail l' = default 0 (last qs) -> queue l' qs (others pid xs)) /\
    forall ys v, xs = ys ++ [(v, pid)] -> tail l' = 0 /\ GetLRU l' = Err MemFault.
Proof.
  intros H Hfs Hcl. split; [intros Ho; by eapply RemovePage_none|].
  destruct (RemovePage_list _ _ _ _ _ _ _ _ H Hfs Hcl) as (l' & qs & E & Hc & Ht & H0 & Hq).
  exists l', qs. do 3 (split; [done|]). intros ys v ->.
  pose proof (dchain_length _ _ _ _ _ (queue_chain _ _ _ H)) as Hl. rewrite (tail_after_last _ _ _ _ _ Hl) in Ht.
  split; [done|]. unfold GetLRU, getn. by rewrite Ht, H0.
Qed.

(** Three resident pages of two processes, on frames 0 to 2. *)
Definition example_lru : LRU :=
  mkLRU {[3 := mkNode 2 0 (1, 1) 5; 2 := mkNode 1 3 (2, 0) 6; 1 := mkNode 0 2 (1, 0) 5]} 4 3 1 false.
Definition example_mm : MemoryManager := mkMM (mkBitMap 32 1 [7]) 3 false.
Definition example_frame (p : entry_ptr) : res Z := Ok (if fst p =? 1 then 2 * snd p else 1).

Lemma example_lru_built :
  (l ← AddPage 77 (1, 0) 5 LRU_new; l ← AddPage 77 (2, 0) 6 l; AddPage 77 (1, 1) 5 l) = Ok example_lru.
Proof. vm_compute. reflexivity. Qed.

Lemma example_lru_queue : queue example_lru [3; 2; 1] [((1, 1), 5); ((2, 0), 6); ((1, 0), 5)].
Proof.
  split; try done.
  - cbn. do 3 (split; [done|]; split; [done|]; eexists; split; [reflexivity|]). done.
  - repeat constructor; set_solver.
  - intros p. rewrite !elem_of_cons, elem_of_nil. cbn. lia.
Qed.

Lemma LRU_refines_queue_witness :
  (exists l', AddPage 77 (2, 1) 6 example_lru = Ok l') /\
  GetLRU example_lru = Ok (1, 0) /\ exists l', Remove_LRU_Page example_lru = Ok l'.
Proof.
  destruct (LRU_refines_queue 77 (2, 1) 6 _ _ _ example_lru_queue) as [(l & E & _) (HG & _ & l' & qs & HR & _)].
  split; [by exists l|]. split; [exact HG|]. by exists l'.
Defined.

(** Process 5 leaves: the page of process 6 stays without a tail. *)
Lemma RemovePage_correct_witness : exists l' mm',
  RemovePage example_frame 5 example_lru example_mm = Ok (l', mm') /\ GetLRU l' = Err MemFault.
Proof.
  destruct (RemovePage_correct example_frame 5 [2; 0] _ _ _ example_mm (mkMM (mkBitMap 32 1 [2]) 1 false) example_lru_queue)
    as (_ & l' & qs & E & _ & _ & H).
  - repeat constructor.
  - vm_compute. reflexivity.
  - destruct (H [((1, 1), 5); ((2, 0), 6)] (1, 0) eq_refl) as [_ HG]. by exists l', (mkMM (mkBitMap 32 1 [2]) 1 false).
Defined.

(** ** The allocator of physical pages *)

(** GetPage hands out the first free frame and marks it, clearPage
    frees a frame, getAvailable counts the free ones; when there is none,
    getPage returns -1 and keeps its lock. *)
Theorem MemoryManager_correct mm : Bitmap.wf (pages mm) ->
  (exists mm', getAvailable mm = Ok (zlen (clear_bits (pages mm)), mm') /\ pages mm' = pages mm) /\
  match clear_bits (pages mm) with
  | [] => exists mm', getPage mm = Ok (-1, mm') /\ pages mm' = pages mm /\ memLock mm' = true
  | f :: rest => exists mm', getPage mm = Ok (f, mm') /\ Bitmap.wf (pages mm') /\ numBits (pages mm') = numBits (pages mm) /\
      clear_bits (pages mm') = rest /\ memLock mm' = false /\
      exists mm'', clearPage f mm' = Ok mm'' /\ clear_bits (pages mm'') = f :: rest
  end.
Proof.
  intros Hwf. split; [eexists; unfold getAvailable; by rewrite NumClear_loop|].
  unfold getPage. destruct (Find_spec (pages mm) Hwf) as (r & bm & -> & Hwf' & Hs). cbn [mbind res_bind].
  destruct (clear_bits (pages mm)) as [|f rest] eqn:E.
  - apply (find_spec_clear _ _ _ Hs) in E as ->. destruct Hs as [(_ & -> & _)|[? _]]; [|lia]. by eexists.
  - assert (Hr : r <> -1) by (intros ->; pose proof (proj1 (find_spec_clear _ _ _ Hs) eq_refl) as E'; by rewrite E' in E).
    pose proof (find_spec_clear_bits _ _ _ Hs Hr) as Hc. rewrite E in Hc. injection Hc as <- ->.
    destruct Hs as [[? _]|(Hrange & Hfree & _ & Hnb & Hb)]; [done|]. rewrite (proj2 (Z.eqb_neq f (-1))) by done.
    eexists. split; [reflexivity|]. cbn. do 4 (split; [done|]).
    destruct (Clear_bit bm f Hwf') as (bm2 & E2 & _ & Hnb2 & Hb2); [lia|]. unfold clearPage. cbn. rewrite E2.
    eexists. split; [reflexivity|]. cbn. rewrite <-E. unfold clear_bits. rewrite Hnb2, Hnb.
    apply filter_ext_in. intros j Hj%elem_of_seqZ. rewrite Hb2, Hb by lia. by destruct (Z.eqb_spec j f) as [->|].
Qed.

Lemma MemoryManager_correct_witness :
  (exists mm', getPage example_mm = Ok (3, mm')) /\
  exists mm', getPage (mkMM (mkBitMap 32 1 [2 ^ 32 - 1]) 32 false) = Ok (-1, mm') /\ memLock mm' = true.
Proof.
  assert (H : forall w n, in_u32 w -> Bitmap.wf (pages (mkMM (mkBitMap 32 1 [w]) n false))) by (intros; split; cbn; auto; lia).
  split.
  - destruct (MemoryManager_correct example_mm (H 7 3 ltac:(split; lia))) as [_ (mm' & E & _)]. by exists mm'.
  - destruct (MemoryManager_correct _ (H (2 ^ 32 - 1) 32 ltac:(split; lia))) as [_ (mm' & E & _ & HL)]. by exists mm'.
Defined.
