(* ===== verification/Vm.v ===== *)
(** * vm/{swapManager,vmManager}.{h,cc} and the paging part of
    userprog/addrspace.cc and exception.cc

    The swap file, the demand paging of VMManager, and the operations of
    AddrSpace that go through it, in the build of userprog/Makefile: with
    VM and FILESYS_STUB, so that an OpenFile is a UNIX file.  The state is
    explicit and belongs to the running thread; page tables are blocks of
    entries, and everything that keeps a [TranslationEntry *] keeps the
    block and the index. *)

From stdpp Require Import base list numbers gmap.
From S2P Require Import Prelude Arrays State Bitmap Machine Disk Lru.

Definition PageSize : Z := Machine.PageSize.
Definition SWAP_SIZE : Z := 512.

(** ** UNIX files (the stub of openfile.h) *)

(** [Lseek(file, position, 0); ReadPartial(file, into, numBytes)]: the bytes
    that are there. *)
Definition stub_ReadAt (numBytes position : Z) (file : list Z) : res (list Z) :=
  _ ← ASSERT (0 <=? position);
  Ok (slice position numBytes file).

Definition stub_WriteAt (from : list Z) (position : Z) (file : list Z) : res (list Z) :=
  file_write position from file.

(** ** The state *)

Record SwapManager := mkSwap {
  swapFile : list Z;
  swapMap : BitMap;
  PIDs : list Z;
  entries : list entry_ptr
}.

Record VM := mkVM {
  memory : list Z;                           (* machine->mainMemory *)
  tables : gmap Z (list TranslationEntry);   (* the page tables *)
  memManager : MemoryManager;
  swapMgr : SwapManager;
  policy : LRU;
  activePageMap : list Z;
  activePages : list entry_ptr;
  diskBuffer : list Z
}.

Definition set_memory (m : list Z) (w : VM) : VM :=
  mkVM m (tables w) (memManager w) (swapMgr w) (policy w) (activePageMap w) (activePages w) (diskBuffer w).
Definition set_tables (t : gmap Z (list TranslationEntry)) (w : VM) : VM :=
  mkVM (memory w) t (memManager w) (swapMgr w) (policy w) (activePageMap w) (activePages w) (diskBuffer w).
Definition set_memManager (m : MemoryManager) (w : VM) : VM :=
  mkVM (memory w) (tables w) m (swapMgr w) (policy w) (activePageMap w) (activePages w) (diskBuffer w).
Definition set_swapMgr (s : SwapManager) (w : VM) : VM :=
  mkVM (memory w) (tables w) (memManager w) s (policy w) (activePageMap w) (activePages w) (diskBuffer w).
Definition set_policy (l : LRU) (w : VM) : VM :=
  mkVM (memory w) (tables w) (memManager w) (swapMgr w) l (activePageMap w) (activePages w) (diskBuffer w).
Definition set_active (m : list Z) (p : list entry_ptr) (w : VM) : VM :=
  mkVM (memory w) (tables w) (memManager w) (swapMgr w) (policy w) m p (diskBuffer w).
Definition set_diskBuffer (b : list Z) (w : VM) : VM :=
  mkVM (memory w) (tables w) (memManager w) (swapMgr w) (policy w) (activePageMap w) (activePages w) b.

Definition set_swapFile (f : list Z) (s : SwapManager) : SwapManager := mkSwap f (swapMap s) (PIDs s) (entries s).
Definition set_swapMap (b : BitMap) (s : SwapManager) : SwapManager := mkSwap (swapFile s) b (PIDs s) (entries s).

Definition set_valid (b : bool) (e : TranslationEntry) : TranslationEntry :=
  mkTE (virtualPage e) (physicalPage e) b (readOnly e) (use e) (dirty e).
Definition set_dirty (b : bool) (e : TranslationEntry) : TranslationEntry :=
  mkTE (virtualPage e) (physicalPage e) (valid e) (readOnly e) (use e) b.
Definition set_use (b : bool) (e : TranslationEntry) : TranslationEntry :=
  mkTE (virtualPage e) (physicalPage e) (valid e) (readOnly e) b (dirty e).
Definition set_physicalPage (p : Z) (e : TranslationEntry) : TranslationEntry :=
  mkTE (virtualPage e) p (valid e) (readOnly e) (use e) (dirty e).

(** [*p] and [*p = f( *p )] for a pointer to an entry. *)
Definition load_entry (p : entry_ptr) (w : VM) : res TranslationEntry :=
  t ← deref (tables w !! fst p); aget t (snd p).
Definition store_entry (p : entry_ptr) (f : TranslationEntry -> TranslationEntry) (w : VM) : res VM :=
  t ← deref (tables w !! fst p);
  e ← aget t (snd p);
  t' ← aset t (snd p) (f e);
  Ok (set_tables (<[fst p := t']> (tables w)) w).

Definition get_entry (p : entry_ptr) : M VM TranslationEntry := fun w => e ← load_entry p w; Ok (e, w).
Definition upd_entry (p : entry_ptr) (f : TranslationEntry -> TranslationEntry) : M VM unit :=
  fun w => w' ← store_entry p f w; Ok (tt, w').

(** [machine->mainMemory + addr] as the target of a copy, and its source. *)
Definition write_memory (addr : Z) (bytes : list Z) : M VM unit :=
  m ← gets memory; m' ← lift (bwrite addr bytes m); modify (set_memory m').
Definition read_memory (addr n : Z) : M VM (list Z) :=
  m ← gets memory; lift (bread addr n m).

(** The managers the paging code calls. *)
Definition with_mem {A} (f : MemoryManager -> res (A * MemoryManager)) : M VM A :=
  zoom memManager set_memManager f.
Definition with_policy (f : LRU -> res LRU) : M VM unit :=
  zoom policy set_policy (fun l => l' ← f l; Ok (tt, l')).

Definition swap_ReadAt (numBytes position : Z) : M VM (list Z) :=
  s ← gets swapMgr; lift (stub_ReadAt numBytes position (swapFile s)).
Definition swap_WriteAt (from : list Z) (position : Z) : M VM unit :=
  s ← gets swapMgr; f ← lift (stub_WriteAt from position (swapFile s));
  modify (set_swapMgr (set_swapFile f s)).

(** ** SwapManager *)

(** [pids] and [ents] are the uninitialised arrays, [unix] is the file
    SWAP: Create truncates it (OpenForWrite). *)
Definition SwapManager_new (storage pids : list Z) (ents : list entry_ptr) : res SwapManager :=
  bm ← BitMap_new SWAP_SIZE storage;
  Ok (mkSwap [] bm pids ents).

(** [(PIDs[i] == pid) && swapMap->Test(i) && (entries[i]->virtualPage == vpn)]. *)
Definition in_slot (pid vpn i : Z) (w : VM) : res bool :=
  let s := swapMgr w in
  p ← aget (PIDs s) i;
  if p =? pid then
    t ← Test i (swapMap s);
    if (t : bool) then
      e ← aget (entries s) i; e ← load_entry e w; Ok (virtualPage e =? vpn)
    else Ok false
  else Ok false.

(** The same conjunction as writePage(pid, vpn, buffer) orders it. *)
Definition in_slot' (pid vpn i : Z) (w : VM) : res bool :=
  let s := swapMgr w in
  p ← aget (PIDs s) i;
  if p =? pid then
    e ← aget (entries s) i; e ← load_entry e w;
    if virtualPage e =? vpn then Test i (swapMap s) else Ok false
  else Ok false.

(** [for (int i = 0; i < SWAP_SIZE; i++) if (...) ...]. *)
Definition find_slot (test : Z -> VM -> res bool) : M VM (option Z) :=
  fun w =>
    r ← for_break (Z.to_nat SWAP_SIZE) 0
          (fun i (_ : unit) => b ← test i w; Ok (if b : bool then inr i else inl tt)) tt;
    Ok (match r with inl _ => None | inr i => Some i end, w).

(** The entry found and the bytes that were read into [buffer]. *)
Definition findPage (pid vpn : Z) : M VM (option (entry_ptr * list Z)) :=
  o ← find_slot (in_slot pid vpn);
  match o with
  | Some i =>
      bytes ← swap_ReadAt PageSize (PageSize * i);
      s ← gets swapMgr;
      e ← lift (aget (entries s) i);
      ret (Some (e, bytes))
  | None => ret None
  end.

(** Taking a free slot for the page: [Exit(1)] when there is none. *)
Definition take_slot (page : entry_ptr) (pid : Z) : M VM Z :=
  s ← gets swapMgr;
  r ← lift (Find (swapMap s));
  let '(free, bm) := r in
  _ ← modify (set_swapMgr (set_swapMap bm s));
  if free =? -1 then fail Exited
  else
    es ← lift (aset (entries s) free page);
    ps ← lift (aset (PIDs s) free pid);
    _ ← modify (set_swapMgr (mkSwap (swapFile s) bm ps es));
    ret free.

(** [addPage(page, pid, buffer, size)]; [None] when it ends without a
    return statement. *)
Definition addPage (page : entry_ptr) (pid : Z) (buffer : list Z) (size : Z) : M VM (option bool) :=
  e ← get_entry page;
  o ← find_slot (in_slot pid (virtualPage e));
  bytes ← lift (bread 0 size buffer);
  match o with
  | Some i => _ ← swap_WriteAt bytes (PageSize * i); ret (Some (size =? PageSize))
  | None =>
      free ← take_slot page pid;
      _ ← swap_WriteAt bytes (PageSize * free);
      ret (if size =? PageSize then None else Some false)
  end.

(** [addPage(page, pid, size)] only reserves a slot. *)
Definition addPage_reserve (page : entry_ptr) (pid : Z) : M VM (option bool) :=
  e ← get_entry page;
  o ← find_slot (in_slot pid (virtualPage e));
  match o with
  | Some i => ret (Some true)
  | None => _ ← take_slot page pid; ret None
  end.

(** [writePage(pid, vpn, buffer)]. *)
Definition writePage (pid vpn : Z) (buffer : list Z) : M VM unit :=
  o ← find_slot (in_slot' pid vpn);
  match o with
  | Some i => bytes ← lift (bread 0 PageSize buffer); swap_WriteAt bytes (PageSize * i)
  | None => fail AssertFailed
  end.

(** The slot numbered [i], if it is the process's: [entries[i] == NULL]
    compares. *)
Definition removePages (pid : Z) : M VM unit :=
  forM (Z.to_nat SWAP_SIZE) 0 (fun i =>
    s ← gets swapMgr;
    p ← lift (aget (PIDs s) i);
    if p =? pid then
      ps ← lift (aset (PIDs s) i (-1));
      t ← lift (Test i (swapMap s));
      bm ← (if t : bool then lift (Clear i (swapMap s)) else ret (swapMap s));
      modify (set_swapMgr (mkSwap (swapFile s) bm ps (entries s)))
    else ret tt).

(** ** Slots by number *)

Definition fill_diskBuffer (bytes : list Z) : M VM unit :=
  b ← gets diskBuffer; b ← lift (bwrite 0 bytes b); modify (set_diskBuffer b).

Definition bzero_diskBuffer : M VM unit := fill_diskBuffer (replicate (Z.to_nat PageSize) 0).

Definition write_diskBuffer (sPage : Z) : M VM unit :=
  b ← gets diskBuffer; bytes ← lift (bread 0 PageSize b); swap_WriteAt bytes (sPage * PageSize).

Definition allocPage : M VM Z :=
  s ← gets swapMgr;
  r ← lift (Find (swapMap s));
  let '(page, bm) := r in
  _ ← modify (set_swapMgr (set_swapMap bm s));
  _ ← assert (0 <=? page);
  _ ← bzero_diskBuffer;
  _ ← write_diskBuffer page;
  ret page.

Definition writePage_at (sPage : Z) (buffer : list Z) (size offset : Z) : M VM bool :=
  bytes ← lift (bread 0 size buffer);
  _ ← swap_WriteAt bytes (sPage * PageSize + offset);
  ret (negb (size =? 0)).

Definition swap_in (pPageNum sPageNum : Z) : M VM unit :=
  bytes ← swap_ReadAt PageSize (sPageNum * PageSize);
  _ ← fill_diskBuffer bytes;
  b ← gets diskBuffer;
  bytes ← lift (bread 0 PageSize b);
  write_memory (pPageNum * PageSize) bytes.

Definition copy_slot (fromPage toPage : Z) : M VM unit :=
  bytes ← swap_ReadAt PageSize (fromPage * PageSize);
  _ ← fill_diskBuffer bytes;
  write_diskBuffer toPage.

Definition clear_slot (sPage : Z) : M VM unit :=
  _ ← bzero_diskBuffer;
  _ ← write_diskBuffer sPage;
  s ← gets swapMgr;
  bm ← lift (Clear sPage (swapMap s));
  modify (set_swapMgr (set_swapMap bm s)).

Definition getFreePageCount : M VM Z := s ← gets swapMgr; lift (NumClear (swapMap s)).

(** ** VMManager *)

Section Manager.
(** What [new] and the stack find in members and variables left alone. *)
Context (garbage : Z).

Definition VM_AddPage (page : entry_ptr) (pid : Z) (buffer : list Z) (size : Z) : M VM (option bool) :=
  _ ← get_entry page; addPage page pid buffer size.
Definition VM_AddPage_reserve (page : entry_ptr) (pid : Z) : M VM (option bool) :=
  _ ← get_entry page; addPage_reserve page pid.

(** The bytes read into the caller's buffer, when the page was found. *)
Definition GetPage (page : entry_ptr) (pid : Z) : M VM (option (list Z)) :=
  e ← get_entry page;
  r ← findPage pid (virtualPage e);
  ret (snd <$> r).

(** [buffer] is the uninitialised local array. *)
Definition CopyPage (buffer : list Z) (page : entry_ptr) (oldPID newPID : Z) : M VM unit :=
  e ← get_entry page;
  r ← findPage oldPID (virtualPage e);
  buffer ← lift (bwrite 0 (default [] (snd <$> r)) buffer);
  _ ← addPage page newPID buffer PageSize;
  ret tt.

Definition RemovePages (pid : Z) : M VM unit :=
  _ ← (fun w =>
    r ← RemovePage (fun p => e ← load_entry p w; Ok (physicalPage e)) pid (policy w) (memManager w);
    Ok (tt, set_memManager (snd r) (set_policy (fst r) w)));
  removePages pid.

(** Reading the page into frame [f]: NULL is followed when it is not in
    the swap file. *)
Definition page_in (pid vpn f : Z) : M VM entry_ptr :=
  r ← findPage pid vpn;
  match r with
  | None => fail MemFault
  | Some (page, bytes) =>
      _ ← write_memory (f * PageSize) bytes;
      _ ← upd_entry page (set_physicalPage f);
      ret page
  end.

(** Taking the victim's frame, after writing it to the swap file for the
    process [pid] when it is dirty. *)
Definition evict (victim : entry_ptr) (pid : Z) : M VM TranslationEntry :=
  _ ← upd_entry victim (set_valid false);
  v ← get_entry victim;
  _ ← (if dirty v then
         buffer ← read_memory (physicalPage v * PageSize) PageSize;
         writePage pid (virtualPage v) buffer
       else ret tt);
  ret v.

Definition Swap (vpn pid : Z) : M VM unit :=
  available ← with_mem getAvailable;
  page ← (if negb (available =? 0) then
    phys_page ← with_mem getPage;
    page ← page_in pid vpn phys_page;
    _ ← with_policy (AddPage garbage page pid);
    ret page
  else
    l ← gets policy;
    _ ← lift (tail_pid l);
    victim ← lift (GetLRU l);
    v ← evict victim pid;
    let paddr := physicalPage v * PageSize in
    r ← findPage pid vpn;
    match r with
    | None => fail MemFault
    | Some (page, bytes) =>
        _ ← write_memory paddr bytes;
        v ← get_entry victim;
        _ ← upd_entry page (set_physicalPage (physicalPage v));
        _ ← with_policy (AddPage garbage page pid);
        _ ← with_policy Remove_LRU_Page;
        ret page
    end);
  _ ← upd_entry page (set_valid true);
  upd_entry page (set_dirty false).

(** [PageFaultHandler] of exception.cc; [pid] is that of the current
    thread's process. *)
Definition PageFaultHandler (pid vaddr : Z) : M VM unit := Swap (Z.quot vaddr PageSize) pid.

(** The operations by slot number.  [swap] uses [pPage] uninitialised. *)
Definition VM_swap (newPage : entry_ptr) : M VM Z :=
  e ← get_entry newPage;
  let sPage := physicalPage e in
  let pPage := garbage in
  _ ← swap_in pPage sPage;
  w ← gets (fun w => (activePageMap w, activePages w));
  m ← lift (aset (fst w) pPage sPage);
  ps ← lift (aset (snd w) pPage newPage);
  _ ← modify (set_active m ps);
  ret pPage.

Definition getPhysicalPage (page : entry_ptr) : M VM Z :=
  e ← get_entry page;
  let sPage := physicalPage e in
  m ← gets activePageMap;
  r ← lift (for_break (Z.to_nat NumPhysPages) 0
        (fun i (_ : unit) => a ← aget m i; Ok (if a =? sPage then inr i else inl tt)) tt);
  match r with
  | inr i => ret i
  | inl _ => VM_swap page
  end.

Definition VM_clearPage (sPage : Z) : M VM unit :=
  m ← gets activePageMap;
  r ← lift (for_break (Z.to_nat NumPhysPages) 0
        (fun i (_ : unit) => a ← aget m i; Ok (if a =? sPage then inr i else inl tt)) tt);
  pPage ← (match r with
           | inr i =>
               ps ← gets activePages;
               m ← lift (aset m i (-1));
               ps ← lift (aset ps i (0, 0));
               _ ← modify (set_active m ps);
               ret i
           | inl _ => ret NumPhysPages
           end);
  _ ← with_mem (fun mm => mm' ← clearPage pPage mm; Ok (tt, mm'));
  clear_slot sPage.

(** The constructor; [pages] is the uninitialised array [activePages]. *)
Definition VMManager_new (storage pids : list Z) (ents : list entry_ptr) (w : VM) : res VM :=
  s ← SwapManager_new storage pids ents;
  Ok (set_active (replicate (Z.to_nat NumPhysPages) (-1)) (replicate (Z.to_nat NumPhysPages) (0, 0))
       (set_policy LRU_new (set_swapMgr s w))).

(** ** AddrSpace *)

Record AddrSpace := mkAS {
  as_table : Z;       (* pageTable *)
  as_numPages : Z;    (* unsigned *)
  as_pid : Z          (* pcb->pid *)
}.

(** [AddrSpace::Translate]: the physical address, if it returns true. *)
Definition Translate (s : AddrSpace) (vAddr : Z) (writing : bool) : M VM (option Z) :=
  if vAddr <? 0 then ret None
  else
    let vpn := Z.quot vAddr PageSize in
    if as_numPages s <? vpn then ret None
    else
      e ← get_entry (as_table s, vpn);
      _ ← (if negb (valid e) then PageFaultHandler (as_pid s) vAddr else ret tt);
      e ← get_entry (as_table s, vpn);
      let physAddr := s32 (physicalPage e * PageSize + Z.rem vAddr PageSize) in
      _ ← (if writing then upd_entry (as_table s, vpn) (set_dirty true) else ret tt);
      _ ← upd_entry (as_table s, vpn) (set_use true);
      ret (Some physAddr).

Definition CleanupSysCall (s : AddrSpace) : M VM unit :=
  forM (Z.to_nat (as_numPages s)) 0 (fun i => upd_entry (as_table s, i) (set_use false)).

(** The destructor. *)
Definition AddrSpace_delete (s : AddrSpace) : M VM unit :=
  _ ← forM (Z.to_nat (as_numPages s)) 0 (fun i =>
    e ← get_entry (as_table s, i);
    if valid e then with_mem (fun mm => mm' ← clearPage (physicalPage e) mm; Ok (tt, mm')) else ret tt);
  modify (fun w => set_tables (delete (as_table s) (tables w)) w).
End Manager.
