(* ===== verification/VmSafe.v ===== *)
(** * Demand paging is correct

    The invariant of the paging data, what the memory of the processes
    contains, and the proof that a page fault changes neither. *)

From stdpp Require Import base list numbers gmap.
From S2P Require Import Prelude Arrays State Bitmap Machine Disk Lru Vm.

(** ** Slots of the swap file *)

(** Slot [i] is in use for the entry [p] of process [pid], now [te]. *)
Definition slot (w : VM) (i : Z) (p : entry_ptr) (pid : Z) (te : TranslationEntry) : Prop :=
  0 <= i < SWAP_SIZE /\ bitat (swapMap (swapMgr w)) i = true /\ aget (PIDs (swapMgr w)) i = Ok pid /\
  aget (entries (swapMgr w)) i = Ok p /\ load_entry p w = Ok te.

Section Slot.
Context {w : VM} {i : Z} {p : entry_ptr} {pid : Z} {te : TranslationEntry} (H : slot w i p pid te).

Lemma slot_range : 0 <= i < SWAP_SIZE.
Proof. apply H. Qed.
Lemma slot_bit : bitat (swapMap (swapMgr w)) i = true.
Proof. apply H. Qed.
Lemma slot_pid : aget (PIDs (swapMgr w)) i = Ok pid.
Proof. apply H. Qed.
Lemma slot_entry : aget (entries (swapMgr w)) i = Ok p.
Proof. apply H. Qed.
Lemma slot_te : load_entry p w = Ok te.
Proof. apply H. Qed.
End Slot.

Definition frame (w : VM) (f : Z) : list Z := slice (f * PageSize) PageSize (memory w).
Definition on_disk (w : VM) (i : Z) : list Z := slice (PageSize * i) PageSize (swapFile (swapMgr w)).

(** The page of slot [i] begins with [bytes]: its frame does when it is in
    memory, and the slot does unless the frame is newer.  A slot that was
    only reserved may lie beyond the end of the swap file; what such a page
    contains is not defined until it is written. *)
Definition holds (w : VM) (i : Z) (te : TranslationEntry) (bytes : list Z) : Prop :=
  (valid te = true -> bytes `prefix_of` frame w (physicalPage te)) /\
  (valid te && dirty te = false -> bytes `prefix_of` on_disk w i).

(** The page [vpn] of process [pid] begins with [bytes]. *)
Definition page_of (w : VM) (pid vpn : Z) (bytes : list Z) : Prop :=
  exists i p te, slot w i p pid te /\ virtualPage te = vpn /\ holds w i te bytes.

(** The invariant, without the queue: [xs] are the resident pages and
    their owners, [hole] is a frame that is taken but holds no page. *)
Record paged (w : VM) (xs : list (entry_ptr * Z)) (hole : option Z) : Prop := {
  pg_memory : zlen (memory w) = MemorySize;
  pg_bytes : Forall in_u8 (memory w);
  pg_file : Forall in_u8 (swapFile (swapMgr w));
  pg_frames : Bitmap.wf (pages (memManager w));
  pg_nframes : numBits (pages (memManager w)) = NUM_OF_PHYSICAL_PAGES;
  pg_map : Bitmap.wf (swapMap (swapMgr w));
  pg_nslots : numBits (swapMap (swapMgr w)) = SWAP_SIZE;
  pg_pids : zlen (PIDs (swapMgr w)) = SWAP_SIZE;
  pg_entries : zlen (entries (swapMgr w)) = SWAP_SIZE;
  pg_used : forall i, 0 <= i < SWAP_SIZE -> bitat (swapMap (swapMgr w)) i = true ->
    exists p pid te, slot w i p pid te;
  pg_free : forall i pid, bitat (swapMap (swapMgr w)) i = false -> aget (PIDs (swapMgr w)) i = Ok pid -> pid < 0;
  pg_key : forall i j p q pid t u, slot w i p pid t -> slot w j q pid u -> virtualPage t = virtualPage u -> i = j;
  pg_owner : forall i j p o o' t u, slot w i p o t -> slot w j p o' u -> i = j;
  pg_valid : forall i p pid te, slot w i p pid te -> valid te = true ->
    (p, pid) ∈ xs /\ 0 <= physicalPage te < NUM_OF_PHYSICAL_PAGES /\ bitat (pages (memManager w)) (physicalPage te) = true /\
    hole <> Some (physicalPage te);
  pg_resident : forall p pid, (p, pid) ∈ xs -> exists i te, slot w i p pid te /\ valid te = true;
  pg_nodup : NoDup xs.*1;
  pg_alone : forall i j p q o o' t u, slot w i p o t -> slot w j q o' u -> valid t = true -> valid u = true ->
    physicalPage t = physicalPage u -> i = j;
  pg_taken : forall f, 0 <= f < NUM_OF_PHYSICAL_PAGES -> bitat (pages (memManager w)) f = true ->
    hole = Some f \/ exists i p pid te, slot w i p pid te /\ valid te = true /\ physicalPage te = f;
  pg_hole : forall f, hole = Some f -> 0 <= f < NUM_OF_PHYSICAL_PAGES /\ bitat (pages (memManager w)) f = true
}.

Definition vm_ok (w : VM) (xs : list (entry_ptr * Z)) : Prop :=
  paged w xs None /\ exists ps, queue (policy w) ps xs.

(** ** Entries *)

Lemma load_entry_store p q g w w' : store_entry p g w = Ok w' ->
  load_entry q w' = if decide (q = p) then e ← load_entry p w; Ok (g e) else load_entry q w.
Proof.
  destruct p as [b i], q as [c j]. unfold store_entry, load_entry. cbn [fst snd].
  destruct (tables w !! b) as [t|] eqn:Et; [|done]. cbn [deref mbind res_bind].
  destruct (aget t i) as [e|] eqn:Ee; [|done]. cbn [mbind res_bind]. pose proof (aget_Ok_inv _ _ _ Ee) as [Hr _].
  rewrite aset_in_range by done. intros [= <-]. cbn [tables set_tables].
  case_decide as Hne.
  - injection Hne as -> ->. rewrite lookup_insert_eq. cbn [deref mbind res_bind]. by apply aget_insert_eq.
  - destruct (decide (c = b)) as [->|Hc]; [|by rewrite lookup_insert_ne].
    rewrite lookup_insert_eq, Et. cbn [deref mbind res_bind]. apply aget_insert_ne; [lia|]. intros ->. done.
Qed.

Lemma store_entry_ok p g w te : load_entry p w = Ok te ->
  exists t, store_entry p g w = Ok (set_tables t w).
Proof.
  unfold load_entry, store_entry. intros H. destruct (tables w !! fst p) as [t|]; [|done]. cbn [deref mbind res_bind] in *.
  rewrite H. cbn [mbind res_bind]. apply aget_Ok_inv in H as [H _]. rewrite aset_in_range by done. cbn. by eexists.
Qed.

Lemma run_upd_entry p g w te (Q : unit -> VM -> Prop) : load_entry p w = Ok te ->
  (forall t, load_entry p (set_tables t w) = Ok (g te) ->
    (forall q, q <> p -> load_entry q (set_tables t w) = load_entry q w) -> Q tt (set_tables t w)) ->
  run_to (upd_entry p g) w Q.
Proof.
  intros H HQ. destruct (store_entry_ok p g w te H) as (t & E). exists tt, (set_tables t w).
  unfold upd_entry. rewrite E. split; [done|]. apply HQ.
  - rewrite (load_entry_store _ _ _ _ _ E), decide_True, H by done. done.
  - intros q Hq. by rewrite (load_entry_store _ _ _ _ _ E), decide_False by done.
Qed.

Lemma run_get_entry p w te (Q : TranslationEntry -> VM -> Prop) : load_entry p w = Ok te -> Q te w -> run_to (get_entry p) w Q.
Proof. intros H HQ. exists te, w. unfold get_entry. by rewrite H. Qed.

(** ** The search for a slot *)

Lemma for_break_first {R} n (body : Z -> unit -> res (unit + R)) i k (r : R) :
  i <= k < i + Z.of_nat n -> (forall j, i <= j < k -> body j tt = Ok (inl tt)) -> body k tt = Ok (inr r) ->
  for_break n i body tt = Ok (inr r).
Proof.
  revert i. induction n as [|n IH]; intros i Hk Hj Hb; [lia|]. cbn [for_break].
  destruct (decide (k = i)) as [->|Hne]; [by rewrite Hb|]. rewrite Hj by lia. cbn [mbind res_bind]. apply IH; [lia| |done].
  intros j ?. apply Hj. lia.
Qed.

Section Search.
Context (w : VM) (xs : list (entry_ptr * Z)) (hole : option Z).
Hypothesis Hpg : paged w xs hole.

(** A slot other than that of the page fails the test. *)
Lemma in_slot_other pid i p te j : 0 <= pid -> slot w i p pid te -> 0 <= j < SWAP_SIZE -> j <> i ->
  in_slot pid (virtualPage te) j w = Ok false /\ in_slot' pid (virtualPage te) j w = Ok false.
Proof.
  intros Hp Hs Hj Hne. destruct (aget_in_range (PIDs (swapMgr w)) j) as [o Ho]; [by rewrite (pg_pids _ _ _ Hpg)|].
  unfold in_slot, in_slot'. rewrite Ho. cbn [mbind res_bind]. destruct (Z.eqb_spec o pid) as [->|]; [|done].
  destruct (bitat (swapMap (swapMgr w)) j) eqn:Eb.
  - destruct (pg_used _ _ _ Hpg j Hj Eb) as (q & o' & u & Hu).
    pose proof (slot_pid Hu) as Ho'. rewrite Ho in Ho'. injection Ho' as <-.
    rewrite Test_bit, Eb by (apply Hpg || by rewrite (pg_nslots _ _ _ Hpg)). cbn [mbind res_bind].
    rewrite (slot_entry Hu). cbn [mbind res_bind]. rewrite (slot_te Hu). cbn [mbind res_bind].
    destruct (Z.eqb_spec (virtualPage u) (virtualPage te)) as [E|]; [|done].
    by rewrite (pg_key _ _ _ Hpg _ _ _ _ _ _ _ Hu Hs E) in Hne.
  - pose proof (pg_free _ _ _ Hpg j pid Eb Ho). lia.
Qed.

Lemma in_slot_this pid i p te : slot w i p pid te ->
  in_slot pid (virtualPage te) i w = Ok true /\ in_slot' pid (virtualPage te) i w = Ok true.
Proof.
  intros Hs. unfold in_slot, in_slot'. rewrite (slot_pid Hs). cbn [mbind res_bind]. rewrite Z.eqb_refl.
  rewrite Test_bit, (slot_bit Hs) by (apply Hpg || (rewrite (pg_nslots _ _ _ Hpg); apply Hs)). cbn [mbind res_bind].
  rewrite (slot_entry Hs). cbn [mbind res_bind]. rewrite (slot_te Hs). cbn [mbind res_bind].
  by rewrite Z.eqb_refl.
Qed.

Lemma find_slot_ok pid i p te test : 0 <= pid -> slot w i p pid te ->
  (test = in_slot pid (virtualPage te) \/ test = in_slot' pid (virtualPage te)) ->
  find_slot test w = Ok (Some i, w).
Proof.
  intros Hp Hs Ht. unfold find_slot. erewrite for_break_first; [done| | |].
  - pose proof (slot_range Hs) as H. rewrite Z2Nat.id by (unfold SWAP_SIZE; lia). rewrite Z.add_0_l. exact H.
  - intros j Hj. cbn beta. destruct (in_slot_other pid i p te j Hp Hs) as [H1 H2].
    { pose proof (slot_range Hs). lia. } { lia. }
    destruct Ht as [->| ->]; [by rewrite H1|by rewrite H2].
  - cbn beta. destruct (in_slot_this _ _ _ _ Hs) as [H1 H2]. destruct Ht as [->| ->]; [by rewrite H1|by rewrite H2].
Qed.

Lemma run_findPage pid i p te (Q : option (entry_ptr * list Z) -> VM -> Prop) :
  0 <= pid -> slot w i p pid te -> Q (Some (p, on_disk w i)) w -> run_to (findPage pid (virtualPage te)) w Q.
Proof.
  intros Hp Hs HQ. unfold findPage. apply run_to_bind. eexists _, w. split; [eapply find_slot_ok; eauto|].
  unfold swap_ReadAt. apply run_to_bind. pose proof (slot_range Hs). step. step.
  { unfold stub_ReadAt. rewrite ASSERT_true by (change PageSize with 128; lia). reflexivity. }
  step. step; [apply Hs|]. cbn beta. step. exact HQ.
Qed.
End Search.

(** ** Changing one entry *)

(** [w'] differs from [w] in the entry [p], which is now [te'], and
    perhaps in memory and in the contents of the swap file. *)
Record entry_changed (w w' : VM) (p : entry_ptr) (te' : TranslationEntry) : Prop := {
  ec_map : swapMap (swapMgr w') = swapMap (swapMgr w);
  ec_pids : PIDs (swapMgr w') = PIDs (swapMgr w);
  ec_entries : entries (swapMgr w') = entries (swapMgr w);
  ec_this : load_entry p w' = Ok te';
  ec_other : forall q, q <> p -> load_entry q w' = load_entry q w
}.

(** Every process sees the same pages. *)
Definition same_pages (w w' : VM) : Prop := forall j q o,
  (forall t, slot w j q o t -> exists t', slot w' j q o t' /\ (virtualPage t' = virtualPage t /\ readOnly t' = readOnly t) /\
     forall bytes, holds w j t bytes -> holds w' j t' bytes) /\
  (forall t', slot w' j q o t' -> exists t, slot w j q o t).

Lemma same_pages_trans w1 w2 w3 : same_pages w1 w2 -> same_pages w2 w3 -> same_pages w1 w3.
Proof.
  intros H1 H2 j q o. destruct (H1 j q o) as [F1 B1], (H2 j q o) as [F2 B2]. split.
  - intros t Ht. destruct (F1 t Ht) as (t2 & Ht2 & E2 & C2). destruct (F2 t2 Ht2) as (t3 & Ht3 & E3 & C3).
    exists t3. split; [done|]. split; [intuition congruence|auto].
  - intros t Ht. destruct (B2 t Ht) as (t2 & Ht2). eauto.
Qed.

Lemma slot_fun w i p q o o' t u : slot w i p o t -> slot w i q o' u -> p = q /\ o = o' /\ t = u.
Proof.
  intros (_ & _ & P1 & E1 & T1) (_ & _ & P2 & E2 & T2). rewrite P1 in P2. injection P2 as ->. rewrite E1 in E2. injection E2 as ->.
  rewrite T1 in T2. by injection T2 as ->.
Qed.

Lemma same_pages_page_of w w' pid vpn bytes : same_pages w w' -> page_of w pid vpn bytes -> page_of w' pid vpn bytes.
Proof.
  intros H (i & p & t & Hs & <- & Hb). destruct (proj1 (H i p pid) t Hs) as (t' & Hs' & [E _] & C).
  exists i, p, t'. auto.
Qed.

Section Changed.
Context (w w' : VM) (p : entry_ptr) (te te' : TranslationEntry) (i o : Z).
Hypothesis Hec : entry_changed w w' p te'.
Hypothesis Hp : slot w i p o te.

Lemma changed_this : slot w' i p o te'.
Proof. destruct Hp as (R & B & P & E & T), Hec as [M1 P1 E1 T1 _]. unfold slot. by rewrite M1, P1, E1. Qed.

Lemma changed_other j q u t : q <> p -> slot w j q u t <-> slot w' j q u t.
Proof.
  intros Hne. pose proof (ec_other _ _ _ _ Hec q Hne) as Ho. destruct Hec as [M1 P1 E1 _ _].
  unfold slot. by rewrite M1, P1, E1, Ho.
Qed.

(** A slot of the new state is that of [p] or an old one. *)
Lemma changed_inv j q u t : (forall k u1 t1, slot w k p u1 t1 -> k = i) -> slot w' j q u t ->
  (j = i /\ q = p /\ u = o /\ t = te') \/ (q <> p /\ slot w j q u t).
Proof.
  intros Hown Hs. destruct (decide (q = p)) as [->|Hne]; [left|right; split; [done|by apply changed_other]].
  assert (Hj : slot w j p u te).
  { destruct Hs as (R & B & P & E & _), Hec as [M1 P1 E1 _ _]. unfold slot. rewrite <-M1, <-P1, <-E1. do 4 (split; [done|]). apply Hp. }
  pose proof (Hown _ _ _ Hj) as ->. split; [done|].
  destruct (slot_fun _ _ _ _ _ _ _ _ Hs changed_this) as (_ & -> & ->). done.
Qed.
End Changed.

(** ** Eviction *)

Lemma evict_ok w w' xs p o i te :
  paged w (xs ++ [(p, o)]) None -> slot w i p o te -> valid te = true ->
  entry_changed w w' p (set_valid false te) -> memory w' = memory w -> memManager w' = memManager w ->
  Forall in_u8 (swapFile (swapMgr w')) ->
  (forall bytes, holds w i te bytes -> bytes `prefix_of` on_disk w' i) ->
  (forall j, 0 <= j < SWAP_SIZE -> j <> i -> on_disk w j `prefix_of` on_disk w' j) ->
  paged w' xs (Some (physicalPage te)) /\ same_pages w w'.
Proof.
  intros Hpg Hs Hv Hec Hmem Hmm Hby Hd Hdo.
  assert (Hown : forall k u1 t1, slot w k p u1 t1 -> k = i) by (intros; by eapply (pg_owner _ _ _ Hpg)).
  pose proof (changed_this _ _ _ _ _ _ _ Hec Hs) as Ht. pose proof (fun j q u t => changed_other _ _ _ _ Hec j q u t) as Ho.
  pose proof (fun j q u t => changed_inv _ _ _ _ _ _ _ Hec Hs j q u t Hown) as Hi.
  assert (Hf : forall g, frame w' g = frame w g) by (intros; unfold frame; by rewrite Hmem).
  destruct (pg_valid _ _ _ Hpg _ _ _ _ Hs Hv) as (_ & Hfr & Hbit & _).
  destruct (proj1 (NoDup_app _ _) (eq_ind _ NoDup (pg_nodup _ _ _ Hpg) _ (fmap_app _ _ _))) as (Hnd & Hdis & _).
  assert (Hne : forall q u, (q, u) ∈ xs -> q <> p).
  { intros q u Hin ->. eapply Hdis; [apply list_elem_of_fmap; by exists (p, u)|left]. }
  split; [|intros j q u; split].
  - split; rewrite ?Hmem, ?Hmm, ?(ec_map _ _ _ _ Hec), ?(ec_pids _ _ _ _ Hec), ?(ec_entries _ _ _ _ Hec); try done; try apply Hpg.
    + intros j Hj Hb. destruct (pg_used _ _ _ Hpg j Hj Hb) as (q & u & t & Hq).
      destruct (decide (q = p)) as [->|Hn].
      * pose proof (Hown _ _ _ Hq) as ->. by exists p, o, (set_valid false te).
      * exists q, u, t. by apply Ho.
    + intros j k q1 q2 u t1 t2 [(-> & -> & -> & ->)|(Hn1 & H1)]%Hi [(-> & -> & Hu & ->)|(Hn2 & H2)]%Hi; try done; cbn [virtualPage set_valid]; intros E.
      * by apply (pg_key _ _ _ Hpg _ _ _ _ _ _ _ Hs H2).
      * subst u. by apply (pg_key _ _ _ Hpg _ _ _ _ _ _ _ H1 Hs).
      * by apply (pg_key _ _ _ Hpg _ _ _ _ _ _ _ H1 H2).
    + intros j k q u1 u2 t1 t2 [(-> & -> & -> & ->)|(Hn1 & H1)]%Hi [(-> & Hq & Hu & ->)|(Hn2 & H2)]%Hi; try done.
      by apply (pg_owner _ _ _ Hpg _ _ _ _ _ _ _ H1 H2).
    + intros j q u t [(-> & -> & -> & ->)|(Hn & H)]%Hi; [done|]. intros Hvt.
      destruct (pg_valid _ _ _ Hpg _ _ _ _ H Hvt) as (Hin & Hr & Hb & _). apply elem_of_app in Hin as [Hin|[= -> ->]%list_elem_of_singleton]; [|done].
      split; [done|]. split; [done|]. split; [done|]. intros [= E].
      pose proof (pg_alone _ _ _ Hpg _ _ _ _ _ _ _ _ Hs H Hv Hvt E) as <-. by destruct (slot_fun _ _ _ _ _ _ _ _ Hs H) as [-> _].
    + intros q u Hin. destruct (pg_resident _ _ _ Hpg q u) as (j & t & H & Hvt); [apply elem_of_app; by left|].
      exists j, t. split; [apply Ho; [by eapply Hne|done]|done].
    + intros j k q1 q2 u1 u2 t1 t2 [(-> & -> & -> & ->)|(Hn1 & H1)]%Hi [(-> & -> & Hu & ->)|(Hn2 & H2)]%Hi; try done.
      by apply (pg_alone _ _ _ Hpg _ _ _ _ _ _ _ _ H1 H2).
    + intros f Hr Hb. destruct (pg_taken _ _ _ Hpg f Hr Hb) as [?|(j & q & u & t & H & Hvt & Hpp)]; [done|].
      destruct (decide (q = p)) as [->|Hn].
      * left. pose proof (Hown _ _ _ H) as ->. destruct (slot_fun _ _ _ _ _ _ _ _ Hs H) as (_ & _ & ->). by rewrite Hpp.
      * right. exists j, q, u, t. split; [by apply Ho|done].
    + by intros f [= <-].
  - intros t H. destruct (decide (q = p)) as [->|Hn].
    + pose proof (Hown _ _ _ H) as ->. destruct (slot_fun _ _ _ _ _ _ _ _ Hs H) as (_ & <- & <-).
      eexists. split; [exact Ht|]. split; [done|]. intros bytes Hb. split; [done|]. intros _. by apply Hd.
    + exists t. split; [by apply Ho|]. split; [done|]. intros bytes [H1 H2]. split; [rewrite Hf; exact H1|].
      intros Hvd. etrans; [by apply H2|]. apply Hdo; [apply H|].
      intros ->. by destruct (slot_fun _ _ _ _ _ _ _ _ Hs H) as [-> _].
  - intros t [(-> & -> & -> & ->)|(Hn & H)]%Hi; eauto.
Qed.

(** ** Loading a page into a free frame *)

Definition loaded (f : Z) (te : TranslationEntry) : TranslationEntry :=
  set_dirty false (set_valid true (set_physicalPage f te)).

Lemma zlen_on_disk w i : zlen (on_disk w i) <= PageSize.
Proof. unfold on_disk, slice, zlen. rewrite length_take. change PageSize with 128. lia. Qed.

Lemma load_ok w w' xs p o i te f :
  paged w xs (Some f) -> slot w i p o te -> valid te = false ->
  entry_changed w w' p (loaded f te) -> memManager w' = memManager w ->
  swapFile (swapMgr w') = swapFile (swapMgr w) -> memory w' = splice (f * PageSize) (on_disk w i) (memory w) ->
  paged w' ((p, o) :: xs) None /\ same_pages w w'.
Proof.
  intros Hpg Hs Hv Hec Hmm Hsf Hmem.
  assert (Hown : forall k u1 t1, slot w k p u1 t1 -> k = i) by (intros; by eapply (pg_owner _ _ _ Hpg)).
  pose proof (changed_this _ _ _ _ _ _ _ Hec Hs) as Ht. pose proof (fun j q u t => changed_other _ _ _ _ Hec j q u t) as Ho.
  pose proof (fun j q u t => changed_inv _ _ _ _ _ _ _ Hec Hs j q u t Hown) as Hi.
  destruct (pg_hole _ _ _ Hpg f eq_refl) as [Hfr Hfb]. pose proof (zlen_on_disk w i) as Hl.
  pose proof (pg_memory _ _ _ Hpg) as Hm. change MemorySize with 8192 in Hm. unfold NUM_OF_PHYSICAL_PAGES in *.
  assert (Hd : forall j, on_disk w' j = on_disk w j) by (intros; unfold on_disk; by rewrite Hsf).
  assert (Hf1 : on_disk w i `prefix_of` frame w' f).
  { unfold frame. rewrite Hmem. change PageSize with 128 in *. apply slice_splice_prefix; lia. }
  assert (Hf2 : forall g, 0 <= g < 32 -> g <> f -> frame w' g = frame w g).
  { intros g Hg Hgf. unfold frame. rewrite Hmem. change PageSize with 128 in *. apply slice_splice_ne; lia. }
  assert (Hkeep : forall j q u t, slot w j q u t -> valid t = true -> frame w' (physicalPage t) = frame w (physicalPage t)).
  { intros j q u t H Hvt. destruct (pg_valid _ _ _ Hpg _ _ _ _ H Hvt) as (_ & Hr & _ & Hh). apply Hf2; [done|congruence]. }
  assert (Hni : forall j q u t, slot w j q u t -> q <> p -> valid t = true -> physicalPage t <> f).
  { intros j q u t H _ Hvt. destruct (pg_valid _ _ _ Hpg _ _ _ _ H Hvt) as (_ & _ & _ & Hh). congruence. }
  split; [|intros j q u; split].
  - split; rewrite ?Hmm, ?(ec_map _ _ _ _ Hec), ?(ec_pids _ _ _ _ Hec), ?(ec_entries _ _ _ _ Hec), ?Hsf; try apply Hpg.
    + rewrite Hmem, zlen_splice; [by apply Hpg|change PageSize with 128; lia|]. rewrite Hm. change PageSize with 128 in *. lia.
    + rewrite Hmem. apply Forall_splice; [apply Forall_slice|]; apply Hpg.
    + intros j Hj Hb. destruct (pg_used _ _ _ Hpg j Hj Hb) as (q & u & t & Hq).
      destruct (decide (q = p)) as [->|Hn].
      * pose proof (Hown _ _ _ Hq) as ->. by exists p, o, (loaded f te).
      * exists q, u, t. by apply Ho.
    + intros j k q1 q2 u t1 t2 [(-> & -> & -> & ->)|(Hn1 & H1)]%Hi [(-> & -> & Hu & ->)|(Hn2 & H2)]%Hi; try done; cbn [virtualPage loaded set_dirty set_valid set_physicalPage]; intros E.
      * by apply (pg_key _ _ _ Hpg _ _ _ _ _ _ _ Hs H2).
      * subst u. by apply (pg_key _ _ _ Hpg _ _ _ _ _ _ _ H1 Hs).
      * by apply (pg_key _ _ _ Hpg _ _ _ _ _ _ _ H1 H2).
    + intros j k q u1 u2 t1 t2 [(-> & -> & -> & ->)|(Hn1 & H1)]%Hi [(-> & Hq & Hu & ->)|(Hn2 & H2)]%Hi; try done.
      by apply (pg_owner _ _ _ Hpg _ _ _ _ _ _ _ H1 H2).
    + intros j q u t [(-> & -> & -> & ->)|(Hn & H)]%Hi; intros Hvt.
      * split; [by left|]. cbn. by rewrite Hfb.
      * destruct (pg_valid _ _ _ Hpg _ _ _ _ H Hvt) as (Hin & Hr & Hb & _). split; [by right|]. done.
    + intros q u [[= -> ->]|Hin]%elem_of_cons; [by eexists _, _|].
      destruct (pg_resident _ _ _ Hpg q u Hin) as (j & t & H & Hvt). exists j, t. split; [|done]. apply Ho; [|done].
      intros ->. pose proof (Hown _ _ _ H) as ->. destruct (slot_fun _ _ _ _ _ _ _ _ Hs H) as (_ & _ & ->). congruence.
    + rewrite fmap_cons. apply list.NoDup_cons. split; [|apply Hpg]. intros ([q u] & E & Hin)%list_elem_of_fmap. cbn in E. subst q.
      destruct (pg_resident _ _ _ Hpg p u Hin) as (j & t & H & Hvt). pose proof (Hown _ _ _ H) as ->.
      destruct (slot_fun _ _ _ _ _ _ _ _ Hs H) as (_ & _ & ->). congruence.
    + intros j k q1 q2 u1 u2 t1 t2 [(-> & -> & -> & ->)|(Hn1 & H1)]%Hi [(-> & -> & Hu & ->)|(Hn2 & H2)]%Hi; try done; intros V1 V2 E.
      * by destruct (Hni _ _ _ _ H2 Hn2 V2).
      * by destruct (Hni _ _ _ _ H1 Hn1 V1).
      * by apply (pg_alone _ _ _ Hpg _ _ _ _ _ _ _ _ H1 H2).
    + intros g Hr Hb. right. destruct (pg_taken _ _ _ Hpg g Hr Hb) as [[= <-]|(j & q & u & t & H & Hvt & Hpp)].
      * by eexists _, _, _, _.
      * exists j, q, u, t. split; [|done]. apply Ho; [|done]. intros ->. pose proof (Hown _ _ _ H) as ->.
        destruct (slot_fun _ _ _ _ _ _ _ _ Hs H) as (_ & _ & ->). congruence.
    + done.
  - intros t H. destruct (decide (q = p)) as [->|Hn].
    + pose proof (Hown _ _ _ H) as ->. destruct (slot_fun _ _ _ _ _ _ _ _ Hs H) as (_ & <- & <-).
      eexists. split; [exact Ht|]. split; [done|]. intros bytes [_ Hb]. rewrite Hv in Hb. specialize (Hb eq_refl).
      split; [intros _; cbn; by etrans|]. intros _. by rewrite Hd.
    + exists t. split; [by apply Ho|]. split; [done|]. intros bytes [H1 H2]. split; [|by rewrite Hd].
      intros Hvt. rewrite (Hkeep _ _ _ _ H Hvt). by apply H1.
  - intros t [(-> & -> & -> & ->)|(Hn & H)]%Hi; eauto.
Qed.

(** ** Frames and queue *)

Lemma paged_set_policy l w xs hole : paged w xs hole -> paged (set_policy l w) xs hole.
Proof. intros []. by split. Qed.

Lemma paged_same_frames mm w xs hole : paged w xs hole -> pages mm = pages (memManager w) ->
  paged (set_memManager mm w) xs hole.
Proof.
  intros [] E. by split; cbn [memManager set_memManager]; rewrite ?E.
Qed.

(** getPage takes a frame, which is a hole until a page is in it. *)
Lemma getPage_hole w xs f rest : paged w xs None -> clear_bits (pages (memManager w)) = f :: rest ->
  exists mm', getPage (memManager w) = Ok (f, mm') /\ paged (set_memManager mm' w) xs (Some f).
Proof.
  intros Hpg E. pose proof (pg_frames _ _ _ Hpg) as Hwf. pose proof (pg_nframes _ _ _ Hpg) as Hn.
  assert (Hf : f ∈ clear_bits (pages (memManager w))) by (rewrite E; left). apply elem_of_clear_bits in Hf as [Hfr Hfb].
  destruct (Find_spec _ Hwf) as (r & bm & EF & Hwf' & Hs). unfold getPage. rewrite EF. cbn [mbind res_bind].
  destruct Hs as [(-> & -> & Hall)|(Hr & Hc & Hlow & Hnb & Hb)]; [rewrite Hall in Hfb; [done|lia]|].
  assert (Hrf : r = f).
  { pose proof (find_spec_clear_bits _ r bm (or_intror (conj Hr (conj Hc (conj Hlow (conj Hnb Hb))))) ltac:(lia)) as E'.
    rewrite E in E'. by injection E' as ->. }
  subst r. rewrite (proj2 (Z.eqb_neq f (-1))) by lia. eexists. split; [reflexivity|].
  destruct Hpg. split; cbn [memManager set_memManager pages]; try done.
  - congruence.
  - intros i p o t Hs Hv. destruct (pg_valid0 i p o t Hs Hv) as (Hin & Hpr & Hpb & _). split; [done|]. split; [done|].
    rewrite Hb by lia. destruct (Z.eqb_spec (physicalPage t) f) as [Ef|Ef]; [congruence|]. split; [done|]. congruence.
  - intros g Hg. rewrite Hb by lia. destruct (Z.eqb_spec g f) as [->|Ef]; [by left|]. intros Hgb. right.
    destruct (pg_taken0 g Hg Hgb) as [?|H]; [done|]. exact H.
  - intros g [= <-]. rewrite Hb, Z.eqb_refl by lia. rewrite <-Hn. lia.
Qed.

(** When there is no frame left, some page is resident. *)
Lemma full_resident w xs : paged w xs None -> clear_bits (pages (memManager w)) = [] -> xs <> [].
Proof.
  intros Hpg E ->. destruct (bitat (pages (memManager w)) 0) eqn:Eb.
  - destruct (pg_taken _ _ _ Hpg 0 ltac:(done) Eb) as [?|(i & p & o & t & Hs & Hv & _)]; [done|].
    destruct (pg_valid _ _ _ Hpg _ _ _ _ Hs Hv) as (H & _). by apply elem_of_nil in H.
  - assert (H : 0 ∈ clear_bits (pages (memManager w))); [|rewrite E in H; by apply elem_of_nil in H].
    apply elem_of_clear_bits. by rewrite (pg_nframes _ _ _ Hpg).
Qed.

Lemma run_with_policy f w l' (Q : unit -> VM -> Prop) :
  f (policy w) = Ok l' -> Q tt (set_policy l' w) -> run_to (with_policy f) w Q.
Proof. intros H HQ. apply run_to_zoom. exists tt, l'. by rewrite H. Qed.

Lemma run_with_mem {A} (f : MemoryManager -> res (A * MemoryManager)) w a mm' (Q : A -> VM -> Prop) :
  f (memManager w) = Ok (a, mm') -> Q a (set_memManager mm' w) -> run_to (with_mem f) w Q.
Proof. intros H HQ. apply run_to_zoom. exists a, mm'. by rewrite H. Qed.

Lemma run_write_memory addr bytes w (Q : unit -> VM -> Prop) :
  0 <= addr -> addr + zlen bytes <= zlen (memory w) -> Q tt (set_memory (splice addr bytes (memory w)) w) ->
  run_to (write_memory addr bytes) w Q.
Proof. intros H1 H2 HQ. unfold write_memory. step. step; [by apply bwrite_Ok|]. by step. Qed.

(** The end of Swap: the entry becomes valid and clean. *)
Lemma run_set_loaded p w te f (Q : unit -> VM -> Prop) :
  load_entry p w = Ok (set_physicalPage f te) ->
  (forall t, entry_changed w (set_tables t w) p (loaded f te) -> Q tt (set_tables t w)) ->
  run_to (_ ← upd_entry p (set_valid true); upd_entry p (set_dirty false)) w Q.
Proof.
  intros H HQ. apply run_to_bind. eapply run_upd_entry; [exact H|]. intros t H1 O1.
  eapply run_upd_entry; [exact H1|]. intros t' H2 O2. cbn [set_tables] in *. apply HQ.
  split; try done. intros q Hq. rewrite <-(O1 q Hq). exact (O2 q Hq).
Qed.

(** ** Page faults *)

(** The page that a fault of [pid] would evict can be written back: it is
    clean, or belongs to [pid]. *)
Definition victim_ok (w : VM) (xs : list (entry_ptr * Z)) (pid : Z) : Prop :=
  clear_bits (pages (memManager w)) = [] ->
  forall ys v o tv, xs = ys ++ [(v, o)] -> load_entry v w = Ok tv -> dirty tv = true -> o = pid.

Lemma memory_room w xs hole f : paged w xs hole -> 0 <= f < NUM_OF_PHYSICAL_PAGES ->
  0 <= f * PageSize /\ f * PageSize + PageSize <= zlen (memory w).
Proof.
  intros Hpg Hf. rewrite (pg_memory _ _ _ Hpg). change MemorySize with 8192. change PageSize with 128.
  unfold NUM_OF_PHYSICAL_PAGES in Hf. lia.
Qed.

(** A free frame. *)
Lemma Swap_free garbage w xs i p pid te f rest : vm_ok w xs -> 0 <= pid -> slot w i p pid te -> valid te = false ->
  clear_bits (pages (memManager w)) = f :: rest ->
  run_to (Swap garbage (virtualPage te) pid) w (fun _ w' =>
    vm_ok w' ((p, pid) :: xs) /\ same_pages w w' /\ load_entry p w' = Ok (loaded f te)).
Proof.
  intros [Hpg (ps & Hq)] Hpid Hs Hv Hc. unfold Swap. apply run_to_bind.
  eapply run_with_mem; [unfold getAvailable; by rewrite NumClear_loop by apply Hpg|]. rewrite Hc.
  rewrite (proj2 (Z.eqb_neq (zlen (f :: rest)) 0)) by (unfold zlen; cbn [length]; lia). cbn [negb].
  set (w0 := set_memManager _ w). assert (Hpg0 : paged w0 xs None) by by apply paged_same_frames.
  assert (Hs0 : slot w0 i p pid te) by done.
  destruct (getPage_hole w0 xs f rest Hpg0) as (mm' & Eg & Hpg1); [done|].
  apply run_to_bind. apply run_to_bind. eapply run_with_mem; [exact Eg|].
  set (w1 := set_memManager mm' w0) in *. assert (Hs1 : slot w1 i p pid te) by done.
  pose proof (zlen_on_disk w1 i) as Hl.
  destruct (memory_room _ _ _ f Hpg1) as [Hm1 Hm2]; [by apply (pg_hole _ _ _ Hpg1)|].
  apply run_to_bind. unfold page_in. apply run_to_bind. eapply run_findPage; [exact Hpg1|done|exact Hs1|].
  cbn beta iota. apply run_to_bind. apply run_write_memory; [done|lia|].
  set (w2 := set_memory _ w1). apply run_to_bind. eapply (run_upd_entry p _ w2 te); [apply Hs1|]. intros t2 L2 O2. step.
  destruct (AddPage_queue garbage p pid _ _ _ Hq) as (l' & El & Hq').
  apply run_to_bind. eapply run_with_policy; [exact El|]. step.
  set (w3 := set_policy l' _). eapply (run_set_loaded p w3 te f); [exact L2|]. intros t Hec.
  assert (Hec' : entry_changed w1 (set_tables t w3) p (loaded f te)).
  { destruct Hec as [M1 P1 E1 T1 O1]. split; try done. intros q Hqp. rewrite (O1 q Hqp). by apply (O2 q Hqp). }
  destruct (load_ok w1 _ xs p pid i te f Hpg1 Hs1 Hv Hec') as [Hpg' Hsame]; [done..|].
  split; [split; [exact Hpg'|by eexists]|]. split; [exact Hsame|apply Hec].
Qed.

(** Writing to a UNIX file always succeeds, and may extend it. *)
Lemma stub_WriteAt_ok bytes position f : 0 <= position -> Forall in_u8 bytes -> Forall in_u8 f ->
  exists f', stub_WriteAt bytes position f = Ok f' /\ Forall in_u8 f' /\ slice position (zlen bytes) f' = bytes /\
    forall off n, 0 <= off -> off + n <= position \/ position + zlen bytes <= off -> slice off n f `prefix_of` slice off n f'.
Proof.
  intros Hp Hb Hf. unfold stub_WriteAt, file_write. rewrite ASSERT_true by lia. cbn [mbind res_bind].
  set (g := f ++ _). assert (Hg : position + zlen bytes <= zlen g).
  { unfold g. rewrite zlen_app. unfold zlen at 3. rewrite length_replicate. pose proof (Nat2Z.is_nonneg (length f)). unfold zlen. lia. }
  rewrite bwrite_Ok by done. eexists. split; [done|]. split; [|split; [by apply slice_splice_eq|]].
  - apply Forall_splice; [done|]. apply Forall_app. split; [done|]. apply Forall_replicate. split; lia.
  - intros off n Ho Hd. rewrite slice_splice_ne by done. apply slice_app_prefix.
Qed.

(** Writing the victim back to its slot. *)
Lemma run_write_back w xs hole v o iv tv bytes (Q : unit -> VM -> Prop) :
  paged w xs hole -> 0 <= o -> slot w iv v o tv -> zlen bytes = PageSize -> Forall in_u8 bytes ->
  (forall f', stub_WriteAt bytes (PageSize * iv) (swapFile (swapMgr w)) = Ok f' -> Forall in_u8 f' -> slice (PageSize * iv) PageSize f' = bytes ->
     (forall j, 0 <= j < SWAP_SIZE -> j <> iv -> on_disk w j `prefix_of` slice (PageSize * j) PageSize f') ->
     Q tt (set_swapMgr (set_swapFile f' (swapMgr w)) w)) ->
  run_to (writePage o (virtualPage tv) bytes) w Q.
Proof.
  intros Hpg Ho Hs Hl Hby HQ. pose proof (slot_range Hs) as Hr.
  unfold writePage. apply run_to_bind. eexists _, w. split; [eapply find_slot_ok; eauto|]. cbn beta iota.
  step. { apply bread_Ok; [done|done|by rewrite Hl]. }
  assert (E : slice 0 PageSize bytes = bytes) by (rewrite <-Hl; apply slice_all).
  destruct (stub_WriteAt_ok bytes (PageSize * iv) (swapFile (swapMgr w))) as (f' & EW & B & S1 & S2); [change PageSize with 128; lia|done|apply Hpg|].
  unfold swap_WriteAt. step. step; [rewrite E; exact EW|]. step. rewrite Hl in S1. apply HQ; [done|done|exact S1|].
  intros j Hj Hne. apply S2; [change PageSize with 128; lia|]. rewrite Hl. change PageSize with 128. lia.
Qed.

(** The invariant is about slots, entries and contents: it holds while the
    victim is only marked invalid when its slot is up to date. *)
Lemma in_slot_ext w w' pid vpn i :
  PIDs (swapMgr w') = PIDs (swapMgr w) -> swapMap (swapMgr w') = swapMap (swapMgr w) -> entries (swapMgr w') = entries (swapMgr w) ->
  (forall p te, load_entry p w = Ok te -> exists te', load_entry p w' = Ok te' /\ virtualPage te' = virtualPage te) ->
  forall b, (in_slot' pid vpn i w = Ok b -> in_slot' pid vpn i w' = Ok b).
Proof.
  intros E1 E2 E3 Hl b. unfold in_slot'. rewrite E1, E2, E3. destruct (aget (PIDs (swapMgr w)) i) as [o|]; [|done]. cbn [mbind res_bind].
  destruct (o =? pid); [|done]. destruct (aget (entries (swapMgr w)) i) as [p|]; [|done]. cbn [mbind res_bind].
  destruct (load_entry p w) as [te|] eqn:E; [|done]. destruct (Hl p te E) as (te' & -> & Ev). cbn [mbind res_bind]. by rewrite Ev.
Qed.

Lemma find_slot_ext w w' test :
  (forall i b, test i w = Ok b -> test i w' = Ok b) -> forall o, find_slot test w = Ok (o, w) -> find_slot test w' = Ok (o, w').
Proof.
  intros Ht o. unfold find_slot. set (n := Z.to_nat SWAP_SIZE). clearbody n.
  assert (H : forall n i r, for_break n i (fun i (_ : unit) => b ← test i w; Ok (if b : bool then inr i else inl tt)) tt = Ok r ->
    for_break n i (fun i (_ : unit) => b ← test i w'; Ok (if b : bool then inr i else inl tt)) tt = Ok r).
  { clear o n. induction n as [|n IH]; intros i r; cbn [for_break]; [done|]. destruct (test i w) as [b|] eqn:E; [|done].
    rewrite (Ht i b E). cbn [mbind res_bind]. destruct b; [done|]. apply IH. }
  destruct (for_break n 0 _ tt) as [r|] eqn:E; [|done]. rewrite (H _ _ _ E). cbn [mbind res_bind]. by intros [= <-].
Qed.

Lemma for_break_none {R} n (body : Z -> unit -> res (unit + R)) i :
  (forall j, i <= j < i + Z.of_nat n -> body j tt = Ok (inl tt)) -> for_break n i body tt = Ok (inl tt).
Proof.
  revert i. induction n as [|n IH]; intros i H; [done|]. cbn [for_break]. rewrite H by lia. cbn [mbind res_bind].
  apply IH. intros j ?. apply H. lia.
Qed.

(** A page without a slot is not found. *)
Lemma find_slot_none w xs hole pid vpn test : paged w xs hole -> 0 <= pid ->
  (forall i p te, slot w i p pid te -> virtualPage te <> vpn) ->
  (test = in_slot pid vpn \/ test = in_slot' pid vpn) ->
  find_slot test w = Ok (None, w).
Proof.
  intros Hpg Hp Hno Htest. unfold find_slot. rewrite for_break_none; [done|]. intros j Hj.
  rewrite Z2Nat.id in Hj by (unfold SWAP_SIZE; lia). rewrite Z.add_0_l in Hj.
  destruct (aget_in_range (PIDs (swapMgr w)) j) as [o Ho]; [by rewrite (pg_pids _ _ _ Hpg)|].
  assert (H : test j w = Ok false); [|by rewrite H].
  destruct (Z.eqb_spec o pid) as [->|Hne].
  - destruct (bitat (swapMap (swapMgr w)) j) eqn:Eb; [|pose proof (pg_free _ _ _ Hpg j pid Eb Ho); lia].
    destruct (pg_used _ _ _ Hpg j Hj Eb) as (q & o' & u & Hu).
    pose proof (slot_pid Hu) as Ho'. rewrite Ho in Ho'. injection Ho' as <-. pose proof (Hno _ _ _ Hu) as Hv%Z.eqb_neq.
    destruct Htest as [-> | ->]; unfold in_slot, in_slot'; rewrite Ho; cbn [mbind res_bind]; rewrite Z.eqb_refl.
    + rewrite Test_bit, Eb by (apply Hpg || by rewrite (pg_nslots _ _ _ Hpg)). cbn [mbind res_bind].
      rewrite (slot_entry Hu). cbn [mbind res_bind]. rewrite (slot_te Hu). cbn [mbind res_bind]. by rewrite Hv.
    + rewrite (slot_entry Hu). cbn [mbind res_bind]. rewrite (slot_te Hu). cbn [mbind res_bind]. by rewrite Hv.
  - apply Z.eqb_neq in Hne.
    destruct Htest as [-> | ->]; unfold in_slot, in_slot'; rewrite Ho; cbn [mbind res_bind]; by rewrite Hne.
Qed.

Lemma run_evict w xs v o iv tv pid (Q : TranslationEntry -> VM -> Prop) :
  paged w (xs ++ [(v, o)]) None -> slot w iv v o tv -> valid tv = true -> 0 <= pid -> (dirty tv = true -> o = pid) ->
  (forall w', paged w' xs (Some (physicalPage tv)) -> same_pages w w' -> policy w' = policy w -> memManager w' = memManager w ->
     load_entry v w' = Ok (set_valid false tv) -> (forall p, p <> v -> load_entry p w' = load_entry p w) -> Q (set_valid false tv) w') ->
  run_to (evict v pid) w Q.
Proof.
  intros Hpg Hs Hv Ho Hd HQ. destruct (pg_valid _ _ _ Hpg _ _ _ _ Hs Hv) as (_ & Hfr & _). unfold evict.
  apply run_to_bind. eapply run_upd_entry; [apply Hs|]. intros t H1 O1. set (w1 := set_tables t w) in *.
  apply run_to_bind. eapply run_get_entry; [exact H1|]. cbn [dirty physicalPage virtualPage set_valid].
  assert (Hec : entry_changed w w1 v (set_valid false tv)) by by split.
  apply run_to_bind. destruct (dirty tv) eqn:Edt.
  - specialize (Hd eq_refl). subst pid. destruct (memory_room _ _ _ _ Hpg Hfr) as [Hm1 Hm2].
    apply run_to_bind. unfold read_memory. step. step; [apply bread_Ok; [done|done|exact Hm2]|]. cbn beta.
    (* the search in the changed state finds the same slot *)
    assert (HP : run_to (writePage o (virtualPage tv) (frame w (physicalPage tv))) w (fun _ w' =>
      exists f', w' = set_swapMgr (set_swapFile f' (swapMgr w)) w /\ Forall in_u8 f' /\
        slice (PageSize * iv) PageSize f' = frame w (physicalPage tv) /\
        forall j, 0 <= j < SWAP_SIZE -> j <> iv -> on_disk w j `prefix_of` slice (PageSize * j) PageSize f')).
    { eapply run_write_back; [exact Hpg|done|exact Hs|apply zlen_slice; [done|done|exact Hm2]|apply Forall_slice, Hpg|]. intros f' _ B S1 S2. by exists f'. }
    change (run_to (writePage o (virtualPage tv) (frame w (physicalPage tv))) w1 (fun _ w' => run_to (ret (set_valid false tv)) w' Q)).
    destruct HP as ([] & w2 & E & f' & -> & B & S1 & S2). exists tt, (set_swapMgr (set_swapFile f' (swapMgr w1)) w1).
    assert (E1 : writePage o (virtualPage tv) (frame w (physicalPage tv)) w1 = Ok (tt, set_swapMgr (set_swapFile f' (swapMgr w1)) w1)).
    { pose proof (find_slot_ok _ _ _ Hpg o iv v tv _ Ho Hs (or_intror eq_refl)) as Ef.
      pose proof (find_slot_ext w w1 _ (fun i b => in_slot_ext w w1 o (virtualPage tv) i eq_refl eq_refl eq_refl
        ltac:(intros p te Hp; destruct (decide (p = v)) as [->|Hne]; [rewrite (slot_te Hs) in Hp; injection Hp as <-; eexists; split; [exact H1|done]|rewrite (O1 p Hne); eauto]) b) _ Ef) as Ef1.
      unfold writePage, mbind, M_bind in E |- *. rewrite Ef in E. rewrite Ef1.
      unfold lift in E |- *. destruct (bread 0 PageSize (frame w (physicalPage tv))) as [bs|]; [|done].
      unfold swap_WriteAt, mbind, M_bind, gets, lift, modify in E |- *. cbn in E |- *.
      destruct (stub_WriteAt bs _ (swapFile (swapMgr w))) as [g|]; [|done]. injection E as E. by rewrite E. }
    split; [exact E1|]. destruct (evict_ok w (set_swapMgr (set_swapFile f' (swapMgr w1)) w1) xs v o iv tv Hpg Hs Hv) as [Hp' Hsame]; try done.
    { intros bytes [Hb _]. unfold on_disk. cbn [swapFile set_swapMgr swapMgr set_swapFile]. rewrite S1. by apply Hb. }
    step. by apply HQ.
  - step. destruct (evict_ok w w1 xs v o iv tv Hpg Hs Hv Hec) as [Hp' Hsame]; try done.
    { apply Hpg. }
    { intros bytes [_ Hb]. apply Hb. by rewrite Hv, Edt. }
    step. by apply HQ.
Qed.

(** No free frame: the page at the end of the queue makes room. *)
Lemma Swap_full garbage w xs i p pid te : vm_ok w xs -> 0 <= pid -> slot w i p pid te -> valid te = false ->
  clear_bits (pages (memManager w)) = [] -> victim_ok w xs pid ->
  run_to (Swap garbage (virtualPage te) pid) w (fun _ w' =>
    exists xs', vm_ok w' xs' /\ xs' ⊆ (p, pid) :: xs /\ same_pages w w' /\ exists f, load_entry p w' = Ok (loaded f te)).
Proof.
  intros [Hpg (ps & Hq)] Hpid Hs Hv Hc Hvic. pose proof (full_resident _ _ Hpg Hc) as Hne.
  destruct xs as [|[v o] ys _] using rev_ind; [done|].
  destruct (pg_resident _ _ _ Hpg v o) as (iv & tv & Hsv & Hvv); [apply elem_of_app; right; by apply list_elem_of_singleton|].
  assert (Hd : dirty tv = true -> o = pid) by (intros; by eapply Hvic; [|done|apply Hsv|]).
  assert (Hpv : p <> v).
  { intros ->. pose proof (pg_owner _ _ _ Hpg _ _ _ _ _ _ _ Hs Hsv) as <-. destruct (slot_fun _ _ _ _ _ _ _ _ Hs Hsv) as (_ & _ & ->). congruence. }
  unfold Swap. apply run_to_bind. eapply run_with_mem; [unfold getAvailable; by rewrite NumClear_loop by apply Hpg|].
  rewrite Hc. change (negb (zlen (@nil Z) =? 0)) with false. cbn beta iota. set (w0 := set_memManager _ w).
  assert (Hpg0 : paged w0 (ys ++ [(v, o)]) None) by by apply paged_same_frames.
  destruct (GetLRU_queue _ _ _ _ _ Hq) as [EG Ep].
  apply run_to_bind. step. step. { exact Ep. } cbn beta. step. { exact EG. } cbn beta.
  apply run_to_bind. eapply (run_evict w0 ys v o iv tv pid); [exact Hpg0|exact Hsv|done|done|done|].
  intros w1 Hpg1 Hsame1 Epol Emm Hlv Hlo. cbn [physicalPage set_valid]. set (f := physicalPage tv) in *.
  destruct (proj1 (Hsame1 i p pid) te Hs) as (te1 & Hs1 & _ & _).
  assert (te1 = te) as -> by (pose proof (slot_te Hs1) as H; rewrite (Hlo p Hpv), (slot_te Hs : load_entry p w0 = Ok te) in H; by injection H).
  pose proof (zlen_on_disk w1 i) as Hl.
  destruct (memory_room _ _ _ f Hpg1) as [Hm1 Hm2]; [by apply (pg_hole _ _ _ Hpg1)|].
  apply run_to_bind. eapply run_findPage; [exact Hpg1|done|exact Hs1|]. cbn beta iota.
  apply run_to_bind. apply run_write_memory; [done|lia|]. set (w2 := set_memory _ w1).
  apply run_to_bind. eapply run_get_entry; [exact Hlv|]. cbn [physicalPage set_valid]. fold f.
  apply run_to_bind. eapply (run_upd_entry p _ w2 te); [apply Hs1|]. intros t2 L2 O2.
  destruct (AddPage_queue garbage p pid _ _ _ Hq) as (l1 & El1 & Hq1).
  destruct (Remove_LRU_Page_queue l1 _ ((p, pid) :: ys) v o Hq1) as (l2 & qs & El2 & Hq2); [done|].
  apply run_to_bind. eapply run_with_policy; [change (policy (set_tables t2 w2)) with (policy w1); rewrite Epol; exact El1|].
  apply run_to_bind. eapply run_with_policy; [exact El2|]. step.
  set (w3 := set_policy l2 _). eapply (run_set_loaded p w3 te f); [exact L2|]. intros t Hec.
  assert (Hec' : entry_changed w1 (set_tables t w3) p (loaded f te)).
  { destruct Hec as [M1 P1 E1 T1 O1]. split; try done. intros q Hqp. rewrite (O1 q Hqp). by apply (O2 q Hqp). }
  destruct (load_ok w1 _ ys p pid i te f Hpg1 Hs1 Hv Hec') as [Hpg' Hsame]; [done..|].
  exists ((p, pid) :: ys). split; [split; [exact Hpg'|by exists qs]|]. split; [set_solver|]. split.
  - apply (same_pages_trans w w1); [exact Hsame1|exact Hsame].
  - exists f. apply Hec.
Qed.

(** Any page fault. *)
Lemma run_Swap garbage w xs i p pid te : vm_ok w xs -> 0 <= pid -> slot w i p pid te -> valid te = false -> victim_ok w xs pid ->
  run_to (Swap garbage (virtualPage te) pid) w (fun _ w' =>
    exists xs', vm_ok w' xs' /\ xs' ⊆ (p, pid) :: xs /\ same_pages w w' /\ exists f, load_entry p w' = Ok (loaded f te)).
Proof.
  intros Hok Hp Hs Hv Hvic. destruct (clear_bits (pages (memManager w))) as [|f rest] eqn:Ec; [by eapply Swap_full|].
  eapply run_to_mono; [by eapply Swap_free|]. cbn beta. intros _ w' (H1 & H2 & H3). exists ((p, pid) :: xs). eauto.
Qed.

(** ** Checking the invariant of a state *)

Definition slot_at (w : VM) (i : Z) : option (Z * entry_ptr * Z * TranslationEntry) :=
  if bitat (swapMap (swapMgr w)) i then
    match aget (PIDs (swapMgr w)) i, aget (entries (swapMgr w)) i with
    | Ok pid, Ok p => match load_entry p w with Ok te => Some (i, p, pid, te) | Err _ => None end
    | _, _ => None
    end
  else None.

Definition slots (w : VM) : list (Z * entry_ptr * Z * TranslationEntry) := omap (slot_at w) (seqZ 0 SWAP_SIZE).

Lemma elem_of_slots w i p pid te : (i, p, pid, te) ∈ slots w <-> slot w i p pid te.
Proof.
  unfold slots. rewrite list_elem_of_omap. unfold slot, slot_at. split.
  - intros (j & Hj%elem_of_seqZ & E). destruct (bitat _ j) eqn:Eb; [|done].
    destruct (aget (PIDs _) j) eqn:E1; [|done]. destruct (aget (entries _) j) eqn:E2; [|done].
    destruct (load_entry _ w) eqn:E3; [|done]. injection E as <- <- <- <-. split; [lia|done].
  - intros (Hr & Hb & E1 & E2 & E3). exists i. split; [apply elem_of_seqZ; lia|]. by rewrite Hb, E1, E2, E3.
Qed.

#[local] Instance TranslationEntry_eq_dec : EqDecision TranslationEntry.
Proof. solve_decision. Defined.

(** A relation on all pairs of slots, and a test of the slots. *)
Definition all_pairs (w : VM) (f : Z -> entry_ptr -> Z -> TranslationEntry -> Z -> entry_ptr -> Z -> TranslationEntry -> bool) : bool :=
  let l := slots w in
  forallb (fun s => let '(i, p, o, t) := s in forallb (fun s => let '(j, q, u, v) := s in (i =? j) || f i p o t j q u v) l) l.

Definition all_slots (w : VM) (f : Z -> entry_ptr -> Z -> TranslationEntry -> bool) : bool :=
  forallb (fun s => let '(i, p, o, t) := s in f i p o t) (slots w).

Lemma forallb_elem {A} (f : A -> bool) l : forallb f l = true <-> forall x, x ∈ l -> f x = true.
Proof. rewrite forallb_forall. split; intros H x; rewrite ?list_elem_of_In; intros; apply H; rewrite ?list_elem_of_In; done. Qed.

Lemma all_pairs_ok w f : all_pairs w f = true -> forall i p o t j q u v,
  slot w i p o t -> slot w j q u v -> i = j \/ f i p o t j q u v = true.
Proof.
  unfold all_pairs. rewrite forallb_elem. intros H i p o t j q u v H1%elem_of_slots H2%elem_of_slots.
  specialize (H _ H1). cbn in H. rewrite forallb_elem in H. specialize (H _ H2). cbn in H.
  apply orb_true_iff in H as [H%Z.eqb_eq|H]; auto.
Qed.

Lemma all_slots_ok w f : all_slots w f = true -> forall i p o t, slot w i p o t -> f i p o t = true.
Proof. unfold all_slots. rewrite forallb_elem. intros H i p o t H1%elem_of_slots. exact (H _ H1). Qed.

Definition is_byte (b : Z) : bool := (0 <=? b) && (b <? 256).

Definition check_sizes (w : VM) : bool :=
  bool_decide (zlen (memory w) = MemorySize) && forallb is_byte (memory w) && forallb is_byte (swapFile (swapMgr w)) &&
  bool_decide (numBits (pages (memManager w)) = NUM_OF_PHYSICAL_PAGES) && bool_decide (numBits (swapMap (swapMgr w)) = SWAP_SIZE) &&
  bool_decide (zlen (PIDs (swapMgr w)) = SWAP_SIZE) && bool_decide (zlen (entries (swapMgr w)) = SWAP_SIZE).

Definition check_slot (w : VM) (i : Z) : bool :=
  if bitat (swapMap (swapMgr w)) i then
    match slot_at w i with Some _ => true | None => false end
  else match aget (PIDs (swapMgr w)) i with Ok pid => pid <? 0 | Err _ => true end.

Definition check_pair (i : Z) (p : entry_ptr) (o : Z) (t : TranslationEntry) (j : Z) (q : entry_ptr) (u : Z) (v : TranslationEntry) : bool :=
  negb ((o =? u) && (virtualPage t =? virtualPage v)) && negb (bool_decide (p = q)) &&
  negb (valid t && valid v && (physicalPage t =? physicalPage v)).

Definition check_valid (w : VM) (xs : list (entry_ptr * Z)) (i : Z) (p : entry_ptr) (o : Z) (t : TranslationEntry) : bool :=
  negb (valid t) ||
  (bool_decide ((p, o) ∈ xs) && (0 <=? physicalPage t) && (physicalPage t <? NUM_OF_PHYSICAL_PAGES) &&
   bitat (pages (memManager w)) (physicalPage t)).

Definition check_resident (w : VM) (x : entry_ptr * Z) : bool :=
  existsb (fun s => let '(i, p, o, t) := s in bool_decide (x = (p, o)) && valid t) (slots w).

Definition check_frame (w : VM) (f : Z) : bool :=
  negb (bitat (pages (memManager w)) f) ||
  existsb (fun s => let '(i, p, o, t) := s in valid t && (physicalPage t =? f)) (slots w).

Definition check_paged (w : VM) (xs : list (entry_ptr * Z)) : bool :=
  check_sizes w && forallb (check_slot w) (seqZ 0 SWAP_SIZE) && all_pairs w check_pair && all_slots w (check_valid w xs) &&
  bool_decide (NoDup xs.*1) && forallb (check_resident w) xs && forallb (check_frame w) (seqZ 0 NUM_OF_PHYSICAL_PAGES).

Lemma bytes_ok l : forallb is_byte l = true -> Forall in_u8 l.
Proof. rewrite forallb_elem, Forall_forall. intros H x Hx%H. unfold is_byte in Hx. unfold in_u8. lia. Qed.

Lemma check_slot_ok w i : 0 <= i < SWAP_SIZE -> check_slot w i = true ->
  (bitat (swapMap (swapMgr w)) i = true ->
     exists p pid te, slot w i p pid te) /\
  (bitat (swapMap (swapMgr w)) i = false -> forall pid, aget (PIDs (swapMgr w)) i = Ok pid -> pid < 0).
Proof.
  intros Hi. unfold check_slot. destruct (bitat (swapMap (swapMgr w)) i) eqn:Eb; intros H.
  - split; [|discriminate]. intros _. unfold slot_at in H. rewrite Eb in H.
    destruct (aget (PIDs (swapMgr w)) i) as [pid|] eqn:E1; [|discriminate].
    destruct (aget (entries (swapMgr w)) i) as [p|] eqn:E2; [|discriminate].
    destruct (load_entry p w) as [te|] eqn:E3; [|discriminate]. exists p, pid, te.
    exact (conj Hi (conj Eb (conj E1 (conj E2 E3)))).
  - split; [discriminate|]. intros _ pid E. rewrite E in H. apply Z.ltb_lt. exact H.
Qed.

Lemma check_resident_ok w p pid : check_resident w (p, pid) = true -> exists i te, slot w i p pid te /\ valid te = true.
Proof.
  unfold check_resident. rewrite existsb_exists. intros ([[[i q] o] t] & H & E). apply list_elem_of_In in H.
  apply andb_true_iff in E as [E Hv]. apply bool_decide_eq_true in E. injection E as <- <-.
  exists i, t. split; [by apply elem_of_slots|exact Hv].
Qed.

Lemma check_frame_ok w f : check_frame w f = true -> bitat (pages (memManager w)) f = true ->
  exists i p pid te, slot w i p pid te /\ valid te = true /\ physicalPage te = f.
Proof.
  unfold check_frame. intros H Hb. rewrite Hb in H. apply orb_prop in H as [H|H]; [discriminate|].
  rewrite existsb_exists in H. destruct H as ([[[i q] o] t] & H & E). apply list_elem_of_In in H.
  apply andb_true_iff in E as [Hv E]. apply Z.eqb_eq in E.
  exists i, q, o, t. split; [by apply elem_of_slots|exact (conj Hv E)].
Qed.

Lemma check_paged_ok w xs : Bitmap.wf (pages (memManager w)) -> Bitmap.wf (swapMap (swapMgr w)) ->
  check_paged w xs = true -> paged w xs None.
Proof.
  intros Hwf1 Hwf2. unfold check_paged. rewrite !andb_true_iff. intros [[[[[[Hz H8] H9] H10] H11] H12] H13].
  unfold check_sizes in Hz. rewrite !andb_true_iff, !bool_decide_eq_true in Hz. destruct Hz as [[[[[[H1 H2] H3] H4] H5] H6] H7].
  apply bool_decide_eq_true in H11. rewrite forallb_elem in H8, H13. rewrite forallb_elem in H12.
  pose proof (all_pairs_ok _ _ H9) as Hp. pose proof (all_slots_ok _ _ H10) as Hs. clear H9 H10.
  assert (H8' : forall i, 0 <= i < SWAP_SIZE -> check_slot w i = true) by (intros; apply H8, elem_of_seqZ; lia). clear H8.
  assert (H13' : forall f, 0 <= f < NUM_OF_PHYSICAL_PAGES -> check_frame w f = true) by (intros; apply H13, elem_of_seqZ; lia). clear H13.
  split; try assumption; try by apply bytes_ok.
  - intros i Hi. by apply (check_slot_ok w i Hi (H8' i Hi)).
  - intros i pid Hb Hpid. pose proof (aget_Ok_inv _ _ _ Hpid) as [Hr _]. rewrite H6 in Hr.
    by apply (check_slot_ok w i Hr (H8' i Hr)).
  - intros i j p q pid t u S1 S2 E. destruct (Hp _ _ _ _ _ _ _ _ S1 S2) as [|Hb]; [done|]. unfold check_pair in Hb. by rewrite E, !Z.eqb_refl in Hb.
  - intros i j p o o' t u S1 S2. destruct (Hp _ _ _ _ _ _ _ _ S1 S2) as [|Hb]; [done|]. unfold check_pair in Hb.
    rewrite (bool_decide_true (p = p)) in Hb by done. by rewrite andb_false_r in Hb.
  - intros i p pid te S Hv. specialize (Hs _ _ _ _ S). unfold check_valid in Hs. rewrite Hv in Hs. cbn [negb orb] in Hs.
    rewrite !andb_true_iff, bool_decide_eq_true in Hs. destruct Hs as (((Hin & Hlo) & Hhi) & Hb).
    split; [done|]. split; [lia|]. done.
  - intros p pid Hin. by apply check_resident_ok, H12.
  - intros i j p q o o' t u S1 S2 V1 V2 E. destruct (Hp _ _ _ _ _ _ _ _ S1 S2) as [|Hb]; [done|]. unfold check_pair in Hb.
    rewrite V1, V2, E, Z.eqb_refl in Hb. by rewrite andb_false_r in Hb.
  - intros f Hf Hb. right. apply check_frame_ok; [by apply H13'|done].
  - done.
Qed.

(** ** The properties *)

(** The queue of the pages that were loaded, last first. *)
Definition add_all (garbage : Z) (xs : list (entry_ptr * Z)) : LRU :=
  foldr (fun x l => match AddPage garbage (fst x) (snd x) l with Ok l' => l' | Err _ => l end) LRU_new xs.

Lemma add_all_queue garbage xs : exists ps, queue (add_all garbage xs) ps xs.
Proof.
  induction xs as [|[p pid] xs (ps & IH)]; [exists []; apply LRU_new_queue|].
  destruct (AddPage_queue garbage p pid _ _ _ IH) as (l' & E & H). cbn [add_all foldr fst snd] in *.
  exists (fresh_node (add_all garbage xs) :: ps). unfold add_all in E. rewrite E. exact H.
Qed.

(** C11: a page fault of an entry with a slot in the swap file, whose
    victim (when memory is full) is clean or of the same process, always
    returns; it keeps the invariant of the paging data, leaves the entry
    valid, clean and mapped to a frame that begins with the bytes of its
    slot, and changes no byte that is defined in a page of any process. *)
Theorem Swap_correct garbage w xs i p pid te :
  vm_ok w xs -> 0 <= pid -> slot w i p pid te -> valid te = false -> victim_ok w xs pid ->
  exists w' xs' f, Swap garbage (virtualPage te) pid w = Ok (tt, w') /\ vm_ok w' xs' /\
    load_entry p w' = Ok (loaded f te) /\ on_disk w i `prefix_of` frame w' f /\
    forall q vpn bytes, page_of w q vpn bytes -> page_of w' q vpn bytes.
Proof.
  intros Hok Hp Hs Hv Hvic.
  destruct (run_Swap garbage w xs i p pid te Hok Hp Hs Hv Hvic) as ([] & w' & E & xs' & Hok' & _ & Hsame & f & Hl). exists w', xs', f. split; [exact E|]. split; [exact Hok'|].
  split; [exact Hl|]. split; [|intros; by eapply same_pages_page_of].
  destruct (proj1 (Hsame i p pid) te Hs) as (t' & Hs' & _ & C). pose proof (slot_te Hs') as Ht. rewrite Hl in Ht. injection Ht as <-.
  apply C; [|done]. split; [congruence|done].
Qed.

Lemma evict_foreign w xs v o tv pid : paged w xs None -> (v, o) ∈ xs -> 0 <= pid ->
  load_entry v w = Ok tv -> dirty tv = true ->
  (forall i p te, slot w i p pid te -> virtualPage te <> virtualPage tv) ->
  evict v pid w = Err AssertFailed.
Proof.
  intros Hpg Hin Hpid Hl Hd Hno. destruct (pg_resident _ _ _ Hpg v o Hin) as (iv & tv' & Hsv & Hvv).
  pose proof (slot_te Hsv) as Ht. rewrite Hl in Ht. injection Ht as <-.
  destruct (pg_valid _ _ _ Hpg _ _ _ _ Hsv Hvv) as (_ & Hfr & _). destruct (memory_room _ _ _ _ Hpg Hfr) as [Hm1 Hm2].
  destruct (store_entry_ok v (set_valid false) w tv Hl) as (t & Es).
  pose proof (fun q => load_entry_store v q _ _ _ Es) as Hls. set (w1 := set_tables t _) in *.
  assert (Hl1 : load_entry v w1 = Ok (set_valid false tv)) by (rewrite Hls, decide_True by done; by rewrite Hl).
  assert (Ef : find_slot (in_slot' pid (virtualPage tv)) w1 = Ok (None, w1)).
  { apply (find_slot_ext w); [|apply (find_slot_none w xs None pid (virtualPage tv)); [exact Hpg|done|exact Hno|by right]]. intros i b. apply in_slot_ext; [done..|]. intros p te Hp.
    rewrite Hls. case_decide as E; [subst p|by exists te]. rewrite Hp in Hl. injection Hl as ->.
    rewrite Hp. by eexists. }
  unfold evict, upd_entry, get_entry, mbind, M_bind. rewrite Es. cbn [mbind res_bind]. rewrite Hl1. cbn [mbind res_bind dirty set_valid].
  rewrite Hd. unfold read_memory, mbind, M_bind, gets, lift. cbn [physicalPage virtualPage set_valid].
  change (Vm.memory w1) with (Vm.memory w). rewrite bread_Ok by done. unfold writePage, mbind, M_bind. by rewrite Ef.
Qed.

(** When memory is full and the oldest page is dirty and belongs to
    another process, the fault writes it back under the number of the
    faulting process; unless that process has a page with the same number,
    no slot is found and the ASSERT of writePage stops the machine. *)
Theorem Swap_foreign_victim garbage w ys v o tv pid vpn :
  vm_ok w (ys ++ [(v, o)]) -> 0 <= pid -> clear_bits (pages (memManager w)) = [] ->
  load_entry v w = Ok tv -> dirty tv = true ->
  (forall i p te, slot w i p pid te -> virtualPage te <> virtualPage tv) ->
  Swap garbage vpn pid w = Err AssertFailed.
Proof.
  intros [Hpg (ps & Hq)] Hpid Hc Hl Hd Hno. destruct (GetLRU_queue _ _ _ _ _ Hq) as [EG Ep].
  set (mm := mkMM (pages (memManager w)) (numUsedPages (memManager w)) false).
  assert (E : evict v pid (set_memManager mm w) = Err AssertFailed).
  { apply (evict_foreign _ (ys ++ [(v, o)]) v o tv); [by apply paged_same_frames|apply elem_of_app; right; by apply list_elem_of_singleton|done..]. }
  unfold Swap, mbind, M_bind, with_mem, zoom, getAvailable. rewrite NumClear_loop, Hc by apply Hpg. cbn [mbind res_bind].
  change (negb (zlen (@nil Z) =? 0)) with false. cbv iota. unfold gets, lift.
  change (policy (set_memManager mm w)) with (policy w). fold mm. cbn [policy set_memManager]. rewrite Ep, EG. by rewrite E.
Qed.

(** ** An example: memory is full *)

(** Process 0 has the pages 0 to 31 in the frames of the same number and
    page 32 in the swap file; page 0 is the oldest and dirty.  Page 40 of
    process 1 is in the swap file. *)
Definition example_pages : list (entry_ptr * Z) := (fun i => ((1, 31 - i), 0)) <$> seqZ 0 32.

Definition example_bytes (b : Z) : list Z := replicate (Z.to_nat PageSize) b.

Definition example_vm : VM := mkVM
  (example_bytes 7 ++ replicate (Z.to_nat (63 * PageSize)) 0)
  (<[1 := ((fun i => mkTE i i true false false (i =? 0)) <$> seqZ 0 32) ++ [mkTE 32 (-1) false false false false]]>
    {[2 := [mkTE 40 (-1) false false false false]]})
  (mkMM (mkBitMap 32 1 [2 ^ 32 - 1]) 32 false)
  (mkSwap (replicate (Z.to_nat (32 * PageSize)) 0 ++ example_bytes 5 ++ example_bytes 9)
     (mkBitMap 512 16 ([2 ^ 32 - 1; 3] ++ replicate 14 0))
     (replicate 33 0 ++ [1] ++ replicate 478 (-1))
     (((fun i => (1, i)) <$> seqZ 0 33) ++ replicate 479 (2, 0)))
  (add_all 0 example_pages) [] [] [].

Lemma example_vm_ok : vm_ok example_vm example_pages.
Proof.
  split; [|apply add_all_queue].
  apply check_paged_ok; [| |vm_compute; reflexivity].
  - split; [done|done|done|]. repeat constructor; lia.
  - split; [done|done|done|]. repeat constructor; lia.
Qed.

Lemma example_slot i p pid te : slot_at example_vm i = Some (i, p, pid, te) -> 0 <= i < SWAP_SIZE -> slot example_vm i p pid te.
Proof. intros H Hi. apply elem_of_slots. unfold slots. rewrite list_elem_of_omap. exists i. split; [apply elem_of_seqZ; lia|exact H]. Qed.

Lemma example_full : clear_bits (pages (memManager example_vm)) = [].
Proof. vm_compute. reflexivity. Qed.

Lemma example_pages_split : example_pages = ((fun i => ((1, 31 - i), 0)) <$> seqZ 0 31) ++ [((1, 0), 0)].
Proof. vm_compute. reflexivity. Qed.

Lemma example_page0 : page_of example_vm 0 0 (example_bytes 7).
Proof.
  exists 0, (1, 0), (mkTE 0 0 true false false true).
  split; [apply example_slot; [vm_compute; reflexivity|done]|]. split; [done|]. split; [|done]. intros _.
  assert (E : frame example_vm (physicalPage (mkTE 0 0 true false false true)) = example_bytes 7) by (vm_compute; reflexivity).
  by rewrite E.
Qed.

(** Page 32 of process 0 takes the frame of page 0, which is written back. *)
Lemma Swap_correct_witness : exists w' xs' f, Swap 0 32 0 example_vm = Ok (tt, w') /\ vm_ok w' xs' /\
  load_entry (1, 32) w' = Ok (mkTE 32 f true false false false) /\ example_bytes 5 `prefix_of` frame w' f /\
  page_of w' 0 0 (example_bytes 7).
Proof.
  destruct (Swap_correct 0 example_vm example_pages 32 (1, 32) 0 (mkTE 32 (-1) false false false false)) as (w' & xs' & f & E & Hok & Hl & Hf & Hsame).
  - exact example_vm_ok.
  - done.
  - apply example_slot; [vm_compute; reflexivity|done].
  - done.
  - intros _ ys v o tv. rewrite example_pages_split. intros H%app_inj_tail. destruct H as [_ H]. injection H as <- <-. done.
  - exists w', xs', f. do 3 (split; [assumption|]). split.
    + assert (E5 : on_disk example_vm 32 = example_bytes 5) by (vm_compute; reflexivity). rewrite E5 in Hf. exact Hf.
    + apply (Hsame 0 0 (example_bytes 7)). exact example_page0.
Defined.

(** Page 40 of process 1: process 1 has no page 0. *)
Lemma Swap_foreign_victim_witness : Swap 0 40 1 example_vm = Err AssertFailed.
Proof.
  apply (Swap_foreign_victim 0 example_vm ((fun i => ((1, 31 - i), 0)) <$> seqZ 0 31) (1, 0) 0 (mkTE 0 0 true false false true)).
  - pose proof example_vm_ok as H. rewrite example_pages_split in H. exact H.
  - done.
  - exact example_full.
  - vm_compute. reflexivity.
  - done.
  - intros i p te H. assert (Hall : all_slots example_vm (fun _ _ o t => negb ((o =? 1) && (virtualPage t =? 0))) = true) by (vm_compute; reflexivity).
    pose proof (all_slots_ok _ _ Hall _ _ _ _ H) as Hn. cbn in Hn. intros E. cbn in E. by rewrite E in Hn.
Defined.
