(* ===== verification/Loader.v ===== *)
(** * userprog/addrspace.cc: building and copying address spaces

    The constructor that loads a NOFF executable, ReadFile, the constructor
    and Duplicate used for processes that share a program, and
    InitRegisters, in the VM and FILESYS_STUB build.

    The process number comes from the process manager; [table] is the
    address [new] gives the page table.  ReadFile can run forever, so it
    and its caller take fuel: [None] means that the fuel ran out. *)

From stdpp Require Import base list numbers gmap.
From S2P Require Import Prelude Arrays State Bitmap Machine Disk Lru Vm.

(** ** NOFF headers (bin/noff.h) *)

Definition NOFFMAGIC : Z := 0xbadfad.
Definition UserStackSize : Z := 1024.

Record Segment := mkSegment { virtualAddr : Z; inFileAddr : Z; seg_size : Z }.
Record NoffHeader := mkNoff { noffMagic : Z; code : Segment; initData : Segment; uninitData : Segment }.

Definition sizeof_NoffHeader : Z := 40.

(** The fields of the bytes that were read into the struct. *)
Definition word_at (i : Z) (bs : list Z) : Z := s32 (le_val (slice (4 * i) 4 bs)).
Definition segment_at (i : Z) (bs : list Z) : Segment :=
  mkSegment (word_at i bs) (word_at (i + 1) bs) (word_at (i + 2) bs).
Definition header_of (bs : list Z) : NoffHeader :=
  mkNoff (word_at 0 bs) (segment_at 1 bs) (segment_at 4 bs) (segment_at 7 bs).

Definition SwapSegment (s : Segment) : Segment :=
  mkSegment (s32 (WordToHost (u32 (virtualAddr s)))) (s32 (WordToHost (u32 (inFileAddr s)))) (s32 (WordToHost (u32 (seg_size s)))).
Definition SwapHeader (h : NoffHeader) : NoffHeader :=
  mkNoff (s32 (WordToHost (u32 (noffMagic h)))) (SwapSegment (code h)) (SwapSegment (initData h)) (SwapSegment (uninitData h)).

(** [(float)n] for an int: 24 bits, ties to even. *)
Definition to_float (n : Z) : Z :=
  let a := Z.abs n in
  if a <? 2 ^ 24 then n
  else
    let e := Z.log2 a - 23 in
    let q := a / 2 ^ e in
    let r := a mod 2 ^ e in
    let h := 2 ^ (e - 1) in
    let q := if r <? h then q else if h <? r then q + 1 else if Z.even q then q else q + 1 in
    Z.sgn n * (q * 2 ^ e).

(** [ceil((float)n / PageSize)]: the division only changes the exponent. *)
Definition ceil_pages (n : Z) : Z := - (- to_float n / PageSize).

(** ** Loading *)

Section Load.
(** The executable, the new page table, its owner. *)
Context (exe : list Z) (table pid : Z).

(** [diskBuffer] is filled from the file; when the page is already in the
    swap file, its bytes are fetched into [buffer] and the new ones copied
    over them. *)
Definition ReadFile_chunk (vaddr fileAddr : Z) (buffer : list Z) : M VM (Z * list Z) :=
  let n := PageSize - Z.rem vaddr PageSize in
  bytes ← lift (stub_ReadAt n fileAddr exe);
  _ ← fill_diskBuffer bytes;
  let page := (table, Z.quot vaddr PageSize) in
  r ← GetPage page pid;
  db ← gets diskBuffer;
  bo ← (match r with
        | Some got =>
            buffer ← lift (bwrite 0 got buffer);
            chunk ← lift (bread 0 n db);
            buffer ← lift (bwrite (Z.rem vaddr PageSize) chunk buffer);
            ret (buffer, buffer)
        | None => ret (buffer, db)
        end);
  _ ← VM_AddPage page pid (snd bo) PageSize;
  ret (zlen bytes, fst bo).

Fixpoint ReadFile_loop (fuel : nat) (size vaddr bytes_read fileAddr : Z) (buffer : list Z) : M VM (option unit) :=
  if bytes_read <? size then
    match fuel with
    | O => ret None
    | S fuel =>
        r ← ReadFile_chunk vaddr fileAddr buffer;
        let '(read, buffer) := r in
        ReadFile_loop fuel size (s32 (vaddr + read)) (s32 (bytes_read + read)) (s32 (fileAddr + read)) buffer
    end
  else ret (Some tt).

(** [buffer] is the uninitialised array. *)
Definition ReadFile (fuel : nat) (buffer : list Z) (vaddr size fileAddr : Z) : M VM (option unit) :=
  ReadFile_loop fuel size vaddr 0 fileAddr buffer.

Definition load_segment (fuel : nat) (buffer : list Z) (s : Segment) : M VM (option unit) :=
  if 0 <? seg_size s then ReadFile fuel buffer (virtualAddr s) (seg_size s) (inFileAddr s)
  else ret (Some tt).

(** An entry of the new page table: nothing in memory. *)
Definition fresh_entry (i : Z) : TranslationEntry := mkTE i (-1) false false false false.
Definition fresh_table (numPages : Z) : list TranslationEntry := fresh_entry <$> seqZ 0 numPages.

(** [unsigned size] and [numPages]. *)
Definition image_size (h : NoffHeader) : Z :=
  u32 (s32 (s32 (s32 (seg_size (code h) + seg_size (initData h)) + seg_size (uninitData h)) + UserStackSize)).
Definition image_pages (h : NoffHeader) : Z := divRoundUp (image_size h) PageSize.

(** [for (int v = page; v < numPages; v++)]: the comparison is unsigned. *)
Definition reserve_rest (page numPages : Z) : M VM unit :=
  forM (Z.to_nat (numPages - u32 page)) page (fun v =>
    _ ← VM_AddPage_reserve (table, v) pid; ret tt).

(** The constructor after the PCB was made; [h0] is the uninitialised
    header, [buf1] and [buf2] are the buffers of the two calls of
    ReadFile. *)
Definition AddrSpace_load (fuel : nat) (h0 buf1 buf2 : list Z) : M VM (option AddrSpace) :=
  bytes ← lift (stub_ReadAt sizeof_NoffHeader 0 exe);
  raw ← lift (bwrite 0 bytes h0);
  let h := header_of raw in
  let h := if negb (noffMagic h =? NOFFMAGIC) && (s32 (WordToHost (u32 (noffMagic h))) =? NOFFMAGIC) then SwapHeader h else h in
  _ ← assert (noffMagic h =? NOFFMAGIC);
  let numPages := image_pages h in
  _ ← modify (fun w => set_tables (<[table := fresh_table numPages]> (tables w)) w);
  r ← load_segment fuel buf1 (code h);
  match r with
  | None => ret None
  | Some _ =>
      r ← load_segment fuel buf2 (initData h);
      match r with
      | None => ret None
      | Some _ =>
          let page := ceil_pages (s32 (seg_size (code h) + seg_size (initData h))) in
          _ ← reserve_rest page numPages;
          ret (Some (mkAS table numPages pid))
      end
  end.
End Load.

(** ** Sharing a program *)

(** The constructor for a given table, after the PCB was made: each page
    gets a slot of the new process.  [buffer] is CopyPage's array. *)
Definition AddrSpace_from (buffer : list Z) (table page_count oldPID pid : Z) : M VM AddrSpace :=
  _ ← forM (Z.to_nat (u32 page_count)) 0 (fun i =>
    let p := (table, i) in
    e ← get_entry p;
    _ ← (if valid e then
           bytes ← read_memory (physicalPage e * PageSize) PageSize;
           _ ← VM_AddPage p pid bytes PageSize; ret tt
         else CopyPage buffer p oldPID pid);
    _ ← upd_entry p (set_valid false);
    upd_entry p (set_physicalPage (-1)));
  ret (mkAS table (u32 page_count) pid).

(** Duplicate copies the entries and takes a frame for each; the pcb of
    the copy is set by the caller. *)
Definition Duplicate (s : AddrSpace) (table : Z) : M VM AddrSpace :=
  _ ← modify (fun w => set_tables (<[table := replicate (Z.to_nat (as_numPages s)) (mkTE 0 0 false false false false)]> (tables w)) w);
  _ ← forM (Z.to_nat (as_numPages s)) 0 (fun i =>
    e ← get_entry (as_table s, i);
    f ← with_mem getPage;
    upd_entry (table, i) (fun _ => mkTE (virtualPage e) f (valid e) (readOnly e) (use e) (dirty e)));
  ret (mkAS table (as_numPages s) (as_pid s)).

(** ** Registers *)

Fixpoint clear_registers (n : nat) (i : Z) (m : Machine) : res Machine :=
  match n with
  | O => Ok m
  | S n => m ← WriteRegister i 0 m; clear_registers n (i + 1) m
  end.

Definition InitRegisters (s : AddrSpace) (m : Machine) : res Machine :=
  m ← clear_registers (Z.to_nat NumTotalRegs) 0 m;
  m ← WriteRegister PCReg 0 m;
  m ← WriteRegister NextPCReg 4 m;
  WriteRegister StackReg (s32 (u32 (as_numPages s * PageSize - 16))) m.
