(* ===== verification/LoaderSafe.v ===== *)
(** * Loading a program is correct

    What the constructor of AddrSpace leaves in the swap file, and when it
    comes back at all. *)

From stdpp Require Import base list numbers gmap.
From S2P Require Import Prelude Arrays State Bitmap Machine Disk Lru Vm VmSafe Loader.

(** ** A new slot *)

(** [w'] has one slot more than [w], for the entry [p] of [pid]. *)
Record slot_added (w w' : VM) (free : Z) (p : entry_ptr) (pid : Z) : Prop := {
  sa_memory : memory w' = memory w;
  sa_tables : tables w' = tables w;
  sa_frames : memManager w' = memManager w;
  sa_range : 0 <= free < SWAP_SIZE;
  sa_clear : bitat (swapMap (swapMgr w)) free = false;
  sa_wf : Bitmap.wf (swapMap (swapMgr w'));
  sa_nbits : numBits (swapMap (swapMgr w')) = SWAP_SIZE;
  sa_bits : forall j, 0 <= j -> bitat (swapMap (swapMgr w')) j = if j =? free then true else bitat (swapMap (swapMgr w)) j;
  sa_pids : PIDs (swapMgr w') = <[Z.to_nat free := pid]> (PIDs (swapMgr w));
  sa_entries : entries (swapMgr w') = <[Z.to_nat free := p]> (entries (swapMgr w));
  sa_bytes : Forall in_u8 (swapFile (swapMgr w'))
}.

Section Added.
Context (w w' : VM) (xs : list (entry_ptr * Z)) (free : Z) (p : entry_ptr) (pid : Z) (te : TranslationEntry).
Hypothesis Hpg : paged w xs None.
Hypothesis Hsa : slot_added w w' free p pid.
Hypothesis Hte : load_entry p w = Ok te.

Lemma load_entry_same q : load_entry q w' = load_entry q w.
Proof. unfold load_entry. by rewrite (sa_tables _ _ _ _ _ Hsa). Qed.

Lemma slot_added_iff j q o t : slot w' j q o t <-> (j = free /\ q = p /\ o = pid /\ t = te) \/ slot w j q o t.
Proof.
  pose proof (sa_range _ _ _ _ _ Hsa) as Hf. unfold slot. rewrite load_entry_same, (sa_pids _ _ _ _ _ Hsa), (sa_entries _ _ _ _ _ Hsa).
  split.
  - intros (Hr & Hb & P1 & E1 & T1). rewrite (sa_bits _ _ _ _ _ Hsa) in Hb by lia. destruct (Z.eqb_spec j free) as [->|Hne].
    + left. rewrite aget_insert_eq in P1 by (by rewrite (pg_pids _ _ _ Hpg)). rewrite aget_insert_eq in E1 by (by rewrite (pg_entries _ _ _ Hpg)).
      injection P1 as <-. injection E1 as <-. rewrite Hte in T1. injection T1 as <-. done.
    + right. rewrite aget_insert_ne in P1 by lia. rewrite aget_insert_ne in E1 by lia. done.
  - intros [(-> & -> & -> & ->)|(Hr & Hb & P1 & E1 & T1)].
    + split; [done|]. rewrite (sa_bits _ _ _ _ _ Hsa), Z.eqb_refl by lia. split; [done|].
      rewrite aget_insert_eq by (by rewrite (pg_pids _ _ _ Hpg)). rewrite aget_insert_eq by (by rewrite (pg_entries _ _ _ Hpg)). done.
    + assert (Hne : j <> free) by (intros ->; by rewrite (sa_clear _ _ _ _ _ Hsa) in Hb).
      split; [done|]. rewrite (sa_bits _ _ _ _ _ Hsa) by lia. rewrite (proj2 (Z.eqb_neq _ _) Hne). split; [done|].
      rewrite !aget_insert_ne by lia. done.
Qed.

Lemma paged_added : valid te = false -> (forall i o t, ~ slot w i p o t) ->
  (forall i q t, slot w i q pid t -> virtualPage t <> virtualPage te) -> paged w' xs None.
Proof.
  intros Hv Hnp Hnk. pose proof slot_added_iff as Hi. pose proof (sa_range _ _ _ _ _ Hsa) as Hf.
  assert (Hz : forall A (x : A) l, zlen (<[Z.to_nat free := x]> l) = zlen l) by (intros; unfold zlen; by rewrite length_insert).
  split; rewrite ?(sa_memory _ _ _ _ _ Hsa), ?(sa_frames _ _ _ _ _ Hsa), ?(sa_pids _ _ _ _ _ Hsa), ?(sa_entries _ _ _ _ _ Hsa), ?Hz;
    try apply Hpg; try apply Hsa.
  - intros j Hj Hb. destruct (decide (j = free)) as [->|Hne]; [exists p, pid, te; apply Hi; by left|].
    rewrite (sa_bits _ _ _ _ _ Hsa), (proj2 (Z.eqb_neq _ _) Hne) in Hb by lia.
    destruct (pg_used _ _ _ Hpg j Hj Hb) as (q & o & t & Hq). exists q, o, t. apply Hi. by right.
  - intros j o Hb Hp. pose proof (aget_Ok_inv _ _ _ Hp) as [Hr _]. rewrite (sa_bits _ _ _ _ _ Hsa) in Hb by lia.
    destruct (Z.eqb_spec j free) as [->|Hne]; [done|]. rewrite aget_insert_ne in Hp by lia. by apply (pg_free _ _ _ Hpg j).
  - intros i j q1 q2 o t u [(-> & -> & -> & ->)|H1]%Hi [(-> & -> & Ho & ->)|H2]%Hi E.
    + done.
    + by destruct (Hnk _ _ _ H2).
    + subst o. by destruct (Hnk _ _ _ H1).
    + by apply (pg_key _ _ _ Hpg _ _ _ _ _ _ _ H1 H2).
  - intros i j q o1 o2 t u [(-> & -> & -> & ->)|H1]%Hi [(-> & Hq & Ho & ->)|H2]%Hi.
    + done.
    + by destruct (Hnp _ _ _ H2).
    + subst q. by destruct (Hnp _ _ _ H1).
    + by apply (pg_owner _ _ _ Hpg _ _ _ _ _ _ _ H1 H2).
  - intros j q o t [(-> & -> & -> & ->)|H]%Hi Hvt; [congruence|]. by apply (pg_valid _ _ _ Hpg _ _ _ _ H).
  - intros q o Hin. destruct (pg_resident _ _ _ Hpg q o Hin) as (j & t & H & Hvt). exists j, t. split; [apply Hi; by right|done].
  - intros i j q1 q2 o1 o2 t u [(-> & -> & -> & ->)|H1]%Hi [(-> & -> & Ho & ->)|H2]%Hi; try congruence.
    by apply (pg_alone _ _ _ Hpg _ _ _ _ _ _ _ _ H1 H2).
  - intros f Hfr Hb. destruct (pg_taken _ _ _ Hpg f Hfr Hb) as [?|(j & q & o & t & H & Hvt)]; [by left|].
    right. exists j, q, o, t. split; [apply Hi; by right|done].
Qed.
End Added.

Lemma paged_set_file f w xs hole : paged w xs hole -> Forall in_u8 f ->
  paged (set_swapMgr (set_swapFile f (swapMgr w)) w) xs hole.
Proof. intros []. by split. Qed.

Lemma paged_set_diskBuffer b w xs hole : paged w xs hole -> paged (set_diskBuffer b w) xs hole.
Proof. intros []. by split. Qed.

(** The byte at the virtual address [a] of process [pid]. *)
Definition byte_at (w : VM) (pid a b : Z) : Prop :=
  exists bytes, page_of w pid (a / PageSize) bytes /\ bytes !! Z.to_nat (a mod PageSize) = Some b.

(** ** The pages of a process that is being loaded *)

Section Loading.
Context (exe : list Z) (table pid np : Z) (xs : list (entry_ptr * Z)).
Hypothesis Hpid : 0 <= pid.
Hypothesis Hnp : 0 <= np.

(** The slots of the new process are those of the pages [S] of its table,
    none of which is in memory; there are free slots for the others. *)
Record loading (w : VM) (S : gset Z) : Prop := {
  ld_paged : paged w xs None;
  ld_table : tables w !! table = Some (fresh_table np);
  ld_own : forall i q t, slot w i q pid t -> fst q = table;
  ld_only : forall i q o t, slot w i q o t -> fst q = table -> o = pid;
  ld_present : forall v, v ∈ S <-> 0 <= v < np /\ exists i, slot w i (table, v) pid (fresh_entry v);
  ld_room : np <= zlen (clear_bits (swapMap (swapMgr w))) + Z.of_nat (size S);
  ld_buffer : zlen (diskBuffer w) = PageSize;
  ld_bytes : Forall in_u8 (diskBuffer w)
}.

Lemma load_fresh w v : tables w !! table = Some (fresh_table np) -> 0 <= v < np -> load_entry (table, v) w = Ok (fresh_entry v).
Proof.
  intros Ht Hv. unfold load_entry. cbn [fst snd]. rewrite Ht. cbn [deref mbind res_bind]. apply aget_lookup; [lia|].
  unfold fresh_table. rewrite list_lookup_fmap, lookup_seqZ_lt by lia. cbn. f_equal. f_equal. lia.
Qed.

(** A slot of the process is that of an entry of its table. *)
Lemma loading_slot w S i q t : loading w S -> slot w i q pid t -> exists v, q = (table, v) /\ 0 <= v < np /\ t = fresh_entry v.
Proof.
  intros Hl Hs. pose proof (ld_own _ _ Hl _ _ _ Hs) as Hq. destruct q as [b v]. cbn in Hq. subst b. exists v. split; [done|].
  pose proof (slot_te Hs) as Ht. assert (Hv : 0 <= v < np).
  { unfold load_entry in Ht. cbn [fst snd] in Ht. rewrite (ld_table _ _ Hl) in Ht. cbn [deref mbind res_bind] in Ht.
    apply aget_Ok_inv in Ht as [Hr _]. unfold fresh_table, zlen in Hr. rewrite length_fmap, length_seqZ in Hr. lia. }
  split; [done|]. rewrite (load_fresh w v (ld_table _ _ Hl) Hv) in Ht. by injection Ht.
Qed.

Lemma size_lt_np (S : gset Z) v : (forall u, u ∈ S -> 0 <= u < np) -> v ∉ S -> 0 <= v < np -> Z.of_nat (size S) < np.
Proof.
  intros HS Hv Hr. assert (Hle : (size ({[v]} ∪ S : gset Z) <= size (list_to_set (seqZ 0 np) : gset Z))%nat).
  { apply subseteq_size. intros u [->%elem_of_singleton|Hu]%elem_of_union; apply elem_of_list_to_set, elem_of_seqZ; [lia|]. pose proof (HS u Hu). lia. }
  rewrite size_union, size_singleton, size_list_to_set, length_seqZ in Hle by (apply NoDup_seqZ || set_solver). lia.
Qed.

(** What stays: memory, tables, frames, the buffer, old slots and the
    contents of every slot but [i]. *)
Record kept_but (i : Z) (w w' : VM) : Prop := {
  kb_memory : memory w' = memory w;
  kb_policy : policy w' = policy w;
  kb_buffer : diskBuffer w' = diskBuffer w;
  kb_slot : forall j q o t, slot w j q o t -> slot w' j q o t;
  kb_disk : forall j, 0 <= j < SWAP_SIZE -> j <> i -> on_disk w j `prefix_of` on_disk w' j
}.

Lemma no_slot w S v : loading w S -> v ∉ S -> 0 <= v < np ->
  (forall i q t, slot w i q pid t -> virtualPage t <> v) /\ (forall i o t, ~ slot w i (table, v) o t).
Proof.
  intros Hl Hout Hv. split.
  - intros i q t H. destruct (loading_slot _ _ _ _ _ Hl H) as (u & -> & Hu & ->). cbn. intros ->. apply Hout, (ld_present _ _ Hl). eauto.
  - intros i o t H. pose proof (ld_only _ _ Hl _ _ _ _ H eq_refl) as ->.
    destruct (loading_slot _ _ _ _ _ Hl H) as (u & [= <-] & _ & ->). apply Hout, (ld_present _ _ Hl). eauto.
Qed.

(** Taking a slot for a page that has none. *)
Lemma run_take_slot w S v (Q : Z -> VM -> Prop) : loading w S -> v ∉ S -> 0 <= v < np ->
  (forall r w', loading w' ({[v]} ∪ S) -> kept_but r w w' -> swapFile (swapMgr w') = swapFile (swapMgr w) ->
     slot w' r (table, v) pid (fresh_entry v) -> (forall q o t, ~ slot w r q o t) -> Q r w') ->
  run_to (take_slot (table, v) pid) w Q.
Proof.
  intros Hl Hout Hv HQ. pose proof (load_fresh w v (ld_table _ _ Hl) Hv) as Hte. pose proof (ld_paged _ _ Hl) as Hpg.
  destruct (no_slot _ _ _ Hl Hout Hv) as [Hnk Hnp'].
  assert (Hsz : Z.of_nat (size S) < np) by (eapply size_lt_np; [|exact Hout|done]; intros u Hu; by destruct (proj1 (ld_present _ _ Hl u) Hu)).
  destruct (Find_spec _ (pg_map _ _ _ Hpg)) as (r & bm & EF & Hwf' & Hsp).
  assert (Hr : r <> -1).
  { intros Hr. apply (find_spec_clear _ _ _ Hsp) in Hr. pose proof (ld_room _ _ Hl) as H. rewrite Hr in H. change (zlen (@nil Z)) with 0 in H. lia. }
  pose proof (find_spec_clear_bits _ _ _ Hsp Hr) as Hcl. destruct Hsp as [[? _]|(Hrr & Hrb & _ & Hnb & Hbits)]; [done|].
  rewrite (pg_nslots _ _ _ Hpg) in Hrr, Hnb.
  unfold take_slot. step. step; [exact EF|]. cbn beta iota. step. rewrite (proj2 (Z.eqb_neq _ _) Hr).
  step; [apply aset_in_range; by rewrite (pg_entries _ _ _ Hpg)|]. step; [apply aset_in_range; by rewrite (pg_pids _ _ _ Hpg)|].
  step. step. set (w' := set_swapMgr _ (set_swapMgr _ w)).
  assert (Hsa : slot_added w w' r (table, v) pid) by (split; try done; apply Hpg).
  assert (Hi : forall j q o t, slot w' j q o t <-> (j = r /\ q = (table, v) /\ o = pid /\ t = fresh_entry v) \/ slot w j q o t)
    by (intros; by eapply slot_added_iff).
  apply HQ; [|split; try done|done|apply Hi; by left|intros q o t H; by rewrite (slot_bit H) in Hrb].
  - split; try apply Hl.
    + eapply (paged_added w w' xs r (table, v) pid (fresh_entry v) Hpg Hsa Hte); done.
    + intros j q t [(-> & -> & _)|H]%Hi; [done|]. by eapply (ld_own _ _ Hl).
    + intros j q o t [(-> & -> & -> & _)|H]%Hi; [done|]. by eapply (ld_only _ _ Hl).
    + intros u. rewrite elem_of_union, elem_of_singleton, (ld_present _ _ Hl u). split.
      * intros [->|(Hu & j & H)]; (split; [done|]); eexists; apply Hi; [left; done|by right].
      * intros (Hu & j & [(-> & [= ->] & _)|H]%Hi); [by left|right; eauto].
    + pose proof (ld_room _ _ Hl) as H. rewrite Hcl in H. cbn [swapMap set_swapMgr swapMgr w'].
      rewrite size_union, size_singleton by set_solver. unfold zlen in *. cbn [length] in H. lia.
  - intros j q o t H. apply Hi. by right.
Qed.

(** One page of bytes goes to a slot of the page [v]. *)
Lemma run_AddPage w S v buf (Q : option bool -> VM -> Prop) :
  loading w S -> 0 <= v < np -> zlen buf = PageSize -> Forall in_u8 buf ->
  (forall r w' i, loading w' ({[v]} ∪ S) -> kept_but i w w' -> slot w' i (table, v) pid (fresh_entry v) ->
     on_disk w' i = buf -> (forall q o t, slot w i q o t -> q = (table, v)) -> Q r w') ->
  run_to (VM_AddPage (table, v) pid buf PageSize) w Q.
Proof.
  intros Hl Hv Hb Hu8 HQ. pose proof (load_fresh w v (ld_table _ _ Hl) Hv) as Hte. pose proof (ld_paged _ _ Hl) as Hpg.
  unfold VM_AddPage, addPage. apply run_to_bind. eapply run_get_entry; [exact Hte|]. apply run_to_bind. eapply run_get_entry; [exact Hte|].
  cbn [virtualPage fresh_entry]. assert (Eb : slice 0 PageSize buf = buf) by (rewrite <-Hb; apply slice_all).
  assert (Hbr : bread 0 PageSize buf = Ok buf) by (rewrite bread_Ok, Eb; [done|done|done|lia]).
  assert (Hwrite : forall (w1 : VM) i A (m : M VM A) Q', loading w1 ({[v]} ∪ S) -> slot w1 i (table, v) pid (fresh_entry v) ->
    (forall w', loading w' ({[v]} ∪ S) -> kept_but i w1 w' -> slot w' i (table, v) pid (fresh_entry v) -> on_disk w' i = buf -> run_to m w' Q') ->
    run_to (_ ← swap_WriteAt buf (PageSize * i); m) w1 Q').
  { clear Hl Hpg Hte HQ. intros w1 i A m Q' Hl Hs Hm. pose proof (slot_range Hs) as Hr. pose proof (ld_paged _ _ Hl) as Hpg.
    destruct (stub_WriteAt_ok buf (PageSize * i) (swapFile (swapMgr w1))) as (f' & EW & B & S1 & S2); [change PageSize with 128; lia|done|apply Hpg|].
    unfold swap_WriteAt. step. step; [exact EW|]. step. apply Hm; [|split; try done|exact Hs|by rewrite Hb in S1].
    - destruct Hl. split; try done. by apply paged_set_file.
    - intros j Hj Hne. apply S2; [change PageSize with 128; lia|]. rewrite Hb. change PageSize with 128. lia. }
  destruct (decide (v ∈ S)) as [Hin|Hout].
  - destruct (proj1 (ld_present _ _ Hl v) Hin) as (_ & i & Hs).
    apply run_to_bind. eexists _, w. split; [by eapply (find_slot_ok w xs None Hpg pid i); [..|left]|]. step; [exact Hbr|]. cbn beta iota.
    apply Hwrite; [by replace ({[v]} ∪ S) with S by set_solver|exact Hs|]. intros w' Hl' Hk Hs' Hd. step. eapply HQ; eauto.
    intros q o t H. by destruct (slot_fun _ _ _ _ _ _ _ _ Hs H) as [<- _].
  - destruct (no_slot _ _ _ Hl Hout Hv) as [Hnk _].
    apply run_to_bind. eexists _, w. split; [by eapply (find_slot_none w xs None pid); [..|left]|]. step; [exact Hbr|]. cbn beta iota.
    apply run_to_bind. eapply run_take_slot; [done..|]. intros r w1 Hl1 Hk1 Hf1 Hs1 Hn1.
    apply Hwrite; [done..|]. intros w' Hl' Hk Hs' Hd. step. eapply HQ; eauto; [|intros q o t H; by apply Hn1 in H].
    destruct Hk1, Hk. split; try congruence; [auto|]. intros j Hj Hne. etrans; [by apply kb_disk0|by apply kb_disk1].
Qed.

Lemma kept_page_of i w w' v q vpn bytes : kept_but i w w' -> (forall q o t, slot w i q o t -> q = (table, v) /\ o = pid) ->
  q <> pid -> page_of w q vpn bytes -> page_of w' q vpn bytes.
Proof.
  intros Hk Hi Hq (j & p & t & Hs & Hv & H1 & H2). exists j, p, t. split; [by apply Hk|]. split; [done|].
  split; [unfold frame in *; by rewrite (kb_memory _ _ _ Hk)|]. intros E. etrans; [by apply H2|].
  apply (kb_disk _ _ _ Hk); [apply Hs|]. intros ->. by destruct (Hi _ _ _ Hs).
Qed.

Lemma kept_byte_at i w w' S v a b : loading w S -> kept_but i w w' -> (forall q o t, slot w i q o t -> q = (table, v)) ->
  a / PageSize <> v -> byte_at w pid a b -> byte_at w' pid a b.
Proof.
  intros Hl Hk Hi Ha (bytes & (j & p & t & Hs & Hv & H1 & H2) & Hb). exists bytes. split; [|done].
  exists j, p, t. split; [by apply Hk|]. split; [done|]. split; [unfold frame in *; by rewrite (kb_memory _ _ _ Hk)|].
  intros E. etrans; [by apply H2|]. apply (kb_disk _ _ _ Hk); [apply Hs|]. intros ->. pose proof (Hi _ _ _ Hs) as ->.
  destruct (loading_slot _ _ _ _ _ Hl Hs) as (u & [= <-] & _ & ->). by cbn in Hv.
Qed.

(** The bytes of the page just written. *)
Lemma new_byte_at i w v buf k b : slot w i (table, v) pid (fresh_entry v) -> on_disk w i = buf -> 0 <= k < PageSize ->
  buf !! Z.to_nat k = Some b -> byte_at w pid (v * PageSize + k) b.
Proof.
  intros Hs Hd Hk Hb. exists buf. rewrite Z.div_add_l, Z.div_small, Z.add_0_r by (done || lia).
  rewrite Z.add_comm, Z.mod_add, Z.mod_small by (done || lia). split; [|done].
  exists i, (table, v), (fresh_entry v). split; [done|]. split; [done|]. split; [done|]. intros _. by rewrite Hd.
Qed.

(** What the processes see when a step of the loader went from [w] to [w']. *)
Record loaded_more (w w' : VM) (vaddr : Z) (bytes : list Z) : Prop := {
  lm_memory : memory w' = memory w;
  lm_policy : policy w' = policy w;
  lm_new : forall k b, bytes !! k = Some b -> byte_at w' pid (vaddr + Z.of_nat k) b;
  lm_below : forall a b, a < vaddr -> byte_at w pid a b -> byte_at w' pid a b;
  lm_others : forall q vpn bs, q <> pid -> page_of w q vpn bs -> page_of w' q vpn bs
}.

Lemma loaded_more_of i w w' S v buf vaddr bytes :
  loading w S -> kept_but i w w' -> (forall q o t, slot w i q o t -> q = (table, v)) ->
  slot w' i (table, v) pid (fresh_entry v) -> on_disk w' i = buf -> 0 <= vaddr -> v = vaddr / PageSize ->
  (forall k b, bytes !! k = Some b -> vaddr mod PageSize + Z.of_nat k < PageSize /\ buf !! Z.to_nat (vaddr mod PageSize + Z.of_nat k) = Some b) ->
  (forall k b, 0 <= k < vaddr mod PageSize -> byte_at w pid (v * PageSize + k) b -> buf !! Z.to_nat k = Some b) ->
  loaded_more w w' vaddr bytes.
Proof.
  intros Hl Hk Hi Hs Hd Hva Hv Hnew Hold. change PageSize with 128 in *. pose proof (Z.mod_pos_bound vaddr 128 ltac:(lia)) as Hm.
  pose proof (Z.div_mod vaddr 128 ltac:(lia)) as Hdm. split; [apply Hk|apply Hk| | |].
  - intros k b Hb. destruct (Hnew k b Hb) as [Hlt Hb'].
    replace (vaddr + Z.of_nat k) with (v * 128 + (vaddr mod 128 + Z.of_nat k)) by lia.
    eapply (new_byte_at i); change PageSize with 128; try done. lia.
  - intros a b Ha Hb. destruct (decide (a / 128 = v)) as [E|E]; [|by eapply (kept_byte_at i w w' S v)].
    pose proof (Z.div_mod a 128 ltac:(lia)) as Hda. pose proof (Z.mod_pos_bound a 128 ltac:(lia)) as Hma. rewrite E in Hda.
    replace a with (v * 128 + a mod 128) in Hb |- * by lia. eapply (new_byte_at i); change PageSize with 128; try done. apply Hold; [lia|done].
  - intros q vpn bs Hq. eapply (kept_page_of i w w' v); [done| |done]. intros q' o t H. pose proof (Hi _ _ _ H) as ->. split; [done|].
    by eapply (ld_only _ _ Hl).
Qed.

(** ** ReadFile *)

Lemma slice_prefix_slices {A} off n m (l : list A) : 0 <= off ->
  slice off n l `prefix_of` slice off m l ++ slice (off + zlen (slice off m l)) (n - zlen (slice off m l)) l.
Proof.
  intros Ho. unfold slice, zlen. rewrite Z2Nat.inj_add, Nat2Z.id, <-drop_drop by lia. set (d := drop (Z.to_nat off) l).
  set (r := length (take (Z.to_nat m) d)). assert (E : take (Z.to_nat m) d = take r d).
  { unfold r. rewrite length_take. destruct (Nat.le_ge_cases (Z.to_nat m) (length d)); [by rewrite Nat.min_l|rewrite Nat.min_r, !take_ge by lia; done]. }
  rewrite E. replace (Z.to_nat (n - Z.of_nat r)) with (Z.to_nat n - r)%nat by lia.
  destruct (Nat.le_ge_cases (Z.to_nat n) r) as [H|H].
  - apply prefix_app_r. replace (take (Z.to_nat n) d) with (take (Z.to_nat n) (take r d)) by (rewrite take_take; f_equal; lia). apply prefix_take.
  - rewrite take_take_drop. by replace (r + (Z.to_nat n - r))%nat with (Z.to_nat n) by lia.
Qed.

Hypothesis Hexe : Forall in_u8 exe.

Lemma loading_fill w S b : loading w S -> zlen b = PageSize -> Forall in_u8 b -> loading (set_diskBuffer b w) S.
Proof. intros [] Hb Hb8. split; try done. by apply paged_set_diskBuffer. Qed.

Lemma loaded_more_fill w w' b vaddr bytes : loaded_more (set_diskBuffer b w) w' vaddr bytes -> loaded_more w w' vaddr bytes.
Proof. intros []. by split. Qed.

Lemma zlen_slice_le {A} off n (l : list A) : 0 <= n -> zlen (slice off n l) <= n.
Proof. intros. unfold slice, zlen. rewrite length_take. lia. Qed.

(** The bytes of the page that is in a slot, or [None]. *)
Lemma run_GetPage w S v (Q : option (list Z) -> VM -> Prop) : loading w S -> 0 <= v < np ->
  (v ∉ S -> Q None w) ->
  (forall i, v ∈ S -> slot w i (table, v) pid (fresh_entry v) -> Q (Some (on_disk w i)) w) ->
  run_to (GetPage (table, v) pid) w Q.
Proof.
  intros Hl Hv HN HS. pose proof (load_fresh w v (ld_table _ _ Hl) Hv) as Hte. pose proof (ld_paged _ _ Hl) as Hpg.
  unfold GetPage. apply run_to_bind. eapply run_get_entry; [exact Hte|]. apply run_to_bind. cbn [virtualPage fresh_entry].
  destruct (decide (v ∈ S)) as [Hin|Hout].
  - destruct (proj1 (ld_present _ _ Hl v) Hin) as (_ & i & Hs).
    apply (run_findPage w xs None Hpg pid i (table, v) (fresh_entry v)); [done|done|]. step. by apply HS.
  - unfold findPage. apply run_to_bind. eexists _, w. split.
    + eapply (find_slot_none w xs None pid v); [exact Hpg|done|by eapply no_slot|by left].
    + cbn beta iota. step. step. by apply HN.
Qed.

Lemma run_chunk w S vaddr fileAddr buffer (Q : Z * list Z -> VM -> Prop) :
  loading w S -> 0 <= vaddr -> vaddr / PageSize < np -> 0 <= fileAddr ->
  (vaddr / PageSize ∈ S \/ vaddr mod PageSize = 0) -> zlen buffer = PageSize -> Forall in_u8 buffer ->
  (forall w' buffer' bytes, bytes = slice fileAddr (PageSize - vaddr mod PageSize) exe ->
     loading w' ({[vaddr / PageSize]} ∪ S) -> loaded_more w w' vaddr bytes ->
     zlen buffer' = PageSize -> Forall in_u8 buffer' -> Q (zlen bytes, buffer') w') ->
  run_to (ReadFile_chunk exe table pid vaddr fileAddr buffer) w Q.
Proof.
  intros Hl Hva Hv Hfa Hal Hbuf Hbuf8 HQ. unfold ReadFile_chunk. change PageSize with 128 in *.
  rewrite Z.rem_mod_nonneg, Z.quot_div_nonneg by lia. set (v := vaddr / 128) in *. set (o := vaddr mod 128) in *.
  pose proof (Z.mod_pos_bound vaddr 128 ltac:(lia)) as Ho. fold o in Ho. assert (Hv0 : 0 <= v) by (apply Z.div_pos; lia).
  set (bytes := slice fileAddr (128 - o) exe) in *. assert (Hbl : zlen bytes <= 128 - o) by (apply zlen_slice_le; lia).
  assert (Hb8 : Forall in_u8 bytes) by by apply Forall_slice.
  step. { unfold stub_ReadAt. rewrite ASSERT_true by lia. reflexivity. } cbn beta. fold bytes.
  pose proof (ld_buffer _ _ Hl) as Hdb. change PageSize with 128 in Hdb. set (db := splice 0 bytes (diskBuffer w)).
  assert (Hdbl : zlen db = 128) by (unfold db; rewrite zlen_splice; lia).
  assert (Hdb8 : Forall in_u8 db) by (apply Forall_splice; [done|apply Hl]).
  assert (Hdbk : forall k b, bytes !! k = Some b -> db !! k = Some b).
  { intros k b Hk. pose proof (lookup_lt_Some _ _ _ Hk) as Hlt. unfold db. rewrite splice_lookup by lia.
    rewrite decide_True by (unfold zlen; lia). by rewrite Nat.sub_0_r. }
  unfold fill_diskBuffer. step. step; [apply bwrite_Ok; lia|]. fold db. step.
  pose proof (loading_fill w S db Hl Hdbl Hdb8) as Hl1. set (w1 := set_diskBuffer db w) in *.
  apply run_to_bind, (run_GetPage w1 S v); [exact Hl1|lia| |].
  - intros Hout. destruct Hal as [?|Hal]; [done|]. step. step. step.
    apply (run_AddPage w1 S v); [done|lia|done|done|]. intros r w' i Hl' Hk Hs Hd Hi. step.
    apply HQ; [done|done| |done|done]. apply (loaded_more_fill w w' db).
    eapply (loaded_more_of i w1 w' S v db); try done.
    + change PageSize with 128. fold o. rewrite Hal. intros k b Hk1. pose proof (lookup_lt_Some _ _ _ Hk1). split; [unfold zlen in Hbl; lia|].
      rewrite Z.add_0_l, Nat2Z.id. by apply Hdbk.
    + change PageSize with 128. fold o. lia.
  - intros i Hin Hs. step. pose proof (zlen_on_disk w1 i) as Hdl. change PageSize with 128 in Hdl.
    set (b1 := splice 0 (on_disk w1 i) buffer). assert (Hb1 : zlen b1 = 128) by (unfold b1; rewrite zlen_splice; lia).
    set (chunk := slice 0 (128 - o) db). assert (Hcl : zlen chunk = 128 - o) by (apply zlen_slice; lia).
    set (b2 := splice o chunk b1). assert (Hb2 : zlen b2 = 128) by (unfold b2; rewrite zlen_splice; lia).
    assert (Hb28 : Forall in_u8 b2).
    { apply Forall_splice; [by apply Forall_slice|]. apply Forall_splice; [|done]. apply Forall_slice, (ld_paged _ _ Hl1). }
    change (diskBuffer w1) with db. step; [apply bwrite_Ok; lia|]. cbn beta. fold b1.
    step; [apply bread_Ok; lia|]. cbn beta. fold chunk. step; [apply bwrite_Ok; lia|]. cbn beta. fold b2. step. step.
    apply (run_AddPage w1 S v); [done|lia|done|done|]. intros r w' i' Hl' Hk Hs' Hd Hi. step.
    apply HQ; [done|done| |done|done]. apply (loaded_more_fill w w' db).
    assert (Hii : i' = i).
    { assert (Hs2 : slot w' i (table, v) pid (fresh_entry v)) by by apply Hk. by apply (pg_owner _ _ _ (ld_paged _ _ Hl') _ _ _ _ _ _ _ Hs' Hs2). }
    eapply (loaded_more_of i' w1 w' S v b2); try done.
    + change PageSize with 128. fold o. intros k b Hk1. pose proof (lookup_lt_Some _ _ _ Hk1) as Hlt. unfold zlen in Hbl. split; [lia|].
      unfold b2. rewrite splice_lookup by lia. rewrite decide_True by lia. replace (Z.to_nat (o + Z.of_nat k) - Z.to_nat o)%nat with k by lia.
      unfold chunk. rewrite slice_lookup by lia. rewrite decide_True by lia. by apply Hdbk.
    + change PageSize with 128. fold o. intros k b Hk1 (bs & (j & p & t & Hsj & Hvp & _ & H2) & Hb).
      change PageSize with 128 in Hb, Hvp. rewrite Z.add_comm, Z.mod_add, Z.mod_small in Hb by lia. rewrite Z.div_add_l, Z.div_small, Z.add_0_r in Hvp by lia.
      destruct (loading_slot _ _ _ _ _ Hl1 Hsj) as (u & -> & Hu & ->). cbn in Hvp. subst u.
      pose proof (pg_owner _ _ _ (ld_paged _ _ Hl1) _ _ _ _ _ _ _ Hsj Hs) as ->.
      pose proof (prefix_lookup_Some _ _ _ _ Hb (H2 eq_refl)) as Hb'. pose proof (lookup_lt_Some _ _ _ Hb') as Hlt.
      unfold b2. rewrite splice_lookup by lia. rewrite decide_False by lia. unfold b1. rewrite splice_lookup by lia.
      rewrite decide_True by (unfold zlen; lia). by replace (Z.to_nat k - Z.to_nat 0)%nat with (Z.to_nat k) by lia.
Qed.

Lemma loaded_more_refl w vaddr : loaded_more w w vaddr [].
Proof. by split. Qed.

Lemma loaded_more_app w w1 w2 vaddr b1 b2 :
  loaded_more w w1 vaddr b1 -> loaded_more w1 w2 (vaddr + zlen b1) b2 -> loaded_more w w2 vaddr (b1 ++ b2).
Proof.
  intros [M1 P1 N1 L1 O1] [M2 P2 N2 L2 O2]. unfold zlen in *. split; try congruence; auto.
  - intros k b Hk. apply lookup_app_Some in Hk as [Hk|[Hk1 Hk]].
    + apply L2; [|by apply N1]. apply lookup_lt_Some in Hk. lia.
    + apply N2 in Hk. by replace (vaddr + Z.of_nat k) with (vaddr + Z.of_nat (length b1) + Z.of_nat (k - length b1)) by lia.
  - intros a b Ha Hb. apply L2; [lia|auto].
Qed.

Lemma loaded_more_prefix w w' vaddr b1 b2 : b1 `prefix_of` b2 -> loaded_more w w' vaddr b2 -> loaded_more w w' vaddr b1.
Proof. intros Hp []. split; try done. intros k b Hk. apply lm_new0. by eapply prefix_lookup_Some. Qed.

(** Where the loop is: [n] bytes are left. *)
Record reading (S : gset Z) (size vaddr got fileAddr : Z) (buffer : list Z) : Prop := {
  rd_vaddr : 0 <= vaddr;
  rd_file : 0 <= fileAddr;
  rd_got : 0 <= got <= size + PageSize;
  rd_pages : vaddr + (size - got) <= np * PageSize;
  rd_ints : got < size -> vaddr + (size - got) + PageSize < 2 ^ 31 /\ fileAddr + (size - got) + PageSize < 2 ^ 31 /\ size + 2 * PageSize < 2 ^ 31;
  rd_aligned : vaddr / PageSize ∈ S \/ vaddr mod PageSize = 0 \/ size <= got;
  rd_buffer : zlen buffer = PageSize;
  rd_bytes : Forall in_u8 buffer
}.

Lemma slice_full_or_end fileAddr n : 0 <= fileAddr -> 0 <= n ->
  zlen (slice fileAddr n exe) = Z.min n (Z.max 0 (zlen exe - fileAddr)).
Proof. intros. unfold slice, zlen. rewrite length_take, length_drop. lia. Qed.

(** One turn of the loop. *)
Lemma run_turn w S size vaddr got fileAddr buffer (Q : Z * list Z -> VM -> Prop) :
  loading w S -> reading S size vaddr got fileAddr buffer -> got < size ->
  (forall w' buffer' bytes, bytes = slice fileAddr (PageSize - vaddr mod PageSize) exe ->
     loading w' ({[vaddr / PageSize]} ∪ S) -> loaded_more w w' vaddr bytes ->
     reading ({[vaddr / PageSize]} ∪ S) size (vaddr + zlen bytes) (got + zlen bytes) (fileAddr + zlen bytes) buffer' ->
     s32 (vaddr + zlen bytes) = vaddr + zlen bytes -> s32 (got + zlen bytes) = got + zlen bytes ->
     s32 (fileAddr + zlen bytes) = fileAddr + zlen bytes -> Q (zlen bytes, buffer') w') ->
  run_to (ReadFile_chunk exe table pid vaddr fileAddr buffer) w Q.
Proof.
  intros Hl [H1 H2 H3 H4 H5 H8 H9 H10] Hlt HQ. destruct (H5 Hlt) as (H5' & H6 & H7). change PageSize with 128 in *.
  pose proof (Z.div_mod vaddr 128 ltac:(lia)) as Hdm. pose proof (Z.mod_pos_bound vaddr 128 ltac:(lia)) as Hm.
  apply (run_chunk w S); change PageSize with 128; try done; [nia|destruct H8 as [?|[?|?]]; [auto|auto|lia]|].
  intros w' buffer' bytes Eb Hl' Hlm Hbl Hb8. subst bytes. set (bytes := slice _ _ exe) in *.
  assert (Hz : 0 <= zlen bytes <= 128 - vaddr mod 128) by (unfold bytes; rewrite slice_full_or_end; lia).
  apply HQ; try done; try (apply s32_id; split; lia). split; try done; change PageSize with 128; try lia.
  destruct (decide (zlen bytes = 128 - vaddr mod 128)) as [E|E].
  - right. left. rewrite E. replace (vaddr + (128 - vaddr mod 128)) with (0 + (vaddr / 128 + 1) * 128) by lia. by rewrite Z.mod_add.
  - left. assert ((vaddr + zlen bytes) / 128 = vaddr / 128) as ->; [|set_solver].
    symmetry. apply (Z.div_unique _ _ _ (vaddr mod 128 + zlen bytes)); lia.
Qed.

(** ReadFile comes back when the file has the bytes. *)
Lemma run_ReadFile_loop fuel w S size vaddr got fileAddr buffer (Q : option unit -> VM -> Prop) :
  loading w S -> reading S size vaddr got fileAddr buffer ->
  fileAddr + (size - got) <= zlen exe -> size - got <= Z.of_nat fuel ->
  (forall w' S', loading w' S' -> S ⊆ S' -> loaded_more w w' vaddr (slice fileAddr (size - got) exe) ->
     (forall v, got < size -> vaddr / PageSize <= v -> v * PageSize < vaddr + (size - got) -> v ∈ S') -> Q (Some tt) w') ->
  run_to (ReadFile_loop exe table pid fuel size vaddr got fileAddr buffer) w Q.
Proof.
  revert w S vaddr got fileAddr buffer. induction fuel as [|fuel IH]; intros w S vaddr got fileAddr buffer Hl Hrd Hend Hfuel HQ; cbn [ReadFile_loop].
  - rewrite (proj2 (Z.ltb_ge _ _)) by lia. step. apply (HQ w S); [done|done| |].
    + unfold slice. rewrite (Z2Nat.nonpos (size - got)) by lia. rewrite take_0. apply loaded_more_refl.
    + lia.
  - destruct (Z.ltb_spec got size) as [Hlt|Hge].
    + apply run_to_bind, (run_turn w S size vaddr got fileAddr buffer); [done..|].
      intros w1 buffer1 bytes Eb Hl1 Hlm Hrd1 -> -> ->. cbn beta iota.
      pose proof (rd_vaddr _ _ _ _ _ _ Hrd) as Hva. pose proof (rd_file _ _ _ _ _ _ Hrd) as Hfa.
      change PageSize with 128 in *. pose proof (Z.div_mod vaddr 128 ltac:(lia)) as Hdm. pose proof (Z.mod_pos_bound vaddr 128 ltac:(lia)) as Hm.
      assert (Hz : zlen bytes = Z.min (128 - vaddr mod 128) (zlen exe - fileAddr)) by (rewrite Eb, slice_full_or_end; lia).
      apply (IH w1 _ _ _ _ _ Hl1 Hrd1); [lia|lia|]. intros w' S' Hl' HS Hlm' Hpg. apply (HQ w' S' Hl'); [set_solver| |].
      * eapply loaded_more_prefix; [|by eapply loaded_more_app]. subst bytes. replace (size - (got + _)) with (size - got - zlen (slice fileAddr (128 - vaddr mod 128) exe)) by lia.
        by apply slice_prefix_slices.
      * intros v _ Hv1 Hv2. change PageSize with 128 in *. destruct (decide (v = vaddr / 128)) as [->|Hne]; [set_solver|].
        apply Hpg; [lia| |lia]. assert (zlen bytes = 128 - vaddr mod 128 \/ zlen bytes < 128 - vaddr mod 128) as [E|E] by lia.
        -- rewrite E. replace (vaddr + (128 - vaddr mod 128)) with ((vaddr / 128 + 1) * 128) by lia. rewrite Z.div_mul by lia. lia.
        -- assert ((vaddr + zlen bytes) / 128 <= vaddr / 128) by (apply Z.lt_succ_r, Z.div_lt_upper_bound; lia). lia.
    + step. apply (HQ w S); [done|done| |].
      * unfold slice. rewrite (Z2Nat.nonpos (size - got)) by lia. rewrite take_0. apply loaded_more_refl.
      * lia.
Qed.

(** ReadFile never comes back when the file ends before: at the end of the
    file each turn reads nothing. *)
Lemma run_ReadFile_truncated fuel w S size vaddr got fileAddr buffer :
  loading w S -> reading S size vaddr got fileAddr buffer -> got < size ->
  zlen exe < fileAddr + (size - got) ->
  run_to (ReadFile_loop exe table pid fuel size vaddr got fileAddr buffer) w (fun o w' => o = None).
Proof.
  revert w S vaddr got fileAddr buffer. induction fuel as [|fuel IH]; intros w S vaddr got fileAddr buffer Hl Hrd Hlt Hend; cbn [ReadFile_loop];
    rewrite (proj2 (Z.ltb_lt _ _)) by lia; [by step|].
  apply run_to_bind, (run_turn w S size vaddr got fileAddr buffer); [done..|].
  intros w1 buffer1 bytes Eb Hl1 Hlm Hrd1 -> -> ->. cbn beta iota. pose proof (rd_file _ _ _ _ _ _ Hrd).
  change PageSize with 128 in *. pose proof (Z.mod_pos_bound vaddr 128 ltac:(lia)) as Hm.
  assert (Hz : zlen bytes = Z.min (128 - vaddr mod 128) (Z.max 0 (zlen exe - fileAddr))) by (rewrite Eb, slice_full_or_end; lia).
  apply (IH w1 _ _ _ _ _ Hl1 Hrd1); lia.
Qed.

(** ** The pages without contents *)

Lemma run_reserve w S v (Q : unit -> VM -> Prop) : loading w S -> 0 <= v < np ->
  (forall w', loading w' ({[v]} ∪ S) -> (forall a b, byte_at w pid a b -> byte_at w' pid a b) ->
     (forall q vpn bs, q <> pid -> page_of w q vpn bs -> page_of w' q vpn bs) -> policy w' = policy w -> Q tt w') ->
  run_to (_ ← VM_AddPage_reserve (table, v) pid; ret tt) w Q.
Proof.
  intros Hl Hv HQ. pose proof (load_fresh w v (ld_table _ _ Hl) Hv) as Hte. pose proof (ld_paged _ _ Hl) as Hpg.
  apply run_to_bind. unfold VM_AddPage_reserve, addPage_reserve. apply run_to_bind. eapply run_get_entry; [exact Hte|]. apply run_to_bind. eapply run_get_entry; [exact Hte|].
  cbn [virtualPage fresh_entry]. destruct (decide (v ∈ S)) as [Hin|Hout].
  - destruct (proj1 (ld_present _ _ Hl v) Hin) as (_ & i & Hs).
    apply run_to_bind. eexists _, w. split; [by eapply (find_slot_ok w xs None Hpg pid i); [..|left]|]. cbn beta iota. step. step.
    apply HQ; auto. by replace ({[v]} ∪ S) with S by set_solver.
  - destruct (no_slot _ _ _ Hl Hout Hv) as [Hnk _].
    apply run_to_bind. eexists _, w. split; [by eapply (find_slot_none w xs None pid); [..|left]|]. cbn beta iota.
    apply run_to_bind. eapply run_take_slot; [done..|]. intros r w1 Hl1 Hk1 Hf1 Hs1 Hn1. step. step. apply HQ; [done| | |by apply Hk1].
    + intros a b (bytes & (j & p & t & Hs & Hvp & H1 & H2) & Hb). exists bytes. split; [|done]. exists j, p, t. split; [by apply Hk1|]. split; [done|].
      split; [unfold frame in *; by rewrite (kb_memory _ _ _ Hk1)|]. intros E. etrans; [by apply H2|]. unfold on_disk. by rewrite Hf1.
    + intros q vpn bs Hq. eapply (kept_page_of r w w1 v); [done| |done]. intros q' o t H. by apply Hn1 in H.
Qed.

Lemma run_reserve_rest w S page (Q : unit -> VM -> Prop) : loading w S -> 0 <= page -> np < 2 ^ 31 -> page < 2 ^ 31 ->
  (forall w' S', loading w' S' -> S ⊆ S' -> (forall v, page <= v < np -> v ∈ S') ->
     (forall a b, byte_at w pid a b -> byte_at w' pid a b) ->
     (forall q vpn bs, q <> pid -> page_of w q vpn bs -> page_of w' q vpn bs) -> policy w' = policy w -> Q tt w') ->
  run_to (reserve_rest table pid page np) w Q.
Proof.
  intros Hl Hp Hn Hpn HQ. unfold reserve_rest. rewrite u32_id by (split; lia).
  set (P := fun (i : Z) (w' : VM) => exists S', loading w' S' /\ S ⊆ S' /\ (forall v, page <= v < i -> v ∈ S') /\
    (forall a b, byte_at w pid a b -> byte_at w' pid a b) /\
    (forall q vpn bs, q <> pid -> page_of w q vpn bs -> page_of w' q vpn bs) /\ policy w' = policy w).
  eapply run_to_mono; [apply (run_to_forM P)|].
  - exists S. split; [done|]. split; [done|]. split; [lia|]. auto.
  - intros j w1 Hj (S1 & Hl1 & HS & Hall & H1 & H2 & H3). apply (run_reserve w1 S1 j); [done|lia|].
    intros w2 Hl2 B2 O2 P2. exists ({[j]} ∪ S1). split; [done|]. split; [set_solver|]. split; [|split_and!; auto; congruence].
    intros v Hv. destruct (decide (v = j)) as [->|]; [set_solver|]. apply elem_of_union_r, Hall. lia.
  - intros [] w' (S' & Hl' & HS & Hall & H1 & H2 & H3). eapply HQ; eauto. intros v Hv. apply Hall. lia.
Qed.
End Loading.

(** ** The constructor *)

Definition header (exe : list Z) : NoffHeader := header_of (slice 0 sizeof_NoffHeader exe).

(** An executable as the linker makes it: code from address 0, initialised
    data behind it, both in the file; and not too big for an int. *)
Record noff_ok (exe : list Z) : Prop := {
  no_bytes : Forall in_u8 exe;
  no_length : sizeof_NoffHeader <= zlen exe < 2 ^ 31 - 2 * PageSize;
  no_magic : noffMagic (header exe) = NOFFMAGIC;
  no_sizes : 0 <= seg_size (code (header exe)) /\ 0 <= seg_size (initData (header exe)) /\ 0 <= seg_size (uninitData (header exe));
  no_total : seg_size (code (header exe)) + seg_size (initData (header exe)) + seg_size (uninitData (header exe)) + UserStackSize < 2 ^ 31 - 2 * PageSize;
  no_code : 0 < seg_size (code (header exe)) -> virtualAddr (code (header exe)) = 0 /\ 0 <= inFileAddr (code (header exe)) /\
    inFileAddr (code (header exe)) + seg_size (code (header exe)) <= zlen exe;
  no_data : 0 < seg_size (initData (header exe)) -> virtualAddr (initData (header exe)) = seg_size (code (header exe)) /\ 0 <= inFileAddr (initData (header exe)) /\
    inFileAddr (initData (header exe)) + seg_size (initData (header exe)) <= zlen exe
}.

Definition segment_bytes (exe : list Z) (s : Segment) : list Z := slice (inFileAddr s) (seg_size s) exe.

Lemma image_pages_bounds exe : noff_ok exe ->
  let n := seg_size (code (header exe)) + seg_size (initData (header exe)) in
  0 <= image_pages (header exe) < 2 ^ 24 /\ n + UserStackSize <= image_pages (header exe) * PageSize.
Proof.
  intros [_ _ _ (H1 & H2 & H3) H4 _ _]. unfold image_pages, image_size, UserStackSize in *. change PageSize with 128 in *.
  rewrite (s32_id (seg_size _ + seg_size _)) by (split; lia). rewrite (s32_id (_ + seg_size _)) by (split; lia).
  rewrite s32_id by (split; lia). rewrite u32_id by (split; lia).
  pose proof (divRoundUp_spec (seg_size (code (header exe)) + seg_size (initData (header exe)) + seg_size (uninitData (header exe)) + 1024) 128 ltac:(lia) ltac:(lia)). lia.
Qed.

Lemma ceil_pages_spec n : 0 <= n < 2 ^ 24 -> 0 <= ceil_pages n /\ (forall v, v < ceil_pages n -> v * PageSize < n) /\ n <= ceil_pages n * PageSize.
Proof.
  intros Hn. unfold ceil_pages, to_float. rewrite Z.abs_eq by lia. rewrite (proj2 (Z.ltb_lt _ _)) by lia. change PageSize with 128.
  pose proof (Z.div_mod (- n) 128 ltac:(lia)). pose proof (Z.mod_pos_bound (- n) 128 ltac:(lia)). split; [lia|]. split; [intros v Hv; lia|lia].
Qed.

Section Constructor.
Context (exe : list Z) (table pid : Z) (xs : list (entry_ptr * Z)).
Hypothesis Hpid : 0 <= pid.
Hypothesis Hno : noff_ok exe.
Notation h := (header exe).
Notation np := (image_pages h).
Notation loading := (loading table pid np xs).
Notation loaded_more := (loaded_more pid).

Lemma np_nonneg : 0 <= np.
Proof. destruct (image_pages_bounds exe Hno) as [H _]. lia. Qed.

(** One segment: its first page is there or begins with it. *)
Lemma run_segment w S fuel buffer s (Q : option unit -> VM -> Prop) : loading w S ->
  0 <= seg_size s ->
  (0 < seg_size s -> virtualAddr s + seg_size s <= np * PageSize /\ virtualAddr s + seg_size s + 2 * PageSize < 2 ^ 31 /\
    0 <= virtualAddr s /\ 0 <= inFileAddr s /\ inFileAddr s + seg_size s <= zlen exe /\
    (virtualAddr s / PageSize ∈ S \/ virtualAddr s mod PageSize = 0)) ->
  zlen buffer = PageSize -> Forall in_u8 buffer -> seg_size s <= Z.of_nat fuel ->
  (forall w' S', loading w' S' -> S ⊆ S' -> loaded_more w w' (virtualAddr s) (segment_bytes exe s) ->
     (forall v, 0 < seg_size s -> virtualAddr s / PageSize <= v -> v * PageSize < virtualAddr s + seg_size s -> v ∈ S') ->
     (seg_size s = 0 -> w' = w) -> Q (Some tt) w') ->
  run_to (load_segment exe table pid fuel buffer s) w Q.
Proof.
  intros Hl Hsz Hpos Hbuf Hb8 Hfuel HQ. unfold load_segment, segment_bytes in *. destruct (Z.ltb_spec 0 (seg_size s)) as [Hlt|Hge].
  - destruct (Hpos Hlt) as (Hpg & Hint & H1 & H2 & H3 & H4). pose proof (no_length _ Hno) as Hlen. unfold ReadFile.
    eapply (run_ReadFile_loop exe table pid np xs Hpid np_nonneg (no_bytes _ Hno) fuel w S); [done| |lia|lia|].
    + change PageSize with 128 in *. split; change PageSize with 128; try done; try lia. destruct H4; auto.
    + rewrite Z.sub_0_r. intros w' S' Hl' HS Hlm Hall. eapply HQ; eauto. lia.
  - step. eapply HQ; [done|done| |lia|done]. replace (seg_size s) with 0 by lia. apply loaded_more_refl.
Qed.

Lemma run_load w fuel h0 buf1 buf2 : paged w xs None -> tables w !! table = None ->
  (forall i q t, ~ slot w i q pid t) -> zlen (diskBuffer w) = PageSize -> Forall in_u8 (diskBuffer w) ->
  np <= zlen (clear_bits (swapMap (swapMgr w))) ->
  zlen h0 = sizeof_NoffHeader -> zlen buf1 = PageSize -> Forall in_u8 buf1 -> zlen buf2 = PageSize -> Forall in_u8 buf2 ->
  seg_size (code h) + seg_size (initData h) <= Z.of_nat fuel ->
  run_to (AddrSpace_load exe table pid fuel h0 buf1 buf2) w (fun r w' =>
    r = Some (mkAS table np pid) /\ policy w' = policy w /\ exists S, loading w' S /\ (forall v, 0 <= v < np -> v ∈ S) /\
    (forall k b, segment_bytes exe (code h) !! k = Some b -> byte_at w' pid (Z.of_nat k) b) /\
    (forall k b, segment_bytes exe (initData h) !! k = Some b -> byte_at w' pid (seg_size (code h) + Z.of_nat k) b) /\
    (forall q vpn bs, q <> pid -> page_of w q vpn bs -> page_of w' q vpn bs)).
Proof.
  intros Hpg Ht Hns Hdb Hdb8 Hroom Hh0 Hb1 Hb18 Hb2 Hb28 Hfuel. destruct (image_pages_bounds exe Hno) as [Hnp Htot].
  pose proof Hno as [Hex8 Hlen Hmg (Hs1 & Hs2 & Hs3) Htotal Hcode Hdata]. unfold UserStackSize, sizeof_NoffHeader in *.
  unfold AddrSpace_load. step. { unfold stub_ReadAt. rewrite ASSERT_true by done. reflexivity. } cbn beta.
  assert (Hhl : zlen (slice 0 40 exe) = 40) by (apply zlen_slice; lia).
  step; [apply bwrite_Ok; unfold sizeof_NoffHeader; [done|rewrite Hhl; lia]|]. cbn beta. unfold sizeof_NoffHeader.
  assert (Eh : splice 0 (slice 0 40 exe) h0 = slice 0 40 exe).
  { unfold splice. rewrite Nat.add_0_l, drop_ge; [by rewrite app_nil_r|]. unfold zlen in *. lia. }
  rewrite Eh. change (header_of (slice 0 40 exe)) with h. rewrite Hmg, Z.eqb_refl. cbn [negb andb].
  step; [by rewrite Hmg|]. step. set (w0 := set_tables _ w).
  assert (Hsl : forall i q o t, slot w0 i q o t <-> slot w i q o t).
  { intros i q o t. unfold slot. assert (E : forall t', load_entry q w0 = Ok t' /\ fst q <> table <-> load_entry q w = Ok t').
    { intros t'. unfold load_entry, w0. cbn [tables set_tables]. destruct (decide (fst q = table)) as [->|Hne].
      - rewrite Ht. split; [by intros []|done].
      - rewrite lookup_insert_ne by done. tauto. }
    split; intros (Hr & Hb & H1 & H2 & H3); do 4 (split; [done|]); [|by apply E in H3 as []].
    apply E. split; [done|]. intros Hq. destruct (pg_used _ _ _ Hpg i Hr Hb) as (q' & o' & u & Hu).
    pose proof (slot_entry Hu) as Hq'. change (entries (swapMgr w0)) with (entries (swapMgr w)) in H2. rewrite H2 in Hq'. injection Hq' as <-.
    pose proof (slot_te Hu) as Hte. unfold load_entry in Hte. by rewrite Hq, Ht in Hte. }
  assert (Hl0 : loading w0 ∅).
  { split; try done.
    - destruct Hpg. split; try done.
      + intros i Hi Hb. destruct (pg_used i Hi Hb) as (q & o & t & Hq). exists q, o, t. by apply Hsl.
      + intros i j p q o t u H1%Hsl H2%Hsl. by eapply pg_key.
      + intros i j p o o' t u H1%Hsl H2%Hsl. by eapply pg_owner.
      + intros i p o t H1%Hsl. by eapply pg_valid.
      + intros p o Hin. destruct (pg_resident p o Hin) as (i & t & H & Hv). exists i, t. split; [by apply Hsl|done].
      + intros i j p q o o' t u H1%Hsl H2%Hsl. by eapply pg_alone.
      + intros f Hf Hb. destruct (pg_taken f Hf Hb) as [?|(i & p & o & t & H & Hv)]; [by left|]. right. exists i, p, o, t. split; [by apply Hsl|done].
    - unfold w0. cbn [tables set_tables]. apply lookup_insert_eq.
    - intros i q t H%Hsl. by apply Hns in H.
    - intros i q o t H%Hsl Hq. pose proof (slot_te H) as Hte. unfold load_entry in Hte. by rewrite Hq, Ht in Hte.
    - intros v. split; [by intros ?%elem_of_empty|]. intros (_ & i & H%Hsl). by apply Hns in H.
    - cbn. rewrite size_empty. lia. }
  assert (Ho0 : forall q vpn bs, page_of w q vpn bs -> page_of w0 q vpn bs).
  { intros q vpn bs (i & p & t & Hs & Hv & Hh). exists i, p, t. split; [by apply Hsl|]. done. }
  apply run_to_bind, (run_segment w0 ∅); [done|done| |done|done|lia|].
  { intros Hc. destruct (Hcode Hc) as (-> & ? & ?). change PageSize with 128 in *. rewrite Z.mod_0_l by done. split_and!; lia. }
  intros w1 S1 Hl1 HS1 Hm1 Hp1 _. cbn beta iota.
  apply run_to_bind, (run_segment w1 S1); [done|done| |done|done|lia|].
  { intros Hd. destruct (Hdata Hd) as (-> & ? & ?). change PageSize with 128 in *. split_and!; try lia.
    destruct (Z.eq_dec (seg_size (code h) mod 128) 0) as [E|E]; [by right|]. left.
    pose proof (Z.div_mod (seg_size (code h)) 128 ltac:(lia)). pose proof (Z.mod_pos_bound (seg_size (code h)) 128 ltac:(lia)).
    destruct (Hcode ltac:(lia)) as (Ec & _). rewrite Ec in Hp1. apply Hp1; [|apply Z.div_pos|]; lia. }
  intros w2 S2 Hl2 HS2 Hm2 Hp2 Hz2. cbn beta iota.
  rewrite s32_id by (change PageSize with 128 in *; split; lia). destruct (ceil_pages_spec (seg_size (code h) + seg_size (initData h))) as (Hc0 & Hcv & Hce).
  { pose proof (zlen_clear_bits (swapMap (swapMgr w))) as Hc. rewrite (pg_nslots _ _ _ Hpg) in Hc. specialize (Hc ltac:(done)). unfold SWAP_SIZE in Hc.
    change PageSize with 128 in *. lia. }
  apply run_to_bind, (run_reserve_rest exe table pid np xs Hpid np_nonneg (no_bytes _ Hno) w2 S2); [done|done|lia| |].
  { pose proof (Hcv (ceil_pages (seg_size (code h) + seg_size (initData h)) - 1) ltac:(lia)). change PageSize with 128 in *. lia. }
  intros w3 S3 Hl3 HS3 Hp3 Hb3 Ho3 Hpol. step. split; [done|]. split; [by rewrite Hpol, (lm_policy _ _ _ _ _ Hm2), (lm_policy _ _ _ _ _ Hm1)|].
  exists S3. split; [done|]. split; [|split; [|split]].
  - intros v Hv. destruct (decide (v < ceil_pages (seg_size (code h) + seg_size (initData h)))) as [Hlt|Hge]; [|apply Hp3; lia].
    apply Hcv in Hlt. apply HS3. destruct (decide (v * PageSize < seg_size (code h))) as [Hc|Hc].
    + destruct (Hcode ltac:(change PageSize with 128 in *; lia)) as (E & _). rewrite E in Hp1. change PageSize with 128 in *. apply HS2, Hp1; [lia|rewrite Z.div_0_l by done; lia|lia].
    + destruct (Hdata ltac:(lia)) as (E & _). rewrite E in Hp2. apply Hp2; [lia| |lia]. change PageSize with 128 in *.
      apply Z.lt_succ_r, Z.div_lt_upper_bound; lia.
  - intros k b Hk. pose proof (lookup_lt_Some _ _ _ Hk) as Hlt. unfold segment_bytes, slice in Hlt. rewrite length_take in Hlt.
    destruct (Hcode ltac:(lia)) as (E & _). apply Hb3. pose proof (lm_new _ _ _ _ _ Hm1 k b Hk) as Hn. rewrite E, Z.add_0_l in Hn.
    destruct (Z.eq_dec (seg_size (initData h)) 0) as [Hz|Hz].
    + by rewrite (Hz2 Hz).
    + destruct (Hdata ltac:(lia)) as (Ed & _). apply (lm_below _ _ _ _ _ Hm2); [lia|done].
  - intros k b Hk. pose proof (lookup_lt_Some _ _ _ Hk) as Hlt. unfold segment_bytes, slice in Hlt. rewrite length_take in Hlt.
    destruct (Hdata ltac:(lia)) as (E & _). apply Hb3. pose proof (lm_new _ _ _ _ _ Hm2 k b Hk) as Hn. by rewrite E in Hn.
  - intros q vpn bs Hq Hpo. apply Ho3; [done|]. apply (lm_others _ _ _ _ _ Hm2); [done|]. apply (lm_others _ _ _ _ _ Hm1); [done|]. by apply Ho0.
Qed.
End Constructor.

(** ** The properties *)

(** C40: ReadFile returns exactly when the executable holds the bytes of
    the segment: then, with fuel for each byte, it comes back with the
    bytes in the pages of the process and the others' pages as they were;
    when the file ends before, no amount of fuel is enough. *)
Theorem ReadFile_terminates exe table pid np xs w S size vaddr fileAddr buffer :
  0 <= pid -> 0 <= np -> Forall in_u8 exe -> loading table pid np xs w S -> 0 < size ->
  reading np S size vaddr 0 fileAddr buffer ->
  (fileAddr + size <= zlen exe -> forall fuel, size <= Z.of_nat fuel -> exists w' S',
     ReadFile exe table pid fuel buffer vaddr size fileAddr w = Ok (Some tt, w') /\ loading table pid np xs w' S' /\
     loaded_more pid w w' vaddr (slice fileAddr size exe)) /\
  (zlen exe < fileAddr + size -> forall fuel, exists w',
     ReadFile exe table pid fuel buffer vaddr size fileAddr w = Ok (None, w')).
Proof.
  intros Hp Hn Hexe Hl Hs Hrd. unfold ReadFile. split.
  - intros Hend fuel Hf.
    assert (H : run_to (ReadFile_loop exe table pid fuel size vaddr 0 fileAddr buffer) w (fun o w' =>
      o = Some tt /\ exists S', loading table pid np xs w' S' /\ loaded_more pid w w' vaddr (slice fileAddr size exe))).
    { eapply (run_ReadFile_loop exe table pid np xs Hp Hn Hexe fuel w S); [done|done|lia|lia|].
      rewrite Z.sub_0_r. intros w' S' Hl' _ Hm _. eauto. }
    destruct H as (o & w' & E & -> & S' & Hl' & Hm). eauto.
  - intros Hend fuel. destruct (run_ReadFile_truncated exe table pid np xs Hp Hn Hexe fuel w S size vaddr 0 fileAddr buffer) as (o & w' & E & ->);
      [done|done|lia|lia|]. eauto.
Qed.

(** C33: the constructor loads a well-formed executable that fits in the
    free slots: it returns an address space of divRoundUp(size, PageSize)
    pages, none in memory and each with a slot in the swap file; every byte
    of the code and data segments is at its virtual address; the invariant
    of paging and every page of the other processes are kept. *)
Theorem AddrSpace_load_correct exe table pid xs w fuel h0 buf1 buf2 :
  noff_ok exe -> 0 <= pid -> vm_ok w xs -> tables w !! table = None -> (forall i q t, ~ slot w i q pid t) ->
  zlen (diskBuffer w) = PageSize -> Forall in_u8 (diskBuffer w) ->
  image_pages (header exe) <= zlen (clear_bits (swapMap (swapMgr w))) ->
  zlen h0 = sizeof_NoffHeader -> zlen buf1 = PageSize -> Forall in_u8 buf1 -> zlen buf2 = PageSize -> Forall in_u8 buf2 ->
  seg_size (code (header exe)) + seg_size (initData (header exe)) <= Z.of_nat fuel ->
  exists w', AddrSpace_load exe table pid fuel h0 buf1 buf2 w = Ok (Some (mkAS table (image_pages (header exe)) pid), w') /\
    vm_ok w' xs /\
    (forall v, 0 <= v < image_pages (header exe) -> exists i, slot w' i (table, v) pid (fresh_entry v)) /\
    (forall k b, segment_bytes exe (code (header exe)) !! k = Some b -> byte_at w' pid (Z.of_nat k) b) /\
    (forall k b, segment_bytes exe (initData (header exe)) !! k = Some b -> byte_at w' pid (seg_size (code (header exe)) + Z.of_nat k) b) /\
    (forall q vpn bs, q <> pid -> page_of w q vpn bs -> page_of w' q vpn bs).
Proof.
  intros Hno Hp [Hpg (ps & Hq)] Ht Hns Hdb Hdb8 Hroom Hh0 Hb1 Hb18 Hb2 Hb28 Hf.
  destruct (run_load exe table pid xs Hp Hno w fuel h0 buf1 buf2) as (r & w' & E & -> & Hpol & S & Hl & Hall & H1 & H2 & H3); [done..|].
  exists w'. split; [exact E|]. split; [split; [apply Hl|exists ps; by rewrite Hpol]|]. split_and!; try done.
  intros v Hv. by apply (ld_present _ _ _ _ _ _ Hl v), Hall.
Qed.

(** Six bytes of code and two of data. *)
Definition example_exe : list Z :=
  ([NOFFMAGIC; 0; 40; 6; 6; 46; 2; 8; 0; 4] ≫= le_bytes 4) ++ [1; 2; 3; 4; 5; 6; 7; 8].

Definition example_empty : VM := mkVM (replicate 8192 0) ∅ (mkMM (mkBitMap 32 1 [0]) 0 false)
  (mkSwap [] (mkBitMap 512 16 (replicate 16 0)) (replicate 512 (-1)) (replicate 512 (0, 0))) LRU_new [] [] (replicate 128 3).

Lemma example_empty_ok : vm_ok example_empty [].
Proof.
  split; [|exists []; apply LRU_new_queue]. apply check_paged_ok; [| |vm_compute; reflexivity].
  - split; [done|done|done|]. repeat constructor; lia.
  - split; [done|done|done|]. repeat constructor; lia.
Qed.

Lemma example_no_slot i q o t : ~ slot example_empty i q o t.
Proof. intros H. assert (E : slots example_empty = []) by (vm_compute; reflexivity). apply elem_of_slots in H. rewrite E in H. by apply elem_of_nil in H. Qed.

Lemma example_noff : noff_ok example_exe.
Proof.
  split.
  - apply bytes_ok. vm_compute. reflexivity.
  - vm_compute. split; [discriminate|reflexivity].
  - vm_compute. reflexivity.
  - vm_compute. split_and!; discriminate.
  - vm_compute. reflexivity.
  - intros _. vm_compute. split_and!; done.
  - intros _. vm_compute. split_and!; done.
Qed.

Lemma AddrSpace_load_correct_witness : exists w',
  AddrSpace_load example_exe 1 0 8 (replicate 40 9) (replicate 128 0) (replicate 128 0) example_empty = Ok (Some (mkAS 1 9 0), w') /\
  vm_ok w' [] /\ byte_at w' 0 5 6 /\ byte_at w' 0 7 8.
Proof.
  destruct (AddrSpace_load_correct example_exe 1 0 [] example_empty 8 (replicate 40 9) (replicate 128 0) (replicate 128 0))
    as (w' & E & Hok & _ & Hc & Hd & _).
  - exact example_noff.
  - lia.
  - exact example_empty_ok.
  - reflexivity.
  - intros i q t. apply example_no_slot.
  - reflexivity.
  - apply bytes_ok. vm_compute. reflexivity.
  - vm_compute. discriminate.
  - reflexivity.
  - reflexivity.
  - apply bytes_ok. vm_compute. reflexivity.
  - reflexivity.
  - apply bytes_ok. vm_compute. reflexivity.
  - vm_compute. discriminate.
  - exists w'. split; [exact E|]. split; [exact Hok|]. split.
    + apply (Hc 5%nat 6). vm_compute. reflexivity.
    + apply (Hd 1%nat 8). vm_compute. reflexivity.
Defined.

(** The process of the example with its table and no pages yet. *)
Definition example_loading : VM := set_tables {[1 := fresh_table 9]} example_empty.

Lemma example_loading_ok : loading 1 0 9 [] example_loading ∅.
Proof.
  assert (Hn : forall i q o t, ~ slot example_loading i q o t).
  { intros i q o t H. assert (E : slots example_loading = []) by (vm_compute; reflexivity). apply elem_of_slots in H. rewrite E in H. by apply elem_of_nil in H. }
  split.
  - apply check_paged_ok; [| |vm_compute; reflexivity]; (split; [done|done|done|repeat constructor; lia]).
  - reflexivity.
  - intros i q t H. by apply Hn in H.
  - intros i q o t H. by apply Hn in H.
  - intros v. split; [by intros ?%elem_of_empty|]. intros (_ & i & H). by apply Hn in H.
  - vm_compute. discriminate.
  - reflexivity.
  - apply bytes_ok. vm_compute. reflexivity.
Qed.

(** The code segment is there; 20 bytes from its place are not. *)
Lemma ReadFile_terminates_witness :
  (exists w', ReadFile example_exe 1 0 6 (replicate 128 0) 0 6 40 example_loading = Ok (Some tt, w')) /\
  (forall fuel, exists w', ReadFile example_exe 1 0 fuel (replicate 128 0) 0 20 40 example_loading = Ok (None, w')).
Proof.
  assert (Hr : forall size, 0 < size < 100 -> reading 9 ∅ size 0 0 40 (replicate 128 0)).
  { intros size Hs. change PageSize with 128. split; try (change PageSize with 128; lia); [by right; left|done|apply bytes_ok; vm_compute; reflexivity]. }
  assert (He : Forall in_u8 example_exe) by (apply bytes_ok; vm_compute; reflexivity).
  split.
  - destruct (ReadFile_terminates example_exe 1 0 9 [] example_loading ∅ 6 0 40 (replicate 128 0)) as [H _];
      [lia|lia|exact He|exact example_loading_ok|lia|apply Hr; lia|].
    destruct (H ltac:(vm_compute; discriminate) 6%nat ltac:(lia)) as (w' & _ & E & _). eauto.
  - destruct (ReadFile_terminates example_exe 1 0 9 [] example_loading ∅ 20 0 40 (replicate 128 0)) as [_ H];
      [lia|lia|exact He|exact example_loading_ok|lia|apply Hr; lia|].
    exact (H ltac:(vm_compute; reflexivity)).
Defined.
