(* ===== verification/Paging.v ===== *)
(** * User memory under demand paging

    The kernel that runs one user program: the machine of machine/, the
    virtual memory of vm/ and the entry point of userprog/exception.cc.
    While the program runs, main memory and the page table in force are
    those of the machine; an exception hands them to the kernel.  The
    theorem: to the program, memory is flat. *)

From stdpp Require Import base list numbers gmap.
From S2P Require Import Prelude Arrays State Bitmap Machine Disk Lru Vm VmSafe.

(** ** The kernel's state and its entry *)

Record UserKernel := mkUK {
  uk_vm : VM;
  uk_space : AddrSpace;      (* currentThread->space *)
  uk_status : MachineStatus
}.

(** The kernel sees the machine's memory, and its page table as that of
    the current address space: machine->pageTable points to it. *)
Definition enter (m : Machine) (k : UserKernel) : VM :=
  set_memory (mainMemory m)
    (set_tables (<[as_table (uk_space k) := default [] (pageTable m)]> (tables (uk_vm k))) (uk_vm k)).

Definition leave (w : VM) (m : Machine) (k : UserKernel) : Machine * UserKernel :=
  (Machine.set_pageTable (Machine.set_memory m (memory w)) (tables w !! as_table (uk_space k)),
   mkUK w (uk_space k) (uk_status k)).

Section Entry.
(** What [new] finds in memory; the system calls; the rest of the kernel
    the simulator calls. *)
Context (garbage : Z) (syscall : Z -> Machine * UserKernel -> res (Machine * UserKernel)).
Context (tick debugger : Machine * UserKernel -> res (Machine * UserKernel)) (ticks : UserKernel -> Z).

Definition ExceptionHandler (which : ExceptionType) (mk : Machine * UserKernel) : res (Machine * UserKernel) :=
  let '(m, k) := mk in
  type ← ReadRegister 2 m;
  match which with
  | SyscallException => syscall type (m, k)
  | PageFaultException =>
      vaddr ← ReadRegister BadVAddrReg m;
      r ← PageFaultHandler garbage (as_pid (uk_space k)) vaddr (enter m k);
      Ok (leave (snd r) m k)
  | _ => Err AssertFailed
  end.

#[export] Instance user_kernel : KernelEntry UserKernel := {|
  Machine.setStatus := fun st k => mkUK (uk_vm k) (uk_space k) st;
  Machine.ExceptionHandler := ExceptionHandler;
  Machine.OneTick := tick;
  Machine.totalTicks := ticks;
  Machine.Debugger := debugger
|}.

(** ** Programs that access memory *)

Inductive access := Load (addr size : Z) | Store (addr size value : Z).

(** [None] when the access raised an exception. *)
Definition try_access (a : access) (mk : Machine * UserKernel) : res (option Z * (Machine * UserKernel)) :=
  match a with
  | Load addr size => ReadMem addr size mk
  | Store addr size value =>
      r ← WriteMem addr size value mk;
      Ok (if fst r : bool then Some value else None, snd r)
  end.

(** The instruction that faulted is executed again. *)
Definition user_access (a : access) (mk : Machine * UserKernel) : res (option Z * (Machine * UserKernel)) :=
  r ← try_access a mk;
  match r with
  | (Some v, mk) => Ok (Some v, mk)
  | (None, mk) => try_access a mk
  end.

Fixpoint user_run (l : list access) (mk : Machine * UserKernel) : res (list (option Z) * (Machine * UserKernel)) :=
  match l with
  | [] => Ok ([], mk)
  | a :: l =>
      r ← user_access a mk;
      rs ← user_run l (snd r);
      Ok (fst r :: fst rs, snd rs)
  end.
End Entry.

(** ** Flat memory: the bytes that were defined *)

Definition flat : Type := Z -> option Z.

Definition flat_load (size addr : Z) (f : flat) : option Z :=
  match mapM f (seqZ addr size) with
  | Some bytes => match load size 0 bytes with Ok v => Some v | Err _ => None end
  | None => None
  end.

(** The bytes a store writes. *)
Definition stored (size value : Z) : list Z :=
  match store size 0 value (replicate (Z.to_nat size) 0) with Ok l => l | Err _ => [] end.

Definition flat_store (size addr value : Z) (f : flat) : flat := fun a =>
  if (addr <=? a) && (a <? addr + size) then stored size value !! Z.to_nat (a - addr) else f a.

(** What the access returns, if that is defined, and the memory after. *)
Definition flat_access (a : access) (f : flat) : option Z * flat :=
  match a with
  | Load addr size => (flat_load size addr f, f)
  | Store addr size value => (Some value, flat_store size addr value f)
  end.

Fixpoint flat_run (l : list access) (f : flat) : list (option Z) * flat :=
  match l with
  | [] => ([], f)
  | a :: l =>
      let '(v, f) := flat_access a f in
      let '(vs, f) := flat_run l f in
      (v :: vs, f)
  end.

(** ** Steps of the hardware, seen by the kernel *)

Section Steps.
Context (w : VM) (xs : list (entry_ptr * Z)) (i : Z) (p : entry_ptr) (o : Z) (te : TranslationEntry).
Hypothesis Hpg : paged w xs None.
Hypothesis Hs : slot w i p o te.
Hypothesis Hv : valid te = true.

(** Translate sets the use bit, and the dirty bit when writing. *)
Lemma touch_ok w' b : entry_changed w w' p (touch b te) ->
  memory w' = memory w -> memManager w' = memManager w -> swapFile (swapMgr w') = swapFile (swapMgr w) ->
  paged w' xs None /\ same_pages w w'.
Proof.
  intros Hec Hmem Hmm Hsf.
  assert (Hown : forall k u1 t1, slot w k p u1 t1 -> k = i) by (intros; by eapply (pg_owner _ _ _ Hpg)).
  pose proof (changed_this _ _ _ _ _ _ _ Hec Hs) as Ht. pose proof (fun j q u t => changed_other _ _ _ _ Hec j q u t) as Ho.
  pose proof (fun j q u t => changed_inv _ _ _ _ _ _ _ Hec Hs j q u t Hown) as Hi.
  assert (Hd : forall j, on_disk w' j = on_disk w j) by (intros; unfold on_disk; by rewrite Hsf).
  assert (Hf : forall f, frame w' f = frame w f) by (intros; unfold frame; by rewrite Hmem).
  (* every slot of the new state is one of the old with the same key, frame and validity *)
  assert (Hold : forall j q u t, slot w' j q u t -> exists t0, slot w j q u t0 /\ virtualPage t = virtualPage t0 /\
    valid t = valid t0 /\ physicalPage t = physicalPage t0).
  { intros j q u t [(-> & -> & -> & ->)|(Hn & H)]%Hi; [by exists te|by exists t]. }
  assert (Hnew : forall j q u t, slot w j q u t -> exists t', slot w' j q u t' /\ virtualPage t' = virtualPage t /\ readOnly t' = readOnly t /\
    valid t' = valid t /\ physicalPage t' = physicalPage t /\ (dirty t = true -> dirty t' = true)).
  { intros j q u t H. destruct (decide (q = p)) as [->|Hn].
    - pose proof (Hown _ _ _ H) as ->. destruct (slot_fun _ _ _ _ _ _ _ _ Hs H) as (_ & <- & <-). exists (touch b te). split_and!; try done.
      cbn. by destruct b.
    - exists t. split; [by apply Ho|done]. }
  split; [|intros j q u; split].
  - destruct Hpg. split; rewrite ?Hmem, ?Hmm, ?(ec_map _ _ _ _ Hec), ?(ec_pids _ _ _ _ Hec), ?(ec_entries _ _ _ _ Hec), ?Hsf; try done.
    + intros j Hj Hb. destruct (pg_used j Hj Hb) as (q & u & t & H). destruct (Hnew _ _ _ _ H) as (t' & H' & _). eauto.
    + intros j k q1 q2 u t1 t2 (a & Ha & Ea & _)%Hold (c & Hc & Ec & _)%Hold E. apply (pg_key j k q1 q2 u a c Ha Hc). congruence.
    + intros j k q u1 u2 t1 t2 (a & Ha & _)%Hold (c & Hc & _)%Hold. by eapply pg_owner.
    + intros j q u t (a & Ha & _ & Ev & Ep)%Hold Hvt. rewrite Ep. apply (pg_valid j q u a Ha). congruence.
    + intros q u Hin. destruct (pg_resident q u Hin) as (j & t & H & Hvt). destruct (Hnew _ _ _ _ H) as (t' & H' & _ & _ & Ev & _).
      exists j, t'. split; [done|congruence].
    + intros j k q1 q2 u1 u2 t1 t2 (a & Ha & _ & Ea & Pa)%Hold (c & Hc & _ & Ec & Pc)%Hold V1 V2 E.
      apply (pg_alone j k q1 q2 u1 u2 a c Ha Hc); congruence.
    + intros f Hfr Hb. destruct (pg_taken f Hfr Hb) as [?|(j & q & u & t & H & Hvt & Hp)]; [by left|]. right.
      destruct (Hnew _ _ _ _ H) as (t' & H' & _ & _ & Ev & Ep & _). exists j, q, u, t'. split; [done|]. split; congruence.
  - intros t H. destruct (Hnew _ _ _ _ H) as (t' & H' & E1 & E2 & E3 & E4 & E5). exists t'. split; [done|]. split; [done|].
    intros bytes [B1 B2]. split; rewrite ?E3, ?E4, ?Hf, ?Hd; [done|]. intros Hvd. apply B2.
    destruct (valid t), (dirty t); try done. rewrite (E5 eq_refl) in Hvd. done.
  - intros t (a & Ha & _)%Hold. eauto.
Qed.

(** A store into the frame of a page whose dirty bit is set. *)
Lemma store_ok off new : dirty te = true -> 0 <= off -> off + zlen new <= PageSize -> Forall in_u8 new ->
  let w' := set_memory (splice (physicalPage te * PageSize + off) new (memory w)) w in
  paged w' xs None /\
  (forall vpn u bytes, (vpn <> virtualPage te \/ u <> o) -> page_of w u vpn bytes -> page_of w' u vpn bytes) /\
  frame w' (physicalPage te) = splice off new (frame w (physicalPage te)).
Proof.
  intros Hd Ho Hl Hn w'. destruct (pg_valid _ _ _ Hpg _ _ _ _ Hs Hv) as (_ & Hfr & _).
  destruct (memory_room _ _ _ _ Hpg Hfr) as [Hm1 Hm2]. set (f := physicalPage te) in *.
  assert (Hlen : zlen (memory w') = zlen (memory w)) by (apply zlen_splice; change PageSize with 128 in *; lia).
  split; [|split].
  - destruct Hpg. split; try done; [by rewrite Hlen|]. apply Forall_splice; [done|by apply Hpg].
  - intros vpn u bytes Hne (j & q & t & H & Hvp & B1 & B2). exists j, q, t. split; [done|]. split; [done|]. split; [|done].
    intros Hvt. assert (Hf : frame w' (physicalPage t) = frame w (physicalPage t)); [|rewrite Hf; by apply B1].
    assert (Hji : physicalPage t <> f).
    { intros E. pose proof (pg_alone _ _ _ Hpg _ _ _ _ _ _ _ _ H Hs Hvt Hv E) as ->.
      destruct (slot_fun _ _ _ _ _ _ _ _ H Hs) as (_ & -> & ->). by destruct Hne. }
    destruct (pg_valid _ _ _ Hpg _ _ _ _ H Hvt) as (_ & Hfr' & _). unfold frame, w'. cbn [memory set_memory].
    change PageSize with 128 in *. apply slice_splice_ne; lia.
  - unfold frame, w'. cbn [memory set_memory]. apply list_eq. intros k. change PageSize with 128 in *.
    assert (Hfl : zlen (slice (f * 128) 128 (memory w)) = 128) by (apply zlen_slice; lia).
    rewrite slice_lookup by lia. rewrite (splice_lookup off) by lia. rewrite slice_lookup by lia.
    rewrite splice_lookup by lia. destruct (decide (Z.of_nat k < 128)).
    + destruct (decide (off <= Z.of_nat k < off + zlen new)).
      * rewrite decide_True by lia. f_equal. lia.
      * by rewrite decide_False by lia.
    + by rewrite decide_False by lia.
Qed.
End Steps.

(** ** Raising an exception *)

Lemma DelayedLoad_total m : Machine.wf m -> exists m', DelayedLoad 0 0 m = Ok m' /\ Machine.wf m' /\
  mainMemory m' = mainMemory m /\ tlb m' = tlb m /\ pageTable m' = pageTable m /\ pageTableSize m' = pageTableSize m /\
  aget (registers m') BadVAddrReg = aget (registers m) BadVAddrReg.
Proof.
  intros Hwf. destruct (wf_load m Hwf) as (r & Hr & Hrr). unfold NumGPRegs in Hrr.
  pose proof (wf_nregs m Hwf) as Hn. unfold NumTotalRegs in Hn.
  pose proof (DelayedLoad_safe m 0 0 Hwf ltac:(done) ltac:(split; lia)) as Hsafe.
  unfold DelayedLoad, getr, setr in *. rewrite Hr in *. cbn [mbind res_bind] in *.
  destruct (aget_in_range (registers m) LoadValueReg) as [lv Hlv]; [rewrite Hn; done|]. rewrite Hlv in *. cbn [mbind res_bind] in *.
  assert (Hz : forall j (x : Z) l, zlen (<[Z.to_nat j := x]> l) = zlen l) by (intros; unfold zlen; by rewrite length_insert).
  unfold LoadReg, LoadValueReg, BadVAddrReg in *.
  rewrite (aset_in_range (registers m)) in * by lia. cbn [mbind res_bind registers set_registers] in *.
  rewrite aset_in_range in * by (rewrite ?Hz; lia). cbn [mbind res_bind registers set_registers] in *.
  rewrite aset_in_range in * by (rewrite ?Hz; lia). cbn [mbind res_bind registers set_registers] in *.
  rewrite aset_in_range in * by (rewrite ?Hz; lia). cbn [mbind res_bind registers set_registers safe] in *.
  eexists. split; [reflexivity|]. split; [apply Hsafe|]. do 4 (split; [done|]). cbn [registers set_registers].
  by rewrite !aget_insert_ne by lia.
Qed.

Lemma setr_total m i v : Machine.wf m -> 0 <= i < NumTotalRegs -> in_s32 v -> i <> LoadReg ->
  exists m', setr i v m = Ok m' /\ Machine.wf m' /\ mainMemory m' = mainMemory m /\ tlb m' = tlb m /\ pageTable m' = pageTable m /\
    pageTableSize m' = pageTableSize m /\ aget (registers m') i = Ok v.
Proof.
  intros Hwf Hi Hv Hl. pose proof (setr_safe m i v Hwf Hi Hv ltac:(done)) as Hsafe. unfold setr in *.
  assert (Hr : 0 <= i < zlen (registers m)) by by rewrite (wf_nregs m Hwf).
  rewrite aset_in_range in * by done. cbn [mbind res_bind safe] in *. eexists. split; [reflexivity|].
  split; [apply Hsafe|]. do 4 (split; [done|]). cbn [registers set_registers]. by apply aget_insert_eq.
Qed.

(** ** The program's memory *)

Record user_ok (m : Machine) (k : UserKernel) (xs : list (entry_ptr * Z)) (f : flat) : Prop := {
  uo_wf : Machine.wf m;
  uo_tlb : tlb m = None;
  uo_size : pageTableSize m = as_numPages (uk_space k);
  uo_np : as_numPages (uk_space k) <= SWAP_SIZE;
  uo_pid : 0 <= as_pid (uk_space k);
  uo_vm : vm_ok (enter m k) xs;
  uo_pages : forall v, 0 <= v < as_numPages (uk_space k) -> exists i te,
    slot (enter m k) i (as_table (uk_space k), v) (as_pid (uk_space k)) te /\ virtualPage te = v /\ readOnly te = false;
  uo_alone : forall x, x ∈ xs -> snd x = as_pid (uk_space k);
  uo_flat : forall a b, 0 <= a < as_numPages (uk_space k) * PageSize -> f a = Some b ->
    exists bytes, page_of (enter m k) (as_pid (uk_space k)) (a / PageSize) bytes /\ bytes !! Z.to_nat (a mod PageSize) = Some b
}.

(** An aligned access inside the address space. *)
Definition access_ok (np : Z) (a : access) : Prop :=
  let ok addr size := (size = 1 \/ size = 2 \/ size = 4) /\ misaligned addr size = false /\ 0 <= addr /\ addr + size <= np * PageSize in
  match a with
  | Load addr size => ok addr size
  | Store addr size value => ok addr size
  end.

Definition access_addr (a : access) : Z := match a with Load addr _ => addr | Store addr _ _ => addr end.
Definition access_size (a : access) : Z := match a with Load _ size => size | Store _ size _ => size end.
Definition is_store (a : access) : bool := match a with Load _ _ => false | Store _ _ _ => true end.

Lemma access_ok_addr np a : access_ok np a ->
  (access_size a = 1 \/ access_size a = 2 \/ access_size a = 4) /\ misaligned (access_addr a) (access_size a) = false /\
  0 <= access_addr a /\ access_addr a + access_size a <= np * PageSize.
Proof. by destruct a. Qed.

(** The address is in one page. *)
Lemma access_page np a : np <= SWAP_SIZE -> access_ok np a ->
  let v := access_addr a / PageSize in let off := access_addr a mod PageSize in
  u32 (access_addr a) = access_addr a /\ in_s32 (access_addr a) /\ 0 <= v < np /\ 0 <= off /\ off + access_size a <= PageSize /\ access_addr a = v * PageSize + off.
Proof.
  intros Hnp Hok. destruct (access_ok_addr np a Hok) as (Hs & Hm & H0 & H1). cbn zeta.
  pose proof (misaligned_false _ _ Hm Hs) as Ha. change PageSize with 128 in *. unfold SWAP_SIZE in *.
  assert (E : u32 (access_addr a) = access_addr a) by (apply u32_id; split; lia). rewrite E in Ha.
  pose proof (Z.div_mod (access_addr a) 128 ltac:(lia)). pose proof (Z.mod_pos_bound (access_addr a) 128 ltac:(lia)).
  split; [done|]. split; [split; lia|]. split; [nia|]. split; [lia|]. split; [|lia].
  destruct Hs as [Es|[Es|Es]]; rewrite Es in *; Z.to_euclidean_division_equations; lia.
Qed.

Section User.
Context (garbage : Z) (syscall : Z -> Machine * UserKernel -> res (Machine * UserKernel)).
Context (tick debugger : Machine * UserKernel -> res (Machine * UserKernel)) (ticks : UserKernel -> Z).
Notation try_access := (try_access garbage syscall tick debugger ticks).
Implicit Types (m : Machine) (k : UserKernel).

Lemma enter_entry m k pt v te : pageTable m = Some pt -> load_entry (as_table (uk_space k), v) (enter m k) = Ok te <-> aget pt v = Ok te.
Proof. intros Hp. unfold load_entry, enter. cbn [tables set_tables set_memory fst snd]. by rewrite lookup_insert_eq, Hp. Qed.

Lemma translate_page m k xs f a i te : user_ok m k xs f -> access_ok (as_numPages (uk_space k)) a ->
  let v := access_addr a / PageSize in
  slot (enter m k) i (as_table (uk_space k), v) (as_pid (uk_space k)) te -> readOnly te = false ->
  translate_spec (access_addr a) (access_size a) (is_store a) m =
    if valid te then inr (v, te, physicalPage te * PageSize + access_addr a mod PageSize) else inl PageFaultException.
Proof.
  intros Huo Hok v Hs Hro. destruct (access_ok_addr _ _ Hok) as (_ & Hm & _).
  destruct (access_page _ _ (uo_np _ _ _ _ Huo) Hok) as (Eu & _ & Hv & _). fold v in Hv.
  unfold translate_spec. rewrite Hm, (uo_tlb _ _ _ _ Huo), (uo_size _ _ _ _ Huo), Eu. cbn [is_NULL andb].
  change Machine.PageSize with PageSize. fold v. rewrite (proj2 (Z.leb_gt _ _)) by lia.
  unfold mapped_entry. rewrite (uo_tlb _ _ _ _ Huo), (uo_size _ _ _ _ Huo), (proj2 (Z.ltb_lt _ _)) by lia.
  pose proof (wf_trans _ (uo_wf _ _ _ _ Huo)) as Ht. unfold wf_translation in Ht. rewrite (uo_tlb _ _ _ _ Huo) in Ht.
  destruct (pageTable m) as [pt|] eqn:Ep; [|done]. cbn [mbind option_bind].
  pose proof (slot_te Hs) as Hte. apply (enter_entry m k pt v te Ep) in Hte. apply aget_Ok_inv in Hte as [_ Hte]. rewrite Hte. cbn [mbind option_bind].
  destruct (valid te) eqn:Hvt; [|done]. rewrite Hro. cbn [andb].
  destruct (pg_valid _ _ _ (proj1 (uo_vm _ _ _ _ Huo)) _ _ _ _ Hs Hvt) as (_ & Hfr & _). unfold NUM_OF_PHYSICAL_PAGES, NumPhysPages in *.
  rewrite u32_id by (split; lia). by rewrite (proj2 (Z.leb_gt _ _)) by lia.
Qed.

(** The bytes of a page that is in memory. *)
Lemma page_in_frame w xs u v i q te bytes n b : paged w xs None -> slot w i q u te -> virtualPage te = v -> valid te = true ->
  page_of w u v bytes -> bytes !! n = Some b -> frame w (physicalPage te) !! n = Some b.
Proof.
  intros Hpg Hs Hv Hvt (j & q' & t & Hs' & Hv' & H1 & _) Hb.
  pose proof (pg_key _ _ _ Hpg _ _ _ _ _ _ _ Hs Hs' ltac:(congruence)) as <-.
  destruct (slot_fun _ _ _ _ _ _ _ _ Hs Hs') as (_ & _ & <-). eapply prefix_lookup_Some; [done|by apply H1].
Qed.

Lemma frame_page w u v i q te : slot w i q u te -> virtualPage te = v -> valid te = true -> dirty te = true ->
  page_of w u v (frame w (physicalPage te)).
Proof. intros Hs Hv Hvt Hd. exists i, q, te. split; [done|]. split; [done|]. split; [done|]. by rewrite Hvt, Hd. Qed.

(** After Translate the program's memory is the same. *)
Lemma touched_user m m1 k xs f v i te b : user_ok m k xs f ->
  slot (enter m k) i (as_table (uk_space k), v) (as_pid (uk_space k)) te -> valid te = true ->
  touched m m1 v (touch b te) ->
  user_ok m1 k xs f /\ slot (enter m1 k) i (as_table (uk_space k), v) (as_pid (uk_space k)) (touch b te) /\ mainMemory m1 = mainMemory m.
Proof.
  intros Huo Hs Hvt Ht. pose proof Ht as (Em & Er & Es & Et & Ep). rewrite (uo_tlb _ _ _ _ Huo) in Et, Ep. cbn in Et, Ep.
  pose proof (wf_trans _ (uo_wf _ _ _ _ Huo)) as Hwt. unfold wf_translation in Hwt. rewrite (uo_tlb _ _ _ _ Huo) in Hwt.
  destruct (pageTable m) as [pt|] eqn:Ept; [|done]. cbn in Ep.
  pose proof (slot_te Hs) as Hte. apply (enter_entry m k pt v te Ept) in Hte.
  assert (Hec : entry_changed (enter m k) (enter m1 k) (as_table (uk_space k), v) (touch b te)).
  { split; try done.
    - apply (enter_entry m1 k _ v _ Ep). apply aget_insert_eq. by apply aget_Ok_inv in Hte as [? _].
    - intros [c j] Hne. unfold load_entry, enter. cbn [tables set_tables set_memory fst snd].
      destruct (decide (c = as_table (uk_space k))) as [->|Hc]; [|by rewrite !lookup_insert_ne by done].
      rewrite !lookup_insert_eq, Ep, Ept. cbn. apply aget_insert_ne; [apply aget_Ok_inv in Hte as [? _]; lia|]. intros ->. by destruct Hne. }
  pose proof (proj1 (uo_vm _ _ _ _ Huo)) as Hpg.
  destruct (touch_ok (enter m k) xs i _ _ te Hpg Hs (enter m1 k) b Hec) as [Hpg1 Hsame]; [exact Em|done|done|].
  split; [|split; [by eapply changed_this|done]]. destruct Huo. split; try done; try congruence.
  - eapply touched_wf; [exact uo_wf0|exact Ht].
  - split; [exact Hpg1|by destruct uo_vm0 as [_ ?]].
  - intros u Hu. destruct (uo_pages0 u Hu) as (j & t & H & Hvp & Hro). destruct (proj1 (Hsame j _ _) t H) as (t' & H' & [E1 E2] & _).
    exists j, t'. split; [done|]. split; congruence.
  - intros a c Ha Hc. destruct (uo_flat0 a c Ha Hc) as (bytes & Hp & Hb). exists bytes. split; [by eapply same_pages_page_of|done].
Qed.

Lemma slice_frame w fr off n : 0 <= fr -> 0 <= off -> 0 <= n -> off + n <= PageSize ->
  slice (fr * PageSize + off) n (memory w) = slice off n (frame w fr).
Proof.
  intros Hf Ho Hn Hl. unfold frame. apply list_eq. intros j. change PageSize with 128 in *. rewrite !slice_lookup by lia.
  destruct (decide (Z.of_nat j < n)); [|done]. rewrite decide_True by lia. f_equal. lia.
Qed.

(** A load of bytes that are defined. *)
Lemma flat_bytes (f : flat) addr size bytes : mapM f (seqZ addr size) = Some bytes -> 0 <= size ->
  zlen bytes = size /\ forall j, (Z.of_nat j < size) -> f (addr + Z.of_nat j) = bytes !! j.
Proof.
  intros H Hs. apply mapM_Some_1 in H. pose proof (Forall2_length _ _ _ H) as Hl. rewrite length_seqZ in Hl. split; [unfold zlen; lia|].
  intros j Hj. destruct (lookup_lt_is_Some_2 bytes j) as [x Hx]; [lia|]. rewrite Hx.
  destruct (Forall2_lookup_r _ _ _ _ _ H Hx) as (y & Hy & E). rewrite lookup_seqZ_lt in Hy by lia. injection Hy as <-. done.
Qed.

Lemma access_load m k xs f addr size i te : user_ok m k xs f -> access_ok (as_numPages (uk_space k)) (Load addr size) ->
  slot (enter m k) i (as_table (uk_space k), addr / PageSize) (as_pid (uk_space k)) te ->
  virtualPage te = addr / PageSize -> readOnly te = false -> valid te = true ->
  exists val m', try_access (Load addr size) (m, k) = Ok (Some val, (m', k)) /\ user_ok m' k xs f /\
    forall e, flat_load size addr f = Some e -> val = e.
Proof.
  intros Huo Hok Hs Hvp Hro Hvt. destruct (access_ok_addr _ _ Hok) as (Hsz & _). cbn [access_size] in Hsz.
  destruct (access_page _ _ (uo_np _ _ _ _ Huo) Hok) as (_ & _ & Hv & Ho & Hol & Ea). cbn [access_addr access_size] in *.
  pose proof (translate_page m k xs f _ i te Huo Hok Hs Hro) as Hsp. cbn [access_addr access_size is_store] in Hsp. rewrite Hvt in Hsp.
  pose proof (Translate_refines m addr size false (uo_wf _ _ _ _ Huo) Hsz) as Hr. rewrite Hsp in Hr. destruct Hr as (m1 & HT & Ht).
  destruct (touched_user m m1 k xs f _ i te false Huo Hs Hvt Ht) as (Huo1 & Hs1 & Em).
  destruct (pg_valid _ _ _ (proj1 (uo_vm _ _ _ _ Huo)) _ _ _ _ Hs Hvt) as (_ & Hfr & _).
  destruct (memory_room _ _ _ _ (proj1 (uo_vm _ _ _ _ Huo)) Hfr) as [Hr1 Hr2]. change (memory (enter m k)) with (mainMemory m) in Hr2.
  set (off := addr mod PageSize) in *. set (pa := physicalPage te * PageSize + off) in *.
  destruct (load_safe size pa (mainMemory m) Hsz) as (val & Hl & _); [lia|lia|].
  exists val, m1. split; [|split; [done|]].
  - cbn [Paging.try_access]. unfold ReadMem. rewrite HT. cbn [mbind res_bind]. rewrite decide_True by done. rewrite Em, Hl. done.
  - intros e He. unfold flat_load in He. destruct (mapM f (seqZ addr size)) as [bytes|] eqn:Eb; [|done].
    destruct (flat_bytes f addr size bytes Eb ltac:(lia)) as [Hbl Hbf].
    assert (E : slice pa size (mainMemory m) = bytes).
    { unfold pa. change (mainMemory m) with (memory (enter m k)). rewrite slice_frame by lia. apply list_eq. intros j. rewrite slice_lookup by lia.
      destruct (decide (Z.of_nat j < size)) as [Hj|Hj]; [|symmetry; apply lookup_ge_None_2; unfold zlen in Hbl; lia].
      destruct (lookup_lt_is_Some_2 bytes j) as [b Hb]; [unfold zlen in Hbl; lia|]. rewrite Hb. rewrite <-Hbf in Hb by done.
      assert (Ej : (addr + Z.of_nat j) / PageSize = addr / PageSize /\ (addr + Z.of_nat j) mod PageSize = off + Z.of_nat j).
      { split; [symmetry; apply (Z.div_unique _ _ _ (off + Z.of_nat j))|symmetry; apply (Z.mod_unique _ _ (addr / PageSize))]; lia. }
      destruct (uo_flat _ _ _ _ Huo (addr + Z.of_nat j) b) as (bs & Hp & Hbs); [change PageSize with 128 in *; lia|done|].
      destruct Ej as [E1 E2]. rewrite E1 in Hp. rewrite E2 in Hbs.
      replace (Z.to_nat off + j)%nat with (Z.to_nat (off + Z.of_nat j)) by lia.
      exact (page_in_frame _ _ _ _ _ _ _ _ _ _ (proj1 (uo_vm _ _ _ _ Huo)) Hs Hvp Hvt Hp Hbs). }
    rewrite load_slice, E in Hl by lia. rewrite Hl in He. by injection He.
Qed.

Lemma store_stored size pa v mem : size = 1 \/ size = 2 \/ size = 4 -> 0 <= pa -> pa + size <= zlen mem ->
  store size pa v mem = Ok (splice pa (stored size v) mem) /\ zlen (stored size v) = size /\ Forall in_u8 (stored size v).
Proof.
  intros Hs H0 H1. destruct (store_safe size pa v mem Hs H0 H1) as (new & E & Hz & Hb & _).
  assert (Hn : stored size v = new); [|by rewrite Hn].
  unfold stored, store in *. destruct Hs as [->|[->| ->]]; cbn [Z.eqb Pos.eqb] in *.
  - rewrite aset_in_range in E by lia. injection E as E. cbn. assert (Ha : aset [0] 0 (Z.land v 255) = Ok [Z.land v 255]) by reflexivity.
    change (replicate (Z.to_nat 1) 0) with [0]. rewrite Ha.
    assert (Hlk : (<[Z.to_nat pa := Z.land v 255]> mem) !! Z.to_nat pa = Some (Z.land v 255)) by (apply list_lookup_insert_eq; unfold zlen in H1; lia).
    rewrite E in Hlk. rewrite splice_lookup in Hlk by lia. rewrite decide_True in Hlk by lia. rewrite Nat.sub_diag in Hlk.
    destruct new as [|x [|y l]]; [done| |unfold zlen in Hz; cbn in Hz; lia]. cbn in Hlk. by injection Hlk as ->.
  - assert (Hl : zlen (le_bytes 2 (ShortToMachine (Z.land v 65535))) = 2) by done.
    rewrite bwrite_Ok in E by lia. injection E as E. rewrite bwrite_Ok by done. rewrite splice_whole by done.
    rewrite <-(slice_splice_eq pa _ mem) by lia. rewrite E, Hl, <-Hz at 1. apply slice_splice_eq; lia.
  - assert (Hl : zlen (le_bytes 4 (WordToMachine (u32 v))) = 4) by done.
    rewrite bwrite_Ok in E by lia. injection E as E. rewrite bwrite_Ok by done. rewrite splice_whole by done.
    rewrite <-(slice_splice_eq pa _ mem) by lia. rewrite E, Hl, <-Hz at 1. apply slice_splice_eq; lia.
Qed.

Lemma enter_set_memory mem m k : enter (Machine.set_memory m mem) k = Vm.set_memory mem (enter m k).
Proof. done. Qed.

Lemma access_store m k xs f addr size value i te : user_ok m k xs f -> access_ok (as_numPages (uk_space k)) (Store addr size value) ->
  slot (enter m k) i (as_table (uk_space k), addr / PageSize) (as_pid (uk_space k)) te ->
  virtualPage te = addr / PageSize -> readOnly te = false -> valid te = true ->
  exists m', try_access (Store addr size value) (m, k) = Ok (Some value, (m', k)) /\ user_ok m' k xs (flat_store size addr value f).
Proof.
  intros Huo Hok Hs Hvp Hro Hvt. destruct (access_ok_addr _ _ Hok) as (Hsz & _). cbn [access_size] in Hsz.
  destruct (access_page _ _ (uo_np _ _ _ _ Huo) Hok) as (_ & _ & Hv & Ho & Hol & Ea). cbn [access_addr access_size] in *.
  pose proof (translate_page m k xs f _ i te Huo Hok Hs Hro) as Hsp. cbn [access_addr access_size is_store] in Hsp. rewrite Hvt in Hsp.
  pose proof (Translate_refines m addr size true (uo_wf _ _ _ _ Huo) Hsz) as Hr. rewrite Hsp in Hr. destruct Hr as (m1 & HT & Ht).
  destruct (touched_user m m1 k xs f _ i te true Huo Hs Hvt Ht) as (Huo1 & Hs1 & Em).
  destruct (pg_valid _ _ _ (proj1 (uo_vm _ _ _ _ Huo)) _ _ _ _ Hs Hvt) as (_ & Hfr & _).
  destruct (memory_room _ _ _ _ (proj1 (uo_vm _ _ _ _ Huo)) Hfr) as [Hr1 Hr2]. change (memory (enter m k)) with (mainMemory m) in Hr2.
  set (off := addr mod PageSize) in *. set (pa := physicalPage te * PageSize + off) in *.
  destruct (store_stored size pa value (mainMemory m) Hsz) as (Est & Hzl & Hb8); [lia|lia|]. set (new := stored size value) in *.
  set (m2 := Machine.set_memory m1 (splice pa new (mainMemory m))). exists m2. split.
  - cbn [Paging.try_access]. unfold WriteMem. rewrite HT. cbn [mbind res_bind]. rewrite decide_True by done. rewrite Em, Est. done.
  - destruct (store_ok (enter m1 k) xs i _ _ (touch true te) (proj1 (uo_vm _ _ _ _ Huo1)) Hs1 Hvt off new eq_refl Ho ltac:(lia) Hb8) as (Hpg2 & Hoth & Hfrm).
    change (memory (enter m1 k)) with (mainMemory m1) in *. rewrite Em in *. cbn [physicalPage touch virtualPage] in *. fold pa in Hpg2, Hoth, Hfrm.
    change (Vm.set_memory (splice pa new (mainMemory m)) (enter m1 k)) with (enter m2 k) in *.
    assert (Hs2 : slot (enter m2 k) i (as_table (uk_space k), addr / PageSize) (as_pid (uk_space k)) (touch true te)) by exact Hs1.
    destruct Huo1. split; try done.
    + apply set_memory_wf; [done| |]; pose proof (wf_mem _ (uo_wf _ _ _ _ Huo)); [rewrite zlen_splice by lia; done|].
      apply Forall_splice; [done|]. apply (wf_bytes _ (uo_wf _ _ _ _ Huo)).
    + split; [exact Hpg2|by destruct uo_vm0].
    + intros a b Ha Hf. unfold flat_store in Hf. fold new in Hf.
      pose proof (Z.div_mod a PageSize ltac:(done)) as Hda. pose proof (Z.mod_pos_bound a PageSize ltac:(done)) as Hma.
      pose proof (frame_page (enter m2 k) _ _ _ _ _ Hs2 Hvp Hvt eq_refl) as Hpage. cbn [physicalPage touch] in Hpage.
      assert (Hfl : zlen (frame (enter m1 k) (physicalPage te)) = PageSize).
      { unfold frame. change (memory (enter m1 k)) with (mainMemory m1). rewrite Em. apply zlen_slice; lia. }
      destruct (decide (a / PageSize = addr / PageSize)) as [Ep|Ep].
      * exists (frame (enter m2 k) (physicalPage te)). rewrite Ep. split; [exact Hpage|]. rewrite Hfrm, splice_lookup by lia.
        destruct (Z.leb_spec addr a) as [H1|H1]; cbn [andb] in Hf; [destruct (Z.ltb_spec a (addr + size)) as [H2|H2]|].
        -- rewrite decide_True by lia. rewrite <-Hf. f_equal. lia.
        -- rewrite decide_False by lia. destruct (uo_flat0 a b Ha Hf) as (bytes & Hp & Hb). rewrite Ep in Hp.
           exact (page_in_frame _ _ _ _ _ _ _ _ _ _ (proj1 uo_vm0) Hs1 Hvp Hvt Hp Hb).
        -- rewrite decide_False by lia. destruct (uo_flat0 a b Ha Hf) as (bytes & Hp & Hb). rewrite Ep in Hp.
           exact (page_in_frame _ _ _ _ _ _ _ _ _ _ (proj1 uo_vm0) Hs1 Hvp Hvt Hp Hb).
      * assert (Hout : (addr <=? a) && (a <? addr + size) = false).
        { destruct (Z.leb_spec addr a) as [H1|H1]; [|done]. destruct (Z.ltb_spec a (addr + size)) as [H2|H2]; [|done]. exfalso. apply Ep.
          symmetry. apply (Z.div_unique _ _ _ (off + (a - addr))); lia. }
        rewrite Hout in Hf. destruct (uo_flat0 a b Ha Hf) as (bytes & Hp & Hb). exists bytes. split; [|done]. apply Hoth; [left; congruence|done].
Qed.

(** ** Page faults *)

Lemma enter_leave w m k pt : tables w !! as_table (uk_space k) = Some pt ->
  forall st, enter (fst (leave w m k)) (mkUK w (uk_space k) st) = w.
Proof.
  intros Ht st. unfold enter, leave. cbn [fst mainMemory Machine.set_pageTable Machine.set_memory pageTable uk_space uk_vm].
  rewrite Ht. cbn. rewrite insert_id by done. by destruct w.
Qed.

Lemma raise_fault m k addr w' pt : Machine.wf m -> in_s32 addr -> tables w' !! as_table (uk_space k) = Some pt ->
  PageFaultHandler garbage (as_pid (uk_space k)) addr (enter m k) = Ok (tt, w') ->
  zlen (memory w') = MemorySize -> Forall in_u8 (memory w') -> tlb m = None -> pageTableSize m <= zlen pt ->
  exists m' k', RaiseException (K := UserKernel) (KernelEntry0 := user_kernel garbage syscall tick debugger ticks) PageFaultException addr (m, k) = Ok (m', k') /\
    Machine.wf m' /\ enter m' k' = w' /\ uk_space k' = uk_space k /\ tlb m' = None /\ pageTableSize m' = pageTableSize m.
Proof.
  intros Hwf Ha Hpt HH Hml Hmb Htlb Hsz. unfold RaiseException.
  destruct (setr_total m BadVAddrReg addr Hwf) as (m1 & -> & Hwf1 & M1 & T1 & P1 & S1 & R1); [done|done|done|]. cbn [mbind res_bind].
  destruct (DelayedLoad_total m1 Hwf1) as (m2 & -> & Hwf2 & M2 & T2 & P2 & S2 & R2). cbn [mbind res_bind].
  cbn [Machine.ExceptionHandler Machine.setStatus user_kernel]. unfold ExceptionHandler, ReadRegister, getr.
  destruct (aget_in_range (registers m2) 2) as [ty Hty]; [by rewrite (wf_nregs _ Hwf2)|]. rewrite Hty. cbn [ASSERT mbind res_bind].
  rewrite R2, R1. cbn [mbind res_bind uk_space].
  assert (Een : forall st, enter m2 (mkUK (uk_vm k) (uk_space k) st) = enter m k).
  { intros st. unfold enter. cbn [uk_vm uk_space]. by rewrite M2, M1, P2, P1. }
  change (ASSERT ((0 <=? 2) && (2 <? NumTotalRegs))) with (Ok tt : res unit).
  change (ASSERT ((0 <=? BadVAddrReg) && (BadVAddrReg <? NumTotalRegs))) with (Ok tt : res unit). cbn [mbind res_bind].
  rewrite Een, HH. cbn [mbind res_bind snd leave uk_vm uk_space uk_status]. rewrite Hpt.
  eexists _, _. split; [reflexivity|]. split; [|split; [|split; [done|split; cbn; congruence]]].
  - destruct Hwf2. split; try done. unfold wf_translation. cbn. rewrite T2, T1, Htlb, S2, S1. done.
  - unfold enter. cbn. rewrite insert_id by done. by destruct w'.
Qed.

Lemma access_fault m k xs f a i te : user_ok m k xs f -> access_ok (as_numPages (uk_space k)) a ->
  slot (enter m k) i (as_table (uk_space k), access_addr a / PageSize) (as_pid (uk_space k)) te ->
  virtualPage te = access_addr a / PageSize -> readOnly te = false -> valid te = false ->
  exists m' k' xs' te', try_access a (m, k) = Ok (None, (m', k')) /\ user_ok m' k' xs' f /\ uk_space k' = uk_space k /\
    slot (enter m' k') i (as_table (uk_space k), access_addr a / PageSize) (as_pid (uk_space k)) te' /\
    virtualPage te' = access_addr a / PageSize /\ readOnly te' = false /\ valid te' = true.
Proof.
  intros Huo Hok Hs Hvp Hro Hvt. destruct (access_ok_addr _ _ Hok) as (Hsz & _).
  destruct (access_page _ _ (uo_np _ _ _ _ Huo) Hok) as (_ & Ha & Hv & _).
  pose proof (translate_page m k xs f _ i te Huo Hok Hs Hro) as Hsp. cbn zeta in Hsp. rewrite Hvt in Hsp.
  pose proof (Translate_refines m (access_addr a) (access_size a) (is_store a) (uo_wf _ _ _ _ Huo) Hsz) as Hr. rewrite Hsp in Hr. destruct Hr as [_ HT].
  destruct (run_Swap garbage (enter m k) xs i _ _ te (uo_vm _ _ _ _ Huo) (uo_pid _ _ _ _ Huo) Hs Hvt) as ([] & w' & E & xs' & Hok' & Hsub & Hsame & fr & Hl).
  { intros _ ys v o tv -> _ _. apply (uo_alone _ _ _ _ Huo (v, o)). apply elem_of_app. right. by apply list_elem_of_singleton. }
  rewrite Hvp in E.
  assert (Hpages : forall u, 0 <= u < as_numPages (uk_space k) -> exists j t,
    slot w' j (as_table (uk_space k), u) (as_pid (uk_space k)) t /\ virtualPage t = u /\ readOnly t = false).
  { intros u Hu. destruct (uo_pages _ _ _ _ Huo u Hu) as (j & t & H & E1 & E2). destruct (proj1 (Hsame j _ _) t H) as (t' & H' & [F1 F2] & _).
    exists j, t'. split; [done|]. split; congruence. }
  destruct (tables w' !! as_table (uk_space k)) as [pt|] eqn:Ept.
  2:{ destruct (Hpages _ Hv) as (j & t & H & _). pose proof (slot_te H) as Hte. unfold load_entry in Hte. cbn [fst] in Hte. by rewrite Ept in Hte. }
  assert (Hlen : as_numPages (uk_space k) <= zlen pt).
  { destruct (Hpages (as_numPages (uk_space k) - 1)) as (j & t & H & _); [lia|]. pose proof (slot_te H) as Hte. unfold load_entry in Hte. cbn [fst snd] in Hte.
    rewrite Ept in Hte. cbn [deref mbind res_bind] in Hte. apply aget_Ok_inv in Hte as [? _]. lia. }
  destruct (raise_fault m k (access_addr a) w' pt (uo_wf _ _ _ _ Huo) Ha Ept) as (m' & k' & ER & Hwf' & Een & Esp & Etlb & Esz).
  - unfold PageFaultHandler. rewrite Z.quot_div_nonneg by (change PageSize with 128 in *; Z.div_mod_to_equations; lia). exact E.
  - apply Hok'.
  - apply Hok'.
  - apply Huo.
  - rewrite (uo_size _ _ _ _ Huo). lia.
  - destruct (proj1 (Hsame i _ _) te Hs) as (t' & Hs' & [F1 F2] & _). pose proof (slot_te Hs') as Ht'. rewrite Hl in Ht'. injection Ht' as <-.
    exists m', k', xs', (loaded fr te). split; [|split; [|split; [done|rewrite Een; split; [done|split; [done|split; [done|done]]]]]].
    + destruct a as [addr size|addr size value]; cbn [Paging.try_access access_addr access_size is_store] in *; [unfold ReadMem|unfold WriteMem];
        rewrite HT; cbn [mbind res_bind]; rewrite decide_False by done; rewrite ER; done.
    + destruct Huo. split; rewrite ?Esp, ?Een; try done; try congruence.
      * intros x Hx. apply Hsub in Hx. apply elem_of_cons in Hx as [->|Hx]; [done|auto].
      * intros b c Hb Hc. destruct (uo_flat0 b c Hb Hc) as (bytes & Hp & Hbb). exists bytes. split; [by eapply same_pages_page_of|done].
Qed.

(** ** One access, and a program *)

Lemma user_access_ok m k xs f a : user_ok m k xs f -> access_ok (as_numPages (uk_space k)) a ->
  exists val m' k' xs', user_access garbage syscall tick debugger ticks a (m, k) = Ok (Some val, (m', k')) /\ uk_space k' = uk_space k /\
    user_ok m' k' xs' (snd (flat_access a f)) /\ forall e, fst (flat_access a f) = Some e -> val = e.
Proof.
  intros Huo Hok. destruct (access_page _ _ (uo_np _ _ _ _ Huo) Hok) as (_ & _ & Hv & _).
  (* when the page is there *)
  assert (Hin : forall m k xs i te, user_ok m k xs f -> access_ok (as_numPages (uk_space k)) a ->
    slot (enter m k) i (as_table (uk_space k), access_addr a / PageSize) (as_pid (uk_space k)) te ->
    virtualPage te = access_addr a / PageSize -> readOnly te = false -> valid te = true ->
    exists val m', try_access a (m, k) = Ok (Some val, (m', k)) /\ user_ok m' k xs (snd (flat_access a f)) /\
      forall e, fst (flat_access a f) = Some e -> val = e).
  { clear m k xs Huo Hok Hv. intros m k xs i te Huo Hok Hs H1 H2 H3. destruct a as [addr size|addr size value].
    - exact (access_load m k xs f addr size i te Huo Hok Hs H1 H2 H3).
    - destruct (access_store m k xs f addr size value i te Huo Hok Hs H1 H2 H3) as (m' & E & Huo').
      exists value, m'. split; [done|]. split; [done|]. cbn. congruence. }
  destruct (uo_pages _ _ _ _ Huo _ Hv) as (i & te & Hs & Hvp & Hro). unfold user_access. destruct (valid te) eqn:Hvt.
  - destruct (Hin m k xs i te) as (val & m' & E & Huo' & He); [done..|]. rewrite E. cbn [mbind res_bind]. exists val, m', k, xs. done.
  - destruct (access_fault m k xs f a i te) as (m1 & k1 & xs1 & te1 & E & Huo1 & Esp & Hs1 & Hvp1 & Hro1 & Hvt1); [done..|].
    rewrite E. cbn [mbind res_bind].
    destruct (Hin m1 k1 xs1 i te1) as (val & m' & E' & Huo' & He); rewrite ?Esp; [done..|]. rewrite E'. exists val, m', k1, xs1. done.
Qed.
End User.


(** ** An example: a program with more pages than memory *)

(** The program of process 0 in [example_vm]: 33 pages, memory is full. *)
Definition example_user : Machine :=
  mkMachine (memory example_vm) (replicate 40 0) None (tables example_vm !! 1) 33 false 0.
Definition example_uk : UserKernel := mkUK example_vm (mkAS 1 33 0) UserMode.

(** The bytes of page 0 (in memory, dirty) and of page 32 (swapped out). *)
Definition example_flat : flat := fun a =>
  if (0 <=? a) && (a <? 128) then Some 7 else if (4096 <=? a) && (a <? 4224) then Some 5 else None.

(** Page 32 is fetched over page 0, changed, and page 0 fetched again. *)
Definition example_program : list access := [Load 0 4; Store 4096 2 4660; Load 4096 4; Load 5 1].

Lemma example_enter : enter example_user example_uk = example_vm.
Proof. unfold enter, example_user, example_uk. cbn [uk_space as_table uk_vm pageTable mainMemory]. unfold set_tables, set_memory. cbn [tables]. by rewrite insert_id. Qed.

Lemma example_page32 : page_of example_vm 0 32 (example_bytes 5).
Proof.
  exists 32, (1, 32), (mkTE 32 (-1) false false false false).
  split; [apply example_slot; [vm_compute; reflexivity|done]|]. split; [done|]. split; [done|]. intros _.
  assert (E : on_disk example_vm 32 = example_bytes 5) by (vm_compute; reflexivity). by rewrite E.
Qed.

Lemma example_user_ok : user_ok example_user example_uk example_pages example_flat.
Proof.
  split; try done.
  - split; cbn [mainMemory registers example_user]; [reflexivity| |reflexivity| | |vm_compute; discriminate]. 
    + apply bytes_ok. vm_compute. reflexivity.
    + repeat constructor; unfold in_s32; lia.
    + exists 0. split; [done|unfold NumGPRegs; lia].
  - rewrite example_enter. exact example_vm_ok.
  - rewrite example_enter. cbn [uk_space example_uk as_numPages as_table as_pid]. intros v Hv. exists v.
    assert (Hall : forallb (fun v => match slot_at example_vm v with
      | Some (i, p, pid, te) => (i =? v) && bool_decide (p = (1, v)) && (pid =? 0) && (virtualPage te =? v) && negb (readOnly te)
      | None => false end) (seqZ 0 33) = true) by (vm_compute; reflexivity).
    rewrite forallb_elem in Hall. specialize (Hall v ltac:(apply elem_of_seqZ; lia)). cbn beta in Hall.
    destruct (slot_at example_vm v) as [[[[i p] pid] te]|] eqn:Es; [|discriminate].
    rewrite !andb_true_iff, bool_decide_eq_true, negb_true_iff in Hall. destruct Hall as [[[[->%Z.eqb_eq ->] ->%Z.eqb_eq] Hvp%Z.eqb_eq] Hro].
    exists te. split; [apply example_slot; [exact Es|unfold SWAP_SIZE; lia]|done].
  - intros x Hx. unfold example_pages in Hx. apply list_elem_of_fmap in Hx as (i & -> & _). done.
  - rewrite example_enter. intros a b _ Hf. unfold example_flat in Hf.
    destruct ((0 <=? a) && (a <? 128)) eqn:E1; [|destruct ((4096 <=? a) && (a <? 4224)) eqn:E2; [|discriminate]]; injection Hf as <-.
    + exists (example_bytes 7). replace (a / PageSize) with 0 by (change PageSize with 128; Z.div_mod_to_equations; lia).
      split; [exact example_page0|]. apply lookup_replicate_2. change PageSize with 128. Z.div_mod_to_equations. lia.
    + exists (example_bytes 5). replace (a / PageSize) with 32 by (change PageSize with 128; Z.div_mod_to_equations; lia).
      split; [exact example_page32|]. apply lookup_replicate_2. change PageSize with 128. Z.div_mod_to_equations. lia.
Qed.

