(* ===== verification/Console.v ===== *)
(** * machine/console.{h,cc} and ConsoleTest of userprog/progtest.cc

    The simulated console: a keyboard that is polled every ConsoleTime
    ticks, a display that is busy for ConsoleTime ticks after a character;
    and the kernel thread that echoes what is typed until a 'q'.

    The thread takes one step at a time, and an interrupt can come between
    any two of them: [run] executes a sequence of [event]s.  Semaphores are
    those of Synch.v seen from outside: P waits while the value is 0. *)

From stdpp Require Import base list numbers.
From S2P Require Import Prelude Arrays State.

Definition ConsoleTime : Z := 100.
Definition EOF : Z := -1.

(** ** The device and its surroundings *)

Inductive device_int := ConsoleReadPoll | ConsoleWriteDone.

(** [incoming] is a (signed) char. *)
Record Console := mkConsole { putBusy : bool; incoming : Z }.

(** The characters that will be typed with the times they arrive; whether
    the input ends after the last one, as a file does and a terminal does
    not; the display; the clock and the pending interrupts in order; the
    two semaphores. *)
Record World := mkWorld {
  console : Console;
  keyboard : list (Z * Z);
  input_ends : bool;
  display : list Z;
  clock : Z;
  pending : list (Z * device_int);
  numConsoleCharsRead : Z;
  numConsoleCharsWritten : Z;
  readAvail : Z;
  writeDone : Z
}.

Definition set_console c w := mkWorld c (keyboard w) (input_ends w) (display w) (clock w) (pending w) (numConsoleCharsRead w) (numConsoleCharsWritten w) (readAvail w) (writeDone w).
Definition set_keyboard k w := mkWorld (console w) k (input_ends w) (display w) (clock w) (pending w) (numConsoleCharsRead w) (numConsoleCharsWritten w) (readAvail w) (writeDone w).
Definition set_display d w := mkWorld (console w) (keyboard w) (input_ends w) d (clock w) (pending w) (numConsoleCharsRead w) (numConsoleCharsWritten w) (readAvail w) (writeDone w).
Definition set_clock t w := mkWorld (console w) (keyboard w) (input_ends w) (display w) t (pending w) (numConsoleCharsRead w) (numConsoleCharsWritten w) (readAvail w) (writeDone w).
Definition set_pending p w := mkWorld (console w) (keyboard w) (input_ends w) (display w) (clock w) p (numConsoleCharsRead w) (numConsoleCharsWritten w) (readAvail w) (writeDone w).
Definition count_read w := mkWorld (console w) (keyboard w) (input_ends w) (display w) (clock w) (pending w) (numConsoleCharsRead w + 1) (numConsoleCharsWritten w) (readAvail w) (writeDone w).
Definition count_written w := mkWorld (console w) (keyboard w) (input_ends w) (display w) (clock w) (pending w) (numConsoleCharsRead w) (numConsoleCharsWritten w + 1) (readAvail w) (writeDone w).
Definition set_readAvail v w := mkWorld (console w) (keyboard w) (input_ends w) (display w) (clock w) (pending w) (numConsoleCharsRead w) (numConsoleCharsWritten w) v (writeDone w).
Definition set_writeDone v w := mkWorld (console w) (keyboard w) (input_ends w) (display w) (clock w) (pending w) (numConsoleCharsRead w) (numConsoleCharsWritten w) (readAvail w) v.

Definition set_incoming c w := set_console (mkConsole (putBusy (console w)) c) w.
Definition set_putBusy b w := set_console (mkConsole b (incoming (console w))) w.

(** ** The host *)

(** [PollFile]: at the end of a file select() reports it readable. *)
Definition PollFile (w : World) : bool :=
  match keyboard w with
  | (arrival, _) :: _ => arrival <=? clock w
  | [] => input_ends w
  end.

(** [Read(readFileNo, &c, 1)]: nothing left fails its ASSERT. *)
Definition Read : M World Z :=
  k ← gets keyboard;
  match k with
  | (_, c) :: rest => _ ← modify (set_keyboard rest); ret c
  | [] => fail AssertFailed
  end.

Definition WriteFile (ch : Z) : M World unit := modify (fun w => set_display (display w ++ [ch]) w).

(** ** Interrupts *)

(** [interrupt->Schedule]: after those that are due at the same time. *)
Fixpoint insert_pending (when : Z) (d : device_int) (l : list (Z * device_int)) : list (Z * device_int) :=
  match l with
  | [] => [(when, d)]
  | (t, e) :: l' => if when <? t then (when, d) :: l else (t, e) :: insert_pending when d l'
  end.

Definition Schedule (d : device_int) (fromNow : Z) : M World unit :=
  now ← gets clock;
  _ ← assert (0 <? fromNow);
  modify (fun w => set_pending (insert_pending (now + fromNow) d (pending w)) w).

(** ** Console *)

Section Console.
(** The interrupt handlers the constructor is given. *)
Context (readHandler writeHandler : M World unit).

Definition Console_new : M World unit :=
  _ ← modify (set_console (mkConsole false EOF));
  Schedule ConsoleReadPoll ConsoleTime.

Definition CheckCharAvail : M World unit :=
  _ ← Schedule ConsoleReadPoll ConsoleTime;
  w ← gets id;
  if negb (incoming (console w) =? EOF) || negb (PollFile w) then ret tt
  else
    c ← Read;
    _ ← modify (set_incoming c);
    _ ← modify count_read;
    readHandler.

Definition WriteDone : M World unit :=
  _ ← modify (set_putBusy false);
  _ ← modify count_written;
  writeHandler.

Definition GetChar : M World Z :=
  ch ← gets (fun w => incoming (console w));
  _ ← modify (set_incoming EOF);
  ret ch.

Definition PutChar (ch : Z) : M World unit :=
  busy ← gets (fun w => putBusy (console w));
  _ ← assert (negb busy);
  _ ← WriteFile ch;
  _ ← modify (set_putBusy true);
  Schedule ConsoleWriteDone ConsoleTime.

(** The next interrupt is taken, at the time it is due or later. *)
Definition take_interrupt : M World unit :=
  p ← gets pending;
  match p with
  | [] => ret tt
  | (when, d) :: rest =>
      _ ← modify (fun w => set_clock (Z.max when (clock w)) (set_pending rest w));
      match d with
      | ConsoleReadPoll => CheckCharAvail
      | ConsoleWriteDone => WriteDone
      end
  end.
End Console.

(** ** ConsoleTest *)

Definition ReadAvail_V : M World unit := modify (fun w => set_readAvail (readAvail w + 1) w).
Definition WriteDone_V : M World unit := modify (fun w => set_writeDone (writeDone w + 1) w).

(** Where the thread is: before which call of its loop. *)
Inductive pc := AtReadP | AtGetChar | AtPutChar (ch : Z) | AtWriteP (ch : Z) | Returned.

#[export] Instance pc_eq_dec : EqDecision pc.
Proof. solve_decision. Defined.

Definition code_q : Z := 113.

(** [if (ch == 'q') return;], else around the loop. *)
Definition after_echo (ch : Z) : pc := if ch =? code_q then Returned else AtReadP.

Definition ConsoleTest_step (p : pc) : M World pc :=
  match p with
  | AtReadP =>
      v ← gets readAvail;
      if v =? 0 then ret AtReadP
      else _ ← modify (set_readAvail (v - 1)); ret AtGetChar
  | AtGetChar => ch ← GetChar; ret (AtPutChar ch)
  | AtPutChar ch => _ ← PutChar ch; ret (AtWriteP ch)
  | AtWriteP ch =>
      v ← gets writeDone;
      if v =? 0 then ret (AtWriteP ch)
      else _ ← modify (set_writeDone (v - 1)); ret (after_echo ch)
  | Returned => ret Returned
  end.

(** What happens next: a step of the thread, an interrupt, or time passes. *)
Inductive event := EThread | EInterrupt | ETime (d : Z).

Definition exec (e : event) (p : pc) : M World pc :=
  match e with
  | EThread => ConsoleTest_step p
  | EInterrupt => _ ← take_interrupt ReadAvail_V WriteDone_V; ret p
  | ETime d => _ ← modify (fun w => set_clock (clock w + Z.max 0 d) w); ret p
  end.

Fixpoint run (es : list event) (p : pc) : M World pc :=
  match es with
  | [] => ret p
  | e :: es => p ← exec e p; run es p
  end.

(** The semaphores have been made and the thread enters the loop. *)
Definition ConsoleTest_start (typed : list (Z * Z)) (ends : bool) (now : Z) : res World :=
  r ← Console_new (mkWorld (mkConsole false EOF) typed ends [] now [] 0 0 0 0); Ok (snd r).

(** The scheduler: a waiting thread sleeps and the machine idles until the
    next interrupt. *)
Definition waiting (p : pc) (w : World) : bool :=
  match p with
  | AtReadP => readAvail w =? 0
  | AtWriteP _ => writeDone w =? 0
  | _ => false
  end.

Definition next_event (p : pc) (w : World) : event := if waiting p w then EInterrupt else EThread.

Fixpoint ConsoleTest_run (fuel : nat) (p : pc) : M World pc :=
  match p with
  | Returned => ret Returned
  | _ =>
      match fuel with
      | O => ret p
      | S fuel => w ← gets id; p ← exec (next_event p w) p; ConsoleTest_run fuel p
      end
  end.
