(* ===== verification/ConsoleEcho.v ===== *)
(** * The console test echoes what is typed

    The invariant of the console and its thread, that every step and every
    interrupt keeps it, and that the thread returns once a 'q' was typed. *)

From stdpp Require Import base list numbers.
From S2P Require Import Prelude Arrays State Console.

(** The characters up to and including the first 'q'. *)
Fixpoint upto_q (l : list Z) : list Z :=
  match l with
  | [] => []
  | c :: l => if c =? code_q then [c] else c :: upto_q l
  end.

Lemma upto_q_app l l' : code_q ∉ l -> upto_q (l ++ l') = l ++ upto_q l'.
Proof.
  induction l as [|c l IH]; [done|]. intros [H1 H2]%not_elem_of_cons. cbn.
  destruct (Z.eqb_spec c code_q); [congruence|]. by rewrite IH.
Qed.

Lemma upto_q_prefix l : upto_q l `prefix_of` l.
Proof.
  induction l as [|c l IH]; [done|]. cbn. destruct (c =? code_q); [|by apply prefix_cons].
  by exists l.
Qed.

(** ** The invariant *)

Definition buffered (w : World) : list Z := if incoming (console w) =? EOF then [] else [incoming (console w)].
Definition in_hand (p : pc) : list Z := match p with AtPutChar ch => [ch] | _ => [] end.

(** The pending interrupts: the poll at [tp]; the end of the write at [td]
    while the display is busy. *)
Definition pending_ok (busy : bool) (l : list (Z * device_int)) (tp td : Z) : Prop :=
  if busy then
    (l = [(tp, ConsoleReadPoll); (td, ConsoleWriteDone)] /\ tp <= td) \/
    (l = [(td, ConsoleWriteDone); (tp, ConsoleReadPoll)] /\ td <= tp)
  else l = [(tp, ConsoleReadPoll)].

(** What the display shows: no 'q' but perhaps the last character. *)
Definition display_ok (p : pc) (d : list Z) : Prop :=
  match p with
  | AtWriteP ch => exists l, d = l ++ [ch] /\ code_q ∉ l
  | Returned => exists l, d = l ++ [code_q] /\ code_q ∉ l
  | _ => code_q ∉ d
  end.

Record ok (typed : list Z) (ends : bool) (p : pc) (w : World) (tp td : Z) : Prop := {
  ok_typed : typed = display w ++ in_hand p ++ buffered w ++ (keyboard w).*2;
  ok_chars : EOF ∉ (keyboard w).*2;
  ok_ends : input_ends w = ends;
  ok_read : readAvail w = zlen (buffered w) - (if decide (p = AtGetChar) then 1 else 0);
  ok_full : p = AtGetChar -> buffered w <> [];
  ok_busy : match p with
            | AtWriteP _ => writeDone w = if putBusy (console w) then 0 else 1
            | _ => putBusy (console w) = false /\ writeDone w = 0
            end;
  ok_pending : pending_ok (putBusy (console w)) (pending w) tp td;
  ok_display : display_ok p (display w)
}.

(** Steps of the thread that are still to come. *)
Definition weight (p : pc) (w : World) : Z :=
  6 * zlen (keyboard w) + 5 * zlen (buffered w) +
  match p with AtReadP | Returned => 0 | AtGetChar => -1 | AtPutChar _ => 3 | AtWriteP _ => 2 end.

(** Interrupts before the one the thread waits for. *)
Definition delay (p : pc) (w : World) (tp td : Z) : Z :=
  match p with
  | AtWriteP _ => if putBusy (console w) then 1 + Z.max 0 (td - tp + 1) else 0
  | _ => match keyboard w with (arrival, _) :: _ => Z.max 0 (arrival - tp) | [] => 0 end
  end.

Lemma zlen_buffered w : zlen (buffered w) = if incoming (console w) =? EOF then 0 else 1.
Proof. unfold buffered. by destruct (_ =? _). Qed.

Lemma weight_nonneg typed ends p w tp td : ok typed ends p w tp td -> 0 <= weight p w.
Proof.
  intros H. pose proof (ok_full _ _ _ _ _ _ H) as Hf. unfold weight, zlen.
  destruct p; try lia. specialize (Hf eq_refl). destruct (buffered w); [done|cbn; lia].
Qed.

(** ** The thread *)

Lemma insert_busy (tp td : Z) : pending_ok true (insert_pending td ConsoleWriteDone [(tp, ConsoleReadPoll)]) tp td.
Proof. unfold pending_ok. cbn. destruct (Z.ltb_spec td tp); [right|left]; split; done || lia. Qed.

Lemma thread_ok typed ends p w tp td : ok typed ends p w tp td ->
  run_to (ConsoleTest_step p) w (fun p' w' => exists td', ok typed ends p' w' tp td' /\
    (if waiting p w then p' = p /\ w' = w else p = Returned \/ weight p' w' < weight p w)).
Proof.
  intros [Ht Hc He Hr Hf Hb Hp Hd]. unfold ConsoleTest_step, waiting. destruct p as [| |ch|ch|].
  - step. rewrite decide_False in Hr by done. destruct (Z.eqb_spec (readAvail w) 0) as [E|E]; step; [|step].
    + exists td. split; [|done]. by split.
    + exists td. unfold weight, buffered in *. cbn. destruct (incoming (console w) =? EOF) eqn:EE; cbn in Hr; [by rewrite Hr in E|].
      split; [|right; unfold zlen; cbn; lia]. split; try done; unfold buffered; cbn; rewrite EE; try done.
      rewrite decide_True by done. cbn. lia.
  - unfold GetChar. step. step. step. step. specialize (Hf eq_refl). rewrite decide_True in Hr by done. exists td.
    unfold buffered in *. destruct (incoming (console w) =? EOF) eqn:E; [done|]. split; [|right; unfold weight, buffered; cbn; rewrite E; unfold zlen; cbn; lia].
    split; try done; unfold buffered; cbn; rewrite ?E; try done.
  - unfold PutChar, WriteFile, Schedule. destruct Hb as [Hb1 Hb2]. rewrite decide_False in Hr by done.
    step. rewrite Hb1. step; [done|]. step. step. step. step; [done|]. step. step.
    exists (clock w + ConsoleTime). cbn in Ht. split; [|right; unfold weight, buffered, zlen; cbn; lia].
    split; try done; unfold buffered in *; cbn.
    + by rewrite <-app_assoc.
    + rewrite Hb1 in Hp. cbn in Hp. rewrite Hp. apply insert_busy.
    + by exists (display w).
  - step. rewrite decide_False in Hr by done. rewrite Hb. destruct (putBusy (console w)) eqn:Eb; cbn [Z.eqb].
    + step. exists td. split; [|done]. split; try done; by rewrite Eb.
    + step. step. exists td. assert (Hw : weight (after_echo ch) (set_writeDone (1 - 1) w) < weight (AtWriteP ch) w).
      { unfold weight, after_echo, buffered. cbn. destruct (ch =? code_q); lia. }
      split; [|by right]. destruct Hd as (l & Hl1 & Hl2). unfold after_echo in *.
      destruct (Z.eqb_spec ch code_q) as [->|Hne]; split; try done; cbn.
      * by rewrite Eb.
      * by exists l.
      * by rewrite Eb.
      * rewrite Hl1. intros [?|?%list_elem_of_singleton]%elem_of_app; congruence.
  - step. exists td. split; [by split|by left].
Qed.

(** ** Interrupts *)

Lemma pending_head busy l tp td : pending_ok busy l tp td ->
  (exists rest, l = (tp, ConsoleReadPoll) :: rest /\ (rest = if busy then [(td, ConsoleWriteDone)] else []) /\ (busy = true -> tp <= td)) \/
  (busy = true /\ l = [(td, ConsoleWriteDone); (tp, ConsoleReadPoll)] /\ td <= tp).
Proof.
  destruct busy; cbn; [intros [[-> H]|[-> H]]|intros ->].
  - left. by eexists.
  - by right.
  - left. by eexists.
Qed.

Lemma insert_poll busy (td tp' : Z) : pending_ok busy (insert_pending tp' ConsoleReadPoll (if busy then [(td, ConsoleWriteDone)] else [])) tp' td.
Proof. destruct busy; cbn; [|done]. destruct (Z.ltb_spec tp' td); [left|right]; split; done || lia. Qed.

Lemma poll_ok typed ends p w tp td rest : ok typed ends p w tp td ->
  pending w = (tp, ConsoleReadPoll) :: rest -> rest = (if putBusy (console w) then [(td, ConsoleWriteDone)] else []) ->
  (putBusy (console w) = true -> tp <= td) -> (keyboard w = [] -> ends = false) ->
  run_to (take_interrupt ReadAvail_V WriteDone_V) w (fun _ w' => exists tp', ok typed ends p w' tp' td /\
    (weight p w' < weight p w \/
     weight p w' = weight p w /\ tp + ConsoleTime <= tp' /\ keyboard w' = keyboard w /\ console w' = console w /\
       (waiting p w = true -> p = AtReadP -> match keyboard w with (arrival, _) :: _ => tp < arrival | [] => True end))).
Proof.
  intros Hok Ep Er Hle Hend. pose proof Hok as [Ht Hc He Hr Hf Hb Hp Hd].
  unfold take_interrupt. step. rewrite Ep. step. step. unfold CheckCharAvail, Schedule. apply run_to_bind.
  step. step; [done|]. step. step. cbn [clock set_clock set_pending pending].
  set (now := Z.max tp (clock w)). set (tp' := now + ConsoleTime).
  set (w1 := set_pending (insert_pending tp' ConsoleReadPoll rest) (set_clock now (set_pending rest w))). change (id w1) with w1.
  assert (Hok1 : ok typed ends p w1 tp' td).
  { split; try done. cbn [pending w1 console set_pending set_clock]. rewrite Er. apply insert_poll. }
  destruct (negb (incoming (console w1) =? EOF)) eqn:Ei; [|destruct (PollFile w1) eqn:Epoll]; cbn [orb negb].
  - step. exists tp'. split; [done|]. right. split; [done|]. split; [unfold tp', now; lia|]. split; [done|]. split; [done|].
    intros Hw ->. cbn in Hw. rewrite decide_False in Hr by done. rewrite zlen_buffered in Hr. cbn in Ei. apply negb_true_iff in Ei. rewrite Ei in Hr. lia.
  - unfold Read. step. cbn [keyboard w1 set_pending set_clock]. destruct (keyboard w) as [|[arr c] kb] eqn:Ek.
    { unfold PollFile in Epoll. cbn in Epoll. rewrite Ek in Epoll. rewrite He, (Hend eq_refl) in Epoll. done. }
    step. unfold ReadAvail_V. step. step. step. step. step. cbn in Ei. apply negb_false_iff in Ei.
    exists tp'. cbn [fmap list_fmap snd] in Ht, Hc. apply not_elem_of_cons in Hc as [Hc1 Hc2].
    assert (Hp' : p <> AtGetChar) by (intros ->; unfold buffered in Hf; rewrite Ei in Hf; by apply Hf).
    unfold buffered in *. rewrite Ei in Ht, Hr. rewrite decide_False in Hr by done. split.
    + destruct Hok1 as [_ _ _ _ _ Hb1 Hp1 Hd1]. split; try done; unfold buffered; cbn.
      * destruct (Z.eqb_spec c EOF); [congruence|]. exact Ht.
      * rewrite decide_False by done. destruct (Z.eqb_spec c EOF); [congruence|]. unfold zlen in *. cbn in *. lia.
    + left. unfold weight, buffered. cbn. destruct (Z.eqb_spec c EOF); [congruence|]. rewrite Ei, Ek. unfold zlen. cbn [length]. lia.
  - step. exists tp'. split; [done|]. right. split; [done|]. split; [unfold tp', now; lia|]. split; [done|]. split; [done|].
    intros _ _. unfold PollFile in Epoll. cbn in Epoll. destruct (keyboard w) as [|[arr c] kb]; [done|]. unfold now in Epoll. lia.
Qed.

Lemma done_ok typed ends p w tp td : ok typed ends p w tp td ->
  pending w = [(td, ConsoleWriteDone); (tp, ConsoleReadPoll)] -> putBusy (console w) = true ->
  run_to (take_interrupt ReadAvail_V WriteDone_V) w (fun _ w' => ok typed ends p w' tp td /\
    weight p w' = weight p w /\ waiting p w' = false /\ delay p w' tp td = 0).
Proof.
  intros [Ht Hc He Hr Hf Hb Hp Hd] Ep Eb. unfold take_interrupt. step. rewrite Ep. step. step. unfold WriteDone, WriteDone_V, count_written. do 5 step.
  destruct p; try (destruct Hb; congruence).
  rewrite Eb in Hb. split; [|cbn; by rewrite Hb]. split; try done. cbn. by rewrite Hb.
Qed.

(** An interrupt keeps the invariant; only the end of the input stops the
    machine. *)
Lemma interrupt_ok typed ends p w tp td : ok typed ends p w tp td ->
  match take_interrupt ReadAvail_V WriteDone_V w with
  | Ok (_, w') => exists tp' td', ok typed ends p w' tp' td'
  | Err e => e = AssertFailed /\ ends = true
  end.
Proof.
  intros Hok. destruct (pending_head _ _ _ _ (ok_pending _ _ _ _ _ _ Hok)) as [(rest & Ep & Er & Hle)|(Eb & Ep & Hle)].
  - destruct (decide (keyboard w = [] /\ ends = true)) as [[Ek Ee]|Hne].
    + destruct (decide (incoming (console w) = EOF)) as [Ei|Ei].
      * unfold take_interrupt, mbind, M_bind, gets, modify, CheckCharAvail, Schedule, assert, lift. rewrite Ep. cbn.
        unfold mbind, M_bind, PollFile. cbn. rewrite Ei, Ek. cbn. rewrite (ok_ends _ _ _ _ _ _ Hok), Ee. cbn.
        unfold Read, mbind, M_bind, gets. cbn. by rewrite Ek.
      * (* a character is buffered: the poll does nothing *)
        unfold take_interrupt, mbind, M_bind, gets, modify, CheckCharAvail, Schedule, assert, lift. rewrite Ep. cbn.
        unfold mbind, M_bind. cbn. destruct (Z.eqb_spec (incoming (console w)) EOF); [done|]. cbn.
        eexists _, td. destruct Hok. split; try done. cbn. rewrite Er. apply insert_poll.
    + destruct (poll_ok typed ends p w tp td rest Hok Ep Er Hle) as ([] & w' & E & tp' & H & _).
      { intros Ek. destruct ends; [|done]. by destruct Hne. }
      rewrite E. eauto.
  - destruct (done_ok typed ends p w tp td Hok Ep Eb) as ([] & w' & E & H & _). rewrite E. eauto.
Qed.

(** ** Every sequence of events *)

Lemma exec_ok typed ends e p w tp td : ok typed ends p w tp td ->
  match exec e p w with
  | Ok (p', w') => exists tp' td', ok typed ends p' w' tp' td'
  | Err err => err = AssertFailed /\ ends = true
  end.
Proof.
  intros Hok. destruct e as [| |d]; cbn [exec].
  - destruct (thread_ok typed ends p w tp td Hok) as (p' & w' & E & td' & H & _). rewrite E. eauto.
  - pose proof (interrupt_ok typed ends p w tp td Hok) as H. unfold mbind, M_bind.
    destruct (take_interrupt _ _ w) as [[[] w']|err]; exact H.
  - unfold mbind, M_bind, modify, ret. exists tp, td. by destruct Hok.
Qed.

Lemma run_ok typed ends es p w tp td : ok typed ends p w tp td ->
  match run es p w with
  | Ok (p', w') => exists tp' td', ok typed ends p' w' tp' td'
  | Err err => err = AssertFailed /\ ends = true
  end.
Proof.
  revert p w tp td. induction es as [|e es IH]; intros p w tp td Hok; cbn [run]; [by exists tp, td|].
  pose proof (exec_ok typed ends e p w tp td Hok) as H. unfold mbind, M_bind.
  destruct (exec e p w) as [[p' w']|err]; [|exact H]. destruct H as (tp' & td' & H). by eapply IH.
Qed.

Lemma start_ok typed ends now : EOF ∉ typed.*2 ->
  exists w tp td, ConsoleTest_start typed ends now = Ok w /\ ok typed.*2 ends AtReadP w tp td.
Proof.
  intros Hc. eexists _, (now + ConsoleTime), 0. split; [reflexivity|]. split; try done. apply not_elem_of_nil.
Qed.

(** What was echoed is the beginning of what was typed. *)
Lemma ok_echo typed ends p w tp td : ok typed ends p w tp td ->
  display w `prefix_of` upto_q typed /\ (p = Returned -> display w = upto_q typed).
Proof.
  intros H. pose proof (ok_typed _ _ _ _ _ _ H) as Ht. pose proof (ok_display _ _ _ _ _ _ H) as Hd. clear H.
  assert (Hfree : code_q ∉ display w -> display w `prefix_of` upto_q typed).
  { intros Hq. rewrite Ht, upto_q_app by done. by exists (upto_q (in_hand p ++ buffered w ++ (keyboard w).*2)). }
  destruct p as [| |ch|ch|]; cbn in Hd; try (split; [by apply Hfree|done]); destruct Hd as (l & E & Hl);
    rewrite E in Ht; rewrite E, Ht, <-app_assoc, upto_q_app by done; cbn.
  - split; [|done]. apply prefix_app. destruct (ch =? code_q); [done|]. by exists (upto_q (buffered w ++ (keyboard w).*2)).
  - done.
Qed.

(** ** The thread returns *)

(** While the thread has not returned, the next event brings it nearer. *)
Lemma advance typed p w tp td : ok typed false p w tp td -> code_q ∈ typed -> p <> Returned ->
  run_to (exec (next_event p w) p) w (fun p' w' => exists tp' td', ok typed false p' w' tp' td' /\
    (weight p' w' < weight p w \/ weight p' w' = weight p w /\ delay p' w' tp' td' < delay p w tp td)).
Proof.
  intros Hok Hq Hp. unfold next_event. destruct (waiting p w) eqn:Hw; cbn [exec].
  - apply run_to_bind. destruct (pending_head _ _ _ _ (ok_pending _ _ _ _ _ _ Hok)) as [(rest & Ep & Er & Hle)|(Eb & Ep & Hle)].
    + eapply run_to_mono; [by apply (poll_ok typed false p w tp td rest)|]. intros [] w' (tp' & Hok' & Hd).
      apply run_to_ret. exists tp', td. split; [done|]. destruct Hd as [Hd|(E1 & E2 & E3 & E4 & Harr)]; [by left|right]. split; [done|].
      unfold ConsoleTime in E2. pose proof (ok_busy _ _ _ _ _ _ Hok) as Hb. destruct p as [| |ch|ch|]; try done; cbn [waiting] in Hw; unfold delay; rewrite ?E3, ?E4.
      * specialize (Harr Hw eq_refl). destruct (keyboard w) as [|[arr c] kb] eqn:Ek; [|lia]. exfalso.
        (* nothing left to type: everything was echoed, and no 'q' *)
        pose proof (ok_typed _ _ _ _ _ _ Hok) as Ht. pose proof (ok_display _ _ _ _ _ _ Hok) as Hd.
        pose proof (ok_read _ _ _ _ _ _ Hok) as Hr. rewrite decide_False in Hr by done. cbn in Ht, Hd. rewrite Ek in Ht.
        destruct (buffered w) as [|c l]; [|unfold zlen in Hr; cbn in Hr; lia]. cbn in Ht. rewrite app_nil_r in Ht. by rewrite Ht in Hq.
      * destruct (putBusy (console w)) eqn:Eb; [specialize (Hle eq_refl); lia|]. by rewrite Hb in Hw.
    + eapply run_to_mono; [by apply (done_ok typed false p w tp td)|]. intros [] w' (Hok' & E1 & E2 & E3).
      apply run_to_ret. exists tp, td. split; [done|]. right. split; [done|]. rewrite E3.
      pose proof (ok_busy _ _ _ _ _ _ Hok) as Hb. rewrite Eb in Hb. destruct p; try (destruct Hb; done). unfold delay. rewrite Eb. lia.
  - eapply run_to_mono; [by apply (thread_ok typed false p w tp td)|]. intros p' w' (td' & Hok' & Hd). rewrite Hw in Hd.
    exists tp, td'. split; [done|]. left. by destruct Hd.
Qed.

Lemma run_returns typed p w tp td : ok typed false p w tp td -> code_q ∈ typed ->
  exists fuel w', ConsoleTest_run fuel p w = Ok (Returned, w') /\ exists tp' td', ok typed false Returned w' tp' td'.
Proof.
  intros Hok Hq. remember (Z.to_nat (weight p w)) as n eqn:En. revert p w tp td En Hok.
  induction n as [n IHn] using lt_wf_ind. intros p w tp td En Hok.
  remember (Z.to_nat (delay p w tp td)) as d eqn:Ed. revert p w tp td En Ed Hok.
  induction d as [d IHd] using lt_wf_ind. intros p w tp td En Ed Hok.
  destruct (decide (p = Returned)) as [->|Hp]; [exists 0%nat, w; eauto|].
  destruct (advance typed p w tp td Hok Hq Hp) as (p' & w' & E & tp' & td' & Hok' & Hdec).
  pose proof (weight_nonneg _ _ _ _ _ _ Hok') as Hpos. assert (H : exists fuel w'', ConsoleTest_run fuel p' w' = Ok (Returned, w'') /\ exists tp' td', ok typed false Returned w'' tp' td').
  { destruct Hdec as [Hlt|[Heq Hlt]]; [eapply IHn; [|reflexivity|exact Hok']; lia|].
    eapply IHd; [|by rewrite Heq|reflexivity|exact Hok'].
    assert (0 <= delay p' w' tp' td'); [|lia]. unfold delay. destruct p'; repeat case_match; lia. }
  destruct H as (fuel & w'' & Hrun & Hok''). exists (S fuel), w''. split; [|done].
  destruct p; try done; cbn [ConsoleTest_run]; unfold mbind at 1, M_bind at 1, gets at 1; cbn beta iota; unfold id;
    unfold mbind at 1, M_bind at 1; rewrite E; exact Hrun.
Qed.

(** C12: whatever the order of the thread's steps and the console's
    interrupts, the console test never fails an ASSERT (PutChar never finds
    the display busy) unless the input is a file that comes to its end, and
    the display shows the beginning of what was typed, in order, each
    character once, nothing after the first 'q'.  When a 'q' is typed on a
    terminal, the thread always returns, from every state it can get into,
    and then the display shows exactly the characters up to that 'q'. *)
Theorem ConsoleTest_echoes typed ends now es w0 :
  EOF ∉ typed.*2 -> ConsoleTest_start typed ends now = Ok w0 ->
  match run es AtReadP w0 with
  | Ok (p, w) =>
      display w `prefix_of` upto_q typed.*2 /\ (p = Returned -> display w = upto_q typed.*2) /\
      (ends = false -> code_q ∈ typed.*2 ->
         exists fuel w', ConsoleTest_run fuel p w = Ok (Returned, w') /\ display w' = upto_q typed.*2)
  | Err e => e = AssertFailed /\ ends = true
  end.
Proof.
  intros Hc Hs. destruct (start_ok typed ends now Hc) as (w & tp & td & Hs' & Hok). rewrite Hs in Hs'. injection Hs' as <-.
  pose proof (run_ok typed.*2 ends es AtReadP w0 tp td Hok) as H. destruct (run es AtReadP w0) as [[p w]|e]; [|done].
  destruct H as (tp1 & td1 & Hok1). destruct (ok_echo _ _ _ _ _ _ Hok1) as [H1 H2]. split; [done|]. split; [done|].
  intros -> Hq. destruct (run_returns _ _ _ _ _ Hok1 Hq) as (fuel & w' & E & tp2 & td2 & Hok2). exists fuel, w'. split; [done|].
  by apply (ok_echo _ _ _ _ _ _ Hok2).
Qed.

(** "hiqx" is typed; two polls come before the thread runs. *)
Lemma ConsoleTest_echoes_witness :
  match run [ETime 50; EInterrupt; EInterrupt; EThread; EThread] AtReadP
    (match ConsoleTest_start [(0, 104); (500, 105); (700, 113); (710, 120)] false 0 with Ok w => w | Err _ => mkWorld (mkConsole false EOF) [] false [] 0 [] 0 0 0 0 end) with
  | Ok (p, w) => exists fuel w', ConsoleTest_run fuel p w = Ok (Returned, w') /\ display w' = [104; 105; 113]
  | Err e => False
  end.
Proof.
  pose proof (ConsoleTest_echoes [(0, 104); (500, 105); (700, 113); (710, 120)] false 0 [ETime 50; EInterrupt; EInterrupt; EThread; EThread] _
    ltac:(by apply (bool_decide_unpack _)) eq_refl) as H.
  cbn [ConsoleTest_start] in H.
  destruct (run _ _ _) as [[p w]|e]; [|by destruct H]. destruct H as (_ & _ & H).
  apply (H eq_refl). apply list_elem_of_In. cbn. unfold code_q. auto.
Defined.
