(* ===== verification/Network.v ===== *)
(** * machine/network.{h,cc} and network/post.{h,cc}

    Nachos instances that send each other packets through UNIX sockets: the
    network device of each, its post office with mailboxes and a postal
    worker, and the kernel threads that send and receive mail.

    Every thread takes one step at a time, and between any two steps a
    pending interrupt of any instance can come: [run] executes a sequence
    of [event]s.  P waits while the value is 0, Acquire while the lock is
    held by another thread, and a mailbox (a SynchList) is a queue.

    The fields [posted], [carried] and [taken] of a node record history;
    no operation depends on them. *)

From Stdlib Require Import QArith.
From stdpp Require Import base list numbers gmap.
From S2P Require Import Prelude Arrays State.
#[local] Open Scope Z_scope.

(** ** Packets and mail *)

Record PacketHeader := mkPH { p_to : Z; p_from : Z; p_length : Z }.
Record MailHeader := mkMH { m_to : Z; m_from : Z; m_length : Z }.

Definition sizeof_header : Z := 12.
Definition MaxWireSize : Z := 64.
Definition MaxPacketSize : Z := MaxWireSize - sizeof_header.
Definition MaxMailSize : Z := MaxPacketSize - sizeof_header.

(** The three words of either header in memory. *)
Definition header_bytes (to from length : Z) : list Z := words_to_bytes [u32 to; u32 from; length].
Definition ph_bytes (h : PacketHeader) : list Z := header_bytes (p_to h) (p_from h) (p_length h).
Definition mh_bytes (h : MailHeader) : list Z := header_bytes (m_to h) (m_from h) (m_length h).

Definition read_header (buffer : list Z) : res (Z * Z * Z) :=
  bs ← bread 0 sizeof_header buffer;
  match bytes_to_words 3 bs with
  | [to; from; length] => Ok (s32 to, s32 from, length)
  | _ => Err MemFault
  end.
Definition read_ph (buffer : list Z) : res PacketHeader :=
  h ← read_header buffer; let '(to, from, length) := h in Ok (mkPH to from length).
Definition read_mh (buffer : list Z) : res MailHeader :=
  h ← read_header buffer; let '(to, from, length) := h in Ok (mkMH to from length).

(** [mdata] is the array [data]. *)
Record Mail := mkMail { pktHdr : PacketHeader; mailHdr : MailHeader; mdata : list Z }.

(** A piece of mail as its sender and its receiver see it. *)
Definition message : Type := PacketHeader * MailHeader * list Z.

(** ** One instance *)

Inductive net_int := NetworkReadPoll | NetworkSendDone.

Record Network := mkNetwork {
  ident : Z;
  chanceToWork : Q;
  sendBusy : bool;
  inHdr : PacketHeader;
  inbox : list Z
}.

(** The postal worker: at P, after it, or with a letter in its buffer. *)
Inductive worker_pc := AtAvailable | AtReceive | AtPut (pktHdr : PacketHeader) (mailHdr : MailHeader).

(** What other threads ask of the post office, and where such a thread is:
    between calls, or in Send before the lock, before the network, before
    the P, before the release. *)
Inductive call := CSend (pktHdr : PacketHeader) (mailHdr : MailHeader) (data : list Z) | CReceive (box : Z).
Inductive client_pc := Ready | AtAcquire (h : PacketHeader) (buffer : list Z) | AtNetwork (h : PacketHeader) (buffer : list Z) | AtSent | AtRelease.

Record Client := mkClient { cpc : client_pc; calls : list call; got : list message }.

Record Node := mkNode {
  network : Network;
  socket : list (list Z);      (* datagrams waiting at this address *)
  pending : list net_int;      (* of the interrupt simulation *)
  numBoxes : Z;
  boxes : list (list Mail);
  messageAvailable : Z;
  messageSent : Z;
  sendLock : option nat;       (* the client that holds it *)
  worker : worker_pc;
  wbuffer : list Z;            (* buffer of PostalDelivery *)
  clients : list Client;
  numPacketsSent : Z;
  numPacketsRecvd : Z;
  posted : list message;       (* history: sent to this address *)
  carried : list message;      (* history: of those, the ones not lost *)
  taken : list (Z * message)   (* history: received here, with the box *)
}.

Definition set_network v n := mkNode v (socket n) (pending n) (numBoxes n) (boxes n) (messageAvailable n) (messageSent n) (sendLock n) (worker n) (wbuffer n) (clients n) (numPacketsSent n) (numPacketsRecvd n) (posted n) (carried n) (taken n).
Definition set_socket v n := mkNode (network n) v (pending n) (numBoxes n) (boxes n) (messageAvailable n) (messageSent n) (sendLock n) (worker n) (wbuffer n) (clients n) (numPacketsSent n) (numPacketsRecvd n) (posted n) (carried n) (taken n).
Definition set_pending v n := mkNode (network n) (socket n) v (numBoxes n) (boxes n) (messageAvailable n) (messageSent n) (sendLock n) (worker n) (wbuffer n) (clients n) (numPacketsSent n) (numPacketsRecvd n) (posted n) (carried n) (taken n).
Definition set_boxes v n := mkNode (network n) (socket n) (pending n) (numBoxes n) v (messageAvailable n) (messageSent n) (sendLock n) (worker n) (wbuffer n) (clients n) (numPacketsSent n) (numPacketsRecvd n) (posted n) (carried n) (taken n).
Definition set_messageAvailable v n := mkNode (network n) (socket n) (pending n) (numBoxes n) (boxes n) v (messageSent n) (sendLock n) (worker n) (wbuffer n) (clients n) (numPacketsSent n) (numPacketsRecvd n) (posted n) (carried n) (taken n).
Definition set_messageSent v n := mkNode (network n) (socket n) (pending n) (numBoxes n) (boxes n) (messageAvailable n) v (sendLock n) (worker n) (wbuffer n) (clients n) (numPacketsSent n) (numPacketsRecvd n) (posted n) (carried n) (taken n).
Definition set_sendLock v n := mkNode (network n) (socket n) (pending n) (numBoxes n) (boxes n) (messageAvailable n) (messageSent n) v (worker n) (wbuffer n) (clients n) (numPacketsSent n) (numPacketsRecvd n) (posted n) (carried n) (taken n).
Definition set_worker v n := mkNode (network n) (socket n) (pending n) (numBoxes n) (boxes n) (messageAvailable n) (messageSent n) (sendLock n) v (wbuffer n) (clients n) (numPacketsSent n) (numPacketsRecvd n) (posted n) (carried n) (taken n).
Definition set_wbuffer v n := mkNode (network n) (socket n) (pending n) (numBoxes n) (boxes n) (messageAvailable n) (messageSent n) (sendLock n) (worker n) v (clients n) (numPacketsSent n) (numPacketsRecvd n) (posted n) (carried n) (taken n).
Definition set_clients v n := mkNode (network n) (socket n) (pending n) (numBoxes n) (boxes n) (messageAvailable n) (messageSent n) (sendLock n) (worker n) (wbuffer n) v (numPacketsSent n) (numPacketsRecvd n) (posted n) (carried n) (taken n).
Definition count_sent n := mkNode (network n) (socket n) (pending n) (numBoxes n) (boxes n) (messageAvailable n) (messageSent n) (sendLock n) (worker n) (wbuffer n) (clients n) (numPacketsSent n + 1) (numPacketsRecvd n) (posted n) (carried n) (taken n).
Definition count_recvd n := mkNode (network n) (socket n) (pending n) (numBoxes n) (boxes n) (messageAvailable n) (messageSent n) (sendLock n) (worker n) (wbuffer n) (clients n) (numPacketsSent n) (numPacketsRecvd n + 1) (posted n) (carried n) (taken n).
Definition set_posted v n := mkNode (network n) (socket n) (pending n) (numBoxes n) (boxes n) (messageAvailable n) (messageSent n) (sendLock n) (worker n) (wbuffer n) (clients n) (numPacketsSent n) (numPacketsRecvd n) v (carried n) (taken n).
Definition set_carried v n := mkNode (network n) (socket n) (pending n) (numBoxes n) (boxes n) (messageAvailable n) (messageSent n) (sendLock n) (worker n) (wbuffer n) (clients n) (numPacketsSent n) (numPacketsRecvd n) (posted n) v (taken n).
Definition set_taken v n := mkNode (network n) (socket n) (pending n) (numBoxes n) (boxes n) (messageAvailable n) (messageSent n) (sendLock n) (worker n) (wbuffer n) (clients n) (numPacketsSent n) (numPacketsRecvd n) (posted n) (carried n) v.

Definition set_busy (b : bool) (n : Network) : Network := mkNetwork (ident n) (chanceToWork n) b (inHdr n) (inbox n).
Definition set_in (h : PacketHeader) (bytes : list Z) (n : Network) : Network :=
  mkNetwork (ident n) (chanceToWork n) (sendBusy n) h bytes.

(** ** All instances *)

Record World := mkWorld {
  nodes : gmap Z Node;      (* by address *)
  rand : nat -> Z;          (* what random() returns *)
  nrand : nat
}.

Definition get_node (d : Z) : M World Node := w ← gets nodes; lift (deref (w !! d)).
Definition upd_node (d : Z) (f : Node -> Node) : M World unit :=
  n ← get_node d;
  modify (fun w => mkWorld (<[d := f n]> (nodes w)) (rand w) (nrand w)).

Definition Random : M World Z :=
  w ← gets (fun w => (rand w, nrand w));
  _ ← modify (fun w => mkWorld (nodes w) (rand w) (S (nrand w)));
  ret (fst w (snd w)).

(** [interrupt->Schedule(handler, this, NetworkTime, type)]. *)
Definition Schedule (d : Z) (i : net_int) : M World unit := upd_node d (fun n => set_pending (pending n ++ [i]) n).

Section Post.
(** The byte [new char[]] finds in memory. *)
Context (garbage : Z).
Definition new_char (n : Z) : list Z := replicate (Z.to_nat n) garbage.

(** ** The network device *)

Definition clamp (reliability : Q) : Q :=
  if negb (Qle_bool 0 reliability) then 0%Q else if negb (Qle_bool reliability 1) then 1%Q else reliability.

(** [inHdr] but for its length, and [inbox], are not initialised. *)
Definition Network_new (addr : Z) (reliability : Q) (junk : PacketHeader) (box : list Z) : Network :=
  mkNetwork addr (clamp reliability) false (mkPH (p_to junk) (p_from junk) 0) box.

(** [readHandler] is the post office's IncomingPacket, V on a semaphore. *)
Definition IncomingPacket (d : Z) : M World unit := upd_node d (fun n => set_messageAvailable (messageAvailable n + 1) n).
Definition PacketSent (d : Z) : M World unit := upd_node d (fun n => set_messageSent (messageSent n + 1) n).

Definition CheckPktAvail (d : Z) : M World unit :=
  _ ← Schedule d NetworkReadPoll;
  n ← get_node d;
  if negb (p_length (inHdr (network n)) =? 0) then ret tt
  else
    match socket n with
    | [] => ret tt
    | packet :: rest =>
        _ ← upd_node d (set_socket rest);
        _ ← assert (zlen packet =? MaxWireSize);      (* ReadFromSocket *)
        h ← lift (read_ph packet);
        _ ← assert ((p_to h =? ident (network n)) && (p_length h <=? MaxPacketSize));
        bytes ← lift (bread sizeof_header (p_length h) packet);
        box ← lift (bwrite 0 bytes (inbox (network n)));
        _ ← upd_node d (fun n => set_network (set_in h box (network n)) n);
        _ ← upd_node d count_recvd;
        IncomingPacket d
    end.

Definition SendDone (d : Z) : M World unit :=
  _ ← upd_node d (fun n => set_network (set_busy false (network n)) n);
  _ ← upd_node d count_sent;
  PacketSent d.

(** [Random() % 100 >= chanceToWork * 100]. *)
Definition lost (r : Z) (chance : Q) : bool := Qle_bool (chance * 100) (inject_Z (Z.rem r 100)).

(** Whether the packet went out is returned for the history. *)
Definition Network_Send (d : Z) (hdr : PacketHeader) (data : list Z) : M World bool :=
  n ← get_node d;
  _ ← assert (negb (sendBusy (network n)) && (0 <? p_length hdr) && (p_length hdr <=? MaxPacketSize) && (p_from hdr =? ident (network n)));
  _ ← Schedule d NetworkSendDone;
  r ← Random;
  if lost r (chanceToWork (network n)) then ret false
  else
    let buffer := new_char MaxWireSize in
    buffer ← lift (bwrite 0 (ph_bytes hdr) buffer);
    bytes ← lift (bread 0 (p_length hdr) data);
    buffer ← lift (bwrite sizeof_header bytes buffer);
    w ← gets nodes;
    _ ← assert (bool_decide (is_Some (w !! p_to hdr)));      (* SendToSocket *)
    _ ← upd_node (p_to hdr) (fun n => set_socket (socket n ++ [buffer]) n);
    ret true.

(** The header, and what is in [data] afterwards. *)
Definition Network_Receive (d : Z) (data : list Z) : M World (PacketHeader * list Z) :=
  n ← get_node d;
  let hdr := inHdr (network n) in
  _ ← upd_node d (fun n => set_network (set_in (mkPH (p_to hdr) (p_from hdr) 0) (inbox (network n)) (network n)) n);
  if negb (p_length hdr =? 0) then
    bytes ← lift (bread 0 (p_length hdr) (inbox (network n)));
    data ← lift (bwrite 0 bytes data);
    ret (hdr, data)
  else ret (hdr, data).

(** ** Mailboxes *)

Definition Mail_new (pktH : PacketHeader) (mailH : MailHeader) (msgData : list Z) : res Mail :=
  _ ← ASSERT (m_length mailH <=? MaxMailSize);
  bytes ← bread 0 (m_length mailH) msgData;
  data ← bwrite 0 bytes (new_char MaxMailSize);
  Ok (mkMail pktH mailH data).

Definition MailBox_Put (d box : Z) (pktHdr : PacketHeader) (mailHdr : MailHeader) (data : list Z) : M World unit :=
  mail ← lift (Mail_new pktHdr mailHdr data);
  n ← get_node d;
  messages ← lift (aget (boxes n) box);
  bs ← lift (aset (boxes n) box (messages ++ [mail]));
  upd_node d (set_boxes bs).

(** [None] while the box is empty: the caller waits. *)
Definition MailBox_Get (d box : Z) : M World (option message) :=
  n ← get_node d;
  messages ← lift (aget (boxes n) box);
  match messages with
  | [] => ret None
  | mail :: rest =>
      bs ← lift (aset (boxes n) box rest);
      _ ← upd_node d (set_boxes bs);
      bytes ← lift (bread 0 (m_length (mailHdr mail)) (mdata mail));
      ret (Some (pktHdr mail, mailHdr mail, bytes))
  end.

(** ** The post office *)

(** One step of PostalDelivery. *)
Definition PostalDelivery_step (d : Z) : M World unit :=
  n ← get_node d;
  match worker n with
  | AtAvailable =>
      if messageAvailable n =? 0 then ret tt
      else upd_node d (fun n => set_worker AtReceive (set_messageAvailable (messageAvailable n - 1) n))
  | AtReceive =>
      r ← Network_Receive d (wbuffer n);
      let '(pktHdr, buffer) := r in
      mailHdr ← lift (read_mh buffer);
      upd_node d (fun n => set_worker (AtPut pktHdr mailHdr) (set_wbuffer buffer n))
  | AtPut pktHdr mailHdr =>
      _ ← assert ((0 <=? m_to mailHdr) && (m_to mailHdr <? numBoxes n));
      _ ← assert (m_length mailHdr <=? MaxMailSize);
      _ ← MailBox_Put d (m_to mailHdr) pktHdr mailHdr (drop (Z.to_nat sizeof_header) (wbuffer n));
      upd_node d (set_worker AtAvailable)
  end.

(** Send up to the lock: the header and the buffer for the network. *)
Definition Send_prepare (n : Node) (pktHdr : PacketHeader) (mailHdr : MailHeader) (data : list Z) : res (PacketHeader * list Z) :=
  let buffer := new_char MaxPacketSize in
  _ ← ASSERT (m_length mailHdr <=? MaxMailSize);
  _ ← ASSERT ((0 <=? m_to mailHdr) && (m_to mailHdr <? numBoxes n));
  let pktHdr := mkPH (p_to pktHdr) (ident (network n)) (m_length mailHdr + sizeof_header) in
  buffer ← bwrite 0 (mh_bytes mailHdr) buffer;
  bytes ← bread 0 (m_length mailHdr) data;
  buffer ← bwrite sizeof_header bytes buffer;
  Ok (pktHdr, buffer).

Definition get_client (d : Z) (i : nat) : M World Client := n ← get_node d; lift (deref (clients n !! i)).
Definition set_pc (d : Z) (i : nat) (c : Client) (p : client_pc) : M World unit :=
  upd_node d (fun n => set_clients (<[i := mkClient p (calls c) (got c)]> (clients n)) n).
(** The call returns; Receive appends to what the thread got. *)
Definition return_ (d : Z) (i : nat) (c : Client) (m : list message) : M World unit :=
  upd_node d (fun n => set_clients (<[i := mkClient Ready (tail (calls c)) (got c ++ m)]> (clients n)) n).

(** One step of a thread in PostOffice::Send or PostOffice::Receive. *)
Definition client_step (d : Z) (i : nat) : M World unit :=
  c ← get_client d i;
  n ← get_node d;
  match cpc c with
  | Ready =>
      match calls c with
      | [] => ret tt
      | CSend pktHdr mailHdr data :: _ =>
          r ← lift (Send_prepare n pktHdr mailHdr data);
          set_pc d i c (AtAcquire (fst r) (snd r))
      | CReceive box :: _ =>
          _ ← assert ((0 <=? box) && (box <? numBoxes n));
          m ← MailBox_Get d box;
          match m with
          | None => ret tt
          | Some m =>
              _ ← assert (m_length (snd (fst m)) <=? MaxMailSize);
              _ ← upd_node d (fun n => set_taken (taken n ++ [(box, m)]) n);
              return_ d i c [m]
          end
      end
  | AtAcquire h buffer =>
      match sendLock n with
      | Some _ => ret tt
      | None => _ ← upd_node d (set_sendLock (Some i)); set_pc d i c (AtNetwork h buffer)
      end
  | AtNetwork h buffer =>
      out ← Network_Send d h buffer;
      _ ← (match calls c with
           | CSend _ mailHdr data :: _ =>
               let m := (h, mailHdr, take (Z.to_nat (m_length mailHdr)) data) in
               _ ← (if out : bool then upd_node (p_to h) (fun n => set_carried (carried n ++ [m]) n) else ret tt);
               w ← gets nodes;
               if bool_decide (is_Some (w !! p_to h)) then upd_node (p_to h) (fun n => set_posted (posted n ++ [m]) n) else ret tt
           | _ => ret tt
           end);
      set_pc d i c AtSent
  | AtSent =>
      if messageSent n =? 0 then ret tt
      else _ ← upd_node d (fun n => set_messageSent (messageSent n - 1) n); set_pc d i c AtRelease
  | AtRelease => _ ← upd_node d (set_sendLock None); return_ d i c []
  end.

(** The [i]-th pending interrupt is taken. *)
Definition take_interrupt (d : Z) (i : nat) : M World unit :=
  n ← get_node d;
  match pending n !! i with
  | None => ret tt
  | Some k =>
      _ ← upd_node d (fun n => set_pending (delete i (pending n)) n);
      match k with NetworkReadPoll => CheckPktAvail d | NetworkSendDone => SendDone d end
  end.

Inductive event := EClient (d : Z) (i : nat) | EWorker (d : Z) | EInterrupt (d : Z) (i : nat).

(** Whether there is such an instance and such a thread. *)
Definition enabled (e : event) (w : World) : bool :=
  match e with
  | EClient d i => match nodes w !! d with Some n => bool_decide (is_Some (clients n !! i)) | None => false end
  | EWorker d | EInterrupt d _ => bool_decide (is_Some (nodes w !! d))
  end.

Definition exec (e : event) : M World unit :=
  b ← gets (enabled e);
  if negb b then ret tt
  else
    match e with
    | EClient d i => client_step d i
    | EWorker d => PostalDelivery_step d
    | EInterrupt d i => take_interrupt d i
    end.

Fixpoint run (es : list event) : M World unit :=
  match es with
  | [] => ret tt
  | e :: es => _ ← exec e; run es
  end.

(** An instance after PostOffice::PostOffice; [junk], [box] and [buf] are
    what the device and the worker find in their buffers. *)
Definition PostOffice_new (addr : Z) (reliability : Q) (nBoxes : Z) (junk : PacketHeader) (box buf : list Z) (cs : list (list call)) : Node :=
  mkNode (Network_new addr reliability junk box) [] [NetworkReadPoll] nBoxes (replicate (Z.to_nat nBoxes) [])
    0 0 None AtAvailable buf ((fun c => mkClient Ready c []) <$> cs) 0 0 [] [] [].
End Post.
