(* ===== verification/NetworkSafe.v ===== *)
(** * Mail is delivered in order

    The invariant of Nachos instances on a network, that every step of a
    thread and every interrupt keeps it, and that mail never gets stuck. *)

From Stdlib Require Import QArith Sorting.Permutation.
From stdpp Require Import base list numbers gmap.
From S2P Require Import Prelude Arrays State Network.
#[local] Open Scope Z_scope.

(** ** Headers in memory *)

Lemma zlen_header to from len : zlen (header_bytes to from len) = sizeof_header.
Proof. unfold header_bytes, zlen. by rewrite length_words_to_bytes. Qed.

Lemma read_header_bytes to from len rest : in_s32 to -> in_s32 from -> in_u32 len ->
  read_header (header_bytes to from len ++ rest) = Ok (to, from, len).
Proof.
  intros Ht Hf Hl. unfold read_header. pose proof (zlen_header to from len) as Hz.
  rewrite bread_Ok; [|done|done|rewrite zlen_app, Hz; unfold zlen, sizeof_header; lia]. cbn [mbind res_bind].
  assert (E : slice 0 sizeof_header (header_bytes to from len ++ rest) = header_bytes to from len).
  { unfold slice. rewrite drop_0. apply take_app_length'. unfold zlen, sizeof_header in *. lia. }
  rewrite E. unfold header_bytes. change 3%nat with (length [u32 to; u32 from; len]). rewrite bytes_to_words_to_bytes by (repeat constructor; try apply u32_range; apply Hl).
  by rewrite !s32_u32, !s32_id.
Qed.

(** ** Messages *)

Definition to_of (m : message) : Z := m_to (snd (fst m)).

(** A message for [d], of a system with [nb] mailboxes per instance. *)
Record msg_ok (nb d : Z) (m : message) : Prop := {
  mo_to : p_to (fst (fst m)) = d;
  mo_d : in_s32 d;
  mo_from : in_s32 (p_from (fst (fst m)));
  mo_len : p_length (fst (fst m)) = sizeof_header + m_length (snd (fst m));
  mo_box : 0 <= to_of m < nb;
  mo_boxi : in_s32 (to_of m);
  mo_reply : in_s32 (m_from (snd (fst m)));
  mo_size : m_length (snd (fst m)) = zlen (snd m);
  mo_max : zlen (snd m) <= MaxMailSize
}.

Definition payload (m : message) : list Z := mh_bytes (snd (fst m)) ++ snd m.

Lemma zlen_payload nb d m : msg_ok nb d m -> zlen (payload m) = p_length (fst (fst m)).
Proof. intros []. unfold payload, mh_bytes. rewrite zlen_app, zlen_header. lia. Qed.

(** A packet in a socket, a letter in a mailbox. *)
Definition wire_ok (packet : list Z) (m : message) : Prop :=
  zlen packet = MaxWireSize /\ (ph_bytes (fst (fst m)) ++ payload m) `prefix_of` packet.

Definition mail_message (l : Mail) : message :=
  (pktHdr l, mailHdr l, take (Z.to_nat (m_length (mailHdr l))) (mdata l)).
Definition mail_ok (l : Mail) : Prop := 0 <= m_length (mailHdr l) <= MaxMailSize /\ zlen (mdata l) = MaxMailSize.

(** What was delivered to a box: taken out already, or still inside. *)
Definition mailbox (n : Node) (b : Z) : list message :=
  (filter (fun x => fst x = b) (taken n)).*2 ++ (mail_message <$> default [] (boxes n !! Z.to_nat b)).

Definition for_box (b : Z) (l : list message) : list message := filter (fun m => to_of m = b) l.

Lemma prefix_take_slice (a l : list Z) n : n = zlen a -> a `prefix_of` l -> bread 0 n l = Ok a.
Proof.
  intros -> (k & ->). rewrite bread_Ok; [|done|unfold zlen; lia|rewrite zlen_app; unfold zlen; lia].
  unfold slice. rewrite drop_0. by rewrite take_app_length' by (unfold zlen; lia).
Qed.

Lemma prefix_zlen {A} (a l : list A) : a `prefix_of` l -> zlen a <= zlen l.
Proof. intros (k & ->). rewrite zlen_app. unfold zlen. lia. Qed.

(** Writing at the start of a buffer. *)
Lemma bwrite_start (a l : list Z) : zlen a <= zlen l -> exists l', bwrite 0 a l = Ok l' /\ a `prefix_of` l' /\ zlen l' = zlen l.
Proof.
  intros H. rewrite bwrite_Ok by lia. eexists. split; [done|]. split; [|apply zlen_splice; lia].
  unfold splice. change (Z.to_nat 0) with 0%nat. rewrite take_0. cbn [app]. by eexists.
Qed.

(** Writing after a prefix. *)
Lemma bwrite_after (p a l : list Z) : p `prefix_of` l -> zlen p + zlen a <= zlen l ->
  exists l', bwrite (zlen p) a l = Ok l' /\ (p ++ a) `prefix_of` l' /\ zlen l' = zlen l.
Proof.
  intros (k & ->) H. rewrite bwrite_Ok by (unfold zlen in *; lia). eexists. split; [done|].
  split; [|apply zlen_splice; unfold zlen in *; lia]. unfold splice.
  rewrite take_app_length' by (unfold zlen; lia). rewrite app_assoc. by eexists.
Qed.

Lemma read_mh_payload nb d m buf : msg_ok nb d m -> payload m `prefix_of` buf -> read_mh buf = Ok (snd (fst m)).
Proof.
  intros Hm (k & ->). pose proof (mo_size _ _ _ Hm). pose proof (mo_max _ _ _ Hm) as Hx. unfold MaxMailSize, MaxPacketSize, MaxWireSize, sizeof_header in Hx.
  unfold read_mh, payload, mh_bytes. rewrite <-app_assoc. rewrite read_header_bytes; [by destruct (snd (fst m))|apply Hm|apply Hm|].
  split; unfold zlen in *; lia.
Qed.

Lemma read_ph_wire nb d packet m : msg_ok nb d m -> wire_ok packet m -> read_ph packet = Ok (fst (fst m)).
Proof.
  intros Hm [_ (k & ->)]. pose proof (mo_size _ _ _ Hm). pose proof (mo_len _ _ _ Hm) as Hl. pose proof (mo_max _ _ _ Hm) as Hx. unfold MaxMailSize, MaxPacketSize, MaxWireSize, sizeof_header in *.
  unfold read_ph, ph_bytes. rewrite <-app_assoc, read_header_bytes; [by destruct (fst (fst m))| | |].
  - rewrite (mo_to _ _ _ Hm). apply Hm.
  - apply Hm.
  - split; unfold zlen in *; lia.
Qed.

(** ** Computations on one instance *)

Definition with_node (d : Z) (n : Node) (w : World) : World := mkWorld (<[d := n]> (nodes w)) (rand w) (nrand w).

Lemma with_with d n n' w : with_node d n' (with_node d n w) = with_node d n' w.
Proof. unfold with_node. cbn. by rewrite insert_insert_eq. Qed.

Lemma nodes_with d n w : nodes (with_node d n w) !! d = Some n.
Proof. apply lookup_insert_eq. Qed.

Lemma with_same d n w : nodes w !! d = Some n -> with_node d n w = w.
Proof. intros H. unfold with_node. rewrite insert_id by done. by destruct w. Qed.

(** [m], run where [d] is [n], only changes [d], as [Q] says. *)
Definition runs (d : Z) {A} (m : M World A) (n : Node) (Q : A -> Node -> Prop) : Prop :=
  forall w, nodes w !! d = Some n -> run_to m w (fun a w' => exists n', w' = with_node d n' w /\ Q a n').

Section Runs.
Context (d : Z).

Lemma runs_ret {A} (a : A) n Q : Q a n -> runs d (ret a) n Q.
Proof. intros H w Hw. apply run_to_ret. exists n. by rewrite with_same. Qed.

Lemma runs_bind {A B} (m : M World A) (f : A -> M World B) n Q :
  runs d m n (fun a n' => runs d (f a) n' Q) -> runs d (m ≫= f) n Q.
Proof.
  intros H w Hw. apply run_to_bind. eapply run_to_mono; [by apply H|]. intros a w' (n' & -> & H').
  eapply run_to_mono; [apply H', nodes_with|]. intros b w' (n2 & -> & HQ). exists n2. by rewrite with_with.
Qed.

Lemma runs_get n Q : Q n n -> runs d (get_node d) n Q.
Proof.
  intros H w Hw. unfold get_node. apply run_to_bind, run_to_gets. eapply run_to_lift; [by rewrite Hw|].
  exists n. by rewrite with_same.
Qed.

Lemma runs_upd f n Q : Q tt (f n) -> runs d (upd_node d f) n Q.
Proof.
  intros H w Hw. unfold upd_node, get_node. apply run_to_bind, run_to_bind, run_to_gets.
  eapply run_to_lift; [by rewrite Hw|]. apply run_to_modify. by exists (f n).
Qed.

Lemma runs_lift {A} (r : res A) a n Q : r = Ok a -> Q a n -> runs d (lift r) n Q.
Proof. intros -> H w Hw. eapply run_to_lift; [done|]. exists n. by rewrite with_same. Qed.

Lemma runs_assert b n Q : b = true -> Q tt n -> runs d (assert b) n Q.
Proof. intros -> H. by eapply runs_lift. Qed.

Lemma runs_mono {A} (m : M World A) n (P Q : A -> Node -> Prop) :
  runs d m n P -> (forall a n', P a n' -> Q a n') -> runs d m n Q.
Proof. intros H HPQ w Hw. eapply run_to_mono; [by apply H|]. intros a w' (n' & -> & HP). exists n'. auto. Qed.
End Runs.

Ltac nstep :=
  lazymatch goal with
  | |- runs _ (_ ≫= _) _ _ => apply runs_bind; nstep
  | |- runs _ (ret _) _ _ => apply runs_ret
  | |- runs _ (get_node _) _ _ => apply runs_get
  | |- runs _ (upd_node _ _) _ _ => apply runs_upd
  | |- runs _ (assert _) _ _ => apply runs_assert
  | |- runs _ (lift _) _ _ => eapply runs_lift
  | _ => idtac
  end.

(** ** The invariant *)

(** Receiving: of what was carried here, [del] is delivered, [hand] is with
    the worker, [inb] in the device, [sock] in the socket. *)
Record recv_ok (nb d : Z) (n : Node) (del hand inb sock : list message) : Prop := {
  rc_ident : ident (network n) = d;
  rc_inbox : zlen (inbox (network n)) = MaxPacketSize;
  rc_wbuf : zlen (wbuffer n) = MaxPacketSize;
  rc_nb : numBoxes n = nb;
  rc_boxes : zlen (boxes n) = nb;
  rc_hand : match worker n with
            | AtPut h mh => exists m, hand = [m] /\ fst m = (h, mh) /\ payload m `prefix_of` wbuffer n
            | _ => hand = []
            end;
  rc_in : if p_length (inHdr (network n)) =? 0 then inb = []
          else exists m, inb = [m] /\ fst (fst m) = inHdr (network n) /\ payload m `prefix_of` inbox (network n);
  rc_sock : Forall2 wire_ok (socket n) sock;
  rc_msgs : Forall (msg_ok nb d) (carried n);
  rc_carried : carried n = del ++ hand ++ inb ++ sock;
  rc_avail : messageAvailable n =
    match worker n with AtReceive => 0 | _ => if p_length (inHdr (network n)) =? 0 then 0 else 1 end;
  rc_full : worker n = AtReceive -> inb <> [];
  rc_boxed : forall b, 0 <= b < nb -> mailbox n b = for_box b del;
  rc_mails : Forall (Forall mail_ok) (boxes n)
}.

(** Sending: one client at a time is between Acquire and Release; the
    interrupt of its packet is pending, or has been and V was done. *)
Definition idle (p : client_pc) : Prop := match p with Ready | AtAcquire _ _ => True | _ => False end.
Definition phase (p : client_pc) (sending : bool) (sent : Z) : Prop :=
  match p with
  | AtNetwork _ _ | AtRelease => sending = false /\ sent = 0
  | AtSent => sent = if sending then 0 else 1
  | _ => False
  end.

Definition call_ok (D : gset Z) (nb : Z) (c : call) : Prop :=
  match c with
  | CSend ph mh data => p_to ph ∈ D /\ 0 <= m_to mh < nb /\ in_s32 (m_to mh) /\ in_s32 (m_from mh) /\
      0 <= m_length mh <= MaxMailSize /\ m_length mh <= zlen data
  | CReceive box => 0 <= box < nb
  end.

(** The message a call sends. *)
Definition sent_message (d : Z) (ph : PacketHeader) (mh : MailHeader) (data : list Z) : message :=
  (mkPH (p_to ph) d (m_length mh + sizeof_header), mh, take (Z.to_nat (m_length mh)) data).

Definition client_ok (D : gset Z) (nb d : Z) (c : Client) : Prop :=
  Forall (call_ok D nb) (calls c) /\
  match cpc c with
  | AtAcquire h buf | AtNetwork h buf => exists ph mh data rest, calls c = CSend ph mh data :: rest /\
      h = fst (fst (sent_message d ph mh data)) /\ payload (sent_message d ph mh data) `prefix_of` buf
  | _ => True
  end.

Record send_ok (D : gset Z) (nb d : Z) (n : Node) (sending : bool) : Prop := {
  sn_busy : sendBusy (network n) = false;
  sn_pending : pending n ≡ₚ NetworkReadPoll :: (if sending then [NetworkSendDone] else []);
  sn_lock : match sendLock n with
            | None => sending = false /\ messageSent n = 0 /\ forall j c, clients n !! j = Some c -> idle (cpc c)
            | Some i => (exists c, clients n !! i = Some c /\ phase (cpc c) sending (messageSent n)) /\
                forall j c, j <> i -> clients n !! j = Some c -> idle (cpc c)
            end;
  sn_clients : Forall (client_ok D nb d) (clients n)
}.

(** Nothing is lost on a reliable network ([rel]). *)
Record hist_ok (rel : Prop) (n : Node) : Prop := {
  hi_sublist : carried n `sublist_of` posted n;
  hi_all : rel -> carried n = posted n;
  hi_chance : rel -> (1 <= chanceToWork (network n))%Q
}.

(** [S] says what holds of the sending half. *)
Definition node_with (rel : Prop) (nb : Z) (S : Z -> Node -> Prop) (d : Z) (n : Node) : Prop :=
  in_s32 d /\ (exists del hand inb sock, recv_ok nb d n del hand inb sock) /\ S d n /\ hist_ok rel n.

Definition world_with (rel : Prop) (D : gset Z) (nb : Z) (S : Z -> Node -> Prop) (w : World) : Prop :=
  dom (nodes w) = D /\ forall d n, nodes w !! d = Some n -> node_with rel nb S d n.

Definition sends (D : gset Z) (nb d : Z) (n : Node) : Prop := exists sending, send_ok D nb d n sending.

Definition world_ok (rel : Prop) (D : gset Z) (nb : Z) : World -> Prop := world_with rel D nb (sends D nb).

Lemma with_node_ok rel D nb (S S' : Z -> Node -> Prop) d n n' w : world_with rel D nb S w -> nodes w !! d = Some n ->
  (forall d' n', d' <> d -> S d' n' -> S' d' n') -> node_with rel nb S' d n' ->
  world_with rel D nb S' (with_node d n' w).
Proof.
  intros [Hdom Hall] Hn HS Hn'. split.
  - unfold with_node. cbn. rewrite dom_insert_L. assert (d ∈ dom (nodes w)) by by apply elem_of_dom. set_solver.
  - intros d' n2. unfold with_node. cbn. destruct (decide (d' = d)) as [->|Hne].
    + rewrite lookup_insert_eq. by intros [= <-].
    + rewrite lookup_insert_ne by done. intros H. destruct (Hall d' n2 H) as (H1 & H2 & H3 & H4). split_and!; auto.
Qed.

(** An operation on one instance. *)
Lemma runs_world {A} rel D nb (S S' : Z -> Node -> Prop) d n (m : M World A) w (R : A -> Prop) : world_with rel D nb S w -> nodes w !! d = Some n ->
  (forall d' n', d' <> d -> S d' n' -> S' d' n') ->
  runs d m n (fun a n' => node_with rel nb S' d n' /\ R a) -> run_to m w (fun a w' => world_with rel D nb S' w' /\ R a).
Proof.
  intros Hw Hn HS Hr. eapply run_to_mono; [by apply Hr|]. intros a w' (n' & -> & Hn' & HR).
  split; [by eapply with_node_ok|done].
Qed.

(** ** The device *)

Lemma poll_recv nb d n del hand inb sock :
  recv_ok nb d n del hand inb sock ->
  runs d (CheckPktAvail d) n (fun _ n' => (exists inb' sock', recv_ok nb d n' del hand inb' sock' /\
      length inb' + length sock' = length inb + length sock /\ worker n' = worker n /\
      (inb = [] -> sock <> [] -> length sock' < length sock))%nat /\
    pending n' = pending n ++ [NetworkReadPoll] /\ messageSent n' = messageSent n /\ sendLock n' = sendLock n /\ clients n' = clients n /\
    sendBusy (network n') = sendBusy (network n) /\ posted n' = posted n /\ carried n' = carried n /\ chanceToWork (network n') = chanceToWork (network n) /\
    boxes n' = boxes n /\ taken n' = taken n).
Proof.
  intros Hr. unfold CheckPktAvail, Schedule. nstep. nstep. cbn [network socket set_pending].
  pose proof (rc_in _ _ _ _ _ _ _ Hr) as Hin. pose proof (rc_sock _ _ _ _ _ _ _ Hr) as Hs.
  destruct (p_length (inHdr (network n)) =? 0) eqn:El; cbn [negb].
  - destruct (socket n) as [|packet rest] eqn:Es.
    { nstep. split; [|done]. exists inb, sock. destruct Hr. inversion Hs. subst. split; [by split|done]. }
    inversion Hs as [|? m ? sock' Hm Hrest E1 E2]. subst sock inb.
    assert (Hmo : msg_ok nb d m).
    { pose proof (rc_msgs _ _ _ _ _ _ _ Hr) as Hf. rewrite (rc_carried _ _ _ _ _ _ _ Hr), !Forall_app in Hf. destruct Hf as (_ & _ & _ & Hf). by inversion Hf. }
    pose proof (zlen_payload _ _ _ Hmo) as Hpl. pose proof (mo_len _ _ _ Hmo) as Hlen. pose proof (mo_size _ _ _ Hmo) as Hsz.
    pose proof (mo_max _ _ _ Hmo) as Hmax. assert (Hmax' : p_length (fst (fst m)) <= MaxPacketSize) by (unfold MaxMailSize in Hmax; lia).
    nstep. nstep; [by rewrite (proj1 Hm)|]. nstep; [by eapply read_ph_wire|].
    nstep. { rewrite (mo_to _ _ _ Hmo), (rc_ident _ _ _ _ _ _ _ Hr). rewrite Z.eqb_refl. cbn. by apply Z.leb_le. }
    nstep. { destruct Hm as [Hz Hpre]. assert (Hb : bread sizeof_header (p_length (fst (fst m))) packet = Ok (payload m)); [|exact Hb].
      destruct Hpre as (k & E). rewrite bread_Ok; [|done|unfold zlen in *; lia|rewrite Hz; unfold MaxPacketSize in Hmax'; lia].
      rewrite E, <-app_assoc. unfold slice. rewrite drop_app_length' by (pose proof (zlen_header (p_to (fst (fst m))) (p_from (fst (fst m))) (p_length (fst (fst m)))) as Hh; unfold ph_bytes, zlen in *; lia).
      f_equal. apply take_app_length'. unfold zlen in *. lia. }
    destruct (bwrite_start (payload m) (inbox (network n))) as (box & Eb & Hpre & Hzb); [rewrite (rc_inbox _ _ _ _ _ _ _ Hr); lia|].
    nstep; [exact Eb|]. nstep. nstep. unfold IncomingPacket. nstep. split; [|done].
    exists [m], sock'. cbn. split; [|split_and!; [done|done|lia]]. destruct Hr. split; try done; cbn.
    + congruence.
    + destruct (Z.eqb_spec (p_length (fst (fst m))) 0) as [E|E]; [unfold sizeof_header, zlen in *; lia|]. by exists m.
    + rewrite rc_avail0, El. destruct (worker n); [| |]; destruct (Z.eqb_spec (p_length (fst (fst m))) 0) as [E|E]; try (unfold sizeof_header, zlen in *; lia).
      by destruct (rc_full0 eq_refl).
  - nstep. split; [|done]. exists inb, sock. split; [|split_and!; [done|done|by intros ->; destruct Hin as (? & ? & _)]].
    destruct Hr. by split.
Qed.

(** ** Mailboxes and the postal worker *)

(** Steps until everything that was carried here is in its box. *)
Definition work (p : worker_pc) (hand inb sock : list message) : Z :=
  5 * zlen sock + 4 * zlen inb + 2 * zlen hand - match p with AtReceive => 1 | _ => 0 end.

Section Safe.
Context (garbage : Z).

Lemma mailbox_insert n b bs l b' : 0 <= b -> boxes n !! Z.to_nat b = Some l -> 0 <= b' ->
  mailbox (set_boxes (<[Z.to_nat b := bs]> (boxes n)) n) b' =
  if decide (b' = b) then (filter (fun x => fst x = b) (taken n)).*2 ++ (mail_message <$> bs) else mailbox n b'.
Proof.
  intros Hb Hl Hb'. unfold mailbox. cbn. destruct (decide (b' = b)) as [->|Hne].
  - rewrite list_lookup_insert_eq; [done|by eapply lookup_lt_Some].
  - by rewrite list_lookup_insert_ne by lia.
Qed.

Lemma for_box_snoc b l m : for_box b (l ++ [m]) = if decide (to_of m = b) then for_box b l ++ [m] else for_box b l.
Proof.
  unfold for_box. rewrite filter_app, filter_cons, filter_nil. case_decide; [done|]. by rewrite app_nil_r.
Qed.

Lemma Mail_new_ok nb d m buf : msg_ok nb d m -> payload m `prefix_of` buf ->
  exists l, Mail_new garbage (fst (fst m)) (snd (fst m)) (drop (Z.to_nat sizeof_header) buf) = Ok l /\ mail_message l = m /\ mail_ok l.
Proof.
  intros Hm (k & ->). pose proof (mo_size _ _ _ Hm) as Hs. pose proof (mo_max _ _ _ Hm) as Hx. unfold Mail_new.
  rewrite (ASSERT_true (m_length _ <=? _)) by lia. cbn [mbind res_bind]. unfold payload, mh_bytes. rewrite <-app_assoc.
  rewrite drop_app_length' by (pose proof (zlen_header (m_to (snd (fst m))) (m_from (snd (fst m))) (m_length (snd (fst m)))) as H; unfold zlen in H; lia).
  rewrite (prefix_take_slice (snd m)); [|done|by eexists]. cbn [mbind res_bind].
  assert (Hz : zlen (new_char garbage MaxMailSize) = MaxMailSize) by (unfold new_char, zlen; by rewrite length_replicate).
  destruct (bwrite_start (snd m) (new_char garbage MaxMailSize)) as (l & E & (t & ->) & Hl); [by rewrite Hz|].
  rewrite E. cbn [mbind res_bind]. eexists. split; [done|]. split.
  - unfold mail_message. cbn. rewrite take_app_length' by (unfold zlen in Hs; lia). by destruct m as [[h mh] data].
  - split; cbn; [unfold zlen in *; lia|congruence].
Qed.

Lemma worker_recv nb d n del hand inb sock : recv_ok nb d n del hand inb sock ->
  runs d (PostalDelivery_step garbage d) n (fun _ n' => (exists del' hand' inb', recv_ok nb d n' del' hand' inb' sock /\
      (hand <> [] \/ inb <> [] -> work (worker n') hand' inb' sock < work (worker n) hand inb sock)) /\
    pending n' = pending n /\ messageSent n' = messageSent n /\ sendLock n' = sendLock n /\ clients n' = clients n /\
    sendBusy (network n') = sendBusy (network n) /\ posted n' = posted n /\ carried n' = carried n /\ chanceToWork (network n') = chanceToWork (network n)).
Proof.
  intros Hr. pose proof (rc_hand _ _ _ _ _ _ _ Hr) as Hh. pose proof (rc_in _ _ _ _ _ _ _ Hr) as Hin.
  pose proof (rc_avail _ _ _ _ _ _ _ Hr) as Ha. pose proof (rc_msgs _ _ _ _ _ _ _ Hr) as Hf.
  rewrite (rc_carried _ _ _ _ _ _ _ Hr), !Forall_app in Hf. destruct Hf as (_ & Hf1 & Hf2 & _).
  unfold PostalDelivery_step. nstep. destruct (worker n) as [| |h mh] eqn:Ew.
  - subst hand. destruct (p_length (inHdr (network n)) =? 0) eqn:El; rewrite Ha; cbn [Z.eqb].
    + nstep. split; [|done]. exists del, [], inb. split; [done|]. subst inb. by intros [].
    + nstep. split; [|done]. exists del, [], inb. destruct Hin as (m & -> & Hm). split; [|by unfold work; cbn; lia].
      destruct Hr. split; try done; cbn; rewrite ?El. by rewrite Ha.
  - subst hand. pose proof (rc_full _ _ _ _ _ _ _ Hr Ew) as Hfull.
    destruct (p_length (inHdr (network n)) =? 0) eqn:El; [done|]. destruct Hin as (m & -> & Hm1 & Hm2).
    inversion Hf2 as [|? ? Hmo _]. subst. pose proof (zlen_payload _ _ _ Hmo) as Hpl. rewrite Hm1 in Hpl.
    pose proof (prefix_zlen _ _ Hm2) as Hle. rewrite (rc_inbox _ _ _ _ _ _ _ Hr) in Hle.
    unfold Network_Receive. apply runs_bind. nstep. nstep. rewrite El. cbn [negb]. nstep; [by apply (prefix_take_slice (payload m))|].
    destruct (bwrite_start (payload m) (wbuffer n)) as (buf & Eb & Hpre & Hzb); [by rewrite (rc_wbuf _ _ _ _ _ _ _ Hr)|].
    nstep; [exact Eb|]. nstep. nstep; [by eapply read_mh_payload|]. nstep. split; [|done].
    exists del, [m], []. split; [|by unfold work, zlen; cbn; lia]. destruct Hr. split; try done; cbn.
    + congruence.
    + exists m. rewrite <-Hm1. by destruct m as [[]].
  - destruct Hh as (m & -> & Hm1 & Hm2). inversion Hf1 as [|? ? Hmo _]. subst. pose proof (mo_box _ _ _ Hmo) as Hb. unfold to_of in Hb. rewrite Hm1 in Hb. cbn in Hb.
    pose proof (mo_size _ _ _ Hmo) as Hs. pose proof (mo_max _ _ _ Hmo) as Hx. rewrite Hm1 in Hs. cbn in Hs.
    nstep; [rewrite (rc_nb _ _ _ _ _ _ _ Hr); lia|]. nstep; [lia|]. unfold MailBox_Put. apply runs_bind.
    destruct (Mail_new_ok nb d m _ Hmo Hm2) as (l & El & Em & Hl). rewrite Hm1 in El. cbn [fst snd] in El.
    nstep; [exact El|]. nstep. pose proof (rc_boxes _ _ _ _ _ _ _ Hr) as Hbl.
    destruct (aget_in_range (boxes n) (m_to mh)) as [mails Hg]; [lia|]. nstep; [exact Hg|].
    rewrite aset_in_range by lia. nstep; [done|]. nstep. nstep. split; [|done].
    apply aget_Ok_inv in Hg as [_ Hg]. exists (del ++ [m]), [], inb. split; [|by unfold work, zlen; cbn; lia].
    pose proof (mailbox_insert n (m_to mh) (mails ++ [l]) mails) as Hmb.
    destruct Hr. split; try done; cbn [carried numBoxes boxes network socket messageAvailable worker wbuffer set_boxes set_worker].
    + unfold zlen in *. by rewrite length_insert.
    + by rewrite <-app_assoc.
    + intros b Hbb. change (mailbox (set_worker AtAvailable _) b) with (mailbox (set_boxes (<[Z.to_nat (m_to mh) := mails ++ [l]]> (boxes n)) n) b).
      rewrite Hmb by (done || lia). rewrite for_box_snoc. unfold to_of. rewrite Hm1. cbn.
      destruct (decide (b = m_to mh)) as [->|Hne].
      * rewrite decide_True by done. rewrite <-rc_boxed0 by done. unfold mailbox. rewrite Hg. cbn. by rewrite fmap_app, app_assoc, <-Em.
      * rewrite decide_False by done. by apply rc_boxed0.
    + apply Forall_insert; [done|]. apply Forall_app. split; [|by constructor]. by eapply Forall_lookup_1.
Qed.

(** ** Threads that send and receive *)

Lemma lookup_insert_client {A} (l : list A) i j c c' x : l !! i = Some c -> <[i := c']> l !! j = Some x ->
  (j = i /\ x = c') \/ (j <> i /\ l !! j = Some x).
Proof.
  intros Hi. destruct (decide (j = i)) as [->|Hne].
  - rewrite list_lookup_insert_eq by (by eapply lookup_lt_Some). intros [= <-]. by left.
  - rewrite list_lookup_insert_ne by done. by right.
Qed.

(** A client that is outside the lock before and after. *)
Lemma send_idle D nb d n sending i c c' : send_ok D nb d n sending -> clients n !! i = Some c ->
  idle (cpc c) -> idle (cpc c') -> client_ok D nb d c' ->
  send_ok D nb d (set_clients (<[i := c']> (clients n)) n) sending.
Proof.
  intros [H1 H2 H3 H4] Hc Hi Hi' Hok. split; try done.
  - cbn. destruct (sendLock n) as [k|].
    + destruct H3 as ((ck & Hk & Hph) & Hoth). assert (k <> i) by (intros ->; rewrite Hc in Hk; injection Hk as ->; by destruct (cpc ck)).
      split; [exists ck; by rewrite list_lookup_insert_ne|]. intros j x Hj Hx.
      destruct (lookup_insert_client _ _ _ _ _ _ Hc Hx) as [[-> ->]|[? ?]]; [done|by eapply Hoth].
    + destruct H3 as (-> & H3 & Hoth). split; [done|]. split; [done|]. intros j x Hx.
      destruct (lookup_insert_client _ _ _ _ _ _ Hc Hx) as [[-> ->]|[? ?]]; [done|by eapply Hoth].
  - cbn. by apply Forall_insert.
Qed.

(** The client that holds the lock, or takes or gives it back. *)
Lemma send_holder D nb d n sending i c c' lk (sending' : bool) sent' pend' :
  send_ok D nb d n sending -> clients n !! i = Some c ->
  (sendLock n = Some i \/ sendLock n = None) -> client_ok D nb d c' ->
  pend' ≡ₚ NetworkReadPoll :: (if sending' then [NetworkSendDone] else []) ->
  (lk = Some i /\ phase (cpc c') sending' sent' \/ lk = None /\ idle (cpc c') /\ sending' = false /\ sent' = 0) ->
  send_ok D nb d (set_pending pend' (set_messageSent sent' (set_sendLock lk (set_clients (<[i := c']> (clients n)) n)))) sending'.
Proof.
  intros [H1 H2 H3 H4] Hc Hlk Hok Hp Hcase.
  assert (Hoth : forall j x, j <> i -> clients n !! j = Some x -> idle (cpc x)).
  { destruct Hlk as [E|E]; rewrite E in H3; [by destruct H3|]. destruct H3 as (_ & _ & H3). eauto. }
  split; try done.
  - cbn. destruct Hcase as [[-> Hph]|(-> & Hid & -> & ->)].
    + split; [exists c'; by rewrite list_lookup_insert_eq by (by eapply lookup_lt_Some)|].
      intros j x Hj. rewrite list_lookup_insert_ne by done. by apply Hoth.
    + split; [done|]. split; [done|]. intros j x Hx.
      destruct (lookup_insert_client _ _ _ _ _ _ Hc Hx) as [[-> ->]|[? ?]]; [done|by eapply Hoth].
  - cbn. by apply Forall_insert.
Qed.

Lemma recv_clients nb d n del hand inb sock cs : recv_ok nb d n del hand inb sock -> recv_ok nb d (set_clients cs n) del hand inb sock.
Proof. by intros []. Qed.
Lemma recv_lock nb d n del hand inb sock l : recv_ok nb d n del hand inb sock -> recv_ok nb d (set_sendLock l n) del hand inb sock.
Proof. by intros []. Qed.
Lemma recv_sent nb d n del hand inb sock l : recv_ok nb d n del hand inb sock -> recv_ok nb d (set_messageSent l n) del hand inb sock.
Proof. by intros []. Qed.
Lemma recv_pending nb d n del hand inb sock l : recv_ok nb d n del hand inb sock -> recv_ok nb d (set_pending l n) del hand inb sock.
Proof. by intros []. Qed.

Lemma Send_prepare_ok D nb d n del hand inb sock ph mh data : recv_ok nb d n del hand inb sock -> call_ok D nb (CSend ph mh data) ->
  exists buf, Send_prepare garbage n ph mh data = Ok (fst (fst (sent_message d ph mh data)), buf) /\
    payload (sent_message d ph mh data) `prefix_of` buf /\ zlen buf = MaxPacketSize.
Proof.
  intros Hr (HD & Hb & _ & _ & Hl & Hd). unfold Send_prepare. rewrite (rc_nb _ _ _ _ _ _ _ Hr), (rc_ident _ _ _ _ _ _ _ Hr).
  rewrite ASSERT_true by lia. cbn [mbind res_bind]. rewrite ASSERT_true by lia. cbn [mbind res_bind].
  assert (Hz : zlen (new_char garbage MaxPacketSize) = MaxPacketSize) by (unfold new_char, zlen; by rewrite length_replicate).
  pose proof (zlen_header (m_to mh) (m_from mh) (m_length mh)) as Hh.
  destruct (bwrite_start (mh_bytes mh) (new_char garbage MaxPacketSize)) as (b1 & E1 & Hp1 & Hz1); [unfold mh_bytes; by rewrite Hz, Hh|].
  rewrite E1. cbn [mbind res_bind].
  set (bytes := take (Z.to_nat (m_length mh)) data). assert (Hzb : zlen bytes = m_length mh) by (unfold bytes, zlen in *; rewrite length_take; lia).
  assert (Hbr : bread 0 (m_length mh) data = Ok bytes) by (rewrite bread_Ok by lia; unfold slice; by rewrite drop_0). rewrite Hbr. cbn [mbind res_bind].
  destruct (bwrite_after (mh_bytes mh) bytes b1 Hp1) as (b2 & E2 & Hp2 & Hz2).
  { unfold mh_bytes. rewrite Hh, Hz1, Hz, Hzb. unfold MaxMailSize in Hl. lia. }
  unfold mh_bytes in E2 at 1. rewrite Hh in E2. rewrite E2. cbn [mbind res_bind]. exists b2. split; [done|]. split; [done|congruence].
Qed.

Lemma sent_ok D nb d ph mh data : (forall x, x ∈ D -> in_s32 x) -> in_s32 d -> call_ok D nb (CSend ph mh data) ->
  msg_ok nb (p_to ph) (sent_message d ph mh data).
Proof.
  intros HD Hd (H1 & H2 & H3 & H4 & H5 & H6). assert (Hz : zlen (take (Z.to_nat (m_length mh)) data) = m_length mh) by (unfold zlen in *; rewrite length_take; lia).
  split; cbn; try done; try lia. by apply HD.
Qed.

(** *** The packet goes out *)

Definition deliver (e : Z) (buffer : list Z) (m : message) : M World unit :=
  _ ← upd_node e (fun n => set_socket (socket n ++ [buffer]) n);
  _ ← upd_node e (fun n => set_carried (carried n ++ [m]) n);
  upd_node e (fun n => set_posted (posted n ++ [m]) n).

Lemma wire_buffer nb d m buf : msg_ok nb d m -> payload m `prefix_of` buf ->
  exists b1 bytes b2, bwrite 0 (ph_bytes (fst (fst m))) (new_char garbage MaxWireSize) = Ok b1 /\
    bread 0 (p_length (fst (fst m))) buf = Ok bytes /\ bwrite sizeof_header bytes b1 = Ok b2 /\ wire_ok b2 m.
Proof.
  intros Hm Hp. pose proof (zlen_payload _ _ _ Hm) as Hpl. pose proof (mo_len _ _ _ Hm) as Hl. pose proof (mo_size _ _ _ Hm) as Hs. pose proof (mo_max _ _ _ Hm) as Hx.
  assert (Hz : zlen (new_char garbage MaxWireSize) = MaxWireSize) by (unfold new_char, zlen; by rewrite length_replicate).
  assert (Hh : zlen (ph_bytes (fst (fst m))) = sizeof_header) by apply zlen_header.
  destruct (bwrite_start (ph_bytes (fst (fst m))) (new_char garbage MaxWireSize)) as (b1 & E1 & Hp1 & Hz1); [by rewrite Hz, Hh|].
  destruct (bwrite_after (ph_bytes (fst (fst m))) (payload m) b1 Hp1) as (b2 & E2 & Hp2 & Hz2).
  { rewrite Hh, Hz1, Hz, Hpl. unfold MaxMailSize, MaxPacketSize in Hx. lia. }
  rewrite Hh in E2. exists b1, (payload m), b2. split; [done|]. split; [by apply prefix_take_slice|]. split; [done|].
  split; [congruence|done].
Qed.

Lemma deliver_ok rel nb S e n buffer m : node_with rel nb S e n -> msg_ok nb e m -> wire_ok buffer m ->
  S e (set_posted (posted n ++ [m]) (set_carried (carried n ++ [m]) (set_socket (socket n ++ [buffer]) n))) ->
  node_with rel nb S e (set_posted (posted n ++ [m]) (set_carried (carried n ++ [m]) (set_socket (socket n ++ [buffer]) n))).
Proof.
  intros (Hi & (del & hand & inb & sock & Hr) & _ & Hh) Hm Hw HS. split; [done|]. split; [|split; [done|]].
  - exists del, hand, inb, (sock ++ [m]). destruct Hr. split; try done; cbn.
    + apply Forall2_app; [done|by constructor].
    + apply Forall_app. split; [done|by constructor].
    + rewrite rc_carried0. by rewrite <-!app_assoc.
  - destruct Hh. split; cbn; [by apply sublist_app|intros; by rewrite hi_all0|done].
Qed.

Lemma lost_reliable r (chance : Q) : (1 <= chance)%Q -> lost r chance = false.
Proof.
  intros H. unfold lost. apply not_true_iff_false. intros Hl%Qle_bool_iff.
  assert (H1 : (1 * 100 <= chance * 100)%Q) by (by apply Qmult_le_compat_r).
  pose proof (Qle_trans _ _ _ H1 Hl) as H2. rewrite Qmult_1_l in H2. rewrite <-(Zle_Qle 100) in H2.
  pose proof (Z.rem_bound_abs r 100 ltac:(done)). lia.
Qed.

(** A lost packet is only posted. *)
Lemma lost_ok rel nb S e n m : node_with rel nb S e n -> ~ rel -> S e (set_posted (posted n ++ [m]) n) ->
  node_with rel nb S e (set_posted (posted n ++ [m]) n).
Proof.
  intros (Hi & (del & hand & inb & sock & Hr) & _ & Hh) Hrel HS. split; [done|]. split; [|split; [done|]].
  - exists del, hand, inb, sock. by destruct Hr.
  - destruct Hh. split; cbn; [by apply sublist_inserts_r|by intros ?|by intros ?].
Qed.

(** ** Every event keeps the invariant *)

Section Events.
Context (rel : Prop) (D : gset Z) (nb : Z).
Notation good := (world_ok rel D nb).
Notation node_good := (node_with rel nb (sends D nb)).

(** The sending half does not depend on the receiving one. *)
Lemma sends_ext d n n' : sends D nb d n -> sendBusy (network n') = sendBusy (network n) -> pending n' ≡ₚ pending n ->
  messageSent n' = messageSent n -> sendLock n' = sendLock n -> clients n' = clients n -> sends D nb d n'.
Proof.
  intros (sending & [H1 H2 H3 H4]) E1 E2 E3 E4 E5. exists sending. split; rewrite ?E1, ?E3, ?E4, ?E5; try done.
  by rewrite E2.
Qed.

Lemma hist_ext n n' : hist_ok rel n -> posted n' = posted n -> carried n' = carried n -> chanceToWork (network n') = chanceToWork (network n) -> hist_ok rel n'.
Proof. intros [] E1 E2 E3. split; by rewrite ?E1, ?E2, ?E3. Qed.

Lemma worker_good d n : node_good d n -> runs d (PostalDelivery_step garbage d) n (fun _ n' => node_good d n' /\ True).
Proof.
  intros (Hi & (del & hand & inb & sock & Hr) & Hs & Hh). eapply runs_mono; [by apply (worker_recv nb d n del hand inb sock)|].
  intros _ n' ((del' & hand' & inb' & Hr' & _) & E1 & E2 & E3 & E4 & E5 & E6 & E7 & E8). split; [|done]. split; [done|]. split; [by eauto|].
  split; [|by eapply hist_ext]. eapply sends_ext; [exact Hs|done|by rewrite E1|done..].
Qed.

Lemma poll_good d n p : node_good d (set_pending (p ++ [NetworkReadPoll]) n) ->
  runs d (CheckPktAvail d) (set_pending p n) (fun _ n' => node_good d n' /\ True).
Proof.
  intros (Hi & (del & hand & inb & sock & Hr) & Hs & Hh). apply (recv_pending _ _ _ _ _ _ _ p) in Hr.
  eapply runs_mono; [by apply (poll_recv nb d _ del hand inb sock)|].
  intros _ n' ((inb' & sock' & Hr' & _ & _ & _) & E1 & E2 & E3 & E4 & E5 & E6 & E7 & E8 & _). split; [|done]. split; [done|]. split; [by eauto|].
  split; [|by eapply hist_ext]. eapply sends_ext; [exact Hs|done|by rewrite E1|done..].
Qed.

Lemma done_good d n : node_good d (set_pending (NetworkSendDone :: pending n) n) -> node_good d (set_messageSent (messageSent n + 1) (count_sent (set_network (set_busy false (network n)) n))).
Proof.
  intros (Hi & (del & hand & inb & sock & Hr) & (sending & [H1 H2 H3 H4]) & Hh). split; [done|]. split; [exists del, hand, inb, sock; by destruct Hr|].
  split; [|by destruct Hh]. cbn in *. destruct sending.
  - exists false. split; try done; cbn.
    + apply (Permutation_cons_inv (a := NetworkSendDone)). rewrite H2. apply perm_swap.
    + destruct (sendLock n) as [i|]; [|by destruct H3]. destruct H3 as ((c & Hc & Hp) & Hoth). split; [|done]. exists c. split; [done|].
      destruct (cpc c); try (by destruct Hp); try done. cbn in Hp. cbn. lia.
  - exfalso. assert (Hin : NetworkSendDone ∈ [NetworkReadPoll]) by (rewrite <-H2; left). apply list_elem_of_singleton in Hin. done.
Qed.

Lemma interrupt_good d i n : node_good d n -> runs d (take_interrupt d i) n (fun _ n' => node_good d n' /\ True).
Proof.
  intros Hn. unfold take_interrupt. nstep. destruct (pending n !! i) as [k|] eqn:Ek; [|by nstep].
  nstep. pose proof (delete_Permutation _ _ _ Ek) as Hp.
  assert (Hn' : forall p, p ≡ₚ pending n -> node_good d (set_pending p n)).
  { intros p Hpp. destruct Hn as (Hi & (del & hand & inb & sock & Hr) & Hs & Hh). split; [done|]. split; [exists del, hand, inb, sock; by destruct Hr|].
    split; [by eapply sends_ext|by destruct Hh]. }
  destruct k.
  - apply poll_good, Hn'. etrans; [apply Permutation_app_comm|by symmetry].
  - unfold SendDone, PacketSent. nstep. nstep. nstep. split; [|done]. apply (done_good d (set_pending (delete i (pending n)) n)).
    cbn. by apply Hn'.
Qed.

(** *** The steps of a client *)

(** The pending interrupts tell whether a packet is under way. *)
Lemma sending_unique d n b b' : send_ok D nb d n b -> send_ok D nb d n b' -> b = b'.
Proof.
  intros H1 H2. pose proof (sn_pending _ _ _ _ _ H1) as P1. pose proof (sn_pending _ _ _ _ _ H2) as P2.
  rewrite P1 in P2. apply Permutation_length in P2. by destruct b, b'.
Qed.

(** Between Acquire and Release the client holds the lock. *)
Lemma holds_lock d n i c sending : send_ok D nb d n sending -> clients n !! i = Some c -> ~ idle (cpc c) ->
  sendLock n = Some i /\ phase (cpc c) sending (messageSent n).
Proof.
  intros Hs Hc Hi. pose proof (sn_lock _ _ _ _ _ Hs) as Hlk. destruct (sendLock n) as [k|]; [|destruct Hlk as (_ & _ & Hx); by destruct Hi; eapply Hx].
  destruct (decide (k = i)) as [->|Hne].
  - destruct Hlk as ((c0 & Hc0 & Hph) & _). split; [done|]. rewrite Hc in Hc0. by injection Hc0 as <-.
  - destruct Hlk as (_ & Hx). destruct Hi. eapply Hx; [|done]. congruence.
Qed.

Lemma client_tail d c : client_ok D nb d c -> Forall (call_ok D nb) (tail (calls c)).
Proof. intros [H _]. by destruct (calls c); inversion H. Qed.

(** Only the client changes, and it is outside the lock. *)
Lemma idle_good d n i c c' : node_good d n -> clients n !! i = Some c -> idle (cpc c) -> idle (cpc c') -> client_ok D nb d c' ->
  node_good d (set_clients (<[i := c']> (clients n)) n).
Proof.
  intros (Hi & (del & hand & inb & sock & Hr) & (sending & Hs) & Hh) Hc H1 H2 Hok. split; [done|].
  split; [exists del, hand, inb, sock; by apply recv_clients|]. split; [|by destruct Hh]. exists sending. by eapply send_idle.
Qed.

(** The client holds the lock, takes it or gives it back. *)
Lemma holder_good d n i c c' lk (sending : bool) sent : node_good d n -> clients n !! i = Some c ->
  send_ok D nb d n sending ->
  (sendLock n = Some i \/ sendLock n = None) -> client_ok D nb d c' ->
  (lk = Some i /\ phase (cpc c') sending sent \/ lk = None /\ idle (cpc c') /\ sending = false /\ sent = 0) ->
  node_good d (set_messageSent sent (set_sendLock lk (set_clients (<[i := c']> (clients n)) n))).
Proof.
  intros (Hi & (del & hand & inb & sock & Hr) & _ & Hh) Hc Hs Hlk Hok Hcase. split; [done|].
  split; [exists del, hand, inb, sock; by apply recv_sent, recv_lock, recv_clients|]. split; [|by destruct Hh].
  exists sending. by apply (send_holder D nb d n sending i c c' lk sending sent (pending n)); [| | | |apply Hs|].
Qed.

Lemma get_good d n i c b : node_good d n -> clients n !! i = Some c -> cpc c = Ready -> client_ok D nb d c -> 0 <= b < nb ->
  runs d (m ← MailBox_Get d b;
          match m with
          | None => ret tt
          | Some m =>
              _ ← assert (m_length (snd (fst m)) <=? MaxMailSize);
              _ ← upd_node d (fun n => set_taken (taken n ++ [(b, m)]) n);
              return_ d i c [m]
          end) n (fun _ n' => node_good d n' /\ True).
Proof.
  intros Hn Hc Hpc Hok Hb. pose proof Hn as (Hi & (del & hand & inb & sock & Hr) & Hs & Hh).
  unfold MailBox_Get. nstep. pose proof (rc_boxes _ _ _ _ _ _ _ Hr) as Hbl.
  destruct (aget_in_range (boxes n) b) as [mails Hg]; [lia|]. nstep; [exact Hg|]. apply aget_Ok_inv in Hg as [_ Hg].
  pose proof (rc_mails _ _ _ _ _ _ _ Hr) as Hm. pose proof (Forall_lookup_1 _ _ _ _ Hm Hg) as Hms.
  destruct mails as [|l rest]; [by nstep; nstep|]. apply Forall_cons in Hms as [[Hl1 Hl2] Hrest].
  rewrite aset_in_range by lia. nstep; [done|]. nstep. nstep; [by rewrite bread_Ok by lia|]. nstep.
  nstep; [cbn; lia|]. nstep. unfold return_. nstep. split; [|done].
  set (m := (pktHdr l, mailHdr l, slice 0 (m_length (mailHdr l)) (mdata l))).
  assert (Hmm : m = mail_message l) by done.
  set (n1 := set_taken (taken n ++ [(b, m)]) (set_boxes (<[Z.to_nat b := rest]> (boxes n)) n)).
  apply (idle_good d n1 i c); [|done|by rewrite Hpc|done|split; [by apply (client_tail d)|done]].
  split; [done|]. split; [|split; [by eapply sends_ext|by destruct Hh]].
  exists del, hand, inb, sock. destruct Hr. split; try done; cbn [taken set_taken boxes set_boxes n1].
  - unfold zlen in *. by rewrite length_insert.
  - intros b' Hb'. rewrite <-rc_boxed0 by done. unfold mailbox. cbn [taken set_taken boxes set_boxes n1]. rewrite filter_app, fmap_app.
    destruct (decide (b' = b)) as [->|Hne].
    + rewrite list_lookup_insert_eq by (by eapply lookup_lt_Some). rewrite Hg, filter_cons_True by done.
      cbn. rewrite <-app_assoc. by rewrite Hmm.
    + rewrite list_lookup_insert_ne by lia. rewrite filter_cons_False by (cbn; congruence). cbn. by rewrite app_nil_r.
  - by apply Forall_insert.
Qed.

(** All steps but the one that talks to the network. *)
Lemma client_good d i n c : node_good d n -> clients n !! i = Some c ->
  match cpc c with AtNetwork _ _ => False | _ => True end ->
  runs d (client_step garbage d i) n (fun _ n' => node_good d n' /\ True).
Proof.
  intros Hn Hc Hpc. pose proof Hn as (Hi & (del & hand & inb & sock & Hr) & (sending & Hs) & Hh).
  pose proof (Forall_lookup_1 _ _ _ _ (sn_clients _ _ _ _ _ Hs) Hc) as Hok. pose proof Hok as [Hcalls Hbuf].
  unfold client_step, get_client. apply runs_bind. nstep. nstep; [by rewrite Hc|]. nstep.
  pose proof (sn_lock _ _ _ _ _ Hs) as Hlk. destruct (cpc c) as [|h buf|h buf| |] eqn:Ep; [| |done| |].
  - destruct (calls c) as [|[ph mh data|b] rest] eqn:Ec; [by nstep| |].
    + pose proof Hcalls as [Hcall _]%Forall_cons. destruct (Send_prepare_ok D nb d n _ _ _ _ ph mh data Hr Hcall) as (buf & E & Hp & _).
      nstep; [exact E|]. unfold set_pc. nstep. split; [|done]. eapply idle_good; [done|done|by rewrite Ep|done|].
      split; [cbn; by rewrite Ec|]. cbn. by exists ph, mh, data, rest.
    + pose proof Hcalls as [Hcall _]%Forall_cons. cbn in Hcall. nstep; [rewrite (rc_nb _ _ _ _ _ _ _ Hr); lia|].
      by apply get_good.
  - destruct (sendLock n) as [k|] eqn:El; [by nstep|]. destruct Hlk as (-> & Hsent & Hoth).
    nstep. unfold set_pc. nstep. split; [|done].
    assert (H : node_good d (set_messageSent 0 (set_sendLock (Some i) (set_clients (<[i := mkClient (AtNetwork h buf) (calls c) (got c)]> (clients n)) n)))).
    { apply (holder_good d n i c _ (Some i) false 0); [done|done|done|by right|by split|left]. split; [done|by split]. }
    rewrite <-Hsent in H. destruct n. exact H.
  - destruct (holds_lock d n i c sending Hs Hc) as [El Hph]; [by rewrite Ep; intros []|]. rewrite Ep in Hph. cbn in Hph.
    destruct (Z.eqb_spec (messageSent n) 0) as [E|E]; [by nstep|]. destruct sending; [congruence|].
    nstep. unfold set_pc. nstep. split; [|done].
    assert (H : node_good d (set_messageSent (messageSent n - 1) (set_sendLock (Some i) (set_clients (<[i := mkClient AtRelease (calls c) (got c)]> (clients n)) n)))).
    { apply (holder_good d n i c _ (Some i) false); [done|done|done|by left|by split|left; split; [done|split; [done|lia]]]. }
    rewrite <-El in H. destruct n. exact H.
  - destruct (holds_lock d n i c sending Hs Hc) as [El Hph]; [by rewrite Ep; intros []|]. rewrite Ep in Hph. destruct Hph as [-> Hsent].
    nstep. unfold return_. nstep. split; [|done].
    assert (H : node_good d (set_messageSent 0 (set_sendLock None (set_clients (<[i := mkClient Ready (tail (calls c)) (got c ++ [])]> (clients n)) n)))).
    { apply (holder_good d n i c _ None false 0); [done|done|done|by left|split; [by apply (client_tail d)|done]|by right]. }
    rewrite <-Hsent in H. destruct n. exact H.
Qed.

(** *** The step that talks to the network *)

Lemma run_get d n w (Q : Node -> World -> Prop) : nodes w !! d = Some n -> Q n w -> run_to (get_node d) w Q.
Proof. intros Hn HQ. eapply run_to_mono; [by apply (runs_get d n (fun a n' => a = n /\ n' = n))|]. intros a w' (n' & -> & -> & ->). by rewrite with_same. Qed.

Lemma run_upd d f n w (Q : unit -> World -> Prop) : nodes w !! d = Some n -> Q tt (with_node d (f n) w) -> run_to (upd_node d f) w Q.
Proof. intros Hn HQ. eapply run_to_mono; [by apply (runs_upd d f n (fun _ n' => n' = f n))|]. by intros [] w' (n' & -> & ->). Qed.

(** Client [i] of [d] has put its packet on the wire, and its next step is
    still to be recorded. *)
Definition on_wire (d : Z) (i : nat) (c : Client) (d' : Z) (n : Node) : Prop :=
  if decide (d' = d) then
    pending n ≡ₚ [NetworkReadPoll; NetworkSendDone] /\ send_ok D nb d (set_pending [NetworkReadPoll] n) false /\
    sendLock n = Some i /\ clients n !! i = Some c /\ messageSent n = 0
  else sends D nb d' n.

Lemma on_wire_ext d i c d' n n' : on_wire d i c d' n -> network n' = network n -> pending n' = pending n ->
  messageSent n' = messageSent n -> sendLock n' = sendLock n -> clients n' = clients n -> on_wire d i c d' n'.
Proof.
  unfold on_wire. case_decide; intros H0 E1 E2 E3 E4 E5.
  - destruct H0 as (H1 & [H2 H3 H4 H5] & H6 & H7 & H8). rewrite E2, E4, E5, E3. split; [done|]. split; [|done].
    split; cbn in *; rewrite ?E1, ?E3, ?E4, ?E5; done.
  - eapply sends_ext; [done|by rewrite E1|by rewrite E2|done..].
Qed.

(** The step of the client that ends the sequence. *)
Lemma on_wire_end d i c n w : world_with rel D nb (on_wire d i c) w -> nodes w !! d = Some n -> client_ok D nb d (mkClient AtSent (calls c) (got c)) ->
  run_to (set_pc d i c AtSent) w (fun _ w' => good w').
Proof.
  intros Hw Hn Hok. pose proof (proj2 Hw d n Hn) as (Hi & Hr & Hs & Hh). unfold on_wire in Hs. rewrite decide_True in Hs by done.
  destruct Hs as (H1 & H2 & H3 & H4 & H5). unfold set_pc. apply (run_upd d _ n w); [done|].
  eapply with_node_ok; [exact Hw|done| |].
  - intros d' n' Hne. unfold on_wire. by rewrite decide_False by done.
  - split; [done|]. split; [destruct Hr as (del & hand & inb & sock & Hr); exists del, hand, inb, sock; by apply recv_clients|].
    split; [|by destruct Hh]. exists true.
    assert (H : send_ok D nb d (set_pending (pending n) (set_messageSent 0 (set_sendLock (Some i) (set_clients (<[i := mkClient AtSent (calls c) (got c)]> (clients n)) (set_pending [NetworkReadPoll] n))))) true).
    { apply (send_holder D nb d (set_pending [NetworkReadPoll] n) false i c _ (Some i) true 0 (pending n)); [done|done|by left|done|done|by left]. }
    rewrite <-H3, <-H5 in H. destruct n. exact H.
Qed.

Lemma network_good d i n c h buf w : good w -> nodes w !! d = Some n -> clients n !! i = Some c -> cpc c = AtNetwork h buf ->
  run_to (client_step garbage d i) w (fun _ w' => good w').
Proof.
  intros Hw Hn Hc Hpc. pose proof (proj2 Hw d n Hn) as (Hi & (del & hand & inb & sock & Hr) & (sending & Hs) & Hh).
  pose proof (Forall_lookup_1 _ _ _ _ (sn_clients _ _ _ _ _ Hs) Hc) as [Hcalls Hbuf]. rewrite Hpc in Hbuf.
  destruct Hbuf as (ph & mh & data & rest & Ec & Eh & Hpay). pose proof Hcalls as Hcalls'. rewrite Ec in Hcalls'. apply Forall_cons in Hcalls' as [Hcall _].
  destruct (holds_lock d n i c sending Hs Hc) as [El Hph]; [by rewrite Hpc; intros []|]. rewrite Hpc in Hph. destruct Hph as [-> Hsent].
  set (m := sent_message d ph mh data) in *.
  assert (HD : forall x, x ∈ D -> exists nx, nodes w !! x = Some nx /\ in_s32 x).
  { intros x Hx. rewrite <-(proj1 Hw) in Hx. apply elem_of_dom in Hx as (nx & Hnx). exists nx. split; [done|]. by apply (proj2 Hw x nx). }
  assert (Hm : msg_ok nb (p_to ph) m) by (apply (sent_ok D); [intros x Hx; by destruct (HD x Hx) as (? & _ & ?)|done|done]).
  assert (Hok' : client_ok D nb d (mkClient AtSent (calls c) (got c))) by by split.
  unfold client_step, get_client. apply run_to_bind, run_to_bind. apply (run_get d n); [done|]. eapply run_to_lift; [by rewrite Hc|]. cbv beta.
  apply run_to_bind. apply (run_get d n); [done|]. rewrite Hpc.
  (* the packet *)
  set (n1 := set_pending (pending n ++ [NetworkSendDone]) n). set (w1 := with_node d n1 w).
  assert (Hw1 : world_with rel D nb (on_wire d i c) w1).
  { eapply with_node_ok; [exact Hw|done| |].
    - intros d' n' Hne. unfold on_wire. by rewrite decide_False by done.
    - split; [done|]. split; [exists del, hand, inb, sock; by apply recv_pending|]. split; [|by destruct Hh].
      unfold on_wire. rewrite decide_True by done. cbn. rewrite (sn_pending _ _ _ _ _ Hs). split; [done|]. split; [|done].
      destruct Hs. split; try done. }
  set (w2 := mkWorld (nodes w1) (rand w1) (S (nrand w1))). assert (Hw2 : world_with rel D nb (on_wire d i c) w2) by exact Hw1.
  assert (Hdest : exists ne, nodes w2 !! p_to h = Some ne /\ (p_to h = d -> ne = n1)).
  { destruct Hcall as [Hx _]. destruct (HD _ Hx) as (ne & Hne & _). rewrite Eh. cbn. unfold w1, with_node. cbn.
    destruct (decide (p_to ph = d)) as [->|Hx']; [exists n1; by rewrite lookup_insert_eq|]. exists ne. by rewrite lookup_insert_ne. }
  destruct Hdest as (ne & Hne & _). assert (Hh' : p_to h = p_to ph) by by rewrite Eh.
  assert (Hd2 : is_Some (nodes w2 !! d)) by (cbn; rewrite lookup_insert_eq; by eexists).
  apply run_to_bind. unfold Network_Send, Schedule. apply run_to_bind. apply (run_get d n); [done|].
  apply run_to_bind, run_to_assert.
  { rewrite (sn_busy _ _ _ _ _ Hs), Eh, (rc_ident _ _ _ _ _ _ _ Hr). cbn. destruct Hcall as (_ & _ & _ & _ & Hl & _). unfold MaxMailSize, sizeof_header in *. lia. }
  apply run_to_bind. apply (run_upd d _ n); [done|]. fold n1 w1. unfold Random. apply run_to_bind, run_to_bind, run_to_gets, run_to_bind, run_to_modify, run_to_ret.
  fold w2. cbn [fst snd]. set (r := rand w1 (nrand w1)). destruct (lost r (chanceToWork (network n))) eqn:Elost.
  - apply run_to_ret. rewrite Ec. apply run_to_bind, run_to_bind, run_to_ret, run_to_bind, run_to_gets.
    rewrite bool_decide_eq_true_2 by by eexists. apply (run_upd (p_to h) _ ne); [done|].
    set (ne' := set_posted _ ne). set (w3 := with_node (p_to h) ne' w2).
    assert (Hw3 : world_with rel D nb (on_wire d i c) w3).
    { eapply with_node_ok; [exact Hw2|done|done|]. apply lost_ok; [by apply Hw2| |].
      - intros Hrel. by rewrite (lost_reliable r _ (hi_chance _ _ Hh Hrel)) in Elost.
      - eapply on_wire_ext; [by apply Hw2|done..]. }
    assert (Hd3 : exists n3, nodes w3 !! d = Some n3).
    { apply elem_of_dom. rewrite (proj1 Hw3), <-(proj1 Hw2). by apply elem_of_dom. }
    destruct Hd3 as (n3 & Hn3). by apply (on_wire_end d i c n3).
  - destruct (wire_buffer nb (p_to ph) m buf Hm Hpay) as (b1 & bytes & b2 & E1 & E2 & E3 & Hwire). rewrite Eh.
    apply run_to_bind. eapply run_to_lift; [exact E1|]. apply run_to_bind. eapply run_to_lift; [exact E2|].
    apply run_to_bind. eapply run_to_lift; [exact E3|]. apply run_to_bind, run_to_gets. rewrite <-Eh.
    apply run_to_bind, run_to_assert; [by rewrite bool_decide_eq_true_2 by by eexists|].
    apply run_to_bind. apply (run_upd (p_to h) _ ne); [done|]. apply run_to_ret. rewrite Ec.
    set (n3 := set_socket (socket ne ++ [b2]) ne). set (w3 := with_node (p_to h) n3 w2).
    change (h, mh, take (Z.to_nat (m_length mh)) data) with (h, snd (fst m), snd m).
    assert (Em : (h, snd (fst m), snd m) = m) by by rewrite Eh. rewrite Em.
    apply run_to_bind, run_to_bind. apply (run_upd (p_to h) _ n3); [apply nodes_with|].
    apply run_to_bind, run_to_gets. rewrite bool_decide_eq_true_2 by by (unfold w3; rewrite with_with, nodes_with; eexists).
    set (n4 := set_carried (carried n3 ++ [m]) n3). apply (run_upd (p_to h) _ n4); [apply nodes_with|].
    unfold w3. rewrite !with_with. set (n5 := set_posted (posted n4 ++ [m]) n4). set (w5 := with_node (p_to h) n5 w2).
    assert (Hw5 : world_with rel D nb (on_wire d i c) w5).
    { eapply with_node_ok; [exact Hw2|done|done|]. unfold n5, n4, n3. cbn [carried set_socket posted set_carried].
      apply deliver_ok; [by apply Hw2|by rewrite Hh'|done|]. eapply on_wire_ext; [by apply Hw2|done..]. }
    assert (Hd5 : exists n6, nodes w5 !! d = Some n6).
    { apply elem_of_dom. rewrite (proj1 Hw5), <-(proj1 Hw2). by apply elem_of_dom. }
    destruct Hd5 as (n6 & Hn6). by apply (on_wire_end d i c n6).
Qed.

(** ** Every event *)

Lemma exec_good e w : good w -> run_to (exec garbage e) w (fun _ w' => good w').
Proof.
  intros Hw. unfold exec. apply run_to_bind, run_to_gets. destruct (enabled e w) eqn:Ee; cbn [negb]; [|by apply run_to_ret].
  assert (Hrun : forall d n (m : M World unit), nodes w !! d = Some n -> (node_good d n -> runs d m n (fun _ n' => node_good d n' /\ True)) -> run_to m w (fun _ w' => good w')).
  { intros d n m Hn Hr. eapply run_to_mono; [eapply (runs_world rel D nb (sends D nb) (sends D nb) d n m w (fun _ => True)); [done|done|done|]|by intros ? ? []].
    apply Hr. by apply Hw. }
  destruct e as [d i|d|d i]; cbn in Ee.
  - destruct (nodes w !! d) as [n|] eqn:Hn; [|done]. apply bool_decide_eq_true in Ee as [c Hc].
    destruct (cpc c) as [|h buf|h buf| |] eqn:Ep; [| |by apply (network_good d i n c h buf)| |];
      eapply Hrun; try done; intros Hg; apply (client_good d i n c); try done; by rewrite Ep.
  - apply bool_decide_eq_true in Ee as [n Hn]. eapply Hrun; [done|]. apply worker_good.
  - apply bool_decide_eq_true in Ee as [n Hn]. eapply Hrun; [done|]. apply interrupt_good.
Qed.

Lemma run_good es w : good w -> run_to (run garbage es) w (fun _ w' => good w').
Proof.
  revert w. induction es as [|e es IH]; intros w Hw; cbn [run]; [by apply run_to_ret|].
  apply run_to_bind. eapply run_to_mono; [by apply exec_good|]. intros [] w' Hw'. by apply IH.
Qed.

(** ** Mail does not get stuck *)

Lemma work_nonneg d n del hand inb sock : recv_ok nb d n del hand inb sock -> 0 <= work (worker n) hand inb sock.
Proof.
  intros Hr. pose proof (rc_full _ _ _ _ _ _ _ Hr) as Hf. unfold work, zlen. destruct (worker n); try lia.
  specialize (Hf eq_refl). destruct inb; [done|]. cbn [length]. lia.
Qed.

(** The exec of an enabled event on one instance. *)
Lemma exec_on d e (m : M World unit) n w (Q : Node -> Prop) : good w -> nodes w !! d = Some n -> enabled e w = true ->
  exec garbage e w = m w -> runs d m n (fun _ n' => Q n') ->
  exists w' n', exec garbage e w = Ok (tt, w') /\ good w' /\ nodes w' !! d = Some n' /\ Q n'.
Proof.
  intros Hw Hn He Em Hr. destruct (exec_good e w Hw) as ([] & w' & E & Hw'). exists w'.
  destruct (Hr w Hn) as ([] & w2 & E2 & n' & -> & HQ). rewrite Em in E. rewrite E2 in E. injection E as <-.
  exists n'. rewrite Em. split; [done|]. split; [done|]. split; [apply nodes_with|done].
Qed.

(** The device and the worker, not the clients. *)
Definition device (e : event) : bool := match e with EClient _ _ => false | _ => true end.

Lemma settle_step d w n del hand inb sock : good w -> nodes w !! d = Some n -> recv_ok nb d n del hand inb sock ->
  hand <> [] \/ inb <> [] \/ sock <> [] ->
  exists e w' n', device e = true /\ exec garbage e w = Ok (tt, w') /\ good w' /\ nodes w' !! d = Some n' /\ carried n' = carried n /\
    exists del' hand' inb' sock', recv_ok nb d n' del' hand' inb' sock' /\
      work (worker n') hand' inb' sock' < work (worker n) hand inb sock.
Proof.
  intros Hw Hn Hr Hne. assert (He : bool_decide (is_Some (nodes w !! d)) = true) by (apply bool_decide_eq_true_2; by eexists).
  assert (Hex : forall e m, device e = true -> enabled e w = true -> exec garbage e w = m w ->
    runs d m n (fun _ n' => carried n' = carried n /\ exists del' hand' inb' sock', recv_ok nb d n' del' hand' inb' sock' /\
      work (worker n') hand' inb' sock' < work (worker n) hand inb sock) ->
    exists e w' n', device e = true /\ exec garbage e w = Ok (tt, w') /\ good w' /\ nodes w' !! d = Some n' /\ carried n' = carried n /\
      exists del' hand' inb' sock', recv_ok nb d n' del' hand' inb' sock' /\ work (worker n') hand' inb' sock' < work (worker n) hand inb sock).
  { intros e m H0 H1 H2 H3. destruct (exec_on d e m n w _ Hw Hn H1 H2 H3) as (w' & n' & E & Hw' & Hn' & E' & H). exists e, w', n'. do 5 (split; [assumption|]). assumption. }
  destruct (decide (hand = [] /\ inb = [])) as [[-> ->]|Hhi].
  - destruct (proj2 Hw d n Hn) as (_ & _ & (sending & Hs) & _). pose proof (sn_pending _ _ _ _ _ Hs) as Hp.
    assert (Hin : NetworkReadPoll ∈ pending n) by (rewrite Hp; left). apply list_elem_of_lookup in Hin as [j Hj].
    apply (Hex (EInterrupt d j) (take_interrupt d j)); [done|done|unfold exec, mbind, M_bind, gets; cbn; by rewrite He|].
    unfold take_interrupt. nstep. rewrite Hj. nstep.
    eapply runs_mono; [eapply (poll_recv nb d _ del [] [] sock); by apply recv_pending|].
    intros _ n' ((inb' & sock' & Hr' & Hlen & Ewk & Hdec) & _ & _ & _ & _ & _ & _ & Ecar & _). split; [done|].
    exists del, [], inb', sock'. split; [done|]. rewrite Ewk. cbn [worker set_pending]. unfold work, zlen.
    assert (length sock' < length sock)%nat by (apply Hdec; [done|naive_solver]). cbn [length] in *. lia.
  - apply (Hex (EWorker d) (PostalDelivery_step garbage d)); [done|done|unfold exec, mbind, M_bind, gets; cbn; by rewrite He|].
    eapply runs_mono; [by apply (worker_recv nb d n del hand inb sock)|].
    intros _ n' ((del' & hand' & inb' & Hr' & Hdec) & _ & _ & _ & _ & _ & _ & Ecar & _). split; [done|].
    exists del', hand', inb', sock. split; [done|]. apply Hdec. destruct (decide (hand = [])) as [->|]; [right|by left].
    intros ->. by apply Hhi.
Qed.

Lemma settle d w n : good w -> nodes w !! d = Some n ->
  exists es w' n', forallb device es = true /\ run garbage es w = Ok (tt, w') /\ nodes w' !! d = Some n' /\ carried n' = carried n /\
    forall b, 0 <= b < nb -> mailbox n' b = for_box b (carried n).
Proof.
  intros Hw Hn. destruct (proj2 Hw d n Hn) as (_ & (del & hand & inb & sock & Hr) & _).
  remember (Z.to_nat (work (worker n) hand inb sock)) as k eqn:Ek. revert w n del hand inb sock Ek Hw Hn Hr.
  induction k as [k IH] using lt_wf_ind. intros w n del hand inb sock Ek Hw Hn Hr.
  destruct (decide (hand = [] /\ inb = [] /\ sock = [])) as [(-> & -> & ->)|Hne].
  - exists [], w, n. split; [done|]. split; [done|]. split; [done|]. split; [done|]. pose proof (rc_carried _ _ _ _ _ _ _ Hr) as E. cbn in E. rewrite app_nil_r in E.
    rewrite E. apply Hr.
  - destruct (settle_step d w n del hand inb sock Hw Hn Hr) as (e & w1 & n1 & Ee & E & Hw1 & Hn1 & Ec & del1 & hand1 & inb1 & sock1 & Hr1 & Hlt).
    { destruct hand, inb, sock; auto; by destruct Hne. }
    pose proof (work_nonneg _ _ _ _ _ _ Hr1).
    destruct (IH (Z.to_nat (work (worker n1) hand1 inb1 sock1)) ltac:(lia) w1 n1 _ _ _ _ eq_refl Hw1 Hn1 Hr1) as (es & w' & n' & Ees & E' & Hn' & Ec' & Hb).
    exists (e :: es), w', n'. split; [cbn [forallb]; by rewrite Ee|]. split; [cbn [run]; unfold mbind, M_bind; by rewrite E|]. split; [done|]. split; [congruence|].
    intros b Hbb. rewrite Hb by done. by rewrite Ec.
Qed.

(** ** The start *)

Definition fresh_node (d : Z) (n : Node) : Prop := exists reliability junk box buf cs,
  n = PostOffice_new d reliability nb junk box buf cs /\ zlen box = MaxPacketSize /\ zlen buf = MaxPacketSize /\
  Forall (Forall (call_ok D nb)) cs.

Definition start_ok (w : World) : Prop :=
  dom (nodes w) = D /\ forall d n, nodes w !! d = Some n -> in_s32 d /\ fresh_node d n.

Lemma start_good w : 0 <= nb -> (rel -> forall d n, nodes w !! d = Some n -> (1 <= chanceToWork (network n))%Q) -> start_ok w -> good w.
Proof.
  intros Hnb Hrel [Hdom Hall]. split; [done|]. intros d n Hn. destruct (Hall d n Hn) as [Hi (reliability & junk & box & buf & cs & E & Hbox & Hbuf & Hcs)].
  specialize (fun H => Hrel H d n Hn). split; [done|]. split; [|split].
  - exists [], [], [], []. subst n. split; try done; cbn; [unfold zlen; rewrite length_replicate; lia| |by apply Forall_replicate].
    intros b Hb. unfold mailbox. cbn. by rewrite lookup_replicate_2 by lia.
  - assert (Hidle : Forall (fun c => cpc c = Ready /\ Forall (call_ok D nb) (calls c)) (clients n)).
    { subst n. cbn. apply Forall_fmap. eapply Forall_impl; [exact Hcs|]. done. }
    exists false. subst n. split; try done.
    + split; [done|]. split; [done|]. intros j c Hc. apply (Forall_lookup_1 _ _ _ _ Hidle) in Hc as [E _]. by rewrite E.
    + eapply Forall_impl; [exact Hidle|]. intros c [E Hc]. split; [done|]. by rewrite E.
  - subst n. by split.
Qed.
End Events.
End Safe.


(** MailTest of network/nettest.cc between the instances 1 and 2: both have
    sent their first message to mailbox 0 of the other. *)
Definition example_call (to box reply : Z) (text : list Z) : call :=
  CSend (mkPH to 0 0) (mkMH box reply (zlen text)) text.
Definition example_node (self other : Z) : Node :=
  PostOffice_new self 1 10 (mkPH 0 0 0) (new_char 0 MaxPacketSize) (new_char 0 MaxPacketSize)
    [[example_call other 0 1 [72; 101; 108; 108; 111; 0]; CReceive 0]].
Definition example_net : World := mkWorld {[1 := example_node 1 2; 2 := example_node 2 1]} (fun n => Z.of_nat n * 37) 0.

Definition example_events : list event :=
  [EClient 1 0; EClient 2 0; EClient 1 0; EClient 1 0; EClient 2 0; EClient 2 0; EInterrupt 1 1; EInterrupt 2 0; EWorker 2; EClient 1 0].

