(* ===== verification/MailTest.v ===== *)
(** * The mail test: network/nettest.cc

    Two machines run MailTest against each other over the post office of
    Network.v.  MailTest is a thread whose next calls depend on what it
    has received: [MailTest] gives them up to the next Receive, and
    [fetch] is the thread going on after one.  Everything else is the
    network's: any order of the threads' steps and of the interrupts. *)

From Stdlib Require Import QArith.
From stdpp Require Import base list numbers gmap.
From S2P Require Import Prelude Arrays State Network NetworkSafe.
#[local] Open Scope Z_scope.

(** ** MailTest *)

(** The bytes of a string up to the terminator. *)
Fixpoint text (l : list Z) : list Z :=
  match l with
  | [] => []
  | c :: l => if c =? 0 then [] else c :: text l
  end.

Definition strlen (l : list Z) : Z := zlen (text l).

(** "Hello there!" and "Got it!" *)
Definition data : list Z := [72; 101; 108; 108; 111; 32; 116; 104; 101; 114; 101; 33; 0].
Definition ack : list Z := [71; 111; 116; 32; 105; 116; 33; 0].

Section Test.
Context (garbage : Z).
Context (jf jl : Z).          (* outPktHdr.from and .length, which Send sets in its copy *)

(** The calls up to the next Receive, after the messages [got]; in the end
    the machine halts. *)
Definition MailTest (farAddr : Z) (got : list message) : list call :=
  match got with
  | [] => [CSend (mkPH farAddr jf jl) (mkMH 0 1 (strlen data + 1)) data; CReceive 0]
  | [(inPktHdr, inMailHdr, buffer)] =>
      [CSend (mkPH (p_from inPktHdr) jf jl) (mkMH (m_from inMailHdr) 1 (strlen ack + 1)) ack; CReceive 1]
  | _ => []
  end.

(** The line that is printed for a message. *)
Definition Got (m : message) : list Z * Z * Z := (text (snd m), p_from (fst (fst m)), m_from (snd (fst m))).

(** Thread [i] of machine [d] goes on, if it is between two calls. *)
Definition fetch (farAddr : Z -> Z) (d : Z) (i : nat) : M World unit :=
  c ← get_client d i;
  match cpc c, calls c with
  | Ready, [] =>
      upd_node d (fun n => set_clients (<[i := mkClient Ready (MailTest (farAddr d) (got c)) (got c)]> (clients n)) n)
  | _, _ => ret tt
  end.

Definition step (farAddr : Z -> Z) (e : event) : M World unit :=
  b ← gets (enabled e);
  _ ← (match e with EClient d i => if (b : bool) then fetch farAddr d i else ret tt | _ => ret tt end);
  exec garbage e.

Fixpoint steps (farAddr : Z -> Z) (es : list event) : M World unit :=
  match es with
  | [] => ret tt
  | e :: es => _ ← step farAddr e; steps farAddr es
  end.

(** ** What operations leave alone *)

Definition same (n n' : Node) : Prop := clients n' = clients n /\ taken n' = taken n /\ posted n' = posted n.

Definition wrel (R : Z -> Node -> Node -> Prop) (w w' : World) : Prop :=
  forall d n, nodes w !! d = Some n -> exists n', nodes w' !! d = Some n' /\ R d n n'.

Definition keeps {A} (m : M World A) : Prop := forall w a w', m w = Ok (a, w') -> wrel (fun _ => same) w w'.

Lemma wsame_refl w : wrel (fun _ => same) w w.
Proof. intros d n Hn. by exists n. Qed.

Lemma wsame_trans R w1 w2 w3 : (forall (d : Z) n n' n2, same n n' -> R d n' n2 -> R d n n2) ->
  wrel (fun _ => same) w1 w2 -> wrel R w2 w3 -> wrel R w1 w3.
Proof.
  intros HR H1 H2 d n Hn. destruct (H1 d n Hn) as (n' & Hn' & Hs). destruct (H2 d n' Hn') as (n2 & Hn2 & Hr).
  exists n2. split; [done|]. by eapply HR.
Qed.

Lemma same_trans (d : Z) n n' n2 : same n n' -> same n' n2 -> same n n2.
Proof. intros (A1 & A2 & A3) (B1 & B2 & B3). split_and!; congruence. Qed.

Lemma bind_Ok_split {A B} (m : M World A) (f : A -> M World B) w b w' : (m ≫= f) w = Ok (b, w') ->
  exists a w1, m w = Ok (a, w1) /\ f a w1 = Ok (b, w').
Proof. unfold mbind, M_bind. destruct (m w) as [[a w1]|e]; [|done]. eauto. Qed.

Lemma mt_keeps_bind {A B} (m : M World A) (f : A -> M World B) : keeps m -> (forall a, keeps (f a)) -> keeps (m ≫= f).
Proof.
  intros Hm Hf w b w' H. apply bind_Ok_split in H as (a & w1 & E1 & E2).
  eapply wsame_trans; [apply same_trans|by eapply Hm|by eapply Hf].
Qed.

Lemma mt_keeps_ret {A} (a : A) : keeps (ret a).
Proof. intros w b w' [= <- <-]. apply wsame_refl. Qed.

Lemma mt_keeps_gets {A} (f : World -> A) : keeps (gets f).
Proof. intros w b w' [= <- <-]. apply wsame_refl. Qed.

Lemma mt_keeps_lift {A} (r : res A) : keeps (lift r).
Proof. intros w b w'. unfold lift. destruct r as [a|e]; [|done]. intros [= <- <-]. apply wsame_refl. Qed.

Lemma keeps_get d : keeps (get_node d).
Proof. apply mt_keeps_bind; [apply mt_keeps_gets|intros; apply mt_keeps_lift]. Qed.

Lemma upd_node_Ok d f n w : nodes w !! d = Some n -> upd_node d f w = Ok (tt, with_node d (f n) w).
Proof. intros Hn. unfold upd_node, get_node, mbind, M_bind, gets, lift. by rewrite Hn. Qed.

Lemma upd_node_inv d f w u w' : upd_node d f w = Ok (u, w') -> exists n, nodes w !! d = Some n /\ w' = with_node d (f n) w.
Proof.
  destruct (nodes w !! d) as [n|] eqn:Hn.
  - rewrite (upd_node_Ok d f n) by done. intros [= _ <-]. eauto.
  - unfold upd_node, get_node, mbind, M_bind, gets, lift. by rewrite Hn.
Qed.

Lemma lookup_with d n w d' : nodes (with_node d n w) !! d' = if decide (d' = d) then Some n else nodes w !! d'.
Proof. unfold with_node. cbn. case_decide as E; [subst; apply lookup_insert_eq|by apply lookup_insert_ne]. Qed.

Lemma wrel_with (R : Z -> Node -> Node -> Prop) d n n' w : nodes w !! d = Some n -> R d n n' ->
  (forall d' x, d' <> d -> R d' x x) -> wrel R w (with_node d n' w).
Proof.
  intros Hn HR Hid d' x Hx. rewrite lookup_with. case_decide as E; [|by exists x; auto].
  subst. rewrite Hn in Hx. injection Hx as <-. eauto.
Qed.

Lemma keeps_upd d f : (forall n, same n (f n)) -> keeps (upd_node d f).
Proof.
  intros Hf w u w' H. apply upd_node_inv in H as (n & Hn & ->). apply (wrel_with _ _ n); [done|apply Hf|done].
Qed.

Lemma keeps_Random : keeps Random.
Proof. intros w a w' [= <- <-]. by intros d n Hn; exists n. Qed.

Ltac keep :=
  repeat lazymatch goal with
  | |- keeps (upd_node _ _) => apply keeps_upd; intros; done
  | |- keeps (get_node _) => apply keeps_get
  | |- keeps Random => apply keeps_Random
  | |- keeps (lift _) => apply mt_keeps_lift
  | |- keeps (gets _) => apply mt_keeps_gets
  | |- keeps (ret _) => apply mt_keeps_ret
  | |- keeps (_ ≫= _) => apply mt_keeps_bind; [|intros ?]
  | |- keeps (match ?x with _ => _ end) => destruct x
  end.

Lemma keeps_worker d : keeps (PostalDelivery_step garbage d).
Proof. unfold PostalDelivery_step, Network_Receive, MailBox_Put, assert. keep. Qed.

Lemma keeps_interrupt d i : keeps (take_interrupt d i).
Proof. unfold take_interrupt, CheckPktAvail, SendDone, PacketSent, IncomingPacket, Schedule, assert. keep. Qed.

Lemma keeps_network d h buf : keeps (Network_Send garbage d h buf).
Proof. unfold Network_Send, Schedule, assert. keep. Qed.

Lemma keeps_device e : device e = true -> keeps (exec garbage e).
Proof.
  intros He. destruct e; [done| |]; unfold exec; keep; [apply keeps_worker|apply keeps_interrupt].
Qed.

(** ** Two machines *)

(** The two letters from [d] to [o]. *)
Definition letters (d o : Z) : list message :=
  [sent_message d (mkPH o jf jl) (mkMH 0 1 (strlen data + 1)) data;
   sent_message d (mkPH o jf jl) (mkMH 1 1 (strlen ack + 1)) ack].

(** The calls that are left at each stage of the test. *)
Definition remaining (o : Z) (j : nat) : list call :=
  match j with
  | 0%nat => [CSend (mkPH o jf jl) (mkMH 0 1 (strlen data + 1)) data; CReceive 0]
  | 1%nat => [CReceive 0]
  | 2%nat => [CSend (mkPH o jf jl) (mkMH 1 1 (strlen ack + 1)) ack; CReceive 1]
  | 3%nat => [CReceive 1]
  | _ => []
  end.

Definition sends_at (j : nat) : bool := match j with 0%nat | 2%nat => true | _ => false end.

(** Thread [c] of [d] at stage [j]. *)
Definition at_stage (d o : Z) (j : nat) (c : Client) : Prop :=
  (j <= 4)%nat /\ got c = take (Nat.div2 j) (letters o d) /\
  (calls c = remaining o j \/ calls c = [] /\ sends_at j = true /\ cpc c = Ready) /\
  (sends_at j = false -> cpc c = Ready).

Definition gone (p : client_pc) : bool := match p with AtSent | AtRelease => true | _ => false end.

(** How many of its letters are out. *)
Definition sent (j : nat) (p : client_pc) : nat :=
  (match j with 0 => 0 | 1 | 2 => 1 | _ => 2 end + if sends_at j && gone p then 1 else 0)%nat.

Definition pc_rank (p : client_pc) : nat :=
  match p with Ready => 0 | AtAcquire _ _ => 1 | AtNetwork _ _ => 2 | AtSent => 3 | AtRelease => 4 end.

(** [n] is [d], its thread has made [r] steps; [no] is [o]. *)
Definition part (d o : Z) (r : nat) (n no : Node) : Prop :=
  exists j c, clients n = [c] /\ at_stage d o j c /\ taken n = zip [0; 1] (got c) /\
    posted no = take (sent j (cpc c)) (letters d o) /\ (r = 5 * j + pc_rank (cpc c))%nat.

Definition Inv (d o : Z) (r ro : nat) (w : World) : Prop :=
  world_ok True {[d; o]} 10 w /\
  exists n no, nodes w !! d = Some n /\ nodes w !! o = Some no /\ part d o r n no /\ part o d ro no n.

Lemma Inv_sym d o r ro w : Inv d o r ro w -> Inv o d ro r w.
Proof.
  intros (Hw & n & no & Hn & Hno & Hp & Hpo). split; [|by exists no, n].
  replace ({[o; d]} : gset Z) with ({[d; o]} : gset Z) by set_solver. exact Hw.
Qed.

Lemma part_same d o r n no n' no' : same n n' -> same no no' -> part d o r n no -> part d o r n' no'.
Proof.
  intros (E1 & E2 & E3) (F1 & F2 & F3) (j & c & H1 & H2 & H3 & H4 & H5).
  exists j, c. rewrite E1, E2, F3. done.
Qed.

(** An event of a device or a postal worker. *)
Lemma device_step far d o r ro w e : Inv d o r ro w -> device e = true ->
  exists w', step far e w = Ok (tt, w') /\ exec garbage e w = Ok (tt, w') /\ Inv d o r ro w'.
Proof.
  intros (Hw & n & no & Hn & Hno & Hp & Hpo) He.
  destruct (exec_good garbage True {[d; o]} 10 e w Hw) as ([] & w' & E & Hw').
  exists w'. split; [|split; [done|]].
  - unfold step, mbind, M_bind, gets, ret. destruct e; [done|exact E|exact E].
  - pose proof (keeps_device e He w tt w' E) as Hk.
    destruct (Hk d n Hn) as (n' & Hn' & Hs). destruct (Hk o no Hno) as (no' & Hno' & Hso).
    split; [done|]. exists n', no'. split; [done|]. split; [done|]. split; by eapply part_same.
Qed.

(** The plan is what MailTest does with the letters it gets. *)
Lemma MailTest_remaining d o j c : at_stage d o j c -> calls c = [] -> MailTest o (got c) = remaining o j.
Proof.
  intros (Hj & Hg & Hc & _) E. rewrite Hg. rewrite E in Hc.
  destruct j as [|[|[|[|[|j]]]]]; try reflexivity; destruct Hc as [Hc|(_ & Hc & _)]; done.
Qed.

Lemma remaining_ok d o j : Forall (call_ok {[d; o]} 10) (remaining o j).
Proof.
  assert (o ∈ ({[d; o]} : gset Z)) by set_solver.
  destruct j as [|[|[|[|j]]]]; cbn [remaining]; repeat (apply Forall_cons; split); try apply Forall_nil; try done.
  all: cbn [call_ok p_to m_to m_from m_length]; split_and!; done.
Qed.

Lemma get_client_Ok d n c w : nodes w !! d = Some n -> clients n = [c] -> get_client d 0 w = Ok (c, w).
Proof. intros Hn Hc. unfold get_client, get_node, mbind, M_bind, gets, lift. rewrite Hn. cbn. by rewrite Hc. Qed.

Lemma exec_client d n c w : nodes w !! d = Some n -> clients n = [c] ->
  exec garbage (EClient d 0) w = client_step garbage d 0 w.
Proof.
  intros Hn Hc. unfold exec, mbind, M_bind, gets. cbn [enabled]. rewrite Hn, Hc.
  by rewrite bool_decide_eq_true_2 by (by eexists).
Qed.

(** Before a step of a thread: it has the calls of its stage. *)
Record about_to (d o : Z) (r ro : nat) (w : World) (n no : Node) (j : nat) (c : Client) : Prop := {
  ab_ok : world_ok True {[d; o]} 10 w;
  ab_n : nodes w !! d = Some n;
  ab_no : nodes w !! o = Some no;
  ab_client : clients n = [c];
  ab_stage : (j <= 4)%nat /\ got c = take (Nat.div2 j) (letters o d) /\ (sends_at j = false -> cpc c = Ready);
  ab_calls : calls c = remaining o j;
  ab_taken : taken n = zip [0; 1] (got c);
  ab_posted : posted no = take (sent j (cpc c)) (letters d o);
  ab_rank : (r = 5 * j + pc_rank (cpc c))%nat;
  ab_other : part o d ro no n
}.

Lemma fetch_step far d o r ro w n0 : d <> o -> far d = o -> Inv d o r ro w -> nodes w !! d = Some n0 ->
  exists w' n no j c, fetch far d 0 w = Ok (tt, w') /\ about_to d o r ro w' n no j c /\
    boxes n = boxes n0 /\ messageSent n = messageSent n0.
Proof.
  intros Hdo Hfar HI Hn0. destruct HI as (Hw & n & no & Hn & Hno & (j & c & Hc & Hst & Ht & Hpost & Hr) & Hpo).
  unfold fetch, mbind, M_bind. rewrite (get_client_Ok d n c) by done.
  assert (Hcase : (cpc c = Ready /\ calls c = []) \/ calls c = remaining o j /\
    forall X Y : M World unit, match cpc c, calls c with Ready, [] => X | _, _ => Y end = Y).
  { destruct Hst as (_ & _ & [Ec|(Ec & _ & Ep)] & _); [|by left].
    rewrite Ec. destruct (cpc c), (remaining o j); auto. }
  destruct Hcase as [[Ep Ec]|[Ec Hsame]].
  - rewrite Ep, Ec, (upd_node_Ok d _ n) by done. pose proof (MailTest_remaining d o j c Hst Ec) as Em.
    rewrite Hfar, Em. set (c' := mkClient Ready (remaining o j) (got c)).
    set (n' := set_clients _ n).
    exists (with_node d n' w), n', no, j, c'. split; [done|]. rewrite Hn in Hn0. injection Hn0 as <-. split; [|done].
    destruct Hst as (Hj & Hg & _ & Hpc). split; try done.
    + eapply with_node_ok; [exact Hw|exact Hn|done|].
      apply (idle_good True {[d; o]} 10 d n 0 c c'); [by apply Hw|by rewrite Hc|by rewrite Ep|done|].
      split; [apply remaining_ok|done].
    + apply nodes_with.
    + rewrite lookup_with, decide_False by done. done.
    + cbn. by rewrite Hc.
    + cbn [cpc c']. by rewrite Hpost, Ep.
    + cbn [cpc c']. by rewrite Hr, Ep.
  - rewrite Hsame. exists w, n, no, j, c. split; [done|]. rewrite Hn in Hn0. injection Hn0 as <-. split; [|done]. destruct Hst as (Hj & Hg & _ & Hpc). by split.
Qed.

(** *** The steps of a thread *)

Lemma Inv_node d o r r' ro w n no j c n' j' c' : d <> o -> about_to d o r ro w n no j c ->
  world_ok True {[d; o]} 10 (with_node d n' w) ->
  clients n' = [c'] -> at_stage d o j' c' -> taken n' = zip [0; 1] (got c') -> posted n' = posted n ->
  sent j' (cpc c') = sent j (cpc c) -> (r' = 5 * j' + pc_rank (cpc c'))%nat ->
  Inv d o r' ro (with_node d n' w).
Proof.
  intros Hdo H Hw' H1 H2 H3 H4 H5 H6. split; [done|]. exists n', no. split; [apply nodes_with|].
  split; [rewrite lookup_with, decide_False by done; apply H|]. split.
  - exists j', c'. split_and!; try done. rewrite H5. apply H.
  - destruct (ab_other _ _ _ _ _ _ _ _ _ H) as (jo & co & A & B & C & E & F). exists jo, co. by rewrite H4.
Qed.

Lemma get_node_Ok d n w : nodes w !! d = Some n -> get_node d w = Ok (n, w).
Proof. intros Hn. unfold get_node, mbind, M_bind, gets, lift. by rewrite Hn. Qed.

Lemma set_pc_Ok d n c p w : nodes w !! d = Some n -> clients n = [c] ->
  set_pc d 0 c p w = Ok (tt, with_node d (set_clients [mkClient p (calls c) (got c)] n) w).
Proof. intros Hn Hc. unfold set_pc. rewrite (upd_node_Ok d _ n) by done. by rewrite Hc. Qed.

Lemma return_Ok d n c m w : nodes w !! d = Some n -> clients n = [c] ->
  return_ d 0 c m w = Ok (tt, with_node d (set_clients [mkClient Ready (tail (calls c)) (got c ++ m)] n) w).
Proof. intros Hn Hc. unfold return_. rewrite (upd_node_Ok d _ n) by done. by rewrite Hc. Qed.

(** The step of a thread that can be made, and then leads on. *)
Definition can_go (n : Node) (j : nat) (c : Client) : Prop :=
  match cpc c with
  | AtSent => messageSent n <> 0
  | Ready =>
      match j with
      | 1%nat => boxes n !! 0%nat <> Some []
      | 3%nat => boxes n !! 1%nat <> Some []
      | 4%nat => False
      | _ => True
      end
  | _ => True
  end.

Definition goes_on (d o : Z) (r ro : nat) (w : World) (n : Node) (j : nat) (c : Client) : Prop :=
  exists w' r', client_step garbage d 0 w = Ok (tt, w') /\ Inv d o r' ro w' /\ (r <= r')%nat /\ (can_go n j c -> (r < r')%nat).

Lemma client_runs d o r ro w n no j c : about_to d o r ro w n no j c ->
  exists w', client_step garbage d 0 w = Ok (tt, w') /\ world_ok True {[d; o]} 10 w'.
Proof.
  intros H. destruct (exec_good garbage True {[d; o]} 10 (EClient d 0) w) as ([] & w' & E & Hw'); [apply H|].
  exists w'. rewrite <-(exec_client d n c) by apply H. done.
Qed.

(** A stage with a Send. *)
Lemma sends_inv o j : sends_at j = true -> exists mh data rest, remaining o j = CSend (mkPH o jf jl) mh data :: rest /\
  rest = remaining o (S j) /\ 0 <= m_length mh.
Proof. destruct j as [|[|[|j]]]; try done; intros _; eexists _, _, _; (split; [done|]); (split; [done|]); vm_compute; done. Qed.

Lemma prefix_two {A} (x y : A) l : l `prefix_of` [x; y] -> l = [] \/ l = [x] \/ l = [x; y].
Proof.
  intros (k & E). destruct l as [|a [|b l]]; [by left|right; left|right; right]; cbn in E; [by injection E as -> _|].
  injection E as -> -> E. by destruct l.
Qed.

(** The letters for a box, of those that have arrived. *)
Lemma for_box_letters d o b l : (b = 0 \/ b = 1) -> l `prefix_of` letters o d ->
  for_box b l = match letters o d !! Z.to_nat b with
                | Some x => if (Z.to_nat b <? length l)%nat then [x] else []
                | None => []
                end.
Proof. intros [-> | ->] H; apply prefix_two in H as [-> |[-> | ->]]; reflexivity. Qed.

Section Steps.
Context (d o : Z) (r ro : nat) (w : World) (n no : Node) (j : nat) (c : Client).
Hypothesis Hdo : d <> o.
Hypothesis H : about_to d o r ro w n no j c.

(** Nothing changes: the thread waits. *)
Lemma stays : client_step garbage d 0 w = Ok (tt, w) -> ~ can_go n j c -> goes_on d o r ro w n j c.
Proof using H.
  intros E Hc. exists w, r. split; [done|]. split; [|by split].
  split; [apply H|]. exists n, no. split; [apply H|]. split; [apply H|]. split; [|apply H].
  exists j, c. destruct (ab_stage _ _ _ _ _ _ _ _ _ H) as (Hj & Hg & Hs).
  split; [apply H|]. split; [|split; [apply H|split; apply H]]. split; [done|]. split; [done|]. split; [left; apply H|done].
Qed.

Lemma still_at p : sends_at j = true -> at_stage d o j (mkClient p (calls c) (got c)).
Proof using H.
  intros Hs. destruct (ab_stage _ _ _ _ _ _ _ _ _ H) as (Hj & Hg & _).
  split; [done|]. split; [done|]. split; [left; apply H|congruence].
Qed.

(** A step in Send that only the thread's own machine sees. *)
Lemma moves n' p : client_step garbage d 0 w = Ok (tt, with_node d n' w) -> sends_at j = true ->
  clients n' = [mkClient p (calls c) (got c)] -> taken n' = taken n -> posted n' = posted n ->
  gone p = gone (cpc c) -> pc_rank p = S (pc_rank (cpc c)) -> goes_on d o r ro w n j c.
Proof using Hdo H.
  intros E Hs Hc Ht Hp Hg Hr. destruct (client_runs _ _ _ _ _ _ _ _ _ H) as (w' & E' & Hw').
  rewrite E in E'. injection E' as <-. exists (with_node d n' w), (S r). split; [done|]. split; [|lia].
  apply (Inv_node d o r _ ro w n no j c n' j (mkClient p (calls c) (got c))); try done.
  - by apply still_at.
  - rewrite Ht. apply H.
  - unfold sent. cbn [cpc]. by rewrite Hg.
  - rewrite (ab_rank _ _ _ _ _ _ _ _ _ H). cbn [cpc]. lia.
Qed.

Lemma in_send : cpc c <> Ready -> sends_at j = true.
Proof using H. intros Hpc. destruct (ab_stage _ _ _ _ _ _ _ _ _ H) as (_ & _ & Hs). destruct (sends_at j); [done|]. by rewrite Hs in Hpc. Qed.

Ltac body :=
  unfold client_step; unfold mbind at 1, M_bind at 1; rewrite (get_client_Ok d n c) by apply H;
  unfold mbind at 1, M_bind at 1; rewrite (get_node_Ok d n) by apply H.

Lemma node_ok : node_with True 10 (sends {[d; o]} 10) d n.
Proof using H. apply (ab_ok _ _ _ _ _ _ _ _ _ H), H. Qed.

(** The calls of a stage with a Send. *)
Lemma sends_calls : sends_at j = true -> exists mh data rest, calls c = CSend (mkPH o jf jl) mh data :: rest /\
  rest = remaining o (S j) /\
  letters d o !! Nat.div2 j = Some (sent_message d (mkPH o jf jl) mh data).
Proof using H.
  intros Hs. rewrite (ab_calls _ _ _ _ _ _ _ _ _ H). pose proof (proj1 (ab_stage _ _ _ _ _ _ _ _ _ H)).
  destruct j as [|[|[|[|[|]]]]]; try done; eexists _, _, _; (split; [done|]); (split; done).
Qed.

Lemma go_prepare : cpc c = Ready -> sends_at j = true -> goes_on d o r ro w n j c.
Proof using Hdo H.
  intros Hpc Hs. destruct (sends_calls Hs) as (mh & data & rest & Ec & _ & _).
  destruct (client_runs _ _ _ _ _ _ _ _ _ H) as (w' & E & _). pose proof E as E0. revert E. body. rewrite Hpc, Ec.
  intros E. apply bind_Ok_split in E as ([h buf] & w1 & E1 & E).
  unfold lift in E1. destruct (Send_prepare garbage n (mkPH o jf jl) mh data) as [x|]; [|done]. injection E1 as _ <-.
  rewrite (set_pc_Ok d n c) in E by apply H. injection E as <-.
  apply (moves _ (AtAcquire h buf) E0 Hs); try done; by rewrite Hpc.
Qed.

Lemma go_acquire h buf : cpc c = AtAcquire h buf -> goes_on d o r ro w n j c.
Proof using Hdo H.
  intros Hpc. assert (Hs : sends_at j = true) by (apply in_send; by rewrite Hpc).
  assert (Hl : sendLock n = None).
  { destruct (sendLock n) as [i|] eqn:El; [|done]. destruct node_ok as (_ & _ & (sending & Hsend) & _).
    pose proof (sn_lock _ _ _ _ _ Hsend) as Hlk. rewrite El in Hlk. destruct Hlk as ((c1 & Hc1 & Hph) & _).
    rewrite (ab_client _ _ _ _ _ _ _ _ _ H) in Hc1. apply list_lookup_singleton_Some in Hc1 as [_ <-]. by rewrite Hpc in Hph. }
  assert (E : client_step garbage d 0 w = Ok (tt, with_node d (set_clients [mkClient (AtNetwork h buf) (calls c) (got c)] (set_sendLock (Some 0%nat) n)) w)).
  { body. rewrite Hpc, Hl. unfold mbind, M_bind. rewrite (upd_node_Ok d _ n) by apply H.
    rewrite (set_pc_Ok d (set_sendLock (Some 0%nat) n)) by (apply nodes_with || apply H). by rewrite with_with. }
  apply (moves _ (AtNetwork h buf) E Hs); try done; by rewrite Hpc.
Qed.

Lemma go_wait : cpc c = AtSent -> goes_on d o r ro w n j c.
Proof using Hdo H.
  intros Hpc. assert (Hs : sends_at j = true) by (apply in_send; by rewrite Hpc).
  destruct (Z.eqb_spec (messageSent n) 0) as [Em|Em].
  - apply stays; [body; rewrite Hpc, Em; reflexivity|]. unfold can_go. rewrite Hpc. lia.
  - apply Z.eqb_neq in Em.
    assert (E : client_step garbage d 0 w = Ok (tt, with_node d (set_clients [mkClient AtRelease (calls c) (got c)] (set_messageSent (messageSent n - 1) n)) w)).
    { body. rewrite Hpc, Em. unfold mbind, M_bind. rewrite (upd_node_Ok d _ n) by apply H.
      rewrite (set_pc_Ok d (set_messageSent (messageSent n - 1) n)) by (apply nodes_with || apply H). by rewrite with_with. }
    apply (moves _ AtRelease E Hs); try done; by rewrite Hpc.
Qed.

Lemma go_release : cpc c = AtRelease -> goes_on d o r ro w n j c.
Proof using Hdo H.
  intros Hpc. assert (Hs : sends_at j = true) by (apply in_send; by rewrite Hpc).
  destruct (sends_calls Hs) as (mh & data & rest & Ec & Er & _).
  set (c' := mkClient Ready (tail (calls c)) (got c ++ [])).
  assert (E : client_step garbage d 0 w = Ok (tt, with_node d (set_clients [c'] (set_sendLock None n)) w)).
  { body. rewrite Hpc. unfold mbind, M_bind. rewrite (upd_node_Ok d _ n) by apply H.
    rewrite (return_Ok d (set_sendLock None n)) by (apply nodes_with || apply H). by rewrite with_with. }
  destruct (client_runs _ _ _ _ _ _ _ _ _ H) as (w' & E' & Hw'). rewrite E in E'. injection E' as <-.
  pose proof (ab_rank _ _ _ _ _ _ _ _ _ H) as Hr. rewrite Hpc in Hr. cbn [pc_rank] in Hr.
  eexists _, (S r). split; [exact E|]. split; [|lia].
  destruct (ab_stage _ _ _ _ _ _ _ _ _ H) as (Hj & Hg & _).
  apply (Inv_node d o r _ ro w n no j c _ (S j) c'); try done; unfold c'; cbn [cpc got calls].
  - rewrite app_nil_r. split; [|split; [|split; [left|done]]]; cbn [got calls].
    + destruct j as [|[|[|[|[|]]]]]; try done; lia.
    + rewrite Hg. by destruct j as [|[|[|[|[|]]]]].
    + by rewrite Ec.
  - rewrite app_nil_r. apply H.
  - rewrite Hpc. by destruct j as [|[|[|[|[|]]]]].
  - rewrite Hr. cbn. lia.
Qed.

(** The packet goes out: the letter is posted to the other machine. *)
Lemma go_network h buf : cpc c = AtNetwork h buf -> goes_on d o r ro w n j c.
Proof using Hdo H.
  intros Hpc. assert (Hs : sends_at j = true) by (apply in_send; by rewrite Hpc).
  destruct (sends_calls Hs) as (mh & data & rest & Ec & Er & Hl).
  assert (Hh : h = fst (fst (sent_message d (mkPH o jf jl) mh data))).
  { destruct node_ok as (_ & _ & (sending & Hsend) & _). pose proof (sn_clients _ _ _ _ _ Hsend) as Hf.
    rewrite (ab_client _ _ _ _ _ _ _ _ _ H) in Hf. apply Forall_cons in Hf as [[_ Hf] _]. rewrite Hpc in Hf.
    destruct Hf as (ph & mh' & data' & rest' & Ec' & Eh & _). rewrite Ec in Ec'. injection Ec' as <- <- <- _. exact Eh. }
  destruct (client_runs _ _ _ _ _ _ _ _ _ H) as (w' & E & Hw'). pose proof E as E0. revert E. body. rewrite Hpc, Ec. intros E.
  apply bind_Ok_split in E as (out & w1 & E1 & E). apply keeps_network in E1.
  apply bind_Ok_split in E as (u & w3 & E2 & E3).
  apply bind_Ok_split in E2 as (u1 & w2 & E2 & E4).
  assert (Hk : wrel (fun _ => same) w w2).
  { eapply wsame_trans; [apply same_trans|exact E1|].
    assert (Hkeep : keeps (if out : bool then upd_node (p_to h) (fun n => set_carried (carried n ++ [(h, mh, take (Z.to_nat (m_length mh)) data)]) n) else ret tt)) by (keep).
    exact (Hkeep w1 u1 w2 E2). }
  clear E1 E2. destruct (Hk d n) as (n2 & Hn2 & Hsn); [apply H|]. destruct (Hk o no) as (no2 & Hno2 & Hso); [apply H|].
  assert (Eto : p_to h = o) by (by rewrite Hh). rewrite Eto in E4.
  apply bind_Ok_split in E4 as (ns & w2' & E5 & E4). injection E5 as <- <-.
  rewrite bool_decide_eq_true_2 in E4 by (by eexists).
  rewrite (upd_node_Ok o _ no2) in E4 by done. injection E4 as _ <-.
  destruct Hsn as (S1 & S2 & S3). destruct Hso as (T1 & T2 & T3).
  rewrite (set_pc_Ok d n2 c) in E3; [|by rewrite lookup_with, decide_False by done|rewrite S1; apply H].
  injection E3 as <-. pose proof (ab_rank _ _ _ _ _ _ _ _ _ H) as Hr. rewrite Hpc in Hr. cbn [pc_rank] in Hr.
  eexists _, (S r). split; [exact E0|]. split; [|lia]. split; [exact Hw'|]. eexists _, _. split; [apply nodes_with|].
  split; [rewrite lookup_with, decide_False by done; apply nodes_with|]. split.
  - exists j, (mkClient AtSent (calls c) (got c)). split; [done|]. split; [by apply still_at|]. split; [cbn; rewrite S2; apply H|].
    split; [|rewrite Hr; cbn; lia]. cbn [posted set_posted cpc]. rewrite T3, (ab_posted _ _ _ _ _ _ _ _ _ H), Hpc.
    unfold sent. rewrite Hs. cbn [andb gone]. rewrite Nat.add_0_r, Nat.add_1_r.
    replace (match j with 0 => 0 | 1 | 2 => 1 | _ => 2 end)%nat with (Nat.div2 j) by (by destruct j as [|[|[|]]]).
    rewrite (take_S_r _ _ _ Hl). f_equal. f_equal. unfold sent_message. by rewrite Hh.
  - destruct (ab_other _ _ _ _ _ _ _ _ _ H) as (jo & co & A & B & C & D & F). exists jo, co.
    cbn [clients set_posted taken posted set_clients]. rewrite T1, T2, S3. done.
Qed.

Lemma go_halt : cpc c = Ready -> j = 4%nat -> goes_on d o r ro w n j c.
Proof using H.
  intros Hpc Hj. pose proof (ab_calls _ _ _ _ _ _ _ _ _ H) as Ec. rewrite Hj in Ec. apply stays.
  - body. by rewrite Hpc, Ec.
  - unfold can_go. rewrite Hpc, Hj. tauto.
Qed.

(** What is in a mailbox is the letter that is expected there. *)
Lemma boxed b l rest : j = S (2 * Z.to_nat b) -> (b = 0 \/ b = 1) -> boxes n !! Z.to_nat b = Some (l :: rest) ->
  letters o d !! Z.to_nat b = Some (mail_message l) /\ mail_ok l.
Proof using H.
  intros Hj Hb Hbox. destruct node_ok as (_ & (del & hand & inb & sock & Hr) & _ & Hh).
  split; [|by pose proof (Forall_lookup_1 _ _ _ _ (rc_mails _ _ _ _ _ _ _ Hr) Hbox) as Hm; apply Forall_cons in Hm as [Hm _]].
  pose proof (rc_boxed _ _ _ _ _ _ _ Hr b ltac:(lia)) as Hm. unfold mailbox in Hm. rewrite Hbox in Hm. cbn [default from_option fmap list_fmap] in Hm.
  destruct (ab_other _ _ _ _ _ _ _ _ _ H) as (jo & co & _ & _ & _ & Hp & _).
  assert (Hd : del `prefix_of` letters o d).
  { pose proof (hi_all _ _ Hh I) as Hc. rewrite Hp, (rc_carried _ _ _ _ _ _ _ Hr) in Hc.
    etrans; [|apply prefix_take]. rewrite <-Hc. apply prefix_app_r. done. }
  destruct (ab_stage _ _ _ _ _ _ _ _ _ H) as (_ & Hg & _). rewrite (ab_taken _ _ _ _ _ _ _ _ _ H), Hg, Hj in Hm.
  rewrite (for_box_letters d o b del Hb Hd) in Hm. revert Hm.
  destruct Hb as [-> | ->]; cbn -[letters mail_message Nat.ltb];
    (destruct (letters o d !! _) as [x|]; [|done]); (destruct (Nat.ltb _ _); [|done]); by intros [= -> _].
Qed.

Lemma go_receive b : cpc c = Ready -> j = S (2 * Z.to_nat b) -> (b = 0 \/ b = 1) -> goes_on d o r ro w n j c.
Proof using Hdo H.
  intros Hpc Hj Hb. assert (Ec : calls c = [CReceive b]).
  { rewrite (ab_calls _ _ _ _ _ _ _ _ _ H), Hj. by destruct Hb as [-> | ->]. }
  destruct (client_runs _ _ _ _ _ _ _ _ _ H) as (w' & E & Hw'). pose proof E as E0. revert E. body. rewrite Hpc, Ec. intros E.
  apply bind_Ok_split in E as (u & w1 & E1 & E). unfold assert, lift in E1. destruct (ASSERT _); [|done]. injection E1 as _ <-.
  apply bind_Ok_split in E as (m & w2 & E2 & E). unfold MailBox_Get in E2.
  apply bind_Ok_split in E2 as (n1 & w3 & E3 & E2). rewrite (get_node_Ok d n) in E3 by apply H. injection E3 as <- <-.
  apply bind_Ok_split in E2 as (mails & w3 & E3 & E2). unfold lift in E3. destruct (aget (boxes n) b) as [ms|] eqn:Eg; [|done].
  injection E3 as <- <-. apply aget_Ok_inv in Eg as [_ Eg]. destruct ms as [|l rest].
  - injection E2 as <- <-. injection E as <-. apply stays; [exact E0|]. unfold can_go. rewrite Hpc, Hj.
    destruct Hb as [-> | ->]; cbn; intros Hx; by apply Hx.
  - destruct (boxed b l rest Hj Hb Eg) as [Hlet [Hlen Hdata]].
    apply bind_Ok_split in E2 as (bs & w3 & E3 & E2). unfold lift in E3. destruct (aset (boxes n) b rest) as [bs'|]; [|done]. injection E3 as -> <-.
    apply bind_Ok_split in E2 as (u2 & w3 & E3 & E2). rewrite (upd_node_Ok d _ n) in E3 by apply H. injection E3 as _ <-.
    rewrite bread_Ok in E2 by lia. cbn [lift mbind M_bind] in E2. injection E2 as <- <-.
    change (pktHdr l, mailHdr l, slice 0 (m_length (mailHdr l)) (mdata l)) with (mail_message l) in E.
    apply bind_Ok_split in E as (u3 & w3 & E3 & E). unfold assert, lift in E3. destruct (ASSERT _); [|done]. injection E3 as _ <-.
    apply bind_Ok_split in E as (u4 & w3 & E3 & E). set (n1 := set_boxes bs n) in *.
    rewrite (upd_node_Ok d _ n1) in E3 by apply nodes_with. injection E3 as _ <-. rewrite with_with in E.
    set (n2 := set_taken _ n1) in *. rewrite (return_Ok d n2 c) in E by (apply nodes_with || apply H).
    injection E as <-. rewrite with_with in *.
    pose proof (ab_rank _ _ _ _ _ _ _ _ _ H) as Hr. rewrite Hpc in Hr. cbn [pc_rank] in Hr.
    destruct (ab_stage _ _ _ _ _ _ _ _ _ H) as (Hj4 & Hg & _).
    assert (Hg' : got c ++ [mail_message l] = take (Nat.div2 (S j)) (letters o d)).
    { rewrite Hg, Hj. destruct Hb as [-> | ->]; symmetry; exact (take_S_r _ _ _ Hlet). }
    eexists _, (5 * S j)%nat. split; [exact E0|]. split; [|lia].
    apply (Inv_node d o r _ ro w n no j c _ (S j) (mkClient Ready (tail (calls c)) (got c ++ [mail_message l]))); try done; cbn [cpc got calls].
    + split; [rewrite Hj; lia|]. split; [exact Hg'|]. split; [|done]. cbn [calls]. rewrite Ec, Hj. destruct Hb as [-> | ->]; [by right|by left].
    + cbn [taken set_clients set_taken n2 n1]. rewrite (ab_taken _ _ _ _ _ _ _ _ _ H), Hg, Hj.
      by destruct Hb as [-> | ->].
    + rewrite Hpc, Hj. by destruct Hb as [-> | ->].
Qed.

(** Every step of a thread. *)
Lemma client_goes : goes_on d o r ro w n j c.
Proof using Hdo H.
  destruct (cpc c) as [|h buf|h buf| |] eqn:Hpc.
  - pose proof (proj1 (ab_stage _ _ _ _ _ _ _ _ _ H)) as Hj. destruct (sends_at j) eqn:Hs; [by apply go_prepare|].
    destruct (decide (j = 4%nat)) as [E|E]; [by apply go_halt|].
    assert (Hc : j = 1%nat \/ j = 3%nat).
    { clear -Hj Hs E. destruct j as [|[|[|[|[|]]]]]; try done; [by left|by right|lia]. }
    destruct Hc; [apply (go_receive 0)|apply (go_receive 1)]; auto.
  - by apply (go_acquire h buf).
  - by apply (go_network h buf).
  - by apply go_wait.
  - by apply go_release.
Qed.
End Steps.

(** ** Runs *)

(** A thread with [r] steps behind it is not waiting. *)
Definition ready (n : Node) (r : nat) : Prop :=
  ((r mod 5 = 3)%nat -> messageSent n <> 0) /\
  (r = 5%nat -> boxes n !! 0%nat <> Some []) /\ (r = 15%nat -> boxes n !! 1%nat <> Some []) /\ r <> 20%nat.

Lemma rank_inv r j p : (r = 5 * j + pc_rank p)%nat -> (r / 5 = j /\ r mod 5 = pc_rank p)%nat.
Proof.
  intros ->. assert (pc_rank p < 5)%nat by (destruct p; cbn; lia). split.
  - rewrite Nat.mul_comm, Nat.div_add_l, Nat.div_small by lia. lia.
  - rewrite Nat.add_comm, Nat.mul_comm, Nat.Div0.mod_add. by apply Nat.mod_small.
Qed.

Lemma ready_can_go d o r ro w n no j c : about_to d o r ro w n no j c -> ready n r -> can_go n j c.
Proof.
  intros H (H1 & H2 & H3 & H4). pose proof (ab_rank _ _ _ _ _ _ _ _ _ H) as Hr. unfold can_go.
  pose proof (proj2 (rank_inv _ _ _ Hr)) as Hm. destruct (cpc c); try done; cbn in *.
  - destruct j as [|[|[|[|[|]]]]]; try done; [apply H2|apply H3]; lia.
  - by apply H1.
Qed.

Section Runs.
Context (far : Z -> Z).

Lemma thread_step d o r ro w n : d <> o -> far d = o -> Inv d o r ro w -> nodes w !! d = Some n ->
  exists w' r', step far (EClient d 0) w = Ok (tt, w') /\ Inv d o r' ro w' /\ (r <= r')%nat /\ (ready n r -> (r < r')%nat).
Proof using All.
  intros Hdo Hfar HI Hn. destruct (fetch_step far d o r ro w n Hdo Hfar HI Hn) as (w1 & n1 & no1 & j & c & E & H & Hb & Hm).
  destruct (client_goes d o r ro w1 n1 no1 j c Hdo H) as (w' & r' & E' & HI' & Hle & Hlt).
  exists w', r'. split; [|split; [done|split; [done|]]].
  - unfold step. unfold mbind at 1, M_bind at 1. cbn [gets].
    assert (He : enabled (EClient d 0) w = true).
    { destruct HI as (_ & n2 & no2 & Hn2 & _ & (j2 & c2 & Hc2 & _) & _). cbn. rewrite Hn2, Hc2. by apply bool_decide_eq_true_2; eexists. }
    unfold gets. rewrite He. unfold mbind, M_bind. rewrite E.
    by rewrite (exec_client d n1 c) by apply H.
  - intros Hr. apply Hlt. apply (ready_can_go d o r ro w1 n1 no1 j c H). unfold ready. by rewrite Hb, Hm.
Qed.

Lemma no_thread d o r ro w i : Inv d o r ro w -> i <> 0%nat -> enabled (EClient d i) w = false.
Proof using All.
  intros (_ & n & no & Hn & _ & (j & c & Hc & _) & _) Hi. cbn. rewrite Hn, Hc.
  apply bool_decide_eq_false_2. intros [x Hx]. destruct i as [|[|i]]; [done|done|done].
Qed.

Lemma disabled_step e w : enabled e w = false -> device e = false -> step far e w = Ok (tt, w).
Proof using All.
  intros He Hd. destruct e; [|done|done]. unfold step, exec, mbind, M_bind, gets. by rewrite He; unfold ret; rewrite He.
Qed.

Lemma any_step a b ra rb w e : a <> b -> far a = b -> far b = a -> Inv a b ra rb w ->
  exists w' ra' rb', step far e w = Ok (tt, w') /\ Inv a b ra' rb' w' /\ (ra <= ra')%nat /\ (rb <= rb')%nat.
Proof using All.
  intros Hab Ha Hb HI. destruct (device e) eqn:He.
  - destruct (device_step far a b ra rb w e HI He) as (w' & E & _ & HI'). by exists w', ra, rb.
  - assert (Hoff : enabled e w = false -> exists w' ra' rb', step far e w = Ok (tt, w') /\ Inv a b ra' rb' w' /\ (ra <= ra')%nat /\ (rb <= rb')%nat).
    { intros H. exists w, ra, rb. split; [by apply disabled_step|done]. }
    destruct e as [d i| |]; [|done|done].
    destruct (decide (i = 0%nat)) as [-> |Hi].
    + pose proof HI as (Hw & n & no & Hn & Hno & _). destruct (decide (d = a)) as [-> |Hda].
      { destruct (thread_step a b ra rb w n Hab Ha HI Hn) as (w' & r' & E & HI' & Hle & _). by exists w', r', rb. }
      destruct (decide (d = b)) as [-> |Hdb].
      { destruct (thread_step b a rb ra w no (not_eq_sym Hab) Hb (Inv_sym _ _ _ _ _ HI) Hno) as (w' & r' & E & HI' & Hle & _).
        exists w', ra, r'. split; [done|]. split; [by apply Inv_sym|done]. }
      apply Hoff. cbn. destruct (nodes w !! d) eqn:Hd; [|done].
      assert (Hin : d ∈ dom (nodes w)) by (apply elem_of_dom; by eexists). rewrite (proj1 Hw) in Hin. set_solver.
    + apply Hoff. destruct (decide (d = a)) as [-> |Hda]; [by eapply no_thread|].
      destruct (decide (d = b)) as [-> |Hdb]; [eapply no_thread; [by apply Inv_sym|done]|].
      cbn. destruct (nodes w !! d) eqn:Hd; [|done].
      pose proof HI as (Hw & _). assert (Hin : d ∈ dom (nodes w)) by (apply elem_of_dom; by eexists). rewrite (proj1 Hw) in Hin. set_solver.
Qed.

Lemma any_steps a b es : a <> b -> far a = b -> far b = a -> forall ra rb w, Inv a b ra rb w ->
  exists w' ra' rb', steps far es w = Ok (tt, w') /\ Inv a b ra' rb' w' /\ (ra <= ra')%nat /\ (rb <= rb')%nat.
Proof using All.
  intros Hab Ha Hb. induction es as [|e es IH]; intros ra rb w HI; [by exists w, ra, rb|].
  destruct (any_step a b ra rb w e Hab Ha Hb HI) as (w1 & ra1 & rb1 & E1 & HI1 & A1 & B1).
  destruct (IH ra1 rb1 w1 HI1) as (w2 & ra2 & rb2 & E2 & HI2 & A2 & B2).
  exists w2, ra2, rb2. split; [|split; [done|lia]]. cbn [steps]. unfold mbind, M_bind. by rewrite E1.
Qed.


(** *** Nobody waits for ever *)

Definition leads (d o : Z) (r ro : nat) (w : World) : Prop :=
  exists es w' r', steps far es w = Ok (tt, w') /\ Inv d o r' ro w' /\ (r < r')%nat.

Lemma leads_now d o r ro w n : d <> o -> far d = o -> Inv d o r ro w -> nodes w !! d = Some n -> ready n r -> leads d o r ro w.
Proof using All.
  intros Hdo Hfar HI Hn Hr. destruct (thread_step d o r ro w n Hdo Hfar HI Hn) as (w' & r' & E & HI' & _ & Hlt).
  exists [EClient d 0], w', r'. split; [cbn [steps]; unfold mbind, M_bind; by rewrite E|]. split; [done|by apply Hlt].
Qed.

Lemma steps_app es es' w w' w2 : steps far es w = Ok (tt, w') -> steps far es' w' = Ok (tt, w2) -> steps far (es ++ es') w = Ok (tt, w2).
Proof using All.
  revert w. induction es as [|e es IH]; intros w H1 H2; [by injection H1 as ->|].
  cbn [steps app] in *. unfold mbind, M_bind in *. destruct (step far e w) as [[[] w1]|]; [|done]. by apply IH.
Qed.

Lemma leads_later d o r ro w w1 es : steps far es w = Ok (tt, w1) -> leads d o r ro w1 -> leads d o r ro w.
Proof using All. intros E (es' & w' & r' & E' & H). exists (es ++ es'), w', r'. split; [by eapply steps_app|done]. Qed.

Lemma device_steps d o r ro es : forall w w', Inv d o r ro w -> forallb device es = true -> run garbage es w = Ok (tt, w') ->
  steps far es w = Ok (tt, w') /\ Inv d o r ro w'.
Proof using All.
  induction es as [|e es IH]; intros w w' HI He E; [by injection E as <-|].
  cbn [forallb] in He. apply andb_true_iff in He as [He Hes].
  destruct (device_step far d o r ro w e HI He) as (w1 & E1 & E2 & HI1).
  cbn [run] in E. unfold mbind, M_bind in E. rewrite E2 in E.
  destruct (IH w1 w' HI1 Hes E) as [E3 HI']. split; [|done].
  cbn [steps]. unfold mbind, M_bind. by rewrite E1.
Qed.

(** Waiting for the interrupt of its packet. *)
Lemma leads_sent d o r ro w : d <> o -> far d = o -> Inv d o r ro w -> (r mod 5 = 3)%nat -> leads d o r ro w.
Proof using All.
  intros Hdo Hfar HI Hr. pose proof HI as (Hw & n & no & Hn & Hno & (j & c & Hc & Hst & Ht & Hp & Hrank) & Hpo).
  assert (Hready : forall n', messageSent n' <> 0 -> ready n' r) by (intros n' Hm; split; [done|]; split_and!; intros ->; done).
  destruct (decide (messageSent n = 0)) as [Hm|Hm]; [|by eapply leads_now; eauto].
  destruct (proj2 Hw d n Hn) as (_ & _ & (sending & Hs) & _).
  assert (Hpc : cpc c = AtSent) by (pose proof (proj2 (rank_inv _ _ _ Hrank)) as E; rewrite Hr in E; by destruct (cpc c)).
  assert (Hsend : sending = true).
  { destruct (holds_lock {[d; o]} 10 d n 0 c sending Hs) as [_ Hph]; [by rewrite Hc|by rewrite Hpc; intros []|].
    rewrite Hpc in Hph. cbn in Hph. destruct sending; [done|lia]. }
  assert (Hin : NetworkSendDone ∈ pending n) by (rewrite (sn_pending _ _ _ _ _ Hs), Hsend; right; left).
  apply list_elem_of_lookup in Hin as [i Hi].
  destruct (device_step far d o r ro w (EInterrupt d i) HI eq_refl) as (w1 & E1 & E2 & HI1).
  set (n1 := set_messageSent (messageSent n + 1) (count_sent (set_network (set_busy false (network n)) (set_pending (delete i (pending n)) n)))).
  assert (Ew : w1 = with_node d n1 w).
  { unfold exec, mbind, M_bind, gets in E2. cbn [enabled] in E2. rewrite bool_decide_eq_true_2 in E2 by (by eexists).
    cbn [negb] in E2. unfold take_interrupt, mbind, M_bind in E2. rewrite (get_node_Ok d n), Hi in E2 by done.
    rewrite (upd_node_Ok d _ n) in E2 by done. unfold SendDone, PacketSent, mbind, M_bind in E2.
    rewrite !(upd_node_Ok d _ _ (with_node _ _ _) (nodes_with _ _ _)), !with_with in E2. by injection E2 as <-. }
  apply (leads_later d o r ro w w1 [EInterrupt d i]); [cbn [steps]; unfold mbind, M_bind; by rewrite E1|].
  apply (leads_now d o r ro w1 n1); [done|done|done|rewrite Ew; apply nodes_with|]. apply Hready. cbn. lia.
Qed.

(** Waiting for a letter that is out. *)
Lemma sent_rank j p r k : (r = 5 * j + pc_rank p)%nat -> (j <= 4)%nat -> (sends_at j = false -> p = Ready) ->
  (10 * k + 3 <= r)%nat -> (k <= 1)%nat -> (k < sent j p)%nat.
Proof.
  intros -> Hj Hs Hr Hk. assert (pc_rank p <= 4)%nat by (destruct p; cbn; lia).
  destruct k as [|[|]]; [| |lia]; destruct j as [|[|[|[|[|]]]]]; unfold sent; cbn in *; try lia;
    destruct p; cbn in *; try lia; specialize (Hs eq_refl); discriminate.
Qed.

Lemma leads_letter d o r ro w b : d <> o -> far d = o -> Inv d o r ro w -> (b = 0 \/ b = 1) ->
  r = (5 * S (2 * Z.to_nat b))%nat -> (10 * Z.to_nat b + 3 <= ro)%nat -> leads d o r ro w.
Proof using All.
  intros Hdo Hfar HI Hb Hr Hro. pose proof HI as (Hw & n & no & Hn & Hno & _ & _).
  destruct (settle garbage True {[d; o]} 10 d w n Hw Hn) as (es & w1 & n1 & Hes & E & Hn1 & Ec & Hbox).
  destruct (device_steps d o r ro es w w1 HI Hes E) as [E1 HI1].
  apply (leads_later d o r ro w w1 es E1). apply (leads_now d o r ro w1 n1 Hdo Hfar HI1 Hn1).
  pose proof HI1 as (Hw1 & n2 & no1 & Hn2 & Hno1 & (j & c & Hc & Hst & Ht & _ & Hrank) & (jo & co & Hco & Hsto & _ & Hpo & Hranko)).
  rewrite Hn1 in Hn2. injection Hn2 as <-.
  assert (Hj : j = S (2 * Z.to_nat b)).
  { pose proof (proj1 (rank_inv _ _ _ Hrank)) as A. rewrite Hr in A. rewrite Nat.mul_comm, Nat.div_mul in A by lia. done. }
  assert (Hne : boxes n1 !! Z.to_nat b <> Some []).
  { intros Hx. specialize (Hbox b ltac:(lia)). destruct (proj2 Hw1 d n1 Hn1) as (_ & _ & _ & Hh).
    rewrite <-Ec, (hi_all _ _ Hh I), Hpo in Hbox.
    rewrite (for_box_letters d o b _ Hb (prefix_take _ _)) in Hbox.
    unfold mailbox in Hbox. rewrite Hx, Ht, (proj1 (proj2 Hst)), Hj in Hbox.
    assert (Hlen : (Z.to_nat b < sent jo (cpc co))%nat).
    { apply (sent_rank jo (cpc co) ro); [done|apply Hsto|apply Hsto|done|destruct Hb as [-> | ->]; cbn; lia]. }
    assert (Hlt : (Z.to_nat b <? length (take (sent jo (cpc co)) (letters o d)))%nat = true).
    { apply Nat.ltb_lt. rewrite length_take. cbn [letters length]. destruct Hb as [-> | ->]; cbn in *; lia. }
    rewrite Hlt in Hbox. revert Hbox. by destruct Hb as [-> | ->]. }
  subst r. split; [|split; [|split]].
  - intros Hm. by destruct Hb as [-> | ->].
  - intros E5. destruct Hb as [-> | ->]; [exact Hne|done].
  - intros E5. destruct Hb as [-> | ->]; [done|exact Hne].
  - destruct Hb as [-> | ->]; done.
Qed.

Lemma rank_bound d o r ro w : Inv d o r ro w -> (r <= 20)%nat.
Proof using All.
  intros (_ & n & no & _ & _ & (j & c & _ & (Hj & _ & _ & Hs) & _ & _ & Hr) & _).
  destruct j as [|[|[|[|[|]]]]]; try lia; try (specialize (Hs eq_refl); rewrite Hs in Hr); cbn in Hr; try lia; destruct (cpc c); cbn in Hr; lia.
Qed.

(** A thread that is not in a Receive. *)
Lemma leads_alone d o r ro w : d <> o -> far d = o -> Inv d o r ro w ->
  r <> 5%nat -> r <> 15%nat -> r <> 20%nat -> leads d o r ro w.
Proof using All.
  intros Hdo Hfar HI H1 H2 H3. destruct (decide (r mod 5 = 3)%nat) as [Hm|Hm]; [by apply leads_sent|].
  pose proof HI as (_ & n & no & Hn & _). apply (leads_now d o r ro w n Hdo Hfar HI Hn). by split.
Qed.

(** Until both are done, one of them gets on. *)
Lemma progress a b ra rb w : a <> b -> far a = b -> far b = a -> Inv a b ra rb w ->
  (ra = 20%nat /\ rb = 20%nat) \/ leads a b ra rb w \/ leads b a rb ra w.
Proof using All.
  intros Hab Ha Hb HI. pose proof (Inv_sym _ _ _ _ _ HI) as HI'. pose proof (not_eq_sym Hab) as Hba.
  assert (Hcase : forall d o r ro, d <> o -> far d = o -> Inv d o r ro w -> (r = 5 \/ r = 15 \/ r = 20)%nat \/ leads d o r ro w).
  { intros d o r ro Hdo Hfar HId. destruct (decide (r = 5)%nat); [tauto|]. destruct (decide (r = 15)%nat); [tauto|].
    destruct (decide (r = 20)%nat); [tauto|]. right. by apply leads_alone. }
  destruct (Hcase a b ra rb Hab Ha HI) as [Hra|Hl]; [|tauto]. destruct (Hcase b a rb ra Hba Hb HI') as [Hrb|Hl]; [|tauto].
  destruct Hra as [Era|[Era|Era]].
  - right. left. apply (leads_letter a b ra rb w 0); auto; cbn; lia.
  - destruct Hrb as [Erb|Erb]; [right; right; apply (leads_letter b a rb ra w 0)|right; left; apply (leads_letter a b ra rb w 1)]; auto; cbn; lia.
  - destruct Hrb as [Erb|[Erb|Erb]]; [right; right; apply (leads_letter b a rb ra w 0)|right; right; apply (leads_letter b a rb ra w 1)|by left]; auto; cbn; lia.
Qed.

Lemma completes a b ra rb w : a <> b -> far a = b -> far b = a -> Inv a b ra rb w ->
  exists es w', steps far es w = Ok (tt, w') /\ Inv a b 20 20 w'.
Proof using All.
  intros Hab Ha Hb. remember (40 - (ra + rb))%nat as k eqn:Ek. revert ra rb w Ek.
  induction k as [k IH] using lt_wf_ind. intros ra rb w Ek HI.
  pose proof (rank_bound _ _ _ _ _ HI). pose proof (rank_bound _ _ _ _ _ (Inv_sym _ _ _ _ _ HI)).
  destruct (progress a b ra rb w Hab Ha Hb HI) as [[-> ->]|[Hl|Hl]]; [by exists [], w| |].
  - destruct Hl as (es & w1 & r' & E & HI1 & Hlt). pose proof (rank_bound _ _ _ _ _ HI1).
    destruct (IH (40 - (r' + rb))%nat ltac:(lia) r' rb w1 eq_refl HI1) as (es' & w' & E' & H').
    exists (es ++ es'), w'. split; [by eapply steps_app|done].
  - destruct Hl as (es & w1 & r' & E & HI1 & Hlt). pose proof (rank_bound _ _ _ _ _ HI1).
    destruct (IH (40 - (ra + r'))%nat ltac:(lia) ra r' w1 eq_refl (Inv_sym _ _ _ _ _ HI1)) as (es' & w' & E' & H').
    exists (es ++ es'), w'. split; [by eapply steps_app|done].
Qed.

End Runs.

(** ** The test *)

(** What a machine prints when the other is [o]: Got "Hello there!" from
    o, box 1 and Got "Got it!" from o, box 1. *)
Definition test_output (o : Z) : list (list Z * Z * Z) := [(text data, o, 1); (text ack, o, 1)].

(** The machines [a] and [b] after PostOffice::PostOffice, on a network
    that loses nothing, with a thread that is about to call MailTest. *)
Definition started (a b : Z) (w : World) : Prop :=
  dom (nodes w) = {[a; b]} /\ forall d n, nodes w !! d = Some n ->
    exists reliability junk box buf, n = PostOffice_new d reliability 10 junk box buf [[]] /\
      zlen box = MaxPacketSize /\ zlen buf = MaxPacketSize /\ (1 <= reliability)%Q.

Lemma clamp_reliable r : (1 <= r)%Q -> (1 <= clamp r)%Q.
Proof.
  intros H. unfold clamp. assert (H0 : Qle_bool 0 r = true) by (apply Qle_bool_iff; eapply Qle_trans; [|exact H]; done).
  rewrite H0. cbn [negb]. destruct (Qle_bool r 1); [exact H|apply Qle_refl].
Qed.

Lemma started_Inv a b w : a <> b -> in_s32 a -> in_s32 b -> started a b w -> Inv a b 0 0 w.
Proof.
  intros Hab Ha Hb [Hdom Hall]. split.
  - apply start_good; [done| |].
    + intros _ d n Hn. destruct (Hall d n Hn) as (rel & junk & box & buf & -> & _ & _ & Hr). by apply clamp_reliable.
    + split; [done|]. intros d n Hn. destruct (Hall d n Hn) as (rel & junk & box & buf & -> & H1 & H2 & _).
      assert (Hd : d ∈ ({[a; b]} : gset Z)) by (rewrite <-Hdom; apply elem_of_dom; by eexists).
      split; [apply elem_of_union in Hd as [Hd|Hd]; apply elem_of_singleton in Hd; by subst|].
      exists rel, junk, box, buf, [[]]. split; [done|]. split; [done|]. split; [done|]. repeat constructor.
  - assert (Hex : forall d, d ∈ ({[a; b]} : gset Z) -> exists n, nodes w !! d = Some n /\ clients n = [mkClient Ready [] []] /\ taken n = [] /\ posted n = []).
    { intros d Hd. rewrite <-Hdom in Hd. apply elem_of_dom in Hd as [n Hn]. exists n. split; [done|].
      by destruct (Hall d n Hn) as (rel & junk & box & buf & -> & _). }
    destruct (Hex a ltac:(set_solver)) as (na & Hna & Ca & Ta & Pa). destruct (Hex b ltac:(set_solver)) as (nb & Hnb & Cb & Tb & Pb).
    assert (Hp : forall d o n no, clients n = [mkClient Ready [] []] -> taken n = [] -> posted no = [] -> part d o 0 n no).
    { intros d o n no H1 H2 H3. exists 0%nat, (mkClient Ready [] []). split; [done|]. split; [|done].
      split; [lia|]. split; [done|]. split; [by right|done]. }
    exists na, nb. split; [done|]. split; [done|]. split; by apply Hp.
Qed.

(** The output of the thread of [d], the last lines once it has halted. *)
Definition prints (w : World) (d : Z) (out : list (list Z * Z * Z)) : Prop :=
  exists n c, nodes w !! d = Some n /\ clients n = [c] /\ Got <$> got c = out.
Definition halted (w : World) (o d : Z) : Prop :=
  exists n c, nodes w !! d = Some n /\ clients n = [c] /\ cpc c = Ready /\ calls c = [] /\ MailTest o (got c) = [].

Lemma letters_output d o : Got <$> letters o d = test_output o.
Proof. reflexivity. Qed.

Lemma Inv_prints d o r ro w : Inv d o r ro w -> exists out, prints w d out /\ out `prefix_of` test_output o.
Proof.
  intros (_ & n & no & Hn & _ & (j & c & Hc & (_ & Hg & _) & _) & _). eexists. split; [by exists n, c|].
  rewrite Hg, fmap_take, letters_output. apply prefix_take.
Qed.

Lemma Inv_done d o ro w : Inv d o 20 ro w -> prints w d (test_output o) /\ halted w o d.
Proof.
  intros (_ & n & no & Hn & _ & (j & c & Hc & (Hj & Hg & Hca & Hs) & _ & _ & Hr) & _).
  destruct (rank_inv _ _ _ Hr) as [Ej Ep]. change (20 / 5)%nat with 4%nat in Ej. change (20 mod 5)%nat with 0%nat in Ep.
  subst j. assert (Hpc : cpc c = Ready) by (by destruct (cpc c)).
  split; exists n, c; (split; [done|]); (split; [done|]).
  - by rewrite Hg.
  - split; [done|]. split; [by destruct Hca as [Hca|[Hca _]]|]. by rewrite Hg.
Qed.

End Test.

Definition test_machine (d : Z) : Node :=
  PostOffice_new d 1 10 (mkPH 0 0 0) (new_char 0 MaxPacketSize) (new_char 0 MaxPacketSize) [[]].
Definition test_net : World := mkWorld {[1 := test_machine 1; 2 := test_machine 2]} (fun n => Z.of_nat n * 37) 0.

(** Machine 1 has sent its letter, machine 2 has received it. *)
Definition test_events : list event :=
  [EClient 1 0; EClient 1 0; EClient 1 0; EInterrupt 1 1; EInterrupt 2 0; EWorker 2; EWorker 2; EWorker 2;
   EClient 2 0; EClient 2 0; EClient 2 0; EInterrupt 2 1; EClient 2 0; EClient 2 0; EClient 2 0].

Lemma test_net_started : started 1 2 test_net.
Proof.
  split; [reflexivity|]. intros d n Hn. exists 1%Q, (mkPH 0 0 0), (new_char 0 MaxPacketSize), (new_char 0 MaxPacketSize).
  split; [|split; [reflexivity|split; [reflexivity|apply Qle_refl]]].
  unfold test_net in Hn. cbn [nodes] in Hn. apply lookup_insert_Some in Hn as [[<- <-]|[_ Hn]]; [reflexivity|].
  apply lookup_singleton_Some in Hn as [<- <-]. reflexivity.
Qed.

Lemma in_s32_small z : 0 <= z < 10 -> in_s32 z.
Proof. unfold in_s32. lia. Qed.

