(* ===== verification/Process.v ===== *)
(** * userprog/{pcb,processmanager,useropenfile,sysopenfile}.{h,cc}

    Process control blocks, the table of processes with its condition
    variables for Join and Exit, and the table of open files.

    The operations belong to the thread [t] that runs.  A pointer is the
    address of the object in its heap, [None] is NULL; an object that was
    deleted is in no heap.  Lock::Acquire returns at once when the lock is
    free or held by its caller; when another thread holds it the caller
    waits, and here, where no thread gives the processor away while it
    holds one of these locks, for ever: the result is [Exited]. *)

From stdpp Require Import base list numbers gmap.
From S2P Require Import Prelude Arrays State Bitmap Vm Loader.

(** [SWAP_SIZE*PageSize/UserStackSize]. *)
Definition MAX_PROCESSES : Z := SWAP_SIZE * PageSize / UserStackSize.
Definition MAX_FILES : Z := 30.
Definition SOFILETABLE_SIZE : Z := 100.

Definition ptr : Type := option Z.

Definition with_ptr {A B} (heap : gmap Z A) (p : ptr) (f : A -> res B) : res B :=
  a ← deref p; x ← deref (heap !! a); f x.

(** ** Locks *)

Definition Acquire (t : Z) (holder : option Z) : res (option Z) :=
  match holder with
  | Some u => if u =? t then Ok (Some t) else Err Exited
  | None => Ok (Some t)
  end.

(** A caller that does not hold the lock changes nothing. *)
Definition Release (t : Z) (holder : option Z) : option Z :=
  match holder with
  | Some u => if u =? t then None else Some u
  | None => None
  end.

(** ** Files of a process *)

Record UserOpenFile := mkUOF { uo_name : list Z; uo_offset : Z; indexPosition : Z }.
Definition UserOpenFile_new : UserOpenFile := mkUOF [] 0 0.

(** [files] is only declared: no constructor assigns it. *)
Record PCB := mkPCB {
  pid : Z;
  parentPid : Z;
  pthread : ptr;
  status : Z;
  fileArray : list ptr;
  files : option BitMap
}.

Definition PCB_default : PCB := mkPCB (-1) (-1) None (-1) (replicate (Z.to_nat MAX_FILES) None) None.
Definition PCB_new (currPid currParentPid : Z) (currThread : ptr) (currStatus : Z) : PCB :=
  mkPCB currPid currParentPid currThread currStatus (replicate (Z.to_nat MAX_FILES) None) None.

Definition set_pid v p := mkPCB v (parentPid p) (pthread p) (status p) (fileArray p) (files p).
Definition set_parent v p := mkPCB (pid p) v (pthread p) (status p) (fileArray p) (files p).
Definition set_pthread v p := mkPCB (pid p) (parentPid p) v (status p) (fileArray p) (files p).
Definition set_status v p := mkPCB (pid p) (parentPid p) (pthread p) v (fileArray p) (files p).
Definition set_files a b p := mkPCB (pid p) (parentPid p) (pthread p) (status p) a b.

(** The first file with this position, among those of the process. *)
Definition getFile (heap : gmap Z UserOpenFile) (id : Z) (p : PCB) : res ptr :=
  r ← for_break (Z.to_nat MAX_FILES) 0 (fun i (_ : unit) =>
        f ← aget (fileArray p) i;
        match f with
        | None => Ok (inl tt)
        | Some _ => same ← with_ptr heap f (fun u => Ok (indexPosition u =? id)); Ok (if same : bool then inr f else inl tt)
        end) tt;
  Ok (match r with inl _ => None | inr f => f end).

Definition PCB_Add (file : ptr) (p : PCB) : res (Z * PCB) :=
  bm ← deref (files p);
  r ← Find bm;
  let '(index, bm) := r in
  if -1 <? index then
    a ← aset (fileArray p) index file;
    Ok (index, set_files a (Some bm) p)
  else Ok (index, set_files (fileArray p) (Some bm) p).

(** The slot of the file, if the process has it. *)
Definition PCB_Remove_find (file : ptr) (p : PCB) : res (option Z) :=
  r ← for_break (Z.to_nat MAX_FILES) 0 (fun i (_ : unit) =>
        bm ← deref (files p);
        b ← Test i bm;
        f ← aget (fileArray p) i;
        Ok (if b && bool_decide (f = file) then inr i else inl tt)) tt;
  Ok (match r with inl _ => None | inr i => Some i end).

(** ** Processes *)

Record ProcessManager := mkPM {
  processes : BitMap;
  pcbs : list ptr;
  conditions : list ptr;
  locks : list ptr;
  joinProcessNum : list Z;
  pmLock : option Z;
  pcb_heap : gmap Z PCB;
  cond_heap : gmap Z (list Z);         (* the queue *)
  lock_heap : gmap Z (option Z);       (* the holder *)
  next_obj : Z                         (* addresses from here on are free *)
}.

Definition set_processes v m := mkPM v (pcbs m) (conditions m) (locks m) (joinProcessNum m) (pmLock m) (pcb_heap m) (cond_heap m) (lock_heap m) (next_obj m).
Definition set_pcbs v m := mkPM (processes m) v (conditions m) (locks m) (joinProcessNum m) (pmLock m) (pcb_heap m) (cond_heap m) (lock_heap m) (next_obj m).
Definition set_conditions v m := mkPM (processes m) (pcbs m) v (locks m) (joinProcessNum m) (pmLock m) (pcb_heap m) (cond_heap m) (lock_heap m) (next_obj m).
Definition set_locks v m := mkPM (processes m) (pcbs m) (conditions m) v (joinProcessNum m) (pmLock m) (pcb_heap m) (cond_heap m) (lock_heap m) (next_obj m).
Definition set_joins v m := mkPM (processes m) (pcbs m) (conditions m) (locks m) v (pmLock m) (pcb_heap m) (cond_heap m) (lock_heap m) (next_obj m).
Definition set_pmLock v m := mkPM (processes m) (pcbs m) (conditions m) (locks m) (joinProcessNum m) v (pcb_heap m) (cond_heap m) (lock_heap m) (next_obj m).
Definition set_pcb_heap v m := mkPM (processes m) (pcbs m) (conditions m) (locks m) (joinProcessNum m) (pmLock m) v (cond_heap m) (lock_heap m) (next_obj m).
Definition set_cond_heap v m := mkPM (processes m) (pcbs m) (conditions m) (locks m) (joinProcessNum m) (pmLock m) (pcb_heap m) v (lock_heap m) (next_obj m).
Definition set_lock_heap v m := mkPM (processes m) (pcbs m) (conditions m) (locks m) (joinProcessNum m) (pmLock m) (pcb_heap m) (cond_heap m) v (next_obj m).
Definition set_next_obj v m := mkPM (processes m) (pcbs m) (conditions m) (locks m) (joinProcessNum m) (pmLock m) (pcb_heap m) (cond_heap m) (lock_heap m) v.

(** [storage], [p0], [c0], [l0] and [j0]: what the constructor finds in the
    bitmap's words and in the arrays. *)
Definition ProcessManager_new (storage : list Z) (p0 c0 l0 : list ptr) (j0 : list Z) : res ProcessManager :=
  bm ← BitMap_new MAX_PROCESSES storage;
  Ok (mkPM bm p0 c0 l0 j0 None ∅ ∅ ∅ 1).

Notation PMM := (M ProcessManager).

Section Thread.
Context (t : Z).

Definition pm_acquire : PMM unit :=
  h ← gets pmLock; h ← lift (Acquire t h); modify (set_pmLock h).
Definition pm_release : PMM unit := modify (fun m => set_pmLock (Release t (pmLock m)) m).

Definition lock_acquire (l : ptr) : PMM unit :=
  a ← lift (deref l);
  hp ← gets lock_heap;
  h ← lift (deref (hp !! a)); h ← lift (Acquire t h);
  modify (fun m => set_lock_heap (<[a := h]> (lock_heap m)) m).
Definition lock_release (l : ptr) : PMM unit :=
  a ← lift (deref l);
  hp ← gets lock_heap;
  h ← lift (deref (hp !! a));
  modify (fun m => set_lock_heap (<[a := Release t h]> (lock_heap m)) m).

(** A fresh address for [new]. *)
Definition new_obj : PMM Z :=
  a ← gets next_obj; _ ← modify (set_next_obj (a + 1)); ret a.

Definition get_pcb (p : ptr) : PMM PCB := h ← gets pcb_heap; lift (with_ptr h p Ok).
Definition upd_pcb (p : ptr) (f : PCB -> PCB) : PMM unit :=
  x ← get_pcb p; a ← lift (deref p);
  modify (fun m => set_pcb_heap (<[a := f x]> (pcb_heap m)) m).
Definition new_pcb (x : PCB) : PMM ptr :=
  a ← new_obj; _ ← modify (fun m => set_pcb_heap (<[a := x]> (pcb_heap m)) m); ret (Some a).

(** [a[pid]] and [a[pid] = x] for the arrays of the manager. *)
Definition at_ {A} (f : ProcessManager -> list A) (pid : Z) : PMM A := l ← gets f; lift (aget l pid).
Definition put {A} (f : ProcessManager -> list A) (g : list A -> ProcessManager -> ProcessManager) (pid : Z) (x : A) : PMM unit :=
  l ← gets f; l ← lift (aset l pid x); modify (g l).

Definition test (pid : Z) : PMM bool := bm ← gets processes; lift (Test pid bm).

Definition insertProcess (pcb : ptr) (pid : Z) : PMM unit :=
  _ ← pm_acquire;
  match pcb with
  | None => ret tt
  | Some _ =>
      _ ← put pcbs set_pcbs pid pcb;
      c ← new_obj;
      _ ← modify (fun m => set_cond_heap (<[c := []]> (cond_heap m)) m);
      _ ← put conditions set_conditions pid (Some c);
      l ← new_obj;
      _ ← modify (fun m => set_lock_heap (<[l := None]> (lock_heap m)) m);
      _ ← put locks set_locks pid (Some l);
      _ ← put joinProcessNum set_joins pid 0;
      pm_release
  end.

Definition getPID : PMM Z :=
  bm ← gets processes;
  r ← lift (Find bm);
  _ ← modify (set_processes (snd r));
  ret (fst r).

(** [pid > MAX_PROCESSES] and [!processes->Test(pid)] end most operations
    early, after releasing the lock. *)
Definition known (pid : Z) : PMM bool :=
  if MAX_PROCESSES <? pid then ret false else test pid.

Definition clearPID (pid : Z) : PMM unit :=
  _ ← pm_acquire;
  k ← known pid;
  if negb k then pm_release
  else
    l ← at_ locks pid;
    _ ← lock_acquire l;
    _ ← put pcbs set_pcbs pid None;
    c ← at_ conditions pid;
    _ ← modify (fun m => match c with Some a => set_cond_heap (delete a (cond_heap m)) m | None => m end);
    _ ← put conditions set_conditions pid None;
    l ← at_ locks pid;
    _ ← lock_release l;
    l ← at_ locks pid;
    _ ← modify (fun m => match l with Some a => set_lock_heap (delete a (lock_heap m)) m | None => m end);
    _ ← put locks set_locks pid None;
    bm ← gets processes;
    bm ← lift (Clear pid bm);
    _ ← modify (set_processes bm);
    pm_release.

(** One round of the loop of [join]: true when it returns, false when the
    thread goes on to [conditions[pid]->Wait(locks[pid])]. *)
Definition join_round (pid : Z) : PMM bool :=
  _ ← pm_acquire;
  p ← at_ pcbs pid;
  x ← get_pcb p;
  if 1 <? status x then
    l ← at_ locks pid;
    _ ← lock_release l;
    _ ← pm_release;
    ret true
  else
    _ ← pm_release;
    ret false.

Definition join (pid : Z) : PMM bool :=
  _ ← pm_acquire;
  k ← known pid;
  if negb k then _ ← pm_release; ret true
  else
    l ← at_ locks pid;
    _ ← lock_acquire l;
    n ← at_ joinProcessNum pid;
    _ ← put joinProcessNum set_joins pid (s32 (n + 1));
    _ ← pm_release;
    join_round pid.

(** Condition::Wait up to Sleep: the lock it was given, which it takes
    again afterwards; [None] when the caller does not hold the lock. *)
Definition wait_begin (pid : Z) : PMM (option ptr) :=
  c ← at_ conditions pid;
  l ← at_ locks pid;
  hp ← gets lock_heap;
  h ← lift (with_ptr hp l Ok);
  if negb (bool_decide (h = Some t)) then ret None
  else
    a ← lift (deref c);
    ch ← gets cond_heap;
    q ← lift (deref (ch !! a));
    _ ← modify (set_cond_heap (<[a := q ++ [t]]> ch));
    _ ← lock_release l;
    ret (Some l).

(** Condition::Broadcast: the threads that become ready, in order. *)
Definition broadcast (c l : ptr) : PMM (list Z) :=
  hp ← gets lock_heap;
  h ← lift (with_ptr hp l Ok);
  if negb (bool_decide (h = Some t)) then ret []
  else
    a ← lift (deref c);
    ch ← gets cond_heap;
    q ← lift (deref (ch !! a));
    _ ← modify (set_cond_heap (<[a := []]> ch));
    ret q.

Definition getJoins (pid : Z) : PMM Z :=
  _ ← pm_acquire;
  k ← known pid;
  if k : bool then _ ← pm_release; at_ joinProcessNum pid
  else _ ← pm_release; ret (-1).

Definition decrementJoins (pid : Z) : PMM unit :=
  _ ← pm_acquire;
  k ← known pid;
  if negb k then pm_release
  else
    _ ← test pid;
    n ← at_ joinProcessNum pid;
    _ ← (if 0 <? n then put joinProcessNum set_joins pid (n - 1) else ret tt);
    pm_release.

Definition getStatus (pid : Z) : PMM Z :=
  _ ← pm_acquire;
  k ← known pid;
  if negb k then _ ← pm_release; ret (-1)
  else
    _ ← pm_release;
    p ← at_ pcbs pid;
    x ← get_pcb p;
    ret (status x).

Definition Broadcast (pid : Z) : PMM (list Z) :=
  _ ← pm_acquire;
  k ← known pid;
  if negb k then _ ← pm_release; ret []
  else
    l ← at_ locks pid;
    _ ← lock_acquire l;
    c ← at_ conditions pid;
    l ← at_ locks pid;
    q ← broadcast c l;
    l ← at_ locks pid;
    _ ← lock_release l;
    _ ← pm_release;
    ret q.
End Thread.

(** ** Open files of the system *)

(** [so_file] is the UNIX file behind the OpenFile, by name. *)
Record SysOpenFile := mkSOF {
  so_file : option (list Z);
  so_name : option (list Z);
  fileID : Z;
  numUsersAccess : Z;
  so_lock : option Z
}.

Definition SysOpenFile_default : SysOpenFile := mkSOF None None 0 0 None.
Definition SysOpenFile_new (name : list Z) (f : option (list Z)) (id : Z) : SysOpenFile := mkSOF f (Some name) id 1 None.

Record SysOpenFileManager := mkOFM {
  openFileTable : list ptr;
  openFiles : BitMap;
  of_lock : option Z;
  so_heap : gmap Z SysOpenFile;
  of_next : Z
}.

Definition set_openFileTable v m := mkOFM v (openFiles m) (of_lock m) (so_heap m) (of_next m).
Definition set_openFiles v m := mkOFM (openFileTable m) v (of_lock m) (so_heap m) (of_next m).
Definition set_of_lock v m := mkOFM (openFileTable m) (openFiles m) v (so_heap m) (of_next m).
Definition set_so_heap v m := mkOFM (openFileTable m) (openFiles m) (of_lock m) v (of_next m).

Definition SysOpenFileManager_new (storage : list Z) (table : list ptr) : res SysOpenFileManager :=
  bm ← BitMap_new SOFILETABLE_SIZE storage;
  Ok (mkOFM table bm None ∅ 1).

Notation OFMM := (M SysOpenFileManager).

Section OpenFiles.
Context (t : Z).

Definition of_acquire : OFMM unit :=
  h ← gets of_lock; h ← lift (Acquire t h); modify (set_of_lock h).
Definition of_release : OFMM unit := modify (fun m => set_of_lock (Release t (of_lock m)) m).

Definition get_so (p : ptr) : OFMM SysOpenFile := h ← gets so_heap; lift (with_ptr h p Ok).
Definition upd_so (p : ptr) (f : SysOpenFile -> SysOpenFile) : OFMM unit :=
  x ← get_so p; a ← lift (deref p);
  modify (fun m => set_so_heap (<[a := f x]> (so_heap m)) m).
Definition new_so (x : SysOpenFile) : OFMM ptr :=
  a ← gets of_next;
  _ ← modify (fun m => mkOFM (openFileTable m) (openFiles m) (of_lock m) (<[a := x]> (so_heap m)) (a + 1));
  ret (Some a).

Definition set_fileID (v : Z) (x : SysOpenFile) : SysOpenFile := mkSOF (so_file x) (so_name x) v (numUsersAccess x) (so_lock x).
Definition set_users (v : Z) (x : SysOpenFile) : SysOpenFile := mkSOF (so_file x) (so_name x) (fileID x) v (so_lock x).

(** [lock->Acquire()] and [lock->Release()]. *)
Definition set_so_lock (v : option Z) (x : SysOpenFile) : SysOpenFile := mkSOF (so_file x) (so_name x) (fileID x) (numUsersAccess x) v.
Definition so_acquire (p : ptr) : OFMM unit :=
  x ← get_so p; h ← lift (Acquire t (so_lock x)); upd_so p (set_so_lock h).
Definition so_release (p : ptr) : OFMM unit :=
  upd_so p (fun x => set_so_lock (Release t (so_lock x)) x).

(** [Add] puts a new, empty object into the table, not its argument. *)
Definition OF_Add (newSysOpenFile : ptr) : OFMM Z :=
  _ ← of_acquire;
  bm ← gets openFiles;
  r ← lift (Find bm);
  let '(index, bm) := r in
  _ ← modify (set_openFiles bm);
  if index <? 0 then _ ← of_release; ret (-1)
  else
    o ← new_so SysOpenFile_default;
    l ← gets openFileTable;
    l ← lift (aset l index o);
    _ ← modify (set_openFileTable l);
    _ ← upd_so newSysOpenFile (set_fileID (index + 2));
    _ ← of_release;
    ret index.

(** [strcmp(openFileTable[i]->fileName, fileName) == 0], up to the first
    slot that is not in use. *)
Definition OF_Get_name (fileName : list Z) : OFMM (option (ptr * Z)) :=
  _ ← of_acquire;
  m ← gets id;
  r ← lift (for_break (Z.to_nat SOFILETABLE_SIZE) 0 (fun i (_ : unit) =>
        b ← Test i (openFiles m);
        if negb b then Ok (inr None)
        else
          p ← aget (openFileTable m) i;
          same ← with_ptr (so_heap m) p (fun x => name ← deref (so_name x); Ok (bool_decide (name = fileName)));
          Ok (if same : bool then inr (Some (p, i)) else inl tt)) tt);
  _ ← of_release;
  ret (match r with inr (Some pi) => Some pi | _ => None end).

Definition OF_Get (index : Z) : OFMM ptr :=
  _ ← of_acquire;
  if SOFILETABLE_SIZE <=? index then _ ← of_release; ret None
  else
    bm ← gets openFiles;
    b ← lift (Test index bm);
    if (b : bool) then _ ← of_release; ret None
    else
      _ ← of_release;
      l ← gets openFileTable;
      lift (aget l index).

Definition OF_Close (index : Z) : OFMM unit :=
  _ ← of_acquire;
  if SOFILETABLE_SIZE <=? index then of_release
  else
    bm ← gets openFiles;
    b ← lift (Test index bm);
    _ ← (if (b : bool) then
           l ← gets openFileTable;
           p ← lift (aget l index);
           x ← get_so p;
           _ ← upd_so p (set_users (s32 (numUsersAccess x - 1)));
           x ← get_so p;
           if numUsersAccess x =? 0 then
             _ ← modify (fun m => match p with Some a => set_so_heap (delete a (so_heap m)) m | None => m end);
             l ← lift (aset l index None);
             _ ← modify (set_openFileTable l);
             bm ← lift (Clear index bm);
             modify (set_openFiles bm)
           else ret tt
         else ret tt);
    of_release.
End OpenFiles.
