(* ===== verification/ProcessSafe.v ===== *)
(** * The table of processes, correct

    ProcessManager refines a table that says, for each process id, whether
    it is free, taken, or the process it names: its PCB, how often it was
    joined, who waits for it. *)

From stdpp Require Import base list numbers gmap.
From S2P Require Import Prelude Arrays State Bitmap Vm Loader Process.

(** ** The specification *)

Record Process := mkProcess { p_pcb : Z; p_joins : Z; p_waiting : list Z }.

(** An id that is taken has no process until insertProcess. *)
Record Table := mkTable { t_procs : gmap Z (option Process); t_pcbs : gmap Z PCB }.

Inductive op :=
  | GetPID | Insert (pcb pid : Z) | SetStatus (pcb status : Z) | GetStatus (pid : Z)
  | Join (pid : Z) | GetJoins (pid : Z) | DecrementJoins (pid : Z)
  | Wake (pid : Z) | ClearPID (pid : Z).

(** A join that returns at once, and one that waits; the threads woken. *)
Inductive answer := Done | Num (n : Z) | Joined | Waits | Woken (l : list Z).

Definition free_pid (T : Table) : option Z :=
  head (filter (fun p => t_procs T !! p = None) (seqZ 0 MAX_PROCESSES)).

Definition put_proc (pid : Z) (e : option Process) (T : Table) : Table :=
  mkTable (<[pid := e]> (t_procs T)) (t_pcbs T).

(** [None]: the specification is silent.  An id above MAX_PROCESSES is a
    free one; MAX_PROCESSES itself and the negative ones stop the machine. *)
Definition with_process (pid : Z) (none : answer) (f : Process -> PCB -> answer * Table) (T : Table)
  : option (res (answer * Table)) :=
  if MAX_PROCESSES <? pid then Some (Ok (none, T))
  else if (pid <? 0) || (pid =? MAX_PROCESSES) then Some (Err AssertFailed)
  else match t_procs T !! pid with
       | None => Some (Ok (none, T))
       | Some None => None
       | Some (Some P) => x ← t_pcbs T !! p_pcb P; Some (Ok (f P x))
       end.

Definition spec (t : Z) (o : op) (T : Table) : option (res (answer * Table)) :=
  match o with
  | GetPID =>
      match free_pid T with
      | Some p => Some (Ok (Num p, put_proc p None T))
      | None => Some (Ok (Num (-1), T))
      end
  | Insert a pid =>
      if bool_decide (is_Some (t_procs T !! pid) /\ is_Some (t_pcbs T !! a))
      then Some (Ok (Done, put_proc pid (Some (mkProcess a 0 [])) T)) else None
  | SetStatus a v =>
      x ← t_pcbs T !! a; Some (Ok (Done, mkTable (t_procs T) (<[a := set_status v x]> (t_pcbs T))))
  | GetStatus pid => with_process pid (Num (-1)) (fun P x => (Num (status x), T)) T
  | Join pid =>
      with_process pid Joined (fun P x =>
        let joins := s32 (p_joins P + 1) in
        if 1 <? status x then (Joined, put_proc pid (Some (mkProcess (p_pcb P) joins (p_waiting P))) T)
        else (Waits, put_proc pid (Some (mkProcess (p_pcb P) joins (p_waiting P ++ [t]))) T)) T
  | GetJoins pid => with_process pid (Num (-1)) (fun P x => (Num (p_joins P), T)) T
  | DecrementJoins pid =>
      with_process pid Done (fun P x =>
        (Done, put_proc pid (Some (mkProcess (p_pcb P) (if 0 <? p_joins P then p_joins P - 1 else p_joins P) (p_waiting P))) T)) T
  | Wake pid =>
      with_process pid (Woken []) (fun P x =>
        (Woken (p_waiting P), put_proc pid (Some (mkProcess (p_pcb P) (p_joins P) [])) T)) T
  | ClearPID pid =>
      with_process pid Done (fun P x => (Done, mkTable (delete pid (t_procs T)) (t_pcbs T))) T
  end.

(** Threads and what they ask for, in order. *)
Fixpoint spec_run (ops : list (Z * op)) (T : Table) : option (res (list answer * Table)) :=
  match ops with
  | [] => Some (Ok ([], T))
  | (t, o) :: ops =>
      match spec t o T with
      | Some (Ok (a, T)) =>
          match spec_run ops T with
          | Some (Ok (l, T)) => Some (Ok (a :: l, T))
          | r => r
          end
      | Some (Err e) => Some (Err e)
      | None => None
      end
  end.

(** ** The same on the process manager *)

Definition pm_step (t : Z) (o : op) : PMM answer :=
  match o with
  | GetPID => p ← getPID; ret (Num p)
  | Insert a pid => _ ← insertProcess t (Some a) pid; ret Done
  | SetStatus a v => _ ← upd_pcb (Some a) (set_status v); ret Done
  | GetStatus pid => s ← getStatus t pid; ret (Num s)
  | Join pid =>
      over ← join t pid;
      if over : bool then ret Joined
      else
        l ← wait_begin t pid;
        match l with Some _ => ret Waits | None => fail Exited end
  | GetJoins pid => n ← getJoins t pid; ret (Num n)
  | DecrementJoins pid => _ ← decrementJoins t pid; ret Done
  | Wake pid => l ← Broadcast t pid; ret (Woken l)
  | ClearPID pid => _ ← clearPID t pid; ret Done
  end.

Fixpoint pm_run (ops : list (Z * op)) : PMM (list answer) :=
  match ops with
  | [] => ret []
  | (t, o) :: ops => a ← pm_step t o; l ← pm_run ops; ret (a :: l)
  end.

(** ** The abstraction *)

(** The arrays at [pid]. *)
Definition row (m : ProcessManager) (pid : Z) : res ptr * res ptr * res ptr * res Z :=
  (aget (pcbs m) pid, aget (conditions m) pid, aget (locks m) pid, aget (joinProcessNum m) pid).

Definition owns (m : ProcessManager) (pid c l : Z) (P : Process) : Prop :=
  row m pid = (Ok (Some (p_pcb P)), Ok (Some c), Ok (Some l), Ok (p_joins P)) /\
  cond_heap m !! c = Some (p_waiting P) /\ lock_heap m !! l = Some None /\
  c < next_obj m /\ l < next_obj m.

Record shaped (m : ProcessManager) : Prop := {
  sh_bits : Bitmap.wf (processes m);
  sh_num : numBits (processes m) = MAX_PROCESSES;
  sh_pcbs : zlen (pcbs m) = MAX_PROCESSES;
  sh_conditions : zlen (conditions m) = MAX_PROCESSES;
  sh_locks : zlen (locks m) = MAX_PROCESSES;
  sh_joins : zlen (joinProcessNum m) = MAX_PROCESSES
}.

(** [ca] and [la]: the condition and the lock of each process. *)
Record holds_at (ca la : Z -> Z) (m : ProcessManager) (T : Table) : Prop := {
  h_shaped : shaped m;
  h_free : pmLock m = None;
  h_heap : pcb_heap m = t_pcbs T;
  h_bit p : 0 <= p < MAX_PROCESSES -> bitat (processes m) p = bool_decide (is_Some (t_procs T !! p));
  h_dom p : is_Some (t_procs T !! p) -> 0 <= p < MAX_PROCESSES;
  h_owns p P : t_procs T !! p = Some (Some P) -> owns m p (ca p) (la p) P;
  h_distinct p q P Q : t_procs T !! p = Some (Some P) -> t_procs T !! q = Some (Some Q) ->
    ca p = ca q \/ la p = la q -> p = q;
  h_next a : is_Some (t_pcbs T !! a) -> a < next_obj m
}.

Definition holds (m : ProcessManager) (T : Table) : Prop := exists ca la, holds_at ca la m T.

(** ** The primitives *)

Section Steps.
Context (t : Z).

Lemma Acquire_free : Acquire t None = Ok (Some t). Proof. done. Qed.
Lemma Release_mine : Release t (Some t) = None.
Proof. cbn. by rewrite Z.eqb_refl. Qed.

Lemma run_pm_acquire m (Q : unit -> ProcessManager -> Prop) : pmLock m = None ->
  Q tt (set_pmLock (Some t) m) -> run_to (pm_acquire t) m Q.
Proof. intros E H. unfold pm_acquire. step. rewrite E. step; [done|]. step. exact H. Qed.

Lemma run_pm_release m (Q : unit -> ProcessManager -> Prop) : pmLock m = Some t ->
  Q tt (set_pmLock None m) -> run_to (pm_release t) m Q.
Proof. intros E H. unfold pm_release. step. by rewrite E, Release_mine. Qed.

Lemma run_lock_acquire m l (Q : unit -> ProcessManager -> Prop) : lock_heap m !! l = Some None ->
  Q tt (set_lock_heap (<[l := Some t]> (lock_heap m)) m) -> run_to (lock_acquire t (Some l)) m Q.
Proof.
  intros E H. unfold lock_acquire. step; [done|]. step. step; [by rewrite E|]. step; [done|]. by step.
Qed.

Lemma run_lock_release m l (Q : unit -> ProcessManager -> Prop) : lock_heap m !! l = Some (Some t) ->
  Q tt (set_lock_heap (<[l := None]> (lock_heap m)) m) -> run_to (lock_release t (Some l)) m Q.
Proof.
  intros E H. unfold lock_release. step; [done|]. step. step; [by rewrite E|]. step. by rewrite Release_mine.
Qed.

Lemma run_at {A} (f : ProcessManager -> list A) pid m x (Q : A -> ProcessManager -> Prop) :
  aget (f m) pid = Ok x -> Q x m -> run_to (at_ f pid) m Q.
Proof. intros E H. unfold at_. step. by step. Qed.

Lemma run_put {A} (f : ProcessManager -> list A) g pid x m (Q : unit -> ProcessManager -> Prop) :
  0 <= pid < zlen (f m) -> Q tt (g (<[Z.to_nat pid := x]> (f m)) m) -> run_to (put f g pid x) m Q.
Proof. intros E H. unfold put. step. step; [by apply aset_in_range|]. by step. Qed.

Lemma run_get_pcb a x m (Q : PCB -> ProcessManager -> Prop) :
  pcb_heap m !! a = Some x -> Q x m -> run_to (get_pcb (Some a)) m Q.
Proof. intros E H. unfold get_pcb. step. step; [cbn; by rewrite E|done]. Qed.

Lemma run_broadcast m c l q (Q : list Z -> ProcessManager -> Prop) :
  lock_heap m !! l = Some (Some t) -> cond_heap m !! c = Some q ->
  Q q (set_cond_heap (<[c := []]> (cond_heap m)) m) -> run_to (broadcast t (Some c) (Some l)) m Q.
Proof.
  intros El Ec H. unfold broadcast. step. step; [cbn; by rewrite El|].
  rewrite bool_decide_true by done. cbn [negb]. step; [done|]. step. step; [by rewrite Ec|]. step. by step.
Qed.

Lemma run_wait_begin m pid c l q (Q : option ptr -> ProcessManager -> Prop) :
  aget (conditions m) pid = Ok (Some c) -> aget (locks m) pid = Ok (Some l) ->
  lock_heap m !! l = Some (Some t) -> cond_heap m !! c = Some q ->
  Q (Some (Some l)) (set_lock_heap (<[l := None]> (lock_heap m)) (set_cond_heap (<[c := q ++ [t]]> (cond_heap m)) m)) ->
  run_to (wait_begin t pid) m Q.
Proof.
  intros Hc Hl El Ec H. unfold wait_begin.
  step. eapply run_at; [exact Hc|]. step. eapply run_at; [exact Hl|].
  step. step; [cbn; by rewrite El|]. rewrite bool_decide_true by done. cbn [negb].
  step; [done|]. step. step; [by rewrite Ec|]. step. step.
  eapply run_lock_release; [exact El|]. by step.
Qed.

(** ** The guard that most operations begin with *)

Context {A : Type} (F : bool -> PMM A).

Definition guarded (pid : Z) : PMM A := _ ← pm_acquire t; k ← known pid; F k.

Lemma known_eq m pid : shaped m ->
  known pid m =
    if MAX_PROCESSES <? pid then Ok (false, m)
    else if (pid <? 0) || (pid =? MAX_PROCESSES) then Err AssertFailed
    else Ok (bitat (processes m) pid, m).
Proof.
  intros S. unfold known, test. destruct (Z.ltb_spec MAX_PROCESSES pid); [done|].
  unfold mbind, M_bind, gets, lift. destruct ((pid <? 0) || (pid =? MAX_PROCESSES)) eqn:E.
  - unfold Test, in_range. rewrite (sh_num m S).
    replace ((0 <=? pid) && (pid <? MAX_PROCESSES)) with false by lia. done.
  - rewrite (Test_bit _ _ (sh_bits m S)); [done|]. rewrite (sh_num m S). lia.
Qed.

Lemma guarded_eq m pid : shaped m -> pmLock m = None ->
  guarded pid m =
    if MAX_PROCESSES <? pid then F false (set_pmLock (Some t) m)
    else if (pid <? 0) || (pid =? MAX_PROCESSES) then Err AssertFailed
    else F (bitat (processes m) pid) (set_pmLock (Some t) m).
Proof.
  intros S L. unfold guarded, pm_acquire.
  cbv [mbind M_bind gets lift modify]. rewrite L. cbn [Acquire].
  rewrite known_eq by (destruct S; by split).
  destruct (_ <? pid); [done|]. by destruct (_ || _).
Qed.
End Steps.

(** ** Changing one process *)

Lemma set_pmLock_same m : pmLock m = None -> set_pmLock None (set_pmLock (Some 0) m) = m.
Proof. destruct m; cbn. by intros ->. Qed.

Lemma holds_put ca la m T m' pid P c l :
  holds_at ca la m T -> is_Some (t_procs T !! pid) -> shaped m' -> pmLock m' = None ->
  pcb_heap m' = pcb_heap m -> processes m' = processes m -> next_obj m <= next_obj m' ->
  (forall q, q <> pid -> 0 <= q -> row m' q = row m q) ->
  (forall a, a <> c -> a < next_obj m -> cond_heap m' !! a = cond_heap m !! a) ->
  (forall a, a <> l -> a < next_obj m -> lock_heap m' !! a = lock_heap m !! a) ->
  owns m' pid c l P ->
  (forall q Q, q <> pid -> t_procs T !! q = Some (Some Q) -> ca q <> c /\ la q <> l) ->
  holds m' (put_proc pid (Some P) T).
Proof.
  intros H Hin S L Hh Hp Hn Hrow Hc Hl Hown Hd.
  exists (fun q => if q =? pid then c else ca q), (fun q => if q =? pid then l else la q).
  split; [done|done|by rewrite Hh; apply (h_heap _ _ _ _ H)| | | | |]; unfold put_proc; cbn [t_procs t_pcbs].
  5: { intros a Ha. pose proof (h_next _ _ _ _ H a Ha). lia. }
  - intros q Hq. rewrite Hp, (h_bit _ _ _ _ H) by done. apply bool_decide_ext.
    destruct (decide (q = pid)) as [->|]; [rewrite lookup_insert_eq|by rewrite lookup_insert_ne]. split; [eauto|done].
  - intros q Hq. destruct (decide (q = pid)) as [->|]; [by apply (h_dom _ _ _ _ H)|].
    rewrite lookup_insert_ne in Hq by done. by apply (h_dom _ _ _ _ H).
  - intros q Q. destruct (Z.eqb_spec q pid) as [->|Hne].
    { rewrite lookup_insert_eq. intros [= ->]. exact Hown. }
    rewrite lookup_insert_ne by done. intros E.
    destruct (h_owns _ _ _ _ H q Q E) as (Hr & Hcc & Hll & Hcn & Hln).
    destruct (Hd q Q Hne E). pose proof (h_dom _ _ _ _ H q ltac:(eauto)).
    split; [rewrite Hrow by (done || lia); exact Hr|]. rewrite Hc, Hl by done.
    split; [done|]. split; [done|]. lia.
  - intros p q P' Q. destruct (Z.eqb_spec p pid) as [->|Hp']; destruct (Z.eqb_spec q pid) as [->|Hq']; [done| | |].
    + rewrite (lookup_insert_ne _ pid q) by done. intros _ E Heq. destruct (Hd q Q Hq' E). destruct Heq; congruence.
    + rewrite (lookup_insert_ne _ pid p) by done. intros E _ Heq. destruct (Hd p P' Hp' E). destruct Heq; congruence.
    + rewrite !lookup_insert_ne by done. apply (h_distinct _ _ _ _ H).
Qed.

(** ** Each operation *)

Definition refines (X : PMM answer) (m : ProcessManager) (r : option (res (answer * Table))) : Prop :=
  match r with
  | None => True
  | Some (Err e) => X m = Err e
  | Some (Ok (a, T)) => run_to X m (fun b m' => b = a /\ holds m' T)
  end.

Lemma guarded_refines {A} t (F : bool -> PMM A) (K : A -> PMM answer) none f ca la m T pid :
  holds_at ca la m T ->
  run_to (F false ≫= K) (set_pmLock (Some t) m) (fun b m' => b = none /\ m' = m) ->
  (forall P x, 0 <= pid < MAX_PROCESSES -> t_procs T !! pid = Some (Some P) -> t_pcbs T !! p_pcb P = Some x ->
    run_to (F true ≫= K) (set_pmLock (Some t) m) (fun b m' => b = fst (f P x) /\ holds m' (snd (f P x)))) ->
  refines ((_ ← pm_acquire t; k ← known pid; F k) ≫= K) m (with_process pid none f T).
Proof.
  intros H Hfalse Htrue. unfold with_process, refines.
  pose proof (guarded_eq t F m pid (h_shaped _ _ _ _ H) (h_free _ _ _ _ H)) as E. unfold guarded in E.
  assert (Hback : forall k, (pm_acquire t ≫= fun _ => known pid ≫= F) m = F k (set_pmLock (Some t) m) ->
    forall Q, run_to (F k ≫= K) (set_pmLock (Some t) m) Q -> run_to ((pm_acquire t ≫= fun _ => known pid ≫= F) ≫= K) m Q).
  { intros k Ek Q (b & m' & Hr & HQ). exists b, m'. split; [|done].
    unfold mbind at 1, M_bind at 1. rewrite Ek. exact Hr. }
  assert (Hnone : F false (set_pmLock (Some t) m) = (pm_acquire t ≫= fun _ => known pid ≫= F) m ->
    run_to ((pm_acquire t ≫= fun _ => known pid ≫= F) ≫= K) m (fun b m' => b = none /\ holds m' T)).
  { intros Ek. apply (Hback false); [done|]. eapply run_to_mono; [exact Hfalse|].
    intros b m' [-> ->]. split; [done|]. by exists ca, la. }
  destruct (Z.ltb_spec MAX_PROCESSES pid) as [|Hle]; [by apply Hnone|].
  destruct ((pid <? 0) || (pid =? MAX_PROCESSES)) eqn:Ebad.
  { unfold mbind at 1, M_bind at 1. by rewrite E. }
  assert (0 <= pid < MAX_PROCESSES) as Hpid by lia.
  rewrite (h_bit _ _ _ _ H pid Hpid) in E.
  destruct (t_procs T !! pid) as [[P|]|] eqn:Ep; [| |by apply Hnone]; [|done].
  destruct (t_pcbs T !! p_pcb P) as [x|] eqn:Ex; [|done]. cbn.
  specialize (Htrue P x Hpid eq_refl Ex). destruct (f P x) as [a T'].
  by apply (Hback true).
Qed.

(** The steps at the row of a process. *)
Ltac sstep := cbv beta iota; step; cbv beta iota.
Ltac row_step Hown :=
  let Hr := fresh "Hr" in
  destruct Hown as (Hr & ? & ? & ? & ?); unfold row in Hr; injection Hr as ? ? ? ?.

Lemma getStatus_refines t pid ca la m T : holds_at ca la m T ->
  refines (pm_step t (GetStatus pid)) m (spec t (GetStatus pid) T).
Proof.
  intros H. eapply guarded_refines; [exact H| |]; cbn [negb].
  - sstep. eapply run_pm_release; [done|]. sstep. sstep. split; [done|]. destruct m; cbn. by rewrite <-(h_free _ _ _ _ H).
  - intros P x Hpid Ep Ex. row_step (h_owns _ _ _ _ H _ _ Ep).
    sstep. sstep. eapply run_pm_release; [done|]. sstep. eapply run_at; [done|].
    sstep. eapply run_get_pcb; [cbn; rewrite (h_heap _ _ _ _ H); exact Ex|]. sstep. sstep. split; [done|].
    exists ca, la. destruct m; cbn in *. by rewrite <-(h_free _ _ _ _ H).
Qed.

Lemma getJoins_refines t pid ca la m T : holds_at ca la m T ->
  refines (pm_step t (GetJoins pid)) m (spec t (GetJoins pid) T).
Proof.
  intros H. eapply guarded_refines; [exact H| |]; cbv beta iota.
  - sstep. eapply run_pm_release; [done|]. sstep. sstep. split; [done|]. destruct m; cbn. by rewrite <-(h_free _ _ _ _ H).
  - intros P x Hpid Ep Ex. row_step (h_owns _ _ _ _ H _ _ Ep).
    sstep. eapply run_pm_release; [done|]. eapply run_at; [done|]. sstep. split; [done|].
    exists ca, la. destruct m; cbn in *. by rewrite <-(h_free _ _ _ _ H).
Qed.

(** An operation that changes the joins, the queue, and leaves the lock. *)
Lemma holds_touch ca la m T pid P j w js ch lh :
  holds_at ca la m T -> t_procs T !! pid = Some (Some P) ->
  zlen js = MAX_PROCESSES -> aget js pid = Ok j ->
  (forall q, q <> pid -> 0 <= q -> aget js q = aget (joinProcessNum m) q) ->
  (forall a, ch !! a = <[ca pid := w]> (cond_heap m) !! a) -> (forall a, lh !! a = lock_heap m !! a) ->
  holds (mkPM (processes m) (pcbs m) (conditions m) (locks m) js None (pcb_heap m) ch lh (next_obj m))
    (put_proc pid (Some (mkProcess (p_pcb P) j w)) T).
Proof.
  intros H Ep Hz Hj Hjs Hch Hlh. pose proof (h_dom _ _ _ _ H pid ltac:(eauto)) as Hpid.
  destruct (h_shaped _ _ _ _ H). destruct (h_owns _ _ _ _ H _ _ Ep) as (Hr & Hc & Hl & ? & ?).
  unfold row in Hr. injection Hr as Hr1 Hr2 Hr3 Hr4.
  apply (holds_put ca la m T _ pid _ (ca pid) (la pid)); cbn; try done.
  - intros q Hq Hq0. unfold row. cbn. by rewrite Hjs.
  - intros a Ha _. rewrite Hch. by apply lookup_insert_ne.
  - split; [unfold row; cbn; by rewrite Hr1, Hr2, Hr3, Hj|]. cbn.
    rewrite Hch, Hlh, lookup_insert_eq. done.
  - intros q Q Hq Eq. split; intros Heq; apply Hq; eapply (h_distinct _ _ _ _ H); eauto.
Qed.

Lemma decrementJoins_refines t pid ca la m T : holds_at ca la m T ->
  refines (pm_step t (DecrementJoins pid)) m (spec t (DecrementJoins pid) T).
Proof.
  intros H. eapply guarded_refines; [exact H| |]; cbv beta iota; cbn [negb].
  - sstep. eapply run_pm_release; [done|]. sstep. split; [done|]. destruct m; cbn. by rewrite <-(h_free _ _ _ _ H).
  - intros P x Hpid Ep Ex. pose proof (h_owns _ _ _ _ H _ _ Ep) as Ho. row_step Ho. pose proof (h_shaped _ _ _ _ H) as [].
    sstep. sstep. unfold test. sstep. sstep; [by apply Test_bit; cbn; [|lia]|].
    sstep. eapply run_at; [done|]. sstep.
    eapply (run_to_mono _ _ (fun _ m' => m' = set_joins (<[Z.to_nat pid := if 0 <? p_joins P then p_joins P - 1 else p_joins P]> (joinProcessNum m)) (set_pmLock (Some t) m))).
    + destruct (0 <? p_joins P).
      * apply run_put; [cbn; lia|done].
      * sstep. rewrite list_insert_id; [by destruct m|].
        by match goal with E : aget _ _ = Ok (p_joins P) |- _ => apply aget_Ok_inv in E as [_ E] end.
    + intros [] m' ->. eapply run_pm_release; [done|]. sstep. split; [done|].
      apply (holds_touch ca la m T pid P _ (p_waiting P)); cbn; try done.
      * by rewrite zlen_insert.
      * apply aget_insert_eq. lia.
      * intros q Hq Hq0. apply aget_insert_ne; lia.
      * intros a. rewrite insert_id; done.
Qed.

Lemma Broadcast_refines t pid ca la m T : holds_at ca la m T ->
  refines (pm_step t (Wake pid)) m (spec t (Wake pid) T).
Proof.
  intros H. eapply guarded_refines; [exact H| |]; cbv beta iota; cbn [negb].
  - sstep. eapply run_pm_release; [done|]. sstep. sstep. split; [done|]. destruct m; cbn. by rewrite <-(h_free _ _ _ _ H).
  - intros P x Hpid Ep Ex. pose proof (h_owns _ _ _ _ H _ _ Ep) as Ho. row_step Ho. pose proof (h_shaped _ _ _ _ H) as [].
    sstep. eapply run_at; [done|]. sstep. eapply run_lock_acquire; [done|].
    sstep. eapply run_at; [done|]. sstep. eapply run_at; [done|].
    sstep. eapply run_broadcast; [cbn; by apply lookup_insert_eq|done|].
    sstep. eapply run_at; [done|]. sstep. eapply run_lock_release; [cbn; by apply lookup_insert_eq|].
    sstep. eapply run_pm_release; [done|]. sstep. sstep. split; [done|].
    apply (holds_touch ca la m T pid P (p_joins P) []); cbn; try done.
    intros a. cbn. rewrite insert_insert_eq, insert_id; done.
Qed.

Lemma Join_refines t pid ca la m T : holds_at ca la m T ->
  refines (pm_step t (Join pid)) m (spec t (Join pid) T).
Proof.
  intros H. eapply guarded_refines; [exact H| |]; cbv beta iota; cbn [negb].
  - sstep. eapply run_pm_release; [done|]. sstep. sstep. split; [done|]. destruct m; cbn. by rewrite <-(h_free _ _ _ _ H).
  - intros P x Hpid Ep Ex. pose proof (h_owns _ _ _ _ H _ _ Ep) as Ho. row_step Ho. pose proof (h_shaped _ _ _ _ H) as [].
    sstep. eapply run_at; [done|]. sstep. eapply run_lock_acquire; [done|].
    sstep. eapply run_at; [done|]. sstep. eapply run_put; [cbn; lia|].
    sstep. eapply run_pm_release; [done|]. unfold join_round.
    sstep. eapply run_pm_acquire; [done|]. sstep. eapply run_at; [done|].
    sstep. eapply run_get_pcb; [cbn; rewrite (h_heap _ _ _ _ H); exact Ex|].
    assert (Hj : forall q, q <> pid -> 0 <= q -> aget (<[Z.to_nat pid := s32 (p_joins P + 1)]> (joinProcessNum m)) q = aget (joinProcessNum m) q)
      by (intros; apply aget_insert_ne; lia).
    destruct (1 <? status x).
    + sstep. eapply run_at; [done|]. sstep. eapply run_lock_release; [cbn; by apply lookup_insert_eq|].
      sstep. eapply run_pm_release; [done|]. sstep. sstep. split; [done|].
      apply (holds_touch ca la m T pid P _ (p_waiting P)); cbn; try done.
      * by rewrite zlen_insert.
      * apply aget_insert_eq. lia.
      * intros a. rewrite insert_id; done.
      * intros a. cbn. rewrite insert_insert_eq, insert_id; done.
    + sstep. eapply run_pm_release; [done|]. sstep.
      sstep. eapply run_wait_begin; [done|done|cbn; by apply lookup_insert_eq|done|]. cbv beta iota.
      sstep. split; [done|].
      apply (holds_touch ca la m T pid P _ (p_waiting P ++ [t])); cbn; try done.
      * by rewrite zlen_insert.
      * apply aget_insert_eq. lia.
      * intros a. cbn. rewrite insert_insert_eq, insert_id; done.
Qed.

Lemma insertProcess_refines t a pid ca la m T : holds_at ca la m T ->
  refines (pm_step t (Insert a pid)) m (spec t (Insert a pid) T).
Proof.
  intros H. unfold spec. destruct (bool_decide_reflect (is_Some (t_procs T !! pid) /\ is_Some (t_pcbs T !! a))) as [[Hin Ha]|]; [|done].
  pose proof (h_dom _ _ _ _ H pid Hin) as Hpid. pose proof (h_shaped _ _ _ _ H) as [].
  cbn [refines pm_step]. unfold insertProcess, new_obj.
  sstep. eapply run_pm_acquire; [by apply (h_free _ _ _ _ H)|].
  sstep. eapply run_put; [cbn; lia|]. sstep. sstep. sstep. sstep. sstep. eapply run_put; [cbn; lia|].
  sstep. sstep. sstep. sstep. sstep. eapply run_put; [cbn; lia|].
  sstep. eapply run_put; [cbn; lia|]. eapply run_pm_release; [done|]. sstep. split; [done|].
  apply (holds_put ca la m T _ pid _ (next_obj m) (next_obj m + 1)); cbn; try done.
  - split; cbn; by rewrite ?zlen_insert.
  - lia.
  - intros q Hq Hq0. unfold row. cbn. by rewrite !aget_insert_ne by lia.
  - intros c Hc _. by apply lookup_insert_ne.
  - intros l Hl _. by apply lookup_insert_ne.
  - split; [unfold row; cbn; by rewrite !aget_insert_eq by lia|]. cbn. rewrite !lookup_insert_eq. repeat split; lia.
  - intros q Q _ Eq. destruct (h_owns _ _ _ _ H q Q Eq) as (_ & _ & _ & ? & ?). lia.
Qed.

Lemma SetStatus_refines t a v ca la m T : holds_at ca la m T ->
  refines (pm_step t (SetStatus a v)) m (spec t (SetStatus a v) T).
Proof.
  intros H. unfold spec. destruct (t_pcbs T !! a) as [x|] eqn:Ex; [|done]. cbn [mbind option_bind refines pm_step].
  unfold upd_pcb. sstep. eapply run_get_pcb; [rewrite (h_heap _ _ _ _ H); exact Ex|].
  sstep; [done|]. sstep. sstep. split; [done|]. exists ca, la. destruct H as [[] ? ? ? ? ? ? Hnext]. split; cbn; try done.
  - by f_equal.
  - intros b. destruct (decide (b = a)) as [->|]; [intros _; apply Hnext; eauto|]. rewrite lookup_insert_ne by done. apply Hnext.
Qed.

Lemma free_pid_clear ca la m T : holds_at ca la m T -> free_pid T = head (clear_bits (processes m)).
Proof.
  intros H. unfold free_pid, clear_bits. rewrite (sh_num m (h_shaped _ _ _ _ H)). f_equal.
  apply filter_ext_in. intros p Hp%elem_of_seqZ. rewrite (h_bit _ _ _ _ H) by lia.
  rewrite bool_decide_eq_false, eq_None_not_Some. done.
Qed.

Lemma getPID_refines t ca la m T : holds_at ca la m T ->
  refines (pm_step t GetPID) m (spec t GetPID T).
Proof.
  intros H. unfold spec. rewrite (free_pid_clear _ _ _ _ H). pose proof (h_shaped _ _ _ _ H) as [].
  cbn [pm_step]. unfold getPID. destruct (clear_bits (processes m)) as [|p l] eqn:Ec; cbn [head refines].
  - sstep. sstep; [by apply Find_full|]. sstep. sstep. sstep. split; [done|]. exists ca, la. by destruct m.
  - assert (Hp : p ∈ clear_bits (processes m)) by (rewrite Ec; by left).
    apply elem_of_clear_bits in Hp as [Hr Hb]. rewrite sh_num0 in Hr.
    destruct (Find_spec (processes m)) as (r & bm & HF & Hwf & Hs); [done|].
    pose proof (Find_clear (processes m) p l sh_bits0 Ec) as (bm' & HF' & _ & Hn' & _).
    rewrite HF in HF'. injection HF' as -> ->.
    destruct Hs as [(-> & _)|(_ & _ & _ & _ & Hbits)]; [lia|].
    sstep. sstep; [exact HF|]. sstep. sstep. sstep. split; [done|].
    exists ca, la. destruct H as [[] ? ? Hbit Hdom Hown Hdis Hnext].
    assert (Hf : t_procs T !! p = None).
    { apply eq_None_not_Some. rewrite Hbit in Hb by done. by apply bool_decide_eq_false in Hb. }
    split; cbn; try done.
    + split; cbn; congruence.
    + intros q Hq. rewrite Hbits by lia. destruct (Z.eqb_spec q p) as [->|Hne].
      * symmetry. apply bool_decide_true. rewrite lookup_insert_eq. eauto.
      * rewrite lookup_insert_ne by done. by apply Hbit.
    + intros q. destruct (decide (q = p)) as [->|]; [done|]. rewrite lookup_insert_ne by done. apply Hdom.
    + intros q Q. destruct (decide (q = p)) as [->|]; [by rewrite lookup_insert_eq|].
      rewrite lookup_insert_ne by done. intros E. exact (Hown q Q E).
    + intros q1 q2 Q1 Q2. destruct (decide (q1 = p)) as [->|]; [by rewrite lookup_insert_eq|].
      destruct (decide (q2 = p)) as [->|]; [by rewrite (lookup_insert_eq _ p)|].
      rewrite !lookup_insert_ne by done. apply Hdis.
Qed.

Lemma holds_delete ca la m T m' pid bm :
  holds_at ca la m T -> 0 <= pid < MAX_PROCESSES -> shaped m' -> pmLock m' = None -> pcb_heap m' = pcb_heap m ->
  next_obj m' = next_obj m -> processes m' = bm ->
  (forall q, 0 <= q -> bitat bm q = if q =? pid then false else bitat (processes m) q) ->
  (forall q, q <> pid -> 0 <= q -> row m' q = row m q) ->
  (forall a, a <> ca pid -> cond_heap m' !! a = cond_heap m !! a) ->
  (forall a, a <> la pid -> lock_heap m' !! a = lock_heap m !! a) ->
  (exists P, t_procs T !! pid = Some (Some P)) ->
  holds m' (mkTable (delete pid (t_procs T)) (t_pcbs T)).
Proof.
  intros H Hpid S L Hh Hn Hp Hb Hrow Hc Hl [P EP]. exists ca, la.
  split; [done|done|by rewrite Hh; apply (h_heap _ _ _ _ H)| | | | |]; cbn [t_procs t_pcbs].
  5: { intros a Ha. rewrite Hn. by apply (h_next _ _ _ _ H). }
  - intros q Hq. rewrite Hp, Hb by lia. destruct (Z.eqb_spec q pid) as [->|].
    + symmetry. apply bool_decide_false. rewrite lookup_delete_eq. by intros [].
    + rewrite lookup_delete_ne by done. by apply (h_bit _ _ _ _ H).
  - intros q Hq. apply (h_dom _ _ _ _ H). destruct (decide (q = pid)) as [->|]; [eauto|]. by rewrite lookup_delete_ne in Hq.
  - intros q Q [Hne E]%lookup_delete_Some. pose proof (h_dom _ _ _ _ H q ltac:(eauto)).
    destruct (h_owns _ _ _ _ H q Q E) as (Hr & ? & ? & ? & ?).
    split; [by rewrite Hrow by lia|].
    rewrite Hc, Hl, Hn by (intros Heq; apply Hne; eapply (h_distinct _ _ _ _ H); eauto). done.
  - intros q1 q2 Q1 Q2 [_ E1]%lookup_delete_Some [_ E2]%lookup_delete_Some. eapply (h_distinct _ _ _ _ H); eauto.
Qed.

Lemma clearPID_refines t pid ca la m T : holds_at ca la m T ->
  refines (pm_step t (ClearPID pid)) m (spec t (ClearPID pid) T).
Proof.
  intros H. eapply guarded_refines; [exact H| |]; cbv beta iota; cbn [negb].
  - sstep. eapply run_pm_release; [done|]. sstep. split; [done|]. destruct m; cbn. by rewrite <-(h_free _ _ _ _ H).
  - intros P x Hpid Ep Ex. pose proof (h_owns _ _ _ _ H _ _ Ep) as Ho. row_step Ho. pose proof (h_shaped _ _ _ _ H) as [].
    destruct (Clear_bit (processes m) pid) as (bm & EC & Hwf & Hnum & Hbits); [done|lia|].
    sstep. eapply run_at; [done|]. sstep. eapply run_lock_acquire; [done|].
    sstep. eapply run_put; [cbn; lia|]. sstep. eapply run_at; [done|]. sstep. sstep. eapply run_put; [cbn; lia|].
    sstep. eapply run_at; [done|]. sstep. eapply run_lock_release; [cbn; by apply lookup_insert_eq|].
    sstep. eapply run_at; [done|]. sstep. sstep. eapply run_put; [cbn; lia|].
    sstep. sstep; [exact EC|]. sstep. eapply run_pm_release; [done|]. sstep. split; [done|].
    apply (holds_delete ca la m T _ pid bm); cbn; try done.
    + split; cbn; rewrite ?zlen_insert; congruence.
    + intros q Hq Hq0. unfold row. cbn. by rewrite !aget_insert_ne by lia.
    + intros c Hc. by apply lookup_delete_ne.
    + intros l Hl. rewrite lookup_delete_ne, insert_insert_eq by done. by apply lookup_insert_ne.
    + eauto.
Qed.

Lemma pm_step_refines t o m T : holds m T -> refines (pm_step t o) m (spec t o T).
Proof.
  intros (ca & la & H).
  destruct o; eauto using getPID_refines, insertProcess_refines, SetStatus_refines, getStatus_refines, Join_refines,
    getJoins_refines, decrementJoins_refines, Broadcast_refines, clearPID_refines.
Qed.

Lemma new_pcb_holds x m T : holds m T ->
  run_to (new_pcb x) m (fun p m' => exists a, p = Some a /\ t_pcbs T !! a = None /\
    holds m' (mkTable (t_procs T) (<[a := x]> (t_pcbs T)))).
Proof.
  intros (ca & la & [[] ? Hheap ? ? Hown ? Hnext]). unfold new_pcb, new_obj.
  sstep. sstep. sstep. sstep. sstep. sstep. sstep. exists (next_obj m). split; [done|]. split.
  - apply eq_None_not_Some. intros Hs. specialize (Hnext _ Hs). lia.
  - exists ca, la. split; cbn; try done.
    + by rewrite Hheap.
    + intros p P E. destruct (Hown p P E) as (? & ? & ? & ? & ?). split; [done|]. cbn. repeat split; (done || lia).
    + intros a. destruct (decide (a = next_obj m)) as [->|]; [lia|]. rewrite lookup_insert_ne by done.
      intros Hs. specialize (Hnext _ Hs). lia.
Qed.

Lemma ProcessManager_new_holds storage p0 c0 l0 j0 :
  zlen storage = 2 -> Forall in_u32 storage ->
  zlen p0 = MAX_PROCESSES -> zlen c0 = MAX_PROCESSES -> zlen l0 = MAX_PROCESSES -> zlen j0 = MAX_PROCESSES ->
  exists m, ProcessManager_new storage p0 c0 l0 j0 = Ok m /\ holds m (mkTable ∅ ∅).
Proof.
  intros Hs Hu Hp Hc Hl Hj. unfold ProcessManager_new.
  destruct (BitMap_new_ok MAX_PROCESSES storage) as (bm & -> & Hwf & Hn & Hb); [done|exact Hs|done|].
  eexists. split; [reflexivity|]. exists id, id. split; try done.
  - intros p [? [=]].
  - intros a [? [=]].
Qed.

(** ** The property *)


(** Two processes, the second joined while it runs, woken, and ended; then
    an id that does not exist. *)
Definition example_ops : list (Z * op) :=
  [(1, GetPID); (1, Insert 10 0); (1, GetPID); (1, Insert 11 1); (1, SetStatus 11 1); (1, GetStatus 1);
   (1, Join 1); (2, Join 1); (3, Wake 1); (3, ClearPID 1); (1, GetStatus 1); (1, GetPID); (1, Join 65); (1, GetStatus 64)].

Definition example_pm : ProcessManager :=
  mkPM (mkBitMap 64 2 [0; 0]) (replicate 64 None) (replicate 64 None) (replicate 64 None) (replicate 64 0) None
    (<[10 := PCB_default]> (<[11 := PCB_default]> ∅)) ∅ ∅ 12.

Lemma example_holds : holds example_pm (mkTable ∅ (<[10 := PCB_default]> (<[11 := PCB_default]> ∅))).
Proof.
  exists id, id. split; cbn; try done.
  - split; try done. split; cbn; try done. repeat constructor; done.
  - intros p Hp. unfold bitat. cbn [map processes example_pm]. destruct (Z.to_nat (p / 32)) as [|[|n]]; cbn; by rewrite ?Z.testbit_0_l.
  - intros p [? [=]].
  - intros a [? E]. apply lookup_insert_Some in E as [[<- _]|[_ E]]; [lia|].
    apply lookup_insert_Some in E as [[<- _]|[_ [=]]]. lia.
Qed.

