(* ===== verification/Syscall.v ===== *)
(** * userprog/exception.cc, ReadWrite of threads/system.cc, StartProcess of
    userprog/progtest.cc

    The kernel that user programs call: their threads and address spaces,
    the processes and open files of Process.v, the paging of Vm.v, and the
    machine whose registers and page table are those of the thread that
    runs.  The build is that of userprog/Makefile (VM, FILESYS_STUB), so
    the file system is that of UNIX.

    Without the option -rs nothing takes the processor from a thread in the
    kernel, so threads change only where a call asks for it: at Yield,
    Finish and Wait.  A thread that gives the processor away leaves behind
    what it has to do when it runs again ([resume]); the ready list is
    first in, first out, as Scheduler's.  The messages that the calls print
    about themselves are left out of the output. *)

From stdpp Require Import base list numbers gmap.
From S2P Require Import Prelude Arrays State Bitmap Machine Lru Vm Loader Paging Process.

(** ** The state *)

Record Space := mkSpace { sp_table : Z; sp_numPages : Z; sp_pcb : ptr }.

(** Back in a system call, with the result for r2; at the start of newProc
    or of myForkHelper; in the Wait of a join, with the lock to take. *)
Inductive resume := RSyscall (result : option Z) | RNew | RFork (funcAddr : Z) | RWait (pid : Z) (lock : ptr).

Record UThread := mkUT { ut_space : ptr; ut_regs : list Z; ut_resume : resume }.

Record Sys := mkSys {
  s_vm : VM;
  s_status : MachineStatus;
  s_pm : ProcessManager;
  s_of : SysOpenFileManager;
  s_uf : gmap Z UserOpenFile;
  s_spaces : gmap Z Space;
  s_threads : gmap Z UThread;
  s_current : Z;                        (* currentThread *)
  s_ready : list Z;
  s_unix : gmap (list Z) (list Z);      (* UNIX files by name *)
  s_stdin : list Z;
  s_stdout : list Z;
  s_next : Z                            (* addresses from here on are free *)
}.

Definition set_s_vm v s := mkSys v (s_status s) (s_pm s) (s_of s) (s_uf s) (s_spaces s) (s_threads s) (s_current s) (s_ready s) (s_unix s) (s_stdin s) (s_stdout s) (s_next s).
Definition set_s_status v s := mkSys (s_vm s) v (s_pm s) (s_of s) (s_uf s) (s_spaces s) (s_threads s) (s_current s) (s_ready s) (s_unix s) (s_stdin s) (s_stdout s) (s_next s).
Definition set_s_pm v s := mkSys (s_vm s) (s_status s) v (s_of s) (s_uf s) (s_spaces s) (s_threads s) (s_current s) (s_ready s) (s_unix s) (s_stdin s) (s_stdout s) (s_next s).
Definition set_s_of v s := mkSys (s_vm s) (s_status s) (s_pm s) v (s_uf s) (s_spaces s) (s_threads s) (s_current s) (s_ready s) (s_unix s) (s_stdin s) (s_stdout s) (s_next s).
Definition set_s_uf v s := mkSys (s_vm s) (s_status s) (s_pm s) (s_of s) v (s_spaces s) (s_threads s) (s_current s) (s_ready s) (s_unix s) (s_stdin s) (s_stdout s) (s_next s).
Definition set_s_spaces v s := mkSys (s_vm s) (s_status s) (s_pm s) (s_of s) (s_uf s) v (s_threads s) (s_current s) (s_ready s) (s_unix s) (s_stdin s) (s_stdout s) (s_next s).
Definition set_s_threads v s := mkSys (s_vm s) (s_status s) (s_pm s) (s_of s) (s_uf s) (s_spaces s) v (s_current s) (s_ready s) (s_unix s) (s_stdin s) (s_stdout s) (s_next s).
Definition set_s_current v s := mkSys (s_vm s) (s_status s) (s_pm s) (s_of s) (s_uf s) (s_spaces s) (s_threads s) v (s_ready s) (s_unix s) (s_stdin s) (s_stdout s) (s_next s).
Definition set_s_ready v s := mkSys (s_vm s) (s_status s) (s_pm s) (s_of s) (s_uf s) (s_spaces s) (s_threads s) (s_current s) v (s_unix s) (s_stdin s) (s_stdout s) (s_next s).
Definition set_s_unix v s := mkSys (s_vm s) (s_status s) (s_pm s) (s_of s) (s_uf s) (s_spaces s) (s_threads s) (s_current s) (s_ready s) v (s_stdin s) (s_stdout s) (s_next s).
Definition set_s_stdin v s := mkSys (s_vm s) (s_status s) (s_pm s) (s_of s) (s_uf s) (s_spaces s) (s_threads s) (s_current s) (s_ready s) (s_unix s) v (s_stdout s) (s_next s).
Definition set_s_stdout v s := mkSys (s_vm s) (s_status s) (s_pm s) (s_of s) (s_uf s) (s_spaces s) (s_threads s) (s_current s) (s_ready s) (s_unix s) (s_stdin s) v (s_next s).
Definition set_s_next v s := mkSys (s_vm s) (s_status s) (s_pm s) (s_of s) (s_uf s) (s_spaces s) (s_threads s) (s_current s) (s_ready s) (s_unix s) (s_stdin s) (s_stdout s) v.

Definition W : Type := Machine * Sys.
Notation UM := (M W).

Definition sys {A} (f : Sys -> A) : UM A := gets (fun w => f (snd w)).
Definition upd_sys (f : Sys -> Sys) : UM unit := modify (fun w => (fst w, f (snd w))).
Definition on_machine (f : Machine -> res Machine) : UM unit := fun w => m ← f (fst w); Ok (tt, (m, snd w)).
Definition read_register (i : Z) : UM Z := m ← gets fst; lift (ReadRegister i m).
Definition write_register (i v : Z) : UM unit := on_machine (WriteRegister i v).

Definition pm {A} (f : M ProcessManager A) : UM A := zoom (fun w => s_pm (snd w)) (fun v w => (fst w, set_s_pm v (snd w))) f.
Definition ofm {A} (f : M SysOpenFileManager A) : UM A := zoom (fun w => s_of (snd w)) (fun v w => (fst w, set_s_of v (snd w))) f.
(** The operations of Process.v by the current thread. *)
Definition pm_me {A} (f : Z -> M ProcessManager A) : UM A := t ← sys s_current; pm (f t).
Definition ofm_me {A} (f : Z -> M SysOpenFileManager A) : UM A := t ← sys s_current; ofm (f t).

Definition fresh : UM Z := a ← sys s_next; _ ← upd_sys (set_s_next (a + 1)); ret a.

(** [currentThread], [currentThread->space], its pcb, as the paging code
    sees it. *)
Definition this_thread : UM UThread := s ← sys id; lift (deref (s_threads s !! s_current s)).
Definition set_this (f : UThread -> UThread) : UM unit :=
  x ← this_thread; upd_sys (fun s => set_s_threads (<[s_current s := f x]> (s_threads s)) s).
Definition this_space : UM Space := x ← this_thread; s ← sys id; lift (with_ptr (s_spaces s) (ut_space x) Ok).
Definition this_pcb : UM PCB := sp ← this_space; pm (get_pcb (sp_pcb sp)).
Definition upd_this_pcb (f : PCB -> PCB) : UM unit := sp ← this_space; pm (upd_pcb (sp_pcb sp) f).
Definition this_as : UM AddrSpace :=
  sp ← this_space; p ← pm (get_pcb (sp_pcb sp)); ret (mkAS (sp_table sp) (sp_numPages sp) (pid p)).

(** An operation of the paging code: memory and the page table in force are
    those of the machine. *)
Definition on_vm {A} (f : M VM A) : UM A :=
  a ← this_as;
  (fun w : W =>
    let '(m, s) := w in
    let k := mkUK (s_vm s) a (s_status s) in
    match f (enter m k) with
    | Ok (x, v) => let '(m', k') := leave v m k in Ok (x, (m', set_s_vm (uk_vm k') s))
    | Err e => Err e
    end) : UM A.

(** ** The entry for exceptions inside the kernel *)

Section Kernel.
(** What [new] and the stack find in memory; which names UNIX lets us
    create; the fuel of AddrSpace's ReadFile. *)
Context (garbage : Z) (creatable : list Z -> bool) (fuel : nat).
Context (tick debugger : W -> res W) (ticks : Sys -> Z).

Definition PageFault : UM unit :=
  vaddr ← read_register BadVAddrReg;
  a ← this_as;
  on_vm (PageFaultHandler garbage (as_pid a) vaddr).

Definition run_in {A} (f : UM A) (w : W) : res W := r ← f w; Ok (snd r).

(** ExceptionHandler when machine->ReadMem, called from a system call,
    raises an exception. *)
Definition nested_handler (which : ExceptionType) (w : W) : res W :=
  match which with
  | PageFaultException => run_in PageFault w
  | _ => Err AssertFailed
  end.

Definition nested : KernelEntry Sys := {|
  Machine.setStatus := set_s_status;
  Machine.ExceptionHandler := nested_handler;
  Machine.OneTick := tick;
  Machine.totalTicks := ticks;
  Machine.Debugger := debugger
|}.

(** [machine->ReadMem(arg, 1, &value)]: [value] keeps its old value when
    it returns FALSE. *)
Definition ReadMem_byte (arg value : Z) : UM Z :=
  v ← (fun w => ReadMem (KernelEntry0 := nested) arg 1 w);
  ret (default value v).

(** ** Names of files *)

Definition FILE_NAME_SIZE : Z := 128.

(** [while (value != NULL)], with [value] uninitialised at first: the
    fuel is more than the array has room for. *)
Fixpoint read_name (n : nat) (position arg value : Z) (fileName : list Z) : UM (list Z) :=
  if value =? 0 then ret fileName
  else
    match n with
    | O => fail MemFault
    | S n =>
        value ← ReadMem_byte arg value;
        fileName ← lift (aset fileName position (s8 value));
        read_name n (position + 1) (s32 (arg + 1)) value fileName
    end.

(** The string in an array of chars. *)
Fixpoint c_string (l : list Z) : res (list Z) :=
  match l with
  | [] => Err MemFault
  | c :: l => if c =? 0 then Ok [] else s ← c_string l; Ok (c :: s)
  end.

Definition get_name : UM (list Z) :=
  arg ← read_register 4;
  fileName ← read_name (S (Z.to_nat FILE_NAME_SIZE)) 0 arg garbage (replicate (Z.to_nat FILE_NAME_SIZE) (s8 garbage));
  lift (c_string fileName).

(** A copy of at most FILE_NAME_SIZE chars: when it is cut there is no 0. *)
Definition CloneString (old : list Z) : list Z := take (Z.to_nat FILE_NAME_SIZE) old.

Definition incrRegs : UM unit :=
  pc ← read_register PCReg;
  _ ← write_register PrevPCReg pc;
  pc ← read_register NextPCReg;
  _ ← write_register PCReg pc;
  write_register NextPCReg (s32 (pc + 4)).

(** ** ReadWrite *)

(** One round: [physicAddr] is left alone when Translate fails, whose
    result is not looked at. *)
Definition translate_arg (virAddr size physicAddr : Z) : UM Z :=
  fun w =>
    r ← Machine.Translate virAddr size false (fst w);
    let '(exception, pa, m) := r in
    Ok (if bool_decide (exception = NoException) then pa else physicAddr, (m, snd w)).

(** USER_READ: from [buffer] into user memory. *)
Fixpoint ReadWrite_in (n : nat) (virAddr size bytesCopied physicAddr : Z) (buffer : list Z) : UM Z :=
  if 0 <? size then
    match n with
    | O => fail MemFault
    | S n =>
        physicAddr ← translate_arg virAddr size physicAddr;
        let pageSizeLeft := PageSize - Z.rem physicAddr PageSize in
        let actualToCopy := Z.min pageSizeLeft size in
        bytes ← lift (bread bytesCopied actualToCopy buffer);
        _ ← on_machine (fun m => mem ← bwrite physicAddr bytes (mainMemory m); Ok (Machine.set_memory m mem));
        ReadWrite_in n (s32 (virAddr + actualToCopy)) (size - actualToCopy) (bytesCopied + actualToCopy) physicAddr buffer
    end
  else ret bytesCopied.

(** USER_WRITE: from user memory into [buffer]. *)
Fixpoint ReadWrite_out (n : nat) (virAddr size bytesCopied physicAddr : Z) (buffer : list Z) : UM (Z * list Z) :=
  if 0 <? size then
    match n with
    | O => fail MemFault
    | S n =>
        physicAddr ← translate_arg virAddr size physicAddr;
        let pageSizeLeft := PageSize - Z.rem physicAddr PageSize in
        let actualToCopy := Z.min pageSizeLeft size in
        m ← gets fst;
        bytes ← lift (bread physicAddr actualToCopy (mainMemory m));
        buffer ← lift (bwrite bytesCopied bytes buffer);
        ReadWrite_out n (s32 (virAddr + actualToCopy)) (size - actualToCopy) (bytesCopied + actualToCopy) physicAddr buffer
    end
  else ret (bytesCopied, buffer).

Definition USER_READ_copy (virAddr : Z) (buffer : list Z) (size : Z) : UM Z :=
  ReadWrite_in (Z.to_nat size) virAddr size 0 garbage buffer.
Definition USER_WRITE_copy (virAddr : Z) (buffer : list Z) (size : Z) : UM (Z * list Z) :=
  ReadWrite_out (Z.to_nat size) virAddr size 0 garbage buffer.

(** [new char[n]]: a negative size throws, and nobody catches. *)
Definition new_chars (n : Z) : UM (list Z) :=
  _ ← assert (0 <=? n); ret (replicate (Z.to_nat n) (garbage mod 256)).

(** ** Files *)

Definition ConsoleInput : Z := 0.
Definition ConsoleOutput : Z := 1.

Definition fs_Create (name : list Z) : UM bool :=
  _ ← assert (creatable name);
  _ ← upd_sys (fun s => set_s_unix (<[name := []]> (s_unix s)) s);
  ret true.

(** The file that was opened, by name. *)
Definition fs_Open (name : list Z) : UM (option (list Z)) :=
  s ← sys id; ret (if bool_decide (is_Some (s_unix s !! name)) then Some name else None).

Definition unix_ReadAt (f : option (list Z)) (size position : Z) : UM (list Z) :=
  name ← lift (deref f); s ← sys id; content ← lift (deref (s_unix s !! name)); lift (stub_ReadAt size position content).
Definition unix_WriteAt (f : option (list Z)) (from : list Z) (position : Z) : UM Z :=
  name ← lift (deref f); s ← sys id; content ← lift (deref (s_unix s !! name));
  content ← lift (stub_WriteAt from position content);
  _ ← upd_sys (fun s => set_s_unix (<[name := content]> (s_unix s)) s);
  ret (zlen from).

Definition myCreate (fileName : list Z) : UM unit :=
  worked ← fs_Create fileName; assert worked.

Definition myOpen (name : list Z) : UM Z :=
  r ← ofm_me (fun t => OF_Get_name t name);
  index ← (match r with
    | Some (sFile, i) => _ ← ofm (upd_so sFile (fun x => set_users (numUsersAccess x + 1) x)); ret i
    | None =>
        oFile ← fs_Open name;
        sFile ← ofm (new_so (SysOpenFile_new name oFile (-1)));
        ofm_me (fun t => OF_Add t sFile)
    end);
  a ← fresh;
  _ ← upd_sys (fun s => set_s_uf (<[a := mkUOF (CloneString name) 0 index]> (s_uf s)) s);
  p ← this_pcb;
  r ← lift (PCB_Add (Some a) p);
  _ ← upd_this_pcb (fun _ => snd r);
  ret (fst r).

(** [pcb->getFile(id)]. *)
Definition my_file (id : Z) : UM ptr := p ← this_pcb; s ← sys (fun s => s); lift (getFile (s_uf s) id p).

(** [openFileManager->Get(index)], if its fileID is the id of the call. *)
Definition my_sysfile (u : UserOpenFile) (id : Z) : UM (option ptr) :=
  p ← ofm_me (fun t => OF_Get t (indexPosition u));
  x ← ofm (get_so p);
  if fileID x =? id then p ← ofm_me (fun t => OF_Get t (indexPosition u)); ret (Some p) else ret None.

Fixpoint getchars (n : nat) : UM (list Z) :=
  match n with
  | O => ret []
  | S n =>
      i ← sys s_stdin;
      c ← (match i with
           | [] => ret (-1)
           | c :: i => _ ← upd_sys (set_s_stdin i); ret c
           end);
      l ← getchars n;
      ret (c mod 256 :: l)
  end.

Definition set_offset (v : Z) (u : UserOpenFile) : UserOpenFile := mkUOF (uo_name u) v (indexPosition u).

(** The bytes of the file, with its offset moved; [None] for an error. *)
Definition read_file (size id : Z) : UM (option (list Z)) :=
  f ← my_file id;
  match f with
  | None => ret None
  | Some a =>
      s ← sys (fun s => s);
      u ← lift (deref (s_uf s !! a));
      o ← my_sysfile u id;
      match o with
      | None | Some None => ret None
      | Some sFile =>
          _ ← ofm_me (fun t => so_acquire t sFile);
          x ← ofm (get_so sFile);
          bytes ← unix_ReadAt (so_file x) size (uo_offset u);
          _ ← ofm_me (fun t => so_release t sFile);
          _ ← upd_sys (fun s => set_s_uf (<[a := set_offset (uo_offset u + zlen bytes) u]> (s_uf s)) s);
          ret (Some bytes)
      end
  end.

Definition myRead (bufferAddress size id : Z) : UM Z :=
  buffer ← new_chars (s32 (size + 1));
  r ← (if id =? ConsoleInput then l ← getchars (Z.to_nat size); ret (Some (size, l))
       else o ← read_file size id; ret ((fun l => (zlen l, l)) <$> o));
  match r with
  | None => ret (-1)
  | Some (sizeCopy, bytes) =>
      buffer ← lift (bwrite 0 bytes buffer);
      _ ← USER_READ_copy bufferAddress buffer sizeCopy;
      ret sizeCopy
  end.

(** [printf("%s", buffer)]. *)
Definition printf_s (buffer : list Z) : UM unit :=
  l ← lift (c_string buffer); upd_sys (fun s => set_s_stdout (s_stdout s ++ l) s).

Definition write_file (bufferAddress size id : Z) : UM unit :=
  buffer ← new_chars size;
  r ← USER_WRITE_copy bufferAddress buffer size;
  f ← my_file id;
  match f with
  | None => ret tt
  | Some a =>
      s ← sys (fun s => s);
      u ← lift (deref (s_uf s !! a));
      o ← my_sysfile u id;
      match o with
      | None | Some None => ret tt
      | Some sFile =>
          x ← ofm (get_so sFile);
          bytes ← lift (bread 0 size (snd r));
          n ← unix_WriteAt (so_file x) bytes (uo_offset u);
          upd_sys (fun s => set_s_uf (<[a := set_offset (uo_offset u + n) u]> (s_uf s)) s)
      end
  end.

Definition myWrite (bufferAddress size id : Z) : UM unit :=
  buffer ← new_chars (s32 (size + 1));
  r ← USER_WRITE_copy bufferAddress buffer size;
  if id =? ConsoleOutput then
    buffer ← lift (aset (snd r) size 0);
    printf_s buffer
  else write_file bufferAddress size id.

(** [pcb->Remove(file)]. *)
Definition PCB_Remove (file : ptr) : UM bool :=
  p ← this_pcb;
  o ← lift (PCB_Remove_find file p);
  match o with
  | None => ret false
  | Some i =>
      a ← lift (deref file);
      s ← sys (fun s => s);
      u ← lift (deref (s_uf s !! a));
      _ ← ofm_me (fun t => OF_Close t (indexPosition u));
      _ ← upd_sys (fun s => set_s_uf (delete a (s_uf s)) s);
      bm ← lift (deref (files p));
      bm ← lift (Clear i bm);
      _ ← upd_this_pcb (fun p => set_files (fileArray p) (Some bm) p);
      ret true
  end.

Definition myClose (id : Z) : UM unit :=
  f ← my_file id;
  match f with
  | None => ret tt
  | Some a =>
      s ← sys (fun s => s);
      u ← lift (deref (s_uf s !! a));
      o ← my_sysfile u id;
      match o with
      | None | Some None => ret tt
      | Some _ => _ ← PCB_Remove f; ret tt
      end
  end.

(** ** Switching threads *)

(** What ExceptionHandler does after the switch on the type of the call;
    [result] goes to r2. *)
Definition end_syscall (result : option Z) : UM unit :=
  _ ← (match result with Some v => write_register 2 v | None => ret tt end);
  a ← this_as;
  _ ← on_vm (CleanupSysCall a);
  incrRegs.

(** AddrSpace::RestoreState. *)
Definition restore_state : UM unit :=
  sp ← this_space;
  s ← sys id;
  on_machine (fun m => Ok (mkMachine (mainMemory m) (registers m) (tlb m) (tables (s_vm s) !! sp_table sp) (sp_numPages sp) (singleStep m) (runUntilTime m))).

(** Scheduler::Run: the registers of a thread with an address space are
    saved and restored.  The simulator writes into the page table of the
    address space itself: [on_vm] brings the tables of the kernel up to
    date with that of the machine. *)
Definition switch_to (next : Z) : UM unit :=
  x ← this_thread;
  m ← gets fst;
  _ ← (match ut_space x with
       | Some _ =>
           _ ← on_vm (ret tt);
           set_this (fun x => mkUT (ut_space x) (registers m) (ut_resume x))
       | None => ret tt
       end);
  _ ← upd_sys (set_s_current next);
  x ← this_thread;
  match ut_space x with
  | Some _ =>
      _ ← on_machine (fun m => Ok (Machine.set_registers m (ut_regs x)));
      restore_state
  | None => ret tt
  end.

Definition set_resume (r : resume) : UM unit := set_this (fun x => mkUT (ut_space x) (ut_regs x) r).

(** [currentThread->space->InitRegisters()]. *)
Definition init_registers : UM unit := a ← this_as; on_machine (InitRegisters a).

(** After the Wait of [join]: the lock is taken again, and the loop goes
    on; true when the call is over. *)
Definition after_wait (pid : Z) (l : ptr) : UM bool :=
  _ ← pm_me (fun t => lock_acquire t l);
  pm_me (fun t => join_round t pid).

(** The loop of [join] reaches Wait, and Wait its Sleep. *)
Definition wait_in_join (pid : Z) : UM unit :=
  l ← pm_me (fun t => wait_begin t pid);
  match l with
  | None => fail Exited       (* not the holder: Wait returns, for ever *)
  | Some l => set_resume (RWait pid l)
  end.

Definition end_join (arg : Z) : UM unit :=
  _ ← upd_this_pcb (set_status 1);
  r ← pm_me (fun t => getStatus t arg);
  end_syscall (Some r).

(** The first ready thread runs; without one the machine halts.  A thread
    that waits again leaves the ready list: its length is fuel enough. *)
Fixpoint dispatch (n : nat) : UM unit :=
  ready ← sys s_ready;
  match ready with
  | [] => fail Exited
  | next :: rest =>
      _ ← upd_sys (set_s_ready rest);
      _ ← switch_to next;
      x ← this_thread;
      match ut_resume x with
      | RSyscall r => end_syscall r
      | RNew => _ ← init_registers; restore_state
      | RFork funcAddr =>
          _ ← init_registers;
          _ ← restore_state;
          _ ← write_register PCReg funcAddr;
          write_register NextPCReg (s32 (funcAddr + 4))
      | RWait pid l =>
          over ← after_wait pid l;
          if over : bool then end_join pid
          else
            match n with
            | O => fail Exited
            | S n => _ ← wait_in_join pid; dispatch n
            end
      end
  end.

Definition run_next : UM unit := ready ← sys s_ready; dispatch (length ready).

(** [currentThread->Yield()] as the last thing of a call. *)
Definition yield_then (result : option Z) : UM unit :=
  ready ← sys s_ready;
  match ready with
  | [] => end_syscall result
  | _ :: _ =>
      _ ← set_resume (RSyscall result);
      t ← sys s_current;
      _ ← upd_sys (fun s => set_s_ready (s_ready s ++ [t]) s);
      run_next
  end.

(** ** Processes *)

(** [t->Fork(func, arg)] for a new thread. *)
Definition fork_thread (space : Z) (r : resume) : UM unit :=
  t ← fresh;
  upd_sys (fun s => set_s_ready (s_ready s ++ [t]) (set_s_threads (<[t := mkUT (Some space) (replicate (Z.to_nat NumTotalRegs) 0) r]> (s_threads s)) s)).

Definition myFork (funcAddr : Z) : UM unit :=
  parent ← this_pcb;
  a ← this_as;
  table ← fresh;
  dup ← on_vm (Duplicate a table);
  newpid ← pm getPID;
  _ ← assert (negb (newpid =? -1));
  sp ← fresh;
  t ← sys s_next;     (* the thread's address *)
  pcb ← pm (new_pcb (set_parent (pid parent) (set_pid newpid (set_pthread (Some t) PCB_default))));
  _ ← upd_sys (fun s => set_s_spaces (<[sp := mkSpace table (as_numPages dup) pcb]> (s_spaces s)) s);
  _ ← pm_me (fun t => insertProcess t pcb newpid);
  _ ← fork_thread sp (RFork funcAddr);
  yield_then None.

Definition myYield : UM unit := yield_then None.

(** [new AddrSpace(executable)]: the space; its loop can run for ever. *)
Definition new_AddrSpace (executable : list Z) : UM Z :=
  p ← pm getPID;
  pcb ← pm (new_pcb (PCB_new p (-1) None (-1)));
  _ ← pm_me (fun t => insertProcess t pcb p);
  s ← sys (fun s => s);
  content ← lift (deref (s_unix s !! executable));
  table ← fresh;
  let new n := replicate (Z.to_nat n) (garbage mod 256) in
  v ← sys s_vm;
  x ← lift (AddrSpace_load content table p fuel (new sizeof_NoffHeader) (new PageSize) (new PageSize) v);
  let '(r, v) := x in
  _ ← upd_sys (set_s_vm v);
  match r with
  | None => fail Exited
  | Some a =>
      sp ← fresh;
      _ ← upd_sys (fun s => set_s_spaces (<[sp := mkSpace (as_table a) (as_numPages a) pcb]> (s_spaces s)) s);
      ret sp
  end.

(** The pcb of the constructor is replaced; one more number is taken and
    not used. *)
Definition myExec (file : list Z) : UM (option Z) :=
  executable ← fs_Open file;
  match executable with
  | None => ret None
  | Some executable =>
      sp ← new_AddrSpace executable;
      _ ← pm getPID;
      p ← pm getPID;
      _ ← assert (negb (p =? -1));
      parent ← this_pcb;
      t ← sys s_next;
      pcb ← pm (new_pcb (set_pthread (Some t) (set_parent (pid parent) (set_pid p PCB_default))));
      s ← sys (fun s => s);
      x ← lift (deref (s_spaces s !! sp));
      _ ← upd_sys (fun s => set_s_spaces (<[sp := mkSpace (sp_table x) (sp_numPages x) pcb]> (s_spaces s)) s);
      _ ← pm_me (fun t => insertProcess t pcb p);
      _ ← fork_thread sp RNew;
      ret (Some p)
  end.

Definition myJoin (arg : Z) : UM unit :=
  _ ← upd_this_pcb (set_status 3);
  st ← pm_me (fun t => getStatus t arg);
  if st <? 0 then
    st ← pm_me (fun t => getStatus t arg);
    end_syscall (Some st)
  else
    over ← pm_me (fun t => join t arg);
    if over : bool then end_join arg
    else _ ← wait_in_join arg; run_next.

(** The threads that Broadcast wakes become ready. *)
Definition myExit (status : Z) : UM unit :=
  p ← this_pcb;
  woken ← pm_me (fun t => Broadcast t (pid p));
  _ ← upd_sys (fun s => set_s_ready (s_ready s ++ woken) s);
  x ← this_thread;
  a ← this_as;
  _ ← on_vm (AddrSpace_delete a);
  sp ← lift (deref (ut_space x));
  _ ← upd_sys (fun s => set_s_spaces (delete sp (s_spaces s)) s);
  _ ← set_this (fun x => mkUT None (ut_regs x) (ut_resume x));
  _ ← pm_me (fun t => clearPID t (pid p));
  run_next.

(** ** ExceptionHandler *)

Definition Syscall (type : Z) : UM unit :=
  if type =? 0 then fail Exited
  else if type =? 9 then a ← read_register 4; myFork a
  else if type =? 10 then myYield
  else if type =? 2 then
    name ← get_name;
    r ← myExec name;
    match r with None => end_syscall (Some (-1)) | Some p => yield_then (Some p) end
  else if type =? 3 then a ← read_register 4; myJoin a
  else if type =? 1 then a ← read_register 4; myExit a
  else if type =? 4 then name ← get_name; _ ← myCreate name; end_syscall None
  else if type =? 5 then name ← get_name; id ← myOpen name; end_syscall (Some id)
  else if type =? 6 then
    a1 ← read_register 4; a2 ← read_register 5; a3 ← read_register 6;
    n ← myRead a1 a2 a3; end_syscall (Some n)
  else if type =? 7 then
    a1 ← read_register 4; a2 ← read_register 5; a3 ← read_register 6;
    _ ← myWrite a1 a2 a3; end_syscall None
  else if type =? 8 then a1 ← read_register 4; _ ← myClose a1; end_syscall None
  else end_syscall None.

Definition ExceptionHandler (which : ExceptionType) : UM unit :=
  type ← read_register 2;
  match which with
  | SyscallException => Syscall type
  | PageFaultException => PageFault
  | _ => fail AssertFailed
  end.

#[export] Instance sys_kernel : KernelEntry Sys := {|
  Machine.setStatus := set_s_status;
  Machine.ExceptionHandler := fun which w => run_in (ExceptionHandler which) w;
  Machine.OneTick := tick;
  Machine.totalTicks := ticks;
  Machine.Debugger := debugger
|}.

(** ** StartProcess, up to machine->Run *)

Definition StartProcess (filename : list Z) : UM bool :=
  executable ← fs_Open filename;
  match executable with
  | None => ret false
  | Some executable =>
      sp ← new_AddrSpace executable;
      _ ← set_this (fun x => mkUT (Some sp) (ut_regs x) (ut_resume x));
      _ ← init_registers;
      _ ← restore_state;
      ret true
  end.
End Kernel.

(** ** An example *)

(** One process: two resident pages, frames 3 and 1; its buffer crosses
    the boundary between them. *)
Definition example_text : list Z := [72; 105; 33; 10; 0; 7].
Definition example_table : list TranslationEntry :=
  [mkTE 0 3 true false false false; mkTE 1 1 true false true true].
Definition example_m : Machine :=
  mkMachine (splice (3 * 128 + 125) (take 3 example_text) (splice 128 (drop 3 example_text) (replicate 8192 0)))
    (<[2%nat := 7]> (<[4%nat := 125]> (<[5%nat := 6]> (<[6%nat := 1]> (<[34%nat := 40]> (<[35%nat := 44]> (replicate 40 0)))))))
    None (Some example_table) 2 false 0.
Definition example_s : Sys :=
  mkSys (mkVM [] ∅ (mkMM (mkBitMap 32 1 [0]) 0 false) (mkSwap [] (mkBitMap 512 16 (replicate 16 0)) [] []) LRU_new [] [] [])
    SystemMode (mkPM (mkBitMap 64 2 [1; 0]) [] [] [] [] None (<[5 := PCB_new 0 (-1) None (-1)]> ∅) ∅ ∅ 10)
    (mkOFM [] (mkBitMap 100 4 [0; 0; 0; 0]) None ∅ 1) ∅
    (<[7 := mkSpace 8 2 (Some 5)]> ∅) (<[9 := mkUT (Some 7) [] RNew]> ∅) 9 [] ∅ [] [] 10.
