(* ===== verification/SyscallSafe.v ===== *)
(** * System calls, correct

    An invariant of the kernel of Syscall.v that every system call keeps,
    and what it means for user programs: files cannot be opened. *)

From stdpp Require Import base list numbers gmap.
From S2P Require Import Prelude Arrays State Bitmap Machine Lru Vm Loader Paging Process Syscall.

(** ** Invariants of computations that may stop *)

Definition keeps {W A} (I : W -> Prop) (m : M W A) : Prop :=
  forall w a w', I w -> m w = Ok (a, w') -> I w'.

Section Keeps.
Context {W : Type} (I : W -> Prop).

Lemma keeps_ret {A} (a : A) : keeps I (ret a).
Proof. by intros w b w' H [= <- <-]. Qed.

Lemma keeps_fail {A} e : keeps I (fail (A := A) e).
Proof. by intros w b w' H [=]. Qed.

Lemma keeps_bind {A B} (m : M W A) (f : A -> M W B) :
  keeps I m -> (forall a, keeps I (f a)) -> keeps I (m ≫= f).
Proof.
  intros Hm Hf w b w' H. unfold mbind, M_bind. destruct (m w) as [[a w1]|] eqn:E; [|done].
  intros E2. exact (Hf a w1 b w' (Hm w a w1 H E) E2).
Qed.

Lemma keeps_lift {A} (r : res A) : keeps I (lift r).
Proof. intros w b w' H. unfold lift. destruct r; [|done]. by intros [= <- <-]. Qed.

Lemma keeps_assert b : keeps I (assert b).
Proof. apply keeps_lift. Qed.

Lemma keeps_gets {A} (f : W -> A) : keeps I (gets f).
Proof. by intros w b w' H [= <- <-]. Qed.

Lemma keeps_modify f : (forall w, I w -> I (f w)) -> keeps I (modify f).
Proof. intros Hf w b w' H [= <- <-]. by apply Hf. Qed.

Lemma keeps_forM n i body : (forall j, keeps I (body j)) -> keeps I (forM n i body).
Proof.
  intros Hb. revert i. induction n as [|n IH]; intros i; cbn [forM]; [apply keeps_ret|].
  apply keeps_bind; [apply Hb|]. intros ?. apply IH.
Qed.
End Keeps.

Lemma keeps_zoom {V W A} (I : W -> Prop) (J : V -> Prop) (get : W -> V) put (m : M V A) :
  (forall w, I w -> J (get w)) -> (forall v w, I w -> J v -> I (put v w)) -> keeps J m -> keeps I (zoom get put m).
Proof.
  intros Hg Hp Hm w a w' H. unfold zoom. destruct (m (get w)) as [[b v]|] eqn:E; [|done].
  intros [= <- <-]. apply Hp; [done|]. exact (Hm _ _ _ (Hg w H) E).
Qed.

(** Goes through a computation; [db] knows the operations it calls. *)
Ltac keep_step :=
  lazymatch goal with
  | |- forall _, _ => intros ?
  | |- keeps _ (_ ≫= _) => apply keeps_bind
  | |- keeps _ (ret _) => apply keeps_ret
  | |- keeps _ (fail _) => apply keeps_fail
  | |- keeps _ (lift _) => apply keeps_lift
  | |- keeps _ (assert _) => apply keeps_assert
  | |- keeps _ (gets _) => apply keeps_gets
  | |- keeps _ (forM _ _ _) => apply keeps_forM
  | |- keeps _ (let '(_, _) := ?p in _) => destruct p
  | |- keeps _ (match ?x with _ => _ end) => destruct x
  | |- keeps _ (modify _) => apply keeps_modify; by intros
  | |- _ => solve [eauto with keeps]
  end.
Ltac keep := repeat keep_step.
Create HintDb keeps.

(** ** No process has files *)

Definition fileless (p : PCB) : Prop := files p = None /\ fileArray p = replicate (Z.to_nat MAX_FILES) None.

Definition pcbs_fileless (m : ProcessManager) : Prop := map_Forall (fun _ => fileless) (pcb_heap m).
Definition no_files (w : W) : Prop := pcbs_fileless (s_pm (snd w)).

Lemma upd_pcb_fileless p f : (forall x, fileless x -> fileless (f x)) -> keeps pcbs_fileless (upd_pcb p f).
Proof.
  intros Hf m a m' H. unfold upd_pcb, get_pcb, with_ptr. destruct p as [b|]; [|done].
  cbv [mbind M_bind gets lift modify deref res_bind].
  destruct (pcb_heap m !! b) as [x|] eqn:E; [|done]. intros [= <- <-].
  apply map_Forall_insert_2; [|exact H]. apply Hf. exact (H b x E).
Qed.

Lemma new_pcb_fileless x : fileless x -> keeps pcbs_fileless (new_pcb x).
Proof.
  intros Hx. unfold new_pcb, new_obj. keep. apply keeps_modify. intros m H.
  by apply map_Forall_insert_2.
Qed.

Section Fileless.
Context (t : Z).
Lemma keeps_pm_acquire : keeps pcbs_fileless (pm_acquire t). Proof. unfold pm_acquire. keep. Qed.
Lemma keeps_pm_release : keeps pcbs_fileless (pm_release t). Proof. unfold pm_release. keep. Qed.
Lemma keeps_lock_acquire l : keeps pcbs_fileless (lock_acquire t l). Proof. unfold lock_acquire. keep. Qed.
Lemma keeps_lock_release l : keeps pcbs_fileless (lock_release t l). Proof. unfold lock_release. keep. Qed.
Lemma keeps_new_obj : keeps pcbs_fileless new_obj. Proof. unfold new_obj. keep. Qed.
Lemma keeps_get_pcb p : keeps pcbs_fileless (get_pcb p). Proof. unfold get_pcb. keep. Qed.
Lemma keeps_at {A} (f : _ -> list A) i : keeps pcbs_fileless (at_ f i). Proof. unfold at_. keep. Qed.
Lemma keeps_known i : keeps pcbs_fileless (known i). Proof. unfold known, test. keep. Qed.
Lemma keeps_put {A} (f : _ -> list A) g i x : (forall l m, pcb_heap (g l m) = pcb_heap m) -> keeps pcbs_fileless (put f g i x).
Proof. intros Hg. unfold put. keep. apply keeps_modify. intros m H. unfold pcbs_fileless. by rewrite Hg. Qed.
End Fileless.
#[export] Hint Resolve keeps_pm_acquire keeps_pm_release keeps_lock_acquire keeps_lock_release keeps_new_obj keeps_get_pcb
  keeps_at keeps_known : keeps.
#[export] Hint Extern 2 (keeps _ (put _ _ _ _)) => (apply keeps_put; done) : keeps.

Section Fileless.
Context (t : Z).
Lemma keeps_insertProcess p i : keeps pcbs_fileless (insertProcess t p i). Proof. unfold insertProcess. keep. Qed.
Lemma keeps_getPID : keeps pcbs_fileless getPID. Proof. unfold getPID. keep. Qed.
Lemma keeps_clearPID i : keeps pcbs_fileless (clearPID t i).
Proof. unfold clearPID. keep; apply keeps_modify; by intros m; destruct (_ : ptr). Qed.
Lemma keeps_join_round i : keeps pcbs_fileless (join_round t i). Proof. unfold join_round. keep. Qed.
Lemma keeps_join i : keeps pcbs_fileless (join t i).
Proof. unfold join. keep. apply keeps_join_round. Qed.
Lemma keeps_wait_begin i : keeps pcbs_fileless (wait_begin t i). Proof. unfold wait_begin. keep. Qed.
Lemma keeps_getStatus i : keeps pcbs_fileless (getStatus t i). Proof. unfold getStatus. keep. Qed.
Lemma keeps_broadcast c l : keeps pcbs_fileless (broadcast t c l). Proof. unfold broadcast. keep. Qed.
Lemma keeps_Broadcast i : keeps pcbs_fileless (Broadcast t i).
Proof. unfold Broadcast. keep. apply keeps_broadcast. Qed.
End Fileless.
#[export] Hint Resolve keeps_insertProcess keeps_getPID keeps_clearPID keeps_join_round keeps_join keeps_wait_begin
  keeps_getStatus keeps_broadcast keeps_Broadcast new_pcb_fileless upd_pcb_fileless : keeps.
#[export] Hint Extern 2 (fileless _) => (by split) : keeps.

(** ** The same of the whole kernel *)

Lemma keeps_upd_sys f : (forall s, s_pm (f s) = s_pm s) -> keeps no_files (upd_sys f).
Proof. intros Hf. apply keeps_modify. intros [m s] H. unfold no_files. cbn. by rewrite Hf. Qed.

Lemma keeps_machine f : keeps no_files (on_machine f).
Proof. intros [m s] a w' H. unfold on_machine. cbn. destruct (f m); [|done]. by intros [= <- <-]. Qed.

Lemma keeps_pm {A} (f : M ProcessManager A) : keeps pcbs_fileless f -> keeps no_files (pm f).
Proof. intros Hf. by apply (keeps_zoom no_files pcbs_fileless). Qed.

Lemma keeps_ofm {A} (f : M SysOpenFileManager A) : keeps no_files (ofm f).
Proof. intros [m s] a w' H. unfold ofm, zoom. destruct (f _) as [[]|]; [|done]. by intros [= <- <-]. Qed.

Lemma keeps_sys {A} (f : Sys -> A) : keeps no_files (sys f).
Proof. apply keeps_gets. Qed.
#[export] Hint Extern 2 (keeps _ (upd_sys _)) => (apply keeps_upd_sys; done) : keeps.
#[export] Hint Extern 2 (keeps _ (pm _)) => (apply keeps_pm; solve [eauto with keeps]) : keeps.
#[export] Hint Resolve keeps_machine keeps_ofm keeps_sys : keeps.

Lemma keeps_pm_me {A} (f : Z -> M ProcessManager A) : (forall t, keeps pcbs_fileless (f t)) -> keeps no_files (pm_me f).
Proof. intros Hf. unfold pm_me. keep. Qed.
Lemma keeps_ofm_me {A} (f : Z -> M SysOpenFileManager A) : keeps no_files (ofm_me f).
Proof. unfold ofm_me. keep. Qed.
#[export] Hint Extern 2 (keeps _ (pm_me _)) => (apply keeps_pm_me; intros ?; solve [eauto with keeps]) : keeps.
#[export] Hint Resolve keeps_ofm_me : keeps.

Lemma keeps_read_register i : keeps no_files (read_register i). Proof. unfold read_register. keep. Qed.
Lemma keeps_write_register i v : keeps no_files (write_register i v). Proof. apply keeps_machine. Qed.
Lemma keeps_fresh : keeps no_files fresh. Proof. unfold fresh. keep. Qed.
Lemma keeps_this_thread : keeps no_files this_thread. Proof. unfold this_thread. keep. Qed.
#[export] Hint Resolve keeps_read_register keeps_write_register keeps_fresh keeps_this_thread : keeps.
Lemma keeps_set_this f : keeps no_files (set_this f). Proof. unfold set_this. keep. Qed.
Lemma keeps_this_space : keeps no_files this_space. Proof. unfold this_space. keep. Qed.
#[export] Hint Resolve keeps_set_this keeps_this_space : keeps.
Lemma keeps_this_pcb : keeps no_files this_pcb. Proof. unfold this_pcb. keep. Qed.
Lemma keeps_this_as : keeps no_files this_as. Proof. unfold this_as. keep. Qed.
#[export] Hint Resolve keeps_this_pcb keeps_this_as : keeps.

Lemma keeps_on_vm {A} (f : M VM A) : keeps no_files (on_vm f).
Proof.
  unfold on_vm. keep. intros [m s] b w' H. destruct (f _) as [[x v]|]; [|done].
  unfold leave. by intros [= <- <-].
Qed.
#[export] Hint Resolve keeps_on_vm : keeps.

Lemma set_status_fileless v x : fileless x -> fileless (set_status v x).
Proof. done. Qed.
Lemma keeps_set_status v : keeps no_files (upd_this_pcb (set_status v)).
Proof. unfold upd_this_pcb. keep. Qed.
#[export] Hint Resolve keeps_set_status : keeps.

(** ** Computations that never return *)

Definition stops {W A} (I : W -> Prop) (m : M W A) : Prop := forall w r, I w -> m w <> Ok r.

Lemma stops_bind {W A B} (I : W -> Prop) (m : M W A) (f : A -> M W B) :
  keeps I m -> (forall a, stops I (f a)) -> stops I (m ≫= f).
Proof.
  intros Hm Hf w r H. unfold mbind, M_bind. destruct (m w) as [[a w1]|] eqn:E; [|done].
  exact (Hf a w1 r (Hm w a w1 H E)).
Qed.

Lemma stops_bind_l {W A B} (I : W -> Prop) (m : M W A) (f : A -> M W B) : stops I m -> stops I (m ≫= f).
Proof. intros Hm w r H. unfold mbind, M_bind. destruct (m w) eqn:E; [|done]. by destruct (Hm w _ H E). Qed.

Lemma stops_keeps {W A} (I : W -> Prop) (m : M W A) : stops I m -> keeps I m.
Proof. intros Hs w a w' H E. by destruct (Hs w (a, w') H). Qed.

Lemma this_pcb_fileless w p w' : no_files w -> this_pcb w = Ok (p, w') -> w' = w /\ fileless p.
Proof.
  destruct w as [m s]. intros H. unfold this_pcb, this_space, this_thread, with_ptr, pm, get_pcb, zoom, with_ptr.
  cbv [mbind M_bind gets lift sys deref res_bind id fst snd].
  destruct (s_threads s !! s_current s) as [x|]; [|done]. destruct (ut_space x) as [a|]; [|done].
  destruct (s_spaces s !! a) as [sp|]; [|done]. destruct (sp_pcb sp) as [b|]; [|done].
  destruct (pcb_heap (s_pm s) !! b) as [q|] eqn:E; [|done]. intros [= <- <-]. split; [by destruct s|].
  exact (H b q E).
Qed.

Lemma stops_this_pcb {A} (f : PCB -> UM A) : (forall p, fileless p -> stops no_files (f p)) -> stops no_files (this_pcb ≫= f).
Proof.
  intros Hf w r H. unfold mbind, M_bind. destruct (this_pcb w) as [[p w1]|] eqn:E; [|done].
  destruct (this_pcb_fileless w p w1 H E) as [-> Hp]. by apply Hf.
Qed.

Lemma PCB_Add_fails f p : fileless p -> PCB_Add f p = Err MemFault.
Proof. intros [E _]. unfold PCB_Add. by rewrite E. Qed.

Lemma PCB_Remove_find_fails f p : fileless p -> PCB_Remove_find f p = Err MemFault.
Proof. intros [E _]. unfold PCB_Remove_find. change (Z.to_nat MAX_FILES) with 30%nat. cbn [for_break]. by rewrite E. Qed.

Lemma stops_PCB_Remove f : stops no_files (PCB_Remove f).
Proof.
  unfold PCB_Remove. apply stops_this_pcb. intros p Hp. by rewrite (PCB_Remove_find_fails f p Hp).
Qed.

Section Kernel.
Context (garbage : Z) (creatable : list Z -> bool) (fuel : nat).
Context (tick debugger : W -> res W) (ticks : Sys -> Z).

Lemma keeps_PageFault : keeps no_files (PageFault garbage).
Proof. unfold PageFault. keep. Qed.

Lemma keeps_ReadMem_byte arg v : keeps no_files (ReadMem_byte garbage tick debugger ticks arg v).
Proof.
  unfold ReadMem_byte. keep. intros [m s] o w' H. unfold ReadMem.
  destruct (Machine.Translate arg 1 false m) as [[[exc pa] m1]|]; [|done]. cbn [mbind res_bind]. case_decide.
  { destruct (load _ _ _); [|done]. by intros [= <- <-]. }
  unfold RaiseException. destruct (setr _ _ _) as [m2|]; [|done]. cbn [mbind res_bind].
  destruct (DelayedLoad _ _ _) as [m3|]; [|done]. cbn [mbind res_bind].
  destruct (Machine.ExceptionHandler _ _) as [[m4 s4]|] eqn:E; [|done]. intros [= <- <-].
  unfold no_files in *. cbn in *. destruct exc; try done. unfold nested_handler, run_in in E.
  destruct (PageFault garbage _) as [[[] w]|] eqn:EP; [|done]. injection E as ->.
  exact (keeps_PageFault (m3, set_s_status SystemMode s) tt (m4, s4) H EP).
Qed.
#[local] Hint Resolve keeps_PageFault keeps_ReadMem_byte : keeps.

Notation gname := (get_name garbage tick debugger ticks).

Lemma keeps_read_name n position arg v l : keeps no_files (read_name garbage tick debugger ticks n position arg v l).
Proof.
  revert position arg v l. induction n as [|n IH]; intros position arg v l; cbn [read_name]; keep.
Qed.
#[local] Hint Resolve keeps_read_name : keeps.
Lemma keeps_get_name : keeps no_files gname. Proof. unfold get_name. keep. Qed.
Lemma keeps_incrRegs : keeps no_files incrRegs. Proof. unfold incrRegs. keep. Qed.
#[local] Hint Resolve keeps_get_name keeps_incrRegs : keeps.

Lemma keeps_translate_arg a n pa : keeps no_files (translate_arg a n pa).
Proof.
  intros [m s] b w' H. unfold translate_arg. cbn.
  destruct (Machine.Translate _ _ _ _) as [[[exc q] m1]|]; [|done]. by intros [= <- <-].
Qed.
#[local] Hint Resolve keeps_translate_arg : keeps.
Lemma keeps_ReadWrite_in n a size c pa l : keeps no_files (ReadWrite_in n a size c pa l).
Proof. revert a size c pa. induction n as [|n IH]; intros; cbn [ReadWrite_in]; keep. Qed.
Lemma keeps_ReadWrite_out n a size c pa l : keeps no_files (ReadWrite_out n a size c pa l).
Proof. revert a size c pa l. induction n as [|n IH]; intros; cbn [ReadWrite_out]; keep. Qed.
#[local] Hint Resolve keeps_ReadWrite_in keeps_ReadWrite_out : keeps.
Lemma keeps_USER_READ a l n : keeps no_files (USER_READ_copy garbage a l n). Proof. unfold USER_READ_copy. keep. Qed.
Lemma keeps_USER_WRITE a l n : keeps no_files (USER_WRITE_copy garbage a l n). Proof. unfold USER_WRITE_copy. keep. Qed.
Lemma keeps_new_chars n : keeps no_files (new_chars garbage n). Proof. unfold new_chars. keep. Qed.
Lemma keeps_fs_Open name : keeps no_files (fs_Open name). Proof. unfold fs_Open. keep. Qed.
#[local] Hint Resolve keeps_USER_READ keeps_USER_WRITE keeps_new_chars keeps_fs_Open : keeps.

Lemma keeps_myCreate name : keeps no_files (myCreate creatable name).
Proof. unfold myCreate, fs_Create. keep. Qed.

(** PCB::Add follows [files]. *)
Lemma stops_myOpen name : stops no_files (myOpen name).
Proof.
  unfold myOpen. apply stops_bind; [keep|]. intros r. apply stops_bind; [keep|]. intros i.
  apply stops_bind; [keep|]. intros a. apply stops_bind; [keep|]. intros _.
  apply stops_this_pcb. intros p Hp w r' _. by rewrite (PCB_Add_fails (Some a) p Hp).
Qed.

Lemma keeps_my_file id : keeps no_files (my_file id). Proof. unfold my_file. keep. Qed.
Lemma keeps_my_sysfile u id : keeps no_files (my_sysfile u id). Proof. unfold my_sysfile. keep. Qed.
Lemma keeps_unix_ReadAt f n i : keeps no_files (unix_ReadAt f n i). Proof. unfold unix_ReadAt. keep. Qed.
Lemma keeps_unix_WriteAt f l i : keeps no_files (unix_WriteAt f l i). Proof. unfold unix_WriteAt. keep. Qed.
Lemma keeps_getchars n : keeps no_files (getchars n).
Proof. induction n as [|n IH]; cbn [getchars]; keep. Qed.
#[local] Hint Resolve keeps_my_file keeps_my_sysfile keeps_unix_ReadAt keeps_unix_WriteAt keeps_getchars : keeps.
Lemma keeps_read_file n id : keeps no_files (read_file n id). Proof. unfold read_file. keep. Qed.
#[local] Hint Resolve keeps_read_file : keeps.
Lemma keeps_myRead a n id : keeps no_files (myRead garbage a n id). Proof. unfold myRead. keep. Qed.
Lemma keeps_write_file a n id : keeps no_files (write_file garbage a n id). Proof. unfold write_file. keep. Qed.
#[local] Hint Resolve keeps_write_file : keeps.
Lemma keeps_myWrite a n id : keeps no_files (myWrite garbage a n id). Proof. unfold myWrite, printf_s. keep. Qed.
Lemma keeps_myClose id : keeps no_files (myClose id).
Proof. unfold myClose. keep. apply stops_keeps, stops_PCB_Remove. Qed.
#[local] Hint Resolve keeps_myCreate keeps_myRead keeps_myWrite keeps_myClose : keeps.

(** ** Switching and processes *)

Lemma keeps_end_syscall r : keeps no_files (end_syscall r). Proof. unfold end_syscall. keep. Qed.
Lemma keeps_restore_state : keeps no_files restore_state. Proof. unfold restore_state. keep. Qed.
#[local] Hint Resolve keeps_end_syscall keeps_restore_state : keeps.
Lemma keeps_switch_to t : keeps no_files (switch_to t). Proof. unfold switch_to. keep. Qed.
Lemma keeps_set_resume r : keeps no_files (set_resume r). Proof. unfold set_resume. keep. Qed.
Lemma keeps_init_registers : keeps no_files init_registers. Proof. unfold init_registers. keep. Qed.
#[local] Hint Resolve keeps_switch_to keeps_set_resume keeps_init_registers : keeps.
Lemma keeps_after_wait i l : keeps no_files (after_wait i l). Proof. unfold after_wait. keep. Qed.
Lemma keeps_wait_in_join i : keeps no_files (wait_in_join i). Proof. unfold wait_in_join. keep. Qed.
Lemma keeps_end_join i : keeps no_files (end_join i). Proof. unfold end_join. keep. Qed.
#[local] Hint Resolve keeps_after_wait keeps_wait_in_join keeps_end_join : keeps.
Lemma keeps_dispatch n : keeps no_files (dispatch n).
Proof. induction n as [|n IH]; cbn [dispatch]; keep. Qed.
#[local] Hint Resolve keeps_dispatch : keeps.
Lemma keeps_run_next : keeps no_files run_next. Proof. unfold run_next. keep. Qed.
#[local] Hint Resolve keeps_run_next : keeps.
Lemma keeps_yield_then r : keeps no_files (yield_then r). Proof. unfold yield_then. keep. Qed.
Lemma keeps_fork_thread sp r : keeps no_files (fork_thread sp r). Proof. unfold fork_thread. keep. Qed.
#[local] Hint Resolve keeps_yield_then keeps_fork_thread : keeps.
Lemma keeps_myFork a : keeps no_files (myFork a).
Proof. unfold myFork. keep. Qed.
Lemma keeps_new_AddrSpace exe : keeps no_files (new_AddrSpace garbage fuel exe).
Proof. unfold new_AddrSpace. keep. Qed.
#[local] Hint Resolve keeps_myFork keeps_new_AddrSpace : keeps.
Lemma keeps_myExec name : keeps no_files (myExec garbage fuel name).
Proof. unfold myExec. keep. Qed.
Lemma keeps_myJoin i : keeps no_files (myJoin i). Proof. unfold myJoin. keep. Qed.
Lemma keeps_myExit i : keeps no_files (myExit i). Proof. unfold myExit. keep. Qed.
#[local] Hint Resolve keeps_myExec keeps_myJoin keeps_myExit : keeps.

Lemma keeps_Syscall type : keeps no_files (Syscall garbage creatable fuel tick debugger ticks type).
Proof. unfold Syscall, myYield. keep. apply stops_keeps, stops_myOpen. Qed.
#[local] Hint Resolve keeps_Syscall : keeps.

Lemma keeps_ExceptionHandler which : keeps no_files (ExceptionHandler garbage creatable fuel tick debugger ticks which).
Proof. unfold ExceptionHandler. keep. Qed.

Lemma keeps_StartProcess name : keeps no_files (StartProcess garbage fuel name).
Proof. unfold StartProcess. keep. Qed.
End Kernel.

(** ** What the file calls do instead *)

(** ReadWrite out of user memory changes nothing but the page table. *)
Definition same_but_table (w w' : W) : Prop :=
  snd w' = snd w /\ mainMemory (fst w') = mainMemory (fst w) /\ registers (fst w') = registers (fst w).

Lemma keeps_same_translate w0 a n pa : keeps (same_but_table w0) (translate_arg a n pa).
Proof.
  intros [m s] b w' (H1 & H2 & H3). unfold translate_arg. cbn.
  destruct (Machine.Translate _ _ _ _) as [[[exc q] m1]|] eqn:E; [|done]. intros [= _ <-].
  destruct (Translate_same _ _ _ _ _ _ _ E) as [E1 E2]. cbn in *. split; [done|]. cbn. by rewrite E1, E2.
Qed.
#[export] Hint Resolve keeps_same_translate : keeps.

Lemma keeps_same_ReadWrite_out w0 n a size c pa l : keeps (same_but_table w0) (ReadWrite_out n a size c pa l).
Proof. revert a size c pa l. induction n as [|n IH]; intros; cbn [ReadWrite_out]; keep. Qed.
#[export] Hint Resolve keeps_same_ReadWrite_out : keeps.

Lemma getFile_fileless h id p : fileless p -> getFile h id p = Ok None.
Proof. intros [_ E]. unfold getFile. by rewrite E. Qed.

Lemma my_file_None w p id : no_files w -> this_pcb w = Ok (p, w) -> my_file id w = Ok (None, w).
Proof.
  intros H E. destruct (this_pcb_fileless w p w H E) as [_ Hp]. unfold my_file, mbind, M_bind. rewrite E.
  unfold sys, gets, lift. by rewrite getFile_fileless.
Qed.

(** The process that runs has a pcb after the copy, too. *)
Lemma this_pcb_snd w w' p : this_pcb w = Ok (p, w) -> snd w' = snd w -> this_pcb w' = Ok (p, w').
Proof.
  destruct w as [m s], w' as [m' s']. cbn. intros E ->. revert E.
  unfold this_pcb, this_space, this_thread, with_ptr, pm, get_pcb, zoom, with_ptr.
  cbv [mbind M_bind gets lift sys deref res_bind id fst snd].
  destruct (s_threads s !! s_current s) as [x|]; [|done]. destruct (ut_space x) as [a|]; [|done].
  destruct (s_spaces s !! a) as [sp|]; [|done]. destruct (sp_pcb sp) as [b|]; [|done].
  destruct (pcb_heap (s_pm s) !! b) as [q|] eqn:E; [|done]. intros [= -> _]. by destruct s.
Qed.

Lemma myRead_None garbage a n id w p : no_files w -> this_pcb w = Ok (p, w) -> id <> ConsoleInput -> 0 <= s32 (n + 1) ->
  myRead garbage a n id w = Ok (-1, w).
Proof.
  intros H E Hid Hn. unfold myRead, new_chars, assert. rewrite ASSERT_true by by apply Z.leb_le.
  rewrite (proj2 (Z.eqb_neq id ConsoleInput)) by done. unfold read_file.
  cbv [mbind M_bind lift ret]. by rewrite (my_file_None w p id H E).
Qed.

Lemma myClose_None id w p : no_files w -> this_pcb w = Ok (p, w) -> myClose id w = Ok (tt, w).
Proof. intros H E. unfold myClose, mbind, M_bind. by rewrite (my_file_None w p id H E). Qed.

Lemma myWrite_None garbage a n id w p w' : no_files w -> this_pcb w = Ok (p, w) -> id <> ConsoleOutput ->
  myWrite garbage a n id w = Ok (tt, w') -> same_but_table w w'.
Proof.
  intros H E Hid. assert (Hk : keeps (same_but_table w) (myWrite garbage a n id)); [|by apply Hk].
  unfold myWrite, write_file, USER_WRITE_copy, new_chars. rewrite (proj2 (Z.eqb_neq id ConsoleOutput)) by done.
  do 4 (apply keeps_bind; [keep|]; intros ?).
  intros v u v' Hv. destruct (Hv) as (Es & _). unfold mbind, M_bind.
  rewrite (my_file_None v p id); [by intros [= <- <-]| |by apply (this_pcb_snd w)].
  unfold no_files. by rewrite Es.
Qed.

(** ** The property *)


Lemma example_no_files : no_files (example_m, example_s).
Proof. intros a p. cbn. intros [[_ <-]|[_ [=]]]%lookup_insert_Some. by split. Qed.

