(* ===== verification/MachineTypes.v ===== *)
(** * The simulated machine keeps its types

    Whatever the kernel does, even when it fails, a machine that goes on
    has the right shape: 8 KB of bytes, 40 registers that hold 32-bit
    integers.  Unlike the safety theorem of Mips.v this needs nothing of the
    page tables and allows a kernel that can fail in any way, so that the
    real kernel of Syscall.v can be put in (KernelTypes.v). *)

From stdpp Require Import base list numbers.
From S2P Require Import Prelude Arrays Machine Mips.

(** ** Results of computations that may fail *)

Definition yields {A} (Q : A -> Prop) (r : res A) : Prop := forall a, r = Ok a -> Q a.

Lemma yields_Ok {A} (Q : A -> Prop) a : Q a -> yields Q (Ok a).
Proof. by intros H b [= <-]. Qed.

Lemma yields_Err {A} (Q : A -> Prop) e : yields Q (Err e).
Proof. by intros b [=]. Qed.

Lemma yields_bind {A B} (P : A -> Prop) (Q : B -> Prop) (r : res A) (f : A -> res B) :
  yields P r -> (forall a, P a -> yields Q (f a)) -> yields Q (r ≫= f).
Proof. destruct r as [a|e]; intros Hr Hf b H; [|done]. exact (Hf a (Hr a eq_refl) b H). Qed.

Lemma yields_mono {A} (P Q : A -> Prop) (r : res A) :
  yields P r -> (forall a, P a -> Q a) -> yields Q r.
Proof. intros H Himp a E. auto. Qed.

Lemma yields_True {A} (r : res A) : yields (fun _ => True) r.
Proof. done. Qed.

(** ** Well-typed machines *)

Definition memory_typed (mem : list Z) : Prop := zlen mem = MemorySize /\ Forall in_u8 mem.
Definition registers_typed (regs : list Z) : Prop := zlen regs = NumTotalRegs /\ Forall in_s32 regs.

Record typed (m : Machine) : Prop := {
  ty_memory : memory_typed (mainMemory m);
  ty_registers : registers_typed (registers m)
}.

(** Between instructions register 0 holds 0. *)
Definition typed0 (m : Machine) : Prop := typed m /\ aget (registers m) 0 = Ok 0.

Lemma aget_yields {A} (P : A -> Prop) l i : Forall P l -> yields P (aget l i).
Proof. intros H x E. apply aget_Ok_inv in E as [_ E]. by eapply Forall_lookup_1. Qed.

Lemma aset_yields {A} (P : A -> Prop) (l : list A) i x :
  Forall P l -> P x -> yields (fun l' => zlen l' = zlen l /\ Forall P l') (aset l i x).
Proof.
  intros Hl Hx l' E. apply aset_Ok_inv in E as [_ ->]. rewrite zlen_insert. split; [done|].
  by apply Forall_insert.
Qed.

Lemma bwrite_yields (bytes l : list Z) off :
  Forall in_u8 l -> Forall in_u8 bytes -> yields (fun l' => zlen l' = zlen l /\ Forall in_u8 l') (bwrite off bytes l).
Proof.
  intros Hl Hb l'. unfold bwrite. destruct (_ && _) eqn:E; [|done]. intros [= <-].
  apply andb_true_iff in E as [E1 E2]. apply Z.leb_le in E1, E2.
  rewrite zlen_splice by done. split; [done|]. by apply Forall_splice.
Qed.

Lemma bread_yields (l : list Z) off n :
  Forall in_u8 l -> yields (fun b => zlen b = n /\ Forall in_u8 b) (bread off n l).
Proof.
  intros Hl b. unfold bread. destruct (_ && _ && _) eqn:E; [|done]. intros [= <-].
  apply andb_true_iff in E as [E E3]. apply andb_true_iff in E as [E1 E2]. apply Z.leb_le in E1, E2, E3.
  split; [by apply zlen_slice|by apply Forall_slice].
Qed.

Lemma getr_yields i m : typed m -> yields in_s32 (getr i m).
Proof. intros Hm. apply aget_yields, Hm. Qed.

Lemma setr_yields i v m : typed m -> in_s32 v -> yields typed (setr i v m).
Proof.
  intros [Hm [Hl Hr]] Hv. unfold setr. eapply yields_bind; [by apply (aset_yields in_s32)|].
  intros regs [E H]. apply yields_Ok. split; [done|]. split; [cbn; congruence|done].
Qed.

(** Register 0 after a store into a register. *)
Lemma setr_zero i v m : typed0 m -> in_s32 v -> 0 < i \/ v = 0 -> yields typed0 (setr i v m).
Proof.
  intros [Hm H0] Hv Hi m' E. split; [exact (setr_yields i v m Hm Hv m' E)|]. revert E. unfold setr.
  destruct (aset _ _ _) as [regs|] eqn:Ea; [|done]. intros [= <-]. cbn [registers set_registers].
  apply aset_Ok_inv in Ea as [Hr ->]. destruct (decide (i = 0)) as [->|Hne].
  - rewrite aget_insert_eq by done. f_equal. lia.
  - rewrite aget_insert_ne by lia. done.
Qed.

Lemma DelayedLoad_yields r v m : typed m -> in_s32 r -> in_s32 v -> yields typed0 (DelayedLoad r v m).
Proof.
  intros Hm Hr Hv. unfold DelayedLoad.
  eapply yields_bind; [by apply getr_yields|]. intros lr _.
  eapply yields_bind; [by apply getr_yields|]. intros lv Hlv.
  eapply yields_bind; [by apply setr_yields|]. intros m1 H1.
  eapply yields_bind; [by apply setr_yields|]. intros m2 H2.
  eapply yields_bind; [by apply setr_yields|]. intros m3 H3 m4 E.
  assert (H0 : in_s32 0) by (unfold in_s32; lia).
  split; [exact (setr_yields 0 0 m3 H3 H0 m4 E)|]. revert E. unfold setr.
  destruct (aset _ _ _) as [regs|] eqn:Ea; [|done]. intros [= <-].
  apply aset_Ok_inv in Ea as [Hrg ->]. by apply aget_insert_eq.
Qed.

Lemma same_typed m m' : mainMemory m' = mainMemory m -> registers m' = registers m -> typed m -> typed m'.
Proof. intros E1 E2 [H1 H2]. split; congruence. Qed.

Lemma load_yields size pa mem : Forall in_u8 mem -> yields in_s32 (load size pa mem).
Proof.
  intros Hm. unfold load. destruct (size =? 1).
  { eapply yields_bind; [apply yields_True|]. intros b _. apply yields_Ok, s8_range. }
  destruct (size =? 2).
  { eapply yields_bind; [by apply bread_yields|]. intros bs [Hz Hb]. apply yields_Ok.
    pose proof (le_val_range bs Hb) as Hr. rewrite Hz in Hr. unfold ShortToHost, in_s32. lia. }
  destruct (size =? 4); [|apply yields_Err].
  eapply yields_bind; [apply yields_True|]. intros b _. apply yields_Ok, s32_range.
Qed.

Lemma store_yields size pa v mem : memory_typed mem -> yields memory_typed (store size pa v mem).
Proof.
  intros [Hz Hm]. unfold store.
  assert (Hw : forall bytes, Forall in_u8 bytes -> yields memory_typed (bwrite pa bytes mem)).
  { intros bytes Hb. eapply yields_mono; [by apply bwrite_yields|]. intros l [E H]. split; [congruence|done]. }
  destruct (size =? 1).
  { eapply yields_mono; [apply (aset_yields in_u8); [done|]|].
    - change 255 with (Z.ones 8). rewrite Z.land_ones by lia. apply Z.mod_pos_bound. lia.
    - intros l [E H]. split; [congruence|done]. }
  destruct (size =? 2); [apply Hw, le_bytes_in_u8|].
  destruct (size =? 4); [apply Hw, le_bytes_in_u8|apply yields_Err].
Qed.

(** ** What the kernel has to promise

    [I] is its own invariant. *)
Class KernelTypes (K : Type) `{!KernelEntry K} (I : K -> Prop) := {
  setStatus_types st k : I k -> I (setStatus st k);
  handler_types exc m k : typed0 m -> I k ->
    yields (fun w : Machine * K => typed0 (fst w) /\ I (snd w)) (ExceptionHandler exc (m, k));
  OneTick_types m k : typed0 m -> I k ->
    yields (fun w : Machine * K => typed0 (fst w) /\ I (snd w)) (OneTick (m, k));
  Debugger_types m k : typed0 m -> I k ->
    yields (fun w : Machine * K => typed0 (fst w) /\ I (snd w)) (Debugger (m, k))
}.

Section Types.
Context {K : Type} `{!KernelEntry K} (I : K -> Prop) `{!KernelTypes K I}.
Implicit Types (w : Machine * K).

Definition wt w : Prop := typed (fst w) /\ I (snd w).
Definition wt0 w : Prop := typed0 (fst w) /\ I (snd w).

Lemma wt0_wt w : wt0 w -> wt w.
Proof. by intros [[] ?]. Qed.

Lemma RaiseException_yields exc a w : wt w -> in_s32 a -> yields wt0 (RaiseException exc a w).
Proof.
  destruct w as [m k]. intros [Hm Hk] Ha. unfold RaiseException.
  eapply yields_bind; [by apply setr_yields|]. intros m1 H1.
  eapply yields_bind; [apply DelayedLoad_yields; [done|unfold in_s32; lia..]|]. intros m2 H2.
  eapply yields_bind; [apply handler_types; [done|by apply setStatus_types]|].
  intros [m3 k3] [H3 Hk3]. apply yields_Ok. split; [done|]. by apply setStatus_types.
Qed.

Lemma ReadMem_yields a size w : wt w -> in_s32 a ->
  yields (fun r => match r with
                   | (Some v, w') => wt w' /\ in_s32 v /\ registers (fst w') = registers (fst w)
                   | (None, w') => wt0 w'
                   end) (ReadMem a size w).
Proof.
  destruct w as [m k]. intros [Hm Hk] Ha. unfold ReadMem.
  destruct (Translate a size false m) as [[[exc pa] m']|] eqn:Et; [|apply yields_Err]. cbn [mbind res_bind].
  destruct (Translate_same _ _ _ _ _ _ _ Et) as [E1 E2]. pose proof (same_typed m m' E1 E2 Hm) as Hm'.
  case_decide.
  - eapply yields_bind; [apply load_yields, Hm'|]. intros v Hv. by apply yields_Ok.
  - eapply yields_bind; [by apply RaiseException_yields|]. intros w' Hw'. by apply yields_Ok.
Qed.

Lemma WriteMem_yields a size v w : wt w -> in_s32 a ->
  yields (fun r : bool * (Machine * K) => let '(ok, w') := r in if ok then wt w' else wt0 w') (WriteMem a size v w).
Proof.
  destruct w as [m k]. intros [Hm Hk] Ha. unfold WriteMem.
  destruct (Translate a size true m) as [[[exc pa] m']|] eqn:Et; [|apply yields_Err]. cbn [mbind res_bind].
  destruct (Translate_same _ _ _ _ _ _ _ Et) as [E1 E2]. pose proof (same_typed m m' E1 E2 Hm) as Hm'.
  case_decide.
  - eapply yields_bind; [apply store_yields, Hm'|]. intros mem Hmem. apply yields_Ok. split; [|done].
    split; [done|]. apply Hm'.
  - eapply yields_bind; [by apply RaiseException_yields|]. intros w' Hw'. by apply yields_Ok.
Qed.

(** ** The cases of OneInstruction *)

Definition out_typed (o : outcome (K:=K)) : Prop :=
  match o with
  | Break w pcAfter lr lv => wt w /\ in_s32 pcAfter /\ in_s32 lr /\ in_s32 lv
  | Return w => wt0 w
  end.

Lemma Break_yields w pc lr lv : wt w -> in_s32 pc -> in_s32 lr -> in_s32 lv -> yields out_typed (Ok (Break w pc lr lv)).
Proof. intros. by apply yields_Ok. Qed.

Lemma assign_yields i v w pc : wt w -> in_s32 v -> in_s32 pc -> yields out_typed (assign i v w pc).
Proof.
  intros [Hm Hk] Hv Hp. unfold assign. eapply yields_bind; [by apply setr_yields|]. intros m H.
  apply Break_yields; [by split|done|unfold in_s32; lia..].
Qed.

Lemma raise_yields exc a w : wt w -> in_s32 a -> yields out_typed (raise exc a w).
Proof.
  intros Hw Ha. unfold raise. eapply yields_bind; [by apply RaiseException_yields|]. intros w' H. by apply yields_Ok.
Qed.

Lemma link_yields i w : wt w -> yields wt (link i w).
Proof.
  intros [Hm Hk]. unfold link. eapply yields_bind; [by apply getr_yields|]. intros npc _.
  eapply yields_bind; [apply setr_yields; [done|apply s32_range]|]. intros m H. apply yields_Ok. by split.
Qed.

(** A step of the symbolic execution of a case. *)
Ltac range :=
  solve [ assumption | apply s32_range | apply in_s32_bool
        | lazymatch goal with
          | |- in_s32 (if ?b then _ else _) => destruct b; range
          | |- in_s32 (Z.shiftr _ (Z.land _ 31)) => apply (in_s32_shr_ones _ _ 31 5); [reflexivity|lia|assumption]
          | |- in_s32 (Z.land _ (Zpos _)) => apply in_s32_land_nonneg; lia
          | |- in_s32 (Z.lor _ _) => apply in_s32_lor; range
          | |- in_s32 (Z.land _ _) => apply in_s32_land; range
          | |- in_s32 (Z.lxor _ _) => apply in_s32_lxor; range
          | |- in_s32 (Z.lnot _) => apply in_s32_lnot; range
          | |- in_s32 _ => unfold in_s32; lia
          | |- wt _ => split; assumption
          end ].

Ltac exec :=
  lazymatch goal with
  | |- yields _ (getr _ _ ≫= _) =>
      eapply yields_bind; [apply getr_yields; assumption|]; let v := fresh "v" in intros v ?
  | |- yields _ (setr _ _ _ ≫= _) =>
      eapply yields_bind; [apply setr_yields; [assumption|range]|]; let m := fresh "m" in intros m ?
  | |- yields _ (effective _ _ ≫= _) =>
      eapply (yields_bind in_s32); [unfold effective; exec; apply yields_Ok, s32_range|]; let v := fresh "tmp" in intros v ?
  | |- yields _ (link _ ?w ≫= _) =>
      eapply yields_bind; [apply link_yields; range|];
      let w' := fresh "w" in let H1 := fresh in let H2 := fresh in intros w' [H1 H2]
  | |- yields _ (ASSERT _ ≫= _) => eapply yields_bind; [apply yields_True|]; intros _ _
  | |- yields _ (assign _ _ _ _) => apply assign_yields; range
  | |- yields _ (raise _ _ _) => apply raise_yields; range
  | |- yields _ (Err _) => apply yields_Err
  | |- yields _ (Ok (Break _ _ _ _)) => apply Break_yields; range
  | |- yields _ (if ?b then _ else _) => destruct b eqn:?
  end.

Definition case_typed (exec_case : Instruction -> Z -> Machine * K -> res (outcome (K:=K))) : Prop :=
  forall instr pc w, wf_instr instr -> wt w -> in_s32 pc -> yields out_typed (exec_case instr pc w).

Ltac start := intros instr pc w [Hrs Hrt Hrd Hex Hsh] [Hm Hk] Hpc;
  assert (Hrt32 : in_s32 (rt instr)) by (unfold in_s32; lia).

Lemma exec_add_and_typed : case_typed exec_add_and.
Proof. start. unfold exec_add_and. destruct (opCode instr); cbv beta iota zeta; repeat exec. Qed.

Lemma exec_branch_typed : case_typed exec_branch.
Proof. start. unfold exec_branch, branch_to. destruct (opCode instr); cbv beta iota zeta; repeat exec. Qed.

Lemma set_lo_hi_typed lo hi w pc : wt w -> in_s32 lo -> in_s32 hi -> in_s32 pc -> yields out_typed (set_lo_hi lo hi w pc).
Proof. intros [Hm Hk] ???. unfold set_lo_hi. repeat exec. Qed.

Lemma exec_div_typed : case_typed exec_div.
Proof.
  start. unfold exec_div. destruct (opCode instr); cbv beta iota zeta; try apply yields_Err.
  - exec. destruct (Z.eqb_spec v 0); [apply set_lo_hi_typed; range|]. exec. exec; [exec|].
    eapply yields_bind; [apply setr_yields; [done|by apply in_s32_quot]|]. intros m ?. do 2 exec.
    eapply yields_bind; [apply setr_yields; [done|by apply in_s32_rem]|]. intros m' ?. exec.
  - do 2 exec. exec; apply set_lo_hi_typed; range.
Qed.

Lemma exec_jump_typed : case_typed exec_jump.
Proof. start. unfold exec_jump. destruct (opCode instr); cbv beta iota zeta; repeat exec. Qed.

(** Going on after a successful access; a failed one has returned. *)
Lemma read_then_typed a size w (f : Z -> Machine * K -> res (outcome (K:=K))) :
  wt w -> in_s32 a -> (forall v w', typed (fst w') -> I (snd w') -> in_s32 v -> yields out_typed (f v w')) ->
  yields out_typed (r ← ReadMem a size w; match r with (None, w') => Ok (Return w') | (Some v, w') => f v w' end).
Proof.
  intros Hw Ha Hf. eapply yields_bind; [by apply ReadMem_yields|]. intros [[v|] w'].
  - intros ([H1 H2] & Hv & _). by apply Hf.
  - intros H. by apply yields_Ok.
Qed.

Lemma write_then_typed a size v w pc : wt w -> in_s32 a -> in_s32 pc ->
  yields out_typed (r ← WriteMem a size v w; let '(ok, w') := r in
    Ok (if (ok : bool) then Break w' pc 0 0 else Return w')).
Proof.
  intros Hw Ha Hp. eapply yields_bind; [by apply WriteMem_yields|]. intros [[] w'] H.
  - apply Break_yields; [done|done|unfold in_s32; lia..].
  - by apply yields_Ok.
Qed.

Lemma exec_load_typed : case_typed exec_load.
Proof.
  start. unfold exec_load. destruct (opCode instr); cbv beta iota zeta; try apply yields_Err.
  all: try (exec; apply read_then_typed; [range|done|]; intros; exec).
  all: try (exec; exec; [exec|]; apply read_then_typed; [range|done|]; intros; exec).
  exec.
Qed.

Lemma pending_value_typed r m : typed m -> yields in_s32 (pending_value r m).
Proof. intros Hm. unfold pending_value. exec. destruct (_ =? _); by apply getr_yields. Qed.

Lemma exec_unaligned_load_typed : case_typed exec_unaligned_load.
Proof.
  start. unfold exec_unaligned_load. exec. exec. apply read_then_typed; [range|done|]. intros v w' Hw' Hk' Hv.
  eapply yields_bind; [by apply pending_value_typed|]. intros old Hold.
  pose proof (merge_LWL_range tmp v old Hv). pose proof (merge_LWR_range tmp v old Hv).
  destruct (opCode instr); exec.
Qed.

Lemma exec_hilo_logic_typed : case_typed exec_hilo_logic.
Proof.
  start. unfold exec_hilo_logic. destruct (opCode instr); cbv beta iota zeta; try apply yields_Err.
  all: try (repeat exec; fail).
  all: do 2 exec; match goal with |- context [Mult ?a ?b ?s] =>
         destruct (Mult_range a b s); destruct (Mult a b s) end; cbn in *; repeat exec.
Qed.

Lemma exec_store_typed : case_typed exec_store.
Proof.
  start. unfold exec_store, store_rt. destruct (opCode instr); try apply yields_Err.
  all: exec; exec; apply write_then_typed; range.
Qed.

Lemma exec_shift_set_typed : case_typed exec_shift_set.
Proof.
  start. unfold exec_shift_set. destruct (opCode instr); cbv beta iota zeta; try apply yields_Err.
  all: try (repeat exec; fail).
  all: exec; apply assign_yields; [range| |done]; apply in_s32_shr; [done|apply Hsh; reflexivity].
Qed.

Lemma exec_sub_typed : case_typed exec_sub.
Proof. start. unfold exec_sub. exec. exec. destruct (opCode instr); cbv beta iota zeta; repeat exec. Qed.

Lemma exec_unaligned_store_typed : case_typed exec_unaligned_store.
Proof.
  start. unfold exec_unaligned_store. exec. exec.
  assert (in_s32 (Z.land tmp (Z.lnot 3))).
  { apply in_s32_land; [done|]. change (in_s32 (-4)). unfold in_s32. lia. }
  apply read_then_typed; [range|done|]. intros v w' Hw' Hk' Hv. exec. apply write_then_typed; range.
Qed.

Lemma exec_trap_xor_typed : case_typed exec_trap_xor.
Proof. start. unfold exec_trap_xor. destruct (opCode instr); cbv beta iota zeta; repeat exec. Qed.

Lemma execute_typed : case_typed execute.
Proof.
  intros instr pc w Hi Hw Hpc. unfold execute.
  destruct (opCode instr); (apply yields_Err) ||
    (first [ by apply exec_add_and_typed | by apply exec_branch_typed | by apply exec_div_typed
           | by apply exec_jump_typed | by apply exec_load_typed
           | by apply exec_unaligned_load_typed | by apply exec_hilo_logic_typed
           | by apply exec_store_typed | by apply exec_shift_set_typed | by apply exec_sub_typed
           | by apply exec_unaligned_store_typed | by apply exec_trap_xor_typed ]).
Qed.

Lemma finish_typed m pc lr lv : typed m -> in_s32 pc -> in_s32 lr -> in_s32 lv -> yields typed0 (finish m pc lr lv).
Proof.
  intros Hm Hpc Hlr Hlv. unfold finish. eapply yields_bind; [by apply DelayedLoad_yields|]. intros m1 H1.
  eapply yields_bind; [apply getr_yields, H1|]. intros pc0 Hpc0.
  eapply yields_bind; [apply setr_zero; [done|done|by left]|]. intros m2 H2.
  eapply yields_bind; [apply getr_yields, H2|]. intros npc Hnpc.
  eapply yields_bind; [apply setr_zero; [done|done|by left]|]. intros m3 H3.
  apply setr_zero; [done|done|by left].
Qed.

Lemma OneInstruction_typed w : wt0 w -> yields wt0 (OneInstruction w).
Proof.
  intros Hw. pose proof (wt0_wt w Hw) as Hw'. unfold OneInstruction.
  eapply yields_bind; [apply getr_yields, Hw'|]. intros pc Hpc.
  eapply yields_bind; [by apply ReadMem_yields|]. intros [[raw|] w1]; [|intros H; by apply yields_Ok].
  intros [H1 _]. destruct (Decode_wf (u32 raw)) as (instr & Hd & Hi & _). rewrite Hd. cbn [mbind res_bind].
  eapply yields_bind; [apply getr_yields, H1|]. intros npc _.
  eapply yields_bind; [apply execute_typed; [done|done|apply s32_range]|].
  intros [[m k] pcA lr lv|w2]; cbn [out_typed]; [|intros H; by apply yields_Ok].
  intros ([Hm Hk] & Hp & Hlr & Hlv). eapply yields_bind; [by apply finish_typed|].
  intros m' Hm'. apply yields_Ok. by split.
Qed.

Lemma Run_typed n w : wt0 w -> yields wt0 (Run n w).
Proof.
  intros [Hm Hk]. unfold Run. assert (Hw : wt0 (fst w, setStatus UserMode (snd w))) by (split; [done|by apply setStatus_types]).
  revert Hw. generalize (fst w, setStatus UserMode (snd w)). clear w Hm Hk.
  induction n as [|n IH]; intros w Hw; cbn [Run_loop]; [by apply yields_Ok|].
  eapply yields_bind; [by apply OneInstruction_typed|]. intros [m1 k1] [H1 K1].
  eapply yields_bind; [by apply OneTick_types|]. intros [m2 k2] [H2 K2].
  eapply (yields_bind wt0); [|intros w3 H3; by apply IH].
  destruct (_ && _); [by apply Debugger_types|by apply yields_Ok].
Qed.
End Types.
