(* ===== verification/KernelTypes.v ===== *)
(** * User programs and the kernel keep their types

    The kernel of Syscall.v under the simulator of Mips.v: main memory and
    the files of the kernel hold bytes, registers, saved registers, process
    numbers and results of system calls are 32-bit integers, register 0 is
    0 between instructions.  Every exception and every turn of
    [Machine::Run] that returns keeps this. *)

From stdpp Require Import base list numbers gmap.
From S2P Require Import Prelude Arrays State Bitmap Disk Machine Mips Lru Vm Loader Paging Process Syscall.
From S2P Require Import SyscallSafe MachineTypes.

(** ** Typed computations *)

Definition computes {W A} (I : W -> Prop) (P : A -> Prop) (m : M W A) : Prop :=
  forall w, I w -> yields (fun r => P (fst r) /\ I (snd r)) (m w).

Section Computes.
Context {W : Type} (I : W -> Prop).

Lemma computes_ret {A} (P : A -> Prop) a : P a -> computes I P (ret a).
Proof. intros H w Hw. by apply yields_Ok. Qed.

Lemma computes_fail {A} (P : A -> Prop) e : computes I P (fail e).
Proof. intros w Hw. apply yields_Err. Qed.

Lemma computes_bind {A B} (P : A -> Prop) (Q : B -> Prop) (m : M W A) (f : A -> M W B) :
  computes I P m -> (forall a, P a -> computes I Q (f a)) -> computes I Q (m ≫= f).
Proof.
  intros Hm Hf w Hw r. unfold mbind, M_bind. destruct (m w) as [[a w1]|] eqn:E; [|done].
  destruct (Hm w Hw _ E) as [Ha H1]. exact (Hf a Ha w1 H1 r).
Qed.

Lemma computes_mono {A} (P Q : A -> Prop) (m : M W A) :
  computes I P m -> (forall a, P a -> Q a) -> computes I Q m.
Proof. intros Hm H w Hw. eapply yields_mono; [by apply Hm|]. intros r [HP HI]. auto. Qed.

Lemma computes_lift {A} (P : A -> Prop) (r : res A) : yields P r -> computes I P (lift r).
Proof. intros H w Hw. unfold lift. destruct r as [a|]; [apply yields_Ok|apply yields_Err]. auto. Qed.

Lemma computes_gets {A} (P : A -> Prop) (f : W -> A) : (forall w, I w -> P (f w)) -> computes I P (gets f).
Proof. intros H w Hw. apply yields_Ok. split; [by apply H|done]. Qed.

Lemma computes_modify f : (forall w, I w -> I (f w)) -> computes I (fun _ => True) (modify f).
Proof. intros H w Hw. apply yields_Ok. split; [done|by apply H]. Qed.

Lemma computes_forM n i body : (forall j, computes I (fun _ => True) (body j)) -> computes I (fun _ => True) (forM n i body).
Proof.
  intros Hb. revert i. induction n as [|n IH]; intros i; cbn [forM]; [by apply computes_ret|].
  eapply computes_bind; [apply Hb|]. intros ? _. apply IH.
Qed.
End Computes.

Lemma computes_zoom {V W A} (I : W -> Prop) (J : V -> Prop) (P : A -> Prop) (get : W -> V) put (m : M V A) :
  (forall w, I w -> J (get w)) -> (forall v w, I w -> J v -> I (put v w)) -> computes J P m -> computes I P (zoom get put m).
Proof.
  intros Hg Hp Hm w Hw r. unfold zoom. destruct (m (get w)) as [[b v]|] eqn:E; [|done].
  intros [= <-]. destruct (Hm (get w) (Hg w Hw) _ E) as [HP HJ]. split; [done|]. by apply Hp.
Qed.

(** Goes through a computation: the operations it calls are in the hint
    database [types], with what their results satisfy. *)
Create HintDb types.
#[export] Hint Constants Opaque : types.
Ltac known := solve [eauto 4 with types].
Ltac ty_step :=
  lazymatch goal with
  | |- forall _, _ => let x := fresh in intros x; cbv beta in x
  | |- computes _ _ (_ ≫= _) =>
      first [ eapply computes_bind; [known|]
            | eapply (computes_bind _ (fun _ => True)) ]
  | |- computes _ _ (ret _) => apply computes_ret; try known; try done
  | |- computes _ _ (fail _) => apply computes_fail
  | |- computes _ _ (lift _) => apply computes_lift; first [apply yields_True | known]
  | |- computes _ _ (assert _) => apply computes_lift, yields_True
  | |- computes _ _ (gets _) => apply computes_gets; done
  | |- computes _ _ (forM _ _ _) => apply computes_forM
  | |- computes _ _ (let '(_, _) := ?p in _) => destruct p
  | |- computes _ _ (match ?x with _ => _ end) => destruct x
  | |- _ => first [known | eapply computes_mono; [known|done]]
  end.
Ltac ty := repeat ty_step.

Notation bytes := (Forall in_u8).

Lemma bytes_replicate n x : in_u8 x -> bytes (replicate n x).
Proof. apply Forall_replicate. Qed.
Lemma bytes_nil : bytes [].
Proof. constructor. Qed.
Lemma byte_mod x : in_u8 (x mod 256).
Proof. unfold in_u8. pose proof (Z.mod_pos_bound x 256). lia. Qed.
Lemma bytes_bwrite off l b : bytes l -> bytes b -> yields bytes (bwrite off b l).
Proof. intros. eapply yields_mono; [by apply bwrite_yields|]. by intros ? []. Qed.
Lemma bytes_bread off n l : bytes l -> yields bytes (bread off n l).
Proof. intros. eapply yields_mono; [by apply bread_yields|]. by intros ? []. Qed.
#[export] Hint Resolve bytes_replicate bytes_nil byte_mod bytes_bwrite bytes_bread : types.
#[export] Hint Resolve computes_lift s32_range : types.

(** ** UNIX files *)

Lemma stub_ReadAt_bytes n pos f : bytes f -> yields (fun l => bytes l /\ zlen l <= Z.max 0 n) (stub_ReadAt n pos f).
Proof.
  intros Hf. unfold stub_ReadAt. eapply yields_bind; [apply yields_True|]. intros _ _. apply yields_Ok.
  split; [by apply Forall_slice|]. unfold slice, zlen. rewrite length_take. lia.
Qed.

Lemma stub_WriteAt_bytes from pos f : bytes f -> bytes from -> yields bytes (stub_WriteAt from pos f).
Proof.
  intros Hf Hb. unfold stub_WriteAt, file_write. eapply yields_bind; [apply yields_True|]. intros _ _.
  apply bytes_bwrite; [|done]. apply Forall_app. split; [done|]. apply bytes_replicate. unfold in_u8. lia.
Qed.
#[export] Hint Resolve stub_WriteAt_bytes : types.

(** ** The paging code

    [len]: the size of main memory does not change. *)

Record vm_typed (len : Z) (v : VM) : Prop := {
  vt_len : zlen (memory v) = len;
  vt_memory : bytes (memory v);
  vt_swap : bytes (swapFile (swapMgr v));
  vt_buffer : bytes (diskBuffer v)
}.

Section Paging.
Context (len : Z).
Notation T := (computes (vm_typed len)).
Notation ok := (fun _ => True).

Lemma ty_get_entry p : T ok (get_entry p).
Proof. intros w Hw. unfold get_entry. eapply yields_bind; [apply yields_True|]. intros e _. by apply yields_Ok. Qed.

Lemma ty_upd_entry p f : T ok (upd_entry p f).
Proof.
  intros w Hw r. unfold upd_entry, store_entry. intros E. invert_res. split; [done|]. by destruct Hw.
Qed.

Lemma ty_write_memory a b : bytes b -> T ok (write_memory a b).
Proof.
  intros Hb w Hw r. unfold write_memory, gets, lift, modify, mbind, M_bind.
  destruct (bwrite a b (memory w)) as [m|] eqn:E; [|done]. intros [= <-]. split; [done|].
  destruct (bwrite_yields b (memory w) a (vt_memory _ _ Hw) Hb m E) as [Hz Hm]. destruct Hw.
  split; cbn; [congruence|done..].
Qed.

Lemma ty_read_memory a n : T bytes (read_memory a n).
Proof.
  unfold read_memory. eapply (computes_bind _ bytes); [apply computes_gets; intros w Hw; apply Hw|].
  intros m Hm. apply computes_lift. by apply bytes_bread.
Qed.

Lemma ty_with_mem {A} (f : MemoryManager -> res (A * MemoryManager)) : T ok (with_mem f).
Proof. apply (computes_zoom _ (fun _ => True)); [done|by intros v w []|]. intros m _ r E. done. Qed.

Lemma ty_with_policy f : T ok (with_policy f).
Proof. apply (computes_zoom _ (fun _ => True)); [done|by intros v w []|]. intros m _ r E. done. Qed.

Lemma ty_swapFile : T (fun s => bytes (swapFile s)) (gets swapMgr).
Proof. apply computes_gets. intros w Hw. apply Hw. Qed.

Lemma ty_set_swap s : bytes (swapFile s) -> T ok (modify (set_swapMgr s)).
Proof. intros Hs. apply computes_modify. by intros w []. Qed.

Lemma ty_swap_ReadAt n pos : T bytes (swap_ReadAt n pos).
Proof.
  unfold swap_ReadAt. eapply computes_bind; [apply ty_swapFile|]. intros s Hs. apply computes_lift.
  eapply yields_mono; [by apply stub_ReadAt_bytes|]. by intros l [].
Qed.

Lemma ty_swap_WriteAt b pos : bytes b -> T ok (swap_WriteAt b pos).
Proof.
  intros Hb. unfold swap_WriteAt. eapply computes_bind; [apply ty_swapFile|]. intros s Hs.
  eapply (computes_bind _ bytes); [apply computes_lift; by apply stub_WriteAt_bytes|]. intros f Hf.
  by apply ty_set_swap.
Qed.

Lemma ty_find_slot t : T ok (find_slot t).
Proof. intros w Hw r. unfold find_slot. destruct (for_break _ _ _ _); [|done]. by intros [= <-]. Qed.
End Paging.
#[export] Hint Resolve ty_get_entry ty_upd_entry ty_write_memory ty_read_memory ty_with_mem ty_with_policy ty_swapFile
  ty_set_swap ty_swap_ReadAt ty_swap_WriteAt ty_find_slot : types.

Section Paging.
Context (len : Z).
Notation T := (computes (vm_typed len)).
Notation ok := (fun _ => True).

Definition page_bytes (o : option (entry_ptr * list Z)) : Prop := bytes (default [] (snd <$> o)).
Lemma page_bytes_Some e b : bytes b -> page_bytes (Some (e, b)). Proof. done. Qed.
Lemma page_bytes_None : page_bytes None. Proof. constructor. Qed.
Hint Resolve page_bytes_Some page_bytes_None : types.

Lemma ty_findPage pid vpn : T page_bytes (findPage pid vpn).
Proof. unfold findPage. ty. Qed.

Lemma ty_take_slot p pid : T ok (take_slot p pid).
Proof. unfold take_slot. ty. Qed.
Hint Resolve ty_findPage ty_take_slot : types.

Lemma ty_addPage p pid b n : bytes b -> T ok (addPage p pid b n).
Proof. intros Hb. unfold addPage. ty. Qed.
Lemma ty_addPage_reserve p pid : T ok (addPage_reserve p pid).
Proof. unfold addPage_reserve. ty. Qed.
Lemma ty_writePage pid vpn b : bytes b -> T ok (writePage pid vpn b).
Proof. intros Hb. unfold writePage. ty. Qed.
Lemma ty_fill_diskBuffer b : bytes b -> T ok (fill_diskBuffer b).
Proof.
  intros Hb. unfold fill_diskBuffer.
  eapply (computes_bind _ bytes); [apply computes_gets; intros w Hw; apply Hw|]. intros l Hl.
  eapply computes_bind; [apply computes_lift; by apply bytes_bwrite|]. intros l' Hl'.
  apply computes_modify. by intros w [].
Qed.
Lemma ty_diskBuffer : T bytes (gets diskBuffer).
Proof. apply computes_gets. intros w Hw. apply Hw. Qed.
Hint Resolve ty_addPage ty_addPage_reserve ty_writePage ty_fill_diskBuffer ty_diskBuffer : types.

Context (garbage : Z).

Lemma ty_VM_AddPage p pid b n : bytes b -> T ok (VM_AddPage p pid b n).
Proof. intros Hb. unfold VM_AddPage. ty. Qed.
Lemma ty_VM_AddPage_reserve p pid : T ok (VM_AddPage_reserve p pid).
Proof. unfold VM_AddPage_reserve. ty. Qed.
Lemma ty_GetPage p pid : T (fun o => bytes (default [] o)) (GetPage p pid).
Proof.
  unfold GetPage. eapply computes_bind; [apply ty_get_entry|]. intros e _.
  eapply computes_bind; [apply ty_findPage|]. intros o Ho. by apply computes_ret.
Qed.
Lemma ty_CopyPage b p o n : bytes b -> T ok (CopyPage b p o n).
Proof.
  intros Hb. unfold CopyPage. eapply computes_bind; [apply ty_get_entry|]. intros e _.
  eapply computes_bind; [apply ty_findPage|]. intros r Hr.
  eapply computes_bind; [apply computes_lift; by apply bytes_bwrite|]. ty.
Qed.
Lemma ty_page_in pid vpn f : T ok (page_in pid vpn f).
Proof.
  unfold page_in. eapply computes_bind; [apply ty_findPage|]. intros [[p b]|] Hr; [|ty].
  assert (bytes b) by exact Hr. ty.
Qed.
Lemma ty_evict p pid : T ok (evict p pid).
Proof. unfold evict. ty. Qed.
Hint Resolve ty_VM_AddPage ty_VM_AddPage_reserve ty_GetPage ty_CopyPage ty_page_in ty_evict : types.
Lemma ty_Swap vpn pid : T ok (Swap garbage vpn pid).
Proof.
  unfold Swap. eapply computes_bind; [apply ty_with_mem|]. intros a _.
  eapply (computes_bind _ ok); [|ty]. destruct (negb _); [ty|].
  do 4 (ty_step; [ty..|ty_step; ty_step]).
  eapply computes_bind; [apply ty_findPage|]. intros [[p b]|] Hr; [|ty]. assert (bytes b) by exact Hr. ty.
Qed.
Lemma ty_PageFaultHandler pid a : T ok (PageFaultHandler garbage pid a).
Proof. unfold PageFaultHandler. apply ty_Swap. Qed.
Lemma ty_CleanupSysCall a : T ok (CleanupSysCall a).
Proof. unfold CleanupSysCall. ty. Qed.
Lemma ty_set_tables f : T ok (modify (fun w => set_tables (f w) w)).
Proof. apply computes_modify. by intros w []. Qed.
Hint Resolve ty_set_tables : types.
Lemma ty_AddrSpace_delete a : T ok (AddrSpace_delete a).
Proof. unfold AddrSpace_delete. ty. Qed.
Lemma ty_Duplicate a table : T ok (Duplicate a table).
Proof. unfold Duplicate. ty. Qed.
End Paging.
#[export] Hint Resolve ty_VM_AddPage ty_VM_AddPage_reserve ty_GetPage ty_CopyPage ty_PageFaultHandler ty_CleanupSysCall
  ty_set_tables ty_AddrSpace_delete ty_Duplicate ty_fill_diskBuffer ty_diskBuffer : types.

Section Load.
Context (len : Z) (exe : list Z) (table pid : Z) (Hexe : bytes exe).
Notation T := (computes (vm_typed len)).
Notation ok := (fun _ => True).

Lemma ty_ReadFile_chunk vaddr fa b : bytes b -> T (fun r => bytes (snd r)) (ReadFile_chunk exe table pid vaddr fa b).
Proof.
  intros Hb. unfold ReadFile_chunk. cbv zeta.
  eapply computes_bind; [apply computes_lift; by apply stub_ReadAt_bytes|]. intros l [Hl _].
  eapply computes_bind; [by apply ty_fill_diskBuffer|]. intros _ _.
  eapply computes_bind; [apply ty_GetPage|]. intros r Hr.
  eapply computes_bind; [apply ty_diskBuffer|]. intros db Hdb.
  eapply (computes_bind _ (fun p => bytes (fst p) /\ bytes (snd p))).
  - destruct r as [got|]; cbn in Hr; [|by apply computes_ret].
    eapply computes_bind; [apply computes_lift; by apply bytes_bwrite|]. intros b1 H1.
    eapply computes_bind; [apply computes_lift; by apply bytes_bread|]. intros c H2.
    eapply computes_bind; [apply computes_lift; by apply bytes_bwrite|]. intros b2 H3. by apply computes_ret.
  - intros bo [H1 H2]. eapply computes_bind; [by apply ty_VM_AddPage|]. intros _ _. by apply computes_ret.
Qed.

Lemma ty_ReadFile_loop fuel size : forall vaddr br fa b, bytes b -> T ok (ReadFile_loop exe table pid fuel size vaddr br fa b).
Proof.
  induction fuel as [|fuel IH]; intros vaddr br fa b Hb; cbn [ReadFile_loop]; destruct (_ <? _);
    try by apply computes_ret.
  eapply computes_bind; [by apply ty_ReadFile_chunk|]. intros [n b'] Hb'. by apply IH.
Qed.

Lemma ty_load_segment fuel b sg : bytes b -> T ok (load_segment exe table pid fuel b sg).
Proof.
  intros Hb. unfold load_segment, ReadFile. destruct (_ <? _); [by apply ty_ReadFile_loop|by apply computes_ret].
Qed.
Hint Resolve ty_load_segment : types.

Lemma ty_reserve_rest a b : T ok (reserve_rest table pid a b).
Proof. unfold reserve_rest. ty. Qed.
Hint Resolve ty_reserve_rest : types.

Lemma ty_AddrSpace_load fuel h0 b1 b2 : bytes b1 -> bytes b2 -> T ok (AddrSpace_load exe table pid fuel h0 b1 b2).
Proof.
  intros H1 H2. unfold AddrSpace_load. cbv zeta. ty.
Qed.
End Load.

(** ** The state of the kernel *)

Definition regs_typed (regs : list Z) : Prop := registers_typed regs /\ aget regs 0 = Ok 0.
Definition resume_typed (r : resume) : Prop :=
  match r with RSyscall (Some v) => in_s32 v | RFork a => in_s32 a | _ => True end.
Definition pcb_typed (p : PCB) : Prop := in_s32 (pid p) /\ in_s32 (parentPid p) /\ in_s32 (status p).

Record pm_typed (m : ProcessManager) : Prop := {
  pt_bits : in_s32 (numBits (processes m));
  pt_pcbs : map_Forall (fun _ => pcb_typed) (pcb_heap m)
}.

(** The registers of a thread with an address space are saved while it
    does not run; [all] asks for those of the running thread, too. *)
Record sys_typed (all : bool) (s : Sys) : Prop := {
  st_vm : vm_typed (zlen (memory (s_vm s))) (s_vm s);
  st_pm : pm_typed (s_pm s);
  st_unix : map_Forall (fun _ => bytes) (s_unix s);
  st_resume : map_Forall (fun _ x => resume_typed (ut_resume x)) (s_threads s);
  st_regs : map_Forall (fun t x => all = true \/ t <> s_current s -> is_Some (ut_space x) -> regs_typed (ut_regs x)) (s_threads s)
}.

Definition kernel_typed (all : bool) (w : W) : Prop := typed0 (fst w) /\ sys_typed all (snd w).

(** ** Processes *)

Lemma Find_typed bm : in_s32 (numBits bm) ->
  yields (fun r => in_s32 (fst r) /\ numBits (snd r) = numBits bm) (Find bm).
Proof.
  intros Hn. unfold Find.
  assert (Hloop : forall n i, 0 <= i -> i + Z.of_nat n < 2 ^ 31 ->
    yields (fun r => in_s32 (fst r) /\ numBits (snd r) = numBits bm) (Find_loop n i bm)).
  { induction n as [|n IH]; intros i Hi Hb; cbn [Find_loop].
    - apply yields_Ok. split; [unfold in_s32; cbn; lia|done].
    - eapply yields_bind; [apply yields_True|]. intros b _. destruct (negb b); [|apply IH; lia].
      intros r. unfold Mark. intros E. invert_res. split; [unfold in_s32; cbn; lia|done]. }
  apply Hloop; [done|]. unfold in_s32 in Hn. lia.
Qed.

Section Processes.
Notation T := (computes pm_typed).
Notation ok := (fun _ => True).

Lemma pm_modify f : (forall m, processes (f m) = processes m /\ pcb_heap (f m) = pcb_heap m) -> T ok (modify f).
Proof. intros Hf. apply computes_modify. intros m []. destruct (Hf m) as [E1 E2]. split; [by rewrite E1|by rewrite E2]. Qed.

Lemma pm_put {A} (f : _ -> list A) g i x :
  (forall l m, processes (g l m) = processes m /\ pcb_heap (g l m) = pcb_heap m) -> T ok (put f g i x).
Proof. intros Hg. unfold put. ty. by apply pm_modify. Qed.

Lemma pm_get_pcb p : T pcb_typed (get_pcb p).
Proof.
  intros m Hm r. unfold get_pcb, with_ptr. destruct p as [b|]; [|done].
  cbv [mbind M_bind gets lift deref res_bind]. destruct (pcb_heap m !! b) as [x|] eqn:E; [|done].
  intros [= <-]. split; [|done]. exact (pt_pcbs m Hm b x E).
Qed.

Lemma pm_upd_pcb p f : (forall x, pcb_typed x -> pcb_typed (f x)) -> T ok (upd_pcb p f).
Proof.
  intros Hf. unfold upd_pcb. eapply computes_bind; [apply pm_get_pcb|]. intros x Hx. ty.
  apply computes_modify. intros m [H1 H2]. split; [done|]. apply map_Forall_insert_2; [by apply Hf|done].
Qed.
End Processes.
#[export] Hint Resolve pm_get_pcb pm_upd_pcb : types.
#[export] Hint Extern 2 (computes pm_typed _ (put _ _ _ _)) => (apply pm_put; done) : types.
#[export] Hint Extern 2 (computes pm_typed _ (modify _)) => (apply pm_modify; done) : types.

Section Processes.
Notation T := (computes pm_typed).
Notation ok := (fun _ => True).
Context (t : Z).

Lemma ty_pm_acquire : T ok (pm_acquire t). Proof. unfold pm_acquire. ty. Qed.
Lemma ty_pm_release : T ok (pm_release t). Proof. unfold pm_release. ty. Qed.
Lemma ty_lock_acquire l : T ok (lock_acquire t l). Proof. unfold lock_acquire. ty. Qed.
Lemma ty_lock_release l : T ok (lock_release t l). Proof. unfold lock_release. ty. Qed.
Lemma ty_new_obj : T ok new_obj. Proof. unfold new_obj. ty. Qed.
Lemma ty_at {A} (f : _ -> list A) i : T ok (at_ f i). Proof. unfold at_. ty. Qed.
Lemma ty_known i : T ok (known i). Proof. unfold known, test. ty. Qed.
Hint Resolve ty_pm_acquire ty_pm_release ty_lock_acquire ty_lock_release ty_new_obj ty_at ty_known : types.

Lemma ty_new_pcb x : pcb_typed x -> T ok (new_pcb x).
Proof.
  intros Hx. unfold new_pcb. eapply computes_bind; [apply ty_new_obj|]. intros a _.
  eapply computes_bind; [|intros ? _; by apply computes_ret].
  apply computes_modify. intros m [H1 H2]. split; [done|]. by apply map_Forall_insert_2.
Qed.

Lemma ty_getPID : T in_s32 getPID.
Proof.
  intros m Hm r. unfold getPID. cbv [mbind M_bind gets lift modify].
  destruct (Find (processes m)) as [[i bm]|] eqn:E; [|done]. intros [= <-].
  destruct (Find_typed _ (pt_bits m Hm) _ E) as [Hi Hb]. split; [done|]. destruct Hm. split; cbn; [|done].
  cbn in Hb. by rewrite Hb.
Qed.

Lemma ty_gets_processes : T (fun bm => in_s32 (numBits bm)) (gets processes).
Proof. apply computes_gets. intros m Hm. apply Hm. Qed.
Lemma ty_set_processes bm : in_s32 (numBits bm) -> T ok (modify (set_processes bm)).
Proof. intros H. apply computes_modify. by intros m []. Qed.
Lemma Clear_typed i bm : in_s32 (numBits bm) -> yields (fun bm' => in_s32 (numBits bm')) (Clear i bm).
Proof. intros H r. unfold Clear. intros E. by invert_res. Qed.
Lemma ty_getStatus i : T in_s32 (getStatus t i).
Proof.
  unfold getStatus. eapply computes_bind; [apply ty_pm_acquire|]. intros _ _.
  eapply computes_bind; [apply ty_known|]. intros k _. destruct (negb k).
  - eapply computes_bind; [apply ty_pm_release|]. intros _ _. apply computes_ret. unfold in_s32. lia.
  - eapply computes_bind; [apply ty_pm_release|]. intros _ _.
    eapply computes_bind; [apply ty_at|]. intros p _.
    eapply computes_bind; [apply pm_get_pcb|]. intros x Hx. apply computes_ret, Hx.
Qed.
Hint Resolve ty_gets_processes ty_set_processes Clear_typed : types.

Lemma ty_insertProcess p i : T ok (insertProcess t p i). Proof. unfold insertProcess. ty. Qed.
Lemma ty_clearPID i : T ok (clearPID t i).
Proof. unfold clearPID. ty; apply pm_modify; intros m; by destruct (_ : ptr). Qed.
Lemma ty_join_round i : T ok (join_round t i). Proof. unfold join_round. ty. Qed.
Hint Resolve ty_join_round : types.
Lemma ty_join i : T ok (join t i). Proof. unfold join. ty. Qed.
Lemma ty_wait_begin i : T ok (wait_begin t i). Proof. unfold wait_begin. ty. Qed.
Lemma ty_broadcast c l : T ok (broadcast t c l). Proof. unfold broadcast. ty. Qed.
Hint Resolve ty_broadcast : types.
Lemma ty_Broadcast i : T ok (Broadcast t i). Proof. unfold Broadcast. ty. Qed.
End Processes.
#[export] Hint Resolve ty_lock_acquire ty_new_pcb ty_getPID ty_getStatus ty_insertProcess ty_clearPID ty_join_round ty_join
  ty_wait_begin ty_Broadcast : types.

(** ** The kernel and the machine *)

Lemma sys_typed_weaken s : sys_typed true s -> sys_typed false s.
Proof. intros []. split; try done. intros t x Hx _. by apply (st_regs0 t x Hx (or_introl eq_refl)). Qed.

Section Kernel.
Context (all : bool).
Notation T := (computes (kernel_typed all)).
Notation ok := (fun _ => True).

Lemma ty_sys {A} (f : Sys -> A) (P : A -> Prop) : (forall s, sys_typed all s -> P (f s)) -> T P (sys f).
Proof. intros H. apply computes_gets. intros w [_ Hs]. by apply H. Qed.

Lemma ty_sys_any {A} (f : Sys -> A) : T ok (sys f).
Proof. by apply ty_sys. Qed.

Lemma ty_upd_sys f : (forall s, sys_typed all s -> sys_typed all (f s)) -> T ok (upd_sys f).
Proof. intros H. apply computes_modify. intros w [Hm Hs]. split; [done|]. by apply H. Qed.

Lemma ty_read_register i : T in_s32 (read_register i).
Proof.
  intros w [Hm Hs] r. unfold read_register. cbv [mbind M_bind gets lift]. unfold ReadRegister.
  destruct (ASSERT _); [|done]. cbn [mbind res_bind]. destruct (getr i (fst w)) as [v|] eqn:E; [|done].
  intros [= <-]. split; [|by split]. exact (getr_yields i _ (proj1 Hm) v E).
Qed.

Lemma ty_on_machine f : (forall m, typed0 m -> yields typed0 (f m)) -> T ok (on_machine f).
Proof.
  intros Hf w [Hm Hs]. unfold on_machine. eapply yields_bind; [by apply Hf|]. intros m H. by apply yields_Ok.
Qed.

Lemma WriteRegister_typed i v m : typed0 m -> in_s32 v -> 0 < i \/ v = 0 -> yields typed0 (WriteRegister i v m).
Proof.
  intros Hm Hv Hi. unfold WriteRegister. eapply yields_bind; [apply yields_True|]. intros _ _. by apply setr_zero.
Qed.

Lemma ty_write_register i v : in_s32 v -> 0 < i -> T ok (write_register i v).
Proof. intros Hv Hi. apply ty_on_machine. intros m Hm. apply WriteRegister_typed; auto. Qed.

Lemma ty_pm {A} (P : A -> Prop) (f : M ProcessManager A) : computes pm_typed P f -> T P (pm f).
Proof.
  apply computes_zoom; [intros w [_ []]; done|]. intros v w [Hm []] Hv. split; [done|]. by split.
Qed.

Lemma ty_ofm {A} (f : M SysOpenFileManager A) : T ok (ofm f).
Proof.
  apply (computes_zoom _ ok); [done| |].
  - intros v w [Hm []] _. split; [done|]. by split.
  - intros m _ r E. done.
Qed.

Lemma ty_pm_me {A} (P : A -> Prop) (f : Z -> M ProcessManager A) : (forall t, computes pm_typed P (f t)) -> T P (pm_me f).
Proof. intros Hf. unfold pm_me. eapply computes_bind; [apply ty_sys_any|]. intros t _. by apply ty_pm. Qed.

Lemma ty_ofm_me {A} (f : Z -> M SysOpenFileManager A) : T ok (ofm_me f).
Proof. unfold ofm_me. eapply computes_bind; [apply ty_sys_any|]. intros t _. apply ty_ofm. Qed.

Definition thread_typed (x : UThread) : Prop :=
  resume_typed (ut_resume x) /\ (all = true -> is_Some (ut_space x) -> regs_typed (ut_regs x)).

Lemma ty_this_thread : T thread_typed this_thread.
Proof.
  intros w [Hm Hs] r. unfold this_thread, sys. cbv [mbind M_bind gets lift deref id].
  destruct (s_threads (snd w) !! s_current (snd w)) as [x|] eqn:E; [|done]. intros [= <-].
  split; [|by split]. split; [exact (st_resume all _ Hs _ x E)|]. intros Ha. exact (st_regs all _ Hs _ x E (or_introl Ha)).
Qed.

Lemma ty_set_this f : (forall x, thread_typed x -> thread_typed (f x)) -> T ok (set_this f).
Proof.
  intros Hf. unfold set_this. eapply computes_bind; [apply ty_this_thread|]. intros x Hx.
  apply ty_upd_sys. intros s []. destruct (Hf x Hx) as [H1 H2].
  split; cbn; try done; [by apply map_Forall_insert_2|].
  intros t y. rewrite lookup_insert_Some. intros [[<- <-]|[Hne Hy]]; [|by apply st_regs0].
  intros [Ha|Hc]; [by apply H2|done].
Qed.

Lemma ty_upd_none f :
  (forall s, s_vm (f s) = s_vm s /\ s_pm (f s) = s_pm s /\ s_unix (f s) = s_unix s /\ s_threads (f s) = s_threads s /\
             s_current (f s) = s_current s) -> T ok (upd_sys f).
Proof. intros H. apply ty_upd_sys. intros s []. destruct (H s) as (E1 & E2 & E3 & E4 & E5). by split; rewrite ?E1, ?E2, ?E3, ?E4, ?E5. Qed.
End Kernel.
#[export] Hint Resolve ty_sys_any ty_read_register ty_write_register ty_pm ty_ofm ty_pm_me ty_ofm_me ty_this_thread : types.
#[export] Hint Extern 2 (computes (kernel_typed _) _ (upd_sys _)) => (apply ty_upd_none; done) : types.
#[export] Hint Extern 1 (0 < _) => reflexivity : types.

Section Kernel.
Context (all : bool).
Notation T := (computes (kernel_typed all)).
Notation ok := (fun _ => True).

Lemma ty_this_space : T ok this_space. Proof. unfold this_space. ty. Qed.
Lemma ty_fresh : T ok fresh. Proof. unfold fresh. ty. Qed.
Hint Resolve ty_this_space ty_fresh : types.
Lemma ty_this_pcb : T pcb_typed this_pcb.
Proof. unfold this_pcb. eapply computes_bind; [apply ty_this_space|]. intros sp _. apply ty_pm, pm_get_pcb. Qed.
Lemma ty_this_as : T ok this_as. Proof. unfold this_as. ty. Qed.
Hint Resolve ty_this_pcb ty_this_as : types.

Lemma ty_upd_this_pcb f : (forall x, pcb_typed x -> pcb_typed (f x)) -> T ok (upd_this_pcb f).
Proof. intros Hf. unfold upd_this_pcb. ty. Qed.

(** Main memory goes into the paging code and comes back. *)
Lemma ty_on_vm {A} (P : A -> Prop) (f : M VM A) : (forall len, computes (vm_typed len) P f) -> T P (on_vm f).
Proof.
  intros Hf. unfold on_vm. eapply computes_bind; [apply ty_this_as|]. intros a _ [m s] [Hm Hs] r.
  destruct Hm as [[[Hz Hb] Hr] H0]. pose proof Hs as [[] ? ? ? ?].
  assert (Hv : vm_typed MemorySize (enter m (mkUK (s_vm s) a (s_status s)))) by by split.
  destruct (f _) as [[x v]|] eqn:E; [|done]. destruct (Hf _ _ Hv _ E) as [HP [H1 H2 H3 H4]]. cbn in *.
  intros [= <-]. split; [done|]. split; cbn; [by split|]. split; try done.
Qed.

Lemma ty_incrRegs : T ok incrRegs.
Proof. unfold incrRegs. ty. Qed.
End Kernel.
#[export] Hint Resolve ty_this_space ty_fresh ty_this_pcb ty_this_as ty_incrRegs ty_upd_this_pcb ty_on_vm : types.

(** ** Names, and the memory of the user *)

Section User.
Context (garbage : Z) (creatable : list Z -> bool) (fuel : nat).
Context (tick debugger : W -> res W) (ticks : Sys -> Z).
Notation T := (computes (kernel_typed false)).
Notation ok := (fun _ => True).

Lemma ty_PageFault all : computes (kernel_typed all) ok (PageFault garbage).
Proof. unfold PageFault. ty. Qed.
Hint Resolve ty_PageFault : types.

(** machine->ReadMem, with a page fault inside it. *)
Lemma ty_ReadMem_byte arg v : in_s32 arg -> T ok (ReadMem_byte garbage tick debugger ticks arg v).
Proof.
  intros Harg. unfold ReadMem_byte. eapply (computes_bind _ ok); [|ty]. intros [m s] [Hm Hs] r. unfold ReadMem.
  destruct (Machine.Translate arg 1 false m) as [[[exc pa] m1]|] eqn:Et; [|done]. cbn [mbind res_bind].
  destruct (Translate_same _ _ _ _ _ _ _ Et) as [E1 E2]. cbn in Hm, Hs.
  assert (Hm1 : typed0 m1) by (destruct Hm as [Ht H0]; split; [by apply (same_typed m)|by rewrite E2]).
  case_decide.
  { destruct (load _ _ _); [|done]. by intros [= <-]. }
  unfold RaiseException. destruct (setr _ _ _) as [m2|] eqn:E3; [|done]. cbn [mbind res_bind].
  pose proof (setr_yields _ _ m1 (proj1 Hm1) Harg m2 E3) as Hm2.
  destruct (DelayedLoad _ _ _) as [m3|] eqn:E4; [|done]. cbn [mbind res_bind].
  assert (Hm3 : typed0 m3) by (apply (DelayedLoad_yields 0 0 m2 Hm2); [unfold in_s32; lia..|done]).
  destruct (Machine.ExceptionHandler _ _) as [[m4 s4]|] eqn:E; [|done]. intros [= <-].
  assert (Hk : kernel_typed false (m4, s4)).
  { destruct exc; try done. cbn in E. unfold run_in in E.
    destruct (PageFault garbage _) as [[[] w]|] eqn:EP; [|done]. injection E as ->.
    apply (ty_PageFault false (m3, set_s_status SystemMode s)) in EP; [apply EP|]. split; [done|]. by destruct Hs. }
  split; [done|]. destruct Hk as [H1 []]. by split.
Qed.
Hint Resolve ty_ReadMem_byte : types.

Lemma ty_read_name n : forall position arg v l, in_s32 arg -> T ok (read_name garbage tick debugger ticks n position arg v l).
Proof. induction n as [|n IH]; intros position arg v l Ha; cbn [read_name]; ty. Qed.
Hint Resolve ty_read_name : types.

Lemma ty_get_name : T ok (get_name garbage tick debugger ticks).
Proof. unfold get_name. ty. Qed.

Lemma ty_translate_arg a n pa : T ok (translate_arg a n pa).
Proof.
  intros [m s] [Hm Hs] r. unfold translate_arg. cbn [fst].
  destruct (Machine.Translate _ _ _ _) as [[[exc q] m1]|] eqn:Et; [|done]. cbn [mbind res_bind]. intros [= <-].
  destruct (Translate_same _ _ _ _ _ _ _ Et) as [E1 E2]. split; [done|]. split; [|done]. destruct Hm as [Ht H0].
  split; [by apply (same_typed m)|]. cbn. by rewrite E2.
Qed.
Hint Resolve ty_translate_arg : types.

Lemma ty_write_main pa b : bytes b ->
  T ok (on_machine (fun m => mem ← bwrite pa b (mainMemory m); Ok (Machine.set_memory m mem))).
Proof.
  intros Hb. apply ty_on_machine. intros m [[[Hz Hm] Hr] H0] m'.
  destruct (bwrite pa b (mainMemory m)) as [mem|] eqn:E; [|done]. intros [= <-].
  destruct (bwrite_yields b _ pa Hm Hb mem E) as [E1 E2]. split; [|done]. split; [|done]. split; [cbn; congruence|done].
Qed.

Lemma ty_main all : computes (kernel_typed all) (fun m => bytes (mainMemory m)) (gets fst).
Proof. apply computes_gets. intros w [[[[_ H] _] _] _]. exact H. Qed.
Hint Resolve ty_write_main ty_main : types.

Lemma ty_ReadWrite_in n : forall a size c pa l, bytes l -> T ok (ReadWrite_in n a size c pa l).
Proof. induction n as [|n IH]; intros a size c pa l Hl; cbn [ReadWrite_in]; ty. Qed.

Lemma ty_ReadWrite_out n : forall a size c pa l, bytes l -> T (fun r => bytes (snd r)) (ReadWrite_out n a size c pa l).
Proof.
  induction n as [|n IH]; intros a size c pa l Hl; cbn [ReadWrite_out]; destruct (_ <? _); try (apply computes_ret; exact Hl).
  { apply computes_fail. }
  eapply computes_bind; [apply ty_translate_arg|]. intros pa' _.
  eapply computes_bind; [apply ty_main|]. intros m Hm.
  eapply computes_bind; [apply computes_lift; by apply bytes_bread|]. intros b Hb.
  eapply computes_bind; [apply computes_lift; by apply bytes_bwrite|]. intros l' Hl'. by apply IH.
Qed.

Lemma ty_USER_READ a l n : bytes l -> T ok (USER_READ_copy garbage a l n).
Proof. intros H. unfold USER_READ_copy. by apply ty_ReadWrite_in. Qed.
Lemma ty_USER_WRITE a l n : bytes l -> T (fun r => bytes (snd r)) (USER_WRITE_copy garbage a l n).
Proof. intros H. unfold USER_WRITE_copy. by apply ty_ReadWrite_out. Qed.
Lemma ty_new_chars n : T bytes (new_chars garbage n).
Proof. unfold new_chars. ty. Qed.
Hint Resolve ty_USER_READ ty_USER_WRITE ty_new_chars ty_get_name : types.

(** ** Files *)

Lemma ty_set_unix name c : bytes c -> T ok (upd_sys (fun s => set_s_unix (<[name := c]> (s_unix s)) s)).
Proof. intros Hc. apply ty_upd_sys. intros s []. split; try done. cbn. by apply map_Forall_insert_2. Qed.

Lemma ty_unix_content (name : list Z) : T bytes (s ← sys id; lift (deref (s_unix s !! name))).
Proof.
  intros w [Hm Hs] r. unfold sys. cbv [mbind M_bind gets lift deref id].
  destruct (s_unix (snd w) !! name) as [c|] eqn:E; [|done]. intros [= <-]. split; [|by split].
  exact (st_unix _ _ Hs name c E).
Qed.

Lemma computes_assoc {A B C} I (P : C -> Prop) (m : UM A) (f : A -> UM B) (g : B -> UM C) :
  computes I P ((m ≫= f) ≫= g) -> computes I P (m ≫= (fun a => f a ≫= g)).
Proof. intros H w Hw r. specialize (H w Hw r). revert H. unfold mbind, M_bind. by destruct (m w) as [[]|]. Qed.

Lemma ty_unix_ReadAt f n i : T (fun l => bytes l /\ zlen l <= Z.max 0 n) (unix_ReadAt f n i).
Proof.
  unfold unix_ReadAt. eapply (computes_bind _ ok); [ty|]. intros name _. apply computes_assoc.
  eapply computes_bind; [apply ty_unix_content|]. intros c Hc. apply computes_lift. by apply stub_ReadAt_bytes.
Qed.

Lemma ty_unix_WriteAt f b i : bytes b -> T ok (unix_WriteAt f b i).
Proof.
  intros Hb. unfold unix_WriteAt. eapply (computes_bind _ ok); [ty|]. intros name _. apply computes_assoc.
  eapply computes_bind; [apply ty_unix_content|]. intros c Hc.
  eapply computes_bind; [apply computes_lift; by apply stub_WriteAt_bytes|]. intros c' Hc'.
  eapply computes_bind; [by apply ty_set_unix|]. intros _ _. by apply computes_ret.
Qed.
Hint Resolve ty_set_unix ty_unix_ReadAt ty_unix_WriteAt : types.

Lemma ty_myCreate name : T ok (myCreate creatable name).
Proof. unfold myCreate, fs_Create. ty. Qed.
Lemma ty_fs_Open name : T ok (fs_Open name).
Proof. unfold fs_Open. ty. Qed.
Lemma ty_my_file id : T ok (my_file id). Proof. unfold my_file. ty. Qed.
Lemma ty_my_sysfile u id : T ok (my_sysfile u id). Proof. unfold my_sysfile. ty. Qed.
Lemma ty_getchars n : T bytes (getchars n).
Proof.
  induction n as [|n IH]; cbn [getchars]; [ty|]. eapply computes_bind; [apply ty_sys_any|]. intros i _. eapply (computes_bind _ ok); [ty|].
  intros c _. eapply computes_bind; [apply IH|]. intros l Hl. apply computes_ret. constructor; [apply byte_mod|done].
Qed.
Hint Resolve ty_myCreate ty_fs_Open ty_my_file ty_my_sysfile ty_getchars : types.

(** What a read returns is at most what was asked for. *)
Definition read_typed (size : Z) (o : option (list Z)) : Prop :=
  match o with Some l => bytes l /\ zlen l <= Z.max 0 size | None => True end.

Lemma ty_read_file size id : T (read_typed size) (read_file size id).
Proof.
  unfold read_file. eapply computes_bind; [apply ty_my_file|]. intros [a|] _; [|by apply computes_ret].
  eapply computes_bind; [apply ty_sys_any|]. intros s _. eapply (computes_bind _ ok); [ty|]. intros u _.
  eapply computes_bind; [apply ty_my_sysfile|]. intros [[f|]|] _; [|by apply computes_ret..].
  eapply computes_bind; [apply ty_ofm_me|]. intros _ _. eapply computes_bind; [apply ty_ofm|]. intros x _.
  eapply computes_bind; [apply ty_unix_ReadAt|]. intros l Hl.
  eapply computes_bind; [apply ty_ofm_me|]. intros _ _. eapply (computes_bind _ ok); [ty|]. intros _ _.
  by apply computes_ret.
Qed.

Lemma ty_myRead a n id : in_s32 n -> T in_s32 (myRead garbage a n id).
Proof.
  intros Hn. unfold myRead. eapply computes_bind; [apply ty_new_chars|]. intros buffer Hbuf.
  eapply (computes_bind _ (fun r => match r with Some (k, l) => in_s32 k /\ bytes l | None => True end)).
  - destruct (_ =? _).
    + eapply computes_bind; [apply ty_getchars|]. intros l Hl. by apply computes_ret.
    + eapply computes_bind; [apply ty_read_file|]. intros [l|] Hl; [|by apply computes_ret].
      apply computes_ret. destruct Hl as [Hl Hz]. split; [|done]. unfold in_s32, zlen in *. lia.
  - intros [[k l]|] Hr; [|apply computes_ret; unfold in_s32; lia]. destruct Hr as [Hk Hl].
    eapply computes_bind; [apply computes_lift; by apply bytes_bwrite|]. intros b Hb.
    eapply computes_bind; [by apply ty_USER_READ|]. intros _ _. by apply computes_ret.
Qed.

Lemma ty_write_file a n id : T ok (write_file garbage a n id).
Proof.
  unfold write_file. eapply computes_bind; [apply ty_new_chars|]. intros buffer Hbuf.
  eapply computes_bind; [by apply ty_USER_WRITE|]. intros [k b] Hb. cbn in Hb. ty.
Qed.

Lemma ty_printf_s l : T ok (printf_s l). Proof. unfold printf_s. ty. Qed.
Hint Resolve ty_write_file ty_printf_s : types.

Lemma ty_myWrite a n id : T ok (myWrite garbage a n id).
Proof.
  unfold myWrite. eapply computes_bind; [apply ty_new_chars|]. intros buffer Hbuf.
  eapply computes_bind; [by apply ty_USER_WRITE|]. intros [k b] Hb. cbn in Hb. ty.
Qed.

Lemma ty_PCB_Remove f : T ok (PCB_Remove f).
Proof.
  unfold PCB_Remove. eapply computes_bind; [apply ty_this_pcb|]. intros p Hp. ty.
  all: try (apply ty_upd_this_pcb; by intros x Hx).
Qed.
Hint Resolve ty_PCB_Remove : types.
Lemma ty_myClose id : T ok (myClose id). Proof. unfold myClose. ty. Qed.

(** ** Switching *)

Definition result_typed (r : option Z) : Prop := match r with Some v => in_s32 v | None => True end.

Lemma ty_end_syscall r : result_typed r -> T ok (end_syscall r).
Proof. intros Hr. unfold end_syscall. destruct r as [v|]; ty. Qed.

Lemma ty_restore_state all : computes (kernel_typed all) ok restore_state.
Proof. unfold restore_state. ty. apply ty_on_machine. intros m [[] Hz]. apply yields_Ok. by split. Qed.

Lemma InitRegisters_typed a m : typed0 m -> yields typed0 (InitRegisters a m).
Proof.
  intros Hm. unfold InitRegisters.
  assert (Hc : forall n i m, typed0 m -> yields typed0 (clear_registers n i m)).
  { induction n as [|n IH]; intros i m' Hm'; cbn [clear_registers]; [by apply yields_Ok|].
    eapply yields_bind; [apply WriteRegister_typed; [done|unfold in_s32; lia|by right]|]. intros m1 H1. by apply IH. }
  eapply yields_bind; [by apply Hc|]. intros m1 H1.
  eapply yields_bind; [apply WriteRegister_typed; [done|unfold in_s32; lia|by left]|]. intros m2 H2.
  eapply yields_bind; [apply WriteRegister_typed; [done|unfold in_s32; lia|by left]|]. intros m3 H3.
  apply WriteRegister_typed; [done|apply s32_range|by left].
Qed.

Lemma ty_init_registers all : computes (kernel_typed all) ok init_registers.
Proof. unfold init_registers. ty. apply ty_on_machine. intros m. apply InitRegisters_typed. Qed.
Hint Resolve ty_end_syscall ty_restore_state ty_init_registers : types.

(** Saving the registers of the running thread makes those of every thread
    fine. *)
Lemma others_typed s (f : UThread -> UThread) x :
  sys_typed false s -> s_threads s !! s_current s = Some x ->
  (is_Some (ut_space (f x)) -> regs_typed (ut_regs (f x))) -> resume_typed (ut_resume (f x)) ->
  sys_typed true (set_s_threads (<[s_current s := f x]> (s_threads s)) s).
Proof.
  intros [] Hx Hr Hres. split; cbn; try done; [by apply map_Forall_insert_2|].
  intros t y Hy _. apply lookup_insert_Some in Hy as [[<- <-]|[Hne Hy]]; [done|]. apply (st_regs0 t y Hy). by right.
Qed.

Lemma this_thread_inv (w : W) x w' : this_thread w = Ok (x, w') ->
  w' = w /\ s_threads (snd w) !! s_current (snd w) = Some x.
Proof.
  unfold this_thread, sys. cbv [mbind M_bind gets lift deref id].
  destruct (s_threads (snd w) !! s_current (snd w)) as [y|] eqn:E; [|done]. by intros [= <- <-].
Qed.

Lemma on_vm_ret_threads (w w' : W) u : on_vm (ret tt) w = Ok (u, w') ->
  s_threads (snd w') = s_threads (snd w) /\ s_current (snd w') = s_current (snd w) /\ registers (fst w') = registers (fst w).
Proof.
  destruct w as [m s]. unfold on_vm, mbind, M_bind. destruct (this_as (m, s)) as [[a w1]|] eqn:E; [|done].
  assert (Hw : snd w1 = s /\ fst w1 = m).
  { revert E. unfold this_as, this_space, this_thread, sys, pm, zoom, get_pcb, with_ptr, gets, lift, ret, mbind, M_bind, deref, res_bind.
    cbn. repeat case_match; intros E; simplify_eq; cbn; try done; by destruct s. }
  destruct w1 as [m1 s1]. cbn in Hw. destruct Hw as [-> ->]. by intros [= <- <-].
Qed.

Lemma moves_bind {A B} (m : UM A) (f : A -> UM B) w (P : A -> W -> Prop) Q :
  yields (fun r => P (fst r) (snd r)) (m w) -> (forall a w', P a w' -> yields Q (f a w')) -> yields Q ((m ≫= f) w).
Proof.
  intros Hm Hf r. unfold mbind, M_bind. destruct (m w) as [[a w1]|]; [|done]. apply (Hf a w1). exact (Hm _ eq_refl).
Qed.

Lemma save_typed w x : kernel_typed false w -> s_threads (snd w) !! s_current (snd w) = Some x ->
  yields (fun r => kernel_typed true (snd r)) ((match ut_space x with
    | Some _ => _ ← on_vm (ret tt); set_this (fun y => mkUT (ut_space y) (registers (fst w)) (ut_resume y))
    | None => ret tt end : UM unit) w).
Proof.
  intros [Hm Hs] Hx. pose proof (st_resume _ _ Hs _ x Hx) as Hres. destruct (ut_space x) as [sp|] eqn:Esp.
  - intros r. unfold mbind at 1, M_bind at 1. destruct (on_vm (ret tt) w) as [[u w1]|] eqn:E; [|done].
    assert (Hw1 : kernel_typed false w1).
    { refine (proj2 (ty_on_vm false ok (ret tt) _ w (conj Hm Hs) _ E)). intros len. by apply computes_ret. }
    destruct (on_vm_ret_threads w w1 u E) as (Et & Ec & Er).
    unfold set_this, mbind, M_bind. destruct (this_thread w1) as [[y w2]|] eqn:E2; [|done].
    destruct (this_thread_inv w1 y w2 E2) as [-> Hy]. rewrite Et, Ec, Hx in Hy. injection Hy as <-.
    intros [= <-]. split; [apply Hw1|].
    refine (others_typed (snd w1) (fun y => mkUT (ut_space y) (registers (fst w)) (ut_resume y)) x (proj2 Hw1) _ _ _).
    + by rewrite Et, Ec.
    + intros _. split; [apply Hm|apply Hm].
    + done.
  - intros r [= <-]. split; [done|].
    pose proof (others_typed (snd w) id x Hs Hx) as Ho. unfold id in Ho. rewrite insert_id in Ho by done.
    destruct (Ho ltac:(rewrite Esp; by intros []) Hres) as []. by split.
Qed.

Lemma ty_switch_to next : T ok (switch_to next).
Proof.
  intros w Hw. unfold switch_to.
  apply (moves_bind _ _ w (fun x w' => w' = w /\ s_threads (snd w) !! s_current (snd w) = Some x)).
  { intros [x w'] E. by apply this_thread_inv. }
  intros x w' [-> Hx]. apply (moves_bind _ _ w (fun m w' => m = fst w /\ w' = w)); [by intros r [= <-]|].
  intros m w' [-> ->]. apply (moves_bind _ _ w (fun _ w' => kernel_typed true w')); [by apply save_typed|].
  intros _ w1 H1.
  assert (Hrest : computes (kernel_typed true) ok
    (_ ← upd_sys (set_s_current next); x ← this_thread;
     match ut_space x with
     | Some _ => _ ← on_machine (fun m => Ok (Machine.set_registers m (ut_regs x))); restore_state
     | None => ret tt end)).
  { eapply computes_bind; [apply ty_upd_sys|].
    - intros s []. split; try done. intros t y Hy _. apply (st_regs0 t y Hy). by left.
    - intros _ _. eapply computes_bind; [apply ty_this_thread|]. intros y [_ Hy].
      destruct (ut_space y) as [sp|]; [|by apply computes_ret].
      destruct (Hy eq_refl ltac:(by eexists)) as [Hr H0].
      eapply computes_bind; [|intros _ _; apply ty_restore_state].
      apply ty_on_machine. intros m [[] _]. apply yields_Ok. by split. }
  eapply yields_mono; [by apply Hrest|]. intros r [_ [Hm Hs]]. split; [done|]. split; [done|]. by apply sys_typed_weaken.
Qed.

Lemma ty_set_resume r : resume_typed r -> T ok (set_resume r).
Proof. intros Hr. apply ty_set_this. by intros x [_ Hx]. Qed.
Hint Resolve ty_switch_to ty_set_resume : types.

Lemma ty_after_wait i l : T ok (after_wait i l). Proof. unfold after_wait. ty. Qed.
Lemma ty_wait_in_join i : T ok (wait_in_join i). Proof. unfold wait_in_join. ty. Qed.
Lemma ty_end_join i : T ok (end_join i).
Proof.
  unfold end_join. ty_step; [|].
  { apply ty_upd_this_pcb. intros x (H1 & H2 & _). split; [done|]. split; [done|]. cbn. unfold in_s32. lia. }
  intros ? _. eapply computes_bind; [apply ty_pm_me; intros t; apply ty_getStatus|]. intros r Hr. by apply ty_end_syscall.
Qed.
Hint Resolve ty_after_wait ty_wait_in_join ty_end_join : types.

Lemma ty_dispatch n : T ok (dispatch n).
Proof.
  assert (Hhead : forall next rest (f : UThread -> UM unit), (forall x, resume_typed (ut_resume x) -> T ok (f x)) ->
    T ok (_ ← upd_sys (set_s_ready rest); _ ← switch_to next; x ← this_thread; f x)).
  { intros next rest f Hf. ty. by match goal with H : thread_typed _ _ |- _ => destruct H as [H _]; apply Hf end. }
  assert (Hres : forall x, resume_typed (ut_resume x) -> forall g, (forall i l, T ok (g i l)) ->
    T ok (match ut_resume x with
          | RSyscall r => end_syscall r
          | RNew => _ ← init_registers; restore_state
          | RFork a => _ ← init_registers; _ ← restore_state; _ ← write_register PCReg a; write_register NextPCReg (s32 (a + 4))
          | RWait i l => g i l
          end)).
  { intros x Hx g Hg. destruct (ut_resume x) as [r| |a|i l]; [|ty|cbn in Hx; ty|done].
    by apply ty_end_syscall. }
  induction n as [|n IH]; cbn [dispatch]; (eapply computes_bind; [apply ty_sys_any|]); intros [|next rest] _; try apply computes_fail;
    (refine (Hhead next rest _ _); intros x Hx; refine (Hres x Hx _ _); intros i l; ty).
Qed.
Hint Resolve ty_dispatch : types.
Lemma ty_run_next : T ok run_next. Proof. unfold run_next. ty. Qed.
Hint Resolve ty_run_next : types.
Lemma ty_yield_then r : result_typed r -> T ok (yield_then r).
Proof. intros Hr. unfold yield_then. ty. Qed.
Hint Resolve ty_yield_then : types.

(** ** Processes *)

Lemma ty_set_spaces f : T ok (upd_sys (fun s => set_s_spaces (f s) s)).
Proof. by apply ty_upd_none. Qed.

Lemma ty_fork_thread sp r : resume_typed r -> T ok (fork_thread sp r).
Proof.
  intros Hr. unfold fork_thread. eapply computes_bind; [apply ty_fresh|]. intros t _. apply ty_upd_sys. intros s [].
  split; cbn; try done; [by apply map_Forall_insert_2|].
  intros t' y Hy. apply lookup_insert_Some in Hy as [[<- <-]|[_ Hy]]; [|by apply st_regs0]. intros _ _. cbn.
  split; [|done]. split; [by vm_compute|]. apply Forall_replicate. unfold in_s32. lia.
Qed.

Lemma pcb_default_typed a b t : in_s32 a -> in_s32 b -> pcb_typed (set_parent b (set_pid a (set_pthread t PCB_default))).
Proof. intros Ha Hb. split; [done|]. split; [done|]. cbn. unfold in_s32. lia. Qed.
Hint Resolve ty_set_spaces ty_fork_thread : types.

Lemma ty_myFork a : in_s32 a -> T ok (myFork a).
Proof.
  intros Ha. unfold myFork. eapply computes_bind; [apply ty_this_pcb|]. intros parent (Hp & _).
  eapply computes_bind; [apply ty_this_as|]. intros sp _. eapply computes_bind; [apply ty_fresh|]. intros table _.
  eapply computes_bind; [apply ty_on_vm; intros len; apply ty_Duplicate|]. intros dup _.
  eapply computes_bind; [apply ty_pm, ty_getPID|]. intros newpid Hpid. ty_step; [ty|]. intros _ _.
  eapply computes_bind; [apply ty_fresh|]. intros s _. eapply computes_bind; [apply ty_sys_any|]. intros t _.
  eapply computes_bind; [apply ty_pm, ty_new_pcb; by apply pcb_default_typed|]. intros p _.
  eapply computes_bind; [apply ty_set_spaces|]. intros _ _.
  eapply computes_bind; [apply ty_pm_me; intros; apply ty_insertProcess|]. intros _ _.
  eapply computes_bind; [by apply ty_fork_thread|]. intros _ _. by apply ty_yield_then.
Qed.

Lemma ty_new_AddrSpace exe : T ok (new_AddrSpace garbage fuel exe).
Proof.
  unfold new_AddrSpace. eapply computes_bind; [apply ty_pm, ty_getPID|]. intros p Hp.
  eapply computes_bind; [apply ty_pm, ty_new_pcb; split; [done|split; unfold in_s32; cbn; lia]|]. intros pcb _.
  eapply computes_bind; [apply ty_pm_me; intros; apply ty_insertProcess|]. intros _ _. apply computes_assoc.
  eapply computes_bind; [apply ty_unix_content|]. intros c Hc.
  eapply computes_bind; [apply ty_fresh|]. intros table _. cbv zeta.
  apply (computes_bind _ (fun v => vm_typed (zlen (memory v)) v)).
  { apply ty_sys. intros s Hs. apply Hs. }
  intros v Hv.
  assert (Hb : forall n, bytes (replicate n (garbage mod 256))) by (intros n; apply bytes_replicate, byte_mod).
  eapply (computes_bind _ (fun x => vm_typed (zlen (memory (snd x))) (snd x))).
  { apply computes_lift. intros x E.
    destruct (ty_AddrSpace_load _ c table p Hc fuel _ _ _ (Hb _) (Hb _) v Hv x E) as [_ Hx].
    by rewrite (vt_len _ _ Hx). }
  intros [r v'] Hv'. cbn in Hv'. eapply (computes_bind _ ok).
  - apply ty_upd_sys. intros s []. by split.
  - intros _ _. ty.
Qed.

Lemma ty_myExec name : T result_typed (myExec garbage fuel name).
Proof.
  unfold myExec. eapply computes_bind; [apply ty_fs_Open|]. intros [exe|] _; [|by apply computes_ret].
  eapply computes_bind; [apply ty_new_AddrSpace|]. intros sp _. eapply computes_bind; [apply ty_pm, ty_getPID|]. intros _ _.
  eapply computes_bind; [apply ty_pm, ty_getPID|]. intros p Hp. ty_step; [ty|]. intros _ _.
  eapply computes_bind; [apply ty_this_pcb|]. intros parent (Hpp & _). eapply computes_bind; [apply ty_sys_any|]. intros t _.
  eapply computes_bind; [apply ty_pm, ty_new_pcb; split; [done|split; [done|unfold in_s32; cbn; lia]]|]. intros pcb _.
  eapply computes_bind; [apply ty_sys_any|]. intros s _. eapply (computes_bind _ ok); [ty|]. intros x _.
  eapply computes_bind; [apply ty_set_spaces|]. intros _ _.
  eapply computes_bind; [apply ty_pm_me; intros; apply ty_insertProcess|]. intros _ _.
  eapply computes_bind; [by apply ty_fork_thread|]. intros _ _. by apply computes_ret.
Qed.

Lemma ty_set_status v : in_s32 v -> T ok (upd_this_pcb (set_status v)).
Proof. intros Hv. apply ty_upd_this_pcb. by intros x (H1 & H2 & _). Qed.

Lemma ty_myJoin i : T ok (myJoin i).
Proof.
  unfold myJoin. eapply computes_bind; [apply ty_set_status; unfold in_s32; lia|]. intros _ _.
  eapply computes_bind; [apply ty_pm_me; intros; apply ty_getStatus|]. intros st _. destruct (_ <? _).
  - eapply computes_bind; [apply ty_pm_me; intros; apply ty_getStatus|]. intros st' Hst. by apply ty_end_syscall.
  - ty.
Qed.

Lemma ty_myExit v : T ok (myExit v).
Proof.
  unfold myExit. ty. apply ty_set_this. intros x [Hx _]. split; [done|]. by intros _ [].
Qed.
Hint Resolve ty_myFork ty_myExec ty_myJoin ty_myExit ty_myRead ty_myWrite ty_myClose : types.

(** ** The handlers *)

Lemma ty_Syscall type : type <> 5 -> T ok (Syscall garbage creatable fuel tick debugger ticks type).
Proof.
  intros Ht. unfold Syscall, myYield. rewrite (proj2 (Z.eqb_neq type 5)) by done.
  assert (Hexec : forall r, result_typed r -> T ok (match r with None => end_syscall (Some (-1)) | Some p => yield_then (Some p) end)).
  { intros [p|] Hr; [by apply ty_yield_then|]. apply ty_end_syscall. cbn. unfold in_s32. lia. }
  repeat match goal with |- computes _ _ (if ?b then _ else _) => destruct b end; try apply computes_fail;
    try (by apply ty_yield_then); try (by apply ty_end_syscall).
  all: try (eapply computes_bind; [apply ty_get_name|]; intros name _).
  all: try (eapply computes_bind; [apply ty_read_register|]; intros a1 H1).
  - by apply ty_myFork.
  - eapply computes_bind; [apply ty_myExec|]. intros r Hr. by apply Hexec.
  - apply ty_myJoin.
  - apply ty_myExit.
  - eapply computes_bind; [apply ty_myCreate|]. intros _ _. by apply ty_end_syscall.
  - do 2 (eapply computes_bind; [apply ty_read_register|]; intros ? ?).
    eapply computes_bind; [by apply ty_myRead|]. intros n Hn. by apply ty_end_syscall.
  - do 2 (eapply computes_bind; [apply ty_read_register|]; intros ? ?).
    eapply computes_bind; [by apply ty_myWrite|]. intros n Hn. by apply ty_end_syscall.
  - eapply computes_bind; [apply ty_myClose|]. intros _ _. by apply ty_end_syscall.
Qed.

Lemma stops_Open w r : no_files w -> Syscall garbage creatable fuel tick debugger ticks 5 w <> Ok r.
Proof.
  intros H. change (Syscall garbage creatable fuel tick debugger ticks 5) with
    (name ← get_name garbage tick debugger ticks; id ← myOpen name; end_syscall (Some id)).
  apply (stops_bind no_files); [apply keeps_get_name| |done]. intros name. apply stops_bind_l, stops_myOpen.
Qed.

(** Well typed, and no process has an open file (SyscallSafe.v). *)
Definition kernel_ok (w : W) : Prop := kernel_typed false w /\ no_files w.

Lemma ExceptionHandler_ok which w : kernel_ok w ->
  yields (fun r => kernel_ok (snd r)) (ExceptionHandler garbage creatable fuel tick debugger ticks which w).
Proof.
  intros [Hk Hf] [u w'] E.
  pose proof (keeps_ExceptionHandler garbage creatable fuel tick debugger ticks which w u w' Hf E) as Hf'.
  split; [|done]. revert E. unfold ExceptionHandler. unfold mbind, M_bind.
  destruct (read_register 2 w) as [[type w1]|] eqn:Er; [|done].
  destruct (ty_read_register false 2 w Hk _ Er) as [_ Hk1]. cbn in Hk1.
  assert (Hf1 : no_files w1) by exact (keeps_read_register 2 w type w1 Hf Er).
  destruct which; try done.
  - destruct (decide (type = 5)) as [->|Hne]; [intros E; by destruct (stops_Open w1 _ Hf1 E)|].
    intros E. by destruct (ty_Syscall type Hne w1 Hk1 _ E).
  - intros E. by destruct (ty_PageFault false w1 Hk1 _ E).
Qed.

Lemma ty_StartProcess name : T ok (StartProcess garbage fuel name).
Proof.
  unfold StartProcess. eapply computes_bind; [apply ty_fs_Open|]. intros [exe|] _; [|by apply computes_ret].
  eapply computes_bind; [apply ty_new_AddrSpace|]. intros sp _.
  eapply computes_bind; [|intros ? _; ty]. apply ty_set_this. intros x [Hx _]. by split.
Qed.

Context (Htick : forall w, kernel_ok w -> yields kernel_ok (tick w)).
Context (Hdebugger : forall w, kernel_ok w -> yields kernel_ok (debugger w)).

Definition sys_ok (s : Sys) : Prop := sys_typed false s /\ pcbs_fileless (s_pm s).

Lemma kernel_ok_split w : kernel_ok w <-> typed0 (fst w) /\ sys_ok (snd w).
Proof. unfold kernel_ok, kernel_typed, sys_ok, no_files. tauto. Qed.

#[local] Instance sys_types : KernelTypes Sys (KernelEntry0 := sys_kernel garbage creatable fuel tick debugger ticks) sys_ok.
Proof.
  split.
  - intros st s [[] H]. split; [by split|done].
  - intros exc m k Hm Hk w E. apply kernel_ok_split. cbn in E. unfold run_in in E.
    destruct (ExceptionHandler _ _ _ _ _ _ exc (m, k)) as [r|] eqn:Er; [|done]. injection E as <-.
    by apply (ExceptionHandler_ok exc (m, k)); [apply kernel_ok_split|].
  - intros m k Hm Hk w E. apply kernel_ok_split. by apply (Htick (m, k)); [apply kernel_ok_split|].
  - intros m k Hm Hk w E. apply kernel_ok_split. by apply (Hdebugger (m, k)); [apply kernel_ok_split|].
Qed.

Lemma Run_ok n w : kernel_ok w ->
  yields kernel_ok (Run (KernelEntry0 := sys_kernel garbage creatable fuel tick debugger ticks) n w).
Proof.
  intros Hw. apply kernel_ok_split in Hw.
  eapply yields_mono; [exact (Run_typed sys_ok n w Hw)|]. intros w' H. by apply kernel_ok_split.
Qed.
End User.

(** ** The property *)

(** C10: The simulator and the kernel together keep their types.  From a
    well-typed state, every exception that is handled, the start of a
    process, and any number of turns of [Machine::Run] after it, whatever
    the program does and whatever its pages, system calls and context
    switches do, end in a well-typed state, if they end: 8 KB of bytes, 40
    registers of 32 bits with register 0 equal to 0, and so are the saved
    registers of every other thread with an address space; the swap file
    and all files hold bytes; process numbers, statuses and pending results
    are 32-bit integers. *)
Theorem user_programs_typed garbage creatable fuel tick debugger ticks w :
  (forall w, kernel_ok w -> yields kernel_ok (tick w)) ->
  (forall w, kernel_ok w -> yields kernel_ok (debugger w)) ->
  kernel_ok w ->
  (forall which w', Syscall.ExceptionHandler garbage creatable fuel tick debugger ticks which w = Ok (tt, w') -> kernel_ok w') /\
  (forall n w', Run (KernelEntry0 := sys_kernel garbage creatable fuel tick debugger ticks) n w = Ok w' -> kernel_ok w') /\
  (forall name b w1, StartProcess garbage fuel name w = Ok (b, w1) -> kernel_ok w1 /\
    forall n w2, Run (KernelEntry0 := sys_kernel garbage creatable fuel tick debugger ticks) n w1 = Ok w2 -> kernel_ok w2).
Proof.
  intros Ht Hd Hw. split; [|split].
  - intros which w' E. exact (ExceptionHandler_ok garbage creatable fuel tick debugger ticks which w Hw _ E).
  - intros n w' E. exact (Run_ok garbage creatable fuel tick debugger ticks Ht Hd n w Hw w' E).
  - intros name b w1 E. assert (H1 : kernel_ok w1).
    { split; [by destruct (ty_StartProcess garbage fuel name w (proj1 Hw) _ E)|].
      exact (keeps_StartProcess garbage fuel name w b w1 (proj2 Hw) E). }
    split; [done|]. intros n w2 E2. exact (Run_ok garbage creatable fuel tick debugger ticks Ht Hd n w1 H1 w2 E2).
Qed.

Definition byte_ok (x : Z) : bool := (0 <=? x) && (x <? 256).
Definition word_ok (x : Z) : bool := (- 2 ^ 31 <=? x) && (x <? 2 ^ 31).

Lemma forallb_Forall {A} (P : A -> Prop) f (l : list A) : (forall x, f x = true -> P x) -> forallb f l = true -> Forall P l.
Proof. intros Hf H. apply Forall_forall. intros x Hx. apply Hf. rewrite forallb_forall in H. apply H. by apply list_elem_of_In. Qed.

Lemma example_kernel_ok : kernel_ok (example_m, example_s).
Proof.
  split; [|apply example_no_files]. split.
  - split; [|reflexivity]. split; split.
    + vm_compute. reflexivity.
    + apply (forallb_Forall _ byte_ok); [|vm_compute; reflexivity].
      unfold byte_ok, in_u8. intros x Hx. apply andb_true_iff in Hx as [H1 H2]. apply Z.leb_le in H1. apply Z.ltb_lt in H2. lia.
    + reflexivity.
    + apply (forallb_Forall _ word_ok); [|vm_compute; reflexivity].
      unfold word_ok, in_s32. intros x Hx. apply andb_true_iff in Hx as [H1 H2]. apply Z.leb_le in H1. apply Z.ltb_lt in H2. lia.
  - split; cbn.
    + by split.
    + split; [by vm_compute|]. apply map_Forall_insert_2; [|done]. split_and!; by vm_compute.
    + done.
    + by apply map_Forall_insert_2.
    + intros t x. rewrite lookup_insert_Some. intros [[<- <-]|[_ [=]]] [H|H]; done.
Qed.

Lemma user_programs_typed_witness :
  (exists w', Run (KernelEntry0 := sys_kernel 99 (fun _ => true) 0 Ok Ok (fun _ => 0)) 3 (example_m, example_s) = Ok w' /\
    kernel_ok w') /\
  (exists w', Syscall.ExceptionHandler 99 (fun _ => true) 0 Ok Ok (fun _ => 0) SyscallException (example_m, example_s) = Ok (tt, w') /\
    kernel_ok w').
Proof.
  destruct (user_programs_typed 99 (fun _ => true) 0 Ok Ok (fun _ => 0) (example_m, example_s)) as (H1 & H2 & _).
  - intros w Hw w' [= <-]. exact Hw.
  - intros w Hw w' [= <-]. exact Hw.
  - exact example_kernel_ok.
  - split.
    + assert (Hok : is_ok (Run (KernelEntry0 := sys_kernel 99 (fun _ => true) 0 Ok Ok (fun _ => 0)) 3 (example_m, example_s)) = true)
        by (vm_compute; reflexivity).
      destruct (Run 3 _) as [w'|] eqn:E; [|discriminate Hok]. exists w'. split; [reflexivity|exact (H2 _ _ E)].
    + assert (Hok : is_ok (Syscall.ExceptionHandler 99 (fun _ => true) 0 Ok Ok (fun _ => 0) SyscallException (example_m, example_s)) = true)
        by (vm_compute; reflexivity).
      destruct (Syscall.ExceptionHandler _ _ _ _ _ _ _ _) as [[[] w']|] eqn:E; [|discriminate Hok].
      exists w'. split; [reflexivity|exact (H1 _ _ E)].
Defined.
