(* ===== verification/ConsoleWrite.v ===== *)
(** * Writing to the console, correct

    SC_Write on ConsoleOutput from user memory that is resident: what
    ReadWrite copies, what printf shows, where the program continues. *)

From stdpp Require Import base list numbers gmap.
From S2P Require Import Prelude Arrays State Bitmap Machine Lru Vm VmSafe Loader Paging Process Syscall.

(** ** User memory, byte by byte *)

Definition user_byte (m : Machine) (a : Z) : option Z :=
  pt ← pageTable m; e ← pt !! Z.to_nat (a / PageSize);
  if valid e then mainMemory m !! Z.to_nat (physicalPage e * PageSize + a mod PageSize) else None.

(** A call of Translate from ReadWrite succeeds at [c] with [rest] bytes to
    go: the page is resident, and the check at the end of Translate, which
    is for all of [rest], holds. *)
Definition chunk_ok (m : Machine) (c rest : Z) : Prop :=
  exists pt e, pageTable m = Some pt /\ c / PageSize < pageTableSize m /\ pt !! Z.to_nat (c / PageSize) = Some e /\
    valid e = true /\ 0 <= physicalPage e /\ physicalPage e * PageSize + c mod PageSize + rest <= MemorySize.

(** ReadWrite calls Translate at the start of the buffer and of each page. *)
Record buffer_ok (m : Machine) (a n : Z) : Prop := {
  b_tlb : tlb m = None;
  b_start : 0 <= a;
  b_end : a + n < 2 ^ 31;
  b_aligned : misaligned a n = false;
  b_chunks c : a <= c < a + n -> c = a \/ c mod PageSize = 0 -> chunk_ok m c (a + n - c)
}.

(** Machines that differ in the use bits of the page table only. *)
Definition used (m m' : Machine) : Prop :=
  exists pt pt', pageTable m = Some pt /\ m' = Machine.set_pageTable m (Some pt') /\
    set_use false <$> pt' = set_use false <$> pt.

Lemma used_entry (pt pt' : list TranslationEntry) (i : nat) e : set_use false <$> pt' = set_use false <$> pt -> pt !! i = Some e ->
  exists e', pt' !! i = Some e' /\ valid e' = valid e /\ physicalPage e' = physicalPage e.
Proof.
  intros E H. apply (f_equal (.!! i)) in E. rewrite !list_lookup_fmap, H in E. cbn in E.
  destruct (pt' !! i) as [e'|]; [|done]. injection E as E1 E2 E3 E4. eauto.
Qed.

Lemma used_byte m m' a : used m m' -> user_byte m' a = user_byte m a.
Proof.
  intros (pt & pt' & E & -> & Hu). unfold user_byte. cbn [pageTable Machine.set_pageTable mainMemory]. rewrite E. cbn.
  destruct (pt !! Z.to_nat (a / PageSize)) as [e|] eqn:El.
  - destruct (used_entry pt pt' _ _ Hu El) as (e' & -> & H1 & H2). cbn. by rewrite H1, H2.
  - apply (f_equal (.!! Z.to_nat (a / PageSize))) in Hu. rewrite !list_lookup_fmap, El in Hu. cbn in Hu.
    by destruct (pt' !! _).
Qed.

Lemma used_chunk m m' c rest : used m m' -> chunk_ok m c rest -> chunk_ok m' c rest.
Proof.
  intros (pt & pt' & E & -> & Hu) (pt1 & e & E1 & H1 & H2 & H3 & H4 & H5). rewrite E in E1. injection E1 as <-.
  destruct (used_entry pt pt' _ _ Hu H2) as (e' & He & Hv & Hp). exists pt', e'. cbn. rewrite Hv, Hp. done.
Qed.

Lemma used_trans m m1 m2 : used m m1 -> used m1 m2 -> used m m2.
Proof.
  intros (pt & pt1 & E & -> & H) (q & pt2 & E1 & -> & H1). injection E1 as <-. exists pt, pt2.
  split; [done|]. split; [done|]. congruence.
Qed.

(** ** One round of ReadWrite *)

Lemma misaligned_page c n : c mod PageSize = 0 -> misaligned c n = false.
Proof.
  intros H. unfold misaligned. change 3 with (Z.ones 2). change 1 with (Z.ones 1). rewrite !Z.land_ones by lia.
  change PageSize with 128 in H. replace (c mod 2 ^ 2) with 0 by (Z.to_euclidean_division_equations; lia).
  replace (c mod 2 ^ 1) with 0 by (Z.to_euclidean_division_equations; lia). cbn. by rewrite !andb_false_r.
Qed.

Lemma Translate_chunk m c rest : tlb m = None -> 0 <= c < 2 ^ 31 -> 0 < rest -> misaligned c rest = false ->
  chunk_ok m c rest ->
  exists q m', Machine.Translate c rest false m = Ok (NoException, q, m') /\ used m m' /\
    0 <= q /\ q + rest <= MemorySize /\ q mod PageSize = c mod PageSize /\
    (forall i, 0 <= i -> c mod PageSize + i < PageSize -> user_byte m (c + i) = mainMemory m !! Z.to_nat (q + i)).
Proof.
  intros Ht Hc Hr Ha (pt & e & Ept & Hsz & He & Hv & Hf & Hfit).
  assert (Hu : u32 c = c) by (apply u32_id; unfold in_u32; lia).
  change (PageSize) with Machine.PageSize in *.
  assert (Hmod : 0 <= c mod Machine.PageSize < 128) by (apply Z.mod_pos_bound; done).
  assert (Hff : u32 (physicalPage e) = physicalPage e).
  { apply u32_id. unfold in_u32. change MemorySize with 8192 in Hfit. change Machine.PageSize with 128 in *. lia. }
  assert (Hfr : NumPhysPages <=? physicalPage e = false).
  { apply Z.leb_gt. change NumPhysPages with 64. change MemorySize with 8192 in Hfit. change Machine.PageSize with 128 in *. lia. }
  assert (Hpos : 0 <= c / Machine.PageSize) by (apply Z.div_pos; done || lia).
  exists (physicalPage e * Machine.PageSize + c mod Machine.PageSize),
    (Machine.set_pageTable m (Some (<[Z.to_nat (c / Machine.PageSize) := mkTE (virtualPage e) (physicalPage e) (valid e) (readOnly e) true (dirty e)]> pt))).
  split; [|split; [|split; [|split; [|split]]]].
  - unfold Machine.Translate. rewrite Ha, Ht, Ept. cbn [is_NULL negb orb ASSERT mbind res_bind].
    rewrite Hu, (proj2 (Z.leb_gt _ _) Hsz). cbn [deref mbind res_bind].
    rewrite (aget_lookup _ _ e) by done. cbn [mbind res_bind]. rewrite Hv. cbn [negb].
    unfold use_entry. rewrite andb_false_r, Hff, Hfr.
    rewrite ASSERT_true; [|apply andb_true_intro; split; apply Z.leb_le; change Machine.PageSize with 128 in *; lia].
    cbn [mbind res_bind]. rewrite aset_in_range; [|apply lookup_lt_Some in He; unfold zlen; lia].
    cbn [mbind res_bind]. by rewrite Hv.
  - exists pt, (<[Z.to_nat (c / Machine.PageSize) := mkTE (virtualPage e) (physicalPage e) (valid e) (readOnly e) true (dirty e)]> pt).
    split; [done|]. split; [done|]. rewrite list_fmap_insert. apply list_insert_id. rewrite list_lookup_fmap, He. done.
  - change Machine.PageSize with 128 in *. lia.
  - change Machine.PageSize with 128 in *. lia.
  - rewrite Z.add_comm, Z.mod_add by done. by rewrite Z.mod_mod.
  - intros i Hi Hlt. unfold user_byte. rewrite Ept. cbn.
    change PageSize with 128 in *. change Machine.PageSize with 128 in *.
    replace ((c + i) / 128) with (c / 128) by (Z.to_euclidean_division_equations; lia). rewrite He. cbn. rewrite Hv.
    f_equal. Z.to_euclidean_division_equations; lia.
Qed.

Lemma translate_chunk m s c rest pa : tlb m = None -> 0 <= c < 2 ^ 31 -> 0 < rest -> misaligned c rest = false ->
  chunk_ok m c rest ->
  exists q m', translate_arg c rest pa (m, s) = Ok (q, (m', s)) /\ used m m' /\
    0 <= q /\ q + rest <= MemorySize /\ q mod PageSize = c mod PageSize /\
    (forall i, 0 <= i -> c mod PageSize + i < PageSize -> user_byte m (c + i) = mainMemory m !! Z.to_nat (q + i)).
Proof.
  intros Ht Hc Hr Ha Hok. destruct (Translate_chunk m c rest Ht Hc Hr Ha Hok) as (q & m' & E & H).
  exists q, m'. split; [|exact H]. unfold translate_arg. cbn [fst snd]. rewrite E. cbn [mbind res_bind]. by rewrite bool_decide_true.
Qed.

(** ** The loop *)

(** [bs] are the [n] bytes from [a] on. *)
Definition user_bytes (m : Machine) (a : Z) (bs : list Z) : Prop :=
  forall i, (i < length bs)%nat -> user_byte m (a + Z.of_nat i) = bs !! i.

Lemma ReadWrite_out_ok k m s a bs copied pa buffer :
  zlen (mainMemory m) = MemorySize -> buffer_ok m a (zlen bs) -> user_bytes m a bs -> (length bs <= k)%nat ->
  0 <= copied -> copied + zlen bs <= zlen buffer ->
  exists m', ReadWrite_out k a (zlen bs) copied pa buffer (m, s) = Ok ((copied + zlen bs, splice copied bs buffer), (m', s)) /\
    (m' = m \/ used m m').
Proof.
  revert m a bs copied pa buffer. induction k as [|k IH]; intros m a bs copied pa buffer Hm Hb Hbs Hk Hc Hl; cbn [ReadWrite_out].
  { destruct bs; [|cbn in Hk; lia]. exists m. cbn. unfold ret. rewrite splice_nil, Z.add_0_r. auto. }
  destruct (Z.ltb_spec 0 (zlen bs)) as [Hpos|Hz].
  2: { destruct bs; [|unfold zlen in Hz; cbn in Hz; lia]. exists m. unfold ret. rewrite splice_nil.
       replace (copied + zlen []) with copied by (unfold zlen; cbn; lia). auto. }
  destruct Hb as [Ht Ha Hend Hal Hch].
  destruct (translate_chunk m s a (zlen bs) pa) as (q & m1 & ET & Hu & Hq & Hfit & Hmod & Hbyte); try done; [lia| |].
  { replace (zlen bs) with (a + zlen bs - a) by lia. apply Hch; [lia|by left]. }
  unfold mbind at 1, M_bind at 1. rewrite ET. cbn zeta.
  set (act := Z.min (PageSize - Z.rem q PageSize) (zlen bs)).
  assert (Hrem : Z.rem q PageSize = a mod PageSize) by (rewrite Z.rem_mod_nonneg by done; exact Hmod).
  assert (Hoff : 0 <= a mod PageSize < 128) by (apply Z.mod_pos_bound; done).
  assert (Hact : 0 < act <= zlen bs /\ a mod PageSize + act <= PageSize) by (unfold act; change PageSize with 128 in *; lia).
  assert (Em : mainMemory m1 = mainMemory m) by (destruct Hu as (? & ? & _ & -> & _); done).
  assert (Hslice : slice q act (mainMemory m1) = take (Z.to_nat act) bs).
  { rewrite Em. apply list_eq. intros i. rewrite slice_lookup by lia. case_decide as Hi.
    - rewrite lookup_take_lt by lia. rewrite <-Hbs by (unfold zlen in *; lia).
      rewrite Hbyte by lia. f_equal. lia.
    - symmetry. apply lookup_take_ge. lia. }
  assert (Hlen : zlen (take (Z.to_nat act) bs) = act) by (unfold zlen in *; rewrite length_take; lia).
  assert (Hrest : zlen (drop (Z.to_nat act) bs) = zlen bs - act) by (unfold zlen in *; rewrite length_drop; lia).
  unfold mbind at 1, M_bind at 1, gets. cbn [fst].
  unfold mbind at 1, M_bind at 1, lift at 1. rewrite bread_Ok, Hslice by (rewrite ?Em, ?Hm; lia).
  unfold mbind at 1, M_bind at 1, lift at 1. rewrite bwrite_Ok by (rewrite ?Hlen; lia).
  rewrite s32_id by (unfold in_s32; lia). rewrite <-Hrest.
  assert (Hm1 : zlen (mainMemory m1) = MemorySize) by (by rewrite Em).
  assert (Hnext : act < zlen bs -> (a + act) mod PageSize = 0).
  { intros Hlt. assert (act = 128 - a mod PageSize) as -> by (unfold act in *; change PageSize with 128 in *; lia).
    change PageSize with 128 in *. Z.to_euclidean_division_equations; lia. }
  destruct (IH m1 (a + act) (drop (Z.to_nat act) bs) (copied + act) q (splice copied (take (Z.to_nat act) bs) buffer))
    as (m2 & E2 & Hu2); try done.
  - split.
    + by destruct Hu as (? & ? & _ & -> & _).
    + lia.
    + rewrite Hrest. lia.
    + rewrite Hrest. destruct (Z.eq_dec act (zlen bs)) as [->|]; [|apply misaligned_page, Hnext; lia].
      by replace (zlen bs - zlen bs) with 0 by lia.
    + intros c Hcr Hcc. rewrite Hrest in *. apply (used_chunk m); [done|].
      replace (a + act + (zlen bs - act) - c) with (a + zlen bs - c) by lia. apply Hch; [lia|]. right.
      destruct Hcc as [->|]; [apply Hnext; lia|done].
  - intros i Hi. rewrite (used_byte m m1) by done. rewrite length_drop in Hi.
    replace (a + act + Z.of_nat i) with (a + Z.of_nat (Z.to_nat act + i)) by lia. rewrite Hbs by lia. by rewrite lookup_drop.
  - rewrite length_drop. unfold zlen in *. lia.
  - lia.
  - rewrite Hrest, zlen_splice by (rewrite ?Hlen; lia). lia.
  - exists m2. rewrite E2, Hrest. split.
    + f_equal. f_equal. f_equal; [lia|]. rewrite <-Hlen at 1. rewrite splice_splice by (rewrite ?Hlen, ?Hrest; lia).
      by rewrite take_drop.
    + right. destruct Hu2 as [->|Hu2]; [done|]. by apply (used_trans m m1).
Qed.

(** ** The string that is shown *)

Fixpoint until_nul (l : list Z) : list Z :=
  match l with
  | [] => []
  | c :: l => if c =? 0 then [] else c :: until_nul l
  end.

Lemma c_string_until_nul l : c_string (l ++ [0]) = Ok (until_nul l).
Proof. induction l as [|c l IH]; cbn; [done|]. destruct (c =? 0); [done|]. by rewrite IH. Qed.

Lemma terminated g bs : aset (splice 0 bs (replicate (Z.to_nat (zlen bs + 1)) g)) (zlen bs) 0 = Ok (bs ++ [0]).
Proof.
  replace (replicate (Z.to_nat (zlen bs + 1)) g) with (replicate (length bs) g ++ [g]).
  2: { replace (Z.to_nat (zlen bs + 1)) with (length bs + 1)%nat by (unfold zlen; lia). by rewrite replicate_add. }
  unfold splice. change (Z.to_nat 0) with 0%nat. rewrite take_0, app_nil_l, Nat.add_0_l. rewrite drop_app_length' by by rewrite length_replicate.
  rewrite aset_in_range by (rewrite zlen_app; unfold zlen; cbn [length]; lia).
  unfold zlen. rewrite Nat2Z.id. rewrite insert_app_r_alt by lia. by rewrite Nat.sub_diag.
Qed.

(** ** The end of a system call *)

(** The address space of the current thread is read off four members. *)
Lemma this_as_eq m s : this_as (m, s) =
  (x ← deref (s_threads s !! s_current s); sp ← with_ptr (s_spaces s) (ut_space x) Ok;
   p ← with_ptr (pcb_heap (s_pm s)) (sp_pcb sp) Ok; Ok (mkAS (sp_table sp) (sp_numPages sp) (pid p), (m, s))).
Proof.
  unfold this_as, this_space, this_thread, with_ptr, pm, get_pcb, zoom, with_ptr.
  cbv [mbind M_bind gets lift ret sys deref res_bind id fst snd].
  destruct (s_threads s !! s_current s) as [x|]; [|done]. destruct (ut_space x) as [b|]; [|done].
  destruct (s_spaces s !! b) as [sp|]; [|done]. destruct (sp_pcb sp) as [c|]; [|done].
  destruct (pcb_heap (s_pm s) !! c) as [q|]; [|done]. by destruct s.
Qed.

Lemma this_as_irrelevant m m' s s' a :
  s_threads s' = s_threads s -> s_current s' = s_current s -> s_spaces s' = s_spaces s -> s_pm s' = s_pm s ->
  this_as (m, s) = Ok (a, (m, s)) -> this_as (m', s') = Ok (a, (m', s')).
Proof. rewrite !this_as_eq. intros -> -> -> -> H. invert_res. by rewrite E; cbn; rewrite E0; cbn; rewrite E1. Qed.

Lemma cleanup_run a v pt : tables v !! as_table a = Some pt -> as_numPages a = zlen pt ->
  CleanupSysCall a v = Ok (tt, set_tables (<[as_table a := set_use false <$> pt]> (tables v)) v).
Proof.
  intros Ht Hn. unfold CleanupSysCall. rewrite Hn. unfold zlen. rewrite Nat2Z.id.
  set (at_j j := set_tables (<[as_table a := (set_use false <$> take (Z.to_nat j) pt) ++ drop (Z.to_nat j) pt]> (tables v)) v).
  assert (H : run_to (forM (length pt) 0 (fun i => upd_entry (as_table a, i) (set_use false))) v
    (fun _ v' => v' = at_j (0 + Z.of_nat (length pt)))).
  { apply (run_to_forM (fun j v' => v' = at_j j)).
    { unfold at_j. cbn. rewrite drop_0, insert_id by done. by destruct v. }
    intros j v' Hj ->.
    destruct (lookup_lt_is_Some_2 pt (Z.to_nat j)) as [e He]; [lia|].
    set (l := (set_use false <$> take (Z.to_nat j) pt) ++ drop (Z.to_nat j) pt).
    assert (Et : tables (at_j j) !! as_table a = Some l) by (unfold at_j; cbn [tables set_tables]; apply lookup_insert_eq).
    assert (Hl : l !! Z.to_nat j = Some e).
    { unfold l. rewrite lookup_app_r; rewrite length_fmap, length_take; [|lia].
      rewrite lookup_drop. rewrite <-He. f_equal. lia. }
    unfold upd_entry, store_entry. eexists tt, _. cbn [fst snd]. rewrite Et. cbn [deref mbind res_bind].
    rewrite (aget_lookup l j e) by (done || lia). cbn [mbind res_bind].
    rewrite aset_in_range by (apply lookup_lt_Some in Hl; unfold zlen; lia). cbn [mbind res_bind].
    split; [reflexivity|]. unfold at_j. cbn. unfold set_tables. cbn. rewrite insert_insert_eq. do 2 f_equal.
    unfold l. replace (Z.to_nat (j + 1)) with (S (Z.to_nat j)) by lia.
    rewrite (take_S_r _ _ e) by done. rewrite fmap_app. cbn. rewrite <-app_assoc.
    rewrite insert_app_r_alt; rewrite length_fmap, length_take; [|lia].
    replace (Z.to_nat j - _)%nat with 0%nat by lia. by rewrite (drop_S pt e). }
  destruct H as ([] & v' & E & ->). rewrite E. unfold at_j.
  replace (Z.to_nat (0 + Z.of_nat (length pt))) with (length pt) by lia. by rewrite take_ge, drop_ge, app_nil_r by lia.
Qed.

(** The registers when the call is over: the next instruction. *)
Definition advanced (m m' : Machine) : Prop :=
  exists pc next, ReadRegister PCReg m = Ok pc /\ ReadRegister NextPCReg m = Ok next /\
    registers m' = <[Z.to_nat NextPCReg := s32 (next + 4)]> (<[Z.to_nat PCReg := next]> (<[Z.to_nat PrevPCReg := pc]> (registers m))).

Lemma read_register_ok m s i x : ReadRegister i m = Ok x -> read_register i (m, s) = Ok (x, (m, s)).
Proof. intros E. unfold read_register, mbind, M_bind, gets, lift. cbn [fst]. by rewrite E. Qed.

Lemma write_register_ok m s i v : 0 <= i < zlen (registers m) -> zlen (registers m) = NumTotalRegs ->
  write_register i v (m, s) = Ok (tt, (Machine.set_registers m (<[Z.to_nat i := v]> (registers m)), s)).
Proof.
  intros Hi Hn. unfold write_register, on_machine, WriteRegister, setr. cbn [fst snd].
  rewrite ASSERT_true by (apply andb_true_intro; split; [apply Z.leb_le|apply Z.ltb_lt]; lia). cbn [mbind res_bind].
  by rewrite aset_in_range.
Qed.

Lemma incrRegs_run m s : zlen (registers m) = NumTotalRegs ->
  exists regs, incrRegs (m, s) = Ok (tt, (Machine.set_registers m regs, s)) /\ advanced m (Machine.set_registers m regs).
Proof.
  intros Hr. change NumTotalRegs with 40 in Hr.
  destruct (aget_in_range (registers m) PCReg) as [pc Hpc]; [by rewrite Hr|].
  destruct (aget_in_range (registers m) NextPCReg) as [next Hnext]; [by rewrite Hr|].
  eexists. split; [|exists pc, next; split; [exact Hpc|]; split; [exact Hnext|reflexivity]].
  unfold incrRegs.
  unfold mbind at 1, M_bind at 1. rewrite (read_register_ok m s PCReg pc) by done.
  unfold mbind at 1, M_bind at 1. rewrite write_register_ok by (rewrite ?Hr; done).
  unfold mbind at 1, M_bind at 1. rewrite (read_register_ok _ s NextPCReg next).
  2: { unfold ReadRegister, getr. cbn [registers Machine.set_registers]. rewrite ASSERT_true by done. cbn [mbind res_bind].
       rewrite aget_insert_ne; [exact Hnext|done|done]. }
  unfold mbind at 1, M_bind at 1. rewrite write_register_ok by (cbn; rewrite zlen_insert, Hr; done).
  rewrite write_register_ok by (cbn; rewrite !zlen_insert, Hr; done). done.
Qed.

(** The world when the call is over: page [pt] with the use bits off. *)
Lemma end_syscall_run m s a pt : this_as (m, s) = Ok (a, (m, s)) -> pageTable m = Some pt ->
  as_numPages a = zlen pt -> zlen (registers m) = NumTotalRegs ->
  exists m', end_syscall None (m, s) =
    Ok (tt, (m', set_s_vm (set_memory (mainMemory m) (set_tables (<[as_table a := set_use false <$> pt]> (tables (s_vm s))) (s_vm s))) s)) /\
    mainMemory m' = mainMemory m /\ pageTable m' = Some (set_use false <$> pt) /\ advanced m m' /\
    tlb m' = tlb m /\ pageTableSize m' = pageTableSize m.
Proof.
  intros Ha Hpt Hn Hr. unfold end_syscall.
  unfold mbind at 1, M_bind at 1. cbn [ret]. unfold mbind at 1, M_bind at 1. rewrite Ha.
  unfold mbind at 1, M_bind at 1. unfold on_vm at 1. unfold mbind at 1, M_bind at 1. rewrite Ha. cbn [fst snd].
  unfold enter. cbn [uk_vm uk_space]. rewrite Hpt. cbn [default from_option].
  rewrite (cleanup_run a _ pt); [|by cbn; rewrite lookup_insert_eq|done].
  unfold leave. cbn. rewrite lookup_insert_eq, insert_insert_eq.
  match goal with |- context [incrRegs (?m1, ?s1)] => destruct (incrRegs_run m1 s1) as (regs & -> & Hadv); [exact Hr|] end.
  eexists. split; [reflexivity|]. done.
Qed.

(** Four bytes (or two) at an address that is not a multiple: the address
    left in [physicAddr] is used. *)
Lemma translate_misaligned m s c rest pa : misaligned c rest = true -> translate_arg c rest pa (m, s) = Ok (pa, (m, s)).
Proof. intros H. unfold translate_arg, Machine.Translate. cbn [fst snd]. by rewrite H. Qed.

Lemma used_table m m' pt : pageTable m = Some pt -> m' = m \/ used m m' ->
  exists pt', pageTable m' = Some pt' /\ set_use false <$> pt' = set_use false <$> pt /\ zlen pt' = zlen pt /\
    mainMemory m' = mainMemory m /\ registers m' = registers m.
Proof.
  intros E [->|(q & pt' & Eq & -> & H)]; [by exists pt|]. rewrite E in Eq. injection Eq as <-.
  exists pt'. split; [done|]. split; [done|]. split; [|done].
  apply (f_equal length) in H. rewrite !length_fmap in H. unfold zlen. by rewrite H.
Qed.

(** ** The property *)

(** Writing to the console shows what the program wrote.  When the
    buffer is in resident pages of the program (the first address aligned
    if the size is 2 or 4, and no page so near the end of memory that the
    bytes to go do not fit behind it), the system call returns, the bytes
    of user memory up to the first 0 are appended to the output, memory
    and the rest of the kernel are as before, and the program goes on with
    the next instruction. *)
Theorem console_write garbage creatable fuel tick debugger ticks m s a pt (va : Z) (bs : list Z) :
  zlen (mainMemory m) = MemorySize -> zlen (registers m) = NumTotalRegs ->
  ReadRegister 2 m = Ok 7 -> ReadRegister 4 m = Ok va -> ReadRegister 5 m = Ok (zlen bs) ->
  ReadRegister 6 m = Ok ConsoleOutput ->
  buffer_ok m va (zlen bs) -> user_bytes m va bs ->
  this_as (m, s) = Ok (a, (m, s)) -> pageTable m = Some pt -> as_numPages a = zlen pt ->
  exists m' v, ExceptionHandler garbage creatable fuel tick debugger ticks SyscallException (m, s) =
      Ok (tt, (m', set_s_vm v (set_s_stdout (s_stdout s ++ until_nul bs) s))) /\
    mainMemory m' = mainMemory m /\ pageTable m' = Some (set_use false <$> pt) /\ advanced m m' /\
    tlb m' = tlb m /\ pageTableSize m' = pageTableSize m /\
    memManager v = memManager (s_vm s) /\ swapMgr v = swapMgr (s_vm s) /\ policy v = policy (s_vm s).
Proof.
  intros Hm Hr H2 H4 H5 H6 Hb Hbs Ha Hpt Hn.
  assert (Hsmall : 0 <= zlen bs /\ zlen bs <= MemorySize).
  { split; [unfold zlen; lia|]. destruct (Z.ltb_spec 0 (zlen bs)); [|change MemorySize with 8192; lia].
    destruct (b_chunks m va (zlen bs) Hb va) as (pt0 & e & _ & _ & _ & _ & H0 & H1); [lia|by left|].
    pose proof (Z.mod_pos_bound va PageSize ltac:(done)). change PageSize with 128 in *. lia. }
  change MemorySize with 8192 in Hsmall.
  unfold ExceptionHandler. unfold mbind at 1, M_bind at 1. rewrite (read_register_ok m s 2 7 H2).
  change (Syscall garbage creatable fuel tick debugger ticks 7) with
    (a1 ← read_register 4; a2 ← read_register 5; a3 ← read_register 6; _ ← myWrite garbage a1 a2 a3; end_syscall None).
  unfold mbind at 1, M_bind at 1. rewrite (read_register_ok m s 4 va H4).
  unfold mbind at 1, M_bind at 1. rewrite (read_register_ok m s 5 (zlen bs) H5).
  unfold mbind at 1, M_bind at 1. rewrite (read_register_ok m s 6 _ H6).
  unfold mbind at 1, M_bind at 1. unfold myWrite.
  rewrite s32_id by (unfold in_s32; lia).
  unfold mbind at 1, M_bind at 1. unfold new_chars, assert. unfold mbind at 1, M_bind at 1, lift at 1.
  rewrite ASSERT_true by (apply Z.leb_le; lia). unfold ret at 1.
  unfold mbind at 1, M_bind at 1. unfold USER_WRITE_copy.
  set (buffer := replicate _ _).
  destruct (ReadWrite_out_ok (Z.to_nat (zlen bs)) m s va bs 0 garbage buffer) as (m1 & -> & Hu); try done.
  { unfold zlen. lia. }
  { unfold buffer, zlen. rewrite length_replicate. lia. }
  rewrite (Z.eqb_refl ConsoleOutput). unfold mbind at 1, M_bind at 1. unfold lift at 1. cbn [snd]. unfold buffer.
  rewrite terminated. unfold printf_s. unfold mbind at 1, M_bind at 1. unfold lift at 1. rewrite c_string_until_nul.
  unfold upd_sys at 1, modify at 1. cbn [fst snd].
  destruct (used_table m m1 pt Hpt Hu) as (pt1 & Hpt1 & Hset & Hz & Em & Er).
  destruct (end_syscall_run m1 (set_s_stdout (s_stdout s ++ until_nul bs) s) a pt1) as (m2 & -> & Hm2 & Hp2 & Hadv & Ht2 & Hz2).
  { by apply (this_as_irrelevant m _ s). }
  { done. }
  { congruence. }
  { congruence. }
  eexists m2, _. split; [reflexivity|]. split; [congruence|]. split; [congruence|].
  split; [|split; [|split; [|done]]].
  - destruct Hadv as (pc & next & E1 & E2 & E3). exists pc, next. revert E1 E2. unfold ReadRegister, getr. rewrite Er in *. auto.
  - rewrite Ht2. by destruct Hu as [->|(? & ? & _ & -> & _)].
  - rewrite Hz2. by destruct Hu as [->|(? & ? & _ & -> & _)].
Qed.

Lemma console_write_witness : exists m' v,
  ExceptionHandler 99 (fun _ => true) 0 Ok Ok (fun _ => 0) SyscallException (example_m, example_s) =
    Ok (tt, (m', set_s_vm v (set_s_stdout [72; 105; 33; 10] example_s))) /\ ReadRegister PCReg m' = Ok 44.
Proof.
  destruct (console_write 99 (fun _ => true) 0 Ok Ok (fun _ => 0) example_m example_s (mkAS 8 2 0) example_table 125 example_text)
    as (m' & v & E & _ & _ & (pc & next & H1 & H2 & H3) & _); try reflexivity.
  - split; try reflexivity; [lia|]. intros c Hc [->|Hc0]; [by exists example_table, (mkTE 0 3 true false false false)|].
    change (zlen example_text) with 6 in Hc. change PageSize with 128 in Hc0.
    assert (c = 128) as -> by (Z.to_euclidean_division_equations; lia).
    by exists example_table, (mkTE 1 1 true false true true).
  - intros i Hi. cbn in Hi. do 6 (destruct i as [|i]; [reflexivity|]). lia.
  - exists m', v. split; [exact E|]. vm_compute in H1, H2. injection H1 as <-. injection H2 as <-.
    unfold ReadRegister, getr. by rewrite H3.
Defined.
