(* ===== verification/Stubs.v ===== *)
(** * test/start.s: the start of a user program and the stubs of the calls

    The instructions of start.s as words that Mips.v executes.  The
    assembler fills the slot after a jump with a nop.  A system call is
    followed from the instruction that calls the stub's address, through the
    simulator and the kernel, back to the instruction behind the call. *)

From stdpp Require Import base list numbers gmap.
From S2P Require Import Prelude Arrays State Bitmap Machine Mips Isa Lru Vm VmSafe Loader Paging Process Syscall ConsoleWrite.

(** ** The instructions that start.s uses *)

Inductive asm :=
  | addiu (rt rs imm : Z)
  | syscall
  | jr (r : Z)            (* j $r *)
  | jal (addr : Z)
  | move (rd rs : Z)
  | nop.

Definition assemble (i : asm) : Z :=
  match i with
  | addiu rt rs imm => encodeI 9 rs rt imm
  | syscall => 12
  | jr r => encodeR r 0 0 0 8
  | jal addr => encodeJ 3 (addr / 4)
  | move rd rs => encodeR rs 0 rd 0 33
  | nop => 0
  end.

(** ** userprog/syscall.h *)

Definition SC_Halt : Z := 0.
Definition SC_Exit : Z := 1.
Definition SC_Exec : Z := 2.
Definition SC_Join : Z := 3.
Definition SC_Create : Z := 4.
Definition SC_Open : Z := 5.
Definition SC_Read : Z := 6.
Definition SC_Write : Z := 7.
Definition SC_Close : Z := 8.
Definition SC_Fork : Z := 9.
Definition SC_Yield : Z := 10.

(** ** start.s *)

(** [Exit] is the address of the stub of that name. *)
Definition __start (main Exit : Z) : list asm := [jal main; nop; move 4 0; jal Exit; nop].

Definition Halt : list asm := [addiu 2 0 SC_Halt; syscall; jr 31; nop].
Definition Exit : list asm := [addiu 2 0 SC_Exit; syscall; jr 31; nop].
Definition Exec : list asm := [addiu 2 0 SC_Exec; syscall; jr 31; nop].
Definition Join : list asm := [addiu 2 0 SC_Join; syscall; jr 31; nop].
Definition Create : list asm := [addiu 2 0 SC_Create; syscall; jr 31; nop].
Definition Open : list asm := [addiu 2 0 SC_Open; syscall; jr 31; nop].
Definition Read : list asm := [addiu 2 0 SC_Read; syscall; jr 31; nop].
Definition Write : list asm := [addiu 2 0 SC_Write; syscall; jr 31; nop].
Definition Close : list asm := [addiu 2 0 SC_Close; syscall; jr 31; nop].
Definition Fork : list asm := [addiu 2 0 SC_Fork; syscall; jr 31; nop].
Definition Yield : list asm := [addiu 2 0 SC_Yield; syscall; jr 31; nop].
Definition __main : list asm := [jr 31; nop].

(** The text of the object file, which is loaded at 0. *)
Definition Exit_address : Z := 36.
Definition start_text (main : Z) : list asm :=
  __start main Exit_address ++ Halt ++ Exit ++ Exec ++ Join ++ Create ++ Open ++ Read ++ Write ++ Close ++ Fork ++ Yield ++ __main.

(** ** A program in memory *)

(** The instructions from [a] on, in resident pages. *)
Record text (m : Machine) (a : Z) (code : list asm) : Prop := {
  tx_tlb : tlb m = None;
  tx_aligned : a mod 4 = 0;
  tx_start : 0 <= a;
  tx_end : a + 4 * zlen code < 2 ^ 31;
  tx_chunks i : 0 <= i < zlen code -> chunk_ok m (a + 4 * i) 4;
  tx_words i x : code !! i = Some x -> user_bytes m (a + 4 * Z.of_nat i) (le_bytes 4 (assemble x))
}.

(** A page table without its use bits. *)
Definition bare (t : list TranslationEntry) : list TranslationEntry := set_use false <$> t.

(** The address space is the same, but for the use bits. *)
Record same_space (m m' : Machine) : Prop := {
  ss_memory : mainMemory m' = mainMemory m;
  ss_tlb : tlb m' = tlb m;
  ss_size : pageTableSize m' = pageTableSize m;
  ss_table : option_map bare (pageTable m') = option_map bare (pageTable m)
}.

Lemma same_space_refl m : same_space m m.
Proof. done. Qed.

Lemma same_space_trans m1 m2 m3 : same_space m1 m2 -> same_space m2 m3 -> same_space m1 m3.
Proof. intros [] []. split; congruence. Qed.

Lemma same_space_registers m regs : same_space m (Machine.set_registers m regs).
Proof. done. Qed.

Lemma used_same m m' : used m m' -> same_space m m'.
Proof. intros (pt & pt' & E & -> & H). split; cbn; try done. rewrite E. cbn. unfold bare. by rewrite H. Qed.

Lemma same_table m m' pt : same_space m m' -> pageTable m = Some pt ->
  exists pt', pageTable m' = Some pt' /\ set_use false <$> pt' = set_use false <$> pt.
Proof. intros [_ _ _ H] E. rewrite E in H. destruct (pageTable m') as [pt'|]; [|done]. exists pt'. by injection H as H. Qed.

Lemma same_entry_None m m' : same_space m m' -> pageTable m = None -> pageTable m' = None.
Proof. intros [_ _ _ H] E. rewrite E in H. by destruct (pageTable m'). Qed.

Lemma same_byte m m' a : same_space m m' -> user_byte m' a = user_byte m a.
Proof.
  intros H. unfold user_byte. rewrite (ss_memory _ _ H). destruct (pageTable m) as [pt|] eqn:E.
  - destruct (same_table _ _ _ H E) as (pt' & -> & Hu). cbn. destruct (pt !! Z.to_nat (a / PageSize)) as [e|] eqn:El.
    + destruct (used_entry pt pt' _ _ Hu El) as (e' & -> & H1 & H2). cbn. by rewrite H1, H2.
    + apply (f_equal (.!! Z.to_nat (a / PageSize))) in Hu. rewrite !list_lookup_fmap, El in Hu. by destruct (pt' !! _).
  - by rewrite (same_entry_None _ _ H E).
Qed.

Lemma same_chunk m m' c rest : same_space m m' -> chunk_ok m c rest -> chunk_ok m' c rest.
Proof.
  intros H (pt & e & E & H1 & H2 & H3 & H4 & H5). destruct (same_table _ _ _ H E) as (pt' & E' & Hu).
  destruct (used_entry pt pt' _ _ Hu H2) as (e' & He & Hv & Hp). exists pt', e'. by rewrite (ss_size _ _ H), Hv, Hp.
Qed.

Lemma same_buffer m m' a n : same_space m m' -> buffer_ok m a n -> buffer_ok m' a n.
Proof. intros H []. split; try done; [by rewrite (ss_tlb _ _ H)|]. intros. apply (same_chunk m); auto. Qed.

Lemma same_bytes m m' a bs : same_space m m' -> user_bytes m a bs -> user_bytes m' a bs.
Proof. intros H Hb i Hi. rewrite (same_byte m m') by done. by apply Hb. Qed.

Lemma same_text m m' a code : same_space m m' -> text m a code -> text m' a code.
Proof.
  intros H []. split; try done; [by rewrite (ss_tlb _ _ H)|intros; apply (same_chunk m); auto|].
  intros i x Hx. apply (same_bytes m); auto.
Qed.

(** ** One instruction *)

(** The registers before an instruction: where it is, and no load pending. *)
Record at_pc (m : Machine) (pc npc : Z) : Prop := {
  at_regs : zlen (registers m) = NumTotalRegs;
  at_here : aget (registers m) PCReg = Ok pc;
  at_next : aget (registers m) NextPCReg = Ok npc;
  at_load : aget (registers m) LoadReg = Ok 0
}.

Lemma setr_frame i v m m' : setr i v m = Ok m' -> exists regs, m' = Machine.set_registers m regs /\ zlen regs = zlen (registers m).
Proof.
  unfold setr. intros H. invert_res. apply aset_Ok_inv in E as [_ ->]. eexists. split; [done|]. by rewrite zlen_insert.
Qed.

Lemma finish_frame m pcAfter r v m' : finish m pcAfter r v = Ok m' ->
  exists regs, m' = Machine.set_registers m regs /\ zlen regs = zlen (registers m).
Proof.
  unfold finish, DelayedLoad. intros H. invert_res.
  repeat match goal with E : setr _ _ _ = Ok _ |- _ => apply setr_frame in E as (? & -> & ?) end.
  cbn in *. eexists. split; [reflexivity|]. congruence.
Qed.

(** A fetch of the word of an instruction. *)
Lemma fetch {K} `{!KernelEntry K} m (k : K) a code (i : nat) x : zlen (mainMemory m) = MemorySize -> in_u32 (assemble x) ->
  text m a code -> code !! i = Some x ->
  exists m', ReadMem (a + 4 * Z.of_nat i) 4 (m, k) = Ok (Some (s32 (assemble x)), (m', k)) /\ used m m'.
Proof.
  intros Hm Hx [Ht Ha H0 Hend Hch Hw] Hi. assert (Hlt : 0 <= Z.of_nat i < zlen code) by (apply lookup_lt_Some in Hi; unfold zlen; lia).
  set (c := a + 4 * Z.of_nat i) in *.
  assert (Hal : c mod 4 = 0) by (unfold c; rewrite Z.mul_comm, Z.mod_add; done).
  assert (Hmis : misaligned c 4 = false).
  { unfold misaligned. change 3 with (Z.ones 2). rewrite Z.land_ones by lia. change (2 ^ 2) with 4. rewrite Hal. done. }
  destruct (Translate_chunk m c 4) as (q & m' & E & Hu & Hq & Hfit & Hmod & Hbyte); try done; [unfold c; lia|by apply Hch|].
  exists m'. split; [|done]. unfold ReadMem. rewrite E. cbn [mbind res_bind]. rewrite decide_True by done.
  assert (Hmem : mainMemory m' = mainMemory m) by (destruct Hu as (? & ? & _ & -> & _); done). rewrite Hmem.
  unfold load. cbn [Z.eqb Pos.eqb]. rewrite bread_Ok by (rewrite ?Hm; lia). cbn [mbind res_bind].
  replace (slice q 4 (mainMemory m)) with (le_bytes 4 (assemble x)).
  - rewrite le_val_le_bytes. change (256 ^ Z.of_nat 4) with (2 ^ 32). rewrite Z.mod_small by done. done.
  - apply list_eq. intros j. rewrite slice_lookup by done. case_decide as Hj.
    + assert (Hpage : c mod PageSize + Z.of_nat j < PageSize) by (change PageSize with 128; Z.to_euclidean_division_equations; lia).
      rewrite <-(Hw i x Hi j) by (cbn; lia). fold c. rewrite Hbyte by (done || lia). f_equal. lia.
    + apply lookup_ge_None_2. rewrite length_le_bytes. lia.
Qed.

(** An instruction that changes registers only. *)
Lemma instruction_step {K} `{!KernelEntry K} m (k : K) a code (n : nat) x npc i regs t :
  zlen (mainMemory m) = MemorySize -> in_u32 (assemble x) -> text m a code -> code !! n = Some x -> Decode (assemble x) = Ok i ->
  at_pc m (a + 4 * Z.of_nat n) npc ->
  (forall m1, registers m1 = registers m -> execute i (s32 (npc + 4)) (m1, k) = Ok (Break (Machine.set_registers m1 regs, k) t 0 0)) ->
  zlen regs = NumTotalRegs -> (forall r, In r [PCReg; NextPCReg; LoadReg] -> aget regs r = aget (registers m) r) ->
  exists m', OneInstruction (m, k) = Ok (m', k) /\ same_space m m' /\ at_pc m' npc t /\
    aget (registers m') 0 = Ok 0 /\ forall r, 0 < r < PCReg -> aget (registers m') r = aget regs r.
Proof.
  intros Hm Hx Htx Hn Hd [Hr Hpc Hnpc Hl] Hex Hlen Hsame.
  destruct (fetch m k a code n x Hm Hx Htx Hn) as (m1 & Ef & Hu).
  assert (Hreg : registers m1 = registers m) by (destruct Hu as (? & ? & _ & -> & _); done).
  unfold OneInstruction, getr. cbn [fst]. rewrite Hpc. cbn [mbind res_bind]. rewrite Ef. cbn [mbind res_bind fst].
  rewrite u32_s32, u32_id by done. rewrite Hd. cbn [mbind res_bind]. rewrite Hreg, Hnpc. cbn [mbind res_bind].
  rewrite Hex by done. cbn [mbind res_bind].
  destruct (aget_in_range regs LoadValueReg) as [lv Hlv]; [by rewrite Hlen|].
  destruct (finish_regs (Machine.set_registers m1 regs) t 0 0 0 lv (a + 4 * Z.of_nat n) npc) as (m2 & E2 & _ & Hpc2 & Hn2 & Hl2 & _ & H0 & Hrest);
    [done|done|by cbn [registers Machine.set_registers]; rewrite Hsame by (cbn; tauto)|done|by cbn [registers Machine.set_registers]; rewrite Hsame by (cbn; tauto)|by cbn [registers Machine.set_registers]; rewrite Hsame by (cbn; tauto)|].
  rewrite E2. cbn [mbind res_bind]. exists m2. split; [done|].
  destruct (finish_frame _ _ _ _ _ E2) as (regs2 & -> & Hz). cbn in *.
  split; [|split; [|split]]; try done.
  - apply (same_space_trans _ m1); [by apply used_same|done].
  - split; cbn; try done. congruence.
  - intros r Hrr. rewrite Hrest by done. by rewrite decide_False by lia.
Qed.

(** *** The instructions of the stubs *)

Section Steps.
Context {K : Type} `{!KernelEntry K}.

Lemma setr_put (i v : Z) m : zlen (registers m) = NumTotalRegs -> 0 <= i < NumTotalRegs ->
  setr i v m = Ok (Machine.set_registers m (<[Z.to_nat i := v]> (registers m))).
Proof. intros Hr Hi. unfold setr. by rewrite aset_in_range by by rewrite Hr. Qed.

Lemma put_keeps (regs : list Z) (i v r : Z) : 0 <= i -> i <> r -> aget (<[Z.to_nat i := v]> regs) r = aget regs r.
Proof. apply aget_insert_ne. Qed.

(** A result that goes to one register. *)
Lemma assign_step (m : Machine) (k : K) r v t : zlen (registers m) = NumTotalRegs -> 0 <= r < NumTotalRegs -> forall m1, registers m1 = registers m ->
  assign r v (m1, k) t = Ok (Break (Machine.set_registers m1 (<[Z.to_nat r := v]> (registers m)), k) t 0 0).
Proof. intros Hr Hi m1 E. unfold assign. cbn [fst snd]. rewrite setr_put by by rewrite ?E. by rewrite E. Qed.

Lemma addiu_step m (k : K) a code n c npc : zlen (mainMemory m) = MemorySize -> text m a code -> code !! n = Some (addiu 2 0 c) -> 0 <= c < 2 ^ 15 ->
  at_pc m (a + 4 * Z.of_nat n) npc -> aget (registers m) 0 = Ok 0 ->
  exists m', OneInstruction (m, k) = Ok (m', k) /\ same_space m m' /\ at_pc m' npc (s32 (npc + 4)) /\
    aget (registers m') 0 = Ok 0 /\ aget (registers m') 2 = Ok c /\ forall r, 0 < r < PCReg -> r <> 2 -> aget (registers m') r = aget (registers m) r.
Proof.
  intros Hm Htx Hn Hc Hat H0. assert (Hlen := at_regs _ _ _ Hat).
  destruct (Decode_encode 0 2 0 0 c 9 0 0) as (_ & HI & _); try lia.
  destruct (HI OP_ADDIU eq_refl) as (i & Hd & Hop & Hrs & Hrt & Hex); [done|].
  destruct (instruction_step m k a code n (addiu 2 0 c) npc i (<[Z.to_nat 2 := c]> (registers m)) (s32 (npc + 4)))
    as (m' & E & Hs & Hat' & Hz & Hr); try done.
  - unfold assemble, encodeI, in_u32, u16. Z.to_euclidean_division_equations; lia.
  - intros m1 E. unfold execute, exec_add_and. rewrite Hop, Hrs, Hrt, Hex. unfold getr. cbn [fst]. rewrite E, H0. cbn [mbind res_bind].
    rewrite (s32_id (0 + c)) by (unfold in_s32; lia). by apply assign_step.
  - by rewrite zlen_insert.
  - intros r Hin. apply put_keeps; [done|]. unfold PCReg, NextPCReg, LoadReg in Hin. cbn in Hin. lia.
  - exists m'. do 4 (split; [done|]). split.
    + rewrite Hr by done. apply aget_insert_eq. by rewrite Hlen.
    + intros r Hrr Hne. rewrite Hr by done. by apply put_keeps.
Qed.

Lemma jr_step m (k : K) a code n npc ra : zlen (mainMemory m) = MemorySize -> text m a code -> code !! n = Some (jr 31) ->
  at_pc m (a + 4 * Z.of_nat n) npc -> aget (registers m) 31 = Ok ra ->
  exists m', OneInstruction (m, k) = Ok (m', k) /\ same_space m m' /\ at_pc m' npc ra /\
    aget (registers m') 0 = Ok 0 /\ forall r, 0 < r < PCReg -> aget (registers m') r = aget (registers m) r.
Proof.
  intros Hm Htx Hn Hat Hra.
  apply (instruction_step m k a code n (jr 31) npc (mkInstruction (assemble (jr 31)) OP_JR 31 0 0 0) (registers m) ra); try done; [|apply Hat].
  intros m1 E. unfold execute, exec_jump. cbn [opCode rs]. unfold getr. cbn [fst]. rewrite E, Hra. cbn [mbind res_bind]. rewrite <-E. by destruct m1.
Qed.

Lemma nop_step m (k : K) a code n npc : zlen (mainMemory m) = MemorySize -> text m a code -> code !! n = Some nop ->
  at_pc m (a + 4 * Z.of_nat n) npc -> aget (registers m) 0 = Ok 0 ->
  exists m', OneInstruction (m, k) = Ok (m', k) /\ same_space m m' /\ at_pc m' npc (s32 (npc + 4)) /\
    aget (registers m') 0 = Ok 0 /\ forall r, 0 < r < PCReg -> aget (registers m') r = aget (registers m) r.
Proof.
  intros Hm Htx Hn Hat H0. assert (Hlen := at_regs _ _ _ Hat).
  destruct (instruction_step m k a code n nop npc (mkInstruction 0 OP_SLL 0 0 0 0) (<[Z.to_nat 0 := 0]> (registers m)) (s32 (npc + 4)))
    as (m' & E & Hs & Hat' & Hz & Hr); try done.
  - intros m1 E. unfold execute, exec_shift_set. cbn [opCode rt rd extra]. unfold getr. cbn [fst]. rewrite E, H0. cbn [mbind res_bind]. by apply assign_step.
  - by rewrite zlen_insert.
  - intros r Hin. apply put_keeps; [done|]. unfold PCReg, NextPCReg, LoadReg in Hin. cbn in Hin. lia.
  - exists m'. do 4 (split; [done|]). intros r Hrr. rewrite Hr by done. apply put_keeps; lia.
Qed.

(** The instruction that enters the kernel. *)
Lemma syscall_step m (k : K) a code n npc : zlen (mainMemory m) = MemorySize -> text m a code -> code !! n = Some syscall ->
  at_pc m (a + 4 * Z.of_nat n) npc -> aget (registers m) 0 = Ok 0 ->
  exists m', same_space m m' /\ at_pc m' (a + 4 * Z.of_nat n) npc /\ aget (registers m') 0 = Ok 0 /\
    (forall r, 0 < r < PCReg -> aget (registers m') r = aget (registers m) r) /\
    OneInstruction (m, k) = (w ← Machine.ExceptionHandler SyscallException (m', Machine.setStatus SystemMode k); Ok (fst w, Machine.setStatus UserMode (snd w))).
Proof.
  intros Hm Htx Hn Hat H0. destruct (fetch m k a code n syscall Hm ltac:(done) Htx Hn) as (m1 & Ef & Hu).
  destruct Hat as [Hlen Hpc Hnpc Hl].
  assert (Hreg : registers m1 = registers m) by (destruct Hu as (? & ? & _ & -> & _); done).
  destruct (aget_in_range (registers m) LoadValueReg) as [lv Hlv]; [by rewrite Hlen|].
  set (regs := <[Z.to_nat 0 := 0]> (<[Z.to_nat LoadValueReg := 0]> (<[Z.to_nat LoadReg := 0]> (<[Z.to_nat 0 := lv]> (<[Z.to_nat BadVAddrReg := 0]> (registers m)))))).
  assert (Hkeep : forall r, 0 < r -> r <> LoadValueReg -> r <> LoadReg -> r <> BadVAddrReg -> aget regs r = aget (registers m) r).
  { intros r H1 H2 H3 H4. unfold regs. rewrite !put_keeps by (done || lia || congruence). done. }
  assert (Hz : zlen regs = NumTotalRegs) by (unfold regs; by rewrite !zlen_insert).
  exists (Machine.set_registers m1 regs). split; [|split; [|split; [|split]]].
  - apply (same_space_trans _ m1); [by apply used_same|done].
  - split; cbn [registers Machine.set_registers]; [done|by rewrite Hkeep|by rewrite Hkeep|].
    unfold regs. rewrite !put_keeps by done. apply (aget_insert_eq _ LoadReg). rewrite !zlen_insert, Hlen. done.
  - cbn [registers Machine.set_registers]. apply (aget_insert_eq _ 0). rewrite !zlen_insert, Hlen. done.
  - intros r Hr. cbn [registers Machine.set_registers]. unfold PCReg, LoadValueReg, LoadReg, BadVAddrReg in *. apply Hkeep; lia.
  - unfold OneInstruction, getr. cbn [fst]. rewrite Hpc. cbn [mbind res_bind]. rewrite Ef. cbn [mbind res_bind fst].
    change (Decode (u32 (s32 (assemble syscall)))) with (Ok (mkInstruction 12 OP_SYSCALL 0 0 0 0)). cbn [mbind res_bind].
    rewrite Hreg, Hnpc. cbn [mbind res_bind]. unfold execute, exec_trap_xor. cbn [opCode]. unfold raise, RaiseException.
    rewrite setr_put by (rewrite ?Hreg; done). cbn [mbind res_bind]. unfold DelayedLoad, getr. cbn [registers Machine.set_registers]. rewrite Hreg.
    rewrite !put_keeps by done. rewrite Hl, Hlv. cbn [mbind res_bind].
    rewrite setr_put by (cbn [registers Machine.set_registers]; rewrite ?zlen_insert; done). cbn [mbind res_bind registers Machine.set_registers].
    rewrite setr_put by (cbn [registers Machine.set_registers]; rewrite ?zlen_insert; done). cbn [mbind res_bind registers Machine.set_registers].
    rewrite setr_put by (cbn [registers Machine.set_registers]; rewrite ?zlen_insert; done). cbn [mbind res_bind registers Machine.set_registers].
    rewrite setr_put by (cbn [registers Machine.set_registers]; rewrite ?zlen_insert; done). cbn [mbind res_bind registers Machine.set_registers].
    unfold regs. cbn [Machine.set_registers mainMemory tlb pageTable pageTableSize].
    destruct (Machine.ExceptionHandler SyscallException _) as [[m3 k3]|e]; reflexivity.
Qed.
Lemma move_step m (k : K) a code n npc : zlen (mainMemory m) = MemorySize -> text m a code -> code !! n = Some (move 4 0) ->
  at_pc m (a + 4 * Z.of_nat n) npc -> aget (registers m) 0 = Ok 0 ->
  exists m', OneInstruction (m, k) = Ok (m', k) /\ same_space m m' /\ at_pc m' npc (s32 (npc + 4)) /\
    aget (registers m') 0 = Ok 0 /\ aget (registers m') 4 = Ok 0 /\ forall r, 0 < r < PCReg -> r <> 4 -> aget (registers m') r = aget (registers m) r.
Proof.
  intros Hm Htx Hn Hat H0. assert (Hlen := at_regs _ _ _ Hat).
  destruct (instruction_step m k a code n (move 4 0) npc (mkInstruction (assemble (move 4 0)) OP_ADDU 0 0 4 0) (<[Z.to_nat 4 := 0]> (registers m)) (s32 (npc + 4)))
    as (m' & E & Hs & Hat' & Hz & Hr); try done.
  - intros m1 E. unfold execute, exec_add_and. cbn [opCode rs rt rd]. unfold getr. cbn [fst]. rewrite E, H0. cbn [mbind res_bind]. by apply assign_step.
  - by rewrite zlen_insert.
  - intros r Hin. apply put_keeps; [done|]. unfold PCReg, NextPCReg, LoadReg in Hin. cbn in Hin. lia.
  - exists m'. do 4 (split; [done|]). split.
    + rewrite Hr by done. apply aget_insert_eq. by rewrite Hlen.
    + intros r Hrr Hne. rewrite Hr by done. apply put_keeps; lia.
Qed.

(** A call of a procedure in the first 256 MB. *)
Lemma jal_step m (k : K) a code n npc f : zlen (mainMemory m) = MemorySize -> text m a code -> code !! n = Some (jal f) ->
  0 <= f < 2 ^ 28 -> f mod 4 = 0 -> 0 <= npc < 2 ^ 28 - 4 ->
  at_pc m (a + 4 * Z.of_nat n) npc -> aget (registers m) 0 = Ok 0 ->
  exists m', OneInstruction (m, k) = Ok (m', k) /\ same_space m m' /\ at_pc m' npc f /\
    aget (registers m') 0 = Ok 0 /\ aget (registers m') 31 = Ok (npc + 4) /\ forall r, 0 < r < PCReg -> r <> 31 -> aget (registers m') r = aget (registers m) r.
Proof.
  intros Hm Htx Hn Hf Hf4 Hnpc Hat H0. assert (Hlen := at_regs _ _ _ Hat).
  destruct (Decode_encode 0 0 0 0 0 3 0 (f / 4)) as (_ & _ & HJ); try (Z.to_euclidean_division_equations; lia).
  destruct (HJ OP_JAL eq_refl) as (i & Hd & Hop & Hex).
  destruct (instruction_step m k a code n (jal f) npc i (<[Z.to_nat 31 := npc + 4]> (registers m)) f)
    as (m' & E & Hs & Hat' & Hz & Hr); try done.
  - unfold assemble, encodeJ, in_u32. Z.to_euclidean_division_equations; lia.
  - intros m1 E. unfold execute, exec_jump. rewrite Hop, Hex. unfold link, getr. cbn [fst snd]. rewrite E, (at_next _ _ _ Hat). cbn [mbind res_bind].
    rewrite (s32_id (npc + 4)) by (unfold in_s32; lia). rewrite setr_put by by rewrite ?E. cbn [mbind res_bind]. rewrite E. do 2 f_equal.
    replace (IndexToAddr (f / 4)) with f.
    + rewrite !u32_id by (unfold in_u32; lia). rewrite Isa.land_region by (unfold in_u32; lia).
      rewrite Z.div_small by lia. cbn [Z.mul Z.lor]. apply s32_id. unfold in_s32. lia.
    + unfold IndexToAddr. rewrite Z.shiftl_mul_pow2 by lia. change (2 ^ 2) with 4. pose proof (Z.div_mod f 4).
      rewrite s32_id; [|unfold in_s32]; lia.
  - by rewrite zlen_insert.
  - intros r Hin. apply put_keeps; [done|]. unfold PCReg, NextPCReg, LoadReg in Hin. cbn in Hin. lia.
  - exists m'. do 4 (split; [done|]). split.
    + rewrite Hr by done. apply aget_insert_eq. by rewrite Hlen.
    + intros r Hrr Hne. rewrite Hr by done. apply put_keeps; lia.
Qed.
End Steps.

(** ** Calling a stub *)

Section Calls.
Context {K : Type} `{!KernelEntry K}.

Fixpoint instructions (n : nat) (w : Machine * K) : res (Machine * K) :=
  match n with O => Ok w | S n => w ← OneInstruction w; instructions n w end.

Lemma instructions_app n1 n2 w : instructions (n1 + n2) w = (w ← instructions n1 w; instructions n2 w).
Proof.
  revert w. induction n1 as [|n1 IH]; intros w; [done|]. cbn [instructions Nat.add].
  destruct (OneInstruction w); [apply IH|done].
Qed.

(** The registers that a program uses. *)
Definition same_registers (m m' : Machine) : Prop := forall r, 0 < r < PCReg -> aget (registers m') r = aget (registers m) r.

(** From the address of a stub into the kernel, and from the kernel, which
    has moved the program counters on, to the address in r31. *)
Lemma stub_run m (k : K) a c ra : zlen (mainMemory m) = MemorySize -> text m a [addiu 2 0 c; syscall; jr 31; nop] -> 0 <= c < 2 ^ 15 ->
  at_pc m a (a + 4) -> aget (registers m) 0 = Ok 0 -> aget (registers m) 31 = Ok ra ->
  exists m2, same_space m m2 /\ at_pc m2 (a + 4) (a + 8) /\ aget (registers m2) 0 = Ok 0 /\ aget (registers m2) 2 = Ok c /\
    (forall r, 0 < r < PCReg -> r <> 2 -> aget (registers m2) r = aget (registers m) r) /\
    instructions 2 (m, k) = (w ← Machine.ExceptionHandler SyscallException (m2, Machine.setStatus SystemMode k); Ok (fst w, Machine.setStatus UserMode (snd w))) /\
    forall m3 (k3 : K), text m3 a [addiu 2 0 c; syscall; jr 31; nop] -> zlen (mainMemory m3) = MemorySize ->
      at_pc m3 (a + 8) (a + 12) -> aget (registers m3) 31 = Ok ra ->
      exists m4, instructions 2 (m3, k3) = Ok (m4, k3) /\ same_space m3 m4 /\ at_pc m4 ra (s32 (ra + 4)) /\ same_registers m3 m4.
Proof.
  intros Hm Htx Hc Hat H0 Hra. set (code := [addiu 2 0 c; syscall; jr 31; nop]) in *.
  assert (Hb := tx_end _ _ _ Htx). assert (Ha := tx_start _ _ _ Htx). change (zlen code) with 4 in Hb.
  destruct (addiu_step m k a code 0 c (a + 4)) as (m1 & E1 & S1 & A1 & Z1 & C1 & R1); try done; [by rewrite Z.mul_0_r, Z.add_0_r|].
  rewrite s32_id in A1 by (unfold in_s32; lia). replace (a + 4 + 4) with (a + 8) in A1 by lia.
  assert (Hm1 : zlen (mainMemory m1) = MemorySize) by by rewrite (ss_memory _ _ S1).
  destruct (syscall_step m1 k a code 1 (a + 8)) as (m2 & S2 & A2 & Z2 & R2 & E2); try done; [by apply (same_text m)|].
  exists m2. split; [by apply (same_space_trans _ m1)|]. split; [done|]. split; [done|]. split; [by rewrite R2|].
  split; [intros r Hr Hne; by rewrite R2, R1|]. split.
  - cbn [instructions]. rewrite E1. cbn [mbind res_bind]. rewrite E2.
    destruct (Machine.ExceptionHandler _ _); reflexivity.
  - intros m3 k3 Ht3 Hm3 A3 Hra3.
    destruct (jr_step m3 k3 a code 2 (a + 12) ra) as (m4 & E4 & S4 & A4 & Z4 & R4); try done.
    destruct (nop_step m4 k3 a code 3 ra) as (m5 & E5 & S5 & A5 & Z5 & R5); try done; [by rewrite (ss_memory _ _ S4)|by apply (same_text m3)|].
    exists m5. cbn [instructions]. rewrite E4. cbn [mbind res_bind]. rewrite E5. split; [done|].
    split; [by apply (same_space_trans _ m4)|]. split; [done|]. intros r Hr. by rewrite R5, R4.
Qed.
End Calls.

(** ** Properties *)

(** __start calls main, and Exit(0) if main returns.  Two
    instructions lead from address 0 to main with the address 8 in r31, for
    any main in the first 256 MB; from 8, whatever main left in the
    registers, five instructions enter the kernel with the number of Exit
    in r2 and 0 as its argument. *)
Theorem start_runs_main {K} `{!KernelEntry K} m (k : K) main :
  zlen (mainMemory m) = MemorySize -> text m 0 (start_text main) -> at_pc m 0 4 -> aget (registers m) 0 = Ok 0 ->
  0 <= main < 2 ^ 28 -> main mod 4 = 0 ->
  (exists m1, instructions 2 (m, k) = Ok (m1, k) /\ same_space m m1 /\ at_pc m1 main (main + 4) /\ aget (registers m1) 31 = Ok 8 /\
     forall r, 0 < r < PCReg -> r <> 31 -> aget (registers m1) r = aget (registers m) r) /\
  forall m2 (k2 : K), zlen (mainMemory m2) = MemorySize -> text m2 0 (start_text main) -> at_pc m2 8 12 -> aget (registers m2) 0 = Ok 0 ->
    exists m3, same_space m2 m3 /\ at_pc m3 (Exit_address + 4) (Exit_address + 8) /\
      aget (registers m3) 2 = Ok SC_Exit /\ aget (registers m3) 4 = Ok 0 /\
      instructions 5 (m2, k2) = (w ← Machine.ExceptionHandler SyscallException (m3, Machine.setStatus SystemMode k2); Ok (fst w, Machine.setStatus UserMode (snd w))).
Proof.
  intros Hm Htx Hat H0 Hmain Hmain4. split.
  - destruct (jal_step m k 0 (start_text main) 0 4 main) as (m1 & E1 & S1 & A1 & Z1 & C1 & R1); try done.
    destruct (nop_step m1 k 0 (start_text main) 1 main) as (m2 & E2 & S2 & A2 & Z2 & R2); try done;
      [by rewrite (ss_memory _ _ S1)|by apply (same_text m)|].
    exists m2. cbn [instructions]. rewrite E1, bind_Ok, E2, bind_Ok. split; [done|]. split; [by apply (same_space_trans _ m1)|].
    rewrite s32_id in A2 by (unfold in_s32; lia). split; [done|]. split; [by rewrite R2|]. intros r Hr Hne. by rewrite R2, R1.
  - intros m2 k2 Hm2 Ht2 A2 Z2.
    destruct (move_step m2 k2 0 (start_text main) 2 12) as (m3 & E3 & S3 & A3 & Z3 & C3 & R3); try done.
    assert (T3 := same_text _ _ _ _ S3 Ht2). assert (M3 : zlen (mainMemory m3) = MemorySize) by by rewrite (ss_memory _ _ S3).
    destruct (jal_step m3 k2 0 (start_text main) 3 16 Exit_address) as (m4 & E4 & S4 & A4 & Z4 & _ & R4); try done.
    assert (T4 := same_text _ _ _ _ S4 T3). assert (M4 : zlen (mainMemory m4) = MemorySize) by by rewrite (ss_memory _ _ S4).
    destruct (nop_step m4 k2 0 (start_text main) 4 Exit_address) as (m5 & E5 & S5 & A5 & Z5 & R5); try done.
    assert (T5 := same_text _ _ _ _ S5 T4). assert (M5 : zlen (mainMemory m5) = MemorySize) by by rewrite (ss_memory _ _ S5).
    destruct (addiu_step m5 k2 0 (start_text main) 9 SC_Exit 40) as (m6 & E6 & S6 & A6 & Z6 & C6 & R6); try done.
    assert (T6 := same_text _ _ _ _ S6 T5). assert (M6 : zlen (mainMemory m6) = MemorySize) by by rewrite (ss_memory _ _ S6).
    destruct (syscall_step m6 k2 0 (start_text main) 10 44) as (m7 & S7 & A7 & Z7 & R7 & E7); try done.
    exists m7. split; [|split; [done|split; [by rewrite R7|split]]].
    + eapply same_space_trans; [exact S3|]. eapply same_space_trans; [exact S4|]. eapply same_space_trans; [exact S5|].
      eapply same_space_trans; [exact S6|exact S7].
    + by rewrite R7, R6, R5, R4.
    + cbn [instructions]. rewrite E3, bind_Ok, E4, bind_Ok, E5, bind_Ok, E6, bind_Ok, E7.
      destruct (Machine.ExceptionHandler _ _); reflexivity.
Qed.


(** The process of Syscall.v at the stub of Write, at address 0, called from
    60. *)
Definition write_machine : Machine :=
  mkMachine (splice (3 * 128) (Write ≫= fun i => le_bytes 4 (assemble i)) (mainMemory example_m))
    (<[4%nat := 125]> (<[5%nat := 6]> (<[6%nat := 1]> (<[31%nat := 64]> (<[35%nat := 4]> (replicate 40 0))))))
    None (Some example_table) 2 false 0.

Lemma write_machine_text : text write_machine 0 Write.
Proof.
  split; [reflexivity..| |].
  - intros i Hi. change (zlen Write) with 4 in Hi. exists example_table, (mkTE 0 3 true false false false).
    split; [reflexivity|]. change PageSize with 128. change MemorySize with 8192. cbn [pageTableSize write_machine physicalPage valid].
    replace ((0 + 4 * i) / 128) with 0 by (Z.to_euclidean_division_equations; lia).
    do 4 (split; [lia || reflexivity|]). Z.to_euclidean_division_equations; lia.
  - intros i x Hx j Hj. rewrite length_le_bytes in Hj.
    do 4 (destruct i as [|i]; [injection Hx as <-; do 4 (destruct j as [|j]; [vm_compute; reflexivity|]); lia|]). done.
Qed.


(** The text of start.s at address 0 of a process of two pages, with main
    at 208, and main about to return. *)
Definition start_machine : Machine :=
  mkMachine (splice 0 (start_text 208 ≫= fun i => le_bytes 4 (assemble i)) (replicate 8192 0))
    (<[35%nat := 4]> (replicate 40 0)) None (Some [mkTE 0 0 true false false false; mkTE 1 1 true false false false]) 2 false 0.

Definition main_returns : Machine :=
  Machine.set_registers start_machine (<[2%nat := 7]> (<[4%nat := 9]> (<[34%nat := 8]> (<[35%nat := 12]> (replicate 40 0))))).

Lemma start_machine_text : text start_machine 0 (start_text 208).
Proof.
  split; [reflexivity..| |].
  - intros i Hi. change (zlen (start_text 208)) with 51 in Hi. destruct (decide (i < 32)).
    + exists [mkTE 0 0 true false false false; mkTE 1 1 true false false false], (mkTE 0 0 true false false false).
      split; [reflexivity|]. change PageSize with 128. change MemorySize with 8192. cbn [pageTableSize start_machine physicalPage valid].
      replace ((0 + 4 * i) / 128) with 0 by (Z.to_euclidean_division_equations; lia).
      do 4 (split; [lia || reflexivity|]). Z.to_euclidean_division_equations; lia.
    + exists [mkTE 0 0 true false false false; mkTE 1 1 true false false false], (mkTE 1 1 true false false false).
      split; [reflexivity|]. change PageSize with 128. change MemorySize with 8192. cbn [pageTableSize start_machine physicalPage valid].
      replace ((0 + 4 * i) / 128) with 1 by (Z.to_euclidean_division_equations; lia).
      do 4 (split; [lia || reflexivity|]). Z.to_euclidean_division_equations; lia.
  - intros i x Hx j Hj. rewrite length_le_bytes in Hj.
    do 51 (destruct i as [|i]; [injection Hx as <-; do 4 (destruct j as [|j]; [vm_compute; reflexivity|]); lia|]). discriminate Hx.
Qed.

Lemma start_runs_main_witness : exists m1 m3, instructions 2 (start_machine, tt) = Ok (m1, tt) /\ at_pc m1 208 212 /\
  aget (registers m1) 31 = Ok 8 /\ aget (registers m3) 2 = Ok 1 /\ aget (registers m3) 4 = Ok 0 /\
  instructions 5 (main_returns, tt) = (w ← Machine.ExceptionHandler SyscallException (m3, tt); Ok (fst w, tt)).
Proof.
  destruct (start_runs_main start_machine tt 208) as [(m1 & E1 & _ & A1 & R1 & _) H]; [reflexivity|apply start_machine_text|split; reflexivity|reflexivity|lia|reflexivity|].
  destruct (H main_returns tt) as (m3 & _ & _ & R2 & R4 & E3); [reflexivity| |split; reflexivity|reflexivity|].
  - apply (same_text start_machine); [done|apply start_machine_text].
  - exists m1, m3. split; [exact E1|]. split; [exact A1|]. split; [exact R1|]. split; [exact R2|]. split; [exact R4|exact E3].
Defined.
