(* ===== verification/Noff.v ===== *)
(** * bin/coff2noff.c: making executables

    The tool that turns the COFF files of the MIPS compiler into the NOFF
    files that the kernel loads.  The files are their bytes; each has a
    position.  An error removes the output and exits.  The output file is
    assumed to open (the program tests the wrong descriptor), and [read]
    and [write] with a negative number of bytes to return -1. *)

From stdpp Require Import base list numbers.
From S2P Require Import Prelude Arrays State Machine Disk Vm Loader.

(** ** COFF (bin/coff.h): the fields that are used *)

Definition MIPSELMAGIC : Z := 0x0162.
Definition OMAGIC : Z := 263.   (* 0407 *)
Definition sizeof_filehdr : Z := 20.
Definition sizeof_aouthdr : Z := 56.
Definition sizeof_scnhdr : Z := 40.

Record scnhdr := mkScn { s_name : list Z; s_paddr : Z; s_size : Z; s_scnptr : Z }.

Definition half_at (off : Z) (bs : list Z) : Z := le_val (slice off 2 bs).
Definition long_at (off : Z) (bs : list Z) : Z := s32 (le_val (slice off 4 bs)).

(** The [i]th header of the array that was read. *)
Definition scnhdr_at (bs : list Z) (i : Z) : scnhdr :=
  let o := sizeof_scnhdr * i in
  mkScn (slice o 8 bs) (s32 (WordToHost (u32 (long_at (o + 8) bs))))
    (s32 (WordToHost (u32 (long_at (o + 16) bs)))) (s32 (WordToHost (u32 (long_at (o + 20) bs)))).

(** [!strcmp(s_name, c)] for the constants of the program, all shorter than
    the field. *)
Definition named (c : list Z) (s : scnhdr) : bool := bool_decide (take (S (length c)) (s_name s) = c ++ [0]).
Definition is_text : scnhdr -> bool := named [46; 116; 101; 120; 116].
Definition is_data (s : scnhdr) : bool := named [46; 100; 97; 116; 97] s || named [46; 114; 100; 97; 116; 97] s.
Definition is_bss (s : scnhdr) : bool := named [46; 98; 115; 115] s || named [46; 115; 98; 115; 115] s.

(** ** The conversion *)

Record Conv := mkConv {
  c_in : Z;               (* the position in the COFF file *)
  c_out : list Z;         (* the NOFF file *)
  c_pos : Z;              (* the position in it *)
  c_noffH : NoffHeader;
  inNoffFile : Z
}.
Definition set_in v c := mkConv v (c_out c) (c_pos c) (c_noffH c) (inNoffFile c).
Definition set_out f p c := mkConv (c_in c) f p (c_noffH c) (inNoffFile c).
Definition set_noffH h c := mkConv (c_in c) (c_out c) (c_pos c) h (inNoffFile c).
Definition set_inNoffFile v c := mkConv (c_in c) (c_out c) (c_pos c) (c_noffH c) v.

Definition set_code s h := mkNoff (noffMagic h) s (initData h) (uninitData h).
Definition set_initData s h := mkNoff (noffMagic h) (code h) s (uninitData h).
Definition set_uninitData s h := mkNoff (noffMagic h) (code h) (initData h) s.

(** The bytes of the struct. *)
Definition segment_words (s : Segment) : list Z := [virtualAddr s; inFileAddr s; seg_size s].
Definition header_bytes (h : NoffHeader) : list Z :=
  words_to_bytes (u32 <$> noffMagic h :: segment_words (code h) ++ segment_words (initData h) ++ segment_words (uninitData h)).

Section Convert.
Context (coff : list Z).

(** [lseek] fails for a negative offset and leaves the position alone. *)
Definition lseek_in (off : Z) : M Conv unit := modify (fun c => if off <? 0 then c else set_in off c).

Definition Read (nBytes : Z) : M Conv (list Z) :=
  c ← gets id;
  if nBytes <? 0 then (if nBytes =? -1 then ret [] else fail Exited)
  else
    let got := slice (c_in c) nBytes coff in
    if zlen got =? nBytes then _ ← modify (set_in (c_in c + nBytes)); ret got else fail Exited.

Definition Write (buf : list Z) (nBytes : Z) : M Conv unit :=
  if nBytes <? 0 then (if nBytes =? -1 then ret tt else fail Exited)
  else
    c ← gets id;
    f ← lift (file_write (c_pos c) buf (c_out c));
    modify (set_out f (c_pos c + nBytes)).

(** The bytes of a section are copied; its place in the NOFF file. *)
Definition copy_section (s : scnhdr) (update : Segment -> NoffHeader -> NoffHeader) : M Conv unit :=
  c ← gets id;
  _ ← modify (set_noffH (update (mkSegment (s_paddr s) (inNoffFile c) (s_size s)) (c_noffH c)));
  _ ← lseek_in (s_scnptr s);
  buffer ← Read (s_size s);
  _ ← Write buffer (s_size s);
  modify (set_inNoffFile (s32 (inNoffFile c + s_size s))).

Definition convert_section (s : scnhdr) : M Conv unit :=
  c ← gets id;
  let h := c_noffH c in
  if s_size s =? 0 then ret tt
  else if is_text s then copy_section s set_code
  else if is_data s then
    if negb (seg_size (initData h) =? 0) then fail Exited
    else copy_section s set_initData
  else if is_bss s then
    let u := uninitData h in
    if negb (seg_size u =? 0) then
      if s_paddr s =? s32 (virtualAddr u + seg_size u) then fail Exited
      else modify (set_noffH (set_uninitData (mkSegment (virtualAddr u) (inFileAddr u) (s32 (seg_size u + s_size s))) h))
    else modify (set_noffH (set_uninitData (mkSegment (s_paddr s) (inFileAddr u) (s_size s)) h))
  else fail Exited.

Fixpoint convert_sections (l : list scnhdr) : M Conv unit :=
  match l with
  | [] => ret tt
  | s :: l => _ ← convert_section s; convert_sections l
  end.

Definition coff2noff_main : M Conv unit :=
  fileh ← Read sizeof_filehdr;
  if negb (half_at 0 fileh =? MIPSELMAGIC) then fail Exited
  else
    systemh ← Read sizeof_aouthdr;
    if negb (half_at 0 systemh =? OMAGIC) then fail Exited
    else
      let numsections := half_at 2 fileh in
      sections ← Read (numsections * sizeof_scnhdr);
      _ ← modify (fun c =>
        let h := c_noffH c in
        let z s := mkSegment (virtualAddr s) (inFileAddr s) 0 in
        set_inNoffFile sizeof_NoffHeader
          (set_out (c_out c) sizeof_NoffHeader
            (set_noffH (mkNoff NOFFMAGIC (z (code h)) (z (initData h)) (z (uninitData h))) c)));
      _ ← convert_sections (scnhdr_at sections <$> seqZ 0 numsections);
      _ ← modify (fun c => set_out (c_out c) 0 c);
      c ← gets id;
      Write (header_bytes (c_noffH c)) sizeof_NoffHeader.

(** [noffH0]: the uninitialised header. *)
Definition coff2noff (noffH0 : NoffHeader) : res (list Z) :=
  r ← coff2noff_main (mkConv 0 [] 0 noffH0 0);
  Ok (c_out (snd r)).
End Convert.
