(* ===== verification/NoffSafe.v ===== *)
(** * From COFF to a loaded program

    What coff2noff puts into the NOFF file, and that the constructor of
    AddrSpace loads from it the bytes of the sections of the COFF file. *)

From stdpp Require Import base list numbers gmap.
From S2P Require Import Prelude Arrays State Bitmap Machine Disk Lru Vm VmSafe Loader LoaderSafe Noff.

(** ** COFF files the tool accepts *)

Definition nonempty_of (p : scnhdr -> bool) (l : list scnhdr) : list scnhdr :=
  filter (fun s => 0 < s_size s /\ p s = true) l.

Definition sections_of (coff : list Z) : list scnhdr :=
  scnhdr_at (slice (sizeof_filehdr + sizeof_aouthdr) (half_at 2 coff * sizeof_scnhdr) coff) <$> seqZ 0 (half_at 2 coff).

Record section_ok (coff : list Z) (s : scnhdr) : Prop := {
  so_size : 0 <= s_size s;
  so_paddr : in_s32 (s_paddr s);
  so_known : 0 < s_size s -> is_text s || is_data s || is_bss s = true;
  so_raw : 0 < s_size s -> is_text s || is_data s = true -> 0 <= s_scnptr s /\ s_scnptr s + s_size s <= zlen coff
}.

Record coff_ok (coff : list Z) : Prop := {
  co_bytes : Forall in_u8 coff;
  co_length : zlen coff < 2 ^ 28;
  co_magic : half_at 0 coff = MIPSELMAGIC;
  co_omagic : half_at sizeof_filehdr coff = OMAGIC;
  co_headers : sizeof_filehdr + sizeof_aouthdr + half_at 2 coff * sizeof_scnhdr <= zlen coff;
  co_sections : Forall (section_ok coff) (sections_of coff);
  co_text : (length (nonempty_of is_text (sections_of coff)) <= 1)%nat;
  co_data : (length (nonempty_of is_data (sections_of coff)) <= 1)%nat;
  co_bss : (length (nonempty_of is_bss (sections_of coff)) <= 1)%nat
}.

(** The section of a kind, if it has one. *)
Definition the (p : scnhdr -> bool) (coff : list Z) : option scnhdr := hd_error (nonempty_of p (sections_of coff)).

Definition section_bytes (coff : list Z) (s : scnhdr) : list Z := slice (s_scnptr s) (s_size s) coff.

(** Names tell the kinds apart. *)
Lemma named_fun c c' s : named c s = true -> named c' s = true -> Forall (fun x => x <> 0) c -> Forall (fun x => x <> 0) c' -> c = c'.
Proof.
  unfold named. rewrite !bool_decide_eq_true. generalize (s_name s). clear s. revert c'.
  induction c as [|x c IH]; intros [|y c'] l H1 H2 F1 F2; destruct l as [|z l]; try done; cbn in *.
  - injection H1 as ->. injection H2 as <-. inversion F2. done.
  - injection H1 as ->. injection H2 as ->. by inversion F1.
  - injection H1 as -> H1. injection H2 as -> H2. f_equal. apply Forall_cons in F1 as [_ F1]. apply Forall_cons in F2 as [_ F2].
    by apply (IH c' l).
Qed.

Lemma text_not_data s : is_text s = true -> is_data s = false.
Proof.
  intros H. unfold is_data. apply orb_false_iff.
  split; apply not_true_is_false; intros H'; pose proof (named_fun _ _ s H H'
    ltac:(repeat constructor; lia) ltac:(repeat constructor; lia)); done.
Qed.
Lemma text_not_bss s : is_text s = true -> is_bss s = false.
Proof.
  intros H. unfold is_bss. apply orb_false_iff.
  split; apply not_true_is_false; intros H'; pose proof (named_fun _ _ s H H'
    ltac:(repeat constructor; lia) ltac:(repeat constructor; lia)); done.
Qed.
Lemma data_not_bss s : is_data s = true -> is_bss s = false.
Proof.
  unfold is_data, is_bss. intros [H|H]%orb_true_iff; apply orb_false_iff;
  split; apply not_true_is_false; intros H'; pose proof (named_fun _ _ s H H'
    ltac:(repeat constructor; lia) ltac:(repeat constructor; lia)); done.
Qed.

(** ** The state while the sections are converted *)

Section Convert.
Context (coff : list Z).
Hypothesis Hlen : zlen coff < 2 ^ 28.
Hypothesis Hu8 : Forall in_u8 coff.

Definition hole : list Z := replicate (Z.to_nat sizeof_NoffHeader) 0.

(** The segment [g] holds the section, [body] being the file behind the
    header. *)
Definition holds_section (body : list Z) (g : Segment) (o : option scnhdr) : Prop :=
  match o with
  | None => seg_size g = 0
  | Some s => virtualAddr g = s_paddr s /\ seg_size g = s_size s /\ 0 < s_size s /\ sizeof_NoffHeader <= inFileAddr g /\
      inFileAddr g - sizeof_NoffHeader + s_size s <= zlen body /\
      slice (inFileAddr g - sizeof_NoffHeader) (s_size s) body = section_bytes coff s
  end.

Definition cnt {A} (o : option A) : Z := match o with Some _ => 1 | None => 0 end.

Record converting (c : Conv) (body : list Z) (t d b : option scnhdr) : Prop := {
  cv_out : c_out c = match body with [] => [] | _ => hole ++ body end;
  cv_pos : c_pos c = sizeof_NoffHeader + zlen body;
  cv_in : inNoffFile c = sizeof_NoffHeader + zlen body;
  cv_bytes : Forall in_u8 body;
  cv_length : zlen body <= (cnt t + cnt d) * zlen coff;
  cv_magic : noffMagic (c_noffH c) = NOFFMAGIC;
  cv_code : holds_section body (code (c_noffH c)) t;
  cv_data : holds_section body (initData (c_noffH c)) d;
  cv_bss : match b with
           | None => seg_size (uninitData (c_noffH c)) = 0
           | Some s => virtualAddr (uninitData (c_noffH c)) = s_paddr s /\ seg_size (uninitData (c_noffH c)) = s_size s
           end
}.

Lemma holds_section_app body more g o : holds_section body g o -> holds_section (body ++ more) g o.
Proof.
  destruct o as [s|]; [|done]. cbn. intros (H1 & H2 & H0 & H3 & H4 & H5). split_and!; try done.
  - rewrite zlen_app. unfold zlen in *. lia.
  - rewrite <-H5. unfold slice. rewrite drop_app_le by (unfold zlen in *; lia).
    apply take_app_le. rewrite length_drop. unfold zlen in *. lia.
Qed.

Lemma append_out body bs : 0 < zlen bs ->
  file_write (sizeof_NoffHeader + zlen body) bs (match body with [] => [] | _ => hole ++ body end) = Ok (hole ++ body ++ bs).
Proof.
  intros Hpos. assert (Hh : zlen hole = sizeof_NoffHeader) by done.
  assert (0 <= zlen body) by (unfold zlen; lia).
  unfold file_write. rewrite ASSERT_true by (apply Z.leb_le; change sizeof_NoffHeader with 40; lia). cbn [mbind res_bind].
  assert (E : exists r, match body with [] => [] | _ => hole ++ body end ++ r = (hole ++ body) ++ replicate (length bs) 0 /\
    r = replicate (Z.to_nat (sizeof_NoffHeader + zlen body + zlen bs - zlen (match body with [] => [] | _ => hole ++ body end))) 0).
  { eexists. split; [|reflexivity]. destruct body as [|x body].
    - cbn [app]. rewrite app_nil_r. unfold hole. rewrite <-replicate_add. f_equal. unfold zlen. change sizeof_NoffHeader with 40. cbn [length]. lia.
    - f_equal. f_equal. rewrite zlen_app, Hh. unfold zlen. lia. }
  destruct E as (r & E1 & ->). rewrite E1. rewrite bwrite_Ok.
  - f_equal. unfold splice. replace (Z.to_nat (sizeof_NoffHeader + zlen body)) with (length (hole ++ body)) by (rewrite length_app; unfold zlen in *; lia).
    rewrite take_app_length, drop_ge, app_nil_r, <-app_assoc; [done|].
    rewrite length_app, length_replicate. lia.
  - change sizeof_NoffHeader with 40. lia.
  - rewrite !zlen_app, Hh. unfold zlen. rewrite length_replicate. lia.
Qed.

Lemma run_Read c n (Q : list Z -> Conv -> Prop) : 0 <= n -> 0 <= c_in c -> c_in c + n <= zlen coff ->
  Q (slice (c_in c) n coff) (set_in (c_in c + n) c) -> run_to (Read coff n) c Q.
Proof.
  intros Hn Hi Hl H. unfold Read. step. rewrite (proj2 (Z.ltb_ge n 0)) by done. cbv zeta. unfold id.
  rewrite zlen_slice by done. rewrite Z.eqb_refl. step. step. exact H.
Qed.

Lemma run_copy_section c body t d b s update (Q : unit -> Conv -> Prop) :
  converting c body t d b -> cnt t + cnt d <= 1 -> section_ok coff s -> 0 < s_size s -> is_text s || is_data s = true ->
  (forall i, Q tt (mkConv i (hole ++ body ++ section_bytes coff s) (sizeof_NoffHeader + zlen (body ++ section_bytes coff s))
     (update (mkSegment (s_paddr s) (sizeof_NoffHeader + zlen body) (s_size s)) (c_noffH c))
     (sizeof_NoffHeader + zlen (body ++ section_bytes coff s)))) ->
  run_to (copy_section coff s update) c Q.
Proof.
  intros H Hcnt Hok Hpos Hk HQ. destruct (so_raw coff s Hok Hpos Hk) as [H0 H1].
  assert (Hz : zlen (section_bytes coff s) = s_size s) by (apply zlen_slice; lia).
  assert (Hb : 0 <= zlen body <= zlen coff).
  { pose proof (cv_length _ _ _ _ _ H). assert (0 <= zlen coff) by (unfold zlen; lia). split; [unfold zlen; lia|]. nia. }
  unfold copy_section. step. step. unfold lseek_in. step. step. eapply run_Read; [lia| | |].
  { cbn. rewrite (proj2 (Z.ltb_ge _ _)) by done. cbn. lia. }
  { cbn. rewrite (proj2 (Z.ltb_ge _ _)) by done. cbn. lia. }
  cbn. rewrite (proj2 (Z.ltb_ge (s_scnptr s) 0)) by done. cbn. unfold Write. rewrite (proj2 (Z.ltb_ge (s_size s) 0)) by lia.
  step. step.
  { cbn. rewrite (cv_pos _ _ _ _ _ H), (cv_out _ _ _ _ _ H). apply append_out. fold (section_bytes coff s). lia. }
  step. step. cbn. unfold id. rewrite (cv_pos _ _ _ _ _ H), (cv_in _ _ _ _ _ H), s32_id by (change sizeof_NoffHeader with 40; unfold in_s32; lia).
  specialize (HQ (s_scnptr s + s_size s)). rewrite zlen_app, Hz, Z.add_assoc in HQ. exact HQ.
Qed.

(** One section more. *)
Definition adds (p : scnhdr -> bool) (s : scnhdr) (o : option scnhdr) : option scnhdr :=
  if bool_decide (0 < s_size s /\ p s = true) then Some s else o.
Definition room (p : scnhdr -> bool) (s : scnhdr) (o : option scnhdr) : Prop := 0 < s_size s -> p s = true -> o = None.

Lemma holds_new body s : section_ok coff s -> 0 < s_size s -> is_text s || is_data s = true ->
  holds_section (body ++ section_bytes coff s) (mkSegment (s_paddr s) (sizeof_NoffHeader + zlen body) (s_size s)) (Some s).
Proof.
  intros Hok Hpos Hk. destruct (so_raw coff s Hok Hpos Hk) as [H0 H1].
  assert (Hz : zlen (section_bytes coff s) = s_size s) by (apply zlen_slice; lia).
  cbn. replace (sizeof_NoffHeader + zlen body - sizeof_NoffHeader) with (zlen body) by lia.
  split_and!; try done; [unfold zlen; lia|rewrite zlen_app; lia|].
  unfold slice, zlen. rewrite Nat2Z.id, drop_app_length. apply take_ge. unfold zlen in Hz. lia.
Qed.

Lemma converting_copied c body t d b s h i : converting c body t d b -> section_ok coff s -> 0 < s_size s ->
  is_text s || is_data s = true -> noffMagic h = NOFFMAGIC -> forall t' d',
  cnt t' + cnt d' = cnt t + cnt d + 1 ->
  holds_section (body ++ section_bytes coff s) (code h) t' -> holds_section (body ++ section_bytes coff s) (initData h) d' ->
  uninitData h = uninitData (c_noffH c) ->
  converting (mkConv i (hole ++ body ++ section_bytes coff s) (sizeof_NoffHeader + zlen (body ++ section_bytes coff s)) h
    (sizeof_NoffHeader + zlen (body ++ section_bytes coff s))) (body ++ section_bytes coff s) t' d' b.
Proof.
  intros H Hok Hpos Hk Hm t' d' Hcnt Ht Hd Hbss. destruct (so_raw coff s Hok Hpos Hk) as [H0 H1].
  assert (Hz : zlen (section_bytes coff s) = s_size s) by (apply zlen_slice; lia).
  split; cbn; try done.
  - destruct (body ++ _) eqn:E; [|done]. apply app_eq_nil in E as [_ E]. rewrite E in Hz. unfold zlen in Hz. cbn in Hz. lia.
  - apply Forall_app. split; [apply H|by apply Forall_slice].
  - rewrite zlen_app, Hz, Hcnt. pose proof (cv_length _ _ _ _ _ H). lia.
  - rewrite Hbss. apply H.
Qed.

Lemma run_convert_section c body t d b s : converting c body t d b -> section_ok coff s ->
  room is_text s t -> room is_data s d -> room is_bss s b ->
  run_to (convert_section coff s) c (fun _ c' => exists body', converting c' body' (adds is_text s t) (adds is_data s d) (adds is_bss s b)).
Proof.
  intros H Hok Rt Rd Rb. pose proof (so_size coff s Hok) as Hsz. pose proof H as [H1 H2 H3 H4 H5 H6 H7 H8 H9].
  unfold convert_section. step. unfold id. unfold adds. destruct (Z.eqb_spec (s_size s) 0) as [E0|Hn0].
  { step. exists body. by rewrite !bool_decide_false by lia. }
  assert (Hpos : 0 < s_size s) by lia. specialize (Rt Hpos). specialize (Rd Hpos). specialize (Rb Hpos).
  destruct (is_text s) eqn:Et; [|destruct (is_data s) eqn:Ed; [|destruct (is_bss s) eqn:Eb]].
  - rewrite (text_not_data s Et), (text_not_bss s Et). rewrite bool_decide_true, !bool_decide_false by (done || intros [_ [=]]).
    rewrite (Rt eq_refl) in *. eapply run_copy_section; [exact H|destruct d; cbn; lia|done|done|by rewrite Et|].
    intros i. eexists. eapply (converting_copied c body None d b s); try done; [by rewrite Et|cbn; lia| |].
    + apply holds_new; [done|done|by rewrite Et].
    + by apply holds_section_app.
  - rewrite (data_not_bss s Ed). rewrite (bool_decide_true (0 < s_size s /\ true = true)), !bool_decide_false by (done || intros [_ [=]]).
    rewrite (Rd eq_refl) in *. cbn in H8. rewrite H8. cbn [Z.eqb negb].
    eapply run_copy_section; [exact H|destruct t; cbn; lia|done|done|by rewrite Et, Ed|].
    intros i. eexists. eapply (converting_copied c body t None b s); try done; [by rewrite Et, Ed|cbn; lia| |].
    + by apply holds_section_app.
    + apply holds_new; [done|done|by rewrite Et, Ed].
  - rewrite (bool_decide_true (0 < s_size s /\ true = true)), !bool_decide_false by (done || intros [_ [=]]).
    rewrite (Rb eq_refl) in *. rewrite H9. cbn [Z.eqb negb]. step. exists body. by split.
  - pose proof (so_known coff s Hok Hpos) as Hk. rewrite Et, Ed, Eb in Hk. done.
Qed.

Lemma filter_one p s l o : (length (nonempty_of p (s :: l)) + Z.to_nat (cnt o) <= 1)%nat ->
  room p s o /\ (length (nonempty_of p l) + Z.to_nat (cnt (adds p s o)) <= 1)%nat /\
  (match adds p s o with Some x => Some x | None => hd_error (nonempty_of p l) end) =
  (match o with Some x => Some x | None => hd_error (nonempty_of p (s :: l)) end).
Proof.
  unfold nonempty_of, room, adds. rewrite filter_cons. case_decide as Hd; cbn [length hd_error].
  - rewrite bool_decide_true by done. intros Hl. destruct o; [cbn in Hl; lia|]. split; [done|]. split; [cbn; cbn in Hl; lia|done].
  - rewrite bool_decide_false by done. intros Hl. split; [|done]. intros ? ?. by destruct Hd.
Qed.

Lemma run_convert_sections l c body t d b : converting c body t d b -> Forall (section_ok coff) l ->
  (length (nonempty_of is_text l) + Z.to_nat (cnt t) <= 1)%nat ->
  (length (nonempty_of is_data l) + Z.to_nat (cnt d) <= 1)%nat ->
  (length (nonempty_of is_bss l) + Z.to_nat (cnt b) <= 1)%nat ->
  run_to (convert_sections coff l) c (fun _ c' => exists body', converting c' body'
    (match t with Some x => Some x | None => hd_error (nonempty_of is_text l) end)
    (match d with Some x => Some x | None => hd_error (nonempty_of is_data l) end)
    (match b with Some x => Some x | None => hd_error (nonempty_of is_bss l) end)).
Proof.
  revert c body t d b. induction l as [|s l IH]; intros c body t d b H Hl Ht Hd Hb; cbn [convert_sections].
  { step. exists body. by destruct t, d, b. }
  apply Forall_cons in Hl as [Hs Hl].
  destruct (filter_one _ _ _ _ Ht) as (Rt & Ht' & <-). destruct (filter_one _ _ _ _ Hd) as (Rd & Hd' & <-).
  destruct (filter_one _ _ _ _ Hb) as (Rb & Hb' & <-).
  apply run_to_bind. eapply run_to_mono; [by apply (run_convert_section c body t d b)|]. intros [] c' (body' & H').
  by apply (IH c' body').
Qed.
End Convert.

(** ** The whole file *)

Lemma half_at_slice off i n l : 0 <= off -> 0 <= i -> off + 2 <= n -> half_at off (slice i n l) = half_at (i + off) l.
Proof.
  intros Ho Hi Hn. unfold half_at. f_equal. unfold slice.
  rewrite skipn_firstn_comm, firstn_firstn, drop_drop. f_equal; [lia|]. f_equal. lia.
Qed.

Definition s32_segment (g : Segment) : Segment := mkSegment (s32 (virtualAddr g)) (s32 (inFileAddr g)) (s32 (seg_size g)).

Lemma word_at_words ws i z : ws !! i = Some (u32 z) -> word_at (Z.of_nat i) (words_to_bytes ws) = s32 z.
Proof.
  intros H. unfold word_at. replace (slice (4 * Z.of_nat i) 4 (words_to_bytes ws)) with (le_bytes 4 (u32 z)).
  { rewrite le_val_le_bytes. change (256 ^ Z.of_nat 4) with (2 ^ 32). unfold u32 at 1. rewrite Z.mod_mod by done. apply s32_u32. }
  revert i H. induction ws as [|w ws IH]; intros i H; [done|]. unfold words_to_bytes. rewrite bind_cons.
  destruct i as [|i]; cbn in H.
  - injection H as ->. unfold slice. rewrite drop_0. symmetry. apply take_app_length'. by rewrite length_le_bytes.
  - rewrite (IH i H). unfold slice. rewrite drop_app_ge by (rewrite length_le_bytes; lia).
    rewrite length_le_bytes. f_equal. f_equal. lia.
Qed.

Lemma header_header_bytes h body :
  header (header_bytes h ++ body) = mkNoff (s32 (noffMagic h)) (s32_segment (code h)) (s32_segment (initData h)) (s32_segment (uninitData h)).
Proof.
  unfold header. assert (Hl : length (header_bytes h) = 40%nat) by (unfold header_bytes; by rewrite length_words_to_bytes).
  assert (E : slice 0 sizeof_NoffHeader (header_bytes h ++ body) = header_bytes h).
  { unfold slice. rewrite drop_0. change (Z.to_nat sizeof_NoffHeader) with 40%nat. rewrite <-Hl. apply take_app_length. }
  rewrite E. unfold header_of, segment_at, s32_segment.
  assert (Hw : forall (i : nat) z, (u32 <$> noffMagic h :: segment_words (code h) ++ segment_words (initData h) ++ segment_words (uninitData h)) !! i = Some (u32 z) ->
    word_at (Z.of_nat i) (header_bytes h) = s32 z) by (intros i z; apply word_at_words).
  f_equal; [by apply (Hw 0%nat)|f_equal..];
    [by apply (Hw 1%nat)|by apply (Hw 2%nat)|by apply (Hw 3%nat)|by apply (Hw 4%nat)|by apply (Hw 5%nat)|
     by apply (Hw 6%nat)|by apply (Hw 7%nat)|by apply (Hw 8%nat)|by apply (Hw 9%nat)].
Qed.

Lemma Write_header h body : file_write 0 (header_bytes h) (match body with [] => [] | _ => hole ++ body end) = Ok (header_bytes h ++ body).
Proof.
  assert (Hl : zlen (header_bytes h) = 40) by (unfold header_bytes, zlen; by rewrite length_words_to_bytes).
  assert (Hh : zlen hole = 40) by done.
  destruct body as [|x body].
  - unfold file_write. cbn [ASSERT Z.leb Z.compare mbind res_bind app]. rewrite Hl. cbn [ASSERT].
    rewrite bwrite_Ok; [|done|by rewrite Hl].
    rewrite splice_whole; [by rewrite app_nil_r|]. by rewrite Hl.
  - rewrite file_write_ok; [|done|rewrite zlen_app, Hl, Hh; unfold zlen; lia]. reflexivity.
Qed.

Lemma run_main coff h0 : coff_ok coff ->
  run_to (coff2noff_main coff) (mkConv 0 [] 0 h0 0) (fun _ c' => exists c body,
    c_out c' = header_bytes (c_noffH c) ++ body /\ converting coff c body (the is_text coff) (the is_data coff) (the is_bss coff)).
Proof.
  intros [Hu Hlen Hm Ho Hh Hs Ht Hd Hb]. pose proof (Forall_slice in_u8 2 2 coff Hu) as Hu2.
  assert (Hn : 0 <= half_at 2 coff) by (unfold half_at; apply le_val_range; by apply Forall_slice).
  change sizeof_filehdr with 20 in *. change sizeof_aouthdr with 56 in *. change sizeof_scnhdr with 40 in *.
  unfold coff2noff_main. change sizeof_filehdr with 20. change sizeof_aouthdr with 56. change sizeof_scnhdr with 40.
  step. apply run_Read; [lia|cbn; lia|cbn; lia|]. cbn [c_in set_in].
  rewrite half_at_slice by lia. change (0 + 0) with 0. rewrite Hm, Z.eqb_refl. cbn [negb].
  step. apply run_Read; [lia|cbn; lia|cbn; lia|]. cbn [c_in set_in].
  rewrite half_at_slice by lia. change (0 + 20 + 0) with 20. rewrite Ho, Z.eqb_refl. cbn [negb]. rewrite half_at_slice by lia. change (0 + 2) with 2. cbv zeta.
  step. apply run_Read; [lia|cbn; lia|cbn; lia|]. cbn [c_in set_in].
  step. apply run_to_bind. change (0 + 20 + 56) with 76.
  eapply run_to_mono; [apply (run_convert_sections coff Hlen Hu _ _ [] None None None)|].
  - by split.
  - exact Hs.
  - cbn. rewrite Nat.add_0_r. exact Ht.
  - cbn. rewrite Nat.add_0_r. exact Hd.
  - cbn. rewrite Nat.add_0_r. exact Hb.
  - intros [] c (body & H). step. step. unfold id. unfold Write.
    rewrite (proj2 (Z.ltb_ge sizeof_NoffHeader 0)) by done. step. step.
    { unfold id. cbn. rewrite (cv_out _ _ _ _ _ _ H). apply Write_header. }
    step. exists c, body. by split.
Qed.

(** ** The property *)

(** The segment of the NOFF file is the section of the COFF file. *)
Definition describes (coff out : list Z) (g : Segment) (o : option scnhdr) : Prop :=
  match o with
  | None => seg_size g = 0
  | Some s => virtualAddr g = s_paddr s /\ seg_size g = s_size s /\ segment_bytes out g = section_bytes coff s
  end.

Definition size_of (o : option scnhdr) : Z := match o with Some s => s_size s | None => 0 end.
Definition bytes_of (coff : list Z) (o : option scnhdr) : list Z := match o with Some s => section_bytes coff s | None => [] end.

(** The layout of the linker: code from 0, the data behind it. *)
Record layout_ok (coff : list Z) : Prop := {
  lo_text s : the is_text coff = Some s -> s_paddr s = 0;
  lo_data s : the is_data coff = Some s -> s_paddr s = size_of (the is_text coff);
  lo_bss s : the is_bss coff = Some s -> s_size s < 2 ^ 28
}.

Lemma the_ok p coff s : coff_ok coff -> the p coff = Some s -> section_ok coff s /\ 0 < s_size s /\ p s = true.
Proof.
  intros H E. assert (Hin : s ∈ nonempty_of p (sections_of coff)).
  { unfold the in E. destruct (nonempty_of p (sections_of coff)); [done|]. injection E as ->. by left. }
  unfold nonempty_of in Hin. apply list_elem_of_filter in Hin as [[H1 H2] Hin].
  split; [|done]. by apply (proj1 (Forall_forall _ _) (co_sections coff H)).
Qed.

Lemma slice_behind {A} (pre body : list A) off n : zlen pre <= off ->
  slice off n (pre ++ body) = slice (off - zlen pre) n body.
Proof.
  intros H. unfold slice, zlen in *. rewrite drop_app_ge by lia. do 2 f_equal. lia.
Qed.

Section Output.
Context (coff : list Z) (c : Conv) (body : list Z).
Hypothesis Hok : coff_ok coff.
Hypothesis Hc : converting coff c body (the is_text coff) (the is_data coff) (the is_bss coff).
Notation out := (header_bytes (c_noffH c) ++ body).

Lemma header_length : zlen (header_bytes (c_noffH c)) = sizeof_NoffHeader.
Proof. unfold header_bytes, zlen. by rewrite length_words_to_bytes. Qed.

Lemma body_length : zlen body <= 2 ^ 29.
Proof.
  pose proof (cv_length _ _ _ _ _ _ Hc). pose proof (co_length coff Hok).
  assert (0 <= zlen coff) by (unfold zlen; lia). destruct (the is_text coff), (the is_data coff); cbn in *; lia.
Qed.

Lemma output_section g o p : o = the p coff -> holds_section coff body g o ->
  describes coff out (s32_segment g) o /\
  (forall s, o = Some s -> 0 <= inFileAddr (s32_segment g) /\ inFileAddr (s32_segment g) + s_size s <= zlen out).
Proof.
  intros Eo. pose proof body_length. rewrite zlen_app, header_length. change sizeof_NoffHeader with 40 in *.
  unfold s32_segment. cbn [inFileAddr seg_size virtualAddr].
  destruct o as [s|]; cbn [describes holds_section seg_size inFileAddr virtualAddr]; [|intros ->; by split].
  destruct (the_ok p coff s Hok (eq_sym Eo)) as (Hs & Hpos & _). pose proof (so_paddr coff s Hs).
  intros (-> & -> & _ & H1 & H2 & H3). change sizeof_NoffHeader with 40 in *.
  assert (Hz : s_size s <= zlen body) by lia.
  rewrite (s32_id (s_paddr s)) by done. rewrite (s32_id (s_size s)) by (unfold in_s32; lia).
  rewrite (s32_id (inFileAddr g)) by (unfold in_s32; lia). split.
  - split; [done|]. split; [done|]. unfold segment_bytes. cbn [inFileAddr seg_size]. rewrite slice_behind by (rewrite header_length; done).
    by rewrite header_length.
  - intros s' [= <-]. lia.
Qed.

Lemma output_noff : layout_ok coff -> noff_ok out.
Proof.
  intros [L1 L2 L3]. pose proof body_length as Hbl. pose proof header_length as Hhl.
  pose proof (cv_magic _ _ _ _ _ _ Hc) as Hm.
  pose proof (output_section _ _ _ eq_refl (cv_code _ _ _ _ _ _ Hc)) as [Ht Ht'].
  pose proof (output_section _ _ _ eq_refl (cv_data _ _ _ _ _ _ Hc)) as [Hd Hd'].
  pose proof (cv_bss _ _ _ _ _ _ Hc) as Hb. pose proof (the_ok is_text coff) as T. pose proof (the_ok is_data coff) as D.
  pose proof (the_ok is_bss coff) as B. pose proof (co_length coff Hok) as Hcl.
  assert (Ebss : 0 <= s32 (seg_size (uninitData (c_noffH c))) < 2 ^ 28).
  { destruct (the is_bss coff) as [s|]; [|by rewrite Hb]. destruct Hb as [_ ->]. destruct (B s Hok eq_refl) as (_ & H0 & _).
    pose proof (L3 s eq_refl). rewrite s32_id by (unfold in_s32; lia). lia. }
  assert (Esize : forall o g, describes coff out g o -> (forall s, o = Some s -> 0 < s_size s <= zlen coff) -> 0 <= seg_size g < 2 ^ 28).
  { intros [s|] g Hg Hs; cbn [describes] in Hg; [|lia]. destruct Hg as (_ & -> & _). specialize (Hs s eq_refl). lia. }
  assert (Et : 0 <= seg_size (s32_segment (code (c_noffH c))) < 2 ^ 28).
  { apply (Esize (the is_text coff)); [done|]. intros s E. destruct (T s Hok E) as (H1 & H2 & H3).
    destruct (so_raw coff s H1 H2) as [? ?]; [by rewrite H3|]. lia. }
  assert (Ed : 0 <= seg_size (s32_segment (initData (c_noffH c))) < 2 ^ 28).
  { apply (Esize (the is_data coff)); [done|]. intros s E. destruct (D s Hok E) as (H1 & H2 & H3).
    destruct (so_raw coff s H1 H2) as [? ?]; [by rewrite H3, orb_true_r|]. lia. }
  split; rewrite ?header_header_bytes; cbn [noffMagic code initData uninitData].
  - apply Forall_app. split; [apply words_to_bytes_in_u8|apply Hc].
  - rewrite zlen_app, Hhl. change PageSize with 128. change sizeof_NoffHeader with 40. assert (0 <= zlen body) by (unfold zlen; lia). lia.
  - by rewrite Hm.
  - cbn. cbn in Et, Ed. lia.
  - change PageSize with 128. change UserStackSize with 1024. cbn in *. lia.
  - intros Hpos. destruct (the is_text coff) as [s|]; cbn [describes] in Ht; [|lia]. destruct (Ht' s eq_refl) as [? ?]. destruct Ht as (-> & -> & _).
    split; [by apply L1|]. done.
  - intros Hpos. destruct (the is_data coff) as [s|]; cbn [describes] in Hd; [|lia]. destruct (Hd' s eq_refl) as [? ?]. destruct Hd as (-> & -> & _).
    split; [|done]. rewrite (L2 s eq_refl). destruct (the is_text coff) as [u|]; cbn [describes size_of] in Ht |- *; [|done]. by destruct Ht as (_ & -> & _).
Qed.
End Output.

(** C16: What the compiler made is what runs.  coff2noff turns a COFF file
    with at most one section of each kind into a NOFF file whose segments
    are its sections; and when they are laid out as the linker does it, the
    constructor of AddrSpace returns a space in which every byte of the
    COFF file's code and data is at its virtual address. *)
Theorem coff_program_loads coff h0 : coff_ok coff ->
  exists out, coff2noff coff h0 = Ok out /\ noffMagic (header out) = NOFFMAGIC /\
    describes coff out (code (header out)) (the is_text coff) /\
    describes coff out (initData (header out)) (the is_data coff) /\
    seg_size (uninitData (header out)) = s32 (size_of (the is_bss coff)) /\
    (layout_ok coff -> forall table pid xs w fuel n0 buf1 buf2,
      0 <= pid -> vm_ok w xs -> tables w !! table = None -> (forall i q t, ~ slot w i q pid t) ->
      zlen (diskBuffer w) = PageSize -> Forall in_u8 (diskBuffer w) ->
      image_pages (header out) <= zlen (clear_bits (swapMap (swapMgr w))) ->
      zlen n0 = sizeof_NoffHeader -> zlen buf1 = PageSize -> Forall in_u8 buf1 -> zlen buf2 = PageSize -> Forall in_u8 buf2 ->
      size_of (the is_text coff) + size_of (the is_data coff) <= Z.of_nat fuel ->
      exists w', AddrSpace_load out table pid fuel n0 buf1 buf2 w = Ok (Some (mkAS table (image_pages (header out)) pid), w') /\
        (forall k b, bytes_of coff (the is_text coff) !! k = Some b -> byte_at w' pid (Z.of_nat k) b) /\
        (forall k b, bytes_of coff (the is_data coff) !! k = Some b -> byte_at w' pid (size_of (the is_text coff) + Z.of_nat k) b)).
Proof.
  intros Hok. destruct (run_main coff h0 Hok) as ([] & c' & E & c & body & Hout & Hc).
  exists (header_bytes (c_noffH c) ++ body). split; [unfold coff2noff; rewrite E; cbn [mbind res_bind snd]; by rewrite Hout|].
  destruct (output_section coff c body Hok Hc _ _ _ eq_refl (cv_code _ _ _ _ _ _ Hc)) as [Ht _].
  destruct (output_section coff c body Hok Hc _ _ _ eq_refl (cv_data _ _ _ _ _ _ Hc)) as [Hd _].
  split; [rewrite header_header_bytes; cbn [noffMagic]; by rewrite (cv_magic _ _ _ _ _ _ Hc)|].
  rewrite (header_header_bytes (c_noffH c) body). cbn [code initData uninitData].
  split; [done|]. split; [done|]. split.
  { pose proof (cv_bss _ _ _ _ _ _ Hc) as Hb. unfold s32_segment. cbn [seg_size].
    destruct (the is_bss coff); cbn [size_of]; [by destruct Hb as [_ ->]|by rewrite Hb]. }
  rewrite <-(header_header_bytes (c_noffH c) body).
  intros Hl table pid xs w fuel n0 buf1 buf2 H1 H2 H3 H4 H5 H6 H7 H8 H9 H10 H11 H12 Hf.
  assert (Hsz : forall o g out, describes coff out g o -> seg_size g = size_of o) by (intros [s|] g out; cbn; [by intros (_ & -> & _)|done]).
  pose proof (Hsz _ _ _ Ht) as Est. pose proof (Hsz _ _ _ Hd) as Esd.
  destruct (run_load (header_bytes (c_noffH c) ++ body) table pid xs H1 (output_noff coff c body Hok Hc Hl) w fuel n0 buf1 buf2)
    as (r & w' & E' & -> & _ & S & _ & _ & Hcode & Hdata & _); try done.
  { apply H2. }
  { rewrite header_header_bytes. cbn [code initData]. by rewrite Est, Esd. }
  exists w'. split; [exact E'|]. rewrite header_header_bytes in Hcode, Hdata. cbn [code initData] in Hcode, Hdata.
  split; intros k b Hb.
  - apply Hcode. destruct (the is_text coff) as [s|]; [|done]. destruct Ht as (_ & _ & ->). exact Hb.
  - rewrite <-Est. apply Hdata. destruct (the is_data coff) as [s|]; [|done]. destruct Hd as (_ & _ & ->). exact Hb.
Qed.

(** A file with six bytes of code, two of data and four not initialised:
    the executable of LoaderSafe.v. *)
Definition example_coff : list Z :=
  [98; 1; 3; 0] ++ replicate 16 0 ++ [7; 1] ++ replicate 54 0 ++
  [46; 116; 101; 120; 116; 0; 0; 0] ++ ([0; 0; 6; 196; 0; 0; 0; 0] ≫= le_bytes 4) ++
  [46; 100; 97; 116; 97; 0; 0; 0] ++ ([6; 6; 2; 202; 0; 0; 0; 0] ≫= le_bytes 4) ++
  [46; 98; 115; 115; 0; 0; 0; 0] ++ ([8; 8; 4; 0; 0; 0; 0; 0] ≫= le_bytes 4) ++ [1; 2; 3; 4; 5; 6; 7; 8].

Definition example_text : scnhdr := mkScn [46; 116; 101; 120; 116; 0; 0; 0] 0 6 196.
Definition example_data : scnhdr := mkScn [46; 100; 97; 116; 97; 0; 0; 0] 6 2 202.
Definition example_bss : scnhdr := mkScn [46; 98; 115; 115; 0; 0; 0; 0] 8 4 0.

Lemma example_sections : sections_of example_coff = [example_text; example_data; example_bss].
Proof. vm_compute. reflexivity. Qed.

Lemma example_the : nonempty_of is_text (sections_of example_coff) = [example_text] /\
  nonempty_of is_data (sections_of example_coff) = [example_data] /\ nonempty_of is_bss (sections_of example_coff) = [example_bss].
Proof. rewrite example_sections. vm_compute. done. Qed.

Lemma example_coff_ok : coff_ok example_coff.
Proof.
  destruct example_the as (Ht & Hd & Hb).
  split; rewrite ?Ht, ?Hd, ?Hb, ?example_sections; try (cbn; lia); try (vm_compute; congruence).
  - apply bytes_ok. vm_compute. reflexivity.
  - repeat (apply Forall_cons; split); [..|by apply Forall_nil]; split; unfold in_s32; vm_compute; intuition congruence.
Qed.

Lemma example_layout : layout_ok example_coff.
Proof.
  destruct example_the as (Ht & Hd & Hb). unfold the in *.
  split; intros s; unfold the; rewrite ?Ht, ?Hd, ?Hb; by intros [= <-].
Qed.

Lemma example_converted : coff2noff example_coff (header_of []) = Ok example_exe.
Proof. vm_compute. reflexivity. Qed.

Lemma coff_program_loads_witness : exists w',
  coff2noff example_coff (header_of []) = Ok example_exe /\
  AddrSpace_load example_exe 3 5 8 (replicate 40 0) (replicate 128 1) (replicate 128 2) example_empty = Ok (Some (mkAS 3 9 5), w') /\
  byte_at w' 5 2 3 /\ byte_at w' 5 7 8.
Proof.
  destruct (coff_program_loads example_coff (header_of []) example_coff_ok) as (out & E & _ & _ & _ & _ & Hload).
  rewrite example_converted in E. injection E as <-.
  specialize (Hload example_layout 3 5 [] example_empty 8%nat (replicate 40 0) (replicate 128 1) (replicate 128 2)).
  destruct example_the as (Ht & Hd & _). unfold the in Hload. rewrite Ht, Hd in Hload. cbn [hd_error size_of bytes_of] in Hload.
  assert (Hp : image_pages (header example_exe) = 9) by (vm_compute; reflexivity). rewrite Hp in Hload.
  destruct Hload as (w' & EL & Hc & Hdt).
  - lia.
  - apply example_empty_ok.
  - reflexivity.
  - intros i q t. apply example_no_slot.
  - reflexivity.
  - apply Forall_replicate. split; lia.
  - vm_compute. discriminate.
  - reflexivity.
  - reflexivity.
  - apply Forall_replicate. split; lia.
  - reflexivity.
  - apply Forall_replicate. split; lia.
  - cbn. lia.
  - exists w'. split; [apply example_converted|]. split; [exact EL|]. split.
    + apply (Hc 2%nat). vm_compute. reflexivity.
    + apply (Hdt 1%nat). vm_compute. reflexivity.
Defined.
