(* ===== verification/Stacks.v ===== *)
(** * The stacks of src/nachos-3.4/c++example/

    The abstract class Stack of inheritstack.h is the class [Stack]: its
    virtual methods, for clients that do not know the implementation, as
    SelfTest.  ArrayStack (of inheritstack.cc, and the same class in
    stack.cc and as a template in templatestack.cc) and ListStack (on the
    List of list.cc) are instances.  What they promise is a simulation of a
    bounded sequence, [StackLaws]; SelfTest and the three programs are
    proved against it. *)

From stdpp Require Import base list numbers gmap fin_maps strings.
From S2P Require Import Prelude Arrays State.

(** ** The interface *)

Class Stack (T St : Type) := {
  Push : T -> M St unit;
  Pop : M St T;
  Full : St -> bool;
  Empty : St -> bool;
}.

(** A sequence, the top first, with the room there is for it. *)
Record bounded (T : Type) := mkBounded { room : option Z; items : list T }.
Arguments mkBounded {T} _ _.
Arguments room {T} _.
Arguments items {T} _.

Definition bounded_full {T} (b : bounded T) : bool :=
  match room b with Some n => zlen (items b) =? n | None => false end.

#[export] Instance Stack_bounded T : Stack T (bounded T) := {
  Push v := fun b => _ ← ASSERT (negb (bounded_full b)); Ok (tt, mkBounded (room b) (v :: items b));
  Pop := fun b => match items b with v :: l => Ok (v, mkBounded (room b) l) | [] => Err AssertFailed end;
  Full := bounded_full;
  Empty b := match items b with [] => true | _ => false end;
}.

(** Both fail alike, or both return the same and are related again. *)
Definition rel_res {A St B} (R : St -> B -> Prop) (x : res (A * St)) (y : res (A * B)) : Prop :=
  match x, y with
  | Ok (a, s), Ok (b, t) => a = b /\ R s t
  | Err e, Err e' => e = e'
  | _, _ => False
  end.

Class StackLaws (T St : Type) `{!Stack T St} := {
  sim : St -> bounded T -> Prop;
  sim_Push : forall v s b, sim s b -> rel_res sim (Push v s) (Push v b);
  sim_Pop : forall s b, sim s b -> rel_res sim (Pop s) (Pop b);
  sim_Full : forall s b, sim s b -> Full s = Full b;
  sim_Empty : forall s b, sim s b -> Empty s = Empty b;
}.

(** ** A stack in an array: stack.{h,cc}, templatestack.{h,cc}, ArrayStack *)

Section Array.
Context {T : Type}.

Record ArrayStack := mkArrayStack { size : Z; top : Z; stack : list T }.

(** [memory] is what new finds. *)
Definition ArrayStack_new (sz : Z) (memory : list T) : res ArrayStack :=
  _ ← ASSERT (1 <=? sz); Ok (mkArrayStack sz 0 memory).

Definition Array_Full (s : ArrayStack) : bool := top s =? size s.
Definition Array_Empty (s : ArrayStack) : bool := top s =? 0.

Definition Array_Push (value : T) : M ArrayStack unit := fun s =>
  _ ← ASSERT (negb (Array_Full s));
  a ← aset (stack s) (top s) value;
  Ok (tt, mkArrayStack (size s) (top s + 1) a).

Definition Array_Pop : M ArrayStack T := fun s =>
  _ ← ASSERT (negb (Array_Empty s));
  let top := top s - 1 in
  v ← aget (stack s) top;
  Ok (v, mkArrayStack (size s) top (stack s)).
End Array.
Arguments ArrayStack : clear implicits.

#[export] Instance Stack_array T : Stack T (ArrayStack T) :=
  { Push := Array_Push; Pop := Array_Pop; Full := Array_Full; Empty := Array_Empty }.

(** ** A stack in a list: list.{h,cc}, ListStack *)

Record ListElement := mkElement { next : Z; item : Z }.

(** The cells are those that new has made and delete has not destroyed. *)
Record IntList := mkIntList { cells : gmap Z ListElement; fresh : Z; first : Z; last : Z }.

Definition NULL : Z := 0.
Definition IntList_new : IntList := mkIntList ∅ 1 NULL NULL.
Definition List_Empty (l : IntList) : bool := first l =? NULL.

Definition List_Prepend (value : Z) (l : IntList) : IntList :=
  let element := fresh l in
  if List_Empty l then
    mkIntList (<[element := mkElement NULL value]> (cells l)) (element + 1) element element
  else
    mkIntList (<[element := mkElement (first l) value]> (cells l)) (element + 1) element (last l).

Definition List_Remove : M IntList Z := fun l =>
  _ ← ASSERT (negb (List_Empty l));
  let element := first l in
  e ← deref (cells l !! element);
  let value := item e in
  let '(f, la) := if first l =? last l then (NULL, NULL) else (next e, last l) in
  Ok (value, mkIntList (delete element (cells l)) (fresh l) f la).

(** The destructor; [turns] of its loop. *)
Fixpoint List_delete (turns : nat) : M IntList unit := fun l =>
  if List_Empty l then Ok (tt, l)
  else match turns with
       | O => Err MemFault
       | S turns => (_ ← List_Remove; List_delete turns) l
       end.

Definition ListStack_new : IntList := IntList_new.
Definition ListStack_Push (value : Z) : M IntList unit := fun l => Ok (tt, List_Prepend value l).
Definition ListStack_Pop : M IntList Z := fun l => _ ← ASSERT (negb (List_Empty l)); List_Remove l.
Definition ListStack_Full (l : IntList) : bool := false.

#[export] Instance Stack_list : Stack Z IntList :=
  { Push := ListStack_Push; Pop := ListStack_Pop; Full := ListStack_Full; Empty := List_Empty }.

(** ** SelfTest, for any stack *)

Inductive message (T : Type) := Testing (name : string) | Pushing (v : T) | Popping (v : T).
Arguments Testing {T} _.
Arguments Pushing {T} _.
Arguments Popping {T} _.

Section SelfTest.
Context {T St : Type} `{!Stack T St} (incr : T -> T).

(** The stack and what was printed. *)
Definition World : Type := St * list (message T).

Definition on_stack {A} (m : M St A) : M World A := zoom fst (fun s w => (s, snd w)) m.
Definition print (ms : message T) : M World unit := modify (fun w => (fst w, snd w ++ [ms])).
Definition is_full : M World bool := gets (fun w => Full (fst w)).
Definition is_empty : M World bool := gets (fun w => Empty (fst w)).

(** [cout << "pushing " << count; Push(count++);] *)
Definition push_count (count : T) : M World T :=
  _ ← print (Pushing count); _ ← on_stack (Push count); ret (incr count).

(** while (!Full()) *)
Fixpoint push_all (turns : nat) (count : T) : M World unit :=
  f ← is_full;
  if f : bool then ret tt
  else match turns with O => fail MemFault | S turns => count ← push_count count; push_all turns count end.

(** while (!Empty()) *)
Fixpoint pop_all (turns : nat) : M World unit :=
  e ← is_empty;
  if e : bool then ret tt
  else match turns with
       | O => fail MemFault
       | S turns => v ← on_stack Pop; _ ← print (Popping v); pop_all turns
       end.

(** The shared SelfTest of inheritstack.cc. *)
Fixpoint push_n (n : nat) (count : T) : M World unit :=
  match n with
  | O => ret tt
  | S n =>
      f ← is_full; _ ← assert (negb f);
      count ← push_count count; push_n n count
  end.

Definition SelfTest_n (turns : nat) (start : T) (numToPush : Z) : M World unit :=
  _ ← push_n (Z.to_nat numToPush) start; pop_all turns.

(** SelfTest of templatestack.cc. *)
Definition SelfTest (turns : nat) (start : T) : M World unit :=
  _ ← push_all turns start; pop_all turns.
End SelfTest.
Arguments World : clear implicits.

(** ++ of an int and of a char. *)
Definition incr_int (z : Z) : Z := s32 (z + 1).
Definition incr_char (z : Z) : Z := (z + 1 + 128) mod 256 - 128.

(** SelfTest of stack.cc. *)
Definition SelfTest_17 {St} `{!Stack Z St} (turns : nat) : M (World Z St) unit := SelfTest incr_int turns 17.

(** ** The three programs *)

(** main of stack.cc. *)
Definition main_stack (memory : list Z) : res (list (message Z)) :=
  s ← ArrayStack_new 10 memory;
  r ← SelfTest_17 10 (s, []);
  Ok (snd (snd r)).

(** main of templatestack.cc; the text, then the two tests. *)
Definition main_template (ints chars : list Z) : res (list (message Z)) :=
  s1 ← ArrayStack_new 10 ints;
  s2 ← ArrayStack_new 10 chars;
  r1 ← SelfTest incr_int 10 17 (s1, [Testing "Stack<int>"]);
  r2 ← SelfTest incr_char 10 97 (s2, snd (snd r1) ++ [Testing "Stack<char>"]);
  Ok (snd (snd r2)).

(** main of inheritstack.cc, with the cells that are left behind. *)
Definition main_inherit (memory : list Z) : res (list (message Z) * gmap Z ListElement) :=
  s1 ← ArrayStack_new 10 memory;
  let s2 := ListStack_new in
  r1 ← SelfTest_n incr_int 10 17 10 (s1, [Testing "ArrayStack"]);
  r2 ← SelfTest_n incr_int 10 17 10 (s2, snd (snd r1) ++ [Testing "ListStack"]);
  l ← List_delete 10 (fst (snd r2));
  Ok (snd (snd r2), cells (snd l)).

(** ** Calls in any order *)

Inductive op (T : Type) := OPush (v : T) | OPop | OFull | OEmpty.
Arguments OPush {T} _.
Arguments OPop {T}.
Arguments OFull {T}.
Arguments OEmpty {T}.

Inductive answer (T : Type) := Done | Value (v : T) | Bool (b : bool).
Arguments Done {T}.
Arguments Value {T} _.
Arguments Bool {T} _.

Section Ops.
Context {T St : Type} `{!Stack T St}.

Definition run_op (o : op T) : M St (answer T) :=
  match o with
  | OPush v => _ ← Push v; ret Done
  | OPop => v ← Pop; ret (Value v)
  | OFull => b ← gets Full; ret (Bool b)
  | OEmpty => b ← gets Empty; ret (Bool b)
  end.

Fixpoint run_ops (os : list (op T)) : M St (list (answer T)) :=
  match os with
  | [] => ret []
  | o :: os => a ← run_op o; l ← run_ops os; ret (a :: l)
  end.
End Ops.

(** ** Simulation of whole programs *)

Lemma rel_res_bind {A A' St B} (R : St -> B -> Prop) (m : M St A) (n : M B A) (f : A -> M St A') (g : A -> M B A') s b :
  rel_res R (m s) (n b) -> (forall a s b, R s b -> rel_res R (f a s) (g a b)) ->
  rel_res R ((m ≫= f) s) ((n ≫= g) b).
Proof.
  unfold mbind, M_bind, rel_res. destruct (m s) as [[a s']|e], (n b) as [[a' b']|e']; try done.
  - intros [<- H] Hf. by apply Hf.
Qed.

Section Simulation.
Context {T St : Type} `{!Stack T St, !StackLaws T St}.

Lemma run_op_sim (o : op T) s b : sim s b -> rel_res sim (run_op o s) (run_op o b).
Proof.
  intros H. destruct o as [v| | |]; unfold run_op.
  - apply rel_res_bind; [by apply sim_Push|done].
  - apply rel_res_bind; [by apply sim_Pop|done].
  - apply rel_res_bind; [|done]. cbn. by rewrite (sim_Full s b).
  - apply rel_res_bind; [|done]. cbn. by rewrite (sim_Empty s b).
Qed.

Lemma run_ops_sim (os : list (op T)) s b : sim s b -> rel_res sim (run_ops os s) (run_ops os b).
Proof.
  revert s b. induction os as [|o os IH]; intros s b H; cbn [run_ops]; [done|].
  apply rel_res_bind; [by apply run_op_sim|]. intros a s' b' H'.
  by apply rel_res_bind; [apply IH|].
Qed.

(** SelfTest sees the stack through its methods only. *)
Definition wsim (w : World T St) (v : World T (bounded T)) : Prop := sim (fst w) (fst v) /\ snd w = snd v.

Lemma on_stack_sim {A} (m : M St A) (n : M (bounded T) A) w v :
  (forall s b, sim s b -> rel_res sim (m s) (n b)) -> wsim w v -> rel_res wsim (on_stack m w) (on_stack n v).
Proof.
  intros Hm [H E]. specialize (Hm _ _ H). unfold on_stack, zoom. revert Hm. unfold rel_res.
  destruct (m (fst w)) as [[a s']|e], (n (fst v)) as [[a' b']|e']; try done. by intros [<- ?].
Qed.

Lemma print_sim ms w v : wsim w v -> rel_res wsim (print ms w) (print ms v).
Proof. intros [H E]. split; [done|]. split; [done|]. cbn. by rewrite E. Qed.

Lemma is_full_sim w v : wsim w v -> rel_res wsim (is_full w) (is_full v).
Proof. intros H. split; [|done]. apply sim_Full, H. Qed.

Lemma is_empty_sim w v : wsim w v -> rel_res wsim (is_empty w) (is_empty v).
Proof. intros H. split; [|done]. apply sim_Empty, H. Qed.

Lemma push_count_sim incr (count : T) w v : wsim w v -> rel_res wsim (push_count incr count w) (push_count incr count v).
Proof.
  intros H. apply rel_res_bind; [by apply print_sim|]. intros [] w' v' H'.
  apply rel_res_bind; [|done]. by apply on_stack_sim; [intros s b; apply sim_Push|].
Qed.

Lemma push_n_sim incr n (count : T) w v : wsim w v -> rel_res wsim (push_n incr n count w) (push_n incr n count v).
Proof.
  revert count w v. induction n as [|n IH]; intros count w v H; cbn [push_n]; [done|].
  apply rel_res_bind; [by apply is_full_sim|]. intros f w1 v1 H1.
  apply rel_res_bind; [by destruct f|]. intros [] w2 v2 H2.
  apply rel_res_bind; [by apply push_count_sim|]. intros c w3 v3. apply IH.
Qed.

Lemma push_all_sim incr n (count : T) w v : wsim w v -> rel_res wsim (push_all incr n count w) (push_all incr n count v).
Proof.
  revert count w v. induction n as [|n IH]; intros count w v H; cbn [push_all];
    (apply rel_res_bind; [by apply is_full_sim|]); intros [] w1 v1 H1; try done.
  apply rel_res_bind; [by apply push_count_sim|]. intros c w3 v3. apply IH.
Qed.

Lemma pop_all_sim n w v : wsim w v -> rel_res wsim (pop_all n w) (pop_all n v).
Proof.
  revert w v. induction n as [|n IH]; intros w v H; cbn [pop_all];
    (apply rel_res_bind; [by apply is_empty_sim|]); intros [] w1 v1 H1; try done.
  apply rel_res_bind; [by apply on_stack_sim; [intros s b; apply sim_Pop|]|]. intros a w2 v2 H2.
  apply rel_res_bind; [by apply print_sim|]. intros [] w3 v3. apply IH.
Qed.
End Simulation.

(** ** The array implements the bounded sequence *)

Section ArrayLaws.
Context {T : Type}.

Record array_sim (s : ArrayStack T) (b : bounded T) : Prop := {
  as_room : room b = Some (size s);
  as_size : zlen (stack s) = size s;
  as_top : top s = zlen (items b);
  as_items : take (Z.to_nat (top s)) (stack s) = reverse (items b)
}.

Lemma array_top_le s b : array_sim s b -> 0 <= top s <= size s.
Proof.
  intros [_ Hs Ht Hi]. apply (f_equal length) in Hi. rewrite length_take, length_reverse in Hi.
  rewrite Ht, <-Hs. unfold zlen in *. lia.
Qed.

Lemma array_full s b : array_sim s b -> Full s = Full b.
Proof. intros [Hr _ Ht _]. cbn. unfold Array_Full, bounded_full. by rewrite Hr, Ht. Qed.

Lemma array_empty s b : array_sim s b -> Empty s = Empty b.
Proof. intros [_ _ Ht _]. cbn. unfold Array_Empty. rewrite Ht. by destruct (items b). Qed.

Lemma array_push (v : T) s b : array_sim s b -> rel_res array_sim (Push v s) (Push v b).
Proof.
  intros H. pose proof (array_top_le s b H) as Hle. pose proof (array_full s b H) as Hf. cbn in Hf |- *.
  unfold Array_Push. rewrite Hf. destruct (bounded_full b) eqn:Eb; [done|]. cbn [negb ASSERT mbind res_bind].
  unfold Array_Full in Hf. apply Z.eqb_neq in Hf. destruct H as [Hr Hs Ht Hi].
  rewrite aset_in_range by lia. cbn [rel_res mbind res_bind]. split; [done|].
  split; cbn [room items size top stack]; [done|by rewrite zlen_insert|rewrite Ht; unfold zlen; cbn; lia|].
  replace (Z.to_nat (top s + 1)) with (S (Z.to_nat (top s))) by lia.
  rewrite (take_S_r _ _ v); [|apply list_lookup_insert_eq; unfold zlen in Hs; lia].
  by rewrite take_insert_ge, Hi, reverse_cons by lia.
Qed.

Lemma array_pop s b : array_sim s b -> rel_res array_sim (Pop s) (Pop b).
Proof.
  intros H. pose proof (array_top_le s b H) as Hle. pose proof (array_empty s b H) as He. cbn in He |- *.
  unfold Array_Pop. rewrite He. destruct H as [Hr Hs Ht Hi].
  destruct (items b) as [|v l] eqn:E; [done|]. cbn [negb ASSERT mbind res_bind].
  assert (Hpos : top s = zlen l + 1) by (rewrite Ht; unfold zlen; cbn; lia).
  assert (Hl : 0 <= zlen l) by (unfold zlen; lia).
  rewrite reverse_cons in Hi. replace (Z.to_nat (top s)) with (S (length l)) in Hi by (unfold zlen in *; lia).
  assert (Hv : stack s !! length l = Some v).
  { rewrite <-(lookup_take_lt (stack s) (S (length l))), Hi by lia.
    rewrite lookup_app_r by (rewrite length_reverse; lia). by rewrite length_reverse, Nat.sub_diag. }
  rewrite (aget_lookup (stack s) (top s - 1) v).
  - cbn [rel_res mbind res_bind]. split; [done|]. split; cbn [room items size top stack]; [done|done|lia|].
    replace (Z.to_nat (top s - 1)) with (length l) by (unfold zlen in *; lia).
    rewrite (take_S_r _ _ _ Hv) in Hi. by apply app_inj_tail in Hi as [-> _].
  - lia.
  - rewrite <-Hv. f_equal. unfold zlen in *. lia.
Qed.

#[export] Instance ArrayStack_laws : StackLaws T (ArrayStack T) :=
  { sim := array_sim; sim_Push := array_push; sim_Pop := array_pop; sim_Full := array_full; sim_Empty := array_empty }.

Lemma ArrayStack_new_sim sz (memory : list T) : 1 <= sz -> zlen memory = sz ->
  ArrayStack_new sz memory = Ok (mkArrayStack sz 0 memory) /\ sim (mkArrayStack sz 0 memory) (mkBounded (Some sz) []).
Proof. intros H1 H2. unfold ArrayStack_new. by rewrite (proj2 (Z.leb_le 1 sz)) by done. Qed.
End ArrayLaws.

(** ** So does the list, without a bound *)

(** The cells from [p] on have the addresses [ps] and hold [xs]. *)
Fixpoint chain (h : gmap Z ListElement) (p : Z) (ps xs : list Z) : Prop :=
  match ps, xs with
  | [], [] => p = NULL
  | a :: ps, x :: xs => p = a /\ exists n, h !! a = Some (mkElement n x) /\ chain h n ps xs
  | _, _ => False
  end.

Record list_repr (l : IntList) (ps xs : list Z) : Prop := {
  lr_chain : chain (cells l) (first l) ps xs;
  lr_nodup : NoDup ps;
  lr_last : last l = default NULL (list.last ps);
  lr_dom : dom (cells l) = list_to_set ps;
  lr_fresh : Forall (fun p => 0 < p < fresh l) ps;
  lr_pos : 0 < fresh l
}.

Lemma chain_other h p ps xs a e : a ∉ ps -> chain (<[a := e]> h) p ps xs <-> chain h p ps xs.
Proof.
  revert p xs. induction ps as [|b ps IH]; intros p [|x xs] Ha; cbn; try done.
  apply not_elem_of_cons in Ha as [Hab Ha]. rewrite lookup_insert_ne by done.
  setoid_rewrite IH; done.
Qed.

Lemma chain_delete_other h p ps xs a : a ∉ ps -> chain h p ps xs -> chain (delete a h) p ps xs.
Proof.
  revert p xs. induction ps as [|b ps IH]; intros p [|x xs] Ha; cbn; try done.
  apply not_elem_of_cons in Ha as [Hab Ha]. intros (-> & n & Hn & Hc).
  split; [done|]. exists n. rewrite lookup_delete_ne by done. by auto.
Qed.

Lemma list_empty l ps xs : list_repr l ps xs -> List_Empty l = match xs with [] => true | _ => false end.
Proof.
  intros [Hc _ _ _ Hf _]. unfold List_Empty. destruct ps as [|a ps], xs as [|x xs]; cbn in Hc; try done.
  - by rewrite Hc.
  - destruct Hc as [-> _]. apply Forall_cons in Hf as [Ha _]. apply Z.eqb_neq. unfold NULL. lia.
Qed.

Lemma list_prepend v l ps xs : list_repr l ps xs -> list_repr (List_Prepend v l) (fresh l :: ps) (v :: xs).
Proof.
  intros H. pose proof (list_empty l ps xs H) as He. destruct H as [Hc Hn Hl Hd Hf Hp].
  assert (Hnew : fresh l ∉ ps).
  { intros Hin. rewrite Forall_forall in Hf. specialize (Hf _ Hin). lia. }
  assert (Hf' : Forall (fun p => 0 < p < fresh l + 1) (fresh l :: ps)).
  { apply Forall_cons. split; [lia|]. eapply Forall_impl; [exact Hf|]. cbn. lia. }
  unfold List_Prepend. rewrite He. destruct xs as [|x xs].
  - destruct ps as [|a ps]; [|done]. split; cbn [cells fresh first last]; try done; [|by apply NoDup_singleton|by rewrite dom_insert_L, Hd|lia].
    cbn. split; [done|]. exists NULL. by rewrite lookup_insert_eq.
  - destruct ps as [|a ps]; [done|]. split; cbn [cells fresh first last]; try done.
    + split; [done|]. exists (first l). rewrite lookup_insert_eq. split; [done|]. by apply chain_other.
    + by apply NoDup_cons.
    + by rewrite dom_insert_L, Hd.
    + lia.
Qed.

Lemma list_remove l ps x xs : list_repr l ps (x :: xs) ->
  exists l', List_Remove l = Ok (x, l') /\ list_repr l' (tail ps) xs.
Proof.
  intros H. pose proof (list_empty l ps _ H) as He. destruct H as [Hc Hn Hl Hd Hf Hp].
  destruct ps as [|a ps]; [done|]. destruct Hc as (Ef & n & Ha & Hc).
  apply NoDup_cons in Hn as [Han Hn]. apply Forall_cons in Hf as [Hapos Hf].
  assert (Hdel : dom (delete a (cells l)) = list_to_set ps).
  { rewrite dom_delete_L, Hd. cbn. assert (a ∉ (list_to_set ps : gset Z)) by by rewrite elem_of_list_to_set. set_solver. }
  unfold List_Remove. rewrite He. cbn [negb ASSERT mbind res_bind]. rewrite Ef, Ha. cbn [deref mbind res_bind item next].
  destruct (Z.eqb_spec a (last l)) as [Eal|Nal].
  - assert (ps = []) as ->.
    { destruct ps as [|b ps]; [done|]. exfalso. apply Han. rewrite Eal, Hl, last_cons_cons.
      destruct (list.last (b :: ps)) as [c|] eqn:E; [by apply last_Some_elem_of|by apply last_None in E]. }
    destruct xs as [|y xs]; [|done]. eexists. split; [done|]. by split.
  - eexists. split; [done|]. split; cbn [cells fresh first last tail]; try done; [by apply chain_delete_other|].
    destruct ps as [|b ps]; [by rewrite Hl in Nal|]. by rewrite Hl, last_cons_cons.
Qed.

Definition list_sim (l : IntList) (b : bounded Z) : Prop := room b = None /\ exists ps, list_repr l ps (items b).

Lemma list_full l b : list_sim l b -> Full l = Full b.
Proof. intros [Hr _]. cbn. unfold bounded_full. by rewrite Hr. Qed.

Lemma list_sim_empty l b : list_sim l b -> Empty l = Empty b.
Proof. intros [_ [ps H]]. exact (list_empty l ps _ H). Qed.

Lemma list_push v l b : list_sim l b -> rel_res list_sim (Push v l) (Push v b).
Proof.
  intros [Hr [ps H]]. cbn. unfold ListStack_Push, bounded_full. rewrite Hr. cbn. split; [done|].
  split; [done|]. exists (fresh l :: ps). by apply list_prepend.
Qed.

Lemma list_pop l b : list_sim l b -> rel_res list_sim (Pop l) (Pop b).
Proof.
  intros [Hr [ps H]]. cbn. unfold ListStack_Pop. rewrite (list_empty l ps _ H).
  destruct (items b) as [|x xs]; [done|]. cbn [negb ASSERT mbind res_bind].
  destruct (list_remove l ps x xs H) as (l' & -> & H'). split; [done|]. split; [done|]. by exists (tail ps).
Qed.

#[export] Instance ListStack_laws : StackLaws Z IntList :=
  { sim := list_sim; sim_Push := list_push; sim_Pop := list_pop; sim_Full := list_full; sim_Empty := list_sim_empty }.

Lemma ListStack_new_sim : sim ListStack_new (mkBounded None []).
Proof. split; [done|]. exists []. split; cbn; try done. constructor. Qed.

(** The destructor leaves no cell. *)
Lemma List_delete_all turns l b : sim l b -> zlen (items b) <= Z.of_nat turns ->
  exists l', List_delete turns l = Ok (tt, l') /\ cells l' = ∅.
Proof.
  intros [_ [ps H]] Ht. generalize dependent (items b). clear b. intros xs. revert l ps xs.
  induction turns as [|turns IH]; intros l ps xs H Ht.
  - destruct xs as [|x xs]; [|unfold zlen in Ht; cbn in Ht; lia]. exists l. cbn. rewrite (list_empty l ps _ H). split; [done|].
    destruct ps; [|by destruct (lr_chain _ _ _ H)]. pose proof (lr_dom _ _ _ H) as Hd. by apply dom_empty_iff_L in Hd.
  - cbn [List_delete]. rewrite (list_empty l ps _ H). destruct xs as [|x xs].
    + exists l. split; [done|].
      destruct ps; [|by destruct (lr_chain _ _ _ H)]. pose proof (lr_dom _ _ _ H) as Hd. by apply dom_empty_iff_L in Hd.
    + destruct (list_remove l ps x xs H) as (l1 & E & H1). unfold mbind, M_bind. rewrite E.
      apply (IH l1 _ _ H1). unfold zlen in *. cbn in Ht. lia.
Qed.

(** ** SelfTest of the bounded sequence *)

Fixpoint counts {T} (incr : T -> T) (n : nat) (c : T) : list T :=
  match n with O => [] | S n => c :: counts incr n (incr c) end.

(** What SelfTest prints for n numbers. *)
Definition transcript {T} (incr : T -> T) (n : nat) (start : T) : list (message T) :=
  (Pushing <$> counts incr n start) ++ (Popping <$> reverse (counts incr n start)).

Section Reference.
Context {T : Type} (incr : T -> T).
Implicit Types (r : option Z) (l : list T) (o : list (message T)).

Lemma length_counts n c : length (counts incr n c) = n.
Proof. revert c. induction n as [|n IH]; intros c; [done|]. cbn. by rewrite IH. Qed.

Definition has_room r l (n : nat) : Prop := match r with Some k => zlen l + Z.of_nat n <= k | None => True end.

Lemma has_room_cons r l n c : has_room r l (S n) -> bounded_full (mkBounded r l) = false /\ has_room r (c :: l) n.
Proof.
  unfold has_room, bounded_full. cbn [room items]. destruct r as [k|]; [|done]. intros H.
  split; [apply Z.eqb_neq; lia|]. unfold zlen in *. cbn [length]. lia.
Qed.

Lemma push_count_bounded c r l o : bounded_full (mkBounded r l) = false ->
  push_count incr c ((mkBounded r l, o) : World T (bounded T)) = Ok (incr c, (mkBounded r (c :: l), o ++ [Pushing c])).
Proof. intros H. unfold push_count, on_stack, zoom, mbind, M_bind. cbn. by rewrite H. Qed.

Lemma push_n_bounded n c r l o : has_room r l n ->
  push_n incr n c ((mkBounded r l, o) : World T (bounded T)) =
    Ok (tt, (mkBounded r (reverse (counts incr n c) ++ l), o ++ (Pushing <$> counts incr n c))).
Proof.
  revert c l o. induction n as [|n IH]; intros c l o H; cbn [push_n counts].
  - by rewrite app_nil_r.
  - destruct (has_room_cons r l n c H) as [Hf Hr]. unfold mbind at 1, M_bind at 1. cbn [is_full gets fst Full Stack_bounded].
    rewrite Hf. cbn [negb]. unfold mbind at 1, M_bind at 1. cbn [assert lift ASSERT].
    unfold mbind at 1, M_bind at 1. rewrite push_count_bounded by done. rewrite IH by done.
    rewrite reverse_cons, fmap_cons, <-!app_assoc. done.
Qed.

Lemma push_n_overflows n c k l o : zlen l <= k < zlen l + Z.of_nat n ->
  push_n incr n c ((mkBounded (Some k) l, o) : World T (bounded T)) = Err AssertFailed.
Proof.
  revert c l o. induction n as [|n IH]; intros c l o H; [lia|]. cbn [push_n].
  unfold mbind at 1, M_bind at 1. cbn [is_full gets fst Full Stack_bounded].
  destruct (bounded_full (mkBounded (Some k) l)) eqn:Hf; [done|]. cbn [negb]. unfold mbind at 1, M_bind at 1. cbn [assert lift ASSERT].
  unfold mbind at 1, M_bind at 1. rewrite push_count_bounded by done.
  unfold bounded_full in Hf. cbn [room items] in Hf. apply Z.eqb_neq in Hf.
  apply IH. unfold zlen in *. cbn [length]. lia.
Qed.

Lemma push_all_bounded n turns c l o : (n <= turns)%nat ->
  push_all incr turns c ((mkBounded (Some (zlen l + Z.of_nat n)) l, o) : World T (bounded T)) =
    Ok (tt, (mkBounded (Some (zlen l + Z.of_nat n)) (reverse (counts incr n c) ++ l), o ++ (Pushing <$> counts incr n c))).
Proof.
  revert turns c l o. induction n as [|n IH]; intros turns c l o H.
  - rewrite Z.add_0_r. assert (Hf : bounded_full (mkBounded (Some (zlen l)) l) = true) by apply Z.eqb_refl.
    destruct turns; cbn [push_all]; unfold mbind at 1, M_bind at 1; cbn [is_full gets fst Full Stack_bounded];
      rewrite Hf; cbn [counts fmap list_fmap]; by rewrite app_nil_r.
  - destruct turns as [|turns]; [lia|]. cbn [push_all]. unfold mbind at 1, M_bind at 1; cbn [is_full gets fst Full Stack_bounded].
    destruct (has_room_cons (Some (zlen l + Z.of_nat (S n))) l n c) as [Hf _]; [cbn; lia|].
    rewrite Hf. unfold mbind at 1, M_bind at 1. rewrite push_count_bounded by done.
    replace (zlen l + Z.of_nat (S n)) with (zlen (c :: l) + Z.of_nat n) by (unfold zlen; cbn [length]; lia).
    rewrite IH by lia. cbn [counts]. rewrite reverse_cons, fmap_cons, <-!app_assoc. done.
Qed.

Lemma pop_all_bounded turns r l o : zlen l <= Z.of_nat turns ->
  pop_all turns ((mkBounded r l, o) : World T (bounded T)) = Ok (tt, (mkBounded r [], o ++ (Popping <$> l))).
Proof.
  revert turns o. induction l as [|v l IH]; intros turns o H.
  - destruct turns; cbn; by rewrite app_nil_r.
  - destruct turns as [|turns]; [unfold zlen in H; cbn in H; lia|]. cbn [pop_all].
    unfold mbind at 1, M_bind at 1. cbn [is_empty gets fst Empty Stack_bounded items].
    unfold mbind at 1, M_bind at 1. cbn [on_stack zoom fst snd Pop Stack_bounded items room].
    unfold mbind at 1, M_bind at 1. cbn [print modify fst snd]. rewrite IH by (unfold zlen in *; cbn [length] in H; lia).
    by rewrite <-app_assoc.
Qed.

Lemma SelfTest_n_bounded turns start numToPush r o :
  0 <= numToPush <= Z.of_nat turns -> has_room r [] (Z.to_nat numToPush) ->
  SelfTest_n incr turns start numToPush ((mkBounded r [], o) : World T (bounded T)) =
    Ok (tt, (mkBounded r [], o ++ transcript incr (Z.to_nat numToPush) start)).
Proof.
  intros Hn Hr. unfold SelfTest_n, mbind, M_bind. rewrite push_n_bounded by done. rewrite app_nil_r.
  rewrite pop_all_bounded by (unfold zlen; rewrite length_reverse, length_counts; lia). unfold transcript. by rewrite app_assoc.
Qed.

Lemma SelfTest_bounded turns start sz o : 0 <= sz <= Z.of_nat turns ->
  SelfTest incr turns start ((mkBounded (Some sz) [], o) : World T (bounded T)) =
    Ok (tt, (mkBounded (Some sz) [], o ++ transcript incr (Z.to_nat sz) start)).
Proof.
  intros Hn. unfold SelfTest, mbind, M_bind. pose proof (push_all_bounded (Z.to_nat sz) turns start [] o) as H.
  rewrite Z2Nat.id in H by lia. change (zlen [] + sz) with sz in H. rewrite H, app_nil_r by lia.
  rewrite pop_all_bounded by (unfold zlen; rewrite length_reverse, length_counts; lia). unfold transcript. by rewrite app_assoc.
Qed.
End Reference.

(** ** SelfTest of an implementation *)

Section SelfTests.
Context {T St : Type} `{!Stack T St, !StackLaws T St} (incr : T -> T).

Lemma rel_res_Ok {A S B} (R : S -> B -> Prop) (x : res (A * S)) a b :
  rel_res R x (Ok (a, b)) -> exists s, x = Ok (a, s) /\ R s b.
Proof. destruct x as [[c s]|]; [|done]. intros [-> H]. by exists s. Qed.

Lemma SelfTest_n_sim turns start numToPush (s : St) b (o : list (message T)) : sim s b ->
  rel_res wsim (SelfTest_n incr turns start numToPush (s, o)) (SelfTest_n incr turns start numToPush (b, o)).
Proof. intros H. unfold SelfTest_n. apply rel_res_bind; [by apply push_n_sim|]. intros [] w v. apply pop_all_sim. Qed.

Lemma SelfTest_n_run turns start numToPush (s : St) r (o : list (message T)) :
  sim s (mkBounded r []) -> 0 <= numToPush <= Z.of_nat turns -> has_room r ([] : list T) (Z.to_nat numToPush) ->
  exists s', SelfTest_n incr turns start numToPush (s, o) = Ok (tt, (s', o ++ transcript incr (Z.to_nat numToPush) start)) /\
    sim s' (mkBounded r []).
Proof.
  intros Hs Hn Hr. pose proof (SelfTest_n_sim turns start numToPush s _ o Hs) as H.
  rewrite SelfTest_n_bounded in H by done. apply rel_res_Ok in H as ([s' o'] & -> & H & Ho). cbn in Ho. subst o'. by exists s'.
Qed.

Lemma SelfTest_run turns start (s : St) sz (o : list (message T)) :
  sim s (mkBounded (Some sz) []) -> 0 <= sz <= Z.of_nat turns ->
  exists s', SelfTest incr turns start (s, o) = Ok (tt, (s', o ++ transcript incr (Z.to_nat sz) start)) /\
    sim s' (mkBounded (Some sz) []).
Proof.
  intros Hs Hn.
  assert (H : rel_res wsim (SelfTest incr turns start (s, o)) (SelfTest incr turns start (mkBounded (Some sz) [], o))).
  { unfold SelfTest. apply rel_res_bind; [by apply push_all_sim|]. intros [] w v. apply pop_all_sim. }
  rewrite SelfTest_bounded in H by done. apply rel_res_Ok in H as ([s' o'] & -> & H & Ho). cbn in Ho. subst o'. by exists s'.
Qed.
End SelfTests.

Lemma main_stack_output memory : zlen memory = 10 -> main_stack memory = Ok (transcript incr_int 10 17).
Proof.
  intros H. destruct (ArrayStack_new_sim 10 memory) as [E Hs]; [done|done|]. unfold main_stack, SelfTest_17. rewrite E. cbn [mbind res_bind].
  destruct (SelfTest_run incr_int 10 17 _ 10 [] Hs) as (s' & -> & _); [lia|]. done.
Qed.

Lemma main_template_output ints chars : zlen ints = 10 -> zlen chars = 10 ->
  main_template ints chars =
    Ok ([Testing "Stack<int>"] ++ transcript incr_int 10 17 ++ [Testing "Stack<char>"] ++ transcript incr_char 10 97).
Proof.
  intros H1 H2. destruct (ArrayStack_new_sim 10 ints) as [E1 Hs1]; [done|done|].
  destruct (ArrayStack_new_sim 10 chars) as [E2 Hs2]; [done|done|]. unfold main_template. rewrite E1, E2. cbn [mbind res_bind].
  destruct (SelfTest_run incr_int 10 17 _ 10 [Testing "Stack<int>"] Hs1) as (s' & -> & _); [lia|]. cbn [mbind res_bind snd].
  destruct (SelfTest_run incr_char 10 97 _ 10 (([Testing "Stack<int>"] ++ transcript incr_int (Z.to_nat 10) 17) ++ [Testing "Stack<char>"]) Hs2)
    as (s2 & -> & _); [lia|]. cbn [mbind res_bind snd]. by rewrite <-!app_assoc.
Qed.

Lemma main_inherit_output memory : zlen memory = 10 ->
  main_inherit memory =
    Ok ([Testing "ArrayStack"] ++ transcript incr_int 10 17 ++ [Testing "ListStack"] ++ transcript incr_int 10 17, ∅).
Proof.
  intros H. destruct (ArrayStack_new_sim 10 memory) as [E Hs]; [done|done|]. unfold main_inherit. rewrite E. cbn [mbind res_bind].
  destruct (SelfTest_n_run incr_int 10 17 10 _ _ [Testing "ArrayStack"] Hs) as (s' & -> & _); [lia|cbn; unfold zlen; cbn; lia|]. cbn [mbind res_bind snd].
  destruct (SelfTest_n_run incr_int 10 17 10 _ _ (([Testing "ArrayStack"] ++ transcript incr_int (Z.to_nat 10) 17) ++ [Testing "ListStack"]) ListStack_new_sim)
    as (s2 & -> & Hs2); [lia|done|]. cbn [mbind res_bind snd fst].
  destruct (List_delete_all 10 _ _ Hs2) as (l & -> & Hl); [unfold zlen; cbn; lia|]. cbn [mbind res_bind snd]. by rewrite Hl, <-!app_assoc.
Qed.

(** ** Properties *)

(** What the caller of a stack sees. *)
Definition answers {T St} (r : res (list (answer T) * St)) : res (list (answer T)) := fst <$> r.

Lemma answers_sim {T St} (R : St -> bounded T -> Prop) (x : res (list (answer T) * St)) y : rel_res R x y -> answers x = answers y.
Proof. destruct x as [[a s]|e], y as [[b t]|e']; try done; [by intros [-> _]|by intros ->]. Qed.

(** A bound only shows when it is reached. *)
Lemma unbounded_agrees {T} sz (os : list (op T)) l a b :
  OFull ∉ os -> run_ops os (mkBounded (Some sz) l) = Ok (a, b) ->
  run_ops os (mkBounded None l) = Ok (a, mkBounded None (items b)).
Proof.
  revert l a b. induction os as [|o os IH]; intros l a b Hf; cbn [run_ops].
  - by intros [= <- <-].
  - apply not_elem_of_cons in Hf as [Ho Hf]. intros H. unfold mbind at 1, M_bind at 1 in H.
    assert (Hstep : forall x c, run_op o (mkBounded (Some sz) l) = Ok (x, c) ->
      room c = Some sz /\ run_op o (mkBounded None l) = Ok (x, mkBounded None (items c))).
    { intros x c. destruct o as [v| | |]; [| |done|].
      - unfold run_op, mbind, M_bind. cbn. destruct (zlen l =? sz); [done|]. by intros [= <- <-].
      - destruct l as [|v l]; [done|]. by intros [= <- <-].
      - by intros [= <- <-]. }
    destruct (run_op o (mkBounded (Some sz) l)) as [[x c]|] eqn:E; [|done].
    destruct (Hstep x c eq_refl) as [Hr E']. unfold mbind at 1, M_bind at 1. rewrite E'. destruct c as [rc lc]. cbn in Hr. subst rc.
    cbn [items]. unfold mbind, M_bind, ret in H |- *.
    destruct (run_ops os (mkBounded (Some sz) lc)) as [[al bl]|] eqn:Er; [|done]. injection H as <- <-.
    by rewrite (IH lc al bl Hf Er).
Qed.

(** C28: both stacks of inheritstack.cc do what their common base class
    promises: for any sequence of Push, Pop, Full and Empty, the array of
    any size sz >= 1, whatever new finds in it, answers as a sequence with
    room for sz, and the list as one without a bound, failing the ASSERT at
    the same call or at none, and without an access out of range; so a
    program that does not ask Full cannot tell the array that did not fail
    from the list. *)
Theorem stacks_refine_sequence sz (memory : list Z) (calls : list (op Z)) :
  1 <= sz -> zlen memory = sz ->
  exists s, ArrayStack_new sz memory = Ok s /\
  answers (run_ops calls s) = answers (run_ops calls (mkBounded (Some sz) [])) /\
  answers (run_ops calls ListStack_new) = answers (run_ops calls (mkBounded None [])) /\
  (OFull ∉ calls -> is_ok (answers (run_ops calls s)) = true ->
   answers (run_ops calls ListStack_new) = answers (run_ops calls s)).
Proof.
  intros H1 H2. destruct (ArrayStack_new_sim sz memory H1 H2) as [E Hs]. eexists. split; [exact E|].
  pose proof (answers_sim _ _ _ (run_ops_sim calls _ _ Hs)) as Ha.
  pose proof (answers_sim _ _ _ (run_ops_sim calls _ _ ListStack_new_sim)) as Hl.
  split; [done|]. split; [done|]. intros Hf Hok. rewrite Hl, Ha in *.
  destruct (run_ops calls (mkBounded (Some sz) [])) as [[a b]|] eqn:Er; [|done].
  by rewrite (unbounded_agrees sz calls [] a b Hf Er).
Qed.

(** SelfTest tests any implementation that keeps the promises of
    Stack: an empty stack with room for numToPush numbers shows them in
    order and then in the reverse order, and is empty again; with less room
    the ASSERT fails; the version that pushes until the stack is full shows
    as many as there is room for.  The loops end after as many turns.  The
    programs of the three files, with the stacks of the size they choose,
    print just that, and the list leaves no cell behind. *)
Theorem SelfTest_correct {T St} `{!Stack T St, !StackLaws T St} incr turns (start : T) numToPush sz o s (memory chars : list Z) :
  0 <= numToPush <= Z.of_nat turns -> 0 <= sz <= Z.of_nat turns -> zlen memory = 10 -> zlen chars = 10 ->
  (sim s (mkBounded None []) \/ sim s (mkBounded (Some sz) []) /\ numToPush <= sz ->
   exists s' b, SelfTest_n incr turns start numToPush (s, o) = Ok (tt, (s', o ++ transcript incr (Z.to_nat numToPush) start)) /\
     sim s' b /\ items b = []) /\
  (sim s (mkBounded (Some sz) []) -> sz < numToPush -> SelfTest_n incr turns start numToPush (s, o) = Err AssertFailed) /\
  (sim s (mkBounded (Some sz) []) ->
   exists s', SelfTest incr turns start (s, o) = Ok (tt, (s', o ++ transcript incr (Z.to_nat sz) start)) /\
     sim s' (mkBounded (Some sz) [])) /\
  main_stack memory = Ok (transcript incr_int 10 17) /\
  main_template memory chars =
    Ok ([Testing "Stack<int>"] ++ transcript incr_int 10 17 ++ [Testing "Stack<char>"] ++ transcript incr_char 10 97) /\
  main_inherit memory =
    Ok ([Testing "ArrayStack"] ++ transcript incr_int 10 17 ++ [Testing "ListStack"] ++ transcript incr_int 10 17, ∅).
Proof.
  intros Hn Hsz Hm Hc. split; [|split; [|split; [|split; [|split]]]].
  - intros [Hs|[Hs Hle]].
    + destruct (SelfTest_n_run incr turns start numToPush s _ o Hs) as (s' & E & H); [done|done|]. by eexists _, _.
    + destruct (SelfTest_n_run incr turns start numToPush s _ o Hs) as (s' & E & H); [done|unfold has_room, zlen; cbn [length]; lia|]. by eexists _, _.
  - intros Hs Hlt. pose proof (SelfTest_n_sim incr turns start numToPush s _ o Hs) as H. revert H.
    unfold SelfTest_n at 2, mbind, M_bind. rewrite push_n_overflows by (unfold zlen; cbn [length]; lia).
    destruct (SelfTest_n incr turns start numToPush (s, o)) as [[? ?]|e]; [done|]. by intros ->.
  - intros Hs. by apply SelfTest_run.
  - by apply main_stack_output.
  - by apply main_template_output.
  - by apply main_inherit_output.
Qed.

Lemma stacks_refine_sequence_witness :
  exists s, ArrayStack_new 2 [99; 98] = Ok s /\
  answers (run_ops [OPush 5; OPush 6; OPop; OEmpty; OPush 7; OPush 8] s) = Err AssertFailed /\
  answers (run_ops [OPush 5; OPush 6; OPop; OEmpty; OPush 7; OPush 8] ListStack_new) =
    Ok [Done; Done; Value 6; Bool false; Done; Done].
Proof.
  destruct (stacks_refine_sequence 2 [99; 98] [OPush 5; OPush 6; OPop; OEmpty; OPush 7; OPush 8]) as (s & E & H1 & H2 & _);
    [lia|done|]. exists s. rewrite H1, H2. by repeat split.
Defined.

Lemma SelfTest_correct_witness :
  SelfTest_n incr_int 3 17 2 (mkBounded (Some 3) [], []) =
    Ok (tt, (mkBounded (Some 3) [], [Pushing 17; Pushing 18; Popping 18; Popping 17])) /\
  main_stack (replicate 10 0) = Ok (transcript incr_int 10 17).
Proof.
  split; [reflexivity|].
  destruct (SelfTest_correct (St := ArrayStack Z) incr_int 3 17 2 3 [] (mkArrayStack 3 0 [0; 0; 0]) (replicate 10 0) (replicate 10 0))
    as (_ & _ & _ & H & _); [lia|lia|reflexivity|reflexivity|exact H].
Defined.
