(* ===== verification/UserProgs.v ===== *)
(** * test/{sort,matmult,shell,halt,fork}.c: the user programs

    The C sources; the cross compiler is not modelled.  A global array is
    the list of its elements, zero at first; no arithmetic here leaves the
    range of int.  A program ends with the status it gives to Exit. *)

From stdpp Require Import base list numbers.
From S2P Require Import Prelude Arrays.

(** ** sort.c *)

Definition A_size : Z := 1024.

Definition sort_init (i : Z) (A : list Z) : res (list Z) := aset A i (1024 - i).

Definition sort_step (j : Z) (A : list Z) : res (list Z) :=
  a ← aget A j; b ← aget A (j + 1);
  if b <? a then
    A ← aset A j b; aset A (j + 1) a
  else Ok A.

Definition sort_pass (i : Z) (A : list Z) : res (list Z) :=
  for_loop (Z.to_nat (1023 - i - i)) i sort_step A.

(** The status and the array at the end. *)
Definition sort_main : res (Z * list Z) :=
  A ← for_loop (Z.to_nat 1024) 0 sort_init (replicate (Z.to_nat A_size) 0);
  A ← for_loop (Z.to_nat 1023) 0 sort_pass A;
  status ← aget A 0;
  Ok (status, A).

(** ** matmult.c *)

Definition Dim : Z := 20.

Notation matrix := (list (list Z)).

Record Matrices := mkMat { mat_A : matrix; mat_B : matrix; mat_C : matrix }.

(** [X[i][j]] and its assignment. *)
Definition mget (X : matrix) (i j : Z) : res Z := row ← aget X i; aget row j.
Definition mset (X : matrix) (i j v : Z) : res matrix := row ← aget X i; row ← aset row j v; aset X i row.

Definition matrices0 : Matrices :=
  let Z0 := replicate (Z.to_nat Dim) (replicate (Z.to_nat Dim) 0) in mkMat Z0 Z0 Z0.

Definition init_cell (i j : Z) (s : Matrices) : res Matrices :=
  A ← mset (mat_A s) i j i;
  B ← mset (mat_B s) i j j;
  C ← mset (mat_C s) i j 0;
  Ok (mkMat A B C).

Definition mult_cell (i j k : Z) (s : Matrices) : res Matrices :=
  c ← mget (mat_C s) i j;
  a ← mget (mat_A s) i k;
  b ← mget (mat_B s) k j;
  C ← mset (mat_C s) i j (c + a * b);
  Ok (mkMat (mat_A s) (mat_B s) C).

(** A loop from 0 to Dim. *)
Definition to_Dim (body : Z -> Matrices -> res Matrices) : Matrices -> res Matrices :=
  for_loop (Z.to_nat Dim) 0 body.

Definition initialize : Matrices -> res Matrices := to_Dim (fun i => to_Dim (init_cell i)).
Definition multiply : Matrices -> res Matrices := to_Dim (fun i => to_Dim (fun j => to_Dim (mult_cell i j))).

Definition matmult_main : res (Z * Matrices) :=
  s ← initialize matrices0;
  s ← multiply s;
  status ← mget (mat_C s) (Dim - 1) (Dim - 1);
  Ok (status, s).

(** ** shell.c, halt.c, fork.c *)

(** The system calls of these programs. *)
Inductive call :=
  | Halt
  | Exec (name : list Z)
  | Join (id : Z)
  | Write (s : list Z)
  | Fork (func : list call).

Definition NEWLINE : Z := 10.
Definition buffer_size : Z := 60.

(** What a callee reads of a buffer that holds a C string. *)
Fixpoint cstring (s : list Z) : list Z :=
  match s with [] => [] | c :: s => if c =? 0 then [] else c :: cstring s end.

Section Shell.
(** What Exec returns, after the calls so far. *)
Context (space_id : list call -> Z).

(** The do loop.  Read waits when nothing more is typed: None. *)
Fixpoint read_line (i : Z) (buffer input : list Z) : res (option (Z * list Z * list Z)) :=
  match input with
  | [] => Ok None
  | c :: input =>
      buffer ← aset buffer i c;
      if c =? NEWLINE then Ok (Some (i + 1, buffer, input)) else read_line (i + 1) buffer input
  end.

Definition prompt : list Z := [45; 45].

(** One turn of the while loop: the calls so far, the buffer, and what is
    still to be typed, if the turn ends. *)
Definition shell_turn (log : list call) (buffer input : list Z) : res (list call * option (list Z * list Z)) :=
  let log := log ++ [Write prompt] in
  r ← read_line 0 buffer input;
  match r with
  | None => Ok (log, None)
  | Some (i, buffer, input) =>
      let i := i - 1 in
      buffer ← aset buffer i 0;
      if 0 <? i then
        let newProc := space_id log in
        Ok (log ++ [Exec (cstring buffer); Join newProc], Some (buffer, input))
      else Ok (log, Some (buffer, input))
  end.

(** The while loop, which only ends by waiting for input: [None] is no
    fuel left. *)
Fixpoint shell_loop (fuel : nat) (log : list call) (buffer input : list Z) : res (option (list call)) :=
  match fuel with
  | O => Ok None
  | S fuel =>
      r ← shell_turn log buffer input;
      match r with
      | (log, None) => Ok (Some log)
      | (log, Some (buffer, input)) => shell_loop fuel log buffer input
      end
  end.

(** [junk] is what the buffer holds at first.  A turn that ends takes a
    character. *)
Definition shell_main (junk input : list Z) : res (option (list call)) :=
  shell_loop (S (length input)) [] junk input.
End Shell.

Definition halt_main : list call := [Halt].
Definition test_func1 : list call := [Halt].
Definition fork_main : list call := [Fork test_func1].

(** ** Arrays as functions of the index *)

Definition tab {A} (n : Z) (f : Z -> A) : list A := f <$> seqZ 0 n.

Section Tab.
Context {A : Type}.
Implicit Types (f g : Z -> A) (n : Z).

Lemma zlen_tab n f : 0 <= n -> zlen (tab n f) = n.
Proof. intros. unfold zlen, tab. rewrite length_fmap, length_seqZ. lia. Qed.

Lemma tab_lookup n f k : 0 <= k < n -> tab n f !! Z.to_nat k = Some (f k).
Proof.
  intros. unfold tab. rewrite list_lookup_fmap, lookup_seqZ_lt by lia. cbn. do 2 f_equal. lia.
Qed.

Lemma aget_tab n f k : 0 <= k < n -> aget (tab n f) k = Ok (f k).
Proof. intros. apply aget_lookup; [lia|]. by apply tab_lookup. Qed.

Lemma aset_tab n f g j v : 0 <= j < n -> (forall k, 0 <= k < n -> g k = if k =? j then v else f k) ->
  aset (tab n f) j v = Ok (tab n g).
Proof.
  intros Hj Hg. rewrite aset_in_range by (rewrite zlen_tab; lia). f_equal. apply list_eq. intros k.
  destruct (decide (Z.of_nat k < n)) as [Hk|Hk].
  2:{ rewrite !lookup_ge_None_2; [done|unfold tab; rewrite length_fmap, length_seqZ; lia|].
      rewrite length_insert. unfold tab. rewrite length_fmap, length_seqZ. lia. }
  replace k with (Z.to_nat (Z.of_nat k)) by lia. rewrite (tab_lookup n g) by lia. rewrite Hg by lia.
  destruct (Z.eqb_spec (Z.of_nat k) j) as [<-|Hne].
  - rewrite list_lookup_insert_eq; [done|]. unfold tab. rewrite length_fmap, length_seqZ. lia.
  - rewrite list_lookup_insert_ne by lia. apply tab_lookup. lia.
Qed.

Lemma tab_ext n f g : (forall k, 0 <= k < n -> f k = g k) -> tab n f = tab n g.
Proof. intros H. apply list_fmap_ext. intros i x Hx. apply lookup_seqZ in Hx. apply H. lia. Qed.

Lemma tab_const n (a : A) : 0 <= n -> tab n (fun _ => a) = replicate (Z.to_nat n) a.
Proof.
  intros. apply list_eq. intros k. unfold tab. rewrite list_lookup_fmap.
  destruct (decide (k < Z.to_nat n)%nat).
  - rewrite lookup_seqZ_lt, lookup_replicate_2 by lia. done.
  - rewrite lookup_seqZ_ge by lia. symmetry. apply lookup_replicate_None. lia.
Qed.
End Tab.

(** ** sort.c: what its passes do *)

(** The array in pass [i], when its maximum is at [j]: both ends are done,
    the elements passed by moved down. *)
Definition bubble (i j k : Z) : Z :=
  if k <? i then 1023 - 2 * k
  else if 1023 - i <? k then 1024 - 2 * (1023 - k)
  else if k <? j then 1023 - i - k
  else if k =? j then 1024 - 2 * i
  else 1024 - i - k.

Ltac cases := repeat match goal with
  | |- context [?a <? ?b] => destruct (Z.ltb_spec a b)
  | |- context [?a =? ?b] => destruct (Z.eqb_spec a b)
  end; try lia.

Lemma sort_step_bubble i j : 0 <= i -> i <= j < 1023 - i ->
  sort_step j (tab 1024 (bubble i j)) = Ok (tab 1024 (bubble i (j + 1))).
Proof.
  intros Hi Hj. unfold sort_step. rewrite !aget_tab by lia. cbn [mbind res_bind].
  rewrite (proj2 (Z.ltb_lt _ _)) by (unfold bubble; cases).
  rewrite (aset_tab _ _ (fun k => if k =? j then bubble i j (j + 1) else bubble i j k)) by (done || lia).
  cbn [mbind res_bind]. apply aset_tab; [lia|]. intros k Hk. unfold bubble. cases.
Qed.

Lemma sort_pass_bubble i : 0 <= i < 512 ->
  sort_pass i (tab 1024 (bubble i i)) = Ok (tab 1024 (bubble (i + 1) (i + 1))).
Proof.
  intros Hi. unfold sort_pass.
  destruct (for_loop_inv (fun j A => A = tab 1024 (bubble i j)) sort_step (Z.to_nat (1023 - i - i)) i (tab 1024 (bubble i i)))
    as (A & -> & ->); [done| |].
  - intros j t Hj ->. eexists. split; [apply sort_step_bubble; lia|done].
  - apply (f_equal Ok), tab_ext. intros k Hk. replace (i + Z.of_nat _) with (1023 - i) by lia. unfold bubble. cases.
Qed.

Lemma sort_passes : for_loop (Z.to_nat 1023) 0 sort_pass (tab 1024 (bubble 0 0)) = Ok (tab 1024 (bubble 512 512)).
Proof.
  destruct (for_loop_inv (fun i A => A = tab 1024 (bubble (i `min` 512) (i `min` 512))) sort_pass (Z.to_nat 1023) 0 (tab 1024 (bubble 0 0)))
    as (A & -> & ->); [done| |done].
  intros i t Hi ->. destruct (decide (i < 512)).
  - eexists. split; [by rewrite Z.min_l by lia; apply sort_pass_bubble; lia|]. by rewrite Z.min_l by lia.
  - eexists. split; [unfold sort_pass; by replace (Z.to_nat (1023 - i - i)) with 0%nat by lia|].
    by rewrite !Z.min_r by lia.
Qed.

Lemma sort_initial : for_loop (Z.to_nat 1024) 0 sort_init (replicate (Z.to_nat A_size) 0) = Ok (tab 1024 (bubble 0 0)).
Proof.
  rewrite <-(tab_const A_size 0) by done. change A_size with 1024.
  destruct (for_loop_inv (fun i A => A = tab 1024 (fun k => if k <? i then 1024 - k else 0)) sort_init (Z.to_nat 1024) 0 (tab 1024 (fun _ => 0)))
    as (A & -> & ->).
  - apply tab_ext. intros k Hk. cases.
  - intros i t Hi ->. eexists. split; [|done]. apply aset_tab; [lia|]. intros k Hk. cases.
  - apply (f_equal Ok), tab_ext. intros k Hk. unfold bubble. cases.
Qed.

(** sort.c does not sort.  It accesses nothing outside the array and
    ends with 1023, not with the least element as its comment says; the
    odd numbers from 1023 down to 1 are in the first half of the array and
    the even numbers from 2 up to 1024 in the second. *)
Theorem sort_main_result : exists A, sort_main = Ok (1023, A) /\ zlen A = 1024 /\
  (forall k, 0 <= k < 512 -> aget A k = Ok (1023 - 2 * k)) /\
  (forall k, 0 <= k < 512 -> aget A (512 + k) = Ok (2 + 2 * k)) /\
  ~ (forall i j a b, 0 <= i < j -> aget A i = Ok a -> aget A j = Ok b -> a <= b).
Proof.
  exists (tab 1024 (bubble 512 512)). split; [|split; [|split; [|split]]].
  - unfold sort_main. rewrite sort_initial, bind_Ok, sort_passes, bind_Ok, aget_tab by done. reflexivity.
  - by apply zlen_tab.
  - intros k Hk. rewrite aget_tab by lia. f_equal. unfold bubble. cases.
  - intros k Hk. rewrite aget_tab by lia. f_equal. unfold bubble. cases.
  - intros H. specialize (H 0 1 1023 1021). rewrite !aget_tab in H by done. specialize (H ltac:(done) eq_refl eq_refl). lia.
Qed.

(** ** matmult.c: the product *)

Definition mtab (f : Z -> Z -> Z) : matrix := tab Dim (fun i => tab Dim (f i)).

Lemma mget_tab f i j : 0 <= i < Dim -> 0 <= j < Dim -> mget (mtab f) i j = Ok (f i j).
Proof. intros. unfold mget, mtab. rewrite aget_tab by done. cbn [mbind res_bind]. by apply aget_tab. Qed.

Lemma mset_tab f g i j v : 0 <= i < Dim -> 0 <= j < Dim ->
  (forall a b, 0 <= a < Dim -> 0 <= b < Dim -> g a b = if (a =? i) && (b =? j) then v else f a b) ->
  mset (mtab f) i j v = Ok (mtab g).
Proof.
  intros Hi Hj Hg. unfold mset, mtab. rewrite aget_tab, bind_Ok by done.
  rewrite (aset_tab _ _ (g i)), bind_Ok; [|done|intros k Hk; rewrite Hg by done; by rewrite Z.eqb_refl].
  apply aset_tab; [done|]. intros a Ha. destruct (Z.eqb_spec a i) as [->|Hne]; [done|].
  apply tab_ext. intros b Hb. rewrite Hg by done. by rewrite (proj2 (Z.eqb_neq a i)).
Qed.

(** A loop whose [i]-th turn goes from the [i]-th state to the next. *)
Lemma to_Dim_states (st : Z -> Matrices) body :
  (forall i, 0 <= i < Dim -> body i (st i) = Ok (st (i + 1))) -> to_Dim body (st 0) = Ok (st Dim).
Proof.
  intros H. unfold to_Dim.
  destruct (for_loop_inv (fun i s => s = st i) body (Z.to_nat Dim) 0 (st 0)) as (s & -> & ->); [done| |done].
  intros i t Hi ->. eexists. split; [apply H; unfold Dim in *; lia|done].
Qed.

Lemma mtab_ext f g : (forall i j, 0 <= i < Dim -> 0 <= j < Dim -> f i j = g i j) -> mtab f = mtab g.
Proof. intros H. apply tab_ext. intros i Hi. apply tab_ext. intros j Hj. by apply H. Qed.

(** The first [n] terms of the sum that is C[i][j]. *)
Fixpoint terms (A B : Z -> Z -> Z) (i j : Z) (n : nat) : Z :=
  match n with O => 0 | S n => terms A B i j n + A i (Z.of_nat n) * B (Z.of_nat n) j end.

(** C when all cells before [(i, j)] are done, and [n] terms of this one. *)
Definition partial (A B : Z -> Z -> Z) (i j n a b : Z) : Z :=
  if (a <? i) || (a =? i) && (b <? j) then terms A B a b (Z.to_nat Dim)
  else if (a =? i) && (b =? j) then terms A B a b (Z.to_nat n) else 0.

Ltac cases_bool := repeat match goal with
  | |- context [?a <? ?b] => destruct (Z.ltb_spec a b)
  | |- context [?a =? ?b] => destruct (Z.eqb_spec a b)
  end; cbn [andb orb]; subst; try first [lia | reflexivity].

(** Without an initial value C[i][j] would be added to. *)
Lemma multiply_product A B : multiply (mkMat (mtab A) (mtab B) (mtab (fun _ _ => 0))) =
  Ok (mkMat (mtab A) (mtab B) (mtab (fun i j => terms A B i j (Z.to_nat Dim)))).
Proof.
  set (st i j n := mkMat (mtab A) (mtab B) (mtab (partial A B i j n))).
  assert (Hcell : forall i j k, 0 <= i < Dim -> 0 <= j < Dim -> 0 <= k < Dim -> mult_cell i j k (st i j k) = Ok (st i j (k + 1))).
  { intros i j k Hi Hj Hk. unfold mult_cell, st. cbn [mat_A mat_B mat_C]. rewrite !mget_tab, !bind_Ok by done.
    rewrite (mset_tab _ (partial A B i j (k + 1))) by (done || (intros a b Ha Hb; unfold partial; cases_bool;
      replace (Z.to_nat (k + 1)) with (S (Z.to_nat k)) by lia; cbn [terms]; rewrite Z2Nat.id by lia; lia)).
    reflexivity. }
  assert (Hstart : multiply (st 0 0 0) = Ok (st Dim 0 0)).
  { unfold multiply. apply (to_Dim_states (fun i => st i 0 0)). intros i Hi.
    replace (st (i + 1) 0 0) with (st i Dim 0).
    - apply (to_Dim_states (fun j => st i j 0)). intros j Hj.
      replace (st i (j + 1) 0) with (st i j Dim); [apply (to_Dim_states (fun k => st i j k)); intros k Hk; by apply Hcell|].
      unfold st. f_equal. apply mtab_ext. intros a b Ha Hb. unfold partial. cases_bool.
    - unfold st. f_equal. apply mtab_ext. intros a b Ha Hb. unfold partial. cases_bool. }
  replace (mtab (fun _ _ => 0)) with (mtab (partial A B 0 0 0)); [|apply mtab_ext; intros a b Ha Hb; unfold partial; by cases_bool].
  fold (st 0 0 0). rewrite Hstart. unfold st. do 2 apply f_equal. apply mtab_ext. intros a b Ha Hb. unfold partial. by cases_bool.
Qed.

Lemma initialize_cells : initialize matrices0 = Ok (mkMat (mtab (fun i _ => i)) (mtab (fun _ j => j)) (mtab (fun _ _ => 0))).
Proof.
  set (done_ i j a b := (a <? i) || (a =? i) && (b <? j)).
  set (st i j := mkMat (mtab (fun a b => if done_ i j a b then a else 0)) (mtab (fun a b => if done_ i j a b then b else 0)) (mtab (fun _ _ => 0))).
  assert (Hcell : forall i j, 0 <= i < Dim -> 0 <= j < Dim -> init_cell i j (st i j) = Ok (st i (j + 1))).
  { intros i j Hi Hj. unfold init_cell, st. cbn [mat_A mat_B mat_C].
    rewrite (mset_tab (fun a b => if done_ i j a b then a else 0) (fun a b => if done_ i (j + 1) a b then a else 0)), bind_Ok by (done || (intros a b Ha Hb; unfold done_; cases_bool)).
    rewrite (mset_tab (fun a b => if done_ i j a b then b else 0) (fun a b => if done_ i (j + 1) a b then b else 0)), bind_Ok by (done || (intros a b Ha Hb; unfold done_; cases_bool)).
    rewrite (mset_tab (fun _ _ => 0) (fun _ _ => 0)), bind_Ok by (done || (intros a b Ha Hb; by destruct (_ && _))). reflexivity. }
  assert (Hstart : initialize (st 0 0) = Ok (st Dim 0)).
  { unfold initialize. apply (to_Dim_states (fun i => st i 0)). intros i Hi.
    replace (st (i + 1) 0) with (st i Dim); [apply (to_Dim_states (fun j => st i j)); intros j Hj; by apply Hcell|].
    unfold st. f_equal; apply mtab_ext; intros a b Ha Hb; unfold done_; cases_bool. }
  replace matrices0 with (st 0 0).
  - rewrite Hstart. unfold st. do 2 f_equal; apply mtab_ext; intros a b Ha Hb; unfold done_; cases_bool.
  - unfold matrices0, st. rewrite <-(tab_const Dim (replicate (Z.to_nat Dim) 0)) by done.
    rewrite <-(tab_const Dim 0) by done. fold (mtab (fun _ _ => 0)).
    f_equal; apply mtab_ext; intros a b Ha Hb; unfold done_; cases_bool.
Qed.

Lemma terms_const A B i j n : (forall k, A i k = i) -> (forall k, B k j = j) -> terms A B i j n = Z.of_nat n * (i * j).
Proof. intros HA HB. induction n as [|n IH]; [done|]. cbn [terms]. rewrite IH, HA, HB. lia. Qed.

(** The multiplication of matmult.c is that of matrices, whatever A
    and B hold, and accesses nothing outside them; the program ends with
    7220, which is C[19][19], and every C[i][j] is 20 * i * j. *)
Theorem matmult_correct :
  (forall A B, multiply (mkMat (mtab A) (mtab B) (mtab (fun _ _ => 0))) =
     Ok (mkMat (mtab A) (mtab B) (mtab (fun i j => terms A B i j (Z.to_nat Dim))))) /\
  exists s, matmult_main = Ok (7220, s) /\ forall i j, 0 <= i < Dim -> 0 <= j < Dim -> mget (mat_C s) i j = Ok (20 * i * j).
Proof.
  split; [apply multiply_product|].
  eexists. unfold matmult_main. rewrite initialize_cells, bind_Ok, multiply_product, bind_Ok. split.
  - cbn [mat_C]. rewrite mget_tab, bind_Ok by done. reflexivity.
  - intros i j Hi Hj. cbn [mat_C]. rewrite mget_tab by done. rewrite terms_const by done. f_equal. unfold Dim. lia.
Qed.

(** ** shell.c: lines *)

(** The calls of a line that is typed, after those before it. *)
Definition line_calls (space_id : list call -> Z) (log : list call) (line : list Z) : list call :=
  let log := log ++ [Write prompt] in
  match line with
  | [] => log
  | _ => log ++ [Exec (cstring line); Join (space_id log)]
  end.

Definition short_line (line : list Z) : Prop := ~ In NEWLINE line /\ zlen line < buffer_size.

Lemma cstring_zero s rest : cstring (s ++ 0 :: rest) = cstring s.
Proof. induction s as [|c s IH]; [done|]. cbn [cstring app]. by rewrite IH. Qed.

Lemma zlen_cons {A} (x : A) l : zlen (x :: l) = 1 + zlen l.
Proof. unfold zlen. cbn [length]. lia. Qed.

(** The do loop reads a line into the buffer, with its newline. *)
Lemma read_line_line i buffer line rest :
  0 <= i -> ~ In NEWLINE line -> i + zlen line + 1 <= zlen buffer ->
  read_line i buffer (line ++ NEWLINE :: rest) =
    Ok (Some (i + zlen line + 1, splice i (line ++ [NEWLINE]) buffer, rest)).
Proof.
  revert i buffer. induction line as [|c line IH]; intros i buffer Hi Hn Hl; rewrite ?zlen_cons in *; cbn [app read_line].
  - unfold zlen in Hl. cbn [length] in Hl. rewrite aset_in_range, bind_Ok by (unfold zlen; lia). cbn [Z.eqb NEWLINE Pos.eqb].
    do 2 f_equal. f_equal. f_equal; [unfold zlen; cbn; lia|].
    rewrite splice_cons; [by rewrite splice_nil|done|unfold zlen in *; cbn; lia].
  - assert (Hz : 0 <= zlen line) by (unfold zlen; lia).
    rewrite aset_in_range, bind_Ok by lia.
    destruct (Z.eqb_spec c NEWLINE) as [->|]; [by destruct Hn; left|].
    rewrite IH; [|lia|by intros ?; apply Hn; right|rewrite zlen_insert; lia].
    rewrite splice_cons; [|done|rewrite zlen_app; unfold zlen in *; cbn [length]; lia].
    do 3 f_equal. f_equal. lia.
Qed.

(** What is typed after the last newline. *)
Lemma read_line_waits i buffer tail :
  0 <= i -> ~ In NEWLINE tail -> i + zlen tail <= zlen buffer -> read_line i buffer tail = Ok None.
Proof.
  revert i buffer. induction tail as [|c tail IH]; intros i buffer Hi Hn Hl; [done|]. rewrite zlen_cons in Hl. cbn [read_line].
  assert (Hz : 0 <= zlen tail) by (unfold zlen; lia). rewrite aset_in_range, bind_Ok by lia.
  destruct (Z.eqb_spec c NEWLINE) as [->|]; [by destruct Hn; left|].
  apply IH; [lia|by intros ?; apply Hn; right|rewrite zlen_insert; lia].
Qed.

Lemma read_line_faults i buffer line rest :
  0 <= i -> ~ In NEWLINE line -> zlen buffer <= zlen line + i -> line <> [] -> i <= zlen buffer ->
  read_line i buffer (line ++ NEWLINE :: rest) = Err MemFault.
Proof.
  revert i buffer. induction line as [|c line IH]; intros i buffer Hi Hn Hl Hne Hb; [done|]. clear Hne. rewrite zlen_cons in Hl. cbn [app read_line].
  assert (Hz : 0 <= zlen line) by (unfold zlen; lia).
  destruct (decide (i < zlen buffer)) as [Hlt|Hge].
  2:{ unfold aset. by rewrite (proj2 (Z.ltb_ge i _)), andb_false_r by lia. }
  rewrite aset_in_range, bind_Ok by lia. destruct (Z.eqb_spec c NEWLINE) as [->|]; [by destruct Hn; left|].
  destruct line as [|c' line].
  - cbn [app read_line]. unfold aset. change (zlen []) with 0 in Hl. rewrite zlen_insert, (proj2 (Z.ltb_ge (i + 1) _)), andb_false_r by lia. done.
  - apply IH; [lia|by intros ?; apply Hn; right|rewrite zlen_insert; lia|done|rewrite zlen_insert; lia].
Qed.

Lemma shell_turn_line space_id log buffer line rest : zlen buffer = buffer_size -> short_line line ->
  exists buffer', zlen buffer' = buffer_size /\
    shell_turn space_id log buffer (line ++ NEWLINE :: rest) = Ok (line_calls space_id log line, Some (buffer', rest)).
Proof.
  intros Hb [Hn Hl]. assert (Hz : 0 <= zlen line) by (unfold zlen; lia). unfold shell_turn, buffer_size in *.
  rewrite read_line_line, bind_Ok by (done || lia). cbn beta iota zeta.
  replace (0 + zlen line + 1 - 1) with (zlen line) by lia.
  assert (Hs : zlen (splice 0 (line ++ [NEWLINE]) buffer) = 60).
  { rewrite zlen_splice; [done|done|rewrite zlen_app; change (zlen [NEWLINE]) with 1; lia]. }
  rewrite aset_in_range, bind_Ok by lia.
  assert (Hc : cstring (<[Z.to_nat (zlen line) := 0]> (splice 0 (line ++ [NEWLINE]) buffer)) = cstring line).
  { unfold splice, zlen. rewrite Nat2Z.id, take_0, app_nil_l, <-app_assoc, insert_app_r_alt, Nat.sub_diag by done. apply cstring_zero. }
  exists (<[Z.to_nat (zlen line) := 0]> (splice 0 (line ++ [NEWLINE]) buffer)). split; [by rewrite zlen_insert|].
  rewrite Hc. unfold line_calls. by destruct line.
Qed.

Lemma shell_loop_lines space_id fuel log buffer lines tail :
  zlen buffer = buffer_size -> Forall short_line lines -> ~ In NEWLINE tail -> zlen tail <= buffer_size -> (length lines < fuel)%nat ->
  shell_loop space_id fuel log buffer (concat ((fun line => line ++ [NEWLINE]) <$> lines) ++ tail) =
    Ok (Some (foldl (line_calls space_id) log lines ++ [Write prompt])).
Proof.
  intros Hb Hl Hn Ht. revert fuel log buffer Hb. induction Hl as [|line lines Hline _ IH]; intros fuel log buffer Hb Hf;
    (destruct fuel as [|fuel]; [cbn in Hf; lia|]); cbn [fmap list_fmap concat foldl shell_loop length app] in *.
  - unfold shell_turn. rewrite read_line_waits by (done || lia). done.
  - rewrite <-!app_assoc. cbn [app].
    destruct (shell_turn_line space_id log buffer line (concat ((fun line => line ++ [NEWLINE]) <$> lines) ++ tail) Hb Hline) as (b' & Hb' & ->).
    rewrite bind_Ok. apply IH; [done|lia].
Qed.

Lemma length_lines (lines : list (list Z)) tail :
  (length lines <= length (concat ((fun line => line ++ [NEWLINE]) <$> lines) ++ tail))%nat.
Proof.
  rewrite length_app. induction lines as [|line lines IH]; [cbn; lia|]. cbn [fmap list_fmap concat length].
  rewrite length_app, length_app. cbn [length]. unfold fmap in *. lia.
Qed.

(** C25: the shell asks for a line with its prompt, executes it unless it
    is empty, and waits for the program before the next prompt: for lines
    of less than 60 characters these are all its calls, in the order of
    the lines, and then it waits in Read.  A longer line is written past the
    end of its buffer. *)
Theorem shell_runs_lines space_id junk lines tail :
  zlen junk = buffer_size -> Forall short_line lines -> ~ In NEWLINE tail ->
  (zlen tail <= buffer_size ->
   shell_main space_id junk (concat ((fun line => line ++ [NEWLINE]) <$> lines) ++ tail) =
     Ok (Some (foldl (line_calls space_id) [] lines ++ [Write prompt]))) /\
  (buffer_size <= zlen tail -> forall log buffer fuel rest, zlen buffer = buffer_size ->
   shell_loop space_id (S fuel) log buffer (tail ++ NEWLINE :: rest) = Err MemFault).
Proof.
  intros Hj Hl Hn. split; intros Ht.
  - apply shell_loop_lines; try done. pose proof (length_lines lines tail). lia.
  - intros log buffer fuel rest Hb. cbn [shell_loop]. unfold shell_turn.
    rewrite read_line_faults; [done|lia|done|rewrite Hb; lia| |rewrite Hb; done]. intros ->. by apply Ht.
Qed.

(** "ls", an empty line and "cat" are typed; programs get the number of
    the calls before them. *)
Lemma shell_runs_lines_witness :
  shell_main (fun log => Z.of_nat (length log)) (replicate 60 7) [108; 115; 10; 10; 99; 97; 116; 10; 120] =
    Ok (Some [Write prompt; Exec [108; 115]; Join 1; Write prompt; Write prompt; Exec [99; 97; 116]; Join 5; Write prompt]).
Proof.
  pose proof (shell_runs_lines (fun log => Z.of_nat (length log)) (replicate 60 7) [[108; 115]; []; [99; 97; 116]] [120]) as H.
  apply H; [reflexivity| |cbn; intros [[=]|[]]|unfold zlen, buffer_size; cbn; lia].
  repeat constructor; try (unfold zlen, buffer_size; cbn; lia); cbn; intros HN; repeat destruct HN as [[=]|HN]; done.
Defined.
