(* ===== verification/Start.v ===== *)
(** * The start of the kernel: threads/main.cc, Initialize and Cleanup of
    threads/system.cc, the switches of threads/utility.cc

    Which arguments the program knows depends on the macros of the
    Makefiles; CHANGED is always defined (Makefile.common).  The objects
    are built in the order of Initialize: a constructor that goes through
    a pointer to an object not yet built goes through NULL.  What else a
    constructor does is in its component: here [constructs] says whether
    it returns.  The procedures that main calls are those of other
    components, too, and [returns] says whether they come back. *)

From Stdlib Require Import Ascii String.
From stdpp Require Import base list numbers strings.
From S2P Require Import Prelude State CString.

Local Open Scope string_scope.
Local Open Scope list_scope.
Local Open Scope Z_scope.

(** ** The builds *)

Record Build := mkBuild
  { THREADS : bool; USER_PROGRAM : bool; FILESYS_NEEDED : bool; FILESYS : bool; NETWORK : bool }.

Definition threads_build : Build := mkBuild true false false false false.
Definition userprog_build : Build := mkBuild false true true false false.
Definition vm_build : Build := mkBuild false true true false false.
Definition filesys_build : Build := mkBuild true true true true false.
Definition network_build : Build := mkBuild false true true true true.

(** ** Loops over the arguments

    [for (; argc > 0; argc -= argCount, argv += argCount)]; the turns are
    bounded by the number of arguments, since argCount is at least one. *)

Section Scan.
Context {Mo : Type -> Type} `{!MRet Mo} `{!MBind Mo} {St : Type}.
Variable step : string -> list string -> St -> Mo (nat * St)%type.

(** [step] gets *argv and the arguments from there on. *)
Fixpoint scan (fuel : nat) (argv : list string) (s : St) : Mo St :=
  match fuel, argv with
  | S f, arg :: _ => r ← step arg argv s; scan f (drop r.1 argv) r.2
  | _, _ => mret s
  end.

End Scan.

(** ** The arguments that Initialize reads *)

Record Settings := mkSettings
  { debugArgs : string; randomYield : bool; seed : option Z; debugUserProg : bool; format : bool;
    rely : option string;      (* the text that atof converts; None is 1 *)
    netname : Z }.

Definition default_settings : Settings := mkSettings "" false None false false None 0.

Definition set_debugArgs (f : string) (s : Settings) : Settings :=
  mkSettings f (randomYield s) (seed s) (debugUserProg s) (format s) (rely s) (netname s).
Definition set_random (n : Z) (s : Settings) : Settings :=
  mkSettings (debugArgs s) true (Some n) (debugUserProg s) (format s) (rely s) (netname s).
Definition set_debugUserProg (s : Settings) : Settings :=
  mkSettings (debugArgs s) (randomYield s) (seed s) true (format s) (rely s) (netname s).
Definition set_format (s : Settings) : Settings :=
  mkSettings (debugArgs s) (randomYield s) (seed s) (debugUserProg s) true (rely s) (netname s).
Definition set_rely (r : string) (s : Settings) : Settings :=
  mkSettings (debugArgs s) (randomYield s) (seed s) (debugUserProg s) (format s) (Some r) (netname s).
Definition set_netname (n : Z) (s : Settings) : Settings :=
  mkSettings (debugArgs s) (randomYield s) (seed s) (debugUserProg s) (format s) (rely s) n.

Definition argc (argv : list string) : Z := Z.of_nat (length argv).

Definition setting (b : Build) (arg : string) (argv : list string) (s : Settings) : res (nat * Settings) :=
  r ← (if same arg "-d" then
         if argc argv =? 1 then Ok (1%nat, set_debugArgs "+" s)
         else a ← deref (argv !! 1%nat); Ok (2%nat, set_debugArgs a s)
       else if same arg "-rs" then
         _ ← ASSERT (1 <? argc argv);
         a ← deref (argv !! 1%nat);
         Ok (2%nat, set_random (atoi a) s)
       else Ok (1%nat, s));
  let argCount := r.1 in
  let s := r.2 in
  let s := if USER_PROGRAM b && same arg "-s" then set_debugUserProg s else s in
  let s := if FILESYS_NEEDED b && same arg "-f" then set_format s else s in
  if NETWORK b && same arg "-l" then
    _ ← ASSERT (1 <? argc argv);
    a ← deref (argv !! 1%nat);
    Ok (2%nat, set_rely a s)
  else if NETWORK b && same arg "-m" then
    _ ← ASSERT (1 <? argc argv);
    a ← deref (argv !! 1%nat);
    Ok (2%nat, set_netname (atoi a) s)
  else Ok (argCount, s).

(** [argv] starts with the name of the program. *)
Definition settings (b : Build) (argv : list string) : res Settings :=
  scan (setting b) (length argv) (drop 1 argv) default_settings.

(** ** The objects of the kernel *)

Inductive global :=
  | stats | interrupt | scheduler | timer | currentThread | machine | memManager | procManager | vm
  | openFileManager | diskBuffer | synchDisk | fileSystem | postOffice.

#[export] Instance global_eq_dec : EqDecision global.
Proof. solve_decision. Defined.

(** The objects, with the arguments of their constructors. *)
Inductive object :=
  | NewStatistics | NewInterrupt | NewScheduler
  | NewTimer (doRandom : bool)
  | NewThread (name : string)
  | NewMachine (debug : bool)
  | NewMemoryManager | NewProcessManager | NewVMManager | NewSysOpenFileManager | NewDiskBuffer
  | NewSynchDisk (name : string)
  | NewFileSystem (format : bool)
  | NewPostOffice (addr : Z) (reliability : option string) (nBoxes : Z).

(** The global pointers that are not NULL; the state of the library of
    utility.cc and of the random numbers. *)
Record World := mkWorld { enableFlags : option string; srand : option Z; objects : list (global * object) }.

Definition World0 : World := mkWorld None None [].

Definition built (g : global) (w : World) : bool := existsb (fun p => bool_decide (p.1 = g)) (objects w).

(** Access to the object that [g] points to. *)
Definition use (g : global) : M World unit :=
  fun w => if built g w then Ok (tt, w) else Err MemFault.

(** [enableFlags = flagList] *)
Definition DebugInit (flagList : string) : M World unit :=
  modify (fun w => mkWorld (Some flagList) (srand w) (objects w)).

Definition DebugIsEnabled (flag : ascii) (w : World) : bool :=
  match enableFlags w with
  | Some f => strchr f flag || strchr f "+"%char
  | None => false
  end.

Definition RandomInit (n : Z) : M World unit :=
  modify (fun w => mkWorld (enableFlags w) (Some n) (objects w)).

Section Boot.
Variable constructs : object -> bool.     (* the rest of the constructor returns *)

(** [g = new o], where [uses] are the uses of globals. *)
Definition new (g : global) (o : object) (uses : M World unit) : M World unit :=
  _ ← uses;
  _ ← assert (constructs o);
  modify (fun w => mkWorld (enableFlags w) (srand w) (objects w ++ [(g, o)])%list).

(** Timer::Timer schedules its first interrupt. *)
Definition Timer_new : M World unit := use interrupt.

(** The swap file is created through fileSystem.  The methods of the
    FileSystem of FILESYS_STUB use no member, those of FILESYS do. *)
Definition SwapManager_new (b : Build) : M World unit := if FILESYS b then use fileSystem else ret tt.
Definition VMManager_new (b : Build) : M World unit := SwapManager_new b.

Definition FileSystem_new (b : Build) : M World unit := if FILESYS b then use synchDisk else ret tt.

(** The network schedules its first interrupt; the postal worker becomes
    ready to run. *)
Definition PostOffice_new : M World unit := _ ← use interrupt; use scheduler.

Definition build_objects (b : Build) (s : Settings) : M World unit :=
  _ ← DebugInit (debugArgs s);
  _ ← new stats NewStatistics (ret tt);
  _ ← new interrupt NewInterrupt (ret tt);
  _ ← new scheduler NewScheduler (ret tt);
  _ ← (if randomYield s then new timer (NewTimer (randomYield s)) Timer_new else ret tt);
  _ ← new currentThread (NewThread "main") (ret tt);
  _ ← use currentThread;         (* currentThread->setStatus(RUNNING) *)
  _ ← use interrupt;             (* interrupt->Enable() *)
  _ ← (if USER_PROGRAM b then
         _ ← new machine (NewMachine (debugUserProg s)) (ret tt);
         _ ← new memManager NewMemoryManager (ret tt);
         _ ← new procManager NewProcessManager (ret tt);
         _ ← new vm NewVMManager (VMManager_new b);
         _ ← new openFileManager NewSysOpenFileManager (ret tt);
         new diskBuffer NewDiskBuffer (ret tt)
       else ret tt);
  _ ← (if FILESYS b then new synchDisk (NewSynchDisk "DISK") (ret tt) else ret tt);
  _ ← (if FILESYS_NEEDED b then new fileSystem (NewFileSystem (format s)) (FileSystem_new b) else ret tt);
  if NETWORK b then new postOffice (NewPostOffice (netname s) (rely s) 10) PostOffice_new else ret tt.

Definition Initialize (b : Build) (argv : list string) : M World unit :=
  s ← lift (settings b argv);
  _ ← match seed s with Some n => RandomInit n | None => ret tt end;
  build_objects b s.

(** [delete g]; nothing for NULL. *)
Definition delete (g : global) (destructor : M World unit) : M World unit :=
  w ← gets (fun w => w);
  if built g w then
    _ ← destructor;
    modify (fun w => mkWorld (enableFlags w) (srand w) (List.filter (fun p => bool_decide (p.1 <> g)) (objects w)))
  else ret tt.

(** ~VMManager deletes the swap manager, which removes the swap file. *)
Definition VMManager_delete (b : Build) : M World unit := if FILESYS b then use fileSystem else ret tt.

Definition Cleanup_objects (b : Build) : M World unit :=
  _ ← (if NETWORK b then delete postOffice (ret tt) else ret tt);
  _ ← (if USER_PROGRAM b then
         _ ← delete machine (ret tt);
         _ ← delete memManager (ret tt);
         _ ← delete procManager (ret tt);
         delete vm (VMManager_delete b)
       else ret tt);
  _ ← (if FILESYS_NEEDED b then delete fileSystem (ret tt) else ret tt);
  _ ← (if FILESYS b then delete synchDisk (ret tt) else ret tt);
  _ ← delete timer (ret tt);
  _ ← delete scheduler (ret tt);
  delete interrupt (ret tt).

Definition Cleanup (b : Build) : M World unit := _ ← Cleanup_objects b; fail Exited.

(** ** main *)

(** What main calls, with the arguments. *)
Inductive call :=
  | PrintCopyright
  | StartProcess (file : string)
  | ConsoleTest (devices : option (string * string))
  | Halt
  | Copy (unixFile nachosFile : string)
  | Print (file : string)
  | Remove (file : string)
  | List
  | PrintFileSystem
  | PerformanceTest
  | Delay (seconds : Z)
  | MailTest (networkID : Z)
  | ThreadTest (testnum n : Z)
  | Finish.

(** A run stops because a call does not come back, or by a failure. *)
Inductive ending := Away | Failed (e : err).

(** The calls that are made, and a result if the run goes on. *)
Definition Run (A : Type) : Type := (list call * (A + ending))%type.

#[export] Instance Run_ret : MRet Run := fun A a => ([], inl a).
#[export] Instance Run_bind : MBind Run :=
  fun A B f m =>
    match m with
    | (cs, inl a) => let (cs', r) := f a in ((cs ++ cs')%list, r)
    | (cs, inr e) => (cs, inr e)
    end.

Definition try {A} (r : res A) : Run A :=
  ([], match r with Ok a => inl a | Err e => inr (Failed e) end).

Variable returns : call -> bool.

(** Interrupt::Halt ends in Cleanup, Thread::Finish in another thread. *)
Definition comes_back (c : call) : bool :=
  match c with Halt | Finish => false | _ => returns c end.

Definition do (c : call) : Run unit := ([c], if comes_back c then inl tt else inr Away).

(** The part of main of a build with THREADS: the first loop. *)
Definition letter (arg : string) : res ascii :=
  match arg with
  | EmptyString => Err MemFault              (* behind the terminator *)
  | String _ EmptyString => Ok Ascii.zero
  | String _ (String c _) => Ok c
  end.

Definition test_option (arg : string) (argv : list string) (testnum : Z) : res (nat * Z) :=
  c ← letter arg;
  if Ascii.eqb c "q"%char then
    a ← deref (argv !! 1%nat);               (* atoi(NULL) fails *)
    Ok (2%nat, atoi a)
  else Ok (1%nat, 1).

Definition thread_tests (testnum : Z) : Run unit :=
  _ ← do (ThreadTest testnum 0);
  _ ← do (ThreadTest testnum 1);
  _ ← do (ThreadTest testnum 2);
  _ ← do (ThreadTest testnum 3);
  do (ThreadTest testnum 4).

(** The body of the second loop, a block per macro; each gets argCount. *)
Definition user_option (arg : string) (argv : list string) (argCount : nat) : Run nat :=
  if same arg "-x" then
    _ ← try (ASSERT (1 <? argc argv));
    f ← try (deref (argv !! 1%nat));
    _ ← do (StartProcess f);
    mret 2%nat
  else if same arg "-c" then
    n ← (if argc argv =? 1 then _ ← do (ConsoleTest None); mret argCount
         else
           _ ← try (ASSERT (2 <? argc argv));
           i ← try (deref (argv !! 1%nat));
           o ← try (deref (argv !! 2%nat));
           _ ← do (ConsoleTest (Some (i, o)));
           mret 3%nat);
    _ ← do Halt;
    mret n
  else mret argCount.

Definition file_option (arg : string) (argv : list string) (argCount : nat) : Run nat :=
  if same arg "-cp" then
    _ ← try (ASSERT (2 <? argc argv));
    u ← try (deref (argv !! 1%nat));
    n ← try (deref (argv !! 2%nat));
    _ ← do (Copy u n);
    mret 3%nat
  else if same arg "-p" then
    _ ← try (ASSERT (1 <? argc argv));
    f ← try (deref (argv !! 1%nat));
    _ ← do (Print f);
    mret 2%nat
  else if same arg "-r" then
    _ ← try (ASSERT (1 <? argc argv));
    f ← try (deref (argv !! 1%nat));
    _ ← do (Remove f);
    mret 2%nat
  else if same arg "-l" then _ ← do List; mret argCount
  else if same arg "-D" then _ ← do PrintFileSystem; mret argCount
  else if same arg "-t" then _ ← do PerformanceTest; mret argCount
  else mret argCount.

Definition mail_option (arg : string) (argv : list string) (argCount : nat) : Run nat :=
  if same arg "-o" then
    _ ← try (ASSERT (1 <? argc argv));
    _ ← do (Delay 2);
    a ← try (deref (argv !! 1%nat));
    _ ← do (MailTest (atoi a));
    mret 2%nat
  else mret argCount.

Definition main_option (b : Build) (arg : string) (argv : list string) (s : unit) : Run (nat * unit) :=
  _ ← (if same arg "-z" then do PrintCopyright else mret tt);
  n ← (if USER_PROGRAM b then user_option arg argv 1%nat else mret 1%nat);
  n ← (if FILESYS b then file_option arg argv n else mret n);
  n ← (if NETWORK b then mail_option arg argv n else mret n);
  mret (n, s).

(** In a build with THREADS, the first loop leaves no arguments (argc is 0
    after it, and then -1). *)
Definition main (b : Build) (argv : list string) : Run unit :=
  _ ← try (Initialize b argv World0);
  rest ← (if THREADS b then
            testnum ← try (scan test_option (length argv) (drop 1 argv) 1);
            _ ← thread_tests testnum;
            mret []
          else mret argv);
  _ ← scan (main_option b) (length argv) (drop 1 rest) tt;
  do Finish.

End Boot.

(** ** Command lines *)

(** The options, with their arguments.  [O_l] is the listing of the
    directory, [O_rely] the reliability of the network: the same text -l,
    with an argument for Initialize and without one for main. *)
Inductive opt :=
  | O_z | O_d (f : string) | O_rs (n : string) | O_s | O_f | O_rely (r : string) | O_m (n : string)
  | O_x (f : string) | O_c (i o : string)
  | O_cp (u n : string) | O_p (f : string) | O_r (f : string) | O_l | O_D | O_t
  | O_o (n : string) | O_q (n : string).

Definition flag (o : opt) : string :=
  match o with
  | O_z => "-z" | O_d _ => "-d" | O_rs _ => "-rs" | O_s => "-s" | O_f => "-f" | O_rely _ => "-l" | O_m _ => "-m"
  | O_x _ => "-x" | O_c _ _ => "-c" | O_cp _ _ => "-cp" | O_p _ => "-p" | O_r _ => "-r" | O_l => "-l"
  | O_D => "-D" | O_t => "-t" | O_o _ => "-o" | O_q _ => "-q"
  end.

Definition args (o : opt) : list string :=
  match o with
  | O_d a | O_rs a | O_rely a | O_m a | O_x a | O_p a | O_r a | O_o a | O_q a => [a]
  | O_c a c | O_cp a c => [a; c]
  | _ => []
  end.

Definition render (o : opt) : list string := flag o :: args o.

(** What may end a command line: nothing, an option that works without
    its argument, or an option that lacks one. *)
Inductive ending_option :=
  | T_none | T_d | T_c
  | T_rs | T_rely | T_m | T_x | T_c1 (i : string) | T_cp | T_cp1 (u : string) | T_p | T_r | T_o.

Definition render_ending (t : ending_option) : list string :=
  match t with
  | T_none => [] | T_d => ["-d"] | T_c => ["-c"]
  | T_rs => ["-rs"] | T_rely => ["-l"] | T_m => ["-m"] | T_x => ["-x"] | T_c1 i => ["-c"; i]
  | T_cp => ["-cp"] | T_cp1 u => ["-cp"; u] | T_p => ["-p"] | T_r => ["-r"] | T_o => ["-o"]
  end.

Definition command_line (name : string) (os : list opt) (t : ending_option) : list string :=
  name :: (os ≫= render) ++ render_ending t.

(** An argument that is no option. *)
Definition plain (a : string) : bool :=
  match a with String c _ => negb (Ascii.eqb c "-"%char) | EmptyString => true end.

(** One that the first loop of a build with THREADS passes over. *)
Definition quiet (a : string) : bool :=
  match a with
  | EmptyString => false
  | String _ (String c _) => negb (Ascii.eqb c "q"%char)
  | String _ EmptyString => true
  end.

Definition good (b : Build) (a : string) : bool := plain a && (if THREADS b then quiet a else true).

Definition good_option (b : Build) (o : opt) : bool :=
  match o with
  | O_q a => plain a
  | O_l => negb (NETWORK b)
  | _ => forallb (good b) (args o)
  end.

Definition good_ending (b : Build) (t : ending_option) : bool :=
  match t with T_c1 a | T_cp1 a => good b a | _ => true end.

(** What an option means to Initialize, *)
Definition set_option (b : Build) (s : Settings) (o : opt) : Settings :=
  match o with
  | O_d f => set_debugArgs f s
  | O_rs n => set_random (atoi n) s
  | O_s => if USER_PROGRAM b then set_debugUserProg s else s
  | O_f => if FILESYS_NEEDED b then set_format s else s
  | O_rely r => if NETWORK b then set_rely r s else s
  | O_m n => if NETWORK b then set_netname (atoi n) s else s
  | _ => s
  end.

Definition set_ending (b : Build) (t : ending_option) (s : Settings) : res Settings :=
  match t with
  | T_d => Ok (set_debugArgs "+" s)
  | T_rs => Err AssertFailed
  | T_rely | T_m => if NETWORK b then Err AssertFailed else Ok s
  | _ => Ok s
  end.

(** and to main. *)
Definition calls (b : Build) (o : opt) : list call :=
  match o with
  | O_z => [PrintCopyright]
  | O_x f => if USER_PROGRAM b then [StartProcess f] else []
  | O_c i o => if USER_PROGRAM b then [ConsoleTest (Some (i, o)); Halt] else []
  | O_cp u n => if FILESYS b then [Copy u n] else []
  | O_p f => if FILESYS b then [Print f] else []
  | O_r f => if FILESYS b then [Remove f] else []
  | O_l | O_rely _ => if FILESYS b then [List] else []
  | O_D => if FILESYS b then [PrintFileSystem] else []
  | O_t => if FILESYS b then [PerformanceTest] else []
  | O_o n => if NETWORK b then [Delay 2; MailTest (atoi n)] else []
  | _ => []
  end.

Definition calls_ending (b : Build) (t : ending_option) : list call * bool :=
  match t with
  | T_c => if USER_PROGRAM b then ([ConsoleTest None; Halt], true) else ([], true)
  | T_x | T_c1 _ => ([], negb (USER_PROGRAM b))
  | T_rely => if FILESYS b then ([List], true) else ([], true)
  | T_cp | T_cp1 _ | T_p | T_r => ([], negb (FILESYS b))
  | T_o => ([], negb (NETWORK b))
  | _ => ([], true)
  end.

(** The test that a build with THREADS runs. *)
Definition set_test (n : Z) (o : opt) : Z := match o with O_q a => atoi a | _ => 1 end.
Definition set_test_ending (n : Z) (t : ending_option) : Z := match t with T_none => n | _ => 1 end.

(** ** Lemmas *)

Lemma plain_not_option a t : plain a = true -> same a (String "-"%char t) = false.
Proof.
  unfold same, plain. destruct a as [|c a]; [reflexivity|]. cbn [String.eqb].
  intros H. apply negb_true_iff in H. by rewrite H.
Qed.

(** A loop over the arguments treats one option after the other, when its
    body does what [g] says at an option and skips the arguments that are
    left over. *)

Section Options.
Context {Mo : Type -> Type} `{!MRet Mo} `{!MBind Mo} {St : Type}.
Hypothesis ret_bind : forall A B (a : A) (k : A -> Mo B), (mret a ≫= k) = k a.
Hypothesis bind_assoc : forall A B C (m : Mo A) (k : A -> Mo B) (k' : B -> Mo C),
  ((m ≫= k) ≫= k') = (m ≫= fun a => k a ≫= k').
Hypothesis bind_ext : forall A B (m : Mo A) (k k' : A -> Mo B), (forall a, k a = k' a) -> (m ≫= k) = (m ≫= k').
Variable step : string -> list string -> St -> Mo (nat * St)%type.
Variable g : opt -> St -> Mo St.
Variables (skip : string -> bool) (ok : opt -> Prop).
Hypothesis step_skip : forall a argv s, skip a = true -> step a argv s = mret (1%nat, s).
Hypothesis step_option : forall o rest, ok o -> exists k,
  (forall s, step (flag o) (render o ++ rest) s = (g o s ≫= fun s' => mret (S k, s'))) /\
  (k <= length (args o))%nat /\ forallb skip (drop k (args o)) = true.

Fixpoint options (os : list opt) (s : St) : Mo St :=
  match os with [] => mret s | o :: os => s ← g o s; options os s end.

Lemma scan_skip l rest f : forallb skip l = true ->
  forall s, scan step (length l + f) (l ++ rest) s = scan step f rest s.
Proof using ret_bind step_skip.
  induction l as [|a l IH]; intros H s; [reflexivity|].
  cbn [forallb] in H. apply andb_true_iff in H as [Ha H].
  cbn [length Nat.add app scan]. rewrite step_skip, ret_bind by exact Ha. cbn [fst snd drop]. by apply IH.
Qed.

Lemma scan_option o rest f : ok o -> (length (args o) <= f)%nat -> exists f',
  (f - length (args o) <= f')%nat /\
  forall s, scan step (S f) (render o ++ rest) s = (g o s ≫= scan step f' rest).
Proof using All.
  intros Ho Hf. destruct (step_option o rest Ho) as (k & Hstep & Hk & Hskip).
  exists (f - (length (args o) - k))%nat. split; [lia|]. intros s.
  change (scan step (S f) (render o ++ rest) s)
    with (step (flag o) (render o ++ rest) s ≫= fun r => scan step f (drop r.1 (render o ++ rest)) r.2).
  rewrite Hstep, bind_assoc. apply bind_ext. intros s'. rewrite ret_bind. cbn [fst snd].
  unfold render. cbn [app drop]. rewrite drop_app_le by exact Hk.
  replace f with (length (drop k (args o)) + (f - (length (args o) - k)))%nat at 1 by (rewrite length_drop; lia).
  by apply scan_skip.
Qed.

Lemma scan_options os rest : forall f, Forall ok os -> (length ((os ≫= render) ++ rest) <= f)%nat -> exists f',
  (length rest <= f')%nat /\
  forall s, scan step f ((os ≫= render) ++ rest) s = (options os s ≫= scan step f' rest).
Proof using All.
  induction os as [|o os IH]; intros f Hok Hf.
  - exists f. split; [exact Hf|]. intros s. symmetry. apply ret_bind.
  - apply Forall_cons in Hok as [Ho Hok].
    change ((o :: os) ≫= render) with (render o ++ (os ≫= render)) in *.
    rewrite <-app_assoc in *. rewrite length_app in Hf. cbn [render length] in Hf.
    destruct f as [|f]; [lia|].
    destruct (scan_option o ((os ≫= render) ++ rest) f Ho) as (f1 & Hf1 & E1); [lia|].
    destruct (IH f1 Hok) as (f2 & Hf2 & E2); [lia|].
    exists f2. split; [exact Hf2|]. intros s. rewrite E1. cbn [options]. rewrite bind_assoc.
    by apply bind_ext.
Qed.

End Options.

(** The laws of the two monads. *)
Lemma res_ret_bind A B (a : A) (k : A -> res B) : (mret a ≫= k) = k a.
Proof. reflexivity. Qed.

Lemma res_bind_assoc A B C (m : res A) (k : A -> res B) (k' : B -> res C) :
  ((m ≫= k) ≫= k') = (m ≫= fun a => k a ≫= k').
Proof. by destruct m. Qed.

Lemma res_bind_ext A B (m : res A) (k k' : A -> res B) : (forall a, k a = k' a) -> (m ≫= k) = (m ≫= k').
Proof. intros H. destruct m; [apply H|reflexivity]. Qed.

Lemma Run_ret_bind A B (a : A) (k : A -> Run B) : (mret a ≫= k) = k a.
Proof. unfold mret, Run_ret, mbind, Run_bind. by destruct (k a). Qed.

Lemma Run_bind_assoc A B C (m : Run A) (k : A -> Run B) (k' : B -> Run C) :
  ((m ≫= k) ≫= k') = (m ≫= fun a => k a ≫= k').
Proof.
  destruct m as [cs [a|e]]; unfold mbind, Run_bind; [|reflexivity].
  destruct (k a) as [cs1 [c|e]]; [|reflexivity].
  destruct (k' c) as [cs2 r]. by rewrite app_assoc.
Qed.

Lemma Run_bind_ext A B (m : Run A) (k k' : A -> Run B) : (forall a, k a = k' a) -> (m ≫= k) = (m ≫= k').
Proof. intros H. destruct m as [cs [a|e]]; unfold mbind, Run_bind; [by rewrite H|reflexivity]. Qed.

Lemma argc_not_one a c rest : (argc (a :: c :: rest) =? 1) = false.
Proof. unfold argc. cbn [length]. apply Z.eqb_neq. lia. Qed.

Lemma argc_two a c rest : (1 <? argc (a :: c :: rest)) = true.
Proof. unfold argc. cbn [length]. apply Z.ltb_lt. lia. Qed.

Lemma argc_three a c d rest : (2 <? argc (a :: c :: d :: rest)) = true.
Proof. unfold argc. cbn [length]. apply Z.ltb_lt. lia. Qed.

Ltac run_option :=
  intros; cbn -[argc Z.ltb Z.eqb atoi]; rewrite ?argc_not_one, ?argc_two, ?argc_three; reflexivity.

(** What is left of the arguments of a good option. *)
Ltac good_option_args H :=
  cbn -[good plain quiet] in H; unfold good in H; cbn [THREADS] in H; rewrite ?andb_true_r in H;
  repeat rewrite andb_true_iff in H; try discriminate H.

(** Initialize at one argument or option: *)
Lemma setting_plain b a argv s : plain a = true -> setting b a argv s = Ok (1%nat, s).
Proof.
  intros H. unfold setting. rewrite !(plain_not_option a) by exact H.
  rewrite !andb_false_r. reflexivity.
Qed.

Lemma setting_option b o rest : good_option b o = true -> exists k,
  (forall s, setting b (flag o) (render o ++ rest) s = (Ok (set_option b s o) ≫= fun s' => mret (S k, s'))) /\
  (k <= length (args o))%nat /\ forallb plain (drop k (args o)) = true.
Proof.
  intros Hg. destruct b as [[] [] [] [] []], o; good_option_args Hg.
  all: first [ exists 0%nat; split; [run_option|] | exists 1%nat; split; [run_option|] ].
  all: split; [cbn; lia|cbn -[plain]; rewrite ?andb_true_r, ?andb_true_iff; tauto].
Qed.

Lemma setting_ending b t f s : (length (render_ending t) <= f)%nat -> good_ending b t = true ->
  scan (setting b) f (render_ending t) s = set_ending b t s.
Proof.
  intros Hf Hg. destruct t; cbn [render_ending length] in Hf; cbn [good_ending] in Hg;
    unfold good in Hg; try apply andb_true_iff in Hg as [Hg _].
  all: destruct f as [|f]; [first [lia|reflexivity]|].
  all: try (destruct f as [|f]; [lia|]).
  all: try (destruct b as [[] [] [] [] []]; destruct f; reflexivity).
  all: cbn [render_ending]; match goal with |- scan _ _ (?x :: _) _ = _ =>
         assert (E : forall argv, setting b x argv s = Ok (1%nat, s)) by (intros; destruct b as [[] [] [] [] []]; reflexivity)
       end.
  all: cbn [scan]; rewrite E; cbn [mbind res_bind fst snd drop]; rewrite setting_plain by exact Hg; by destruct f.
Qed.

(** main, when a call may or may not come back. *)
Section Main.
Variable returns : call -> bool.

Fixpoint perform (cs : list call) : Run unit :=
  match cs with [] => mret tt | c :: cs => _ ← do returns c; perform cs end.

Lemma perform_app cs cs' : perform (cs ++ cs') = (_ ← perform cs; perform cs').
Proof.
  induction cs as [|c cs IH]; [symmetry; apply Run_ret_bind|].
  cbn [app perform]. rewrite IH, Run_bind_assoc. apply Run_bind_ext. reflexivity.
Qed.

Lemma main_plain b a argv s : plain a = true -> main_option returns b a argv s = mret (1%nat, s).
Proof.
  intros H. unfold main_option, user_option, file_option, mail_option.
  rewrite !(plain_not_option a) by exact H. by destruct (USER_PROGRAM b), (FILESYS b), (NETWORK b).
Qed.

Ltac run_calls :=
  intros; cbn -[argc Z.ltb Z.eqb atoi]; rewrite ?argc_not_one, ?argc_two, ?argc_three;
  cbn -[argc Z.ltb Z.eqb atoi];
  repeat match goal with |- context [returns ?c] => destruct (returns c) end; reflexivity.

Lemma main_option_calls b o rest : good_option b o = true -> exists k,
  (forall s, main_option returns b (flag o) (render o ++ rest) s =
             ((_ ← perform (calls b o); mret s) ≫= fun s' => mret (S k, s'))) /\
  (k <= length (args o))%nat /\ forallb plain (drop k (args o)) = true.
Proof.
  intros Hg. destruct b as [[] [] [] [] []], o; good_option_args Hg.
  all: first [ exists 0%nat; split; [run_calls|] | exists 1%nat; split; [run_calls|] | exists 2%nat; split; [run_calls|] ].
  all: split; [cbn; lia|cbn -[plain]; rewrite ?andb_true_r, ?andb_true_iff; tauto].
Qed.

Lemma main_ending b t f : (length (render_ending t) <= f)%nat -> good_ending b t = true ->
  is_ok (set_ending b t default_settings) = true ->
  scan (main_option returns b) f (render_ending t) tt =
  (_ ← perform (calls_ending b t).1; if (calls_ending b t).2 then mret tt else try (Err AssertFailed)).
Proof.
  intros Hf Hg Hs. destruct t; cbn [render_ending length] in Hf; cbn [good_ending] in Hg;
    unfold good in Hg; try apply andb_true_iff in Hg as [Hg _].
  all: destruct f as [|f]; [first [lia|reflexivity]|].
  all: try (destruct f as [|f]; [lia|]).
  all: destruct b as [[] [] [] [] []]; try discriminate Hs; try (destruct f; run_calls).
  all: cbn [render_ending]; match goal with |- scan (main_option _ ?b) _ (?x :: _) _ = _ =>
         assert (E : forall argv s, main_option returns b x argv s = mret (1%nat, s)) by reflexivity
       end.
  all: cbn [scan]; rewrite E, Run_ret_bind; cbn [fst snd drop]; rewrite main_plain by exact Hg;
    rewrite Run_ret_bind; by destruct f.
Qed.

(** The test of a build with THREADS. *)
Lemma test_quiet a argv n : quiet a = true -> test_option a argv n = Ok (1%nat, 1).
Proof.
  unfold quiet, test_option, letter. destruct a as [|c [|d a]]; [discriminate|reflexivity|].
  intros H. apply negb_true_iff in H. cbn [mbind res_bind]. by rewrite H.
Qed.

Lemma perform_thread_tests n :
  (_ ← thread_tests returns n; do returns Finish) = perform ((ThreadTest n <$> [0; 1; 2; 3; 4]) ++ [Finish]).
Proof.
  unfold thread_tests. cbn [fmap list_fmap app perform]. rewrite !Run_bind_assoc.
  repeat (apply Run_bind_ext; intros []; rewrite ?Run_bind_assoc). reflexivity.
Qed.
End Main.

Lemma test_skip l rest f n : forallb quiet l = true -> l <> [] ->
  scan test_option (length l + f) (l ++ rest) n = scan test_option f rest 1.
Proof.
  revert n. induction l as [|a l IH]; intros n H Hl; [congruence|].
  cbn [forallb] in H. apply andb_true_iff in H as [Ha H].
  cbn [length Nat.add app scan]. rewrite test_quiet by exact Ha.
  rewrite bind_Ok. cbn [fst snd drop]. destruct l as [|c l]; [reflexivity|by apply IH].
Qed.

(** Every option but -q is passed over, with its arguments. *)
Lemma quiet_option b o : THREADS b = true -> good_option b o = true ->
  (exists a, o = O_q a) \/ (forallb quiet (render o) = true /\ forall n, set_test n o = 1).
Proof.
  intros Hb Hg. destruct b as [? [] [] [] []]; cbn in Hb; subst; destruct o; good_option_args Hg.
  all: first [ by left; eexists | right; split; [cbn -[quiet]|reflexivity] ].
  all: rewrite ?andb_true_r; repeat (apply andb_true_iff; split); first [reflexivity|tauto].
Qed.

Lemma scan_test_option b o rest f n : THREADS b = true -> good_option b o = true ->
  (length (render o) <= f)%nat -> exists f', (f - length (render o) <= f')%nat /\
  scan test_option f (render o ++ rest) n = scan test_option f' rest (set_test n o).
Proof.
  intros Hb Hg Hf. destruct (quiet_option b o Hb Hg) as [(a & ->)|(Hq & Ht)].
  - destruct f as [|f]; [cbn in Hf; lia|]. exists f. split; [cbn; lia|reflexivity].
  - exists (f - length (render o))%nat. split; [lia|].
    replace f with (length (render o) + (f - length (render o)))%nat at 1 by lia.
    rewrite Ht. by apply test_skip.
Qed.

Lemma test_ending b t f n : THREADS b = true -> (length (render_ending t) <= f)%nat -> good_ending b t = true ->
  scan test_option f (render_ending t) n = Ok (set_test_ending n t).
Proof.
  intros Hb Hf Hg. destruct t; cbn [render_ending length] in Hf; cbn [good_ending] in Hg;
    unfold good in Hg; rewrite ?Hb in Hg; try apply andb_true_iff in Hg as [_ Hg].
  all: destruct f as [|f]; [first [lia|reflexivity]|].
  all: try (destruct f as [|f]; [lia|]).
  all: try (destruct f; reflexivity).
  all: cbn [render_ending scan]; match goal with |- context [test_option ?x ?l ?m] =>
         change (test_option x l m) with (@Ok (nat * Z) (1%nat, 1)) end.
  all: rewrite bind_Ok; cbn [fst snd drop]; rewrite test_quiet by exact Hg; by destruct f.
Qed.

(** The three loops on a command line. *)
Lemma drop_name name os t : drop 1 (command_line name os t) = (os ≫= render) ++ render_ending t.
Proof. reflexivity. Qed.

Lemma command_line_length name os t :
  (length ((os ≫= render) ++ render_ending t) <= length (command_line name os t))%nat.
Proof. cbn [command_line length]. lia. Qed.

Lemma good_options b os : forallb (good_option b) os = true -> Forall (fun o => good_option b o = true) os.
Proof. intros H. apply Forall_forall. intros o Ho. rewrite forallb_forall in H. apply H. by apply list_elem_of_In. Qed.

Lemma options_set {St} (h : St -> opt -> St) os s : options (fun o s => Ok (h s o)) os s = Ok (foldl h s os).
Proof. revert s. induction os as [|o os IH]; intros s; [reflexivity|]. cbn [options foldl]. by rewrite bind_Ok. Qed.

Lemma settings_command_line b name os t :
  forallb (good_option b) os = true -> good_ending b t = true ->
  settings b (command_line name os t) = set_ending b t (foldl (set_option b) default_settings os).
Proof.
  intros Hos Ht. unfold settings. rewrite drop_name.
  destruct (scan_options res_ret_bind res_bind_assoc res_bind_ext (setting b) (fun o s => Ok (set_option b s o))
    plain (fun o => good_option b o = true) (setting_plain b) (setting_option b) os (render_ending t)
    (length (command_line name os t)) (good_options b os Hos) (command_line_length name os t)) as (f & Hf & E).
  rewrite E, options_set, bind_Ok. by apply setting_ending.
Qed.

Lemma test_options b os rest : forall f n, THREADS b = true -> forallb (good_option b) os = true ->
  (length ((os ≫= render) ++ rest) <= f)%nat -> exists f',
  (length rest <= f')%nat /\
  scan test_option f ((os ≫= render) ++ rest) n = scan test_option f' rest (foldl set_test n os).
Proof.
  induction os as [|o os IH]; intros f n Hb Hos Hf; [by exists f|].
  cbn [forallb] in Hos. apply andb_true_iff in Hos as [Ho Hos].
  change ((o :: os) ≫= render) with (render o ++ (os ≫= render)) in *.
  rewrite <-app_assoc in *. rewrite length_app in Hf.
  destruct (scan_test_option b o ((os ≫= render) ++ rest) f n Hb Ho) as (f1 & Hf1 & ->); [lia|].
  apply IH; [exact Hb|exact Hos|lia].
Qed.

Lemma test_command_line b name os t : THREADS b = true ->
  forallb (good_option b) os = true -> good_ending b t = true ->
  scan test_option (length (command_line name os t)) (drop 1 (command_line name os t)) 1 =
  Ok (set_test_ending (foldl set_test 1 os) t).
Proof.
  intros Hb Hos Ht. rewrite drop_name.
  destruct (test_options b os (render_ending t) (length (command_line name os t)) 1 Hb Hos (command_line_length name os t))
    as (f & Hf & E).
  rewrite E. by eapply test_ending.
Qed.

Section MainLoop.
Variable returns : call -> bool.

Lemma options_perform b os :
  options (fun o s => _ ← perform returns (calls b o); mret s) os tt = perform returns (os ≫= calls b).
Proof.
  induction os as [|o os IH]; [reflexivity|].
  change ((o :: os) ≫= calls b) with (calls b o ++ (os ≫= calls b)).
  cbn [options]. rewrite perform_app, Run_bind_assoc. apply Run_bind_ext. intros _.
  rewrite Run_ret_bind. exact IH.
Qed.

Lemma main_command_line b name os t :
  forallb (good_option b) os = true -> good_ending b t = true ->
  is_ok (set_ending b t default_settings) = true ->
  scan (main_option returns b) (length (command_line name os t)) (drop 1 (command_line name os t)) tt =
  (_ ← perform returns ((os ≫= calls b) ++ (calls_ending b t).1);
   if (calls_ending b t).2 then mret tt else try (Err AssertFailed)).
Proof.
  intros Hos Ht Hs. rewrite drop_name.
  destruct (scan_options Run_ret_bind Run_bind_assoc Run_bind_ext (main_option returns b)
    (fun o s => _ ← perform returns (calls b o); mret s)
    plain (fun o => good_option b o = true) (main_plain returns b) (main_option_calls returns b) os (render_ending t)
    (length (command_line name os t)) (good_options b os Hos) (command_line_length name os t)) as (f & Hf & E).
  rewrite E, options_perform, perform_app, Run_bind_assoc.
  apply Run_bind_ext. intros []. by apply main_ending.
Qed.
End MainLoop.

(** ** Initialize *)

(** The kernel after a start with the settings [s]. *)
Definition kernel_objects (b : Build) (s : Settings) : list (global * object) :=
  [(stats, NewStatistics); (interrupt, NewInterrupt); (scheduler, NewScheduler)] ++
  (if randomYield s then [(timer, NewTimer true)] else []) ++
  [(currentThread, NewThread "main")] ++
  (if USER_PROGRAM b then
     [(machine, NewMachine (debugUserProg s)); (memManager, NewMemoryManager); (procManager, NewProcessManager);
      (vm, NewVMManager); (openFileManager, NewSysOpenFileManager); (diskBuffer, NewDiskBuffer)]
   else []) ++
  (if FILESYS b then [(synchDisk, NewSynchDisk "DISK")] else []) ++
  (if FILESYS_NEEDED b then [(fileSystem, NewFileSystem (format s))] else []) ++
  (if NETWORK b then [(postOffice, NewPostOffice (netname s) (rely s) 10)] else []).

(** What Cleanup leaves. *)
Definition left_behind (b : Build) : list global :=
  [stats; currentThread] ++ (if USER_PROGRAM b then [openFileManager; diskBuffer] else []).

(** Which messages -d turns on. *)
Definition enabled (flags : string) (c : ascii) : Prop :=
  c ∈ list_ascii_of_string flags \/ "+"%char ∈ list_ascii_of_string flags.

Lemma DebugIsEnabled_spec w f c : enableFlags w = Some f -> c <> Ascii.zero ->
  DebugIsEnabled c w = true <-> enabled f c.
Proof.
  intros Hw Hc. unfold DebugIsEnabled, enabled. rewrite Hw, orb_true_iff, strchr_spec by exact Hc.
  by rewrite strchr_spec by discriminate.
Qed.

Section Objects.
Variable constructs : object -> bool.
Hypothesis constructs_all : forall o, constructs o = true.

Lemma build_objects_spec b s r :
  build_objects constructs b s (mkWorld None r []) =
  if USER_PROGRAM b && FILESYS b then Err MemFault
  else Ok (tt, mkWorld (Some (debugArgs s)) r (kernel_objects b s)).
Proof using All.
  destruct b as [? [] [] [] []], s as [d [] sd u fm rl nn]; unfold build_objects, new, assert;
    repeat (cbn; rewrite constructs_all); reflexivity.
Qed.

Lemma Cleanup_objects_spec b s f r : USER_PROGRAM b && FILESYS b = false ->
  exists os, Cleanup_objects b (mkWorld f r (kernel_objects b s)) = Ok (tt, mkWorld f r os) /\
    os.*1 = left_behind b.
Proof.
  intros Hb. destruct b as [? [] [] [] []], s as [d [] sd u fm rl nn]; try discriminate Hb;
    eexists; split; reflexivity.
Qed.
End Objects.

(** C36: the start of a kernel.  Given a command line made of options
    with their arguments (no argument looks like an option), Initialize
    fails an ASSERT if the line ends in -rs (or in -l or -m, with a
    network) without its number.  Otherwise, in a build with user programs
    and the real file system, it fails: the virtual memory manager creates
    the swap file through fileSystem, which is still NULL.  In every other
    build it builds the objects that the options ask for, each after the
    ones it uses, the last of several settings counting; the debugging
    messages are those that -d names; and Cleanup finds everything it
    needs, and leaves the statistics, the main thread, the table of open
    files and the disk buffer. *)
Theorem Initialize_correct (constructs : object -> bool) b name os t :
  (forall o, constructs o = true) ->
  forallb (good_option b) os = true -> good_ending b t = true ->
  match set_ending b t (foldl (set_option b) default_settings os) with
  | Err e => e = AssertFailed /\ Initialize constructs b (command_line name os t) World0 = Err AssertFailed
  | Ok s =>
      if USER_PROGRAM b && FILESYS b
      then Initialize constructs b (command_line name os t) World0 = Err MemFault
      else exists w, Initialize constructs b (command_line name os t) World0 = Ok (tt, w) /\
        objects w = kernel_objects b s /\ srand w = seed s /\
        (forall c, c <> Ascii.zero -> DebugIsEnabled c w = true <-> enabled (debugArgs s) c) /\
        Cleanup b w = Err Exited /\
        exists w', Cleanup_objects b w = Ok (tt, w') /\ (objects w').*1 = left_behind b
  end.
Proof.
  intros Hc Hos Ht. unfold Initialize.
  rewrite settings_command_line by assumption.
  destruct (set_ending b t _) as [s|e] eqn:Es.
  - set (r := seed s).
    assert (E : (_ ← lift (Ok s); _ ← match r with Some n => RandomInit n | None => ret tt end;
                 build_objects constructs b s) World0 =
                build_objects constructs b s (mkWorld None r [])) by (by destruct r).
    change ((s ← lift (Ok s); _ ← match seed s with Some n => RandomInit n | None => ret tt end;
             build_objects constructs b s) World0 = build_objects constructs b s (mkWorld None r [])) in E.
    rewrite E, build_objects_spec by exact Hc.
    destruct (USER_PROGRAM b && FILESYS b) eqn:Hb; [reflexivity|].
    eexists. split; [reflexivity|]. split; [reflexivity|]. split; [reflexivity|].
    split; [intros c; by apply DebugIsEnabled_spec|].
    destruct (Cleanup_objects_spec b s (Some (debugArgs s)) r Hb) as (os' & Ec & El).
    split; [|eexists; split; [exact Ec|exact El]].
    unfold Cleanup, mbind, M_bind. by rewrite Ec.
  - assert (e = AssertFailed) as -> by (destruct t; cbn in Es; try discriminate; try destruct (NETWORK b); congruence).
    split; reflexivity.
Qed.

Lemma Initialize_correct_witness :
  (exists w, Initialize (fun _ => true) userprog_build ["nachos"; "-d"; "ta"; "-rs"; "7"; "-s"; "-x"; "halt"] World0 = Ok (tt, w) /\
     objects w = kernel_objects userprog_build (mkSettings "ta" true (Some 7) true false None 0) /\
     srand w = Some 7 /\
     (forall c, c <> Ascii.zero -> DebugIsEnabled c w = true <-> enabled "ta" c) /\
     Cleanup userprog_build w = Err Exited /\
     exists w', Cleanup_objects userprog_build w = Ok (tt, w') /\ (objects w').*1 = left_behind userprog_build) /\
  Initialize (fun _ => true) filesys_build ["nachos"; "-f"; "-cp"; "a"; "b"] World0 = Err MemFault /\
  (AssertFailed = AssertFailed /\
   Initialize (fun _ => true) network_build ["nachos"; "-o"; "1"; "-m"] World0 = Err AssertFailed).
Proof.
  split; [|split].
  - exact (Initialize_correct (fun _ => true) userprog_build "nachos" [O_d "ta"; O_rs "7"; O_s; O_x "halt"] T_none
      (fun _ => eq_refl) eq_refl eq_refl).
  - exact (Initialize_correct (fun _ => true) filesys_build "nachos" [O_f; O_cp "a" "b"] T_none
      (fun _ => eq_refl) eq_refl eq_refl).
  - exact (Initialize_correct (fun _ => true) network_build "nachos" [O_o "1"] T_m
      (fun _ => eq_refl) eq_refl eq_refl).
Defined.

(** ** main *)

Lemma Initialize_settings constructs b argv w : Initialize constructs b argv World0 = Ok (tt, w) -> is_ok (settings b argv) = true.
Proof. unfold Initialize. by destruct (settings b argv). Qed.

Lemma set_ending_ok b t s s' : is_ok (set_ending b t s) = is_ok (set_ending b t s').
Proof. destruct t; try reflexivity; cbn; by destruct (NETWORK b). Qed.

(** C35: main and the command line.  After Initialize, a build with
    THREADS runs the thread test for 0 to 4 threads and finishes: of the
    command line it uses only -q, and that only if it comes last.  Any
    other build makes the calls that the options it knows ask for, in
    their order, up to the first that does not come back; then it
    finishes, or fails an ASSERT if the last option lacks an argument. *)
Theorem main_correct (constructs : object -> bool) (returns : call -> bool) b name os t :
  forallb (good_option b) os = true -> good_ending b t = true ->
  main constructs returns b (command_line name os t) =
  match Initialize constructs b (command_line name os t) World0 with
  | Err e => ([], inr (Failed e))
  | Ok _ =>
      if THREADS b then
        perform returns ((ThreadTest (set_test_ending (foldl set_test 1 os) t) <$> [0; 1; 2; 3; 4]) ++ [Finish])
      else
        _ ← perform returns ((os ≫= calls b) ++ (calls_ending b t).1);
        if (calls_ending b t).2 then do returns Finish else try (Err AssertFailed)
  end.
Proof.
  intros Hos Ht. unfold main.
  destruct (Initialize constructs b (command_line name os t) World0) as [[[] w]|e] eqn:E; [|reflexivity].
  apply Initialize_settings in E. rewrite settings_command_line in E by assumption.
  rewrite (set_ending_ok b t _ default_settings) in E.
  change (try (Ok ((), w))) with (@mret Run _ _ ((), w)). rewrite Run_ret_bind.
  destruct (THREADS b) eqn:Hb.
  - rewrite test_command_line with (b := b) by assumption.
    change (try (Ok ?z)) with (@mret Run _ _ z). rewrite Run_ret_bind, Run_bind_assoc, <-perform_thread_tests.
    apply Run_bind_ext. intros []. by rewrite Run_ret_bind.
  - rewrite Run_ret_bind, main_command_line by assumption. rewrite Run_bind_assoc.
    apply Run_bind_ext. intros []. destruct (calls_ending b t).2; [apply Run_ret_bind|reflexivity].
Qed.

Definition all_back (c : call) : bool := true.
Definition files_build : Build := mkBuild false false true true false.

(** nachos -z -x a -d u -cp u n -c in out -x b; nachos -cp u n -l -p;
    nachos -q 2 -z. *)
Lemma main_correct_witness :
  main (fun _ => true) all_back userprog_build
    (command_line "nachos" [O_z; O_x "a"; O_d "u"; O_cp "u" "n"; O_c "in" "out"; O_x "b"] T_none) =
    ([PrintCopyright; StartProcess "a"; ConsoleTest (Some ("in", "out")); Halt], inr Away) /\
  main (fun _ => true) all_back files_build (command_line "nachos" [O_cp "u" "n"; O_l] T_p) =
    ([Copy "u" "n"; List], inr (Failed AssertFailed)) /\
  main (fun _ => true) all_back threads_build (command_line "nachos" [O_q "2"; O_z] T_none) =
    ((ThreadTest 1 <$> [0; 1; 2; 3; 4]) ++ [Finish], inr Away).
Proof.
  split; [|split]; (rewrite main_correct; [vm_compute|vm_compute|vm_compute]; reflexivity).
Defined.
